(* ===== verification/_CoqProject ===== *)
-Q . S2P
Prelude.v
Config.v
Address.v
PhysMem.v
FrameAllocator.v
PageTable.v
PageTableSpec.v
UserAccess.v
MemorySet.v
MemorySetSpec.v
ForkSpec.v
SpaceSpec.v
ElfSpec.v
Timer.v
Pid.v
Utf8.v
Kernel.v
Manager.v
Task.v
Loader.v
Processor.v
Syscall.v
Trap.v
Boot.v
KernelSpec.v
SchedulerSpec.v
MmapSpec.v
LifecycleSpec.v
KernelStackSpec.v
KernelSpaceSpec.v
KernelInv.v
ProcessSpec.v
UserMemSpec.v
SysForkSpec.v
SysSpawnSpec.v
SysExecSpec.v
WaitSpec.v
ExitSpec.v
ScheduleSpec.v
HandlerSpec.v
SystemSpec.v
BootSpec.v
Machine.v
WidthSpec.v
TrapAsm.v
Codec.v
BlockCache.v
BlockCacheSpec.v
BlockFile.v
DiskSpec.v
Bitmap.v
DiskLayout.v
Efs.v
Vfs.v
InodeSpec.v
InodeBlocks.v
GrowSpec.v
UserLib.v
UserSpec.v
DirSpec.v
EfsSpec.v
FsSpec.v
VfsSpec.v
RootSpec.v
PackSpec.v
RiscvAddr.v
RiscvAddrSpec.v
RiscvPaging.v
RiscvPagingSpec.v
RiscvMapperSpec.v
RiscvTablesSpec.v
RiscvCsr.v
RiscvRegisters.v
RiscvCsrSpec.v
RiscvOs5.v
TestPrograms.v
Coroutine.v
Stackful.v
Stackless.v
Shell.v
