(* ===== verification/Prelude.v ===== *)
(** * The os5 kernel, the easy-fs file system, the user library and the riscv crate

    A verification development for the teaching operating system of this repository: the
    os5 kernel (src/os5), the easy-fs file system and its packer (src/easy-fs,
    src/easy-fs-fuse), the library that user programs link (src/user), some of these
    programs (src/user/src/bin, src/ci-user/user/src/bin) and the riscv crate that the
    repository carries for its tests (src/ci-user/riscv).

    ** The program

    os5 is a single-core kernel for riscv64 with Sv39 paging.  Physical frames come from a
    stack allocator; page tables are trees of frames; an address space (a [MemorySet]) is a
    page table with a list of areas.  A process is a control block with an address space, a
    kernel stack, children and the state of a stride scheduler.  A trap enters the kernel;
    the dispatcher runs a system call, which may map memory, create, replace, wait for or
    end processes, or switch to another one.  easy-fs stores an inode tree on a block
    device behind a write-back cache of sixteen blocks.  The user library wraps the system
    calls and buffers console output.  The riscv crate gives kernels typed addresses, page
    tables of two, three and four levels over a frame allocator of the client, and accessors
    of the fields of control and status registers.

    ** The files, bottom up

    - [Prelude] (this file): machine words, the state-and-panic monad, total-correctness
      assertions, vectors, maps; [Utf8]: [core::str::from_utf8].
    - Memory management (os5/src/mm): [Config], [Address] (address.rs), [PhysMem] (the bytes
      of physical memory), [FrameAllocator] (frame_allocator.rs, with the class
      [FrameAllocatorSpec] that the other files are proved against), [PageTable] and
      [PageTableSpec] (page_table.rs), [UserAccess] (the translated_* functions),
      [MemorySet], [MemorySetSpec], [ForkSpec], [SpaceSpec] (address spaces side by side)
      and [ElfSpec] (loading a program) for memory_set.rs.
    - Processes (os5/src/task, loader.rs, timer.rs, sync/up.rs): [Timer], [Pid], [Kernel]
      (the statics, the heap of control blocks, [RefCell] guards), [Manager] (the
      scheduler), [Task] (new, exec, fork, spawn, drop), [Loader], [Processor] (mmap,
      munmap, suspend, exit, the idle loop).
    - Entry points: [Syscall] (os5/src/syscall), [Trap] (trap/mod.rs, and one step of the
      system), [Boot] (main.rs).
    - Theorems on parts of the kernel: [KernelSpec] (rules), [SchedulerSpec], [MmapSpec],
      [LifecycleSpec], [KernelStackSpec], [KernelSpaceSpec].
    - The invariant of the kernel, [kernel_ok] of [KernelInv]: no guard is held; all address
      spaces are well formed, in frames apart from each other, from the free ones and from
      the image of the kernel; every live pid has its kernel stack; the processes form a
      tree below INITPROC; the queue holds exactly the ready ones.  [ProcessSpec],
      [UserMemSpec], [SysForkSpec], [SysSpawnSpec], [SysExecSpec], [WaitSpec], [ExitSpec],
      [ScheduleSpec] and [HandlerSpec] show that the calls keep it; [SystemSpec] composes
      them to traps and runs of the system, [BootSpec] establishes it, and [Machine] boots
      a concrete machine and runs processes on it.
    - [WidthSpec]: rules for computations that keep values within the types of the source,
      for every operation of the kernel.  [TrapAsm]: the instructions of trap/trap.S on a
      hart with registers and an address space.
    - File system: [Codec] (values as bytes), [BlockCache], [BlockCacheSpec] and [DiskSpec]
      (block_cache.rs, block_dev.rs), [BlockFile] (the device of easy-fs-fuse, an instance
      of the class [BlockDeviceSpec]), [Bitmap] (bitmap.rs, with its theorems), [DiskLayout]
      (layout.rs), [Efs] (efs.rs), [Vfs] (vfs.rs and the packer).
    - Theorems on the file system: [InodeSpec] (reading and writing an inode), [InodeBlocks]
      and [GrowSpec] (the blocks an inode owns, growth and clearing), [DirSpec] (directory
      entries), [EfsSpec] (formatting and opening), [FsSpec] (a disk that represents a finite
      map of files), [VfsSpec] (files), [RootSpec] (the root directory), [PackSpec] (the
      packer).
    - User side: [UserLib] (user/src/lib.rs, syscall.rs, console.rs) as interaction trees,
      [UserSpec].
    - User programs, each file with its theorems: [TestPrograms] (user/src/bin/ch4_mmap0 to
      ch4_mmap3, ch4_unmap2, ch5_setprio, run on the kernel), [Shell] (the shell of
      ci-user/user/src/bin/ch8b_user_shell.rs, on any kernel that meets the class
      [FdKernel], and user/src/bin/ch5b_initproc.rs), [Coroutine] (what the two runtimes
      share), [Stackful] and [Stackless] (ch8b_stackful_coroutine.rs and
      ch8b_stackless_coroutine.rs).
    - The riscv crate: [RiscvAddr] (addr/*.rs, with the crate bit_field as the class
      [BitField]) and [RiscvAddrSpec]; [RiscvPaging] (paging/*.rs: entries, the trait
      [Mapper] and the tables), [RiscvPagingSpec] (trees of tables),
      [RiscvMapperSpec] (the class [MapperSpec], and that a tree of any depth is an
      instance) and [RiscvTablesSpec] (the three tables as trees); [RiscvOs5] (its Sv39
      tables beside those of os5); [RiscvCsr] (how register/*.rs reads and writes fields,
      causes, trap vectors), [RiscvRegisters] (the accessors of each register, as tables) and
      [RiscvCsrSpec].

    ** Conventions

    A stateful function is a value of [M S A]: it returns a result and a new state, or
    panics with a reason; [unwrap], [assert!], indexing, [RefCell] guards and spin locks
    that cannot be taken are panics of the model as they are of the program (a spin lock
    taken twice hangs, which is the reason [Deadlock]).  [wp m Q s] says that [m] returns
    from [s] and [Q] holds; it excludes panics.  The programs are built in release mode, so
    arithmetic on [usize], [u64] and [u32] wraps, and [+%], [-%], [*%], [<<%], [wrap32]
    write this out.  Memory is a function from addresses to bytes; a control block lives in
    a heap indexed by allocation number, which stands for its [Arc]; references are counted
    where the code depends on the count.  A guard of [exclusive_access] is the scope
    [with_cell].  A task that leaves the processor records in [kstack] the call it returns
    to, which is what [__switch] keeps on its kernel stack.  A block of a device is cached,
    locked and referenced as in the source; [view] is the disk that the cache stands for.

    The kernel reaches memory through its own page table, which maps the image and the
    memory up to [MEMORY_END] to themselves and the sections before the data only for
    reading.  An access elsewhere traps to [trap_from_kernel], which panics: the accesses
    whose address user code can influence (system calls, the copies of [fork] and of the
    loader) are checked by [kernel_maps] and [kernel_writes] and panic with [PageFault].
    That these checks are what the page table of [new_kernel] permits is a theorem of
    [KernelSpaceSpec].

    Hardware, firmware, the linker's symbols, the ELF parser and the compiler's layout of
    [TaskInfo] are fields of the record [Platform] or arguments; a block device is any
    instance of [BlockDevice]; the files of the host are arguments of [easy_fs_pack].  The
    kernel below the shell is any that meets [FdKernel], in which an [open] can be refused;
    the allocator of a user program any that meets [UserHeap]; a hart below the register
    accessors any that meets [HartSpec], which promises nothing of bits that are not writable.

    ** What the theorems show

    - Memory: the allocator conserves frames over every history; [map] and [unmap] of a
      page table refine insertion into and deletion from a finite map, or fail their
      assertion; fork copies an address space into frames of its own; dropping an address
      space gives back exactly its frames; user buffers and strings are translated to the
      right physical bytes; iteration over page ranges ends and visits each page; the memory
      that the kernel can access is what the page table of its own address space maps.
    - Processes: tasks run in proportion to their priorities while passes do not wrap, and
      one can be starved when they do; [mmap], [munmap], [exit] and the pending cases of
      [waitpid] are characterised on every branch; pids and kernel stacks do not collide;
      the kernel panics when INITPROC exits, and when a process forks after a [munmap] of pages
      of an area.
    - The system: [rust_main] boots into user mode; [fork], [spawn], [exec] and the reaping
      [waitpid] do what they promise to the process, leave all else alone and keep the
      invariant; in every state that a booted system reaches, user code reaches no memory
      but the pages of its process; from every state reached, a trap is handled without panic unless it is one of those listed as
      fatal ([trap_ready] of [SystemSpec] is the list of the others: a [munmap] that succeeds
      is not among them, since the areas it leaves behind break the invariant); in every
      state reached from start-up, values are within their types; the assembly of a trap
      saves the registers of user code in its trap context without a fault and gives them
      back.
    - File system: the cache refines a flat disk; bitmaps allocate the first clear bit;
      reading and writing an inode read and replace exactly the bytes of the file, through
      the indirect blocks; growing an inode appends the blocks it is given and clearing it
      returns the blocks it owns; what formatting writes is on the device when it returns, and
      opening, also after a restart, finds it; on a formatted
      device, [create], [find], [ls], [write_at], [read_at] and [clear] refine a finite map
      from inode numbers to byte strings with a list of names; the packer's image can be read
      back; directory entries keep names of up to 27 bytes.  Three theorems are about inputs the code mishandles: two
      devices, names of 28 bytes, an empty write after 28 blocks.
    - User library: [wait] returns the first answer that is not -2, printing keeps every
      byte in order, and the system-call interface agrees with the dispatcher.
    - User programs: the tests of [mmap], [munmap] and [set_priority] pass on the kernel, or
      end in the fault they provoke; the program of INITPROC never exits; the shell reads a
      command as its words and redirections, and panics when a redirection has no name; a
      child of a pipeline has its ends of the pipes and no others, if its files can be opened;
      both coroutine runtimes end and run their tasks in turn, though the program with stacks
      has no memory for its own.
    - The riscv crate: splitting an address into page-table indexes and joining them are
      inverse to each other, and Sv39 drops the high bits of a top index that is too large;
      every sequence of calls of a [Mapper], with [update_flags] only of mapped pages, is
      answered as a finite map from pages to frames answers it; on the same tree os5 and the
      crate find the same entries, and [unmap] takes the same pages for mapped as os5; a
      setter of a register changes the bits that the getter of the same name reads
      and no others; the roots of the guest tables are too small for the
      indexes of guest addresses.

    ** Bounds and fuel

    Loops are folds over the list they visit, or recursion with fuel.  [blocks_between] is
    the number of blocks a read or write touches, [buffer_fuel] the pages a buffer can
    touch, and the loops that fill block numbers count the numbers; the theorems show that
    these suffice.  [str_fuel] bounds the length of a string the kernel reads from user
    memory, which the code does not bound.  The drop of a process visits no more processes
    than there are.  The coroutine runtimes need a step for each part of a task between two
    yields, and the one with stacks one more for each round, which their theorems assume as
    fuel.

    ** Not modelled

    The assembly of switch.S and entry.asm (a switch of kernel stacks is a cut in the model),
    the effect of device registers, the heap allocators (but for the stacks of [Stackful],
    allocations on the heap are taken to succeed), formatted output, the packer's test
    [efs_test], which does not type-check, the other programs under user/src/bin and
    ci-user/user/src/bin, the library in ci-user/user (a copy of the one in user), and os5-ref,
    an earlier version of os5.  Of the riscv crate: the instruction wrappers (asm.rs,
    interrupt.rs), the generator of its assembly, the register misa and what it compiles for
    riscv32 only. *)

From Stdlib Require Export ZArith Lia.
From stdpp Require Export base numbers tactics gmap sorting.
From stdpp Require Export list.

#[global] Open Scope Z_scope.
#[global] Open Scope list_scope.

(** ** Machine words *)

(** The kernel is built for riscv64 with [cargo build --release] and no
    [overflow-checks] key, so [usize]/[u64] arithmetic wraps at 2^64 and [u32]
    arithmetic at 2^32; every operation that may wrap is written out. *)
Definition usize_max : Z := 2 ^ 64 - 1.
Definition wrap64 (x : Z) : Z := x mod 2 ^ 64.
Definition wrap32 (x : Z) : Z := x mod 2 ^ 32.
Definition wrap8 (x : Z) : Z := x mod 2 ^ 8.

Declare Scope word_scope.
Delimit Scope word_scope with W.
Notation "a +% b" := (wrap64 (a + b)) (at level 50, left associativity) : word_scope.
Notation "a -% b" := (wrap64 (a - b)) (at level 50, left associativity) : word_scope.
Notation "a *% b" := (wrap64 (a * b)) (at level 40, left associativity) : word_scope.
Notation "a <<% b" := (wrap64 (Z.shiftl a b)) (at level 35, right associativity) : word_scope.
#[global] Open Scope word_scope.

Definition is_usize (x : Z) : Prop := 0 <= x < 2 ^ 64.
Definition is_u32 (x : Z) : Prop := 0 <= x < 2 ^ 32.
Definition is_u8 (x : Z) : Prop := 0 <= x < 2 ^ 8.

(** [x as isize] for a [usize] value, and back. *)
Definition as_isize (x : Z) : Z := if x <? 2 ^ 63 then x else x - 2 ^ 64.
Definition as_usize (x : Z) : Z := wrap64 x.

(** [x as i32] for a [usize] value. *)
Definition as_i32 (x : Z) : Z := if wrap32 x <? 2 ^ 31 then wrap32 x else wrap32 x - 2 ^ 32.

(** ** Panics and the state monad *)

(** Why a computation stopped: [unwrap] on [None], a failed [assert!], an index
    or slice out of range, a second [borrow_mut] of a [RefCell], an explicit
    [panic!], a division by zero, locking a spin lock that the same thread holds
    (the program hangs), an access of the kernel to memory its address space does
    not map (the trap ends in the [panic!] of [trap_from_kernel]), or the model's
    loop fuel running out (the termination theorems show when it does not). *)
Inductive panic_reason : Type :=
| UnwrapNone
| AssertFailed
| OutOfRange
| AlreadyBorrowed
| Explicit
| DivByZero
| Deadlock
| PageFault
| OutOfFuel.

#[export] Instance panic_reason_eq_dec : EqDecision panic_reason.
Proof. solve_decision. Defined.

Inductive outcome (A : Type) : Type :=
| Ok (a : A)
| Panic (r : panic_reason).
Arguments Ok {A} a.
Arguments Panic {A} r.

(** A computation over the state [S]: it returns a value and a new state, or
    panics. *)
Definition M (S A : Type) : Type := S -> outcome (A * S).

Definition ret {S A} (a : A) : M S A := fun s => Ok (a, s).
Definition bind {S A B} (m : M S A) (k : A -> M S B) : M S B :=
  fun s => match m s with
           | Ok (a, s') => k a s'
           | Panic r => Panic r
           end.
Definition panic {S A} (r : panic_reason) : M S A := fun _ => Panic r.
Definition get {S} : M S S := fun s => Ok (s, s).
Definition gets {S A} (f : S -> A) : M S A := fun s => Ok (f s, s).
Definition modify {S} (f : S -> S) : M S unit := fun s => Ok (tt, f s).

(** [assert!(b)] *)
Definition assert_ {S} (b : bool) : M S unit :=
  if b then ret tt else panic AssertFailed.

(** An access of the kernel to memory: a fault unless it is permitted. *)
Definition fault_unless {S} (b : bool) : M S unit :=
  if b then ret tt else panic PageFault.

(** [o.unwrap()] *)
Definition unwrap {S A} (o : option A) : M S A :=
  match o with
  | Some a => ret a
  | None => panic UnwrapNone
  end.

(** A computation that only depends on pure, fallible code. *)
Definition lift {S A} (o : outcome A) : M S A :=
  fun s => match o with
           | Ok a => Ok (a, s)
           | Panic r => Panic r
           end.

(** Running a computation on a part of a larger state. *)
Definition zoom {S T A} (view : S -> T) (update : T -> S -> S) (m : M T A) : M S A :=
  fun s => match m (view s) with
           | Ok (a, t) => Ok (a, update t s)
           | Panic r => Panic r
           end.

Declare Scope monad_scope.
Delimit Scope monad_scope with M.
Notation "'let*' x ':=' m 'in' k" := (bind m (fun x => k))
  (at level 100, x pattern, m at next level, right associativity,
   format "'let*'  x  ':='  m  'in' '//' k") : monad_scope.
Notation "m ;; k" := (bind m (fun _ => k))
  (at level 100, right associativity) : monad_scope.
#[global] Open Scope monad_scope.

(** [for x in l { b = f(b, x) }]: a loop whose body updates local variables. *)
Fixpoint foldM {S A B} (f : B -> A -> M S B) (l : list A) (b : B) : M S B :=
  match l with
  | [] => ret b
  | x :: l' => let* b' := f b x in foldM f l' b'
  end.

Definition for_each {S A} (l : list A) (f : A -> M S unit) : M S unit :=
  foldM (fun _ x => f x) l tt.

(** ** Total-correctness assertions *)

(** [wp m Q s]: [m] started in [s] returns (it does not panic), and its result
    and final state satisfy [Q]. *)
Definition wp {S A} (m : M S A) (Q : A -> S -> Prop) (s : S) : Prop :=
  match m s with
  | Ok (a, s') => Q a s'
  | Panic _ => False
  end.

Definition panics {S A} (m : M S A) (s : S) (r : panic_reason) : Prop := m s = Panic r.

Section wp.
Context {S : Type}.

Lemma wp_ret {A} (a : A) (Q : A -> S -> Prop) s : Q a s -> wp (ret a) Q s.
Proof. done. Qed.

Lemma wp_bind {A B} (m : M S A) (k : A -> M S B) (Q : B -> S -> Prop) s :
  wp m (fun a s' => wp (k a) Q s') s -> wp (bind m k) Q s.
Proof. unfold wp, bind. by destruct (m s) as [[a s']|]. Qed.

Lemma wp_bind_inv {A B} (m : M S A) (k : A -> M S B) (Q : B -> S -> Prop) s :
  wp (bind m k) Q s -> wp m (fun a s' => wp (k a) Q s') s.
Proof. unfold wp, bind. by destruct (m s) as [[a s']|]. Qed.

Lemma wp_bind_assoc {A B C} (m : M S A) (k : A -> M S B) (l : B -> M S C) (Q : C -> S -> Prop) s :
  wp (bind (bind m k) l) Q s -> wp (bind m (fun a => bind (k a) l)) Q s.
Proof. unfold wp, bind. by destruct (m s) as [[a s']|]. Qed.

Lemma wp_mono {A} (m : M S A) (P Q : A -> S -> Prop) s :
  (forall a s', P a s' -> Q a s') -> wp m P s -> wp m Q s.
Proof. unfold wp. destruct (m s) as [[a s']|]; auto. Qed.

Lemma wp_conj {A} (m : M S A) (P Q : A -> S -> Prop) s :
  wp m P s -> wp m Q s -> wp m (fun a s' => P a s' /\ Q a s') s.
Proof. unfold wp. destruct (m s) as [[a s']|]; auto. Qed.

Lemma wp_Ok {A} (m : M S A) (Q : A -> S -> Prop) s :
  wp m Q s <-> exists a s', m s = Ok (a, s') /\ Q a s'.
Proof.
  unfold wp. destruct (m s) as [[a s']|]; split.
  - eauto.
  - intros (? & ? & [= <- <-] & ?). done.
  - done.
  - intros (? & ? & ? & ?). done.
Qed.

Lemma wp_of_Ok {A} (m : M S A) (Q : A -> S -> Prop) s a s' :
  m s = Ok (a, s') -> Q a s' -> wp m Q s.
Proof. unfold wp. by intros ->. Qed.

Lemma wp_eq {A} (m : M S A) s a s' : wp m (fun b t => b = a /\ t = s') s -> m s = Ok (a, s').
Proof. unfold wp. by destruct (m s) as [[b t]|]; [intros [-> ->]|]. Qed.

Lemma wp_get (Q : S -> S -> Prop) s : Q s s -> wp get Q s.
Proof. done. Qed.

Lemma wp_gets {A} (f : S -> A) (Q : A -> S -> Prop) s : Q (f s) s -> wp (gets f) Q s.
Proof. done. Qed.

Lemma wp_modify (f : S -> S) (Q : unit -> S -> Prop) s : Q tt (f s) -> wp (modify f) Q s.
Proof. done. Qed.

Lemma wp_assert b (Q : unit -> S -> Prop) s : b = true -> Q tt s -> wp (assert_ b) Q s.
Proof. by intros ->. Qed.

Lemma wp_fault_unless b (Q : unit -> S -> Prop) s : b = true -> Q tt s -> wp (fault_unless b) Q s.
Proof. by intros ->. Qed.

Lemma wp_unwrap {A} (o : option A) a (Q : A -> S -> Prop) s :
  o = Some a -> Q a s -> wp (unwrap o) Q s.
Proof. by intros ->. Qed.

Lemma wp_lift {A} (o : outcome A) a (Q : A -> S -> Prop) s :
  o = Ok a -> Q a s -> wp (lift o) Q s.
Proof. by intros ->. Qed.

Lemma wp_zoom {T A} (view : S -> T) upd (m : M T A) (Q : A -> S -> Prop) s :
  wp m (fun a t => Q a (upd t s)) (view s) -> wp (zoom view upd m) Q s.
Proof. unfold wp, zoom. by destruct (m (view s)) as [[a t]|]. Qed.

(** The loop rule: an invariant indexed by the elements already visited. *)
Lemma wp_foldM {A B} (f : B -> A -> M S B) (I : list A -> B -> S -> Prop) l b s :
  I [] b s ->
  (forall done x rest b s, l = done ++ x :: rest -> I done b s ->
     wp (f b x) (fun b' s' => I (done ++ [x]) b' s') s) ->
  wp (foldM f l b) (fun b' s' => I l b' s') s.
Proof.
  intros H0 Hstep.
  assert (Hgen : forall rest done b s, l = done ++ rest -> I done b s ->
    wp (foldM f rest b) (fun b' s' => I l b' s') s).
  { clear b s H0. induction rest as [|x rest IH]; intros dn b s Hl HI; cbn [foldM].
    - apply wp_ret. by rewrite app_nil_r in Hl; subst.
    - apply wp_bind. eapply wp_mono; [|by apply Hstep with (rest := rest)].
      intros b' s' HI'. apply (IH (dn ++ [x])); [|done].
      by rewrite Hl, <-app_assoc. }
  by apply (Hgen l []).
Qed.

Lemma foldM_app {A B} (f : B -> A -> M S B) l1 l2 b s :
  foldM f (l1 ++ l2) b s = bind (foldM f l1 b) (foldM f l2) s.
Proof.
  revert b s. induction l1 as [|x l1 IH]; intros b s; [done|]; cbn.
  unfold bind at 1 2 3. destruct (f b x s) as [[b' s']|]; [|done].
  by rewrite IH.
Qed.

(** A computation that returns, followed by one that panics. *)
Lemma wp_then_panic {A B} (m : M S A) (k : A -> M S B) r s :
  wp m (fun a s' => k a s' = Panic r) s -> bind m k s = Panic r.
Proof. unfold wp, bind. by destruct (m s) as [[a s']|]. Qed.

End wp.

(** One symbolic-execution step of a [wp] goal. *)
Ltac wp_step :=
  lazymatch goal with
  | |- wp (bind _ _) _ _ => apply wp_bind
  | |- wp (ret _) _ _ => apply wp_ret
  | |- wp get _ _ => apply wp_get
  | |- wp (gets _) _ _ => apply wp_gets
  | |- wp (modify _) _ _ => apply wp_modify
  | |- wp (zoom _ _ _) _ _ => apply wp_zoom
  end.
Ltac wp_steps := repeat (wp_step; cbn beta iota).

(** ** Arithmetic *)

(** [lia] over [/] and [mod] by constants. *)
Ltac zdm := Z.div_mod_to_equations; lia.

Lemma wrap64_small x : 0 <= x < 2 ^ 64 -> wrap64 x = x.
Proof. apply Z.mod_small. Qed.

Lemma wrap64_range x : 0 <= wrap64 x < 2 ^ 64.
Proof. by apply Z.mod_pos_bound. Qed.

Lemma wrap32_small x : 0 <= x < 2 ^ 32 -> wrap32 x = x.
Proof. apply Z.mod_small. Qed.

Lemma wrap8_small x : 0 <= x < 2 ^ 8 -> wrap8 x = x.
Proof. apply Z.mod_small. Qed.

(** Words in range, and lengths: [autorewrite] with these databases, then [lia]. *)
Create HintDb word.
#[export] Hint Rewrite wrap64_small wrap32_small wrap8_small using lia : word.
Create HintDb lens.
#[export] Hint Rewrite @length_app @length_take @length_drop @length_replicate @length_map @length_insert
  @length_seqZ : lens.
Ltac len := autorewrite with lens in *; cbn [length] in *; lia.

(** Side conditions that the files of a component resolve with their own lemmas. *)
Create HintDb fs.

Lemma land_ones_mod x n : 0 <= n -> Z.land x (2 ^ n - 1) = x mod 2 ^ n.
Proof.
  intros. rewrite <-Z.land_ones by done. by rewrite Z.ones_equiv, Z.sub_1_r.
Qed.

Lemma shiftr_div x n : 0 <= n -> Z.shiftr x n = x / 2 ^ n.
Proof. apply Z.shiftr_div_pow2. Qed.

Lemma shiftl_mul x n : 0 <= n -> Z.shiftl x n = x * 2 ^ n.
Proof. apply Z.shiftl_mul_pow2. Qed.

(** Joining disjoint bit fields is addition. *)
Lemma lor_add_disjoint x y n : 0 <= n -> 0 <= y < 2 ^ n -> Z.lor (x * 2 ^ n) y = x * 2 ^ n + y.
Proof.
  intros Hn Hy. rewrite <-Z.add_lor_land.
  assert (Z.land (x * 2 ^ n) y = 0) as ->; [|lia].
  apply Z.bits_inj'. intros i Hi. rewrite Z.land_spec, Z.bits_0.
  destruct (decide (i < n)).
  - rewrite Z.mul_pow2_bits_low by lia. done.
  - rewrite <-(Z.mod_small y (2 ^ n)) by done.
    rewrite Z.mod_pow2_bits_high by lia. apply andb_false_r.
Qed.

(** [Option::is_some] *)
Definition is_some {A} (o : option A) : bool :=
  match o with
  | Some _ => true
  | None => false
  end.

Lemma is_some_true {A} (o : option A) : is_some o = true -> is_Some o.
Proof. destruct o; [eauto|done]. Qed.

(** Checking a property of every integer of a span by computation. *)
Lemma forallb_seqZ (f : Z -> bool) a n :
  forallb f (seqZ a n) = true -> forall x, a <= x < a + n -> f x = true.
Proof.
  rewrite forallb_forall. intros H x Hx. apply H, list_elem_of_In, elem_of_seqZ. lia.
Qed.

(** ** Vectors *)

(** [Vec::push] and [Vec::pop]: the end of the list is the end of the vector. *)
Definition vec_push {A} (l : list A) (x : A) : list A := l ++ [x].
Definition vec_pop {A} (l : list A) : option A * list A := (list.last l, removelast l).

Lemma vec_pop_nil {A} : vec_pop (@nil A) = (None, []).
Proof. done. Qed.

Lemma vec_pop_push {A} (l : list A) x : vec_pop (vec_push l x) = (Some x, l).
Proof. unfold vec_pop, vec_push. by rewrite list.last_snoc, removelast_last. Qed.

Lemma elem_of_vec_push {A} (l : list A) x y : y ∈ vec_push l x <-> y ∈ l \/ y = x.
Proof. unfold vec_push. by rewrite elem_of_app, list_elem_of_singleton. Qed.

Lemma NoDup_vec_push {A} (l : list A) x : NoDup (vec_push l x) <-> NoDup l /\ x ∉ l.
Proof.
  unfold vec_push. rewrite NoDup_app. split.
  - intros (? & Hx & _). split; [done|]. intros Hin. apply (Hx x Hin). by left.
  - intros [? ?]. split_and!; [done| |apply NoDup_singleton].
    intros y Hy ->%list_elem_of_singleton. done.
Qed.

Lemma Forall_vec_push {A} (P : A -> Prop) l x : Forall P (vec_push l x) <-> Forall P l /\ P x.
Proof. unfold vec_push. by rewrite Forall_app, Forall_singleton. Qed.

(** A vector is empty or was just pushed to. *)
Lemma vec_cases {A} (l : list A) : l = [] \/ exists l' x, l = vec_push l' x.
Proof.
  destruct l as [|x l'] using rev_ind; [by left|]. right. by exists l', x.
Qed.

(** [l[i]], [l[i] = v] and [&l[a..b]], which panic out of range. *)
Definition index {A} (l : list A) (i : Z) : outcome A :=
  match l !! Z.to_nat i with
  | Some a => Ok a
  | None => Panic OutOfRange
  end.
Definition set_index {A} (l : list A) (i : Z) (v : A) : outcome (list A) :=
  if i <? Z.of_nat (length l) then Ok (<[Z.to_nat i := v]> l) else Panic OutOfRange.
Definition slice {A} (l : list A) (a b : Z) : outcome (list A) :=
  if (a <=? b) && (b <=? Z.of_nat (length l)) then Ok (take (Z.to_nat (b - a)) (drop (Z.to_nat a) l))
  else Panic OutOfRange.

Lemma lookup_nth {A} (l : list A) i d : (i < length l)%nat -> l !! i = Some (nth i l d).
Proof. intros Hi. destruct (nth_lookup_or_length l i d); [done|lia]. Qed.

Lemma index_Ok {A} (l : list A) i d : 0 <= i < Z.of_nat (length l) -> index l i = Ok (nth (Z.to_nat i) l d).
Proof. intros Hi. unfold index. by rewrite (lookup_nth l _ d) by lia. Qed.

Lemma slice_Ok {A} (l : list A) a b :
  a <= b -> b <= Z.of_nat (length l) -> slice l a b = Ok (take (Z.to_nat (b - a)) (drop (Z.to_nat a) l)).
Proof. intros Ha Hb. unfold slice. rewrite (proj2 (Z.leb_le a b)), (proj2 (Z.leb_le b _)) by lia. done. Qed.

Lemma take_drop_split {A} (l : list A) a n m :
  (n <= m)%nat -> take m (drop a l) = take n (drop a l) ++ take (m - n) (drop (a + n) l).
Proof.
  intros Hn. rewrite <-drop_drop. rewrite <-(take_drop n (drop a l)) at 1.
  destruct (decide (n <= length (drop a l))%nat).
  - rewrite take_app_ge by (rewrite length_take; lia). rewrite length_take. do 2 f_equal. lia.
  - rewrite (drop_ge (drop a l)) by lia. rewrite take_nil, !app_nil_r, take_take. f_equal. lia.
Qed.

(** [it.next().unwrap()] of a vector's iterator. *)
Definition next_unwrap {A} (l : list A) : outcome (A * list A) :=
  match l with
  | [] => Panic UnwrapNone
  | a :: l' => Ok (a, l')
  end.

(** ** [BTreeMap] with [usize] keys: an association list in key order *)

Fixpoint bt_insert {V} (k : Z) (v : V) (t : list (Z * V)) : list (Z * V) :=
  match t with
  | [] => [(k, v)]
  | (k', v') :: t' =>
      if k <? k' then (k, v) :: t
      else if k =? k' then (k, v) :: t'
      else (k', v') :: bt_insert k v t'
  end.

Fixpoint bt_remove {V} (k : Z) (t : list (Z * V)) : list (Z * V) :=
  match t with
  | [] => []
  | (k', v') :: t' => if k =? k' then t' else (k', v') :: bt_remove k t'
  end.

Fixpoint bt_lookup {V} (k : Z) (t : list (Z * V)) : option V :=
  match t with
  | [] => None
  | (k', v') :: t' => if k =? k' then Some v' else bt_lookup k t'
  end.
