(* ===== verification/Config.v ===== *)
(** * Kernel constants (os5/src/config.rs)

    The sizes and the fixed virtual addresses the other components share. *)

From S2P Require Import Prelude.

Abbreviation USER_STACK_SIZE := (4096 * 2) (only parsing).
Definition KERNEL_STACK_SIZE : Z := 4096 * 20.
(** Where the linker script puts the kernel (os5/src/linker.ld). *)
Definition BASE_ADDRESS : Z := 2149580800. (* 0x80200000 *)
Definition MEMORY_END : Z := 2281701376. (* 0x88000000 *)
Definition PAGE_SIZE : Z := 4096.
Abbreviation PAGE_SIZE_BITS := (12) (only parsing).
Definition MAX_SYSCALL_NUM : Z := 500.
Abbreviation BIG_STRIDE := (usize_max / 1048576) (only parsing).
Definition TRAMPOLINE : Z := usize_max -% PAGE_SIZE +% 1.
Definition TRAP_CONTEXT : Z := TRAMPOLINE -% PAGE_SIZE.
Abbreviation CLOCK_FREQ := (12500000) (only parsing).

Lemma TRAMPOLINE_val : TRAMPOLINE = 2 ^ 64 - 4096.
Proof. reflexivity. Qed.

Lemma TRAP_CONTEXT_val : TRAP_CONTEXT = 2 ^ 64 - 8192.
Proof. reflexivity. Qed.

Lemma BIG_STRIDE_val : BIG_STRIDE = 2 ^ 44 - 1.
Proof. reflexivity. Qed.
