(* ===== verification/Address.v ===== *)
(** * Addresses and page numbers (os5/src/mm/address.rs)

    [PhysAddr], [VirtAddr], [PhysPageNum] and [VirtPageNum] are one-field structs
    around a [usize]; a value of each is modelled by the [Z] of that field, and the
    conversions between them by one function each.  [SimpleRange] and its iterator
    are generic in the source and used at [VirtPageNum] ([VPNRange]) only. *)

From S2P Require Import Prelude Config.

(** ** Conversions *)

Definition VirtAddr_floor (va : Z) : Z := va / PAGE_SIZE.
Definition VirtAddr_ceil (va : Z) : Z := (va -% 1 +% PAGE_SIZE) / PAGE_SIZE.
Definition VirtAddr_page_offset (va : Z) : Z := Z.land va (PAGE_SIZE - 1).
Definition VirtAddr_aligned (va : Z) : bool := VirtAddr_page_offset va =? 0.

(** [impl From<VirtAddr> for VirtPageNum]: asserts that the address is aligned. *)
Definition VirtPageNum_from_VirtAddr (va : Z) : outcome Z :=
  if VirtAddr_page_offset va =? 0 then Ok (VirtAddr_floor va) else Panic AssertFailed.
Definition VirtAddr_from_VirtPageNum (vpn : Z) : Z := vpn <<% PAGE_SIZE_BITS.

Definition PhysAddr_floor (pa : Z) : Z := pa / PAGE_SIZE.
Definition PhysAddr_ceil (pa : Z) : Z := (pa -% 1 +% PAGE_SIZE) / PAGE_SIZE.
Definition PhysAddr_page_offset (pa : Z) : Z := Z.land pa (PAGE_SIZE - 1).
Definition PhysAddr_aligned (pa : Z) : bool := PhysAddr_page_offset pa =? 0.

Definition PhysPageNum_from_PhysAddr (pa : Z) : outcome Z :=
  if PhysAddr_page_offset pa =? 0 then Ok (PhysAddr_floor pa) else Panic AssertFailed.
Definition PhysAddr_from_PhysPageNum (ppn : Z) : Z := ppn <<% PAGE_SIZE_BITS.

(** ** The three page-table indexes of a page number *)

(** One round of [for i in (0..3).rev() { idx[i] = vpn & 511; vpn >>= 9; }]. *)
Definition indexes_round (st : list Z * Z) (i : nat) : list Z * Z :=
  let '(idx, vpn) := st in (<[i := Z.land vpn 511]> idx, Z.shiftr vpn 9).
Definition indexes (vpn : Z) : list Z :=
  fst (fold_left indexes_round [2; 1; 0]%nat ([0; 0; 0], vpn)).

(** ** Ranges of pages *)

Record SimpleRange : Type := mk_range { range_l : Z; range_r : Z }.

Definition SimpleRange_new (start end_ : Z) : outcome SimpleRange :=
  if start <=? end_ then Ok (mk_range start end_) else Panic AssertFailed.
Definition get_start (r : SimpleRange) : Z := range_l r.
Definition get_end (r : SimpleRange) : Z := range_r r.

(** [StepByOne::step] *)
Definition step (vpn : Z) : Z := vpn +% 1.

Record SimpleRangeIterator : Type := mk_iter { iter_current : Z; iter_end : Z }.

Definition into_iter (r : SimpleRange) : SimpleRangeIterator :=
  mk_iter (range_l r) (range_r r).

Definition iter_next (it : SimpleRangeIterator) : option Z * SimpleRangeIterator :=
  if iter_current it =? iter_end it then (None, it)
  else (Some (iter_current it), mk_iter (step (iter_current it)) (iter_end it)).

(** The items a [for vpn in range] loop visits: [next] is called until it returns
    [None].  [range_items_seqZ] shows that the fuel, the length of the range, is
    enough: the iterator is exhausted when it is spent. *)
Fixpoint collect (fuel : nat) (it : SimpleRangeIterator) : list Z :=
  match fuel with
  | O => []
  | S fuel' =>
      match iter_next it with
      | (None, _) => []
      | (Some x, it') => x :: collect fuel' it'
      end
  end.
Definition range_items (r : SimpleRange) : list Z :=
  collect (Z.to_nat (range_r r - range_l r)) (into_iter r).

(** The iterator state after [n] calls of [next]. *)
Fixpoint iter_drop (n : nat) (it : SimpleRangeIterator) : SimpleRangeIterator :=
  match n with
  | O => it
  | S n' => iter_drop n' (snd (iter_next it))
  end.

(** ** Facts *)

Lemma VirtAddr_page_offset_mod va : VirtAddr_page_offset va = va mod PAGE_SIZE.
Proof. apply (land_ones_mod va 12). done. Qed.

Lemma PhysAddr_page_offset_mod pa : PhysAddr_page_offset pa = pa mod PAGE_SIZE.
Proof. apply (land_ones_mod pa 12). done. Qed.

Lemma VirtAddr_aligned_iff va : VirtAddr_aligned va = true <-> va mod PAGE_SIZE = 0.
Proof. unfold VirtAddr_aligned. rewrite VirtAddr_page_offset_mod. apply Z.eqb_eq. Qed.

Lemma VirtAddr_from_VirtPageNum_small vpn :
  0 <= vpn < 2 ^ 52 -> VirtAddr_from_VirtPageNum vpn = vpn * PAGE_SIZE.
Proof.
  intros. unfold VirtAddr_from_VirtPageNum, PAGE_SIZE.
  rewrite shiftl_mul, wrap64_small; lia.
Qed.

Lemma PhysAddr_from_PhysPageNum_small ppn :
  0 <= ppn < 2 ^ 52 -> PhysAddr_from_PhysPageNum ppn = ppn * PAGE_SIZE.
Proof. apply VirtAddr_from_VirtPageNum_small. Qed.

Lemma indexes_eq vpn :
  indexes vpn = [Z.shiftr vpn 18 mod 512; Z.shiftr vpn 9 mod 512; vpn mod 512].
Proof.
  unfold indexes; cbn. rewrite Z.shiftr_shiftr by done.
  by rewrite !(land_ones_mod _ 9).
Qed.

Lemma low27_split v :
  v mod 2 ^ 27 = (v / 2 ^ 18) mod 512 * 2 ^ 18 + (v / 2 ^ 9) mod 512 * 2 ^ 9 + v mod 512.
Proof.
  change (2 ^ 27) with (2 ^ 18 * 512). rewrite Z.rem_mul_r by done.
  change (2 ^ 18) with (512 * 512) at 1. rewrite Z.rem_mul_r by done.
  change (2 ^ 9) with 512. lia.
Qed.

Lemma indexes_eq_iff v1 v2 :
  indexes v1 = indexes v2 <-> v1 mod 2 ^ 27 = v2 mod 2 ^ 27.
Proof.
  rewrite !indexes_eq, !shiftr_div by done. split.
  - intros [= H0 H1 H2]. rewrite !low27_split. congruence.
  - rewrite !low27_split. intros H.
    pose proof (Z.mod_pos_bound (v1 / 2 ^ 18) 512). pose proof (Z.mod_pos_bound (v2 / 2 ^ 18) 512).
    pose proof (Z.mod_pos_bound (v1 / 2 ^ 9) 512). pose proof (Z.mod_pos_bound (v2 / 2 ^ 9) 512).
    pose proof (Z.mod_pos_bound v1 512). pose proof (Z.mod_pos_bound v2 512).
    f_equal; [lia|f_equal; [lia|f_equal; lia]].
Qed.

Lemma indexes_range v : Forall (fun i => 0 <= i < 512) (indexes v).
Proof. rewrite indexes_eq. repeat constructor; by apply Z.mod_pos_bound. Qed.

Lemma PhysPageNum_from_aligned pa :
  pa mod PAGE_SIZE = 0 -> PhysPageNum_from_PhysAddr pa = Ok (pa / PAGE_SIZE).
Proof.
  intros Ha. unfold PhysPageNum_from_PhysAddr, PhysAddr_page_offset.
  change (PAGE_SIZE - 1) with (2 ^ 12 - 1). rewrite land_ones_mod by done.
  change (2 ^ 12) with PAGE_SIZE. by rewrite Ha.
Qed.

(** The page-table indexes of a page number are its low 27 bits, nine at a time:
    two page numbers get the same three indexes exactly when they agree modulo 2^27,
    and each index is below 512.  Page numbers are not truncated to Sv39's 27 bits,
    so pages 2^27 apart share one page-table slot. *)
Theorem indexes_inj v1 v2 :
  (indexes v1 = indexes v2 <-> v1 mod 2 ^ 27 = v2 mod 2 ^ 27) /\
  Forall (fun i => 0 <= i < 512) (indexes v1).
Proof.
  split; [apply indexes_eq_iff|apply indexes_range].
Qed.

(** [ceil] is the least page number whose page starts at or after the address,
    for every address up to the base of the last page; above it the [+ PAGE_SIZE]
    wraps and [ceil] is 0. *)
Theorem VirtAddr_ceil_spec va :
  0 <= va < 2 ^ 64 ->
  (va <= 2 ^ 64 - PAGE_SIZE ->
     VirtAddr_ceil va * PAGE_SIZE - PAGE_SIZE < va <= VirtAddr_ceil va * PAGE_SIZE) /\
  (2 ^ 64 - PAGE_SIZE < va -> VirtAddr_ceil va = 0).
Proof.
  intros Hva. unfold VirtAddr_ceil, wrap64, PAGE_SIZE. split; intros; zdm.
Qed.

Lemma iter_next_lt l r :
  0 <= l < r -> r < 2 ^ 64 -> iter_next (mk_iter l r) = (Some l, mk_iter (l + 1) r).
Proof.
  intros. unfold iter_next, step; cbn. rewrite wrap64_small by lia.
  by destruct (Z.eqb_spec l r); [lia|].
Qed.

Lemma collect_seqZ n l r :
  0 <= l -> l + Z.of_nat n = r -> r < 2 ^ 64 ->
  collect n (mk_iter l r) = seqZ l (Z.of_nat n) /\
  iter_drop n (mk_iter l r) = mk_iter r r.
Proof.
  revert l. induction n as [|n IH]; intros l ???.
  - cbn. split; [done|]. by replace l with r by lia.
  - cbn [collect iter_drop]. rewrite iter_next_lt by lia. cbn [snd].
    destruct (IH (l + 1)) as [-> ->]; [lia..|].
    rewrite (seqZ_cons l) by lia.
    by replace (Z.pred (Z.of_nat (S n))) with (Z.of_nat n) by lia.
Qed.

Lemma range_items_eq l r :
  0 <= l <= r -> r < 2 ^ 64 -> range_items (mk_range l r) = seqZ l (r - l).
Proof.
  intros. unfold range_items, into_iter; cbn [range_l range_r].
  destruct (collect_seqZ (Z.to_nat (r - l)) l r) as [-> _]; [lia..|].
  by rewrite Z2Nat.id by lia.
Qed.

(** A [for vpn in VPNRange::new(l, r)] loop terminates: after [r - l] calls of
    [next] the iterator is exhausted, and the pages visited are exactly
    [l, l+1, ..., r-1], in order. *)
Theorem range_items_seqZ l r :
  0 <= l <= r -> r < 2 ^ 64 ->
  range_items (mk_range l r) = seqZ l (r - l) /\
  iter_next (iter_drop (Z.to_nat (r - l)) (into_iter (mk_range l r))) = (None, mk_iter r r).
Proof.
  intros. split; [by apply range_items_eq|]. unfold into_iter; cbn [range_l range_r].
  destruct (collect_seqZ (Z.to_nat (r - l)) l r) as [_ ->]; [lia..|].
  unfold iter_next; cbn. by rewrite Z.eqb_refl.
Qed.

Lemma VirtAddr_ceil_spec_witness :
  (4097 <= 2 ^ 64 - PAGE_SIZE ->
     VirtAddr_ceil 4097 * PAGE_SIZE - PAGE_SIZE < 4097 <= VirtAddr_ceil 4097 * PAGE_SIZE) /\
  (2 ^ 64 - PAGE_SIZE < 4097 -> VirtAddr_ceil 4097 = 0).
Proof. apply (VirtAddr_ceil_spec 4097). lia. Defined.

Lemma range_items_seqZ_witness :
  range_items (mk_range 3 7) = seqZ 3 (7 - 3) /\
  iter_next (iter_drop (Z.to_nat (7 - 3)) (into_iter (mk_range 3 7))) = (None, mk_iter 7 7).
Proof. apply (range_items_seqZ 3 7); lia. Defined.
