(* ===== verification/PhysMem.v ===== *)
(** * Physical memory

    The kernel reads and writes physical memory through raw pointers
    ([PhysPageNum::get_pte_array], [get_bytes_array], [PhysAddr::get_mut]); memory
    is a byte-addressed array, and a wider value is its little-endian bytes, as on
    riscv64.  The kernel's address space maps physical memory identically, so a
    pointer's value is the physical address. *)

From S2P Require Import Prelude Config Address.

Definition mem : Type := Z -> Z.

(** The part of physical memory that the kernel's address space maps: the image, which
    [linker.ld] places at [BASE_ADDRESS] with its sections one after the other, and the
    frames up to [MEMORY_END] ([MemorySet::new_kernel]).  [kernel_maps a n] says that [n]
    bytes at [a] can be read; an access elsewhere faults. *)
Definition kernel_maps (a n : Z) : bool :=
  (n <=? 0) || ((BASE_ADDRESS <=? a) && (a + n <=? MEMORY_END)).

(** Byte [i] of a word. *)
Definition byte_at (v i : Z) : Z := (v / 2 ^ (8 * i)) mod 256.

Definition in_span (x a n : Z) : bool := (a <=? x) && (x <? a + n).

Definition load8 (m : mem) (a : Z) : Z := m a.
Definition store8 (m : mem) (a v : Z) : mem := fun x => if x =? a then v else m x.

Definition load64 (m : mem) (a : Z) : Z :=
  m a + m (a + 1) * 2 ^ 8 + m (a + 2) * 2 ^ 16 + m (a + 3) * 2 ^ 24 +
  m (a + 4) * 2 ^ 32 + m (a + 5) * 2 ^ 40 + m (a + 6) * 2 ^ 48 + m (a + 7) * 2 ^ 56.
Definition store64 (m : mem) (a v : Z) : mem :=
  fun x => if in_span x a 8 then byte_at v (x - a) else m x.

Definition load32 (m : mem) (a : Z) : Z :=
  m a + m (a + 1) * 2 ^ 8 + m (a + 2) * 2 ^ 16 + m (a + 3) * 2 ^ 24.
Definition store32 (m : mem) (a v : Z) : mem :=
  fun x => if in_span x a 4 then byte_at v (x - a) else m x.

(** [slice.fill(v)] and [dst.copy_from_slice(src)] over spans of memory. *)
Definition fill (m : mem) (a n v : Z) : mem := fun x => if in_span x a n then v else m x.
Definition copy (m : mem) (dst src n : Z) : mem :=
  fun x => if in_span x dst n then m (src + (x - dst)) else m x.

Definition load_bytes (m : mem) (a n : Z) : list Z := map (fun i => m (a + i)) (seqZ 0 n).
Definition store_bytes (m : mem) (a : Z) (bs : list Z) : mem :=
  let n := Z.of_nat (length bs) in
  fun x => if in_span x a n then nth (Z.to_nat (x - a)) bs 0 else m x.

(** The base of a physical page ([PhysPageNum::get_bytes_array],
    [PhysPageNum::get_pte_array]), and the address of one entry of the array of
    512 page-table entries there. *)
Definition page_base (ppn : Z) : Z := PhysAddr_from_PhysPageNum ppn.
Definition pte_addr (ppn idx : Z) : Z := page_base ppn + 8 * idx.

(** ** Facts *)

Lemma in_span_true x a n : in_span x a n = true <-> a <= x < a + n.
Proof. unfold in_span. rewrite andb_true_iff, Z.leb_le, Z.ltb_lt. done. Qed.

Lemma in_span_false x a n : in_span x a n = false <-> ~ (a <= x < a + n).
Proof. rewrite <-in_span_true. by destruct (in_span x a n). Qed.

(** Case analysis on the spans of a goal. *)
Ltac case_span :=
  match goal with
  | |- context [in_span ?x ?a ?n] =>
      let E := fresh "Hspan" in
      destruct (in_span x a n) eqn:E;
      [apply in_span_true in E|apply in_span_false in E]
  end.

Lemma store64_out m a v x : ~ (a <= x < a + 8) -> store64 m a v x = m x.
Proof. intros. unfold store64. case_span; [lia|done]. Qed.

Lemma store32_out m a v x : ~ (a <= x < a + 4) -> store32 m a v x = m x.
Proof. intros. unfold store32. case_span; [lia|done]. Qed.

Lemma fill_in m a n v x : a <= x < a + n -> fill m a n v x = v.
Proof. intros. unfold fill. case_span; [done|lia]. Qed.

Lemma fill_out m a n v x : ~ (a <= x < a + n) -> fill m a n v x = m x.
Proof. intros. unfold fill. case_span; [lia|done]. Qed.

Lemma copy_in m dst src n x : dst <= x < dst + n -> copy m dst src n x = m (src + (x - dst)).
Proof. intros. unfold copy. case_span; [done|lia]. Qed.

Lemma copy_out m dst src n x : ~ (dst <= x < dst + n) -> copy m dst src n x = m x.
Proof. intros. unfold copy. case_span; [lia|done]. Qed.

Lemma store_bytes_in m a bs i b :
  bs !! i = Some b -> store_bytes m a bs (a + Z.of_nat i) = b.
Proof.
  intros Hi. unfold store_bytes. pose proof (lookup_lt_Some _ _ _ Hi).
  case_span; [|lia]. replace (a + Z.of_nat i - a) with (Z.of_nat i) by lia.
  rewrite Nat2Z.id. apply nth_lookup_Some with (d := 0) in Hi. done.
Qed.

Lemma store_bytes_out m a bs x :
  ~ (a <= x < a + Z.of_nat (length bs)) -> store_bytes m a bs x = m x.
Proof. intros. unfold store_bytes. case_span; [lia|done]. Qed.

(** A 64-bit load only depends on its eight bytes. *)
Lemma load64_ext m m' a :
  (forall x, a <= x < a + 8 -> m x = m' x) -> load64 m a = load64 m' a.
Proof. intros H. unfold load64. rewrite !H by lia. done. Qed.

Lemma bytes_join v k : 0 <= k -> v mod 2 ^ (8 * (k + 1)) = v mod 2 ^ (8 * k) + byte_at v k * 2 ^ (8 * k).
Proof.
  intros. unfold byte_at. replace (8 * (k + 1)) with (8 * k + 8) by lia.
  rewrite Z.pow_add_r by lia. rewrite Z.rem_mul_r by lia. change (2 ^ 8) with 256. lia.
Qed.

Ltac join_at v k lo hi H :=
  pose proof (bytes_join v k ltac:(lia)) as H;
  change (8 * (k + 1)) with hi in H; change (8 * k) with lo in H.

Lemma load64_store64_eq m a v : is_usize v -> load64 (store64 m a v) a = v.
Proof.
  intros Hv. unfold load64, store64.
  repeat (case_span; [|lia]).
  rewrite !Z.add_simpl_l, Z.sub_diag.
  rewrite <-(Z.mod_small v (2 ^ 64)) at 9 by done.
  join_at v 0 0 8 H0. join_at v 1 8 16 H1. join_at v 2 16 24 H2. join_at v 3 24 32 H3.
  join_at v 4 32 40 H4. join_at v 5 40 48 H5. join_at v 6 48 56 H6. join_at v 7 56 64 H7.
  change (v mod 2 ^ 0) with (v mod 1) in H0. rewrite Z.mod_1_r in H0. lia.
Qed.

Lemma load64_store64_ne m a b v :
  a + 8 <= b \/ b + 8 <= a -> load64 (store64 m a v) b = load64 m b.
Proof. intros. apply load64_ext. intros. apply store64_out. lia. Qed.

Lemma load64_fill_zero m a n b : a <= b -> b + 8 <= a + n -> load64 (fill m a n 0) b = 0.
Proof. intros. unfold load64. rewrite !fill_in by lia. done. Qed.

Lemma page_base_small ppn : 0 <= ppn < 2 ^ 52 -> page_base ppn = ppn * 4096.
Proof. apply PhysAddr_from_PhysPageNum_small. Qed.
