(* ===== verification/FrameAllocator.v ===== *)
(** * Physical frames (os5/src/mm/frame_allocator.rs)

    The trait [FrameAllocator] is a class of operations; [FrameAllocatorSpec] adds
    what its clients (page tables, address spaces) rely on, in terms of the set of
    free frames.  [StackFrameAllocator] implements both.  [MmState] is the state the
    memory-management code shares: physical memory and the global
    [FRAME_ALLOCATOR].  A [FrameTracker] is its page number; dropping one is a call
    of [frame_dealloc]. *)

From S2P Require Import Prelude Config Address PhysMem.

(** ** The trait and its contract *)

Class FrameAllocator (T : Type) : Type := {
  fa_new : T;
  fa_alloc : T -> option Z * T;
  fa_dealloc : T -> Z -> outcome T
}.

(** The frames of the machine: pages from where the kernel's image starts to the end of
    memory. *)
Definition is_frame (p : Z) : Prop := 524800 <= p < 557056.

Lemma is_frame_memory p : is_frame p <-> BASE_ADDRESS / PAGE_SIZE <= p < MEMORY_END / PAGE_SIZE.
Proof. done. Qed.

(** The kernel maps every frame. *)
Lemma frame_maps p off n :
  is_frame p -> 0 <= off -> off + n <= PAGE_SIZE -> kernel_maps (page_base p + off) n = true.
Proof.
  unfold is_frame, PAGE_SIZE. intros Hp Ho Hn. unfold kernel_maps, BASE_ADDRESS, MEMORY_END. rewrite page_base_small by lia.
  destruct (Z.leb_spec n 0); [done|]. cbn [orb]. apply andb_true_iff. rewrite !Z.leb_le. lia.
Qed.

Lemma frame_maps_page p n : is_frame p -> n <= PAGE_SIZE -> kernel_maps (page_base p) n = true.
Proof. intros Hp Hn. rewrite <-(Z.add_0_r (page_base p)). apply frame_maps; [done|lia|lia]. Qed.

(** What the clients of an allocator rely on: [fa_free] is the set of frames it can
    still hand out, [fa_used a p] says that [p] may be given back. *)
Class FrameAllocatorSpec (T : Type) `{FrameAllocator T} : Type := {
  fa_inv : T -> Prop;
  fa_free : T -> gset Z;
  fa_used : T -> Z -> Prop;
  fa_free_frame a p : fa_inv a -> p ∈ fa_free a -> is_frame p;
  fa_used_frame a p : fa_inv a -> fa_used a p -> is_frame p;
  fa_used_not_free a p : fa_inv a -> fa_used a p -> p ∉ fa_free a;
  fa_alloc_None a a' : fa_inv a -> fa_alloc a = (None, a') -> fa_free a = ∅ /\ a' = a;
  fa_alloc_Some a p a' : fa_inv a -> fa_alloc a = (Some p, a') ->
    fa_inv a' /\ p ∈ fa_free a /\ fa_free a' = fa_free a ∖ {[p]} /\
    fa_used a' p /\ (forall q, fa_used a q -> fa_used a' q);
  fa_dealloc_used a p : fa_inv a -> fa_used a p ->
    exists a', fa_dealloc a p = Ok a' /\ fa_inv a' /\ fa_free a' = {[p]} ∪ fa_free a /\
      (forall q, q <> p -> fa_used a q -> fa_used a' q)
}.

(** ** The stack allocator *)

Record StackFrameAllocator : Type := mk_sfa {
  sfa_current : Z;
  sfa_end : Z;
  sfa_recycled : list Z
}.

Definition sfa_new : StackFrameAllocator := mk_sfa 0 0 [].

Definition sfa_init (a : StackFrameAllocator) (l r : Z) : StackFrameAllocator :=
  mk_sfa l r (sfa_recycled a).

Definition sfa_alloc (a : StackFrameAllocator) : option Z * StackFrameAllocator :=
  match vec_pop (sfa_recycled a) with
  | (Some ppn, rest) => (Some ppn, mk_sfa (sfa_current a) (sfa_end a) rest)
  | (None, _) =>
      if sfa_current a =? sfa_end a then (None, a)
      else
        let current := sfa_current a +% 1 in
        (Some (current -% 1), mk_sfa current (sfa_end a) (sfa_recycled a))
  end.

Definition sfa_dealloc (a : StackFrameAllocator) (ppn : Z) : outcome StackFrameAllocator :=
  if (sfa_current a <=? ppn) || existsb (fun v => v =? ppn) (sfa_recycled a)
  then Panic Explicit
  else Ok (mk_sfa (sfa_current a) (sfa_end a) (vec_push (sfa_recycled a) ppn)).

#[export] Instance StackFrameAllocator_ops : FrameAllocator StackFrameAllocator := {
  fa_new := sfa_new;
  fa_alloc := sfa_alloc;
  fa_dealloc := sfa_dealloc
}.

(** [init_frame_allocator]: manage the frames from the end of the kernel image to
    [MEMORY_END]. *)
Definition init_frame_allocator (ekernel : Z) (a : StackFrameAllocator) : StackFrameAllocator :=
  sfa_init a (PhysAddr_ceil ekernel) (PhysAddr_floor MEMORY_END).

(** ** The shared state, and trackers *)

Record MmState (T : Type) : Type := mk_mm { phys : mem; allocator : T }.
Arguments mk_mm {T} phys allocator.
Arguments phys {T} _.
Arguments allocator {T} _.

Section Trackers.
Context {T : Type} `{FrameAllocator T}.

Definition set_phys (m : mem) (s : MmState T) : MmState T := mk_mm m (allocator s).

(** [FrameTracker::new]: the frame is cleared. *)
Definition FrameTracker_new (ppn : Z) : M (MmState T) Z :=
  modify (fun s => set_phys (fill (phys s) (page_base ppn) PAGE_SIZE 0) s) ;;
  ret ppn.

Definition frame_alloc : M (MmState T) (option Z) :=
  let* s := get in
  let '(o, a') := fa_alloc (allocator s) in
  modify (fun s => mk_mm (phys s) a') ;;
  match o with
  | Some ppn => let* t := FrameTracker_new ppn in ret (Some t)
  | None => ret None
  end.

Definition frame_dealloc (ppn : Z) : M (MmState T) unit :=
  let* s := get in
  let* a' := lift (fa_dealloc (allocator s) ppn) in
  modify (fun s => mk_mm (phys s) a').

(** Dropping trackers, in order. *)
Definition drop_frames (l : list Z) : M (MmState T) unit := for_each l frame_dealloc.

(** [frame_allocator_test] allocates five frames, drops them and does so again. *)
Definition alloc_five : M (MmState T) (list Z) :=
  foldM (fun v _ => let* o := frame_alloc in let* f := unwrap o in ret (vec_push v f))
    [0; 1; 2; 3; 4] [].
Definition frame_allocator_test : M (MmState T) unit :=
  let* v := alloc_five in
  drop_frames v ;;
  let* v := alloc_five in
  drop_frames v.

End Trackers.

(** ** The stack allocator meets the contract *)

Definition sfa_inv (a : StackFrameAllocator) : Prop :=
  0 < sfa_current a <= sfa_end a /\ sfa_end a < 2 ^ 44 /\
  NoDup (sfa_recycled a) /\ Forall (fun r => 0 < r < sfa_current a) (sfa_recycled a).

Definition sfa_fresh (a : StackFrameAllocator) : list Z :=
  seqZ (sfa_current a) (sfa_end a - sfa_current a).

Definition sfa_free (a : StackFrameAllocator) : gset Z :=
  list_to_set (sfa_recycled a ++ sfa_fresh a).

Definition sfa_used (a : StackFrameAllocator) (p : Z) : Prop :=
  0 < p < sfa_current a /\ p ∉ sfa_recycled a.

Lemma elem_of_sfa_free a p :
  p ∈ sfa_free a <-> p ∈ sfa_recycled a \/ sfa_current a <= p < sfa_end a.
Proof.
  unfold sfa_free, sfa_fresh. rewrite elem_of_list_to_set, elem_of_app, elem_of_seqZ.
  intuition lia.
Qed.

Lemma sfa_used_not_free a p : sfa_used a p -> p ∉ sfa_free a.
Proof. intros [? ?] [?|?]%elem_of_sfa_free; [done|lia]. Qed.

Lemma sfa_alloc_recycled a rest p :
  sfa_recycled a = vec_push rest p ->
  sfa_alloc a = (Some p, mk_sfa (sfa_current a) (sfa_end a) rest).
Proof. intros Hr. unfold sfa_alloc. by rewrite Hr, vec_pop_push. Qed.

Lemma sfa_alloc_fresh a :
  sfa_inv a -> sfa_recycled a = [] -> sfa_current a < sfa_end a ->
  sfa_alloc a = (Some (sfa_current a), mk_sfa (sfa_current a + 1) (sfa_end a) []).
Proof.
  intros (? & ? & _) Hr Hlt. unfold sfa_alloc. rewrite Hr; cbn.
  destruct (Z.eqb_spec (sfa_current a) (sfa_end a)); [lia|].
  rewrite (wrap64_small (sfa_current a + 1)) by lia.
  by rewrite Z.add_simpl_r, wrap64_small by lia.
Qed.

Lemma sfa_alloc_empty a :
  sfa_recycled a = [] -> sfa_current a = sfa_end a -> sfa_alloc a = (None, a).
Proof. intros Hr Heq. unfold sfa_alloc. by rewrite Hr, Heq, Z.eqb_refl; cbn. Qed.

(** The three ways [alloc] can go. *)
Lemma sfa_alloc_cases a :
  sfa_inv a ->
  (exists rest p, sfa_recycled a = vec_push rest p /\
     sfa_alloc a = (Some p, mk_sfa (sfa_current a) (sfa_end a) rest)) \/
  (sfa_recycled a = [] /\ sfa_current a < sfa_end a /\
     sfa_alloc a = (Some (sfa_current a), mk_sfa (sfa_current a + 1) (sfa_end a) [])) \/
  (sfa_recycled a = [] /\ sfa_current a = sfa_end a /\ sfa_alloc a = (None, a)).
Proof.
  intros Hinv. destruct (vec_cases (sfa_recycled a)) as [Hr|(rest & p & Hr)].
  - destruct (decide (sfa_current a = sfa_end a)).
    + right; right. auto using sfa_alloc_empty.
    + destruct (Hinv) as (? & _).
      right; left. split_and!; [done|lia|]. apply sfa_alloc_fresh; [done..|lia].
  - left. exists rest, p. auto using sfa_alloc_recycled.
Qed.

Lemma existsb_eqb_iff (l : list Z) p : existsb (fun v => v =? p) l = true <-> p ∈ l.
Proof.
  rewrite existsb_exists, list_elem_of_In. split.
  - by intros (x & ? & ->%Z.eqb_eq).
  - intros. exists p. split; [done|apply Z.eqb_refl].
Qed.

Lemma sfa_dealloc_ok a p :
  p < sfa_current a -> p ∉ sfa_recycled a ->
  sfa_dealloc a p = Ok (mk_sfa (sfa_current a) (sfa_end a) (vec_push (sfa_recycled a) p)).
Proof.
  intros Hlt Hni. unfold sfa_dealloc.
  destruct (Z.leb_spec (sfa_current a) p); [lia|].
  destruct (existsb _ _) eqn:E; [|done]. by apply existsb_eqb_iff in E.
Qed.

Lemma sfa_alloc_inv a o a' : sfa_inv a -> sfa_alloc a = (o, a') -> sfa_inv a'.
Proof.
  intros Hinv Hal. destruct (Hinv) as (? & ? & Hnd & Hall).
  destruct (sfa_alloc_cases a Hinv) as [(rest & p & Hr & E)|[(Hr & ? & E)|(? & ? & E)]];
    rewrite E in Hal; injection Hal as <- <-; [| |done].
  - rewrite Hr in Hnd, Hall. apply NoDup_vec_push in Hnd as [? _].
    apply Forall_vec_push in Hall as [? _]. repeat split; cbn; auto; lia.
  - repeat split; cbn; auto using NoDup_nil_2; lia.
Qed.

Lemma sfa_alloc_None a a' :
  sfa_inv a -> sfa_alloc a = (None, a') -> sfa_free a = ∅ /\ a' = a.
Proof.
  intros Hinv Hal.
  destruct (sfa_alloc_cases a Hinv) as [(? & ? & ? & E)|[(? & ? & E)|(Hr & Heq & E)]];
    rewrite E in Hal; try done. injection Hal as <-. split; [|done].
  apply set_eq. intros p. rewrite elem_of_sfa_free, Hr, elem_of_nil, elem_of_empty. lia.
Qed.

(** The frame comes off the recycled stack, or else is the lowest fresh one: either
    way it leaves the free set and enters the used one. *)
Lemma sfa_alloc_Some a p a' :
  sfa_inv a -> sfa_alloc a = (Some p, a') ->
  p ∈ sfa_free a /\ sfa_free a' = sfa_free a ∖ {[p]} /\
  sfa_used a' p /\ (forall q, sfa_used a q -> sfa_used a' q).
Proof.
  intros Hinv Hal. destruct (Hinv) as (? & ? & Hnd & Hall).
  destruct (sfa_alloc_cases a Hinv) as [(rest & q & Hr & E)|[(Hr & ? & E)|(_ & _ & E)]];
    rewrite E in Hal; try done; injection Hal as <- <-.
  - rewrite Hr in Hnd, Hall. apply NoDup_vec_push in Hnd as [? Hni].
    apply Forall_vec_push in Hall as [Hall Hq]. split_and!.
    + rewrite elem_of_sfa_free, Hr, elem_of_vec_push. tauto.
    + apply set_eq. intros x.
      rewrite elem_of_difference, !elem_of_sfa_free, Hr, elem_of_vec_push, elem_of_singleton.
      cbn. destruct (decide (x = q)) as [->|]; [|tauto].
      split; [intros [?|?]; [done|lia]|tauto].
    + by split.
    + intros x [? Hx]. split; [done|]. rewrite Hr, elem_of_vec_push in Hx. tauto.
  - split_and!.
    + apply elem_of_sfa_free. lia.
    + apply set_eq. intros x.
      rewrite elem_of_difference, !elem_of_sfa_free, Hr, elem_of_singleton, elem_of_nil.
      cbn. rewrite elem_of_nil. lia.
    + split; [cbn; lia|apply not_elem_of_nil].
    + intros q [? ?]. split; [cbn; lia|apply not_elem_of_nil].
Qed.

Lemma sfa_dealloc_used a p :
  sfa_inv a -> sfa_used a p ->
  exists a', sfa_dealloc a p = Ok a' /\ sfa_inv a' /\ sfa_free a' = {[p]} ∪ sfa_free a /\
    (forall q, q <> p -> sfa_used a q -> sfa_used a' q).
Proof.
  intros (? & ? & Hnd & Hall) [? ?]. rewrite sfa_dealloc_ok by (done || lia).
  eexists. split; [done|]. split_and!.
  - repeat split; cbn; try lia; [by apply NoDup_vec_push|by apply Forall_vec_push].
  - apply set_eq. intros x. rewrite elem_of_union, !elem_of_sfa_free, elem_of_singleton.
    cbn. rewrite elem_of_vec_push. tauto.
  - intros q ? [? ?]. split; [done|]. cbn. rewrite elem_of_vec_push. tauto.
Qed.

(** The allocator of the kernel manages frames of the machine. *)
Definition sfa_frames (a : StackFrameAllocator) : Prop := forall p, p ∈ sfa_free a -> is_frame p.

#[export] Instance StackFrameAllocator_spec : FrameAllocatorSpec StackFrameAllocator.
Proof.
  refine {| fa_inv := fun a => sfa_inv a /\ sfa_frames a; fa_free := sfa_free;
            fa_used := fun a p => sfa_used a p /\ is_frame p |}.
  - intros a p [_ Hf]. apply Hf.
  - intros a p _ [_ ?]. done.
  - intros a p _ [? _]. by apply sfa_used_not_free.
  - intros a a' [? _]. by apply sfa_alloc_None.
  - intros a p a' [Hinv Hf] Hal. destruct (sfa_alloc_Some a p a' Hinv Hal) as (Hin & Hfree & Hp & Hq).
    split_and!; [by apply (sfa_alloc_inv a (Some p))| |done|done|done|by apply Hf|].
    + intros q. rewrite Hfree. intros [? _]%elem_of_difference. by apply Hf.
    + intros q [? ?]. auto.
  - intros a p [Hinv Hf] [Hu Hp]. destruct (sfa_dealloc_used a p Hinv Hu) as (a' & Hd & Hinv' & Hfree & Hq).
    exists a'. split_and!; [done|done| |done|].
    + intros q. rewrite Hfree. intros [->%elem_of_singleton|?]%elem_of_union; [done|by apply Hf].
    + intros q ? [? ?]. auto.
Defined.

(** An allocator set up on frames of the machine. *)
Lemma sfa_init_ok l r : is_frame l -> l <= r <= 557056 -> fa_inv (sfa_init sfa_new l r).
Proof.
  unfold is_frame. intros Hl Hr. split.
  - repeat split; cbn; try lia; [apply NoDup_nil_2|apply Forall_nil_2].
  - intros p [[]%not_elem_of_nil|Hp]%elem_of_sfa_free. cbn in Hp. unfold is_frame. lia.
Qed.

(** ** Conservation of frames over every history *)

(** The calls clients make: [FrameAlloc] stands for [alloc], [FrameFree i] for
    dropping the [i]-th of the trackers they hold. *)
Inductive frame_op : Type :=
| FrameAlloc
| FrameFree (i : nat).

(** One call: the allocator, and the frames whose trackers are live. *)
Definition frame_step (st : StackFrameAllocator * list Z) (op : frame_op)
    : outcome (StackFrameAllocator * list Z) :=
  let '(a, live) := st in
  match op with
  | FrameAlloc =>
      match sfa_alloc a with
      | (Some p, a') => Ok (a', p :: live)
      | (None, a') => Ok (a', live)
      end
  | FrameFree i =>
      match live !! i with
      | Some p =>
          match sfa_dealloc a p with
          | Ok a' => Ok (a', delete i live)
          | Panic r => Panic r
          end
      | None => Ok (a, live)
      end
  end.

Fixpoint frame_run (st : StackFrameAllocator * list Z) (ops : list frame_op)
    : outcome (StackFrameAllocator * list Z) :=
  match ops with
  | [] => Ok st
  | op :: ops' =>
      match frame_step st op with
      | Ok st' => frame_run st' ops'
      | Panic r => Panic r
      end
  end.

(** The frames from [l] to [r] are, each exactly once, recycled, live or fresh. *)
Definition conserved (l r : Z) (st : StackFrameAllocator * list Z) : Prop :=
  let '(a, live) := st in
  sfa_inv a /\ 0 < l <= sfa_current a /\ sfa_end a = r /\
  sfa_recycled a ++ live ++ sfa_fresh a ≡ₚ seqZ l (r - l).

Lemma conserved_live l r a live :
  conserved l r (a, live) -> NoDup live /\ Forall (sfa_used a) live.
Proof.
  intros (Hinv & ? & ? & Hp). destruct (Hinv) as (? & _).
  assert (Hnd : NoDup (sfa_recycled a ++ live ++ sfa_fresh a)).
  { rewrite Hp. apply NoDup_seqZ. }
  apply NoDup_app in Hnd as (_ & Hr & (? & Hl & _)%NoDup_app). split; [done|].
  apply Forall_forall. intros p Hin.
  assert (p ∈ seqZ l (r - l)) as Hrange%elem_of_seqZ.
  { rewrite <-Hp, !elem_of_app. auto. }
  specialize (Hl p Hin). unfold sfa_fresh in Hl. rewrite elem_of_seqZ in Hl.
  split; [lia|]. intros Hrec. apply (Hr p Hrec), elem_of_app. auto.
Qed.

Lemma conserved_alloc l r a live o a' :
  conserved l r (a, live) -> sfa_alloc a = (o, a') ->
  conserved l r (a', match o with Some p => p :: live | None => live end).
Proof.
  intros (Hinv & ? & ? & Hp) Hal. pose proof (sfa_alloc_inv _ _ _ Hinv Hal) as Hinv'.
  split; [done|].
  destruct (sfa_alloc_cases a Hinv) as [(rest & q & Hr & E)|[(Hr & ? & E)|(_ & _ & E)]];
    rewrite E in Hal; injection Hal as <- <-; cbn -[seqZ] in *; (split; [lia|]);
    (split; [done|]); rewrite <-Hp; [| |done].
  - unfold sfa_fresh; cbn. rewrite Hr. unfold vec_push. solve_Permutation.
  - unfold sfa_fresh; cbn. rewrite Hr, (seqZ_cons (sfa_current a)) by lia.
    unfold Z.succ. replace (Z.pred (sfa_end a - sfa_current a))
      with (sfa_end a - (sfa_current a + 1)) by lia. solve_Permutation.
Qed.

Lemma conserved_dealloc l r a live i p :
  conserved l r (a, live) -> live !! i = Some p ->
  exists a', sfa_dealloc a p = Ok a' /\ conserved l r (a', delete i live).
Proof.
  intros Hc Hi. destruct (conserved_live _ _ _ _ Hc) as [_ Hused].
  pose proof (Forall_lookup_1 _ _ _ _ Hused Hi) as Hu. destruct Hc as (Hinv & ? & ? & Hp).
  destruct (sfa_dealloc_used a p Hinv Hu) as (a' & Hd & Hinv' & _).
  exists a'. split; [done|]. destruct Hu as [? ?]. rewrite sfa_dealloc_ok in Hd by (done || lia).
  injection Hd as <-. repeat (split; [done|]). cbn. rewrite <-Hp.
  pose proof (delete_Permutation live i p Hi) as HL. revert HL.
  generalize (delete i live). intros live' ->.
  unfold vec_push, sfa_fresh; cbn. solve_Permutation.
Qed.

(** C24: from [init(l, r)], whatever sequence of allocations and drops the clients
    make, no call panics, no frame is ever held by two live trackers, and the frames
    in [l, r) are at every moment exactly the live ones, the recycled ones and the
    fresh ones, without repetition: none is lost and none handed out twice. *)
Theorem frame_allocator_conserves l r ops :
  0 < l <= r -> r < 2 ^ 44 ->
  exists a live, frame_run (sfa_init sfa_new l r, []) ops = Ok (a, live) /\
    NoDup live /\ (forall p, p ∈ live -> l <= p < r /\ p ∉ sfa_free a) /\
    sfa_recycled a ++ live ++ sfa_fresh a ≡ₚ seqZ l (r - l).
Proof.
  intros Hl Hr.
  assert (Hc : conserved l r (sfa_init sfa_new l r, [])).
  { repeat split; cbn; try lia; [apply NoDup_nil_2|apply Forall_nil_2|done]. }
  revert Hc. generalize (sfa_init sfa_new l r) (@nil Z).
  induction ops as [|op ops IH]; intros a live Hc; cbn [frame_run].
  - exists a, live. split; [done|]. destruct (conserved_live _ _ _ _ Hc) as [? Hu].
    destruct Hc as (Hinv & ? & ? & Hp). split_and!; [done| |done]. intros p Hin.
    rewrite Forall_forall in Hu. split.
    + enough (p ∈ seqZ l (r - l)) as ?%elem_of_seqZ by lia.
      rewrite <-Hp, !elem_of_app. auto.
    + by apply sfa_used_not_free, Hu.
  - destruct op as [|i]; cbn [frame_step].
    + destruct (sfa_alloc a) as [o a'] eqn:E. pose proof (conserved_alloc _ _ _ _ _ _ Hc E).
      destruct o; by apply IH.
    + destruct (live !! i) as [p|] eqn:E; [|by apply IH].
      destruct (conserved_dealloc _ _ _ _ _ _ Hc E) as (a' & -> & ?). by apply IH.
Qed.

Lemma frame_allocator_conserves_witness :
  exists a live,
    frame_run (sfa_init sfa_new 5 9, []) [FrameAlloc; FrameAlloc; FrameFree 0; FrameAlloc]
      = Ok (a, live) /\
    NoDup live /\ (forall p, p ∈ live -> 5 <= p < 9 /\ p ∉ sfa_free a) /\
    sfa_recycled a ++ live ++ sfa_fresh a ≡ₚ seqZ 5 (9 - 5).
Proof.
  apply (frame_allocator_conserves 5 9 [FrameAlloc; FrameAlloc; FrameFree 0; FrameAlloc]); lia.
Defined.

(** ** What a client sees of [frame_alloc] and [frame_dealloc] *)

Section Clients.
Context {T : Type} `{FrameAllocatorSpec T}.
Implicit Types s : MmState T.

Definition mm_inv s : Prop := fa_inv (allocator s).
Definition free_frames s : gset Z := fa_free (allocator s).
Definition in_use s (p : Z) : Prop := fa_used (allocator s) p.

Lemma in_use_frame s p : mm_inv s -> in_use s p -> is_frame p.
Proof. apply fa_used_frame. Qed.

Lemma free_is_frame s p : mm_inv s -> p ∈ free_frames s -> is_frame p.
Proof. apply fa_free_frame. Qed.

Lemma in_use_not_free s p : mm_inv s -> in_use s p -> p ∉ free_frames s.
Proof. apply fa_used_not_free. Qed.

(** The effect of a successful [frame_alloc] that returned [p]. *)
Record allocated s (p : Z) s' : Prop := {
  allocated_inv : mm_inv s';
  allocated_free : p ∈ free_frames s;
  allocated_rest : free_frames s' = free_frames s ∖ {[p]};
  allocated_use : in_use s' p;
  allocated_keep q : in_use s q -> in_use s' q;
  allocated_phys : phys s' = fill (phys s) (page_base p) PAGE_SIZE 0
}.

Lemma wp_frame_alloc s :
  mm_inv s -> free_frames s <> ∅ ->
  wp frame_alloc (fun o s' => exists p, o = Some p /\ allocated s p s') s.
Proof.
  intros Hinv Hne. unfold frame_alloc. wp_steps.
  destruct (fa_alloc (allocator s)) as [[p|] a'] eqn:E.
  - destruct (fa_alloc_Some _ _ _ Hinv E) as (? & ? & ? & ? & ?).
    unfold FrameTracker_new. wp_steps. exists p. split; [done|]. by split.
  - destruct (fa_alloc_None _ _ Hinv E) as [? _]. done.
Qed.

Lemma frame_alloc_oom s : mm_inv s -> free_frames s = ∅ -> frame_alloc s = Ok (None, s).
Proof.
  intros Hinv He. unfold frame_alloc, bind, get.
  destruct (fa_alloc (allocator s)) as [[p|] a'] eqn:E.
  - destruct (fa_alloc_Some _ _ _ Hinv E) as (_ & Hp & _). set_solver.
  - destruct (fa_alloc_None _ _ Hinv E) as [_ ->]. by destruct s.
Qed.

Lemma wp_frame_dealloc s p :
  mm_inv s -> in_use s p ->
  wp (frame_dealloc p) (fun _ s' => mm_inv s' /\ free_frames s' = {[p]} ∪ free_frames s /\
    (forall q, q <> p -> in_use s q -> in_use s' q) /\ phys s' = phys s) s.
Proof.
  intros Hinv Hu. destruct (fa_dealloc_used _ _ Hinv Hu) as (a' & Hd & ? & ? & ?).
  unfold frame_dealloc, wp, bind, get, lift. by rewrite Hd.
Qed.

(** Dropping a vector of distinct live trackers gives every one of them back. *)
Lemma wp_drop_frames l s :
  mm_inv s -> NoDup l -> (forall p, p ∈ l -> in_use s p) ->
  wp (drop_frames l) (fun _ s' => mm_inv s' /\ free_frames s' = list_to_set l ∪ free_frames s /\
    (forall q, q ∉ l -> in_use s q -> in_use s' q) /\ phys s' = phys s) s.
Proof.
  intros Hinv Hnd Hl. unfold drop_frames, for_each.
  eapply wp_mono; [|apply (wp_foldM _ (fun l1 _ s' =>
    mm_inv s' /\ free_frames s' = list_to_set l1 ∪ free_frames s /\
    (forall q, q ∉ l1 -> in_use s q -> in_use s' q) /\ phys s' = phys s))].
  - intros [] s'. done.
  - split_and!; [done|set_solver|done|done].
  - intros l1 p l2 _ s1 Hsplit (Hinv1 & Hf1 & Hu1 & Hp1). subst l.
    apply NoDup_app in Hnd as (_ & Hdisj & _).
    assert (p ∉ l1) by (intros ?; by apply (Hdisj p); [|left]).
    eapply wp_mono; [|apply wp_frame_dealloc; [done|apply Hu1, Hl; [done|set_solver]]].
    cbn beta. intros _ s2 (? & Hf2 & Hu2 & Hp2). split_and!; [done| | |congruence].
    + rewrite Hf2, Hf1, list_to_set_app_L. set_solver.
    + intros q Hq ?. apply Hu2; [set_solver|]. apply Hu1; set_solver.
Qed.

(** How memory-management code may change the world: it takes the frames [new],
    at most [k], from the free set, gives none back, and writes only to pages of
    [W] and of [new]. *)
Record grows (k : nat) s (W new : list Z) s' : Prop := {
  gr_inv : mm_inv s';
  gr_keep q : in_use s q -> in_use s' q;
  gr_len : (length new <= k)%nat;
  gr_nodup : NoDup new;
  gr_sub p : p ∈ new -> p ∈ free_frames s;
  gr_free : free_frames s' = free_frames s ∖ list_to_set new;
  gr_use : Forall (in_use s') new;
  gr_mem a : a / PAGE_SIZE ∉ W -> a / PAGE_SIZE ∉ new -> phys s' a = phys s a
}.

Lemma grows_refl k s W : mm_inv s -> grows k s W [] s.
Proof.
  intros. split; try done; [cbn; lia|apply NoDup_nil_2|set_solver|set_solver].
Qed.

Lemma grows_trans j k s1 W n1 s2 W' n2 s3 :
  grows j s1 W n1 s2 -> grows k s2 W' n2 s3 ->
  (forall p, p ∈ W' -> p ∈ W \/ p ∈ n1) ->
  grows (j + k) s1 W (n1 ++ n2) s3.
Proof.
  intros [Hi1 Hk1 Hl1 Hd1 Hs1 Hf1 Hu1 Hp1] [Hi2 Hk2 Hl2 Hd2 Hs2 Hf2 Hu2 Hp2] HW.
  split.
  - done.
  - auto.
  - rewrite length_app. lia.
  - apply NoDup_app. split_and!; [done| |done]. intros p Hp Hp'.
    apply Hs2 in Hp'. rewrite Hf1 in Hp'. set_solver.
  - intros p [?|Hp]%elem_of_app; [auto|]. apply Hs2 in Hp. rewrite Hf1 in Hp. set_solver.
  - rewrite Hf2, Hf1, list_to_set_app_L. set_solver.
  - apply Forall_app. split; [|done]. eapply Forall_impl; eauto.
  - intros a HaW Han. rewrite elem_of_app in Han. rewrite Hp2, Hp1; [done|done|tauto| |tauto].
    intros [?|?]%HW; tauto.
Qed.

Lemma grows_weaken j k s W W' new s' :
  (j <= k)%nat -> (forall p, p ∈ W -> p ∈ W') -> grows j s W new s' -> grows k s W' new s'.
Proof. intros Hjk HW [? ? ? ? ? ? ? ?]. split; try done; [lia|eauto]. Qed.

Lemma grows_size k s W new s' :
  grows k s W new s' -> (size (free_frames s) <= size (free_frames s') + k)%nat.
Proof.
  intros [_ _ Hl Hnd Hs -> _ _].
  rewrite size_difference by (intros p; rewrite elem_of_list_to_set; apply Hs).
  rewrite size_list_to_set by done. lia.
Qed.

(** Frames in use before are none of the new ones. *)
Lemma grows_fresh k s W new s' p : mm_inv s -> grows k s W new s' -> in_use s p -> p ∉ new.
Proof.
  intros Hinv Hg Hu Hin. apply (in_use_not_free s p Hinv Hu). by apply (gr_sub _ _ _ _ _ Hg).
Qed.

Lemma page_span p a :
  is_frame p -> page_base p <= a < page_base p + PAGE_SIZE <-> a / PAGE_SIZE = p.
Proof.
  unfold is_frame, PAGE_SIZE. intros. rewrite page_base_small by lia. split.
  - intros. symmetry. apply (Z.div_unique _ _ _ (a - p * 4096)); lia.
  - intros <-. zdm.
Qed.

Lemma grows_alloc s f s' : mm_inv s -> allocated s f s' -> grows 1 s [] [f] s'.
Proof.
  intros Hinv [Hi Hfree Hrest Huse Hkeep Hphys]. split; try done.
  - apply NoDup_singleton.
  - by intros p ->%list_elem_of_singleton.
  - rewrite Hrest. set_solver.
  - by apply Forall_singleton.
  - intros a _ Ha. rewrite Hphys. apply fill_out. intros Hs. apply Ha.
    apply page_span in Hs; [|by apply (free_is_frame s)]. by apply list_elem_of_singleton.
Qed.

(** A new frame is all zero. *)
Lemma allocated_zero s f s' a :
  mm_inv s -> allocated s f s' -> a / PAGE_SIZE = f -> phys s' a = 0.
Proof.
  intros Hinv Hal Ha. rewrite (allocated_phys _ _ _ Hal). apply fill_in, page_span; [|done].
  apply (free_is_frame s); [done|apply Hal].
Qed.

(** Writing within pages of [W]. *)
Lemma grows_write s W m :
  mm_inv s -> (forall a, a / PAGE_SIZE ∉ W -> m a = phys s a) ->
  grows 0 s W [] (set_phys m s).
Proof.
  intros. split; try done; [apply NoDup_nil_2|set_solver| |auto].
  change (free_frames s = free_frames s ∖ list_to_set []). set_solver.
Qed.

End Clients.
