(* ===== verification/PageTable.v ===== *)
(** * Sv39 page tables (os5/src/mm/page_table.rs)

    A page table is a tree of frames of physical memory, each an array of 512
    eight-byte entries; [PageTable] holds the root frame and the trackers of every
    frame it allocated.  [find_pte] and [find_pte_create] return a reference to an
    entry: here, its physical address. *)

From S2P Require Import Prelude Config Address PhysMem FrameAllocator.

(** ** Entries *)

(** [PTEFlags], a [bitflags] struct over [u8] with all eight bits named. *)
Inductive PTEFlags : Type :=
| PTE_V
| PTE_R
| PTE_W
| PTE_X
| PTE_U
| PTE_G
| PTE_A
| PTE_D.

Definition pte_flag_bits (f : PTEFlags) : Z :=
  match f with
  | PTE_V => Z.shiftl 1 0
  | PTE_R => Z.shiftl 1 1
  | PTE_W => Z.shiftl 1 2
  | PTE_X => Z.shiftl 1 3
  | PTE_U => Z.shiftl 1 4
  | PTE_G => Z.shiftl 1 5
  | PTE_A => Z.shiftl 1 6
  | PTE_D => Z.shiftl 1 7
  end.
Coercion pte_flag_bits : PTEFlags >-> Z.

(** A [PageTableEntry] is its [bits]. *)
Definition pte_new (ppn flags : Z) : Z := Z.lor (ppn <<% 10) flags.
Definition pte_empty : Z := 0.
Definition pte_ppn (bits : Z) : Z := Z.land (Z.shiftr bits 10) ((1 <<% 44) - 1).
Definition pte_flags (bits : Z) : Z := wrap8 bits.
Definition pte_is_valid (bits : Z) : bool := negb (Z.land (pte_flags bits) PTE_V =? 0).
Definition pte_readable (bits : Z) : bool := negb (Z.land (pte_flags bits) PTE_R =? 0).
Definition pte_writable (bits : Z) : bool := negb (Z.land (pte_flags bits) PTE_W =? 0).
Definition pte_executable (bits : Z) : bool := negb (Z.land (pte_flags bits) PTE_X =? 0).

Definition pte_load (m : mem) (ppn idx : Z) : Z := load64 m (pte_addr ppn idx).

(** ** Page tables *)

Record PageTable : Type := mk_pt { root_ppn : Z; pt_frames : list Z }.

Definition PageTable_from_token (satp : Z) : PageTable :=
  mk_pt (Z.land satp ((1 <<% 44) - 1)) [].

Definition PageTable_token (pt : PageTable) : Z := Z.lor (8 <<% 60) (root_ppn pt).

(** [idxs.iter().enumerate()] *)
Definition enumerate (l : list Z) : list (nat * Z) := combine (seq 0 (length l)) l.

(** The loop of [find_pte]: it stops at the entry of the last level, or at an
    invalid entry above it. *)
Fixpoint find_pte_loop (m : mem) (idxs : list (nat * Z)) (ppn : Z) : option Z :=
  match idxs with
  | [] => None
  | (i, idx) :: rest =>
      if Nat.eqb i 2 then Some (pte_addr ppn idx)
      else if negb (pte_is_valid (pte_load m ppn idx)) then None
      else find_pte_loop m rest (pte_ppn (pte_load m ppn idx))
  end.
Definition find_pte (m : mem) (pt : PageTable) (vpn : Z) : option Z :=
  find_pte_loop m (enumerate (indexes vpn)) (root_ppn pt).

Definition translate (m : mem) (pt : PageTable) (vpn : Z) : option Z :=
  match find_pte m pt vpn with
  | Some pte => Some (load64 m pte)
  | None => None
  end.

Definition translate_va (m : mem) (pt : PageTable) (va : Z) : option Z :=
  match find_pte m pt (VirtAddr_floor va) with
  | Some pte =>
      let aligned_pa := PhysAddr_from_PhysPageNum (pte_ppn (load64 m pte)) in
      Some (aligned_pa +% VirtAddr_page_offset va)
  | None => None
  end.

Section PageTable.
Context {T : Type} `{FrameAllocator T}.

Definition PageTable_new : M (MmState T) PageTable :=
  let* o := frame_alloc in
  let* frame := unwrap o in
  ret (mk_pt frame [frame]).

(** [*pte = bits] through a reference to an entry. *)
Definition write_pte (pte bits : Z) : M (MmState T) unit :=
  modify (fun s => set_phys (store64 (phys s) pte bits) s).

(** The loop of [find_pte_create]: a missing table is allocated and linked in. *)
Fixpoint find_pte_create_loop (idxs : list (nat * Z)) (ppn : Z) (frames : list Z)
    : M (MmState T) (option Z * list Z) :=
  match idxs with
  | [] => ret (None, frames)
  | (i, idx) :: rest =>
      if Nat.eqb i 2 then ret (Some (pte_addr ppn idx), frames)
      else
        let* bits := gets (fun s => pte_load (phys s) ppn idx) in
        let* frames :=
          if negb (pte_is_valid bits) then
            let* o := frame_alloc in
            let* frame := unwrap o in
            write_pte (pte_addr ppn idx) (pte_new frame PTE_V) ;;
            ret (vec_push frames frame)
          else ret frames in
        let* bits := gets (fun s => pte_load (phys s) ppn idx) in
        find_pte_create_loop rest (pte_ppn bits) frames
  end.
Definition find_pte_create (pt : PageTable) (vpn : Z) : M (MmState T) (option Z * PageTable) :=
  let* (o, frames) := find_pte_create_loop (enumerate (indexes vpn)) (root_ppn pt) (pt_frames pt) in
  ret (o, mk_pt (root_ppn pt) frames).

Definition PageTable_map (pt : PageTable) (vpn ppn flags : Z) : M (MmState T) PageTable :=
  let* (o, pt) := find_pte_create pt vpn in
  let* pte := unwrap o in
  let* bits := gets (fun s => load64 (phys s) pte) in
  assert_ (negb (pte_is_valid bits)) ;;
  write_pte pte (pte_new ppn (Z.lor flags PTE_V)) ;;
  ret pt.

Definition PageTable_unmap (pt : PageTable) (vpn : Z) : M (MmState T) PageTable :=
  let* (o, pt) := find_pte_create pt vpn in
  let* pte := unwrap o in
  let* bits := gets (fun s => load64 (phys s) pte) in
  assert_ (pte_is_valid bits) ;;
  write_pte pte pte_empty ;;
  ret pt.

End PageTable.

(** ** Access to user memory *)

(** [translated_byte_buffer] returns the slices of physical memory that hold a user
    buffer; a slice is its first address and its length, and the bytes are accessed by the
    caller, where the access may fault.  One round of the loop
    yields a slice and the next start.  The loop of the source runs while
    [start < end]; [byte_buffer_loop] runs it for at most [fuel] rounds. *)
Definition byte_buffer_round (m : mem) (pt : PageTable) (end_ start : Z) : outcome ((Z * Z) * Z) :=
  let vpn := VirtAddr_floor start in
  match translate m pt vpn with
  | None => Panic UnwrapNone
  | Some bits =>
      let base := page_base (pte_ppn bits) in
      let end_va := Z.min (VirtAddr_from_VirtPageNum (step vpn)) end_ in
      let lo := VirtAddr_page_offset start in
      let hi := if VirtAddr_page_offset end_va =? 0 then PAGE_SIZE else VirtAddr_page_offset end_va in
      if lo <=? hi then Ok ((base + lo, hi - lo), end_va) else Panic OutOfRange
  end.

Fixpoint byte_buffer_loop (fuel : nat) (m : mem) (pt : PageTable) (end_ start : Z)
    : outcome (list (Z * Z)) :=
  if start <? end_ then
    match fuel with
    | O => Panic OutOfFuel
    | S fuel' =>
        match byte_buffer_round m pt end_ start with
        | Panic r => Panic r
        | Ok (slice, start') =>
            match byte_buffer_loop fuel' m pt end_ start' with
            | Panic r => Panic r
            | Ok v => Ok (slice :: v)
            end
        end
    end
  else Ok [].

Definition translated_byte_buffer (fuel : nat) (m : mem) (token ptr len : Z)
    : outcome (list (Z * Z)) :=
  let end_ := ptr +% len in
  byte_buffer_loop fuel m (PageTable_from_token token) end_ ptr.

(** [PhysAddr::get_mut]: a reference to the value there, which is a pointer that is not
    null; using it is up to the caller. *)
Definition PhysAddr_get_mut (pa : Z) : outcome Z :=
  if pa =? 0 then Panic UnwrapNone else Ok pa.

(** [translated_str]: the bytes up to the first NUL, each pushed as a [char]; the
    source's loop is unbounded.  A page whose entry is not valid but whose table exists
    translates to page 0, which the kernel cannot read. *)
Fixpoint str_loop (fuel : nat) (m : mem) (pt : PageTable) (va : Z) : outcome (list Z) :=
  match fuel with
  | O => Panic OutOfFuel
  | S fuel' =>
      match translate_va m pt va with
      | None => Panic UnwrapNone
      | Some pa =>
          match PhysAddr_get_mut pa with
          | Panic r => Panic r
          | Ok p =>
              if negb (kernel_maps p 1) then Panic PageFault
              else
                let ch := load8 m p in
                if ch =? 0 then Ok []
                else match str_loop fuel' m pt (va +% 1) with
                     | Panic r => Panic r
                     | Ok s => Ok (ch :: s)
                     end
          end
      end
  end.
Definition translated_str (fuel : nat) (m : mem) (token ptr : Z) : outcome (list Z) :=
  str_loop fuel m (PageTable_from_token token) ptr.

(** [translated_refmut]: the physical address of the user's variable, not yet accessed. *)
Definition translated_refmut (m : mem) (token ptr : Z) : outcome Z :=
  match translate_va m (PageTable_from_token token) ptr with
  | Some pa => PhysAddr_get_mut pa
  | None => Panic UnwrapNone
  end.

(** ** Facts about entries *)

Lemma pte_fields ppn flags :
  0 <= ppn < 2 ^ 44 -> is_u8 flags -> pte_new ppn flags = ppn * 2 ^ 10 + flags.
Proof.
  intros ? [? ?]. unfold pte_new. rewrite shiftl_mul by done.
  rewrite wrap64_small by lia. apply lor_add_disjoint; lia.
Qed.

Lemma pte_new_usize ppn flags : 0 <= ppn < 2 ^ 44 -> is_u8 flags -> is_usize (pte_new ppn flags).
Proof. intros ? [? ?]. rewrite pte_fields by done. unfold is_usize. lia. Qed.

Lemma pte_ppn_new ppn flags :
  0 <= ppn < 2 ^ 44 -> is_u8 flags -> pte_ppn (pte_new ppn flags) = ppn.
Proof.
  intros ? [? ?]. rewrite pte_fields by done. unfold pte_ppn.
  change (1 <<% 44) with (2 ^ 44). rewrite land_ones_mod, shiftr_div by done.
  rewrite Z.div_add_l by done. rewrite (Z.div_small flags), Z.add_0_r by lia.
  apply Z.mod_small. lia.
Qed.

Lemma pte_flags_new ppn flags :
  0 <= ppn < 2 ^ 44 -> is_u8 flags -> pte_flags (pte_new ppn flags) = flags.
Proof.
  intros ? [? ?]. rewrite pte_fields by done. unfold pte_flags, wrap8.
  rewrite <-(Z.mod_small flags (2 ^ 8)) at 2 by done.
  change (ppn * 2 ^ 10) with (ppn * (4 * 2 ^ 8)). rewrite Z.mul_assoc, Z.add_comm.
  apply Z.mod_add. done.
Qed.

Lemma pte_ppn_range bits : 0 <= pte_ppn bits < 2 ^ 44.
Proof.
  unfold pte_ppn. change (1 <<% 44) with (2 ^ 44).
  rewrite land_ones_mod by done. by apply Z.mod_pos_bound.
Qed.

(** An entry is valid when its lowest bit is set. *)
Lemma pte_is_valid_odd bits : pte_is_valid bits = Z.odd bits.
Proof.
  unfold pte_is_valid, pte_flags, wrap8. change (pte_flag_bits PTE_V) with (2 ^ 1 - 1).
  rewrite land_ones_mod by done. change (2 ^ 8) with (2 ^ 1 * 2 ^ 7).
  rewrite Z.rem_mul_r, Z.mul_comm, Z.mod_add, Z.mod_mod by done.
  rewrite Zmod_odd. by destruct (Z.odd bits).
Qed.

Lemma pte_new_valid ppn flags :
  0 <= ppn < 2 ^ 44 -> is_u8 flags ->
  pte_is_valid (pte_new ppn (Z.lor flags PTE_V)) = true.
Proof.
  intros. unfold pte_new. rewrite pte_is_valid_odd, <-!Z.bit0_odd, !Z.lor_spec.
  change (Z.testbit PTE_V 0) with true. by rewrite !orb_true_r.
Qed.
