(* ===== verification/PageTableSpec.v ===== *)
(** * What page tables promise

    The abstract view of a page table is a partial map from page numbers (modulo
    2^27) to valid entries.  [pt_wf] is the tree invariant that makes the view
    meaningful; [map] and [unmap] implement insertion into and deletion from the
    view, and touch no memory but the tables'. *)

From S2P Require Import Prelude Config Address PhysMem FrameAllocator PageTable.

Lemma lor_u8 a b : is_u8 a -> is_u8 b -> is_u8 (Z.lor a b).
Proof.
  unfold is_u8. intros [Ha ?] [Hb ?]. split; [by apply Z.lor_nonneg|].
  destruct (decide (Z.lor a b = 0)) as [->|Hne]; [done|].
  apply Z.log2_lt_pow2; [pose proof (proj2 (Z.lor_nonneg a b) (conj Ha Hb)); lia|].
  rewrite Z.log2_lor by done. apply Z.max_lub_lt.
  - destruct (decide (a = 0)) as [->|]; [done|]. apply Z.log2_lt_pow2; lia.
  - destruct (decide (b = 0)) as [->|]; [done|]. apply Z.log2_lt_pow2; lia.
Qed.

(** ** Walking the tree *)

(** The table reached from table [p] by following the entries of a path. *)
Fixpoint walk (m : mem) (p : Z) (path : list Z) : option Z :=
  match path with
  | [] => Some p
  | i :: rest =>
      let bits := pte_load m p i in
      if pte_is_valid bits then walk m (pte_ppn bits) rest else None
  end.

(** Paths that lead to a table: at most two indexes. *)
Definition table_path (path : list Z) : Prop :=
  (length path <= 2)%nat /\ Forall (fun i => 0 <= i < 512) path.

(** The tables of the tree are the frames the page table owns, and no frame is
    reached by two paths. *)
Record pt_wf (m : mem) (pt : PageTable) : Prop := {
  pt_wf_frames : Forall is_frame (pt_frames pt);
  pt_wf_nodup : NoDup (pt_frames pt);
  pt_wf_owned path p :
    table_path path -> walk m (root_ppn pt) path = Some p -> p ∈ pt_frames pt;
  pt_wf_inj path1 path2 p :
    table_path path1 -> table_path path2 ->
    walk m (root_ppn pt) path1 = Some p -> walk m (root_ppn pt) path2 = Some p ->
    path1 = path2
}.

(** The valid entry for a page, if any: the abstract view. *)
Definition mapping (m : mem) (pt : PageTable) (vpn : Z) : option Z :=
  match translate m pt vpn with
  | Some bits => if pte_is_valid bits then Some bits else None
  | None => None
  end.

(** ** Lemmas on walks *)

Lemma walk_app m p path1 path2 :
  walk m p (path1 ++ path2) = walk m p path1 ≫= fun q => walk m q path2.
Proof.
  revert p. induction path1 as [|i path1 IH]; intros p; [done|]; cbn [app walk].
  by destruct (pte_is_valid _).
Qed.

(** A walk only depends on the entries it reads. *)
Lemma walk_ext m m' p path :
  (forall path1 i path2 q, path = path1 ++ i :: path2 -> walk m p path1 = Some q ->
     pte_load m' q i = pte_load m q i) ->
  walk m' p path = walk m p path.
Proof.
  revert p. induction path as [|i path IH]; intros p Hext; [done|]; cbn [walk].
  rewrite (Hext [] i path p) by done.
  destruct (pte_is_valid (pte_load m p i)) eqn:E; [|done].
  apply IH. intros path1 j path2 q -> Hw.
  apply (Hext (i :: path1) j path2); [done|]. cbn [walk]. by rewrite E.
Qed.

Lemma table_path_app path1 path2 : table_path (path1 ++ path2) -> table_path path1.
Proof.
  intros [Hl Hf]. rewrite length_app in Hl. apply Forall_app in Hf as [? _].
  split; [lia|done].
Qed.

Lemma table_path_snoc_idx path1 i path2 : table_path (path1 ++ i :: path2) -> 0 <= i < 512.
Proof. intros [_ Hf]. by apply Forall_app in Hf as [_ [? _]%Forall_cons]. Qed.

Lemma table_path_2 i j : 0 <= i < 512 -> 0 <= j < 512 -> table_path [i; j].
Proof. intros. split; [cbn; lia|]. by rewrite !Forall_cons. Qed.

(** Two different entries of two frames do not overlap. *)
Lemma pte_addr_disjoint p i q j :
  is_frame p -> is_frame q -> 0 <= i < 512 -> 0 <= j < 512 -> (p, i) <> (q, j) ->
  pte_addr p i + 8 <= pte_addr q j \/ pte_addr q j + 8 <= pte_addr p i.
Proof.
  unfold is_frame, pte_addr. intros ???? Hne. rewrite !page_base_small by lia.
  destruct (decide (p = q)) as [->|]; [|lia].
  assert (i <> j) by congruence. lia.
Qed.

Lemma pte_load_store_ne m p i q j v :
  is_frame p -> is_frame q -> 0 <= i < 512 -> 0 <= j < 512 -> (p, i) <> (q, j) ->
  pte_load (store64 m (pte_addr p i) v) q j = pte_load m q j.
Proof. intros. apply load64_store64_ne. by apply pte_addr_disjoint. Qed.

Lemma pte_load_store_eq m p i v :
  is_usize v -> pte_load (store64 m (pte_addr p i) v) p i = v.
Proof. apply load64_store64_eq. Qed.

Lemma pte_load_fill_ne m p q j v :
  is_frame p -> is_frame q -> 0 <= j < 512 -> p <> q ->
  pte_load (fill m (page_base p) PAGE_SIZE v) q j = pte_load m q j.
Proof.
  unfold is_frame, PAGE_SIZE. intros. apply load64_ext. unfold pte_addr.
  rewrite !page_base_small by lia. intros. apply fill_out. lia.
Qed.

Lemma pte_load_fill_eq m p j :
  0 <= j < 512 -> pte_load (fill m (page_base p) PAGE_SIZE 0) p j = 0.
Proof.
  intros. unfold pte_load, pte_addr, PAGE_SIZE. apply load64_fill_zero; lia.
Qed.

(** [find_pte] reads the last index in the table two levels down. *)
Lemma find_pte_walk m pt vpn i0 i1 i2 :
  indexes vpn = [i0; i1; i2] ->
  find_pte m pt vpn =
    match walk m (root_ppn pt) [i0; i1] with
    | Some p => Some (pte_addr p i2)
    | None => None
    end.
Proof.
  intros E. unfold find_pte. rewrite E. cbn.
  destruct (pte_is_valid (pte_load m (root_ppn pt) i0)); cbn; [|done].
  by destruct (pte_is_valid _).
Qed.

Lemma translate_walk m pt vpn i0 i1 i2 :
  indexes vpn = [i0; i1; i2] ->
  translate m pt vpn =
    match walk m (root_ppn pt) [i0; i1] with
    | Some p => Some (pte_load m p i2)
    | None => None
    end.
Proof.
  intros E. unfold translate. rewrite (find_pte_walk _ _ _ _ _ _ E).
  by destruct (walk _ _ _).
Qed.

Lemma indexes_three vpn :
  exists i0 i1 i2, indexes vpn = [i0; i1; i2] /\
    0 <= i0 < 512 /\ 0 <= i1 < 512 /\ 0 <= i2 < 512.
Proof.
  pose proof (indexes_range vpn) as Hr. rewrite indexes_eq in *.
  eexists _, _, _. split; [done|].
  by apply Forall_cons in Hr as [? [? [? _]%Forall_cons]%Forall_cons].
Qed.

(** ** Updating the tree *)

Section Updates.
Context (m : mem) (pt : PageTable) (Hwf : pt_wf m pt).

Lemma table_is_frame path p :
  table_path path -> walk m (root_ppn pt) path = Some p -> is_frame p.
Proof.
  intros Hp Hw. pose proof (pt_wf_frames _ _ Hwf) as Hf. rewrite Forall_forall in Hf.
  by eapply Hf, pt_wf_owned.
Qed.

(** Writing an entry of a last-level table leaves every walk to a table alone. *)
Lemma walk_store_leaf path p i v path' :
  table_path path -> length path = 2%nat -> walk m (root_ppn pt) path = Some p ->
  0 <= i < 512 -> table_path path' ->
  walk (store64 m (pte_addr p i) v) (root_ppn pt) path' = walk m (root_ppn pt) path'.
Proof.
  intros Hp Hlen Hw Hi Hp'. apply walk_ext. intros path1 j path2 q -> Hq.
  assert (Hp1 : table_path path1) by eauto using table_path_app.
  apply pte_load_store_ne; eauto using table_is_frame, table_path_snoc_idx.
  intros [= <- _]. assert (path1 = path) as -> by (by eapply pt_wf_inj).
  destruct Hp' as [Hl _]. rewrite length_app in Hl. cbn in Hl. lia.
Qed.

Lemma pt_wf_store_leaf path p i v :
  table_path path -> length path = 2%nat -> walk m (root_ppn pt) path = Some p ->
  0 <= i < 512 -> pt_wf (store64 m (pte_addr p i) v) pt.
Proof.
  intros Hp Hlen Hw Hi. destruct Hwf as [Hf Hnd Ho Hinj]. split; [done|done| |].
  - intros path' q Hp' Hq. rewrite (walk_store_leaf path) in Hq by done. eauto.
  - intros path1 path2 q Hp1 Hp2. rewrite !(walk_store_leaf path) by done. eauto.
Qed.

(** Linking a fresh, cleared frame [f] at an invalid entry [i] of a table above the
    last level. *)
Context (path : list Z) (p i f : Z).
Context (Hpath : table_path (path ++ [i])) (Hw : walk m (root_ppn pt) path = Some p).
Context (Hinvalid : pte_is_valid (pte_load m p i) = false).
Context (Hf : is_frame f) (Hfresh : f ∉ pt_frames pt).

Definition linked : mem :=
  store64 (fill m (page_base f) PAGE_SIZE 0) (pte_addr p i) (pte_new f PTE_V).

Lemma link_path : table_path path.
Proof. eauto using table_path_app. Qed.

Lemma link_idx : 0 <= i < 512.
Proof. by eapply table_path_snoc_idx. Qed.

Lemma link_new_usize : is_usize (pte_new f PTE_V).
Proof. apply pte_new_usize; unfold is_frame in *; [lia|]. split; done. Qed.

Lemma table_ne_fresh path' q :
  table_path path' -> walk m (root_ppn pt) path' = Some q -> q <> f.
Proof. intros Hp' Hq ->. by eapply Hfresh, pt_wf_owned. Qed.

(** Entries other than the linked one, in tables of the tree. *)
Lemma pte_load_linked_ne path' q j :
  table_path path' -> walk m (root_ppn pt) path' = Some q -> 0 <= j < 512 ->
  (p, i) <> (q, j) -> pte_load linked q j = pte_load m q j.
Proof.
  intros Hp' Hq Hj Hne. unfold linked.
  assert (is_frame p) by eauto using table_is_frame, link_path.
  rewrite pte_load_store_ne by eauto using table_is_frame, link_idx.
  apply pte_load_fill_ne; eauto using table_is_frame.
  apply not_eq_sym. by eapply table_ne_fresh.
Qed.

Lemma pte_load_linked_eq : pte_load linked p i = pte_new f PTE_V.
Proof. apply pte_load_store_eq, link_new_usize. Qed.

Lemma pte_load_linked_fresh j : 0 <= j < 512 -> pte_load linked f j = 0.
Proof.
  intros. unfold linked. rewrite pte_load_store_ne;
    eauto using table_is_frame, link_path, link_idx, pte_load_fill_eq.
  intros [= ? _]. by eapply (table_ne_fresh path p); eauto using link_path.
Qed.

(** Walks that do not pass the linked entry are unchanged. *)
Lemma walk_linked_other path' :
  table_path path' -> ~ (path ++ [i]) `prefix_of` path' ->
  walk linked (root_ppn pt) path' = walk m (root_ppn pt) path'.
Proof.
  intros Hp' Hnp. apply walk_ext. intros path1 j path2 q -> Hq.
  assert (table_path path1) by eauto using table_path_app.
  eapply pte_load_linked_ne; eauto using table_path_snoc_idx.
  intros [= <- <-]. apply Hnp.
  assert (path1 = path) as -> by (eapply pt_wf_inj; eauto using link_path).
  exists path2. by rewrite <-app_assoc.
Qed.

Lemma walk_linked_through rest :
  walk linked (root_ppn pt) ((path ++ [i]) ++ rest) = walk linked f rest.
Proof.
  rewrite !walk_app. rewrite walk_linked_other.
  - rewrite Hw. cbn. rewrite pte_load_linked_eq.
    change (pte_flag_bits PTE_V) with (Z.lor 0 PTE_V). rewrite pte_new_valid, pte_ppn_new; try done;
      unfold is_frame in *; lia.
  - apply link_path.
  - intros Hpre%prefix_length. rewrite length_app in Hpre. cbn in Hpre. lia.
Qed.

Lemma walk_linked_fresh j rest :
  0 <= j < 512 -> walk linked f (j :: rest) = None.
Proof. intros. cbn. by rewrite pte_load_linked_fresh. Qed.

(** Before linking, nothing was reached through the entry. *)
Lemma walk_before_link rest : walk m (root_ppn pt) ((path ++ [i]) ++ rest) = None.
Proof. rewrite !walk_app, Hw. cbn. by rewrite Hinvalid. Qed.

(** Tables after linking: the old ones and, at the linked entry, the new frame. *)
Lemma walk_linked_cases path' q :
  table_path path' -> walk linked (root_ppn pt) path' = Some q ->
  (path' = path ++ [i] /\ q = f) \/ walk m (root_ppn pt) path' = Some q.
Proof.
  intros Hp' Hq. destruct (decide ((path ++ [i]) `prefix_of` path')) as [[rest ->]|Hnp].
  - rewrite walk_linked_through in Hq. destruct rest as [|j rest].
    + injection Hq as <-. left. by rewrite app_nil_r.
    + rewrite walk_linked_fresh in Hq by (by eapply table_path_snoc_idx). done.
  - right. by rewrite walk_linked_other in Hq.
Qed.

Definition pt_linked : PageTable := mk_pt (root_ppn pt) (vec_push (pt_frames pt) f).

Lemma pt_wf_linked : pt_wf linked pt_linked.
Proof.
  split; cbn.
  - apply Forall_vec_push. split; [apply Hwf|done].
  - apply NoDup_vec_push. split; [apply Hwf|done].
  - intros path' q Hp' Hq. apply elem_of_vec_push.
    destruct (walk_linked_cases _ _ Hp' Hq) as [[_ ->]|?]; [by right|].
    left. by eapply pt_wf_owned.
  - intros path1 path2 q Hp1 Hp2 Hq1 Hq2.
    destruct (walk_linked_cases _ _ Hp1 Hq1) as [[-> ->]|Hm1];
      destruct (walk_linked_cases _ _ Hp2 Hq2) as [[-> Heq]|Hm2]; [done| | |by eapply pt_wf_inj].
    + exfalso. by eapply (table_ne_fresh path2).
    + subst q. exfalso. by eapply (table_ne_fresh path1).
Qed.

(** Linking a table changes no mapping. *)
Lemma mapping_linked vpn : mapping linked pt_linked vpn = mapping m pt vpn.
Proof.
  destruct (indexes_three vpn) as (i0 & i1 & i2 & E & Hi0 & Hi1 & Hi2).
  pose proof (table_path_2 _ _ Hi0 Hi1) as Htp.
  unfold mapping. rewrite !(translate_walk _ _ _ _ _ _ E); cbn [root_ppn pt_linked].
  destruct (walk linked (root_ppn pt) [i0; i1]) as [q|] eqn:Hq.
  - destruct (walk_linked_cases _ _ Htp Hq) as [[Heq ->]|Hm].
    + rewrite Heq in *. pose proof (walk_before_link []) as Hb. rewrite app_nil_r in Hb.
      rewrite Hb, pte_load_linked_fresh by done. done.
    + rewrite Hm, (pte_load_linked_ne [i0; i1] q i2); try done.
      intros [= <- _]. assert (path = [i0; i1]) as Hlen
        by (eapply pt_wf_inj; eauto using link_path).
      destruct Hpath as [Hl _]. rewrite length_app, Hlen in Hl. cbn in Hl. lia.
  - destruct (walk m (root_ppn pt) [i0; i1]) as [q|] eqn:Hm; [|done].
    exfalso. destruct (decide ((path ++ [i]) `prefix_of` [i0; i1])) as [[rest Hr]|Hnp].
    + rewrite Hr, walk_before_link in Hm. done.
    + rewrite walk_linked_other in Hq by done. congruence.
Qed.

End Updates.

(** Writing the slot of a page changes the entry of that page, and of the pages
    2^27 apart that share the slot, and nothing else. *)
Section Slot.
Context (m : mem) (pt : PageTable) (Hwf : pt_wf m pt).
Context (vpn i0 i1 i2 q : Z) (E : indexes vpn = [i0; i1; i2]).
Context (Hq : walk m (root_ppn pt) [i0; i1] = Some q) (bits : Z) (Hbits : is_usize bits).

Lemma slot_range : 0 <= i0 < 512 /\ 0 <= i1 < 512 /\ 0 <= i2 < 512.
Proof.
  destruct (indexes_three vpn) as (? & ? & ? & E' & ?). rewrite E in E'. by injection E' as <- <- <-.
Qed.

Lemma slot_path : table_path [i0; i1].
Proof. destruct slot_range as (? & ? & ?). by apply table_path_2. Qed.

Lemma translate_slot_eq vpn' :
  vpn' mod 2 ^ 27 = vpn mod 2 ^ 27 ->
  translate (store64 m (pte_addr q i2) bits) pt vpn' = Some bits.
Proof.
  intros Heq%indexes_eq_iff. rewrite E in Heq. rewrite (translate_walk _ _ _ _ _ _ Heq).
  rewrite (walk_store_leaf m pt Hwf [i0; i1]) by (apply slot_path || apply slot_range || done).
  rewrite Hq. by rewrite pte_load_store_eq.
Qed.

Lemma translate_slot_ne vpn' :
  vpn' mod 2 ^ 27 <> vpn mod 2 ^ 27 ->
  translate (store64 m (pte_addr q i2) bits) pt vpn' = translate m pt vpn'.
Proof.
  intros Hne. destruct (indexes_three vpn') as (j0 & j1 & j2 & E' & Hj0 & Hj1 & Hj2).
  rewrite !(translate_walk _ _ _ _ _ _ E').
  rewrite (walk_store_leaf m pt Hwf [i0; i1]);
    try (apply slot_path || apply slot_range || by apply table_path_2 || done).
  destruct (walk m (root_ppn pt) [j0; j1]) as [q'|] eqn:Hq'; [|done]. f_equal.
  apply pte_load_store_ne; try apply slot_range; try done.
  - by apply (table_is_frame m pt Hwf [i0; i1]), Hq; apply slot_path.
  - by apply (table_is_frame m pt Hwf [j0; j1]); [apply table_path_2|].
  - intros [= <- <-]. apply Hne, indexes_eq_iff. rewrite E, E'.
    assert ([j0; j1] = [i0; i1]) as [= -> ->]; [|done].
    by eapply (pt_wf_inj _ _ Hwf); [apply table_path_2|apply slot_path| |].
Qed.

End Slot.

(** ** The operations *)

Section Operations.
Context {T : Type} `{FrameAllocatorSpec T}.
Implicit Types s : MmState T.

(** An operation of a page table takes at most [k] frames, which it appends to the
    frames it owns, and writes to no other page. *)
Definition tables_grow (k : nat) s (fs : list Z) s' (fs' : list Z) : Prop :=
  exists new, fs' = fs ++ new /\ grows k s fs new s'.

(** A page table and the state it lives in. *)
Record pt_ok s (pt : PageTable) : Prop := {
  pt_ok_inv : mm_inv s;
  pt_ok_wf : pt_wf (phys s) pt;
  pt_ok_use : Forall (in_use s) (pt_frames pt)
}.

Lemma tables_grow_refl k s fs : mm_inv s -> tables_grow k s fs s fs.
Proof. intros. exists []. rewrite app_nil_r. split; [done|by apply grows_refl]. Qed.

Lemma tables_grow_trans j k s1 fs1 s2 fs2 s3 fs3 :
  tables_grow j s1 fs1 s2 fs2 -> tables_grow k s2 fs2 s3 fs3 ->
  tables_grow (j + k) s1 fs1 s3 fs3.
Proof.
  intros (n1 & -> & Hg1) (n2 & -> & Hg2). exists (n1 ++ n2). rewrite app_assoc.
  split; [done|]. eapply grows_trans; [done..|]. intros p. by rewrite elem_of_app.
Qed.

Lemma tables_grow_size k s fs s' fs' :
  tables_grow k s fs s' fs' -> (size (free_frames s) <= size (free_frames s') + k)%nat.
Proof. intros (new & _ & Hg). by eapply grows_size. Qed.

Lemma pte_addr_page p i a :
  is_frame p -> 0 <= i < 512 -> pte_addr p i <= a < pte_addr p i + 8 -> a / PAGE_SIZE = p.
Proof.
  unfold is_frame, pte_addr, PAGE_SIZE. intros ??. rewrite page_base_small by lia.
  intros. symmetry. apply (Z.div_unique _ _ _ (a - p * 4096)); lia.
Qed.

Lemma pt_ok_fresh s pt f : pt_ok s pt -> f ∈ free_frames s -> f ∉ pt_frames pt.
Proof.
  intros [Hinv _ Hu] Hf Hin. rewrite Forall_forall in Hu.
  by apply (in_use_not_free s f Hinv (Hu f Hin)).
Qed.

Lemma pt_ok_grow k s pt s' fs' :
  pt_ok s pt -> tables_grow k s (pt_frames pt) s' fs' -> Forall (in_use s') fs'.
Proof.
  intros [_ _ Hu] (new & -> & Hg). apply Forall_app. split; [|apply Hg].
  eapply Forall_impl; [done|]. apply Hg.
Qed.

(** Writing an entry of an owned table. *)
Lemma tables_grow_write s fs p i v :
  mm_inv s -> p ∈ fs -> is_frame p -> 0 <= i < 512 ->
  tables_grow 0 s fs (set_phys (store64 (phys s) (pte_addr p i) v) s) fs.
Proof.
  intros Hinv Hp Hpf Hi. exists []. rewrite app_nil_r. split; [done|].
  apply grows_write; [done|]. intros a Ha. apply store64_out. intros Hspan. apply Ha.
  by rewrite (pte_addr_page p i).
Qed.

Lemma tables_grow_alloc s fs f s' :
  mm_inv s -> allocated s f s' -> tables_grow 1 s fs s' (vec_push fs f).
Proof.
  intros Hinv Hal. exists [f]. split; [done|]. apply (grows_weaken 1 1 s []); [done| |].
  - intros p []%not_elem_of_nil.
  - by apply grows_alloc.
Qed.

(** One level of [find_pte_create]: afterwards entry [i] of table [p] leads to a
    table, and no mapping has changed. *)
Lemma wp_ensure_table s pt path p i :
  pt_ok s pt -> table_path (path ++ [i]) -> walk (phys s) (root_ppn pt) path = Some p ->
  (1 <= size (free_frames s))%nat ->
  wp (if negb (pte_is_valid (pte_load (phys s) p i)) then
        let* o := frame_alloc in
        let* frame := unwrap o in
        write_pte (pte_addr p i) (pte_new frame PTE_V) ;;
        ret (vec_push (pt_frames pt) frame)
      else ret (pt_frames pt))
    (fun fs' s' => let pt' := mk_pt (root_ppn pt) fs' in
       pt_ok s' pt' /\ tables_grow 1 s (pt_frames pt) s' fs' /\
       walk (phys s') (root_ppn pt) (path ++ [i]) = Some (pte_ppn (pte_load (phys s') p i)) /\
       forall vpn, mapping (phys s') pt' vpn = mapping (phys s) pt vpn) s.
Proof.
  intros Hok Hpath Hw Hsize. pose proof Hok as [Hinv Hwf Huse].
  destruct (pte_is_valid (pte_load (phys s) p i)) eqn:Hv; cbn [negb].
  - apply wp_ret. destruct pt as [root fs]; cbn in *. split_and!; [done| | |done].
    + by apply tables_grow_refl.
    + rewrite walk_app, Hw. cbn. by rewrite Hv.
  - apply wp_bind. eapply wp_mono; [|apply wp_frame_alloc; [done|]].
    2: { intros He. rewrite He, size_empty in Hsize. lia. }
    cbn beta. intros o s1 (f & -> & Hal). pose proof Hal as [Hi1 Hfree Hrest Hf1 Hk1 Hph1].
    assert (Hff : is_frame f) by (by apply (free_is_frame s)).
    assert (Hfresh : f ∉ pt_frames pt) by (by eapply pt_ok_fresh).
    assert (His : 0 <= i < 512) by (by eapply table_path_snoc_idx).
    assert (Hp : p ∈ pt_frames pt) by (eapply (pt_wf_owned _ _ Hwf path); eauto using table_path_app).
    assert (Hpf : is_frame p) by (eapply (table_is_frame _ _ Hwf path); eauto using table_path_app).
    cbn [unwrap]. wp_steps. unfold write_pte. wp_steps. cbn [phys set_phys].
    rewrite Hph1. fold (linked (phys s) p i f).
    assert (Hgrow : tables_grow (1 + 0) s (pt_frames pt)
      (set_phys (linked (phys s) p i f) s1) (vec_push (pt_frames pt) f)).
    { eapply tables_grow_trans; [by apply tables_grow_alloc|].
      unfold linked. rewrite <-Hph1. apply tables_grow_write; try done.
      apply elem_of_vec_push. by left. }
    split_and!.
    + split; [done|by eapply pt_wf_linked|]. eapply pt_ok_grow; [done|]. exact Hgrow.
    + done.
    + rewrite <-(app_nil_r (path ++ [i])), (walk_linked_through _ _ Hwf) by done.
      cbn. erewrite pte_load_linked_eq by done. rewrite pte_ppn_new; [done| |by split].
      unfold is_frame in Hff. lia.
    + intros vpn. by eapply mapping_linked.
Qed.

(** [find_pte_create] returns the slot of the page in a last-level table. *)
Lemma wp_find_pte_create s pt vpn i0 i1 i2 :
  pt_ok s pt -> (2 <= size (free_frames s))%nat -> indexes vpn = [i0; i1; i2] ->
  wp (find_pte_create pt vpn) (fun r s' => exists q,
    let pt' := snd r in
    fst r = Some (pte_addr q i2) /\ walk (phys s') (root_ppn pt') [i0; i1] = Some q /\
    pt_ok s' pt' /\ root_ppn pt' = root_ppn pt /\
    tables_grow 2 s (pt_frames pt) s' (pt_frames pt') /\
    forall v, mapping (phys s') pt' v = mapping (phys s) pt v) s.
Proof.
  intros Hok Hsize E. destruct (indexes_three vpn) as (? & ? & ? & E' & Hi0 & Hi1 & Hi2).
  rewrite E in E'. injection E' as <- <- <-.
  pose proof (table_path_2 _ _ Hi0 Hi1) as Htp.
  unfold find_pte_create. rewrite E. cbn [enumerate length seq combine find_pte_create_loop Nat.eqb].
  wp_steps. eapply wp_mono; [|apply (wp_ensure_table s pt [] (root_ppn pt) i0)];
    [|done|by apply (table_path_app [i0] [i1])|done|lia].
  cbn beta. intros fs1 s1 (Hok1 & Hg1 & Hw1 & Hm1). cbn [app] in Hw1. wp_steps.
  pose proof (tables_grow_size _ _ _ _ _ Hg1).
  eapply wp_mono; [|apply (wp_ensure_table s1 (mk_pt (root_ppn pt) fs1) [i0] _ i1)];
    [|done|done|done|lia].
  cbn beta. intros fs2 s2 (Hok2 & Hg2 & Hw2 & Hm2). wp_steps. cbn [fst snd root_ppn pt_frames].
  eexists. split_and!; [done|exact Hw2|done|done| |].
  - by eapply (tables_grow_trans 1 1).
  - intros v. by rewrite Hm2, Hm1.
Qed.

(** What [map] and [unmap] do to the slot they found. *)
Lemma pt_ok_write_slot k s0 pt0 s pt vpn i0 i1 i2 q bits :
  pt_ok s pt -> tables_grow k s0 (pt_frames pt0) s (pt_frames pt) ->
  indexes vpn = [i0; i1; i2] -> walk (phys s) (root_ppn pt) [i0; i1] = Some q ->
  let s' := set_phys (store64 (phys s) (pte_addr q i2) bits) s in
  pt_ok s' pt /\ tables_grow k s0 (pt_frames pt0) s' (pt_frames pt).
Proof.
  intros [Hinv Hwf Huse] Hg E Hq. cbn zeta.
  pose proof (slot_path _ _ _ _ E) as Hsp. pose proof (slot_range _ _ _ _ E) as (_ & _ & Hi2).
  split; [split|].
  - done.
  - by eapply (pt_wf_store_leaf _ _ Hwf [i0; i1]).
  - done.
  - replace k with (k + 0)%nat by lia. eapply tables_grow_trans; [done|].
    apply tables_grow_write; try done.
    + by eapply pt_wf_owned.
    + by eapply (table_is_frame _ _ Hwf [i0; i1]).
Qed.

Lemma mapping_translate (m : mem) pt vpn bits :
  translate m pt vpn = Some bits ->
  mapping m pt vpn = if pte_is_valid bits then Some bits else None.
Proof. unfold mapping. by intros ->. Qed.

Lemma wp_map s pt vpn ppn flags :
  pt_ok s pt -> (2 <= size (free_frames s))%nat -> 0 <= ppn < 2 ^ 44 -> is_u8 flags ->
  mapping (phys s) pt vpn = None ->
  wp (PageTable_map pt vpn ppn flags) (fun pt' s' =>
    pt_ok s' pt' /\ root_ppn pt' = root_ppn pt /\
    tables_grow 2 s (pt_frames pt) s' (pt_frames pt') /\
    forall v, mapping (phys s') pt' v =
      if decide (v mod 2 ^ 27 = vpn mod 2 ^ 27) then Some (pte_new ppn (Z.lor flags PTE_V))
      else mapping (phys s) pt v) s.
Proof.
  intros Hok Hsize Hppn Hfl Hnone.
  destruct (indexes_three vpn) as (i0 & i1 & i2 & E & _).
  unfold PageTable_map. apply wp_bind. eapply wp_mono; [|by apply wp_find_pte_create].
  cbn beta. intros [o pt1] s1 (q & Ho & Hq & Hok1 & Hroot & Hg & Hm). cbn [fst snd] in *. subst o.
  assert (Hfl' : is_u8 (Z.lor flags PTE_V)) by (by apply lor_u8).
  cbn [unwrap]. wp_steps. apply wp_assert.
  { apply negb_true_iff. destruct (pte_is_valid _) eqn:Hv; [|done].
    specialize (Hm vpn). rewrite Hnone, (mapping_translate _ _ _ (pte_load (phys s1) q i2)) in Hm.
    - unfold pte_load in Hm. by rewrite Hv in Hm.
    - by rewrite (translate_walk _ _ _ _ _ _ E), Hq. }
  unfold write_pte. wp_steps.
  destruct (pt_ok_write_slot 2 s pt s1 pt1 vpn i0 i1 i2 q (pte_new ppn (Z.lor flags PTE_V)))
    as [Hok2 Hg2]; try done.
  split_and!; [done|done|done|]. intros v. cbn [phys set_phys].
  destruct Hok1 as [_ Hwf1 _]. case_decide as Hv.
  - rewrite (mapping_translate _ _ _ (pte_new ppn (Z.lor flags PTE_V))).
    + by rewrite pte_new_valid.
    + eapply translate_slot_eq; try done. by apply pte_new_usize.
  - rewrite <-Hm. unfold mapping. by erewrite translate_slot_ne.
Qed.

(** When the last-level table exists, [find_pte_create] creates nothing. *)
Lemma find_pte_create_existing s pt vpn i0 i1 i2 q :
  indexes vpn = [i0; i1; i2] -> walk (phys s) (root_ppn pt) [i0; i1] = Some q ->
  find_pte_create pt vpn s = Ok ((Some (pte_addr q i2), pt), s).
Proof.
  intros E. cbn [walk]. unfold find_pte_create, bind. rewrite E.
  cbn [enumerate length seq combine find_pte_create_loop Nat.eqb]. unfold bind, gets, ret.
  destruct (pte_is_valid (pte_load (phys s) (root_ppn pt) i0)) eqn:Hv0; [|done]. cbn [negb].
  destruct (pte_is_valid (pte_load (phys s) (pte_ppn _) i1)) eqn:Hv1; [|done]. cbn [negb].
  intros [= <-]. by destruct pt.
Qed.

(** A mapped page has a slot in a last-level table. *)
Lemma mapping_Some_slot (m : mem) pt vpn bits :
  mapping m pt vpn = Some bits -> exists i0 i1 i2 q,
    indexes vpn = [i0; i1; i2] /\ walk m (root_ppn pt) [i0; i1] = Some q /\
    pte_load m q i2 = bits /\ pte_is_valid bits = true.
Proof.
  destruct (indexes_three vpn) as (i0 & i1 & i2 & E & _). unfold mapping.
  rewrite (translate_walk _ _ _ _ _ _ E). destruct (walk m (root_ppn pt) [i0; i1]) as [q|] eqn:Hq; [|done].
  destruct (pte_is_valid (pte_load m q i2)) eqn:Hv; [|done]. intros [= <-]. by exists i0, i1, i2, q.
Qed.

(** [unmap] empties the entry of the page. *)
Lemma wp_unmap_entry s pt vpn :
  pt_ok s pt -> is_Some (mapping (phys s) pt vpn) ->
  wp (PageTable_unmap pt vpn) (fun pt' s' =>
    pt' = pt /\ pt_ok s' pt /\ grows 0 s (pt_frames pt) [] s' /\
    forall v, translate (phys s') pt v =
      if decide (v mod 2 ^ 27 = vpn mod 2 ^ 27) then Some pte_empty else translate (phys s) pt v) s.
Proof.
  intros Hok [bits Hb]. destruct (mapping_Some_slot _ _ _ _ Hb) as (i0 & i1 & i2 & q & E & Hq & Hl & Hv).
  unfold PageTable_unmap. wp_step. eapply wp_of_Ok; [by eapply find_pte_create_existing|].
  cbn [unwrap]. wp_steps. apply wp_assert.
  { unfold pte_load in Hl. by rewrite Hl. }
  unfold write_pte. wp_steps. pose proof Hok as [Hinv Hwf _].
  destruct (pt_ok_write_slot 0 s pt s pt vpn i0 i1 i2 q pte_empty) as [Hok2 (new & Hnew & Hg2)];
    try done; [by apply tables_grow_refl|].
  assert (new = []) as ->. { apply (f_equal length) in Hnew. rewrite length_app in Hnew. by destruct new; cbn in *; [|lia]. }
  split_and!; [done..|]. intros v. cbn [phys set_phys]. case_decide as He.
  - by eapply translate_slot_eq.
  - by erewrite translate_slot_ne.
Qed.

Lemma wp_unmap s pt vpn :
  pt_ok s pt -> is_Some (mapping (phys s) pt vpn) ->
  wp (PageTable_unmap pt vpn) (fun pt' s' =>
    pt' = pt /\ pt_ok s' pt /\ grows 0 s (pt_frames pt) [] s' /\
    forall v, mapping (phys s') pt v =
      if decide (v mod 2 ^ 27 = vpn mod 2 ^ 27) then None else mapping (phys s) pt v) s.
Proof.
  intros Hok Hm. eapply wp_mono; [|by apply wp_unmap_entry]. cbn beta. intros pt' s' (-> & Hok' & Hg & Ht).
  split_and!; [done..|]. intros v. unfold mapping. rewrite Ht. by case_decide.
Qed.

(** [map] of a mapped page and [unmap] of an unmapped page fail their assertions. *)
Lemma map_mapped_panics s pt vpn ppn flags :
  is_Some (mapping (phys s) pt vpn) -> PageTable_map pt vpn ppn flags s = Panic AssertFailed.
Proof.
  intros [bits Hb]. destruct (mapping_Some_slot _ _ _ _ Hb) as (i0 & i1 & i2 & q & E & Hq & Hl & Hv).
  unfold PageTable_map, bind. rewrite (find_pte_create_existing _ _ _ _ _ _ _ E Hq). cbn.
  unfold pte_load in Hl. by rewrite Hl, Hv.
Qed.

Lemma unmap_unmapped_panics s pt vpn :
  pt_ok s pt -> (2 <= size (free_frames s))%nat -> mapping (phys s) pt vpn = None ->
  PageTable_unmap pt vpn s = Panic AssertFailed.
Proof.
  intros Hok Hsize Hb. destruct (indexes_three vpn) as (i0 & i1 & i2 & E & _).
  pose proof (wp_find_pte_create s pt vpn i0 i1 i2 Hok Hsize E) as Hf.
  apply wp_Ok in Hf as ([o pt1] & s1 & Hrun & q & Ho & Hq & _ & _ & _ & Hm).
  cbn [fst snd] in *. subst o. unfold PageTable_unmap, bind. rewrite Hrun. cbn.
  specialize (Hm vpn). rewrite Hb, (mapping_translate _ _ _ (pte_load (phys s1) q i2)) in Hm.
  - unfold pte_load in Hm. by destruct (pte_is_valid _).
  - by rewrite (translate_walk _ _ _ _ _ _ E), Hq.
Qed.

Lemma wp_PageTable_new s :
  mm_inv s -> (1 <= size (free_frames s))%nat ->
  wp PageTable_new (fun pt s' => pt_ok s' pt /\ tables_grow 1 s [] s' (pt_frames pt) /\
    forall v, mapping (phys s') pt v = None) s.
Proof.
  intros Hinv Hsize. unfold PageTable_new. apply wp_bind.
  eapply wp_mono; [|apply wp_frame_alloc; [done|]].
  2: { intros He. rewrite He, size_empty in Hsize. lia. }
  cbn beta. intros o s1 (f & -> & Hal). pose proof Hal as [Hi1 Hfree _ Hf1 _ Hph1].
  assert (Hff : is_frame f) by (by apply (free_is_frame s)).
  cbn [unwrap]. wp_steps.
  assert (Hw : forall path q, table_path path -> walk (phys s1) f path = Some q ->
    path = [] /\ q = f).
  { intros [|i path] q Hp; cbn; [by intros [= <-]|].
    rewrite Hph1, pte_load_fill_eq; [done|]. by eapply (table_path_snoc_idx [] i path). }
  split_and!.
  - split; [done| |by apply Forall_singleton]. split; cbn.
    + by apply Forall_singleton.
    + apply NoDup_singleton.
    + intros path q Hp Hq. destruct (Hw path q) as [_ ->]; [done..|]. by left.
    + intros path1 path2 q ?? Hq1 Hq2.
      destruct (Hw path1 q) as [-> _]; [done..|]. by destruct (Hw path2 q) as [-> _].
  - by apply (tables_grow_alloc s []).
  - intros v. unfold mapping. destruct (indexes_three v) as (i0 & i1 & i2 & E & ? & ? & _).
    rewrite (translate_walk _ _ _ _ _ _ E). cbn [root_ppn].
    destruct (walk (phys s1) f [i0; i1]) as [q|] eqn:Hq; [|done].
    destruct (Hw [i0; i1] q) as [? _]; [by apply table_path_2|done..].
Qed.

(** Replacing the memory outside the tables keeps the page table. *)
Lemma pte_load_agree (m m' : mem) p i :
  is_frame p -> 0 <= i < 512 -> (forall a, a / PAGE_SIZE = p -> m' a = m a) ->
  pte_load m' p i = pte_load m p i.
Proof.
  intros Hp Hi Ha. apply load64_ext. intros x Hx. apply Ha. by apply (pte_addr_page p i).
Qed.

Lemma walk_agree (m m' : mem) pt path :
  pt_wf m pt -> (forall a, a / PAGE_SIZE ∈ pt_frames pt -> m' a = m a) -> table_path path ->
  walk m' (root_ppn pt) path = walk m (root_ppn pt) path.
Proof.
  intros Hwf Ha Hp. apply walk_ext. intros path1 i path2 q -> Hq.
  assert (table_path path1) by eauto using table_path_app.
  apply pte_load_agree.
  - by eapply table_is_frame.
  - by eapply table_path_snoc_idx.
  - intros a <-. apply Ha. by eapply pt_wf_owned.
Qed.

Lemma pt_wf_agree (m m' : mem) pt :
  pt_wf m pt -> (forall a, a / PAGE_SIZE ∈ pt_frames pt -> m' a = m a) -> pt_wf m' pt.
Proof.
  intros Hwf Ha. pose proof Hwf as [Hf Hnd Ho Hinj]. split; [done|done| |].
  - intros path p Hp. rewrite (walk_agree m m' pt path) by done. by apply Ho.
  - intros path1 path2 p Hp1 Hp2.
    rewrite (walk_agree m m' pt path1), (walk_agree m m' pt path2) by done. by apply Hinj.
Qed.

Lemma translate_agree (m m' : mem) pt vpn :
  pt_wf m pt -> (forall a, a / PAGE_SIZE ∈ pt_frames pt -> m' a = m a) ->
  translate m' pt vpn = translate m pt vpn.
Proof.
  intros Hwf Ha. destruct (indexes_three vpn) as (i0 & i1 & i2 & E & Hi0 & Hi1 & Hi2).
  pose proof (table_path_2 _ _ Hi0 Hi1) as Htp.
  rewrite !(translate_walk _ _ _ _ _ _ E), (walk_agree m m') by done.
  destruct (walk m (root_ppn pt) [i0; i1]) as [q|] eqn:Hq; [|done]. f_equal.
  apply pte_load_agree; [by eapply table_is_frame|done|].
  intros a <-. apply Ha. by eapply pt_wf_owned.
Qed.

Lemma mapping_agree (m m' : mem) pt vpn :
  pt_wf m pt -> (forall a, a / PAGE_SIZE ∈ pt_frames pt -> m' a = m a) ->
  mapping m' pt vpn = mapping m pt vpn.
Proof. intros. unfold mapping. by rewrite (translate_agree m). Qed.

End Operations.

(** ** The contract, branch by branch *)

Section Contract.
Context {T : Type} `{FrameAllocatorSpec T}.

(** C17: [PageTable::map] on a well-formed table with two frames to spare.  If the page
    is mapped it fails its assertion.  Otherwise it returns, the page (and the pages
    2^27 apart) now has exactly the given frame and flags with [V] set, every other
    page keeps its mapping, the table stays well-formed, at most two frames were
    taken, and no byte outside the tables changed. *)
Theorem PageTable_map_correct (s : MmState T) pt vpn ppn flags :
  pt_ok s pt -> (2 <= size (free_frames s))%nat -> 0 <= ppn < 2 ^ 44 -> is_u8 flags ->
  (is_Some (mapping (phys s) pt vpn) ->
     PageTable_map pt vpn ppn flags s = Panic AssertFailed) /\
  (mapping (phys s) pt vpn = None ->
   wp (PageTable_map pt vpn ppn flags) (fun pt' s' =>
     pt_ok s' pt' /\ root_ppn pt' = root_ppn pt /\
     tables_grow 2 s (pt_frames pt) s' (pt_frames pt') /\
     forall v, mapping (phys s') pt' v =
       if decide (v mod 2 ^ 27 = vpn mod 2 ^ 27) then Some (pte_new ppn (Z.lor flags PTE_V))
       else mapping (phys s) pt v) s).
Proof. intros. split; [by apply map_mapped_panics|by apply wp_map]. Qed.

(** [PageTable::unmap] fails its assertion on an unmapped page (when its path of
    tables exists or two frames are left to create it); on a mapped one it returns
    without taking a frame, the page (with the pages 2^27 apart) is unmapped, every
    other page keeps its mapping, and nothing outside the tables changed. *)
Theorem PageTable_unmap_correct (s : MmState T) pt vpn :
  pt_ok s pt ->
  ((2 <= size (free_frames s))%nat -> mapping (phys s) pt vpn = None ->
   PageTable_unmap pt vpn s = Panic AssertFailed) /\
  (is_Some (mapping (phys s) pt vpn) ->
   wp (PageTable_unmap pt vpn) (fun pt' s' =>
     pt' = pt /\ pt_ok s' pt /\ grows 0 s (pt_frames pt) [] s' /\
     forall v, mapping (phys s') pt v =
       if decide (v mod 2 ^ 27 = vpn mod 2 ^ 27) then None else mapping (phys s) pt v) s).
Proof. intros. split; intros; [by apply unmap_unmapped_panics|by apply wp_unmap]. Qed.

End Contract.

(** ** A concrete table *)

(** Cleared memory and the frames from 525000 up to 525020. *)
Definition demo_mm : MmState StackFrameAllocator :=
  mk_mm (fun _ => 0) (sfa_init sfa_new 525000 525020).

(** The value and the state of a computation that returns. *)
Definition result_of {S A} (d : A * S) (o : outcome (A * S)) : A * S :=
  match o with
  | Ok r => r
  | Panic _ => d
  end.
Definition demo_new : PageTable * MmState StackFrameAllocator :=
  result_of (mk_pt 0 [], demo_mm) (PageTable_new demo_mm).

(** [demo_new] with page 5 mapped to frame 525200, readable and writable. *)
Definition demo_mapped : PageTable * MmState StackFrameAllocator :=
  result_of (mk_pt 0 [], demo_mm)
    (PageTable_map (fst demo_new) 5 525200 (Z.lor PTE_R PTE_W) (snd demo_new)).

Lemma demo_mm_inv : mm_inv demo_mm.
Proof. by apply sfa_init_ok. Qed.

Lemma wp_result_of {S A} (m : M S A) Q s d :
  wp m Q s -> Q (fst (result_of d (m s))) (snd (result_of d (m s))).
Proof. unfold wp. by destruct (m s) as [[a s']|]. Qed.

Lemma demo_new_ok :
  pt_ok (snd demo_new) (fst demo_new) /\
  forall v, mapping (phys (snd demo_new)) (fst demo_new) v = None.
Proof.
  assert (H : wp PageTable_new (fun pt s' => pt_ok s' pt /\
    tables_grow 1 demo_mm [] s' (pt_frames pt) /\
    forall v, mapping (phys s') pt v = None) demo_mm).
  { apply wp_PageTable_new; [apply demo_mm_inv|]. vm_compute. lia. }
  apply (wp_result_of _ _ _ (mk_pt 0 [], demo_mm)) in H as (? & _ & ?). done.
Qed.

Lemma demo_new_free : (2 <= size (free_frames (snd demo_new)))%nat.
Proof. vm_compute. lia. Qed.

Lemma PageTable_map_correct_witness :
  wp (PageTable_map (fst demo_new) 5 525200 (Z.lor PTE_R PTE_W)) (fun pt' s' =>
    pt_ok s' pt' /\ root_ppn pt' = root_ppn (fst demo_new) /\
    tables_grow 2 (snd demo_new) (pt_frames (fst demo_new)) s' (pt_frames pt') /\
    forall v, mapping (phys s') pt' v =
      if decide (v mod 2 ^ 27 = 5 mod 2 ^ 27)
      then Some (pte_new 525200 (Z.lor (Z.lor PTE_R PTE_W) PTE_V))
      else mapping (phys (snd demo_new)) (fst demo_new) v) (snd demo_new).
Proof.
  refine (proj2 (PageTable_map_correct (snd demo_new) (fst demo_new) 5 525200 (Z.lor PTE_R PTE_W)
    (proj1 demo_new_ok) demo_new_free _ _) (proj2 demo_new_ok 5)); by split.
Defined.

Lemma demo_mapped_ok :
  pt_ok (snd demo_mapped) (fst demo_mapped) /\
  mapping (phys (snd demo_mapped)) (fst demo_mapped) 5
    = Some (pte_new 525200 (Z.lor (Z.lor PTE_R PTE_W) PTE_V)).
Proof.
  pose proof (wp_map (snd demo_new) (fst demo_new) 5 525200 (Z.lor PTE_R PTE_W)
    (proj1 demo_new_ok) demo_new_free ltac:(lia) ltac:(by split) (proj2 demo_new_ok 5)) as H.
  apply (wp_result_of _ _ _ (mk_pt 0 [], demo_mm)) in H as (? & _ & _ & Hm).
  split; [done|]. apply Hm.
Qed.

Lemma PageTable_unmap_correct_witness :
  wp (PageTable_unmap (fst demo_mapped) 5) (fun pt' s' =>
    pt' = fst demo_mapped /\ pt_ok s' (fst demo_mapped) /\
    grows 0 (snd demo_mapped) (pt_frames (fst demo_mapped)) [] s' /\
    forall v, mapping (phys s') (fst demo_mapped) v =
      if decide (v mod 2 ^ 27 = 5 mod 2 ^ 27) then None
      else mapping (phys (snd demo_mapped)) (fst demo_mapped) v) (snd demo_mapped).
Proof.
  refine (proj2 (PageTable_unmap_correct (snd demo_mapped) (fst demo_mapped) 5
    (proj1 demo_mapped_ok)) _).
  rewrite (proj2 demo_mapped_ok). eauto.
Defined.
