(* ===== verification/UserAccess.v ===== *)
(** * Reading and writing user memory (the second half of os5/src/mm/page_table.rs)

    [translated_byte_buffer], [translated_str] and [translated_refmut] are defined in
    [PageTable]; here are the theorems about them. *)

From S2P Require Import Prelude Config Address PhysMem FrameAllocator PageTable PageTableSpec.

(** The physical addresses of a list of slices, in order. *)
Definition slice_addrs (v : list (Z * Z)) : list Z :=
  concat (map (fun '(base, len) => seqZ base len) v).

Lemma slice_addrs_cons base len v : slice_addrs ((base, len) :: v) = seqZ base len ++ slice_addrs v.
Proof. done. Qed.

Lemma PageTable_token_eq pt :
  0 <= root_ppn pt < 2 ^ 44 -> PageTable_token pt = 8 * 2 ^ 60 + root_ppn pt.
Proof.
  intros. unfold PageTable_token.
  change (8 <<% 60) with (8 * 2 ^ 16 * 2 ^ 44). rewrite lor_add_disjoint by lia. lia.
Qed.

(** [from_token] undoes [token], the trackers apart. *)
Lemma from_token_token pt :
  0 <= root_ppn pt < 2 ^ 44 -> PageTable_from_token (PageTable_token pt) = mk_pt (root_ppn pt) [].
Proof.
  intros. unfold PageTable_from_token. f_equal. rewrite PageTable_token_eq by done.
  change (1 <<% 44) with (2 ^ 44). rewrite land_ones_mod by done.
  change (8 * 2 ^ 60) with (8 * 2 ^ 16 * 2 ^ 44). rewrite Z.add_comm, Z.mod_add by done.
  by apply Z.mod_small.
Qed.

(** Translation only uses the root. *)
Lemma translate_va_root m pt fs va :
  translate_va m (mk_pt (root_ppn pt) fs) va = translate_va m pt va.
Proof. done. Qed.

Lemma translate_va_in_page m pt va bits :
  0 <= va -> translate m pt (VirtAddr_floor va) = Some bits ->
  translate_va m pt va = Some (page_base (pte_ppn bits) + va mod PAGE_SIZE).
Proof.
  intros Hva Ht. unfold translate in Ht. unfold translate_va.
  destruct (find_pte m pt (VirtAddr_floor va)) as [pte|]; [|done]. injection Ht as <-.
  rewrite VirtAddr_page_offset_mod. fold (page_base (pte_ppn (load64 m pte))).
  pose proof (pte_ppn_range (load64 m pte)). rewrite page_base_small by lia.
  rewrite wrap64_small; [done|]. unfold PAGE_SIZE.
  pose proof (Z.mod_pos_bound va 4096). lia.
Qed.

Lemma translate_of_va m pt va pa :
  translate_va m pt va = Some pa -> is_Some (translate m pt (VirtAddr_floor va)).
Proof. unfold translate_va, translate. by destruct (find_pte _ _ _). Qed.

(** One round yields the slice of the current page. *)
Lemma byte_buffer_round_ok m pt end_ start :
  0 <= start < end_ -> end_ <= 2 ^ 64 - PAGE_SIZE -> is_Some (translate_va m pt start) ->
  let stop := Z.min ((start / PAGE_SIZE + 1) * PAGE_SIZE) end_ in
  exists base, byte_buffer_round m pt end_ start = Ok ((base, stop - start), stop) /\
    map Some (seqZ base (stop - start)) = map (translate_va m pt) (seqZ start (stop - start)).
Proof.
  intros Hs He [pa Hpa]. unfold PAGE_SIZE in He. cbn zeta. set (stop := Z.min _ _).
  destruct (translate_of_va _ _ _ _ Hpa) as [bits Hb].
  assert (Hstop : start < stop <= (start / 4096 + 1) * 4096).
  { unfold stop, PAGE_SIZE. zdm. }
  exists (page_base (pte_ppn bits) + start mod PAGE_SIZE). split.
  - unfold byte_buffer_round. rewrite Hb.
    assert (VirtAddr_from_VirtPageNum (step (VirtAddr_floor start))
      = (start / PAGE_SIZE + 1) * PAGE_SIZE) as ->.
    { unfold step, VirtAddr_floor, PAGE_SIZE. rewrite wrap64_small by zdm.
      apply VirtAddr_from_VirtPageNum_small. zdm. }
    fold stop. rewrite !VirtAddr_page_offset_mod.
    set (hi := if stop mod PAGE_SIZE =? 0 then PAGE_SIZE else stop mod PAGE_SIZE).
    assert (Hhi : hi - start mod PAGE_SIZE = stop - start).
    { unfold hi, PAGE_SIZE. destruct (Z.eqb_spec (stop mod 4096) 0); zdm. }
    destruct (Z.leb_spec (start mod PAGE_SIZE) hi); [|lia]. by rewrite Hhi.
  - apply list_eq. intros i. rewrite !list_lookup_fmap.
    destruct (decide (Z.of_nat i < stop - start)) as [Hi|Hi].
    + rewrite !lookup_seqZ_lt by lia. cbn. f_equal. symmetry.
      assert (Hfl : VirtAddr_floor (start + Z.of_nat i) = VirtAddr_floor start).
      { unfold VirtAddr_floor, PAGE_SIZE. zdm. }
      rewrite (translate_va_in_page _ _ _ bits); [|lia|by rewrite Hfl].
      f_equal. unfold PAGE_SIZE. clear -Hstop Hi Hs. zdm.
    + by rewrite !lookup_seqZ_ge by lia.
Qed.

Lemma byte_buffer_loop_ok fuel m pt end_ start :
  0 <= start <= end_ -> end_ <= 2 ^ 64 - PAGE_SIZE ->
  (start < end_ -> end_ <= (start / PAGE_SIZE + Z.of_nat fuel) * PAGE_SIZE) ->
  (forall va, start <= va < end_ -> is_Some (translate_va m pt va)) ->
  exists v, byte_buffer_loop fuel m pt end_ start = Ok v /\
    map Some (slice_addrs v) = map (translate_va m pt) (seqZ start (end_ - start)).
Proof.
  revert start. induction fuel as [|fuel IH]; intros start Hs He Hfuel Ht; cbn [byte_buffer_loop];
    destruct (Z.ltb_spec start end_) as [Hlt|Hge].
  - exfalso. specialize (Hfuel Hlt). unfold PAGE_SIZE in *. zdm.
  - exists []. replace (end_ - start) with 0 by lia. done.
  - destruct (byte_buffer_round_ok m pt end_ start) as (base & -> & Hround); [lia|done|by apply Ht; lia|].
    set (stop := Z.min _ _) in *.
    assert (Hstop : start < stop <= end_) by (unfold stop, PAGE_SIZE; zdm).
    destruct (IH stop) as (v & -> & Hv); [lia|done| |intros; apply Ht; lia|].
    { intros Hlt'. specialize (Hfuel Hlt). unfold stop, PAGE_SIZE in *.
      rewrite Z.min_l by lia. rewrite Z.div_mul by done. lia. }
    exists ((base, stop - start) :: v). split; [done|].
    rewrite slice_addrs_cons, map_app, Hround, Hv.
    rewrite <-map_app. f_equal. replace (end_ - start) with ((stop - start) + (end_ - stop)) by lia.
    rewrite seqZ_app by lia. by replace (start + (stop - start)) with stop by lia.
  - exists []. replace (end_ - start) with 0 by lia. done.
Qed.

(** C29: [translated_byte_buffer] on a buffer all of whose pages have entries, and that
    does not reach into the last page of the address space: the loop ends within
    [len / 4096 + 2] rounds, and the physical slices it returns are, byte for byte
    and in order, the translations of the addresses [ptr, ptr + len). *)
Theorem translated_byte_buffer_correct fuel m token ptr len :
  0 <= ptr -> 0 <= len -> ptr + len <= 2 ^ 64 - PAGE_SIZE ->
  len / PAGE_SIZE + 2 <= Z.of_nat fuel ->
  (forall va, ptr <= va < ptr + len ->
     is_Some (translate_va m (PageTable_from_token token) va)) ->
  exists v, translated_byte_buffer fuel m token ptr len = Ok v /\
    map Some (slice_addrs v) = map (translate_va m (PageTable_from_token token)) (seqZ ptr len).
Proof.
  intros Hptr Hlen Hend Hfuel Ht. unfold translated_byte_buffer.
  rewrite wrap64_small by (unfold PAGE_SIZE in *; lia).
  destruct (byte_buffer_loop_ok fuel m (PageTable_from_token token) (ptr + len) ptr)
    as (v & Hv & Ha); [lia|done| |done|].
  - intros _. unfold PAGE_SIZE in *. zdm.
  - exists v. split; [done|]. by rewrite Z.add_simpl_l in Ha.
Qed.

Lemma kernel_maps_range a n : 0 < n -> kernel_maps a n = true <-> BASE_ADDRESS <= a /\ a + n <= MEMORY_END.
Proof.
  intros Hn. unfold kernel_maps. destruct (Z.leb_spec n 0); [lia|]. cbn [orb]. by rewrite andb_true_iff, !Z.leb_le.
Qed.

(** The kernel maps no null pointer. *)
Lemma get_mut_mapped pa n : 0 < n -> kernel_maps pa n = true -> PhysAddr_get_mut pa = Ok pa.
Proof.
  intros Hn [Hpa _]%kernel_maps_range; [|done]. unfold PhysAddr_get_mut, BASE_ADDRESS in *. by destruct (Z.eqb_spec pa 0); [lia|].
Qed.

(** [translated_str] returns the bytes before the first NUL, provided the pages
    up to it have entries and lie in memory the kernel maps; [length + 1] rounds are
    enough. *)
Theorem translated_str_correct fuel m token ptr bs pas :
  0 <= ptr -> ptr + Z.of_nat (length bs) < 2 ^ 64 -> (length bs < fuel)%nat ->
  map (translate_va m (PageTable_from_token token)) (seqZ ptr (Z.of_nat (length bs) + 1))
    = map Some pas ->
  Forall (fun pa => kernel_maps pa 1 = true) pas ->
  map (load8 m) pas = bs ++ [0] -> Forall (fun b => b <> 0) bs ->
  translated_str fuel m token ptr = Ok bs.
Proof.
  unfold translated_str. generalize (PageTable_from_token token). intros pt.
  revert fuel ptr pas. induction bs as [|b bs IH]; intros fuel ptr pas Hptr Hend Hfuel Ht Hm Hl Hnz;
    (destruct fuel as [|fuel]; [cbn in Hfuel; lia|]); cbn [str_loop].
  - rewrite seqZ_cons in Ht by (cbn; lia). destruct pas as [|pa pas]; [done|].
    injection Ht as Hpa _. apply Forall_cons in Hm as [Hpm _]. rewrite Hpa, (get_mut_mapped pa 1), Hpm by done.
    cbn [negb]. injection Hl as Hz _. by rewrite Hz.
  - cbn [length] in *. rewrite seqZ_cons in Ht by lia. destruct pas as [|pa pas]; [done|].
    injection Ht as Hpa Ht. apply Forall_cons in Hm as [Hpm Hm]. rewrite Hpa, (get_mut_mapped pa 1), Hpm by done.
    cbn [negb]. injection Hl as Hb Hl. rewrite Hb.
    apply Forall_cons in Hnz as [Hbz Hnz]. destruct (Z.eqb_spec b 0); [done|].
    rewrite wrap64_small by lia. rewrite (IH fuel (ptr + 1) pas); try done; try lia.
    rewrite <-Ht. f_equal. f_equal; lia.
Qed.

(** ** A concrete user buffer *)

(** The table of [demo_mapped] with page 6 mapped to frame 525300, and the string
    [abc] across the boundary of pages 5 and 6. *)
Definition demo_user : PageTable * MmState StackFrameAllocator :=
  let '(pt, s) := result_of demo_mapped (PageTable_map (fst demo_mapped) 6 525300 PTE_R (snd demo_mapped)) in
  (pt, set_phys (store_bytes (store_bytes (phys s) (525200 * 4096 + 4094) [97; 98]) (525300 * 4096) [99; 0]) s).

Definition demo_token : Z := PageTable_token (fst demo_user).
Definition demo_mem : mem := phys (snd demo_user).

Lemma translated_byte_buffer_correct_witness :
  exists v, translated_byte_buffer 4 demo_mem demo_token (5 * 4096 + 4094) 4 = Ok v /\
    map Some (slice_addrs v)
      = map (translate_va demo_mem (PageTable_from_token demo_token)) (seqZ (5 * 4096 + 4094) 4).
Proof.
  apply (translated_byte_buffer_correct 4 demo_mem demo_token (5 * 4096 + 4094) 4);
    try (unfold PAGE_SIZE; lia).
  - unfold PAGE_SIZE. vm_compute. discriminate.
  - intros va Hva. apply is_some_true. revert va Hva. apply forallb_seqZ.
    vm_compute. reflexivity.
Defined.

Lemma translated_str_correct_witness :
  translated_str 10 demo_mem demo_token (5 * 4096 + 4094) = Ok [97; 98; 99].
Proof.
  apply (translated_str_correct 10 demo_mem demo_token (5 * 4096 + 4094) [97; 98; 99]
    [525200 * 4096 + 4094; 525200 * 4096 + 4095; 525300 * 4096; 525300 * 4096 + 1]).
  - lia.
  - cbn [length]. lia.
  - cbn [length]. lia.
  - vm_compute. reflexivity.
  - by rewrite !Forall_cons.
  - vm_compute. reflexivity.
  - by rewrite !Forall_cons.
Defined.
