(* ===== verification/MemorySet.v ===== *)
(** * Address spaces (os5/src/mm/memory_set.rs)

    A [MapArea] is a contiguous run of virtual pages with one permission; a
    [MemorySet] is a page table and its areas.  The global frame allocator and
    physical memory are the state; [&mut] arguments are passed and returned.
    Dropping an area or a memory set gives back the frames of its trackers.

    What the linker defines (the section boundaries) and what the crate
    [xmas_elf] computes from the bytes of an ELF file are parameters. *)

From S2P Require Import Prelude Config Address PhysMem FrameAllocator PageTable.

Inductive MapType : Type := Identical | Framed.

#[export] Instance MapType_eq_dec : EqDecision MapType.
Proof. solve_decision. Defined.

(** [MapPermission], a [bitflags] struct over [u8]. *)
Inductive MapPermission : Type :=
| MP_R
| MP_W
| MP_X
| MP_U.

Definition map_permission_bits (f : MapPermission) : Z :=
  match f with
  | MP_R => Z.shiftl 1 1
  | MP_W => Z.shiftl 1 2
  | MP_X => Z.shiftl 1 3
  | MP_U => Z.shiftl 1 4
  end.
Coercion map_permission_bits : MapPermission >-> Z.

(** [MapPermission::from_bits]: [None] when a bit has no name. *)
Definition MapPermission_from_bits (bits : Z) : option Z :=
  if Z.land bits (Z.lnot (Z.lor (Z.lor MP_R MP_W) (Z.lor MP_X MP_U))) =? 0
  then Some bits else None.

Record MapArea : Type := mk_area {
  vpn_range : SimpleRange;
  data_frames : list (Z * Z);
  map_type : MapType;
  map_perm : Z
}.

Record MemorySet : Type := mk_ms { page_table : PageTable; areas : list MapArea }.

Definition MapArea_new (start_va end_va : Z) (ty : MapType) (perm : Z) : outcome MapArea :=
  match SimpleRange_new (VirtAddr_floor start_va) (VirtAddr_ceil end_va) with
  | Ok r => Ok (mk_area r [] ty perm)
  | Panic e => Panic e
  end.

Definition MapArea_from_another (another : MapArea) : outcome MapArea :=
  match SimpleRange_new (get_start (vpn_range another)) (get_end (vpn_range another)) with
  | Ok r => Ok (mk_area r [] (map_type another) (map_perm another))
  | Panic e => Panic e
  end.

Definition set_data_frames (d : list (Z * Z)) (a : MapArea) : MapArea :=
  mk_area (vpn_range a) d (map_type a) (map_perm a).

(** The section boundaries of the kernel image. *)
Record linker_symbols : Type := {
  stext : Z; etext : Z;
  srodata : Z; erodata : Z;
  sdata : Z; edata : Z;
  sbss_with_stack : Z; ebss : Z;
  ekernel : Z;
  strampoline : Z
}.

(** Of what the kernel maps, the text and the read-only data, which end where the data
    begins, are not writable. *)
Definition kernel_writes (ld : linker_symbols) (a n : Z) : bool :=
  (n <=? 0) || ((sdata ld <=? a) && (a + n <=? MEMORY_END)).

(** What [xmas_elf] reports of a program header and of a file; [None] is an error
    ([get_type] of an unknown type, [program_header] of a malformed entry). *)
Record ProgramHeader : Type := {
  ph_is_load : option bool;
  ph_virtual_addr : Z;
  ph_mem_size : Z;
  ph_offset : Z;
  ph_file_size : Z;
  ph_is_read : bool;
  ph_is_write : bool;
  ph_is_execute : bool
}.

Record ElfFile : Type := {
  elf_magic : list Z;
  elf_headers : list (option ProgramHeader);
  elf_entry_point : Z;
  elf_input : list Z
}.

Section MemorySet.
Context {T : Type} `{FrameAllocator T}.

(** Dropping the tracker a [BTreeMap] operation displaced, if any. *)
Definition drop_displaced (o : option Z) : M (MmState T) unit :=
  match o with
  | Some f => frame_dealloc f
  | None => ret tt
  end.

Definition map_one (area : MapArea) (pt : PageTable) (vpn : Z)
    : M (MmState T) (MapArea * PageTable) :=
  let* (ppn, area) :=
    match map_type area with
    | Identical => ret (vpn, area)
    | Framed =>
        let* o := frame_alloc in
        let* frame := unwrap o in
        drop_displaced (bt_lookup vpn (data_frames area)) ;;
        ret (frame, set_data_frames (bt_insert vpn frame (data_frames area)) area)
    end in
  let* pt := PageTable_map pt vpn ppn (map_perm area) in
  ret (area, pt).

Definition unmap_one (area : MapArea) (pt : PageTable) (vpn : Z)
    : M (MmState T) (MapArea * PageTable) :=
  let* area :=
    match map_type area with
    | Framed =>
        drop_displaced (bt_lookup vpn (data_frames area)) ;;
        ret (set_data_frames (bt_remove vpn (data_frames area)) area)
    | Identical => ret area
    end in
  let* pt := PageTable_unmap pt vpn in
  ret (area, pt).

Definition MapArea_map (area : MapArea) (pt : PageTable) : M (MmState T) (MapArea * PageTable) :=
  foldM (fun '(a, p) vpn => map_one a p vpn) (range_items (vpn_range area)) (area, pt).

Definition MapArea_unmap (area : MapArea) (pt : PageTable) : M (MmState T) (MapArea * PageTable) :=
  foldM (fun '(a, p) vpn => unmap_one a p vpn) (range_items (vpn_range area)) (area, pt).

(** The loop of [copy_data]: a page of the data at a time; [copy_data] gives it one
    round more than there are full pages. *)
Fixpoint copy_data_loop (fuel : nat) (pt : PageTable) (data : list Z) (start vpn : Z)
    : M (MmState T) unit :=
  match fuel with
  | O => panic OutOfFuel
  | S fuel' =>
      let len := Z.of_nat (length data) in
      let* src := lift (slice data start (Z.min len (start +% PAGE_SIZE))) in
      let* o := gets (fun s => translate (phys s) pt vpn) in
      let* bits := unwrap o in
      fault_unless (kernel_maps (page_base (pte_ppn bits)) (Z.of_nat (length src))) ;;
      modify (fun s => set_phys (store_bytes (phys s) (page_base (pte_ppn bits)) src) s) ;;
      let start := start +% PAGE_SIZE in
      if len <=? start then ret tt
      else copy_data_loop fuel' pt data start (step vpn)
  end.

Definition copy_data (area : MapArea) (pt : PageTable) (data : list Z) : M (MmState T) unit :=
  assert_ (bool_decide (map_type area = Framed)) ;;
  copy_data_loop (Z.to_nat (Z.of_nat (length data) / PAGE_SIZE + 1)) pt data 0
    (get_start (vpn_range area)).

(** Dropping an area: its trackers in key order. *)
Definition drop_area (area : MapArea) : M (MmState T) unit :=
  drop_frames (map snd (data_frames area)).

(** ** Memory sets *)

Definition new_bare : M (MmState T) MemorySet :=
  let* pt := PageTable_new in
  ret (mk_ms pt []).

Definition MemorySet_token (ms : MemorySet) : Z := PageTable_token (page_table ms).

Definition MemorySet_translate (m : mem) (ms : MemorySet) (vpn : Z) : option Z :=
  translate m (page_table ms) vpn.

Definition MemorySet_push (ms : MemorySet) (area : MapArea) (data : option (list Z))
    : M (MmState T) MemorySet :=
  let* (area, pt) := MapArea_map area (page_table ms) in
  match data with
  | Some d => copy_data area pt d
  | None => ret tt
  end ;;
  ret (mk_ms pt (vec_push (areas ms) area)).

Definition insert_framed_area (ms : MemorySet) (start_va end_va perm : Z)
    : M (MmState T) MemorySet :=
  let* area := lift (MapArea_new start_va end_va Framed perm) in
  MemorySet_push ms area None.

(** The first area starting at a page, with its index. *)
Fixpoint find_area (start_vpn : Z) (l : list MapArea) (idx : nat) : option (nat * MapArea) :=
  match l with
  | [] => None
  | a :: l' =>
      if get_start (vpn_range a) =? start_vpn then Some (idx, a)
      else find_area start_vpn l' (S idx)
  end.

Definition remove_area_with_start_vpn (ms : MemorySet) (start_vpn : Z) : M (MmState T) MemorySet :=
  match find_area start_vpn (areas ms) 0 with
  | Some (idx, area) =>
      let* (area, pt) := MapArea_unmap area (page_table ms) in
      drop_area area ;;
      ret (mk_ms pt (delete idx (areas ms)))
  | None => ret ms
  end.

Definition recycle_data_pages (ms : MemorySet) : M (MmState T) MemorySet :=
  for_each (areas ms) drop_area ;;
  ret (mk_ms (page_table ms) []).

(** Dropping a memory set: the trackers of the page table, then the areas. *)
Definition drop_memory_set (ms : MemorySet) : M (MmState T) unit :=
  drop_frames (pt_frames (page_table ms)) ;;
  for_each (areas ms) drop_area.

Definition MemorySet_unmap (ms : MemorySet) (start_vpn end_vpn : Z) : M (MmState T) MemorySet :=
  let* r := lift (SimpleRange_new start_vpn end_vpn) in
  let* pt := foldM PageTable_unmap (range_items r) (page_table ms) in
  ret (mk_ms pt (areas ms)).

Section Linked.
Context (ld : linker_symbols).

Definition map_trampoline (ms : MemorySet) : M (MmState T) MemorySet :=
  let* vpn := lift (VirtPageNum_from_VirtAddr TRAMPOLINE) in
  let* ppn := lift (PhysPageNum_from_PhysAddr (strampoline ld)) in
  let* pt := PageTable_map (page_table ms) vpn ppn (Z.lor PTE_R PTE_X) in
  ret (mk_ms pt (areas ms)).

(** [memory_set.push(MapArea::new(l, r, MapType::Identical, perm), None)] *)
Definition push_identical (ms : MemorySet) (l r perm : Z) : M (MmState T) MemorySet :=
  let* area := lift (MapArea_new l r Identical perm) in
  MemorySet_push ms area None.

Definition new_kernel : M (MmState T) MemorySet :=
  let* ms := new_bare in
  let* ms := map_trampoline ms in
  let* ms := push_identical ms (stext ld) (etext ld) (Z.lor MP_R MP_X) in
  let* ms := push_identical ms (srodata ld) (erodata ld) MP_R in
  let* ms := push_identical ms (sdata ld) (edata ld) (Z.lor MP_R MP_W) in
  let* ms := push_identical ms (sbss_with_stack ld) (ebss ld) (Z.lor MP_R MP_W) in
  push_identical ms (ekernel ld) MEMORY_END (Z.lor MP_R MP_W).

(** [remap_test]: the middle pages of the kernel's text, rodata and data sections
    have the expected permissions. *)
Definition remap_check (m : mem) (ms : MemorySet) (lo hi : Z) (perm : Z -> bool) : M (MmState T) unit :=
  let mid := (lo +% hi) / 2 in
  let* bits := unwrap (MemorySet_translate m ms (VirtAddr_floor mid)) in
  assert_ (negb (perm bits)).
Definition remap_test (kernel_space : MemorySet) : M (MmState T) unit :=
  let* s := get in
  remap_check (phys s) kernel_space (stext ld) (etext ld) pte_writable ;;
  remap_check (phys s) kernel_space (srodata ld) (erodata ld) pte_writable ;;
  remap_check (phys s) kernel_space (sdata ld) (edata ld) pte_executable.

(** The permission of a loadable segment. *)
Definition segment_perm (ph : ProgramHeader) : Z :=
  let p := MP_U in
  let p := if ph_is_read ph then Z.lor p MP_R else p in
  let p := if ph_is_write ph then Z.lor p MP_W else p in
  if ph_is_execute ph then Z.lor p MP_X else p.

(** One program header: the memory set and [max_end_vpn] are updated. *)
Definition load_segment (input : list Z) (st : MemorySet * Z) (header : option ProgramHeader)
    : M (MmState T) (MemorySet * Z) :=
  let '(ms, max_end_vpn) := st in
  let* ph := unwrap header in
  let* is_load := unwrap (ph_is_load ph) in
  if is_load : bool then
    let start_va := ph_virtual_addr ph in
    let end_va := ph_virtual_addr ph +% ph_mem_size ph in
    let* area := lift (MapArea_new start_va end_va Framed (segment_perm ph)) in
    let* data := lift (slice input (ph_offset ph) (ph_offset ph +% ph_file_size ph)) in
    let* ms' := MemorySet_push ms area (Some data) in
    ret (ms', get_end (vpn_range area))
  else ret (ms, max_end_vpn).

(** [from_elf] returns the memory set, the user stack pointer and the entry point. *)
Definition from_elf (parse : list Z -> option ElfFile) (elf_data : list Z)
    : M (MmState T) (MemorySet * Z * Z) :=
  let* ms := new_bare in
  let* ms := map_trampoline ms in
  let* elf := unwrap (parse elf_data) in
  assert_ (bool_decide (elf_magic elf = [127; 69; 76; 70])) ;;
  let* (ms, max_end_vpn) := foldM (load_segment (elf_input elf)) (elf_headers elf) (ms, 0) in
  let user_stack_bottom := VirtAddr_from_VirtPageNum max_end_vpn +% PAGE_SIZE in
  let user_stack_top := user_stack_bottom +% USER_STACK_SIZE in
  let* stack := lift (MapArea_new user_stack_bottom user_stack_top Framed
                        (Z.lor (Z.lor MP_R MP_W) MP_U)) in
  let* ms := MemorySet_push ms stack None in
  let* trap_cx := lift (MapArea_new TRAP_CONTEXT TRAMPOLINE Framed (Z.lor MP_R MP_W)) in
  let* ms := MemorySet_push ms trap_cx None in
  ret (ms, user_stack_top, elf_entry_point elf).

(** One page of [from_existed_user]: copy the page of the parent's address space. *)
Definition copy_page (user_space ms : MemorySet) (vpn : Z) : M (MmState T) unit :=
  let* so := gets (fun s => MemorySet_translate (phys s) user_space vpn) in
  let* src := unwrap so in
  let* d := gets (fun s => MemorySet_translate (phys s) ms vpn) in
  let* dst := unwrap d in
  fault_unless (kernel_maps (page_base (pte_ppn src)) PAGE_SIZE && kernel_maps (page_base (pte_ppn dst)) PAGE_SIZE) ;;
  modify (fun s => set_phys
    (copy (phys s) (page_base (pte_ppn dst)) (page_base (pte_ppn src)) PAGE_SIZE) s).

Definition copy_area (user_space ms : MemorySet) (area : MapArea) : M (MmState T) MemorySet :=
  let* new_area := lift (MapArea_from_another area) in
  let* ms := MemorySet_push ms new_area None in
  for_each (range_items (vpn_range area)) (copy_page user_space ms) ;;
  ret ms.

Definition from_existed_user (user_space : MemorySet) : M (MmState T) MemorySet :=
  let* ms := new_bare in
  let* ms := map_trampoline ms in
  foldM (copy_area user_space) (areas user_space) ms.

End Linked.
End MemorySet.
