(* ===== verification/MemorySetSpec.v ===== *)
(** * What address spaces promise

    [framed_ok] and [ms_ok] are the invariant of a user address space: every page of
    every area is mapped, with the area's permission, to a frame of its own.  The
    operations keep it, write to no page that is not theirs, and leave the other
    mappings alone. *)

From S2P Require Import Prelude Config Address PhysMem FrameAllocator PageTable PageTableSpec.
From S2P Require Import MemorySet.

Definition area_frames (a : MapArea) : list Z := map snd (data_frames a).
Definition ms_frames (ms : MemorySet) : list Z :=
  pt_frames (page_table ms) ++ concat (map area_frames (areas ms)).

(** The entry of a page of an area. *)
Definition area_pte (a : MapArea) (f : Z) : Z := pte_new f (Z.lor (map_perm a) PTE_V).

(** A run of pages that fits the address space and shares no page-table slot. *)
Definition range_ok (r : SimpleRange) : Prop :=
  0 <= range_l r <= range_r r /\ range_r r <= 2 ^ 52 /\ range_r r - range_l r <= 2 ^ 27.

(** A framed area whose pages are all mapped to its frames. *)
Record framed_ok (m : mem) (pt : PageTable) (a : MapArea) : Prop := {
  fo_type : map_type a = Framed;
  fo_perm : is_u8 (map_perm a);
  fo_range : range_ok (vpn_range a);
  fo_keys : map fst (data_frames a) = range_items (vpn_range a);
  fo_map vpn f : (vpn, f) ∈ data_frames a -> mapping m pt vpn = Some (area_pte a f)
}.

Definition aliases (v : Z) (pages : list Z) : Prop := exists p, p ∈ pages /\ v mod 2 ^ 27 = p mod 2 ^ 27.

(** ** Association lists *)

Lemma bt_insert_snoc {V} k (v : V) t :
  Forall (fun k' => k' < k) (map fst t) -> bt_insert k v t = t ++ [(k, v)].
Proof.
  induction t as [|[k' v'] t IH]; intros Hall; [done|]; cbn in *.
  apply Forall_cons in Hall as [Hk Hall].
  destruct (Z.ltb_spec k k'); [lia|]. destruct (Z.eqb_spec k k'); [lia|]. by rewrite IH.
Qed.

Lemma bt_lookup_notin {V} k (t : list (Z * V)) : k ∉ map fst t -> bt_lookup k t = None.
Proof.
  induction t as [|[k' v'] t IH]; intros Hn; [done|]; cbn in *.
  rewrite not_elem_of_cons in Hn. destruct Hn as [? ?].
  destruct (Z.eqb_spec k k'); [done|auto].
Qed.

Lemma bt_lookup_head {V} k (v : V) t : bt_lookup k ((k, v) :: t) = Some v.
Proof. cbn. by rewrite Z.eqb_refl. Qed.

Lemma bt_remove_head {V} k (v : V) t : bt_remove k ((k, v) :: t) = t.
Proof. cbn. by rewrite Z.eqb_refl. Qed.

(** Keys, or values, that occur once. *)
Lemma NoDup_map_inj {A B} (f : A -> B) l x y :
  NoDup (map f l) -> x ∈ l -> y ∈ l -> f x = f y -> x = y.
Proof.
  intros Hnd Hx Hy He. apply list_elem_of_lookup in Hx as [i Hi], Hy as [j Hj].
  assert (i = j) as ->; [|congruence].
  apply (NoDup_lookup (map f l) i j (f x) Hnd).
  - change (map f l) with (f <$> l). by rewrite list_lookup_fmap, Hi.
  - change (map f l) with (f <$> l). by rewrite list_lookup_fmap, Hj, He.
Qed.

(** ** Ranges *)

Lemma range_ok_items r : range_ok r -> range_items r = seqZ (range_l r) (range_r r - range_l r).
Proof. destruct r. intros (? & ? & _). apply range_items_eq; cbn in *; lia. Qed.

Lemma range_ok_elem r p : range_ok r -> p ∈ range_items r <-> range_l r <= p < range_r r.
Proof. intros Hr. rewrite range_ok_items by done. rewrite elem_of_seqZ. lia. Qed.

Lemma range_ok_length r : range_ok r -> Z.of_nat (length (range_items r)) = range_r r - range_l r.
Proof. intros Hr. rewrite range_ok_items by done. destruct Hr. rewrite length_seqZ. lia. Qed.

(** Distinct pages of a range have distinct slots. *)
Lemma range_ok_slot r p q :
  range_ok r -> p ∈ range_items r -> q ∈ range_items r ->
  p mod 2 ^ 27 = q mod 2 ^ 27 -> p = q.
Proof.
  intros Hr Hp Hq. apply range_ok_elem in Hp, Hq; [|done..]. destruct Hr as (? & ? & ?).
  change (2 ^ 27) with 134217728 in *. intros. zdm.
Qed.

Lemma NoDup_range_items r : range_ok r -> NoDup (range_items r).
Proof. intros Hr. rewrite range_ok_items by done. apply NoDup_seqZ. Qed.

(** Earlier items of a range are smaller. *)
Lemma range_items_sorted r l1 x l2 :
  range_ok r -> range_items r = l1 ++ x :: l2 -> Forall (fun y => y < x) l1.
Proof.
  intros Hr. rewrite range_ok_items by done. intros E. apply Forall_lookup_2. intros i y Hi.
  assert (Hx : seqZ (range_l r) (range_r r - range_l r) !! length l1 = Some x).
  { rewrite E. by apply list_lookup_middle. }
  assert (Hy : seqZ (range_l r) (range_r r - range_l r) !! i = Some y).
  { rewrite E. by apply lookup_app_l_Some. }
  apply lookup_seqZ in Hx, Hy. apply lookup_lt_Some in Hi. lia.
Qed.

Section Spec.
Context {T : Type} `{FrameAllocatorSpec T}.
Implicit Types s : MmState T.

Record ms_ok s (ms : MemorySet) : Prop := {
  mo_pt : pt_ok s (page_table ms);
  mo_areas : Forall (framed_ok (phys s) (page_table ms)) (areas ms);
  mo_nodup : NoDup (ms_frames ms);
  mo_use : Forall (in_use s) (ms_frames ms)
}.

(** ** Framing *)

(** Code that writes to no table of a page table leaves the page table alone. *)
Lemma pt_ok_frame k s W new s' pt :
  pt_ok s pt -> grows k s W new s' -> (forall p, p ∈ W -> p ∉ pt_frames pt) ->
  pt_ok s' pt /\ forall v, mapping (phys s') pt v = mapping (phys s) pt v.
Proof.
  intros [Hinv Hwf Huse] Hg HW.
  assert (Hmem : forall a, a / PAGE_SIZE ∈ pt_frames pt -> phys s' a = phys s a).
  { intros a Ha. apply (gr_mem _ _ _ _ _ Hg).
    - intros Hin. by apply (HW _ Hin).
    - eapply grows_fresh; [done..|]. by eapply Forall_forall in Huse. }
  split; [split|].
  - apply Hg.
  - by eapply pt_wf_agree.
  - eapply Forall_impl; [done|]. apply Hg.
  - intros v. by apply mapping_agree.
Qed.

Lemma framed_ok_mapping m pt m' pt' a :
  framed_ok m pt a ->
  (forall vpn, vpn ∈ range_items (vpn_range a) -> mapping m' pt' vpn = mapping m pt vpn) ->
  framed_ok m' pt' a.
Proof.
  intros [? ? ? Hk Hm] Heq. split; try done. intros vpn f Hin. rewrite Heq; [by apply Hm|].
  rewrite <-Hk. apply list_elem_of_fmap. by exists (vpn, f).
Qed.

(** Contents of pages that an operation does not own. *)
Lemma grows_keeps_page k s W new s' p a :
  mm_inv s -> grows k s W new s' -> in_use s p -> p ∉ W -> a / PAGE_SIZE = p ->
  phys s' a = phys s a.
Proof.
  intros Hinv Hg Hu HW <-. apply (gr_mem _ _ _ _ _ Hg); [done|]. by eapply grows_fresh.
Qed.

Lemma grows_perm k s W new new' s' :
  new ≡ₚ new' -> grows k s W new s' -> grows k s W new' s'.
Proof.
  intros Hp [? ? ? ? Hs Hf ? Hm]. split; try done.
  - by rewrite <-Hp.
  - by rewrite <-Hp.
  - intros p. rewrite <-Hp. apply Hs.
  - rewrite Hf. f_equal. apply set_eq. intros p. by rewrite !elem_of_list_to_set, Hp.
  - by rewrite <-Hp.
  - intros a. rewrite <-Hp. apply Hm.
Qed.

(** ** Mapping a page of a framed area *)

Lemma wp_map_one_framed s pt area vpn :
  pt_ok s pt -> map_type area = Framed -> is_u8 (map_perm area) ->
  bt_lookup vpn (data_frames area) = None ->
  mapping (phys s) pt vpn = None -> (3 <= size (free_frames s))%nat ->
  wp (map_one area pt vpn) (fun r s' => exists f tnew,
    fst r = set_data_frames (bt_insert vpn f (data_frames area)) area /\
    pt_ok s' (snd r) /\ root_ppn (snd r) = root_ppn pt /\
    pt_frames (snd r) = pt_frames pt ++ tnew /\
    grows 3 s (pt_frames pt) (f :: tnew) s' /\
    (forall v, mapping (phys s') (snd r) v =
       if decide (v mod 2 ^ 27 = vpn mod 2 ^ 27) then Some (area_pte area f)
       else mapping (phys s) pt v) /\
    (forall a, a / PAGE_SIZE = f -> phys s' a = 0)) s.
Proof.
  intros Hok Hty Hperm Hlk Hnone Hsize. pose proof Hok as [Hinv _ _].
  unfold map_one. rewrite Hty. wp_steps.
  eapply wp_mono; [|apply wp_frame_alloc; [done|]].
  2: { intros He. rewrite He, size_empty in Hsize. lia. }
  cbn beta. intros o s1 (f & -> & Hal). cbn [unwrap]. wp_steps. rewrite Hlk. cbn [drop_displaced].
  wp_steps.
  pose proof (grows_alloc _ _ _ Hinv Hal) as Hg1.
  destruct (pt_ok_frame _ _ _ _ _ pt Hok Hg1) as [Hok1 Hm1]; [by intros p []%not_elem_of_nil|].
  pose proof (grows_size _ _ _ _ _ Hg1) as Hsz. destruct Hok1 as [Hinv1 ? ?].
  assert (Hff : is_frame f) by (apply (in_use_frame s1); [done|apply Hal]).
  eapply wp_mono; [|apply (wp_map s1 pt vpn f (map_perm area))]; try done; try lia;
    [|unfold is_frame in Hff; lia|by rewrite Hm1].
  cbn beta. intros pt2 s2 (Hok2 & Hroot & (tnew & Htn & Hg2) & Hm2). wp_steps. cbn [fst snd].
  exists f, tnew. split_and!; try done.
  - apply (grows_weaken (1 + 2) 3 s (pt_frames pt)); [lia|done|].
    eapply (grows_trans 1 2 s (pt_frames pt) [f] s1); [|done|by left].
    eapply grows_weaken; [done| |done]. by intros p []%not_elem_of_nil.
  - intros v. rewrite Hm2. case_decide; [done|]. by rewrite Hm1.
  - intros a Ha. rewrite (grows_keeps_page 2 s1 (pt_frames pt) tnew s2 f a); try done.
    + by apply (allocated_zero s f s1).
    + apply Hal.
    + intros Hin. eapply pt_ok_fresh; [apply Hok| |done]. apply Hal.
Qed.

(** ** Mapping a whole area *)

(** The pages of the area visited so far are mapped to cleared frames of its own;
    [tables] are the frames the page table took. *)
Record area_mapped s pt (area : MapArea) (pages tables : list Z) (r : MapArea * PageTable) s' : Prop := {
  am_area : fst r = set_data_frames (data_frames (fst r)) area;
  am_keys : map fst (data_frames (fst r)) = pages;
  am_pt : pt_ok s' (snd r);
  am_root : root_ppn (snd r) = root_ppn pt;
  am_frames : pt_frames (snd r) = pt_frames pt ++ tables;
  am_grows : grows (3 * length pages) s (pt_frames pt) (tables ++ area_frames (fst r)) s';
  am_map v f : (v, f) ∈ data_frames (fst r) -> mapping (phys s') (snd r) v = Some (area_pte area f);
  am_other v : ~ aliases v pages -> mapping (phys s') (snd r) v = mapping (phys s) pt v;
  am_zero a : a / PAGE_SIZE ∈ area_frames (fst r) -> phys s' a = 0
}.

Lemma aliases_snoc v pages p :
  ~ aliases v (pages ++ [p]) -> ~ aliases v pages /\ v mod 2 ^ 27 <> p mod 2 ^ 27.
Proof.
  intros Hn. split.
  - intros (q & Hq & He). apply Hn. exists q. split; [|done]. apply elem_of_app. by left.
  - intros He. apply Hn. exists p. split; [|done]. apply elem_of_app. right. by left.
Qed.

Lemma area_mapped_step s pt area pages tables a p s1 vpn f tnew r s2 :
  pt_ok s pt ->
  area_mapped s pt area pages tables (a, p) s1 ->
  Forall (fun y => y < vpn) pages -> ~ aliases vpn pages ->
  fst r = set_data_frames (bt_insert vpn f (data_frames a)) a ->
  pt_ok s2 (snd r) -> root_ppn (snd r) = root_ppn p -> pt_frames (snd r) = pt_frames p ++ tnew ->
  grows 3 s1 (pt_frames p) (f :: tnew) s2 ->
  (forall v, mapping (phys s2) (snd r) v =
     if decide (v mod 2 ^ 27 = vpn mod 2 ^ 27) then Some (area_pte a f) else mapping (phys s1) p v) ->
  (forall x, x / PAGE_SIZE = f -> phys s2 x = 0) ->
  area_mapped s pt area (pages ++ [vpn]) (tables ++ tnew) r s2.
Proof.
  intros Hok [Ha Hk Hok1 Hroot1 Hfr1 Hg1 Hm1 Ho1 Hz1] Hlt Hna Hr Hok2 Hroot2 Hfr2 Hg2 Hm2 Hz2.
  cbn [fst snd] in *. rewrite bt_insert_snoc in Hr by (by rewrite Hk).
  assert (Hpte : area_pte a f = area_pte area f) by (by rewrite Ha).
  split.
  - rewrite Hr. cbn. rewrite Ha. done.
  - rewrite Hr. cbn. by rewrite map_app, Hk.
  - done.
  - congruence.
  - by rewrite Hfr2, Hfr1, app_assoc.
  - rewrite Hr. unfold area_frames. cbn [data_frames set_data_frames]. rewrite map_app. cbn [map snd].
    apply (grows_perm _ _ _ ((tables ++ area_frames a) ++ f :: tnew)).
    { unfold area_frames. solve_Permutation. }
    rewrite length_app. cbn [length].
    replace (3 * (length pages + 1))%nat with (3 * length pages + 3)%nat by lia.
    eapply grows_trans; [done..|]. intros q. rewrite Hfr1. rewrite !elem_of_app. tauto.
  - intros v g. rewrite Hr. cbn. rewrite elem_of_app, list_elem_of_singleton.
    intros [Hin|[= -> ->]]; rewrite Hm2.
    + rewrite decide_False; [by apply Hm1|]. intros He. apply Hna. exists v. split; [|done].
      rewrite <-Hk. apply list_elem_of_fmap. by exists (v, g).
    + by rewrite decide_True, Hpte.
  - intros v [? ?]%aliases_snoc. rewrite Hm2, decide_False by done. by apply Ho1.
  - intros x. rewrite Hr. unfold area_frames. cbn [data_frames set_data_frames].
    rewrite map_app, elem_of_app. cbn [map snd]. rewrite list_elem_of_singleton.
    intros [Hin|He]; [|by apply Hz2].
    rewrite <-(Hz1 x Hin). eapply (grows_keeps_page 3 s1 _ _ s2); try done.
    + apply Hok1.
    + pose proof (gr_use _ _ _ _ _ Hg1) as Hu. rewrite Forall_forall in Hu. apply Hu.
      apply elem_of_app. by right.
    + rewrite Hfr1, elem_of_app. pose proof (gr_nodup _ _ _ _ _ Hg1) as Hnd.
      pose proof (gr_sub _ _ _ _ _ Hg1 (x / PAGE_SIZE)) as Hs.
      apply NoDup_app in Hnd as (_ & Hd & _). intros [HF|HT]; [|by apply (Hd _ HT)].
      eapply pt_ok_fresh; [apply Hok| |done]. apply Hs, elem_of_app. by right.
Qed.

Lemma wp_MapArea_map s pt area :
  pt_ok s pt -> map_type area = Framed -> data_frames area = [] -> is_u8 (map_perm area) ->
  range_ok (vpn_range area) ->
  (forall vpn, vpn ∈ range_items (vpn_range area) -> mapping (phys s) pt vpn = None) ->
  (3 * length (range_items (vpn_range area)) <= size (free_frames s))%nat ->
  wp (MapArea_map area pt) (fun r s' => exists tables,
    area_mapped s pt area (range_items (vpn_range area)) tables r s') s.
Proof.
  intros Hok Hty Hdf Hperm Hr Hnone Hsize. unfold MapArea_map.
  apply (wp_foldM _ (fun pages r s' => exists tables, area_mapped s pt area pages tables r s')).
  - exists []. split; try done; unfold area_frames; cbn [fst snd]; rewrite ?Hdf; try done.
    + by destruct area; cbn in *; subst.
    + by rewrite app_nil_r.
    + apply grows_refl. apply Hok.
    + by intros v f []%not_elem_of_nil.
    + by intros a []%not_elem_of_nil.
  - intros pages vpn rest [a p] s1 Hsplit [tables Ham]. pose proof Ham as [Ha Hk Hok1 _ _ Hg1 _ Ho1 _].
    cbn [fst snd] in *.
    pose proof (range_items_sorted _ _ _ _ Hr Hsplit) as Hlt.
    assert (Hin : vpn ∈ range_items (vpn_range area)).
    { rewrite Hsplit. apply elem_of_app. right. by left. }
    assert (Hna : ~ aliases vpn pages).
    { intros (q & Hq & He). assert (vpn = q) as <-.
      - apply (range_ok_slot (vpn_range area)); try done. rewrite Hsplit. apply elem_of_app. by left.
      - rewrite Forall_forall in Hlt. specialize (Hlt _ Hq). lia. }
    pose proof (grows_size _ _ _ _ _ Hg1) as Hsz1.
    eapply wp_mono; [|apply (wp_map_one_framed s1 p a vpn)].
    + intros r s2 (f & tnew & ? & ? & ? & ? & ? & ? & ?). exists (tables ++ tnew).
      by eapply area_mapped_step.
    + done.
    + by rewrite Ha.
    + by rewrite Ha.
    + apply bt_lookup_notin. rewrite Hk. intros Hq. rewrite Forall_forall in Hlt.
      specialize (Hlt _ Hq). lia.
    + by rewrite Ho1, Hnone.
    + rewrite Hsplit, length_app in Hsize. cbn [length] in Hsize. lia.
Qed.

(** ** Pushing an area *)

Lemma mapping_slot (m : mem) pt v w :
  v mod 2 ^ 27 = w mod 2 ^ 27 -> mapping m pt v = mapping m pt w.
Proof.
  intros He. unfold mapping, translate, find_pte. apply indexes_eq_iff in He. by rewrite He.
Qed.

Lemma framed_ok_page m pt a p :
  framed_ok m pt a -> p ∈ range_items (vpn_range a) ->
  exists f, (p, f) ∈ data_frames a /\ mapping m pt p = Some (area_pte a f).
Proof.
  intros [_ _ _ Hk Hm] Hp. rewrite <-Hk in Hp. apply list_elem_of_fmap in Hp as ([q f] & -> & Hin).
  exists f. split; [done|]. by apply Hm.
Qed.

Lemma area_mapped_framed s pt area tables r s' :
  map_type area = Framed -> is_u8 (map_perm area) -> range_ok (vpn_range area) ->
  area_mapped s pt area (range_items (vpn_range area)) tables r s' ->
  framed_ok (phys s') (snd r) (fst r).
Proof.
  intros Hty Hp Hr [Ha Hk _ _ _ _ Hm _ _]. destruct r as [a p]; cbn [fst snd] in *.
  split; by rewrite Ha.
Qed.

(** Frames a growing state takes stay apart from the frames already owned. *)
Lemma owned_grow k s W new s' l :
  mm_inv s -> NoDup l -> Forall (in_use s) l -> grows k s W new s' ->
  NoDup (l ++ new) /\ Forall (in_use s') (l ++ new).
Proof.
  intros Hinv Hnd Hu Hg. split.
  - apply NoDup_app. split_and!; [done| |apply Hg]. intros p Hp.
    eapply grows_fresh; [done..|]. by eapply Forall_forall in Hu.
  - apply Forall_app. split; [|apply Hg]. eapply Forall_impl; [done|]. apply Hg.
Qed.

Lemma ms_frames_push pt l a pt' tables :
  pt_frames pt' = pt_frames pt ++ tables ->
  ms_frames (mk_ms pt' (vec_push l a)) ≡ₚ ms_frames (mk_ms pt l) ++ (tables ++ area_frames a).
Proof.
  intros Hf. unfold ms_frames, vec_push. cbn [page_table areas]. rewrite Hf, map_app, concat_app.
  cbn. rewrite app_nil_r. solve_Permutation.
Qed.

Lemma ms_ok_push s ms area tables a pt' s' :
  ms_ok s ms -> map_type area = Framed -> is_u8 (map_perm area) -> range_ok (vpn_range area) ->
  (forall vpn, vpn ∈ range_items (vpn_range area) -> mapping (phys s) (page_table ms) vpn = None) ->
  area_mapped s (page_table ms) area (range_items (vpn_range area)) tables (a, pt') s' ->
  ms_ok s' (mk_ms pt' (vec_push (areas ms) a)).
Proof.
  intros [Hpt Hareas Hnd Huse] Hty Hperm Hr Hnone Ham.
  pose proof (area_mapped_framed _ _ _ _ _ _ Hty Hperm Hr Ham) as Hnew.
  destruct Ham as [Ha Hk Hok Hroot Hfr Hg Hm Ho Hz]; cbn [fst snd] in *.
  destruct (owned_grow _ _ _ _ _ _ (pt_ok_inv _ _ Hpt) Hnd Huse Hg) as [Hnd' Huse'].
  pose proof (ms_frames_push _ (areas ms) a _ _ Hfr) as Hperm'. destruct ms as [pt l]; cbn in *.
  split; cbn [page_table areas].
  - done.
  - apply Forall_vec_push. split; [|done]. eapply Forall_impl; [done|]. intros b Hb.
    eapply framed_ok_mapping; [done|]. intros v Hv. apply Ho. intros (q & Hq & He).
    destruct (framed_ok_page _ _ _ _ Hb Hv) as (f & _ & Hsome).
    rewrite (mapping_slot _ _ _ _ He), Hnone in Hsome; done.
  - by rewrite Hperm'.
  - by rewrite Hperm'.
Qed.

Lemma wp_push_framed s ms area :
  ms_ok s ms -> map_type area = Framed -> data_frames area = [] -> is_u8 (map_perm area) ->
  range_ok (vpn_range area) ->
  (forall vpn, vpn ∈ range_items (vpn_range area) -> mapping (phys s) (page_table ms) vpn = None) ->
  (3 * length (range_items (vpn_range area)) <= size (free_frames s))%nat ->
  wp (MemorySet_push ms area None) (fun ms' s' => exists a tables,
    areas ms' = vec_push (areas ms) a /\ ms_ok s' ms' /\
    area_mapped s (page_table ms) area (range_items (vpn_range area)) tables
      (a, page_table ms') s') s.
Proof.
  intros Hms Hty Hdf Hperm Hr Hnone Hsize. unfold MemorySet_push. wp_step.
  eapply wp_mono; [|apply wp_MapArea_map; try done; apply Hms].
  intros [a pt'] s' (tables & Ham). wp_steps. exists a, tables. split_and!; [done| |done].
  by eapply ms_ok_push.
Qed.

(** ** Copying an address space *)

Lemma mapping_Some_translate (m : mem) pt v bits :
  mapping m pt v = Some bits -> translate m pt v = Some bits.
Proof. unfold mapping. destruct (translate m pt v) as [b|]; [|done]. by destruct (pte_is_valid b). Qed.

Lemma area_pte_ppn a f : is_frame f -> is_u8 (map_perm a) -> pte_ppn (area_pte a f) = f.
Proof.
  intros [? ?] ?. unfold area_pte. rewrite pte_ppn_new; [done|lia|]. by apply lor_u8.
Qed.

(** The page of frame [f] in one memory reads as the page of frame [g] in another. *)
Definition same_page (m : mem) (f : Z) (m' : mem) (g : Z) : Prop :=
  forall off, 0 <= off < PAGE_SIZE -> m (page_base f + off) = m' (page_base g + off).

(** An area and its copy: the same pages, the same permission, the same bytes. *)
Record area_copy (m : mem) (a : MapArea) (m' : mem) (a' : MapArea) : Prop := {
  ac_range : vpn_range a' = vpn_range a;
  ac_perm : map_perm a' = map_perm a;
  ac_pages v f f' : (v, f) ∈ data_frames a -> (v, f') ∈ data_frames a' -> same_page m f m' f'
}.

Lemma page_base_div f off : is_frame f -> 0 <= off < PAGE_SIZE -> (page_base f + off) / PAGE_SIZE = f.
Proof. intros Hf Ho. apply page_span; [done|]. lia. Qed.

Lemma same_page_keep m f m' g m'' :
  is_frame g -> same_page m f m' g -> (forall a, a / PAGE_SIZE = g -> m'' a = m' a) ->
  same_page m f m'' g.
Proof. intros Hg Hs Hk off Ho. rewrite Hk; [by apply Hs|]. by apply page_base_div. Qed.

Lemma framed_frame s a v f :
  mm_inv s -> Forall (in_use s) (area_frames a) -> (v, f) ∈ data_frames a -> is_frame f /\ in_use s f.
Proof.
  intros Hinv Hu Hin. rewrite Forall_forall in Hu.
  assert (in_use s f); [|split; [by apply (in_use_frame s)|done]].
  apply Hu. apply list_elem_of_fmap. by exists (v, f).
Qed.

(** The copy loop of [from_existed_user] for one area. *)
Section CopyLoop.
Context (s : MmState T) (user child : MemorySet) (a a' : MapArea).
Hypothesis Hinv : mm_inv s.
Hypothesis Huser : pt_ok s (page_table user).
Hypothesis Hchild : pt_ok s (page_table child).
Hypothesis Ha : framed_ok (phys s) (page_table user) a.
Hypothesis Ha' : framed_ok (phys s) (page_table child) a'.
Hypothesis Hrange : vpn_range a' = vpn_range a.
Hypothesis Huse : Forall (in_use s) (area_frames a).
Hypothesis Huse' : Forall (in_use s) (area_frames a').
Hypothesis Hnd : NoDup (area_frames a').
Hypothesis Hdisj : forall f, f ∈ area_frames a' ->
  (f ∉ pt_frames (page_table user)) /\ (f ∉ pt_frames (page_table child)) /\ (f ∉ area_frames a).

Definition copied (pages : list Z) (s' : MmState T) : Prop :=
  exists m, s' = set_phys m s /\
    (forall x, x / PAGE_SIZE ∉ area_frames a' -> m x = phys s x) /\
    forall v f f', v ∈ pages -> (v, f) ∈ data_frames a -> (v, f') ∈ data_frames a' ->
      same_page (phys s) f m f'.

Lemma wp_copy_page pages vpn m :
  vpn ∈ range_items (vpn_range a) ->
  copied pages (set_phys m s) -> wp (copy_page user child vpn) (fun _ => copied (pages ++ [vpn]))
    (set_phys m s).
Proof.
  intros Hvpn (m0 & [= <-] & Hout & Hdone).
  destruct (framed_ok_page _ _ _ _ Ha Hvpn) as (f & Hf & Hmf).
  rewrite <-Hrange in Hvpn. destruct (framed_ok_page _ _ _ _ Ha' Hvpn) as (f' & Hf' & Hmf').
  destruct (framed_frame _ _ _ _ Hinv Huse Hf) as [Hff _].
  destruct (framed_frame _ _ _ _ Hinv Huse' Hf') as [Hff' _].
  assert (Hin' : f' ∈ area_frames a') by (apply list_elem_of_fmap; by exists (vpn, f')).
  assert (Hinf : f ∉ area_frames a').
  { intros (_ & _ & Hn)%Hdisj. apply Hn, list_elem_of_fmap. by exists (vpn, f). }
  unfold copy_page, MemorySet_translate. wp_steps. cbn [phys set_phys].
  eapply wp_unwrap.
  { rewrite (translate_agree (phys s)); [by apply mapping_Some_translate|apply Huser|].
    intros x Hx. apply Hout. by intros (? & ? & _)%Hdisj. }
  wp_steps. cbn [phys set_phys]. eapply wp_unwrap.
  { rewrite (translate_agree (phys s)); [by apply mapping_Some_translate|apply Hchild|].
    intros x Hx. apply Hout. by intros (? & ? & _)%Hdisj. }
  rewrite !area_pte_ppn by (done || apply Ha || apply Ha'). wp_step.
  apply wp_fault_unless; [by rewrite !frame_maps_page|]. wp_steps.
  eexists. split_and!; [done| |].
  - intros x Hx. cbn [phys set_phys]. rewrite copy_out; [by apply Hout|].
    intros Hs%page_span; [|done]. by subst.
  - cbn [phys set_phys]. intros v g g' Hv Hg Hg'. destruct (decide (v = vpn)) as [->|Hne].
    + assert (g = f /\ g' = f') as [-> ->].
      { split.
        - assert ((vpn, g) = (vpn, f)) as [= ->]; [|done].
          eapply (NoDup_map_inj fst); try done. rewrite (fo_keys _ _ _ Ha).
          apply NoDup_range_items, Ha.
        - assert ((vpn, g') = (vpn, f')) as [= ->]; [|done].
          eapply (NoDup_map_inj fst); try done. rewrite (fo_keys _ _ _ Ha').
          apply NoDup_range_items, Ha'. }
      intros off Hoff. rewrite copy_in by lia.
      replace (page_base f + (page_base f' + off - page_base f')) with (page_base f + off) by lia.
      symmetry. apply Hout. by rewrite page_base_div.
    + apply elem_of_app in Hv as [Hv|Hv%list_elem_of_singleton]; [|done].
      destruct (framed_frame _ _ _ _ Hinv Huse' Hg') as [Hgf _].
      eapply same_page_keep; [done|by eapply Hdone|]. intros x Hx. apply copy_out.
      intros Hs%page_span; [|done]. subst.
      assert ((v, x / PAGE_SIZE) = (vpn, x / PAGE_SIZE)) as [= ->]; [|done].
      by eapply (NoDup_map_inj snd).
Qed.

Lemma wp_copy_pages :
  wp (for_each (range_items (vpn_range a)) (copy_page user child))
    (fun _ => copied (range_items (vpn_range a))) s.
Proof.
  unfold for_each. apply (wp_foldM _ (fun pages _ => copied pages)).
  - exists (phys s). split_and!; [by destruct s|done|]. by intros v f f' []%not_elem_of_nil.
  - intros pages vpn rest _ s' Hsplit Hc. pose proof Hc as (m & -> & _).
    apply wp_copy_page; [|done]. rewrite Hsplit. apply elem_of_app. right. by left.
Qed.

End CopyLoop.

(** The pages of a list of areas. *)
Definition area_pages (l : list MapArea) : list Z := concat (map (fun a => range_items (vpn_range a)) l).

Lemma area_pages_snoc l a : area_pages (l ++ [a]) = area_pages l ++ range_items (vpn_range a).
Proof. unfold area_pages. rewrite map_app, concat_app. cbn. by rewrite app_nil_r. Qed.

Lemma elem_of_concat_map {A B} (f : A -> list B) l y : y ∈ concat (map f l) <-> exists x, x ∈ l /\ y ∈ f x.
Proof.
  induction l as [|x l IH]; cbn.
  - split; [by intros []%not_elem_of_nil|]. by intros (? & []%not_elem_of_nil & _).
  - rewrite elem_of_app, IH. split.
    + intros [?|(z & ? & ?)]; [exists x; split; [by left|done]|exists z; split; [by right|done]].
    + intros (z & [->|?]%elem_of_cons & ?); [by left|right; eauto].
Qed.

Lemma ms_ok_area s ms a :
  ms_ok s ms -> a ∈ areas ms ->
  framed_ok (phys s) (page_table ms) a /\ Forall (in_use s) (area_frames a) /\ NoDup (area_frames a).
Proof.
  intros [_ Hareas Hnd Huse] Hin. rewrite Forall_forall in Hareas. split; [by apply Hareas|].
  apply list_elem_of_split in Hin as (l1 & l2 & El). unfold ms_frames in *. rewrite El in Hnd, Huse.
  rewrite map_app, concat_app in Hnd, Huse. cbn in Hnd, Huse.
  rewrite !Forall_app in Huse. rewrite !NoDup_app in Hnd. tauto.
Qed.

(** Pages of different areas share no slot. *)
Lemma areas_slots s ms l1 a l2 v :
  ms_ok s ms -> areas ms = l1 ++ a :: l2 -> v ∈ range_items (vpn_range a) -> ~ aliases v (area_pages l1).
Proof.
  intros Hms El Hv (q & Hq & He). apply elem_of_concat_map in Hq as (b & Hb & Hq).
  assert (Ha : a ∈ areas ms) by (rewrite El; apply elem_of_app; right; by left).
  assert (Hb' : b ∈ areas ms) by (rewrite El; apply elem_of_app; by left).
  destruct (ms_ok_area _ _ _ Hms Ha) as (Hfa & Hua & _). destruct (ms_ok_area _ _ _ Hms Hb') as (Hfb & Hub & _).
  destruct (framed_ok_page _ _ _ _ Hfa Hv) as (f & Hf & Hmf).
  destruct (framed_ok_page _ _ _ _ Hfb Hq) as (g & Hg & Hmg).
  destruct (mo_pt _ _ Hms) as [Hinv _ _].
  destruct (framed_frame _ _ _ _ Hinv Hua Hf) as [Hff _]. destruct (framed_frame _ _ _ _ Hinv Hub Hg) as [Hgf _].
  rewrite (mapping_slot _ _ _ _ He), Hmg in Hmf. injection Hmf as Hpte.
  apply (f_equal pte_ppn) in Hpte. rewrite !area_pte_ppn in Hpte by (done || apply Hfa || apply Hfb). subst g.
  pose proof (mo_nodup _ _ Hms) as Hnd. unfold ms_frames in Hnd. rewrite El, map_app, concat_app in Hnd.
  cbn in Hnd. apply NoDup_app in Hnd as (_ & _ & Hnd). apply NoDup_app in Hnd as (_ & Hd & _).
  apply (Hd f).
  - apply elem_of_concat_map. exists b. split; [done|]. apply list_elem_of_fmap. by exists (q, f).
  - apply elem_of_app. left. apply list_elem_of_fmap. by exists (v, f).
Qed.

(** Writing to data pages keeps an address space. *)
Lemma ms_ok_write s ms m :
  ms_ok s ms -> (forall x, x / PAGE_SIZE ∈ pt_frames (page_table ms) -> m x = phys s x) ->
  ms_ok (set_phys m s) ms /\ forall v, mapping m (page_table ms) v = mapping (phys s) (page_table ms) v.
Proof.
  intros [[Hinv Hwf Hu] Hareas Hnd Huse] Hm.
  assert (Hmap : forall v, mapping m (page_table ms) v = mapping (phys s) (page_table ms) v).
  { intros v. by apply mapping_agree. }
  split; [split|done].
  - split; [done| |done]. by eapply pt_wf_agree.
  - eapply Forall_impl; [done|]. intros a Ha. eapply framed_ok_mapping; [done|]. intros v _. apply Hmap.
  - done.
  - done.
Qed.

(** Code that writes to none of its tables keeps an address space. *)
Lemma ms_ok_frame k s W new s' ms :
  ms_ok s ms -> grows k s W new s' -> (forall p, p ∈ W -> p ∉ pt_frames (page_table ms)) ->
  ms_ok s' ms /\ forall v, mapping (phys s') (page_table ms) v = mapping (phys s) (page_table ms) v.
Proof.
  intros [Hpt Hareas Hnd Huse] Hg HW. destruct (pt_ok_frame _ _ _ _ _ _ Hpt Hg HW) as [Hpt' Hmap].
  split; [split|]; try done.
  - eapply Forall_impl; [done|]. intros a Ha. by eapply framed_ok_mapping.
  - eapply Forall_impl; [done|]. apply Hg.
Qed.

(** ** Operations of an address space *)

Lemma MapArea_new_ok start_va end_va ty perm :
  0 <= start_va <= end_va -> end_va <= 2 ^ 64 - PAGE_SIZE ->
  MapArea_new start_va end_va ty perm =
    Ok (mk_area (mk_range (start_va / PAGE_SIZE) ((end_va + PAGE_SIZE - 1) / PAGE_SIZE)) [] ty perm).
Proof.
  unfold PAGE_SIZE. intros Hs He. unfold MapArea_new, SimpleRange_new, VirtAddr_floor.
  assert (VirtAddr_ceil end_va = (end_va + 4096 - 1) / 4096) as ->
    by (unfold VirtAddr_ceil, wrap64, PAGE_SIZE; zdm).
  destruct (Z.leb_spec (start_va / PAGE_SIZE) ((end_va + 4096 - 1) / 4096)); [done|].
  unfold PAGE_SIZE in *. zdm.
Qed.

(** The pages that a byte range touches. *)
Definition va_range (start_va end_va : Z) : SimpleRange :=
  mk_range (start_va / PAGE_SIZE) ((end_va + PAGE_SIZE - 1) / PAGE_SIZE).

(** [insert_framed_area] on pages that are not mapped. *)
Lemma wp_insert_framed_area s ms start_va end_va perm :
  ms_ok s ms -> is_u8 perm -> 0 <= start_va <= end_va -> end_va <= 2 ^ 64 - PAGE_SIZE ->
  end_va - start_va <= 2 ^ 38 ->
  (forall vpn, vpn ∈ range_items (va_range start_va end_va) ->
     mapping (phys s) (page_table ms) vpn = None) ->
  (3 * length (range_items (va_range start_va end_va)) <= size (free_frames s))%nat ->
  wp (insert_framed_area ms start_va end_va perm) (fun ms' s' =>
    ms_ok s' ms' /\ MemorySet_token ms' = MemorySet_token ms /\
    (exists a, areas ms' = vec_push (areas ms) a /\ vpn_range a = va_range start_va end_va /\
       map_perm a = perm) /\
    (forall vpn, vpn ∈ range_items (va_range start_va end_va) -> exists f,
       mapping (phys s') (page_table ms') vpn = Some (pte_new f (Z.lor perm PTE_V)) /\
       f ∈ free_frames s /\ forall x, x / PAGE_SIZE = f -> phys s' x = 0) /\
    (forall v, ~ aliases v (range_items (va_range start_va end_va)) ->
       mapping (phys s') (page_table ms') v = mapping (phys s) (page_table ms) v) /\
    (forall x, in_use s (x / PAGE_SIZE) -> x / PAGE_SIZE ∉ pt_frames (page_table ms) ->
       phys s' x = phys s x)) s.
Proof.
  intros Hms Hp Hse He Hlen Hnone Hsize. unfold insert_framed_area. wp_step.
  eapply wp_lift; [by apply MapArea_new_ok|]. fold (va_range start_va end_va).
  assert (Hr : range_ok (va_range start_va end_va)).
  { unfold range_ok, va_range, PAGE_SIZE in *. cbn. zdm. }
  eapply wp_mono; [|by apply wp_push_framed]. cbn beta. cbn [vpn_range].
  intros ms' s' (a & tables & Har & Hok & [Ha Hk Hpt Hroot Hfr Hg Hm Ho Hz]); cbn [fst snd] in *.
  assert (Hva : vpn_range a = va_range start_va end_va) by (by rewrite Ha).
  split_and!; try done.
  - unfold MemorySet_token, PageTable_token. by rewrite Hroot.
  - exists a. split_and!; [done..|]. by rewrite Ha.
  - intros vpn Hv. rewrite <-Hk in Hv. apply list_elem_of_fmap in Hv as ([q f] & -> & Hin). cbn [fst].
    assert (Hf : f ∈ area_frames a) by (apply list_elem_of_fmap; by exists (q, f)).
    exists f. split_and!; [by apply Hm| |].
    + apply (gr_sub _ _ _ _ _ Hg), elem_of_app. by right.
    + intros x <-. by apply Hz.
  - intros x Hu Hn. by apply (grows_keeps_page _ _ _ _ _ _ _ (pt_ok_inv _ _ (mo_pt _ _ Hms)) Hg Hu).
Qed.

(** Dropping areas one by one is dropping all their trackers. *)
Lemma drop_areas_frames l s : for_each l drop_area s = drop_frames (concat (map area_frames l)) s.
Proof.
  revert s. induction l as [|a l IH]; intros s; [done|]. unfold drop_frames, for_each in *. cbn.
  rewrite foldM_app. unfold bind, drop_area, drop_frames, for_each.
  destruct (foldM _ (area_frames a) tt s) as [[[] s']|] eqn:E; unfold area_frames in E; rewrite E; [|done].
  apply IH.
Qed.

Lemma wp_drop_memory_set s ms :
  ms_ok s ms ->
  wp (drop_memory_set ms) (fun _ s' => mm_inv s' /\
    free_frames s' = list_to_set (ms_frames ms) ∪ free_frames s /\
    (forall q, q ∉ ms_frames ms -> in_use s q -> in_use s' q) /\ phys s' = phys s) s.
Proof.
  intros [Hpt _ Hnd Huse]. rewrite Forall_forall in Huse.
  assert (Hrun : drop_memory_set ms s = drop_frames (ms_frames ms) s).
  { unfold ms_frames. unfold drop_frames at 1, for_each at 1. rewrite foldM_app.
    unfold drop_memory_set, bind, drop_frames at 1, for_each at 1.
    destruct (foldM _ (pt_frames (page_table ms)) tt s) as [[[] s']|]; [|done]. apply drop_areas_frames. }
  pose proof (wp_drop_frames (ms_frames ms) s (pt_ok_inv _ _ Hpt) Hnd Huse) as Hw.
  unfold wp in *. by rewrite Hrun.
Qed.

Lemma wp_recycle_data_pages s ms :
  ms_ok s ms ->
  wp (recycle_data_pages ms) (fun ms' s' => ms' = mk_ms (page_table ms) [] /\ ms_ok s' ms' /\
    free_frames s' = list_to_set (concat (map area_frames (areas ms))) ∪ free_frames s /\
    (forall q, q ∉ concat (map area_frames (areas ms)) -> in_use s q -> in_use s' q) /\
    phys s' = phys s) s.
Proof.
  intros [[Hinv Hwf Hu] _ Hnd Huse]. unfold ms_frames in *.
  apply NoDup_app in Hnd as (Hnd1 & Hd & Hnd2). apply Forall_app in Huse as [_ Hu2].
  rewrite Forall_forall in Hu2. unfold recycle_data_pages. wp_step.
  pose proof (wp_drop_frames _ s Hinv Hnd2 Hu2) as Hw.
  unfold wp at 1. unfold wp in Hw. rewrite drop_areas_frames.
  destruct (drop_frames _ s) as [[[] s']|]; [|done]. destruct Hw as (Hinv' & Hfree & Hkeep & Hphys).
  assert (Hu' : Forall (in_use s') (pt_frames (page_table ms))).
  { rewrite Forall_forall in *. intros q Hq. apply Hkeep; [|by apply Hu]. intros Hq'. by apply (Hd q). }
  wp_steps. split_and!; try done. split; try done.
  - split; [done| |done]. cbn. by rewrite Hphys.
  - unfold ms_frames. cbn. by rewrite app_nil_r.
  - unfold ms_frames. cbn. by rewrite app_nil_r.
Qed.

(** An address space that ends ([recycle_data_pages] at exit, the drop of the
    memory set when its task is reaped) gives back every frame it owned, page tables
    included, exactly once: the calls return, the free frames grow by exactly the
    frames of the address space, every other frame in use stays in use and no byte
    of memory changes. *)
Theorem memory_set_gives_back s ms :
  ms_ok s ms ->
  wp (let* ms' := recycle_data_pages ms in drop_memory_set ms') (fun _ s' =>
    mm_inv s' /\ free_frames s' = list_to_set (ms_frames ms) ∪ free_frames s /\
    (forall q, q ∉ ms_frames ms -> in_use s q -> in_use s' q) /\ phys s' = phys s) s.
Proof.
  intros Hms. wp_step. eapply wp_mono; [|by apply wp_recycle_data_pages].
  cbn beta. intros ms' s1 (-> & Hok1 & Hf1 & Hu1 & Hp1).
  eapply wp_mono; [|by apply wp_drop_memory_set].
  cbn beta. intros _ s2 (Hinv2 & Hf2 & Hu2 & Hp2). unfold ms_frames in *. cbn [page_table areas map concat] in *.
  rewrite app_nil_r in *. split_and!; [done| | |congruence].
  - rewrite Hf2, Hf1, list_to_set_app_L. set_solver.
  - intros q. rewrite not_elem_of_app. intros [? ?] ?. auto.
Qed.

End Spec.

(** ** A concrete address space *)

(** An address space on [demo_mm] with the bytes 0x4000 to 0x5800 mapped for the user,
    readable and writable. *)
Definition demo_bare : MemorySet * MmState StackFrameAllocator :=
  result_of (mk_ms (mk_pt 0 []) [], demo_mm) (new_bare demo_mm).
Definition demo_space : MemorySet * MmState StackFrameAllocator :=
  result_of (mk_ms (mk_pt 0 []) [], demo_mm)
    (insert_framed_area (fst demo_bare) 16384 22528 22 (snd demo_bare)).

Lemma demo_bare_ok :
  ms_ok (snd demo_bare) (fst demo_bare) /\
  forall v, mapping (phys (snd demo_bare)) (page_table (fst demo_bare)) v = None.
Proof.
  assert (Hw : wp new_bare (fun ms s' => ms_ok s' ms /\
    forall v, mapping (phys s') (page_table ms) v = None) demo_mm).
  { unfold new_bare. wp_step. eapply wp_mono; [|apply wp_PageTable_new; [apply demo_mm_inv|vm_compute; lia]].
    cbn beta. intros pt s' (Hok & _ & Hm). wp_steps. split; [|done]. pose proof Hok as [_ Hwf Hu].
    split; [done| |..]; unfold ms_frames; cbn; rewrite ?app_nil_r; try done. apply Hwf. }
  by apply (wp_result_of _ _ _ (mk_ms (mk_pt 0 []) [], demo_mm)) in Hw.
Qed.

Lemma demo_space_ok : ms_ok (snd demo_space) (fst demo_space).
Proof.
  assert (Hw : wp (insert_framed_area (fst demo_bare) 16384 22528 22) (fun ms' s' => ms_ok s' ms')
    (snd demo_bare)).
  { eapply wp_mono; [|apply wp_insert_framed_area; [apply demo_bare_ok|by split|lia|unfold PAGE_SIZE; lia|lia|..]].
    - by intros ms' s' [Hok _].
    - intros v _. apply demo_bare_ok.
    - vm_compute. lia. }
  by apply (wp_result_of _ _ _ (mk_ms (mk_pt 0 []) [], demo_mm)) in Hw.
Qed.

Lemma memory_set_gives_back_witness :
  wp (let* ms' := recycle_data_pages (fst demo_space) in drop_memory_set ms') (fun _ s' =>
    mm_inv s' /\
    free_frames s' = list_to_set (ms_frames (fst demo_space)) ∪ free_frames (snd demo_space) /\
    (forall q, q ∉ ms_frames (fst demo_space) -> in_use (snd demo_space) q -> in_use s' q) /\
    phys s' = phys (snd demo_space)) (snd demo_space).
Proof. exact (memory_set_gives_back (snd demo_space) (fst demo_space) demo_space_ok). Defined.
