(* ===== verification/ForkSpec.v ===== *)
(** * Copying an address space

    [MemorySet::from_existed_user], the memory half of [fork]: the child gets the
    parent's pages with the same permissions and the same bytes, in frames of its
    own, and the parent is untouched. *)

From S2P Require Import Prelude Config Address PhysMem FrameAllocator PageTable PageTableSpec.
From S2P Require Import MemorySet MemorySetSpec.

Definition TRAMPOLINE_vpn : Z := VirtAddr_floor TRAMPOLINE.

(** The trampoline starts a page of physical memory. *)
Definition trampoline_ok (ld : linker_symbols) : Prop :=
  0 <= strampoline ld < 2 ^ 56 /\ strampoline ld mod PAGE_SIZE = 0.
Definition trampoline_pte (ld : linker_symbols) : Z :=
  pte_new (strampoline ld / PAGE_SIZE) (Z.lor (Z.lor PTE_R PTE_X) PTE_V).

Section Fork.
Context {T : Type} `{FrameAllocatorSpec T}.
Context (ld : linker_symbols).
Hypothesis Hld : trampoline_ok ld.
Implicit Types s : MmState T.

Lemma wp_new_bare s :
  mm_inv s -> (1 <= size (free_frames s))%nat ->
  wp new_bare (fun ms s' => ms_ok s' ms /\ areas ms = [] /\
    grows 1 s [] (ms_frames ms) s' /\ forall v, mapping (phys s') (page_table ms) v = None) s.
Proof.
  intros Hinv Hsize. unfold new_bare. wp_step. eapply wp_mono; [|by apply wp_PageTable_new].
  cbn beta. intros pt s' (Hok & (new & Hnew & Hg) & Hm). cbn in Hnew. wp_steps.
  assert (Hfr : ms_frames (mk_ms pt []) = new) by (unfold ms_frames; cbn; by rewrite app_nil_r).
  split_and!; [split|..]; try done; rewrite ?Hfr; try done; [apply Hg|apply Hg].
Qed.

Lemma wp_map_trampoline s ms :
  ms_ok s ms -> areas ms = [] -> (2 <= size (free_frames s))%nat ->
  mapping (phys s) (page_table ms) TRAMPOLINE_vpn = None ->
  wp (map_trampoline ld ms) (fun ms' s' => ms_ok s' ms' /\ areas ms' = [] /\
    (exists new, ms_frames ms' = ms_frames ms ++ new /\ grows 2 s (ms_frames ms) new s') /\
    forall v, mapping (phys s') (page_table ms') v =
      if decide (v mod 2 ^ 27 = TRAMPOLINE_vpn mod 2 ^ 27) then Some (trampoline_pte ld)
      else mapping (phys s) (page_table ms) v) s.
Proof.
  intros Hms Hnil Hsize Hnone. destruct Hld as [Hb Hal]. unfold map_trampoline.
  wp_step. apply (wp_lift _ TRAMPOLINE_vpn); [done|].
  wp_step. eapply wp_lift; [by apply PhysPageNum_from_aligned|]. wp_step.
  pose proof (mo_pt _ _ Hms) as Hpt.
  eapply wp_mono; [|apply wp_map; try done]; [|unfold PAGE_SIZE; zdm].
  cbn beta. intros pt' s' (Hok & Hroot & (new & Hnew & Hg) & Hm). wp_steps.
  destruct ms as [pt l]; cbn in *. subst l.
  assert (Hfr : ms_frames (mk_ms pt' []) = ms_frames (mk_ms pt []) ++ new).
  { unfold ms_frames. cbn. by rewrite !app_nil_r. }
  assert (Hfr0 : ms_frames (mk_ms pt []) = pt_frames pt).
  { unfold ms_frames. cbn. by rewrite !app_nil_r. }
  destruct (owned_grow 2 s (pt_frames pt) new s' (ms_frames (mk_ms pt []))) as [Hnd Hu];
    [apply Hpt|apply Hms|apply Hms|done|].
  rewrite <-Hfr in Hnd, Hu. split_and!; [by split|done| |done].
  exists new. by rewrite Hfr0 in *.
Qed.

(** ** The loop over the areas *)

(** A child that has copies of the areas [l] of its parent, made since [s]. *)
Record fork_inv s (l : list MapArea) (child : MemorySet) s' : Prop := {
  fi_ok : ms_ok s' child;
  fi_grows : grows (3 + 3 * length (area_pages l)) s [] (ms_frames child) s';
  fi_copy : Forall2 (fun a a' => area_copy (phys s) a (phys s') a') l (areas child);
  fi_trampoline : mapping (phys s') (page_table child) TRAMPOLINE_vpn = Some (trampoline_pte ld);
  fi_none v : ~ aliases v (TRAMPOLINE_vpn :: area_pages l) ->
    mapping (phys s') (page_table child) v = None
}.

Lemma wp_fork_start s :
  mm_inv s -> (3 <= size (free_frames s))%nat ->
  wp (let* ms := new_bare in map_trampoline ld ms) (fork_inv s []) s.
Proof.
  intros Hinv Hsize. wp_step. eapply wp_mono; [|apply wp_new_bare; [done|lia]].
  cbn beta. intros ms1 s1 (Hms1 & Hnil1 & Hg1 & Hm1). pose proof (grows_size _ _ _ _ _ Hg1).
  eapply wp_mono; [|apply wp_map_trampoline; try done; lia].
  cbn beta. intros ms2 s2 (Hms2 & Hnil2 & (new & Hnew & Hg2) & Hm2). split.
  - done.
  - rewrite Hnew. apply (grows_trans 1 2 s [] _ s1 (ms_frames ms1)); [done..|]. by right.
  - by rewrite Hnil2.
  - rewrite Hm2. by rewrite decide_True.
  - intros v Hv. rewrite Hm2, Hm1, decide_False; [done|]. intros He. apply Hv.
    exists TRAMPOLINE_vpn. split; [by left|done].
Qed.

(** Copies already made are kept by code that writes elsewhere. *)
Lemma copies_keep m l l' m' m'' :
  Forall2 (fun a a' => area_copy m a m' a') l l' ->
  Forall is_frame (concat (map area_frames l')) ->
  (forall x, x / PAGE_SIZE ∈ concat (map area_frames l') -> m'' x = m' x) ->
  Forall2 (fun a a' => area_copy m a m'' a') l l'.
Proof.
  intros HF Hfr Hk.
  apply Forall2_same_length_lookup in HF as [Hlen HF]. apply Forall2_same_length_lookup.
  split; [done|]. intros i a a' Hi Hi'. destruct (HF i a a' Hi Hi') as [Hr Hp Hpg].
  split; [done..|]. intros v f f' Hin Hin'.
  assert (Hc : f' ∈ concat (map area_frames l')).
  { apply elem_of_concat_map. exists a'. split; [by eapply list_elem_of_lookup_2|].
    apply list_elem_of_fmap. by exists (v, f'). }
  rewrite Forall_forall in Hfr.
  eapply same_page_keep; [by apply Hfr|by eapply Hpg|]. intros x <-. by apply Hk.
Qed.

(** After the push of [copy_area]: all but the bytes of the new pages. *)
Record fork_pushed s (l : list MapArea) (a a' : MapArea) (child : MemorySet) s' : Prop := {
  fp_ok : ms_ok s' child;
  fp_grows : grows (3 + 3 * length (area_pages (l ++ [a]))) s [] (ms_frames child) s';
  fp_areas : exists l', areas child = vec_push l' a' /\
    Forall2 (fun a a' => area_copy (phys s) a (phys s') a') l l';
  fp_range : vpn_range a' = vpn_range a;
  fp_perm : map_perm a' = map_perm a;
  fp_trampoline : mapping (phys s') (page_table child) TRAMPOLINE_vpn = Some (trampoline_pte ld);
  fp_none v : ~ aliases v (TRAMPOLINE_vpn :: area_pages (l ++ [a])) ->
    mapping (phys s') (page_table child) v = None
}.

Lemma ms_frames_areas ms f :
  f ∈ concat (map area_frames (areas ms)) -> f ∈ ms_frames ms.
Proof. intros. apply elem_of_app. by right. Qed.

Lemma ms_frames_last ms l a :
  areas ms = vec_push l a ->
  ms_frames ms = pt_frames (page_table ms) ++ concat (map area_frames l) ++ area_frames a.
Proof.
  intros Har. unfold ms_frames. rewrite Har. unfold vec_push. rewrite map_app, concat_app.
  cbn. by rewrite app_nil_r.
Qed.

Lemma fork_push s l a child s1 area a' tables child' s2 :
  fork_inv s l child s1 ->
  vpn_range area = vpn_range a -> map_perm area = map_perm a ->
  ~ aliases TRAMPOLINE_vpn (range_items (vpn_range a)) ->
  areas child' = vec_push (areas child) a' -> ms_ok s2 child' ->
  area_mapped s1 (page_table child) area (range_items (vpn_range area)) tables (a', page_table child') s2 ->
  fork_pushed s l a a' child' s2.
Proof.
  intros [Hok Hg Hcopy Htr Hnone] Hr Hp Hnt Har Hok2 [Ham _ _ _ Hfr Hg2 _ Ho _]; cbn [fst snd] in *.
  pose proof (mo_pt _ _ Hok) as [Hinv1 _ _].
  assert (Hperm : ms_frames child' ≡ₚ ms_frames child ++ (tables ++ area_frames a')).
  { destruct child as [pt ar], child' as [pt' ar']; cbn in *. rewrite Har. by apply ms_frames_push. }
  split.
  - done.
  - apply (grows_perm _ _ _ (ms_frames child ++ (tables ++ area_frames a'))); [by rewrite Hperm|].
    rewrite area_pages_snoc, length_app.
    eapply (grows_weaken (3 + 3 * length (area_pages l) + 3 * length (range_items (vpn_range area))) _ _ []);
      [rewrite Hr; lia|done|].
    eapply grows_trans; [done..|]. intros q Hq. right. apply elem_of_app. by left.
  - exists (areas child). split; [done|]. eapply copies_keep; [done|..].
    + apply Forall_forall. intros f Hf%ms_frames_areas. apply (in_use_frame s1); [done|].
      pose proof (mo_use _ _ Hok) as Hu. rewrite Forall_forall in Hu. by apply Hu.
    + intros x Hx. pose proof (mo_nodup _ _ Hok) as Hnd. pose proof (mo_use _ _ Hok) as Hu.
      rewrite Forall_forall in Hu. apply NoDup_app in Hnd as (_ & Hd & _).
      eapply (grows_keeps_page _ s1); [done|done|by apply Hu, ms_frames_areas| |done].
      intros Hx'. by apply (Hd _ Hx').
  - rewrite Ham. done.
  - rewrite Ham. done.
  - rewrite Ho; [done|]. by rewrite Hr.
  - intros v Hv. rewrite area_pages_snoc in Hv. rewrite Ho.
    + apply Hnone. intros (q & Hq & He). apply Hv. exists q. split; [|done].
      rewrite !elem_of_cons, elem_of_app in *. tauto.
    + intros (q & Hq & He). apply Hv. exists q. split; [|done]. rewrite Hr in Hq.
      rewrite !elem_of_cons, elem_of_app in *. tauto.
Qed.

(** After the copy loop of [copy_area]. *)
Lemma fork_copied s user l a a' child s2 s3 :
  ms_ok s user -> a ∈ areas user -> fork_pushed s l a a' child s2 ->
  copied s2 a a' (range_items (vpn_range a)) s3 -> fork_inv s (l ++ [a]) child s3.
Proof.
  intros Huser Ha [Hok Hg (l' & Har & Hcopy) Hr Hp Htr Hnone] (m & -> & Hout & Hpages).
  pose proof (mo_pt _ _ Hok) as [Hinv2 _ _]. pose proof (mo_nodup _ _ Hok) as Hnd.
  destruct (ms_ok_area _ _ _ Huser Ha) as (Hfa & Hua & _).
  rewrite (ms_frames_last _ _ _ Har) in Hnd. apply NoDup_app in Hnd as (_ & Hd1 & Hnd).
  apply NoDup_app in Hnd as (_ & Hd2 & _).
  assert (Hsub : forall f, f ∈ concat (map area_frames l') \/ f ∈ area_frames a' -> f ∈ ms_frames child).
  { intros f Hf. rewrite (ms_frames_last _ _ _ Har), !elem_of_app. tauto. }
  destruct (ms_ok_write s2 child m Hok) as [Hok3 Hmap3].
  { intros x Hx. apply Hout. intros Hx'. apply (Hd1 _ Hx). apply elem_of_app. by right. }
  split.
  - done.
  - rewrite <-(app_nil_r (ms_frames child)).
    apply (grows_weaken (3 + 3 * length (area_pages (l ++ [a])) + 0) _ _ []); [lia|done|].
    apply (grows_trans _ _ _ _ _ s2 (area_frames a')); [done|by apply grows_write|].
    intros q Hq. right. apply Hsub. by right.
  - cbn [phys set_phys]. rewrite Har. apply Forall2_app.
    + eapply copies_keep; [done|..].
      * apply Forall_forall. intros f Hf. apply (in_use_frame s2); [done|].
        pose proof (mo_use _ _ Hok) as Hu. rewrite Forall_forall in Hu. apply Hu, Hsub. by left.
      * intros x Hx. apply Hout. intros Hx'. by apply (Hd2 _ Hx).
    + apply Forall2_cons. split; [|done]. split; [done..|]. intros v f f' Hf Hf' off Hoff.
      assert (Hv : v ∈ range_items (vpn_range a)).
      { rewrite <-(fo_keys _ _ _ Hfa). apply list_elem_of_fmap. by exists (v, f). }
      rewrite <-(Hpages v f f' Hv Hf Hf') by done. symmetry.
      destruct (mo_pt _ _ Huser) as [Hinv _ _]. destruct (framed_frame _ _ _ _ Hinv Hua Hf) as [Hff Hfu].
      apply (grows_keeps_page _ _ _ _ _ f _ Hinv Hg Hfu); [apply not_elem_of_nil|by apply page_base_div].
  - cbn [phys set_phys]. by rewrite Hmap3.
  - intros v Hv. cbn [phys set_phys]. rewrite Hmap3. by apply Hnone.
Qed.

Lemma aliases_incl v l l' : (forall p, p ∈ l -> p ∈ l') -> aliases v l -> aliases v l'.
Proof. intros Hi (p & Hp & He). exists p. auto. Qed.

Lemma from_another_ok m pt a :
  framed_ok m pt a -> MapArea_from_another a = Ok (mk_area (vpn_range a) [] Framed (map_perm a)).
Proof.
  intros [Hty _ [Hr _] _ _]. unfold MapArea_from_another, SimpleRange_new, get_start, get_end.
  rewrite Hty. destruct (vpn_range a) as [lo hi]; cbn in *.
  destruct (Z.leb_spec lo hi); [done|lia].
Qed.

Lemma wp_copy_area s user l a rest child s1 :
  ms_ok s user -> areas user = l ++ a :: rest ->
  ~ aliases TRAMPOLINE_vpn (area_pages (areas user)) -> fork_inv s l child s1 ->
  (3 * length (range_items (vpn_range a)) <= size (free_frames s1))%nat ->
  wp (copy_area user child a) (fork_inv s (l ++ [a])) s1.
Proof.
  intros Huser Hsplit Hnt Hinv Hsize.
  assert (Ha : a ∈ areas user) by (rewrite Hsplit; apply elem_of_app; right; by left).
  destruct (ms_ok_area _ _ _ Huser Ha) as (Hfa & Hua & _). pose proof Hfa as [Hty Hperm Hr _ _].
  assert (Hnt' : ~ aliases TRAMPOLINE_vpn (range_items (vpn_range a))).
  { intros Hal. apply Hnt. eapply aliases_incl, Hal. intros p Hp. apply elem_of_concat_map. eauto. }
  unfold copy_area. wp_step. eapply wp_lift; [by eapply from_another_ok|]. wp_step.
  set (area := mk_area _ _ _ _).
  eapply wp_mono; [|apply (wp_push_framed s1 child area)]; try done; [|apply Hinv|].
  - cbn beta. intros child' s2 (a' & tables & Har & Hok2 & Ham).
    pose proof (fork_push s l a child s1 area a' tables child' s2 Hinv eq_refl eq_refl Hnt' Har Hok2 Ham) as Hfp.
    destruct (ms_ok_frame _ _ _ _ _ user Huser (fp_grows _ _ _ _ _ _ Hfp)) as [Huser2 _];
      [by intros p []%not_elem_of_nil|].
    assert (Ha' : a' ∈ areas child') by (rewrite Har; apply elem_of_vec_push; by right).
    destruct (ms_ok_area _ _ _ Huser2 Ha) as (Hfa2 & Hua2 & _).
    destruct (ms_ok_area _ _ _ Hok2 Ha') as (Hfa' & Hua' & Hnda').
    wp_step. eapply wp_mono; [|apply (wp_copy_pages s2 user child' a a')]; try done.
    + intros [] s3 Hc. wp_steps. by eapply fork_copied.
    + apply Huser2.
    + apply Huser2.
    + apply Hok2.
    + apply Hfp.
    + intros f Hf. pose proof (mo_nodup _ _ Hok2) as Hnd. rewrite (ms_frames_last _ _ _ Har) in Hnd.
      apply NoDup_app in Hnd as (_ & Hd & _).
      assert (Hnew : f ∉ ms_frames user).
      { intros Hin. pose proof (mo_use _ _ Huser) as Hu. rewrite Forall_forall in Hu.
        eapply (grows_fresh _ s); [apply Huser|apply Hfp|by apply Hu|].
        rewrite (ms_frames_last _ _ _ Har), !elem_of_app. tauto. }
      split_and!.
      * intros Hin. apply Hnew. apply elem_of_app. by left.
      * intros Hin. apply (Hd _ Hin). apply elem_of_app. by right.
      * intros Hin. apply Hnew, ms_frames_areas, elem_of_concat_map. eauto.
  - intros v Hv. apply (fi_none _ _ _ _ Hinv). intros (q & [->|Hq]%elem_of_cons & He).
    + apply Hnt'. by exists v.
    + eapply areas_slots; [done..|]. by exists q.
Qed.

Lemma wp_from_existed_user s user :
  ms_ok s user -> ~ aliases TRAMPOLINE_vpn (area_pages (areas user)) ->
  (3 + 3 * length (area_pages (areas user)) <= size (free_frames s))%nat ->
  wp (from_existed_user ld user) (fork_inv s (areas user)) s.
Proof.
  intros Huser Hnt Hsize.
  pose proof (wp_fork_start s (pt_ok_inv _ _ (mo_pt _ _ Huser)) ltac:(lia)) as Hstart.
  unfold from_existed_user. wp_step. apply wp_bind_inv in Hstart. eapply wp_mono, Hstart.
  intros ms1 s1 Hw1. wp_step. eapply wp_mono, Hw1. intros ms2 s2 Hinv2.
  apply (wp_foldM _ (fun l child s' => fork_inv s l child s')); [done|].
  intros l a rest child s3 Hsplit Hinv3. eapply wp_copy_area; try done.
  pose proof (grows_size _ _ _ _ _ (fi_grows _ _ _ _ Hinv3)) as Hs3.
  rewrite Hsplit in Hsize. replace (l ++ a :: rest) with ((l ++ [a]) ++ rest) in Hsize
    by (by rewrite <-app_assoc).
  unfold area_pages in Hsize at 1. rewrite map_app, concat_app, length_app in Hsize.
  fold (area_pages (l ++ [a])) in Hsize. rewrite area_pages_snoc, length_app in Hsize. lia.
Qed.

(** C11: [from_existed_user] with three frames to spare per page (and three more)
    returns a well-formed address space that owns none of the parent's frames.  Area
    by area it has the parent's pages, permissions and bytes, it maps the trampoline,
    and it maps nothing else.  The parent is well-formed as before, with the same
    mappings, and no byte of a page in use has changed. *)
Theorem from_existed_user_correct s user :
  ms_ok s user -> ~ aliases TRAMPOLINE_vpn (area_pages (areas user)) ->
  (3 + 3 * length (area_pages (areas user)) <= size (free_frames s))%nat ->
  wp (from_existed_user ld user) (fun child s' =>
    ms_ok s' child /\ (forall f, f ∈ ms_frames child -> f ∈ free_frames s) /\
    Forall2 (fun a a' => area_copy (phys s) a (phys s') a') (areas user) (areas child) /\
    mapping (phys s') (page_table child) TRAMPOLINE_vpn = Some (trampoline_pte ld) /\
    (forall v, ~ aliases v (TRAMPOLINE_vpn :: area_pages (areas user)) ->
       mapping (phys s') (page_table child) v = None) /\
    ms_ok s' user /\
    (forall v, mapping (phys s') (page_table user) v = mapping (phys s) (page_table user) v) /\
    (forall x, in_use s (x / PAGE_SIZE) -> phys s' x = phys s x)) s.
Proof.
  intros Huser Hnt Hsize. eapply wp_mono; [|by apply wp_from_existed_user].
  intros child s' [Hok Hg Hcopy Htr Hnone].
  destruct (ms_ok_frame _ _ _ _ _ user Huser Hg) as [Huser' Hmap]; [by intros p []%not_elem_of_nil|].
  split_and!; try done.
  - apply Hg.
  - intros x Hx. eapply (grows_keeps_page _ s); try done; [apply Huser|apply not_elem_of_nil].
Qed.

(** ** After pages are unmapped *)

(** Pages of the parent are unmapped while its areas still list them, as [munmap] leaves
    them.  Their entries are empty then, so the copy loop takes physical page 0 for the
    source, which the kernel does not map. *)
Section Unmapped.
Context (s s' : MmState T) (user : MemorySet) (pages : list Z).
Hypothesis Huser : ms_ok s user.
Hypothesis Hpt : pt_ok s' (page_table user).
Hypothesis Hgrow : grows 0 s (pt_frames (page_table user)) [] s'.
Hypothesis Hgone : forall v, aliases v pages -> translate (phys s') (page_table user) v = Some pte_empty.
Hypothesis Hkept : forall v, ~ aliases v pages -> mapping (phys s') (page_table user) v = mapping (phys s) (page_table user) v.
Hypothesis Hnt : ~ aliases TRAMPOLINE_vpn (area_pages (areas user)).

Lemma aliases_dec v l : {aliases v l} + {~ aliases v l}.
Proof.
  destruct (decide (Exists (fun p => v mod 2 ^ 27 = p mod 2 ^ 27) l)) as [He|He]; [left|right].
  - apply Exists_exists in He. exact He.
  - intros Ha. by apply He, Exists_exists.
Qed.

(** The areas before the first that lost a page. *)
Lemma first_unmapped l p :
  p ∈ area_pages l -> aliases p pages ->
  exists l1 a l2 q, l = l1 ++ a :: l2 /\ (forall v, v ∈ area_pages l1 -> ~ aliases v pages) /\ q ∈ range_items (vpn_range a) /\ aliases q pages.
Proof.
  induction l as [|a l IH]; [by intros []%not_elem_of_nil|]. intros Hp Hal.
  destruct (decide (Exists (fun v => Exists (fun q => v mod 2 ^ 27 = q mod 2 ^ 27) pages) (range_items (vpn_range a)))) as [He|He].
  - apply Exists_exists in He as (q & Hq & Hqa). apply Exists_exists in Hqa. exists [], a, l, q. split_and!; [done| |done|done].
    by intros v []%not_elem_of_nil.
  - assert (Hno : forall v, v ∈ range_items (vpn_range a) -> ~ aliases v pages).
    { intros v Hv Ha. apply He, Exists_exists. exists v. split; [done|]. by apply Exists_exists. }
    change (area_pages (a :: l)) with (range_items (vpn_range a) ++ area_pages l) in Hp. apply elem_of_app in Hp as [Hp|Hp]; [by destruct (Hno p Hp)|].
    destruct (IH Hp Hal) as (l1 & b & l2 & q & -> & Hl1 & Hq & Hqa). exists (a :: l1), b, l2, q. split_and!; [done| |done|done].
    intros v. change (area_pages (a :: l1)) with (range_items (vpn_range a) ++ area_pages l1). intros [Hv|Hv]%elem_of_app; auto.
Qed.

(** They are as before. *)
Lemma kept_prefix l1 l2 :
  areas user = l1 ++ l2 -> (forall v, v ∈ area_pages l1 -> ~ aliases v pages) -> ms_ok s' (mk_ms (page_table user) l1).
Proof.
  intros Hsplit Hno. destruct Huser as [_ Hareas Hnd Huse]. rewrite Hsplit in Hareas. apply Forall_app in Hareas as [Hareas _].
  assert (Hfr : ms_frames user = ms_frames (mk_ms (page_table user) l1) ++ concat (map area_frames l2)).
  { unfold ms_frames. rewrite Hsplit, map_app, concat_app, app_assoc. done. }
  rewrite Hfr in Hnd, Huse. apply NoDup_app in Hnd as (Hnd & _). apply Forall_app in Huse as [Huse _]. split; cbn [page_table areas].
  - done.
  - apply Forall_forall. intros a Ha. rewrite Forall_forall in Hareas. destruct (Hareas a Ha) as [? ? ? Hk Hm]. split; try done.
    intros v f Hv. rewrite Hkept; [by apply Hm|]. apply Hno, elem_of_concat_map. exists a. split; [done|]. rewrite <-Hk.
    apply list_elem_of_fmap. by exists (v, f).
  - done.
  - eapply Forall_impl; [exact Huse|]. apply Hgrow.
Qed.

(** The copy loop over an area that lost a page. *)
Section Faults.
Context (a a' : MapArea) (child : MemorySet) (s2 : MmState T).
Hypothesis Ha : a ∈ areas user.
Hypothesis Hchild : ms_ok s2 child.
Hypothesis Ha' : a' ∈ areas child.
Hypothesis Hrange : vpn_range a' = vpn_range a.
Hypothesis Hsame : forall x, x / PAGE_SIZE ∈ pt_frames (page_table user) -> phys s2 x = phys s' x.
Hypothesis Hdisj : forall f, f ∈ area_frames a' -> f ∉ pt_frames (page_table user).

Definition only_copied (s3 : MmState T) : Prop :=
  exists m, s3 = set_phys m s2 /\ forall x, x / PAGE_SIZE ∉ area_frames a' -> m x = phys s2 x.

Lemma user_translate m v :
  (forall x, x / PAGE_SIZE ∉ area_frames a' -> m x = phys s2 x) -> translate m (page_table user) v = translate (phys s') (page_table user) v.
Proof.
  intros Hm. apply translate_agree; [apply Hpt|]. intros x Hx. rewrite Hm; [by apply Hsame|]. intros Hx'. by apply (Hdisj _ Hx').
Qed.

Lemma child_translate m v :
  (forall x, x / PAGE_SIZE ∉ area_frames a' -> m x = phys s2 x) -> translate m (page_table child) v = translate (phys s2) (page_table child) v.
Proof.
  intros Hm. apply translate_agree; [apply Hchild|]. intros x Hx. apply Hm. intros Hx'. pose proof (mo_nodup _ _ Hchild) as Hnd.
  apply NoDup_app in Hnd as (_ & Hd & _). apply (Hd _ Hx), elem_of_concat_map. by exists a'.
Qed.

Lemma copy_page_cases v s3 :
  v ∈ range_items (vpn_range a) -> only_copied s3 ->
  if aliases_dec v pages then copy_page user child v s3 = Panic PageFault
  else exists s4, copy_page user child v s3 = Ok (tt, s4) /\ only_copied s4.
Proof.
  intros Hv (m & -> & Hm). rewrite <-Hrange in Hv. destruct (ms_ok_area _ _ _ Hchild Ha') as (Hfa' & Hua' & _).
  destruct (framed_ok_page _ _ _ _ Hfa' Hv) as (f' & Hf' & Hmf'). pose proof (pt_ok_inv _ _ (mo_pt _ _ Hchild)) as Hinv2.
  destruct (framed_frame _ _ _ _ Hinv2 Hua' Hf') as [Hff' _]. apply mapping_Some_translate in Hmf'.
  rewrite <-(child_translate m) in Hmf' by done. unfold copy_page, MemorySet_translate, bind, gets, fault_unless. cbn [phys set_phys].
  rewrite user_translate by done. destruct (aliases_dec v pages) as [Hal|Hal].
  - rewrite Hgone by done. cbn [unwrap ret phys set_phys]. rewrite Hmf'. done.
  - rewrite Hrange in Hv. destruct (ms_ok_area _ _ _ Huser Ha) as (Hfa & Hua & _). destruct (framed_ok_page _ _ _ _ Hfa Hv) as (f & Hf & Hmf).
    destruct (framed_frame _ _ _ _ (pt_ok_inv _ _ (mo_pt _ _ Huser)) Hua Hf) as [Hff _].
    rewrite <-Hkept in Hmf by done. apply mapping_Some_translate in Hmf. rewrite Hmf. cbn [unwrap ret phys set_phys]. rewrite Hmf'.
    cbn [unwrap ret]. rewrite !area_pte_ppn by (done || apply Hfa || apply Hfa'). rewrite !frame_maps_page by done. cbn. eexists. split; [done|]. eexists. split; [done|]. intros x Hx. cbn [phys set_phys].
    rewrite copy_out; [by apply Hm|]. intros Hs%page_span; [|done]. subst. apply Hx, list_elem_of_fmap. by exists (v, x / PAGE_SIZE).
Qed.

Lemma copy_pages_fault l q s3 :
  (forall v, v ∈ l -> v ∈ range_items (vpn_range a)) -> q ∈ l -> aliases q pages -> only_copied s3 ->
  for_each l (copy_page user child) s3 = Panic PageFault.
Proof.
  revert s3. induction l as [|v l IH]; intros s3 Hl Hq Hal Hs3; [by apply not_elem_of_nil in Hq|].
  unfold for_each. cbn [foldM]. unfold bind. pose proof (copy_page_cases v s3 (Hl v (list_elem_of_here _ _)) Hs3) as Hcase.
  destruct (aliases_dec v pages) as [_|Hno]; [by rewrite Hcase|]. destruct Hcase as (s4 & -> & Hs4).
  apply IH; [intros w Hw; apply Hl; by right| |done|done]. apply elem_of_cons in Hq as [->|Hq]; done.
Qed.

End Faults.

Lemma copy_area_faults l1 a l2 q child s1 :
  areas user = l1 ++ a :: l2 -> q ∈ range_items (vpn_range a) -> aliases q pages -> fork_inv s' l1 child s1 ->
  (3 * length (range_items (vpn_range a)) <= size (free_frames s1))%nat -> copy_area user child a s1 = Panic PageFault.
Proof.
  intros Hsplit Hq Hal Hinv Hsize. assert (Ha : a ∈ areas user) by (rewrite Hsplit; apply elem_of_app; right; by left).
  destruct (ms_ok_area _ _ _ Huser Ha) as (Hfa & Hua & _). pose proof Hfa as [Hty Hperm Hr _ _].
  assert (Hnt' : ~ aliases TRAMPOLINE_vpn (range_items (vpn_range a))).
  { intros Hx. apply Hnt. eapply aliases_incl, Hx. intros p Hp. apply elem_of_concat_map. eauto. }
  unfold copy_area. apply wp_then_panic. eapply wp_lift; [by eapply from_another_ok|]. set (area := mk_area _ _ _ _). apply wp_then_panic.
  eapply wp_mono; [|apply (wp_push_framed s1 child area)]; try done; [|apply Hinv|].
  - cbn beta. intros child' s2 (a' & tables & Har & Hok2 & Ham).
    pose proof (fork_push s' l1 a child s1 area a' tables child' s2 Hinv eq_refl eq_refl Hnt' Har Hok2 Ham) as Hfp.
    assert (Ha' : a' ∈ areas child') by (rewrite Har; apply elem_of_vec_push; by right).
    assert (Hfault : for_each (range_items (vpn_range a)) (copy_page user child') s2 = Panic PageFault); [|unfold bind; by rewrite Hfault].
    eapply (copy_pages_fault a a' child' s2); try done; [apply Hfp| | |by exists (phys s2); destruct s2].
    + intros x Hx. pose proof Hpt as [Hinv' _ Hu]. rewrite Forall_forall in Hu.
      apply (grows_keeps_page _ _ _ _ _ _ _ Hinv' (fp_grows _ _ _ _ _ _ Hfp) (Hu _ Hx)); [apply not_elem_of_nil|done].
    + intros f Hf Hx. pose proof Hpt as [Hinv' _ Hu]. rewrite Forall_forall in Hu.
      eapply (grows_fresh _ s'); [done|apply Hfp|by apply Hu|]. rewrite (ms_frames_last _ _ _ Har), !elem_of_app. tauto.
  - intros v Hv. apply (fi_none _ _ _ _ Hinv). intros (p & [->|Hp]%elem_of_cons & He).
    + apply Hnt'. by exists v.
    + eapply areas_slots; [exact Huser|exact Hsplit|exact Hv|]. by exists p.
Qed.

Lemma from_existed_user_faults p :
  p ∈ area_pages (areas user) -> aliases p pages -> (3 + 3 * length (area_pages (areas user)) <= size (free_frames s'))%nat ->
  from_existed_user ld user s' = Panic PageFault.
Proof.
  intros Hp Hal Hsize. destruct (first_unmapped _ _ Hp Hal) as (l1 & a & l2 & q & Hsplit & Hno & Hq & Hqa).
  assert (Hlen : length (area_pages (areas user)) = (length (area_pages l1) + length (range_items (vpn_range a)) + length (area_pages l2))%nat).
  { rewrite Hsplit. unfold area_pages. rewrite map_app, concat_app, length_app. cbn. rewrite length_app. lia. }
  pose proof (kept_prefix l1 (a :: l2) Hsplit Hno) as Hms1.
  assert (Hw : wp (from_existed_user ld (mk_ms (page_table user) l1)) (fork_inv s' l1) s').
  { apply (wp_from_existed_user s' (mk_ms (page_table user) l1)); [done| |cbn [areas]; lia]. intros Hx. apply Hnt.
    eapply aliases_incl, Hx. intros v Hv. rewrite Hsplit. unfold area_pages. rewrite map_app, concat_app. apply elem_of_app. by left. }
  unfold from_existed_user in *. cbn [areas] in Hw. apply wp_bind_inv in Hw. apply wp_then_panic. eapply wp_mono, Hw. intros ms1 s1 Hw1.
  apply wp_bind_inv in Hw1. apply wp_then_panic. eapply wp_mono, Hw1. intros ms2 s3 Hw2. rewrite Hsplit, foldM_app. apply wp_then_panic.
  eapply wp_mono, Hw2. intros child s4 Hinv. cbn [foldM]. unfold bind. pose proof (grows_size _ _ _ _ _ (fi_grows _ _ _ _ Hinv)) as Hsz.
  rewrite (copy_area_faults l1 a l2 q child s4 Hsplit Hq Hqa Hinv); [done|lia].
Qed.

End Unmapped.

End Fork.

(** ** A concrete copy *)

(** A trampoline in the kernel's text section. *)
Definition demo_linker : linker_symbols := {|
  stext := 2149580800; etext := 2149601280;
  srodata := 2149601280; erodata := 2149617664;
  sdata := 2149617664; edata := 2149621760;
  sbss_with_stack := 2149621760; ebss := 2153816064;
  ekernel := 2153816064;
  strampoline := 2149584896
|}.

Lemma from_existed_user_correct_witness :
  wp (from_existed_user demo_linker (fst demo_space)) (fun child s' =>
    ms_ok s' child /\
    Forall2 (fun a a' => area_copy (phys (snd demo_space)) a (phys s') a')
      (areas (fst demo_space)) (areas child)) (snd demo_space).
Proof.
  refine (wp_mono _ _ _ _ _ (from_existed_user_correct demo_linker _ (snd demo_space) (fst demo_space)
    demo_space_ok _ _)).
  - intros child s' (Hok & _ & Hc & _). exact (conj Hok Hc).
  - split; [cbn; lia|reflexivity].
  - assert (area_pages (areas (fst demo_space)) = [4; 5]) as -> by (vm_compute; reflexivity).
    intros (p & Hp & He). rewrite !elem_of_cons in Hp. destruct Hp as [->|[->|[]%not_elem_of_nil]];
      vm_compute in He; discriminate.
  - vm_compute. lia.
Defined.
