(* ===== verification/SpaceSpec.v ===== *)
(** * Several address spaces in one memory

    The kernel's address space and those of the processes share physical memory and the
    frame allocator.  [changes] is what a piece of memory-management code may do to them,
    [spaces_ok] says that a list of address spaces is well formed and owns disjoint frames,
    and [spaces_ok_step] is the frame rule: code that works in some of the spaces leaves
    the others as they were.  Unmapping an area gives back its frames. *)

From S2P Require Import Prelude Config Address PhysMem FrameAllocator PageTable PageTableSpec.
From S2P Require Import MemorySet MemorySetSpec ForkSpec.

Section Spaces.
Context {T : Type} `{FrameAllocatorSpec T}.
Implicit Types s : MmState T.

(** ** Steps of memory-management code *)

(** From [s] to [s'], code wrote within the frames [W], took the frames [new] and gave back
    the frames [gone]. *)
Record changes s (W new gone : list Z) s' : Prop := {
  ch_inv : mm_inv s';
  ch_keep q : in_use s q -> q ∉ gone -> in_use s' q;
  ch_sub p : p ∈ new -> p ∈ free_frames s;
  ch_free : free_frames s' = (free_frames s ∖ list_to_set new) ∪ list_to_set gone;
  ch_mem a : a / PAGE_SIZE ∉ W -> a / PAGE_SIZE ∉ new -> phys s' a = phys s a
}.

Lemma changes_grows k s W new s' : grows k s W new s' -> changes s W new [] s'.
Proof. intros [? ? ? ? ? Hf ? ?]. split; try done; [auto|]. rewrite Hf. set_solver. Qed.

(** Dropping frames. *)
Lemma changes_drop s gone s' :
  mm_inv s' -> free_frames s' = list_to_set gone ∪ free_frames s ->
  (forall q, q ∉ gone -> in_use s q -> in_use s' q) -> phys s' = phys s -> changes s [] [] gone s'.
Proof. intros Hi Hf Hk Hp. split; [done|auto|by intros ? ?%not_elem_of_nil|rewrite Hf; set_solver|]. intros. by rewrite Hp. Qed.

Lemma changes_weaken s W W' new gone s' :
  (forall p, p ∈ W -> p ∈ W') -> changes s W new gone s' -> changes s W' new gone s'.
Proof. intros HW [? ? ? ? Hm]. split; try done. intros a Ha Hn. apply Hm; [|done]. intros Hin. by apply Ha, HW. Qed.

Lemma changes_free_trans s W g1 s1 g2 s2 :
  changes s W [] g1 s1 -> changes s1 W [] g2 s2 -> changes s W [] (g1 ++ g2) s2.
Proof.
  intros [? Hk1 _ Hf1 Hm1] [? Hk2 _ Hf2 Hm2]. split; [done| |by intros ? ?%not_elem_of_nil| |].
  - intros q Hu [? ?]%not_elem_of_app. auto.
  - rewrite Hf2, Hf1, list_to_set_app_L. set_solver.
  - intros a Ha Hn. by rewrite Hm2, Hm1.
Qed.

(** Frames in use are not taken. *)
Lemma changes_fresh s W new gone s' p : mm_inv s -> changes s W new gone s' -> in_use s p -> p ∉ new.
Proof. intros Hinv Hc Hu Hin. apply (in_use_not_free s p Hinv Hu). by apply (ch_sub _ _ _ _ _ Hc). Qed.

(** Bytes of a frame in use that the code does not write. *)
Lemma changes_page s W new gone s' a :
  mm_inv s -> changes s W new gone s' -> in_use s (a / PAGE_SIZE) -> a / PAGE_SIZE ∉ W -> phys s' a = phys s a.
Proof. intros Hinv Hc Hu HW. apply (ch_mem _ _ _ _ _ Hc); [done|]. by eapply changes_fresh. Qed.

(** ** Disjoint address spaces *)

(** The frames below [lo] hold the kernel's image: the allocator does not manage them. *)
Context {lo : Z}.

Definition space_frames (L : list MemorySet) : list Z := concat (map ms_frames L).

Record spaces_ok s (L : list MemorySet) : Prop := {
  so_inv : mm_inv s;
  so_all : Forall (ms_ok s) L;
  so_nodup : NoDup (space_frames L);
  so_above p : p ∈ free_frames s \/ p ∈ space_frames L -> lo <= p
}.

#[export] Instance space_frames_Proper : Proper ((≡ₚ) ==> (≡ₚ)) space_frames.
Proof.
  intros L L' Hp. unfold space_frames. induction Hp; cbn; [done|by apply Permutation_app_head|solve_Permutation|by etrans].
Qed.

#[export] Instance spaces_ok_Proper s : Proper ((≡ₚ) ==> iff) (spaces_ok s).
Proof.
  assert (Himp : forall L L', L ≡ₚ L' -> spaces_ok s L -> spaces_ok s L').
  { intros L L' Hp [Hi Ha Hn Hab]. split; [done|by rewrite <-Hp|by rewrite <-Hp|]. intros p. rewrite <-Hp. apply Hab. }
  intros L L' Hp. split; apply Himp; [done|]. by symmetry.
Qed.

Lemma space_frames_app A B : space_frames (A ++ B) = space_frames A ++ space_frames B.
Proof. unfold space_frames. by rewrite map_app, concat_app. Qed.

Lemma elem_of_space_frames p L : p ∈ space_frames L <-> exists ms, ms ∈ L /\ p ∈ ms_frames ms.
Proof. apply elem_of_concat_map. Qed.

Lemma spaces_in_use s L p : spaces_ok s L -> p ∈ space_frames L -> in_use s p.
Proof.
  intros [_ Ha _ _] (ms & Hms & Hp)%elem_of_space_frames. rewrite Forall_forall in Ha.
  destruct (Ha ms Hms) as [_ _ _ Hu]. rewrite Forall_forall in Hu. by apply Hu.
Qed.

(** The bytes of the kernel's image and of all frames of some spaces are the same. *)
Definition same_bytes (L : list MemorySet) s s' : Prop :=
  forall a, a / PAGE_SIZE < lo \/ a / PAGE_SIZE ∈ space_frames L -> phys s' a = phys s a.

Lemma same_bytes_in L s s' ms a : same_bytes L s s' -> ms ∈ L -> a / PAGE_SIZE ∈ ms_frames ms -> phys s' a = phys s a.
Proof. intros Hs Hms Ha. apply Hs. right. apply elem_of_space_frames. by exists ms. Qed.

Lemma same_bytes_refl L s : same_bytes L s s.
Proof. by intros a _. Qed.

Lemma same_bytes_trans L s1 s2 s3 : same_bytes L s1 s2 -> same_bytes L s2 s3 -> same_bytes L s1 s3.
Proof. intros H12 H23 a Ha. by rewrite H23, H12. Qed.

Lemma same_bytes_sub L L' s s' : (forall ms, ms ∈ L' -> ms ∈ L) -> same_bytes L s s' -> same_bytes L' s s'.
Proof.
  intros Hsub Hs a [Ha|(ms & Hms & Ha)%elem_of_space_frames]; apply Hs; [by left|]. right. apply elem_of_space_frames. exists ms. auto.
Qed.

(** An address space whose tables keep their bytes keeps its mappings. *)
Lemma ms_ok_keep s s' ms :
  ms_ok s ms -> mm_inv s' -> Forall (in_use s') (ms_frames ms) ->
  (forall a, a / PAGE_SIZE ∈ pt_frames (page_table ms) -> phys s' a = phys s a) ->
  ms_ok s' ms /\ forall v, mapping (phys s') (page_table ms) v = mapping (phys s) (page_table ms) v.
Proof.
  intros [[Hinv Hwf Hu] Hareas Hnd Huse] Hinv' Hu' Hm.
  assert (Hmap : forall v, mapping (phys s') (page_table ms) v = mapping (phys s) (page_table ms) v).
  { intros v. by apply mapping_agree. }
  split; [split|done]; [split|..]; try done.
  - by eapply pt_wf_agree.
  - unfold ms_frames in Hu'. by apply Forall_app in Hu' as [? _].
  - eapply Forall_impl; [done|]. intros a Ha. by eapply framed_ok_mapping.
Qed.

Lemma ms_table_frame ms p : p ∈ pt_frames (page_table ms) -> p ∈ ms_frames ms.
Proof. intros. apply elem_of_app. by left. Qed.

(** Data frames. *)
Lemma ms_data_frames s ms : ms_ok s ms -> Forall is_frame (concat (map area_frames (areas ms))).
Proof.
  intros Hms. apply Forall_forall. intros f Hf%ms_frames_areas. pose proof (mo_use _ _ Hms) as Hu. rewrite Forall_forall in Hu.
  apply (in_use_frame s); [apply Hms|by apply Hu].
Qed.

Lemma in_data_frames a ms v f : a ∈ areas ms -> (v, f) ∈ data_frames a -> f ∈ concat (map area_frames (areas ms)).
Proof. intros Ha Hf. apply elem_of_concat_map. exists a. split; [done|]. apply list_elem_of_fmap. by exists (v, f). Qed.

(** The frame rule: code that works in the spaces [A], which become [A'], keeps the
    others. *)
Lemma spaces_ok_step s A A' L W new gone s' :
  spaces_ok s (A ++ L) -> changes s W new gone s' ->
  (forall p, p ∈ W -> p ∈ space_frames A) -> (forall p, p ∈ gone -> p ∈ space_frames A) ->
  Forall (ms_ok s') A' -> NoDup (space_frames A') ->
  (forall p, p ∈ space_frames A' -> p ∈ space_frames A \/ p ∈ new) ->
  spaces_ok s' (A' ++ L) /\ same_bytes L s s'.
Proof.
  intros Hok Hc HW Hg HA' Hnd' Hsub. pose proof Hok as [Hinv Hall Hnd Hab].
  rewrite space_frames_app in Hnd. apply NoDup_app in Hnd as (_ & Hd & HndL). apply Forall_app in Hall as [_ HL].
  assert (HuL : forall p, p ∈ space_frames L -> in_use s p).
  { intros p Hp. apply (spaces_in_use _ _ _ Hok). rewrite space_frames_app. apply elem_of_app. by right. }
  assert (Hbytes : same_bytes L s s').
  { intros a [Ha|Ha].
    - apply (ch_mem _ _ _ _ _ Hc).
      + intros Hin%HW. specialize (Hab (a / PAGE_SIZE)). rewrite space_frames_app, elem_of_app in Hab. assert (lo <= a / PAGE_SIZE) by auto. lia.
      + intros Hin%(ch_sub _ _ _ _ _ Hc). assert (lo <= a / PAGE_SIZE) by auto. lia.
    - apply (changes_page _ _ _ _ _ _ Hinv Hc); [by apply HuL|]. intros Hin%HW. by apply (Hd _ Hin). }
  split; [|done]. split; [apply Hc| | |].
  - apply Forall_app. split; [done|]. rewrite Forall_forall in HL |- *. intros ms Hms.
    assert (Hin : forall p, p ∈ ms_frames ms -> p ∈ space_frames L) by (intros p Hp; apply elem_of_space_frames; eauto).
    refine (proj1 (ms_ok_keep s s' ms (HL _ Hms) (ch_inv _ _ _ _ _ Hc) _ _)).
    + apply Forall_forall. intros p Hp%Hin. apply (ch_keep _ _ _ _ _ Hc); [by apply HuL|]. intros Hgp%Hg. by apply (Hd _ Hgp).
    + intros a Ha. apply Hbytes. right. by apply Hin, ms_table_frame.
  - rewrite space_frames_app. apply NoDup_app. split_and!; [done| |done]. intros p [Hp|Hp]%Hsub Hp2; [by apply (Hd p)|].
    by apply (changes_fresh _ _ _ _ _ _ Hinv Hc (HuL _ Hp2)).
  - intros p. rewrite (ch_free _ _ _ _ _ Hc), space_frames_app, elem_of_union, elem_of_difference, elem_of_list_to_set, !elem_of_app. intros Hp. apply Hab.
    rewrite space_frames_app, elem_of_app. destruct Hp as [[[? _]|Hg'%elem_of_list_to_set]|[[?|?]%Hsub|?]]; auto. left. by apply (ch_sub _ _ _ _ _ Hc).
Qed.

(** A new address space in new frames. *)
Lemma spaces_ok_add k s L ms s' :
  spaces_ok s L -> grows k s [] (ms_frames ms) s' -> ms_ok s' ms -> spaces_ok s' (ms :: L) /\ same_bytes L s s'.
Proof.
  intros Hok Hg Hms. apply (spaces_ok_step s [] [ms] L [] (ms_frames ms) []); [done|by eapply changes_grows| | | | |].
  - by intros q []%not_elem_of_nil.
  - by intros q []%not_elem_of_nil.
  - by apply Forall_singleton.
  - unfold space_frames. cbn. rewrite app_nil_r. apply Hms.
  - intros q. unfold space_frames. cbn. rewrite app_nil_r. auto.
Qed.

(** An address space that is dropped. *)
Lemma wp_drop_space s ms L Q :
  spaces_ok s (ms :: L) ->
  (forall s', spaces_ok s' L -> phys s' = phys s -> free_frames s' = free_frames s ∪ list_to_set (ms_frames ms) -> Q tt s') ->
  wp (drop_memory_set ms) Q s.
Proof.
  intros Hok HQ. pose proof (so_all _ _ Hok) as Hall. apply Forall_cons in Hall as [Hms _].
  eapply wp_mono; [|by apply wp_drop_memory_set]. intros [] s' (Hinv & Hfr & Hk & Hp). apply HQ; [|done|by rewrite union_comm_L].
  refine (proj1 (spaces_ok_step s [ms] [] L [] [] (ms_frames ms) s' Hok _ _ _ _ _ _)).
  - by apply changes_drop.
  - by intros q []%not_elem_of_nil.
  - intros q. unfold space_frames. cbn. by rewrite app_nil_r.
  - done.
  - apply NoDup_nil_2.
  - by intros q []%not_elem_of_nil.
Qed.

(** ** Unmapping an area *)

(** The state of the loop when the pages of [d1] are done and those of [d2] are left. *)
Record unmapping s (pt : PageTable) (a : MapArea) (d1 d2 : list (Z * Z)) (r : MapArea * PageTable) s' : Prop := {
  um_area : fst r = set_data_frames d2 a;
  um_pt : snd r = pt;
  um_ok : pt_ok s' pt;
  um_changes : changes s (pt_frames pt) [] (map snd d1) s';
  um_none v : aliases v (map fst d1) -> mapping (phys s') pt v = None;
  um_other v : ~ aliases v (map fst d1) -> mapping (phys s') pt v = mapping (phys s) pt v
}.

Lemma wp_unmap_one s pt a d1 v f d2 a1 p1 s1 :
  mm_inv s -> map_type a = Framed -> (f ∉ map snd d1) -> (f ∉ pt_frames pt) -> in_use s f ->
  ~ aliases v (map fst d1) -> is_Some (mapping (phys s) pt v) ->
  unmapping s pt a d1 ((v, f) :: d2) (a1, p1) s1 ->
  wp (unmap_one a1 p1 v) (unmapping s pt a (d1 ++ [(v, f)]) d2) s1.
Proof.
  intros Hinv Hty Hf Hfpt Hu Hna Hsome [Ha Hpt Hok Hc Hn Ho]. cbn [fst snd] in *. subst a1 p1.
  unfold unmap_one. cbn [map_type set_data_frames data_frames]. rewrite Hty, bt_lookup_head, bt_remove_head. cbn [drop_displaced].
  wp_step. wp_step. eapply wp_mono; [|apply wp_frame_dealloc; [apply Hok|by apply (ch_keep _ _ _ _ _ Hc)]].
  cbn beta. intros _ s2 (Hinv2 & Hfr2 & Hk2 & Hp2). wp_step. wp_step.
  assert (Hc2 : changes s1 (pt_frames pt) [] [f] s2).
  { eapply changes_weaken; [|apply changes_drop; [done| | |done]]; [by intros ? ?%not_elem_of_nil| |].
    - rewrite Hfr2. set_solver.
    - intros q Hq. apply Hk2. intros ->. apply Hq. by left. }
  assert (Hok2 : pt_ok s2 pt).
  { destruct Hok as [? Hwf Hup]. split; [done|by rewrite Hp2|]. rewrite Forall_forall in *. intros q Hq. apply Hk2; [|by apply Hup].
    intros ->. done. }
  eapply wp_mono; [|apply (wp_unmap s2 pt v Hok2)]; [|by rewrite Hp2, Ho].
  cbn beta. intros pt3 s3 (-> & Hok3 & Hg3 & Hm3). apply changes_grows in Hg3. wp_step.
  split; cbn [fst snd]; [done|done|done| | |].
  - rewrite map_app. cbn [map snd]. replace (map snd d1 ++ [f]) with (map snd d1 ++ [f] ++ []) by done.
    eapply changes_free_trans; [done|]. by eapply changes_free_trans.
  - intros w (q & Hq & He). rewrite Hm3. case_decide; [done|]. rewrite Hp2. apply Hn. exists q. split; [|done].
    rewrite map_app in Hq. apply elem_of_app in Hq as [Hq|Hq%list_elem_of_singleton]; [done|]. cbn in Hq. by subst.
  - intros w Hw. rewrite map_app in Hw. apply aliases_snoc in Hw as [? ?]. cbn [fst] in *. rewrite Hm3, decide_False, Hp2 by done. by apply Ho.
Qed.

Lemma wp_MapArea_unmap s ms a :
  ms_ok s ms -> a ∈ areas ms ->
  wp (MapArea_unmap a (page_table ms)) (unmapping s (page_table ms) a (data_frames a) []) s.
Proof.
  intros Hms Hin. destruct (ms_ok_area _ _ _ Hms Hin) as ([Hty _ Hr Hk Hm] & Hua & Hnda). destruct (mo_pt _ _ Hms) as [Hinv Hwf Hu].
  unfold MapArea_unmap. rewrite <-Hk.
  assert (Hfpt : forall f, f ∈ area_frames a -> f ∉ pt_frames (page_table ms)).
  { intros f Hf Hp. pose proof (mo_nodup _ _ Hms) as Hnd. unfold ms_frames in Hnd. apply NoDup_app in Hnd as (_ & Hd & _).
    apply (Hd f Hp), elem_of_concat_map. eauto. }
  eapply wp_mono; [|apply (wp_foldM _ (fun pages r s' => exists d1 d2, data_frames a = d1 ++ d2 /\ pages = map fst d1 /\
    unmapping s (page_table ms) a d1 d2 r s'))].
  - intros r s' (d1 & d2 & Hd & Hp & Hun). assert (d2 = []) as ->.
    { apply (f_equal length) in Hp. rewrite Hd, !length_map, length_app in Hp. destruct d2; [done|]. cbn in Hp. lia. }
    rewrite app_nil_r in Hd. by subst.
  - exists [], (data_frames a). split_and!; [done..|]. split; cbn [fst snd]; [by destruct a|done|done| | |done].
    + apply (changes_grows 0), grows_refl. done.
    + by intros v (q & []%not_elem_of_nil & _).
  - intros pages v rest [a1 p1] s1 Hsplit (d1 & d2 & Hd & -> & Hun). rewrite Hd, map_app in Hsplit.
    apply app_inv_head in Hsplit. destruct d2 as [|[v' f] d2]; [done|]. cbn [map fst] in Hsplit. cbn beta iota. injection Hsplit as -> Hrest.
    assert (Hvf : (v, f) ∈ data_frames a) by (rewrite Hd; apply elem_of_app; right; by left).
    assert (Hff : f ∈ area_frames a) by (apply list_elem_of_fmap; by exists (v, f)).
    eapply wp_mono; [|eapply (wp_unmap_one s (page_table ms) a d1 v f d2)]; try done.
    + intros r' s' Hun'. exists (d1 ++ [(v, f)]), d2. rewrite Hd, map_app, <-app_assoc. done.
    + intros Hfd. unfold area_frames in Hnda. rewrite Hd, map_app in Hnda. apply NoDup_app in Hnda as (_ & Hnd & _). apply (Hnd f Hfd). by left.
    + by apply Hfpt.
    + rewrite Forall_forall in Hua. by apply Hua.
    + intros (q & Hq & He). assert (v = q) as <-.
      { apply (range_ok_slot _ v q Hr); [..|done]; rewrite <-Hk, Hd, map_app; apply elem_of_app; [right; by left|by left]. }
      pose proof (NoDup_range_items _ Hr) as Hnd. rewrite <-Hk, Hd, map_app in Hnd. apply NoDup_app in Hnd as (_ & Hnd & _). apply (Hnd v Hq). by left.
    + rewrite (Hm v f Hvf). eauto.
Qed.

(** What is left of the address space. *)
Lemma ms_ok_unmapped s ms l1 a l2 r s' :
  ms_ok s ms -> areas ms = l1 ++ a :: l2 -> unmapping s (page_table ms) a (data_frames a) [] r s' ->
  ms_ok s' (mk_ms (page_table ms) (l1 ++ l2)) /\
  ms_frames ms ≡ₚ ms_frames (mk_ms (page_table ms) (l1 ++ l2)) ++ area_frames a.
Proof.
  intros Hms El [_ _ Hok Hc _ Ho]. assert (Hin : a ∈ areas ms) by (rewrite El; apply elem_of_app; right; by left).
  destruct (ms_ok_area _ _ _ Hms Hin) as (Hfa & _ & _). rewrite (fo_keys _ _ _ Hfa) in Ho. change (map snd (data_frames a)) with (area_frames a) in Hc.
  assert (Hperm : ms_frames ms ≡ₚ ms_frames (mk_ms (page_table ms) (l1 ++ l2)) ++ area_frames a).
  { unfold ms_frames. rewrite El. cbn [page_table areas]. rewrite !map_app, !concat_app. cbn [map concat]. solve_Permutation. }
  split; [|done]. pose proof (mo_nodup _ _ Hms) as Hnd. rewrite Hperm in Hnd. apply NoDup_app in Hnd as (Hnd & Hd & _).
  split; cbn [page_table areas]; [done| |done|].
  - rewrite Forall_forall. intros b Hb. assert (Hbin : b ∈ areas ms) by (rewrite El; set_solver).
    destruct (ms_ok_area _ _ _ Hms Hbin) as (Hfb & _ & _). eapply framed_ok_mapping; [exact Hfb|]. intros v Hv. apply Ho. intros (q & Hq & He).
    apply elem_of_app in Hb as [Hb|Hb].
    + apply (areas_slots s ms l1 a l2 q Hms El Hq). exists v. split; [apply elem_of_concat_map; eauto|done].
    + apply list_elem_of_split in Hb as (l3 & l4 & ->).
      apply (areas_slots s ms (l1 ++ a :: l3) b l4 v Hms); [by rewrite El, <-app_assoc|done|].
      exists q. split; [|done]. apply elem_of_concat_map. exists a. split; [set_solver|done].
  - rewrite Forall_forall. intros p Hp. pose proof (mo_use _ _ Hms) as Hu. rewrite Hperm, Forall_forall in Hu.
    apply (ch_keep _ _ _ _ _ Hc); [apply Hu, elem_of_app; by left|]. intros Hpa. by apply (Hd p).
Qed.

End Spaces.

Arguments spaces_ok {T _ _} lo s L.
Arguments same_bytes {T} lo L s s'.
