(* ===== verification/ElfSpec.v ===== *)
(** * Loading a program

    [MapArea::copy_data] and [MemorySet::from_elf]: the address space of a program holds
    the pages of its loadable segments with their permissions and bytes, a user stack and
    a page for the trap context, all cleared where the file has no bytes. *)

From S2P Require Import Prelude Config Address PhysMem FrameAllocator PageTable PageTableSpec UserAccess.
From S2P Require Import MemorySet MemorySetSpec ForkSpec SpaceSpec.

(** A run of pages of a program: its permission, and the bytes it starts with. *)
Record segment : Type := mk_seg { seg_range : SimpleRange; seg_perm : Z; seg_data : list Z }.

Definition seg_pages (L : list segment) : list Z := concat (map (fun g => range_items (seg_range g)) L).

(** An area holds a segment: byte [off] of its page [i] is the byte of the segment, or 0
    beyond its bytes. *)
Record loaded (m : mem) (g : segment) (a : MapArea) : Prop := {
  ld_range : vpn_range a = seg_range g;
  ld_perm : map_perm a = seg_perm g;
  ld_bytes i v f off : data_frames a !! i = Some (v, f) -> 0 <= off < PAGE_SIZE ->
    m (page_base f + off) = default 0 (seg_data g !! Z.to_nat (Z.of_nat i * PAGE_SIZE + off))
}.

Lemma seg_pages_snoc L g : seg_pages (L ++ [g]) = seg_pages L ++ range_items (seg_range g).
Proof. unfold seg_pages. rewrite map_app, concat_app. cbn. by rewrite app_nil_r. Qed.

(** The keys of an area in order. *)
Lemma framed_ok_key m pt a i v f :
  framed_ok m pt a -> data_frames a !! i = Some (v, f) -> v = range_l (vpn_range a) + Z.of_nat i.
Proof.
  intros [_ _ Hr Hk _] Hi. assert (Hv : map fst (data_frames a) !! i = Some v).
  { change (map fst (data_frames a)) with (fst <$> data_frames a). by rewrite list_lookup_fmap, Hi. }
  rewrite Hk, range_ok_items in Hv by done. by apply lookup_seqZ in Hv as [-> _].
Qed.

Lemma framed_ok_length m pt a : framed_ok m pt a -> length (data_frames a) = length (range_items (vpn_range a)).
Proof. intros [_ _ _ Hk _]. by rewrite <-Hk, length_map. Qed.

Section Elf.
Context {T : Type} `{FrameAllocatorSpec T}.
Implicit Types s : MmState T.

(** ** Copying data into an area *)

Section CopyData.
Context (s : MmState T) (pt : PageTable) (a : MapArea) (data : list Z).
Hypothesis Hpt : pt_ok s pt.
Hypothesis Ha : framed_ok (phys s) pt a.
Hypothesis Huse : Forall (in_use s) (area_frames a).
Hypothesis Hnd : NoDup (area_frames a).
Hypothesis Hapart : forall f, f ∈ area_frames a -> f ∉ pt_frames pt.
Hypothesis Hfits : Z.of_nat (length data) <= Z.of_nat (length (data_frames a)) * 4096.
Hypothesis Hpage : data_frames a <> [].

(** The first [n] pages are copied. *)
Record copying (n : nat) (m : mem) : Prop := {
  cp_out x : x / PAGE_SIZE ∉ area_frames a -> m x = phys s x;
  cp_in i v f off : data_frames a !! i = Some (v, f) -> 0 <= off < PAGE_SIZE ->
    m (page_base f + off) = default (phys s (page_base f + off))
      (if decide (i < n)%nat then data !! Z.to_nat (Z.of_nat i * PAGE_SIZE + off) else None)
}.

Lemma copying_start : copying 0 (phys s).
Proof. split; [done|]. intros. by rewrite decide_False by lia. Qed.

(** Pages behind the end of the data are not needed. *)
Lemma copying_end n m : Z.of_nat (length data) <= Z.of_nat n * 4096 -> copying n m -> copying (length (data_frames a)) m.
Proof.
  intros Hn [Ho Hi]. split; [done|]. intros i v f off Hlook Hoff. rewrite (Hi i v f off Hlook Hoff). unfold PAGE_SIZE in *.
  destruct (decide (i < n)%nat) as [Hin|Hin]; [by rewrite decide_True by (by eapply lookup_lt_Some)|].
  rewrite decide_True by (by eapply lookup_lt_Some). rewrite lookup_ge_None_2 by lia. done.
Qed.

Lemma area_frame_at i v f : data_frames a !! i = Some (v, f) -> f ∈ area_frames a /\ is_frame f.
Proof.
  intros Hi. assert (Hf : f ∈ area_frames a) by (apply list_elem_of_fmap; exists (v, f); split; [done|by eapply list_elem_of_lookup_2]).
  split; [done|]. rewrite Forall_forall in Huse. apply (in_use_frame s); [apply Hpt|by apply Huse].
Qed.

(** Writing page [n]. *)
Lemma copying_step n m v f src :
  copying n m -> data_frames a !! n = Some (v, f) -> src = take (Z.to_nat 4096) (drop (Z.to_nat (Z.of_nat n * 4096)) data) ->
  copying (S n) (store_bytes m (page_base f) src).
Proof.
  intros [Ho Hi] Hn ->. destruct (area_frame_at _ _ _ Hn) as [Hf Hfr].
  assert (Hlen : Z.of_nat (length (take (Z.to_nat 4096) (drop (Z.to_nat (Z.of_nat n * 4096)) data))) <= 4096) by (rewrite length_take; lia). split.
  - intros x Hx. rewrite store_bytes_out; [by apply Ho|]. intros Hr. apply Hx.
    assert (x / PAGE_SIZE = f) as ->; [|done]. apply page_span; [done|]. unfold PAGE_SIZE. lia.
  - intros i w g off Hlook Hoff. destruct (area_frame_at _ _ _ Hlook) as [Hg Hgf]. destruct (decide (i = n)) as [->|Hne].
    + rewrite Hn in Hlook. injection Hlook as <- <-. rewrite decide_True by lia. unfold PAGE_SIZE in *.
      destruct (data !! Z.to_nat (Z.of_nat n * 4096 + off)) as [b|] eqn:E; cbn.
      * replace off with (Z.of_nat (Z.to_nat off)) by lia. apply store_bytes_in.
        rewrite lookup_take, decide_True, lookup_drop by lia. rewrite <-E. f_equal. lia.
      * rewrite store_bytes_out; [|intros Hr; apply lookup_ge_None_1 in E; rewrite length_take, length_drop in Hr; lia].
        rewrite (Hi n v f off Hn Hoff). by rewrite decide_False by lia.
    + assert (Hgf' : g <> f).
      { intros ->. apply Hne. eapply (NoDup_lookup (area_frames a)); [done|..]; unfold area_frames; change (map snd (data_frames a)) with (snd <$> data_frames a);
          rewrite list_lookup_fmap; [by rewrite Hlook|by rewrite Hn]. }
      rewrite store_bytes_out.
      * rewrite (Hi i w g off Hlook Hoff). destruct (decide (i < n)%nat), (decide (i < S n)%nat); try done; lia.
      * intros Hr. apply Hgf'. rewrite <-(page_base_div g off Hgf Hoff). apply page_span; [done|]. unfold PAGE_SIZE. lia.
Qed.

(** The tables are not written. *)
Lemma copying_translate n m i v f : copying n m -> data_frames a !! i = Some (v, f) -> translate m pt v = Some (area_pte a f).
Proof.
  intros [Ho _] Hi. apply mapping_Some_translate. rewrite (mapping_agree (phys s) m pt v).
  - apply (fo_map _ _ _ Ha). by eapply list_elem_of_lookup_2.
  - apply Hpt.
  - intros x Hx. apply Ho. intros Hin. by apply (Hapart _ Hin).
Qed.

Lemma slice_page n :
  Z.of_nat n * 4096 <= Z.of_nat (length data) -> Z.of_nat (length data) < 2 ^ 63 ->
  slice data (Z.of_nat n * PAGE_SIZE) (Z.min (Z.of_nat (length data)) (Z.of_nat n * PAGE_SIZE +% PAGE_SIZE))
    = Ok (take (Z.to_nat 4096) (drop (Z.to_nat (Z.of_nat n * 4096)) data)).
Proof.
  intros Hn Hmax. unfold slice, PAGE_SIZE. rewrite wrap64_small by lia.
  rewrite (proj2 (andb_true_iff _ _)) by (split; apply Z.leb_le; lia). f_equal.
  destruct (decide (Z.of_nat (length data) <= Z.of_nat n * 4096 + 4096)).
  - rewrite (take_ge _ (Z.to_nat 4096)) by (rewrite length_drop; lia). apply take_ge. rewrite length_drop. lia.
  - f_equal. lia.
Qed.

Lemma wp_copy_data_loop fuel : forall n m Q,
  copying n m -> (n = 0%nat \/ Z.of_nat n * 4096 < Z.of_nat (length data)) -> Z.of_nat (length data) < (Z.of_nat n + Z.of_nat fuel) * 4096 ->
  Z.of_nat (length data) < 2 ^ 63 -> range_r (vpn_range a) <= 2 ^ 52 ->
  (forall m', copying (length (data_frames a)) m' -> Q tt (set_phys m' s)) ->
  wp (copy_data_loop fuel pt data (Z.of_nat n * PAGE_SIZE) (range_l (vpn_range a) + Z.of_nat n)) Q (set_phys m s).
Proof.
  induction fuel as [|fuel IH]; intros n m Q Hcp Hn Hfuel Hmax Hrr HQ; [lia|]. cbn [copy_data_loop].
  wp_step. eapply wp_lift; [apply slice_page; lia|].
  assert (Hex : (n < length (data_frames a))%nat) by (destruct (data_frames a); [done|cbn [length] in *; lia]).
  destruct (lookup_lt_is_Some_2 _ _ Hex) as [[v f] Hlook]. pose proof (framed_ok_key _ _ _ _ _ _ Ha Hlook) as Hv. rewrite <-Hv.
  wp_step. wp_step. cbn [phys set_phys]. wp_step. eapply wp_unwrap; [by eapply copying_translate|].
  destruct (area_frame_at _ _ _ Hlook) as [Hf Hfr]. rewrite area_pte_ppn by (done || apply Ha). wp_step.
  apply wp_fault_unless; [apply frame_maps_page; [done|]; rewrite length_take; unfold PAGE_SIZE; lia|]. wp_step. wp_step. cbn [phys set_phys allocator].
  pose proof (copying_step n m v f _ Hcp Hlook eq_refl) as Hcp'. set (m' := store_bytes _ _ _) in *.
  change (set_phys m' (set_phys m s)) with (set_phys m' s).
  unfold PAGE_SIZE. rewrite wrap64_small by lia. destruct (Z.leb_spec (Z.of_nat (length data)) (Z.of_nat n * 4096 + 4096)) as [Hle|Hgt].
  - wp_step. apply HQ. eapply copying_end; [|exact Hcp']. lia.
  - assert (Hstep : step v = range_l (vpn_range a) + Z.of_nat (S n)).
    { unfold step. rewrite Hv. pose proof (fo_range _ _ _ Ha) as (? & ? & ?). rewrite framed_ok_length with (1 := Ha) in Hex.
      pose proof (range_ok_length _ (fo_range _ _ _ Ha)). rewrite wrap64_small by lia. lia. }
    rewrite Hstep. replace (Z.of_nat n * 4096 + 4096) with (Z.of_nat (S n) * PAGE_SIZE) by (unfold PAGE_SIZE; lia).
    apply IH; try done; lia.
Qed.

End CopyData.

Lemma wp_copy_data s pt a data Q :
  pt_ok s pt -> framed_ok (phys s) pt a -> Forall (in_use s) (area_frames a) -> NoDup (area_frames a) ->
  (forall f, f ∈ area_frames a -> f ∉ pt_frames pt) -> Z.of_nat (length data) <= Z.of_nat (length (data_frames a)) * 4096 ->
  data_frames a <> [] ->
  (forall m, copying s a data (length (data_frames a)) m -> Q tt (set_phys m s)) -> wp (copy_data a pt data) Q s.
Proof.
  intros Hpt Ha Hu Hnd Hap Hfits Hpage HQ. unfold copy_data. wp_step. apply wp_assert; [by apply bool_decide_eq_true_2, Ha|].
  pose proof (fo_range _ _ _ Ha) as (Hr0 & Hr1 & Hr2). pose proof (framed_ok_length _ _ _ Ha) as Hl. pose proof (range_ok_length _ (fo_range _ _ _ Ha)) as Hl'.
  replace s with (set_phys (phys s) s) by (by destruct s).
  replace 0 with (Z.of_nat 0 * PAGE_SIZE) by done. replace (get_start (vpn_range a)) with (range_l (vpn_range a) + Z.of_nat 0) by (unfold get_start; lia).
  apply (wp_copy_data_loop s pt a data); try assumption; [apply copying_start|by left|unfold PAGE_SIZE; zdm|lia].
Qed.

(** ** Building the address space *)

Context (ld : linker_symbols).
Hypothesis Hld : trampoline_ok ld.

(** The segments [L] are loaded, and nothing else is mapped but the trampoline. *)
Record elf_inv s (L : list segment) (ms : MemorySet) s' : Prop := {
  ei_ok : ms_ok s' ms;
  ei_grows : grows (3 + 3 * length (seg_pages L)) s [] (ms_frames ms) s';
  ei_loaded : Forall2 (loaded (phys s')) L (areas ms);
  ei_trampoline : mapping (phys s') (page_table ms) TRAMPOLINE_vpn = Some (trampoline_pte ld);
  ei_none v : ~ aliases v (TRAMPOLINE_vpn :: seg_pages L) -> mapping (phys s') (page_table ms) v = None
}.

Lemma loaded_keep m m' g a :
  loaded m g a -> Forall is_frame (area_frames a) -> (forall x, x / PAGE_SIZE ∈ area_frames a -> m' x = m x) -> loaded m' g a.
Proof.
  intros [Hr Hp Hb] Hf Hm. split; [done..|]. intros i v f off Hi Hoff. rewrite <-(Hb i v f off Hi Hoff).
  assert (Hin : f ∈ area_frames a) by (apply list_elem_of_fmap; exists (v, f); split; [done|by eapply list_elem_of_lookup_2]).
  rewrite Forall_forall in Hf. apply Hm. by rewrite page_base_div by auto.
Qed.

Lemma all_loaded_keep m m' L l :
  Forall2 (loaded m) L l -> Forall is_frame (concat (map area_frames l)) ->
  (forall x, x / PAGE_SIZE ∈ concat (map area_frames l) -> m' x = m x) -> Forall2 (loaded m') L l.
Proof.
  intros HF Hf Hm. induction HF as [|g a L l Hga HF IH]; [constructor|]. cbn in *. apply Forall_app in Hf as [Hf1 Hf2]. constructor.
  - apply (loaded_keep m); [done..|]. intros x Hx. apply Hm, elem_of_app. by left.
  - apply IH; [done|]. intros x Hx. apply Hm, elem_of_app. by right.
Qed.

(** Room for a segment: its pages are new, and its bytes fit. *)
Record seg_fits (L : list segment) (g : segment) : Prop := {
  sf_range : range_ok (seg_range g);
  sf_perm : is_u8 (seg_perm g);
  sf_slots v : v ∈ range_items (seg_range g) -> ~ aliases v (TRAMPOLINE_vpn :: seg_pages L);
  sf_data : seg_data g = [] \/ Z.of_nat (length (seg_data g)) <= Z.of_nat (length (range_items (seg_range g))) * 4096
}.

(** Mapping the pages of a segment, which are cleared. *)
Lemma elf_mapped s L ms s1 g a tables pt' s2 :
  elf_inv s L ms s1 -> seg_fits L g -> seg_data g = [] ->
  area_mapped s1 (page_table ms) (mk_area (seg_range g) [] Framed (seg_perm g)) (range_items (seg_range g)) tables (a, pt') s2 ->
  elf_inv s (L ++ [g]) (mk_ms pt' (vec_push (areas ms) a)) s2.
Proof.
  intros [Hok Hg HL Htr Hnone] [Hr Hp Hsl _] Hd Ham.
  assert (Hok2 : ms_ok s2 (mk_ms pt' (vec_push (areas ms) a))).
  { eapply (ms_ok_push s1 ms (mk_area (seg_range g) [] Framed (seg_perm g))); try done. intros v Hv. by apply Hnone, Hsl. }
  pose proof Ham as [Ha Hk _ _ Hfr Hg2 Hm Ho Hz]; cbn [fst snd] in *. split; cbn [page_table areas].
  - done.
  - apply (grows_perm _ _ _ (ms_frames ms ++ (tables ++ area_frames a))).
    { destruct ms as [pt ar]; cbn in *. by rewrite (ms_frames_push pt ar a pt' tables). }
    rewrite seg_pages_snoc, length_app.
    eapply (grows_weaken (3 + 3 * length (seg_pages L) + 3 * length (range_items (seg_range g))) _ _ []); [lia|done|].
    eapply grows_trans; [done..|]. intros q Hq. right. by apply ms_table_frame.
  - unfold vec_push. apply Forall2_app; [|constructor; [|constructor]].
    + eapply all_loaded_keep; [exact HL|by eapply ms_data_frames|]. intros x Hx. pose proof (mo_nodup _ _ Hok) as Hnd. pose proof (mo_use _ _ Hok) as Hu.
      rewrite Forall_forall in Hu. apply NoDup_app in Hnd as (_ & Hd' & _). pose proof (mo_pt _ _ Hok) as [Hinv1 _ _].
      eapply (grows_keeps_page _ s1); [done|done|by apply Hu, ms_frames_areas| |done]. intros Hx'. by apply (Hd' _ Hx').
    + split; [by rewrite Ha|by rewrite Ha|]. intros i v f off Hi Hoff. rewrite Hd. cbn.
      assert (Hin : f ∈ area_frames a) by (apply list_elem_of_fmap; exists (v, f); split; [done|by eapply list_elem_of_lookup_2]).
      apply Hz. rewrite page_base_div; [done| |done]. pose proof (ms_data_frames _ _ Hok2) as Hf. rewrite Forall_forall in Hf.
      apply Hf. cbn [areas]. apply elem_of_concat_map. exists a. split; [apply elem_of_vec_push; by right|done].
  - rewrite Ho; [done|]. intros (q & Hq & He). apply (Hsl q Hq). exists TRAMPOLINE_vpn. split; [by left|done].
  - intros v Hv. rewrite seg_pages_snoc in Hv. rewrite Ho.
    + apply Hnone. intros (q & Hq & He). apply Hv. exists q. split; [|done]. rewrite !elem_of_cons, elem_of_app in *. tauto.
    + intros (q & Hq & He). apply Hv. exists q. split; [|done]. rewrite !elem_of_cons, elem_of_app in *. tauto.
Qed.

(** Copying the bytes of the last segment. *)
Lemma elf_copied s L ms r perm data s2 l a m :
  elf_inv s (L ++ [mk_seg r perm []]) ms s2 -> areas ms = vec_push l a -> copying s2 a data (length (data_frames a)) m ->
  elf_inv s (L ++ [mk_seg r perm data]) ms (set_phys m s2).
Proof.
  intros [Hok Hg HL Htr Hnone] Hl [Hout Hin].
  pose proof (mo_nodup _ _ Hok) as Hnd. rewrite (ms_frames_last _ _ _ Hl) in Hnd. apply NoDup_app in Hnd as (_ & Hd1 & Hnd). apply NoDup_app in Hnd as (_ & Hd2 & _).
  destruct (ms_ok_write s2 ms m Hok) as [Hok' Hmap].
  { intros x Hx. apply Hout. intros Hx'. apply (Hd1 _ Hx), elem_of_app. by right. }
  assert (Hsp : forall d, seg_pages (L ++ [mk_seg r perm d]) = seg_pages (L ++ [mk_seg r perm []])) by (intros d; by rewrite !seg_pages_snoc).
  split; rewrite ?Hsp.
  - done.
  - rewrite <-(Nat.add_0_r (3 + _)). apply (grows_perm _ _ _ (ms_frames ms ++ [])); [by rewrite app_nil_r|].
    eapply (grows_trans _ _ _ _ _ s2 (ms_frames ms)); [exact Hg| |by right]. apply grows_write; [apply Hok|].
    intros x Hx. apply Hout. intros Hx'. apply Hx, ms_frames_areas. rewrite Hl. apply elem_of_concat_map. exists a. split; [apply elem_of_vec_push; by right|done].
  - rewrite Hl in HL |- *. unfold vec_push in *. apply Forall2_app_inv in HL as [HL1 HL2]; [|by apply Forall2_length in HL; rewrite !length_app in HL; cbn in HL; lia].
    apply Forall2_app; [|constructor; [|constructor]].
    + eapply all_loaded_keep; [exact HL1| |].
      * pose proof (ms_data_frames _ _ Hok) as Hf. rewrite Hl in Hf. unfold vec_push in Hf. rewrite map_app, concat_app in Hf. by apply Forall_app in Hf as [? _].
      * intros x Hx. apply Hout. by apply Hd2.
    + apply Forall2_cons_1 in HL2 as [[Hr Hp Hb] _]. split; [done..|]. intros i v f off Hi Hoff. cbn [phys set_phys].
      rewrite (Hin i v f off Hi Hoff), decide_True by (by eapply lookup_lt_Some). by rewrite (Hb i v f off Hi Hoff).
  - cbn [phys set_phys]. by rewrite Hmap.
  - intros v Hv. cbn [phys set_phys]. rewrite Hmap. by apply Hnone.
Qed.

Lemma wp_push_segment s L ms s1 g d :
  elf_inv s L ms s1 -> seg_fits L g ->
  (d = None /\ seg_data g = [] \/ d = Some (seg_data g) /\ range_items (seg_range g) <> []) ->
  (3 * length (range_items (seg_range g)) <= size (free_frames s1))%nat ->
  wp (MemorySet_push ms (mk_area (seg_range g) [] Framed (seg_perm g)) d) (elf_inv s (L ++ [g])) s1.
Proof.
  intros Hinv Hfit Hd Hsize. pose proof Hfit as [Hr Hp Hsl Hdata]. unfold MemorySet_push. wp_step.
  eapply wp_mono; [|apply (wp_MapArea_map s1 (page_table ms)); try done; [apply Hinv|]].
  2: { intros v Hv. by apply (ei_none _ _ _ _ Hinv), Hsl. }
  intros [a pt'] s2 (tables & Ham). cbn [vpn_range] in Ham. wp_step.
  set (g0 := mk_seg (seg_range g) (seg_perm g) []). assert (Hfit0 : seg_fits L g0) by (split; try done; by left).
  pose proof (elf_mapped s L ms s1 g0 a tables pt' s2 Hinv Hfit0 eq_refl Ham) as Hinv2.
  destruct Hd as [[-> Hd]|[-> Hpages]].
  - wp_steps. destruct g as [r p data]. cbn in Hd. by subst data.
  - destruct (ms_ok_area s2 _ a (ei_ok _ _ _ _ Hinv2)) as (Hfa & Hua & Hnda); [apply elem_of_vec_push; by right|]. cbn [page_table] in Hfa.
    assert (Hra : vpn_range a = seg_range g) by (pose proof (am_area _ _ _ _ _ _ _ Ham) as E; cbn [fst] in E; by rewrite E).
    pose proof (framed_ok_length _ _ _ Hfa) as Hlen. rewrite Hra in Hlen.
    eapply wp_copy_data; [apply (ei_ok _ _ _ _ Hinv2)|exact Hfa|done|done| | | |].
    + intros f Hf Hp'. pose proof (mo_nodup _ _ (ei_ok _ _ _ _ Hinv2)) as Hnd. apply NoDup_app in Hnd as (_ & Hd & _). apply (Hd f Hp').
      apply elem_of_concat_map. exists a. split; [apply elem_of_vec_push; by right|done].
    + rewrite Hlen. destruct Hdata as [->|?]; [cbn; lia|done].
    + intros E. rewrite E in Hlen. cbn in Hlen. destruct (range_items (seg_range g)); done.
    + intros m Hm. wp_step. destruct g as [r p data]. by eapply elf_copied.
Qed.

(** ** ELF files *)

Definition header_segment (input : list Z) (ph : ProgramHeader) : segment :=
  mk_seg (va_range (ph_virtual_addr ph) (ph_virtual_addr ph + ph_mem_size ph)) (segment_perm ph)
    (take (Z.to_nat (ph_file_size ph)) (drop (Z.to_nat (ph_offset ph)) input)).

(** The loadable segments of a file. *)
Definition is_loadable (h : option ProgramHeader) : option ProgramHeader :=
  match h with
  | Some ph => match ph_is_load ph with Some true => Some ph | _ => None end
  | None => None
  end.
Definition elf_segments (input : list Z) (headers : list (option ProgramHeader)) : list segment :=
  map (header_segment input) (omap is_loadable headers).

(** The page after the last segment. *)
Definition segments_end (L : list segment) : Z :=
  match last L with
  | Some g => range_r (seg_range g)
  | None => 0
  end.

(** What the loader relies on in a header: its type is known, the segment is in the lower
    half of the address space, and its bytes are in the file and fit its pages. *)
Definition header_ok (input : list Z) (h : option ProgramHeader) : Prop :=
  exists ph, h = Some ph /\ is_Some (ph_is_load ph) /\
    (ph_is_load ph = Some true ->
      0 <= ph_virtual_addr ph /\ 0 < ph_mem_size ph /\ ph_virtual_addr ph + ph_mem_size ph <= 2 ^ 38 /\
      0 <= ph_offset ph /\ 0 <= ph_file_size ph <= ph_mem_size ph /\
      ph_offset ph + ph_file_size ph <= Z.of_nat (length input) < 2 ^ 63).

Definition user_stack_segment (e : Z) : segment := mk_seg (mk_range (e + 1) (e + 3)) (Z.lor (Z.lor MP_R MP_W) MP_U) [].
Definition trap_segment : segment := mk_seg (mk_range (2 ^ 52 - 2) (2 ^ 52 - 1)) (Z.lor MP_R MP_W) [].
Definition program_segments (elf : ElfFile) : list segment :=
  let L := elf_segments (elf_input elf) (elf_headers elf) in
  L ++ [user_stack_segment (segments_end L); trap_segment].

(** No two pages share a page-table slot. *)
Definition slots_apart (pages : list Z) : Prop := NoDup (map (fun v => v mod 2 ^ 27) pages).

Record elf_ok (elf : ElfFile) : Prop := {
  eo_magic : elf_magic elf = [127; 69; 76; 70];
  eo_headers : Forall (header_ok (elf_input elf)) (elf_headers elf);
  eo_slots : slots_apart (TRAMPOLINE_vpn :: seg_pages (program_segments elf))
}.

Lemma seg_pages_app L L' : seg_pages (L ++ L') = seg_pages L ++ seg_pages L'.
Proof. unfold seg_pages. by rewrite map_app, concat_app. Qed.

Lemma slots_apart_new t L g R v :
  slots_apart (t :: seg_pages (L ++ g :: R)) -> v ∈ range_items (seg_range g) -> ~ aliases v (t :: seg_pages L).
Proof.
  intros Hs Hv (q & Hq & He). unfold slots_apart in Hs. rewrite seg_pages_app in Hs. change (seg_pages (g :: R)) with (range_items (seg_range g) ++ seg_pages R) in Hs.
  rewrite app_comm_cons, map_app in Hs. apply NoDup_app in Hs as (_ & Hd & _). apply (Hd (v mod 2 ^ 27)).
  - rewrite He. apply list_elem_of_fmap. by exists q.
  - apply list_elem_of_fmap. exists v. split; [done|]. apply elem_of_app. by left.
Qed.

Lemma elf_segments_snoc input l h :
  elf_segments input (l ++ [h]) = elf_segments input l ++ match is_loadable h with Some ph => [header_segment input ph] | None => [] end.
Proof. unfold elf_segments. rewrite omap_app, map_app. cbn. by destruct (is_loadable h). Qed.

Lemma segments_end_bound input l : Forall (header_ok input) l -> 0 <= segments_end (elf_segments input l) <= 2 ^ 26.
Proof.
  intros Hl. unfold segments_end. destruct (last (elf_segments input l)) as [g|] eqn:E; [|lia]. apply last_Some_elem_of in E.
  apply list_elem_of_fmap in E as (ph & -> & Hph). apply list_elem_of_omap in Hph as (h & Hh & Hl'). rewrite Forall_forall in Hl.
  destruct (Hl h Hh) as (ph' & -> & _ & Hok). cbn in Hl'. destruct (ph_is_load ph') as [[]|]; [|done..]. injection Hl' as <-.
  destruct (Hok eq_refl) as (? & ? & ? & _). cbn. unfold PAGE_SIZE. zdm.
Qed.

Lemma header_seg_fits L R input ph :
  header_ok input (Some ph) -> ph_is_load ph = Some true -> slots_apart (TRAMPOLINE_vpn :: seg_pages (L ++ header_segment input ph :: R)) ->
  seg_fits L (header_segment input ph) /\ range_items (seg_range (header_segment input ph)) <> [].
Proof.
  intros (ph' & [= <-] & _ & Hok) Hl Hs. destruct (Hok Hl) as (? & ? & ? & ? & ? & ?).
  assert (Hr : range_ok (seg_range (header_segment input ph))) by (unfold range_ok, header_segment, va_range, PAGE_SIZE; cbn [seg_range range_l range_r]; zdm).
  assert (Hlen : Z.of_nat (length (range_items (seg_range (header_segment input ph))))
    = (ph_virtual_addr ph + ph_mem_size ph + 4096 - 1) / 4096 - ph_virtual_addr ph / 4096) by (by rewrite range_ok_length).
  split; [split|].
  - done.
  - unfold header_segment, segment_perm. cbn [seg_perm]. by destruct (ph_is_read ph), (ph_is_write ph), (ph_is_execute ph).
  - intros v. by apply slots_apart_new with (R := R).
  - right. rewrite Hlen. unfold header_segment. cbn [seg_data]. rewrite length_take, length_drop. zdm.
  - intros E. rewrite E in Hlen. cbn in Hlen. zdm.
Qed.

Lemma wp_load_segment s input l h rest ms s1 :
  header_ok input h -> slots_apart (TRAMPOLINE_vpn :: seg_pages (elf_segments input (l ++ [h]) ++ rest)) ->
  elf_inv s (elf_segments input l) ms s1 ->
  (3 + 3 * length (seg_pages (elf_segments input (l ++ [h]))) <= size (free_frames s))%nat ->
  wp (load_segment input (ms, segments_end (elf_segments input l)) h) (fun r s2 =>
    elf_inv s (elf_segments input (l ++ [h])) (fst r) s2 /\ snd r = segments_end (elf_segments input (l ++ [h]))) s1.
Proof.
  intros Hh Hs Hinv Hsize. pose proof Hh as (ph & -> & [b Hb] & Hok). pose proof (grows_size _ _ _ _ _ (ei_grows _ _ _ _ Hinv)) as Hsz.
  rewrite elf_segments_snoc in *. cbn [is_loadable] in *. rewrite Hb in *. unfold load_segment. wp_step. apply wp_ret. wp_step.
  eapply wp_unwrap; [exact Hb|]. destruct b; [|rewrite app_nil_r in *; by wp_step].
  rewrite <-app_assoc in Hs. destruct (header_seg_fits _ _ _ _ Hh Hb Hs) as [Hfit Hne]. destruct (Hok eq_refl) as (? & ? & ? & ? & ? & ?).
  rewrite seg_pages_snoc, length_app in Hsize. rewrite !wrap64_small by lia. wp_step.
  eapply wp_lift; [apply MapArea_new_ok; unfold PAGE_SIZE; lia|]. wp_step. eapply wp_lift; [apply slice_Ok; lia|].
  replace (ph_offset ph + ph_file_size ph - ph_offset ph) with (ph_file_size ph) by lia.
  wp_step. eapply wp_mono; [|apply (wp_push_segment s (elf_segments input l) ms s1 (header_segment input ph)); [done|done|by right|lia]].
  intros ms' s2 Hinv'. wp_step. split; [done|]. cbn [snd]. unfold segments_end. by rewrite last_snoc.
Qed.

(** [from_elf] of a file with room for its segments and three frames to spare for each
    page. *)
Lemma wp_from_elf s parse data elf Q :
  mm_inv s -> parse data = Some elf -> elf_ok elf ->
  (3 + 3 * length (seg_pages (program_segments elf)) <= size (free_frames s))%nat ->
  (forall ms s', elf_inv s (program_segments elf) ms s' ->
     Q (ms, (segments_end (elf_segments (elf_input elf) (elf_headers elf)) + 3) * PAGE_SIZE, elf_entry_point elf) s') ->
  wp (from_elf ld parse data) Q s.
Proof.
  intros Hinv Hparse [Hmagic Hheaders Hslots] Hsize HQ. unfold from_elf.
  pose proof (wp_fork_start ld Hld s Hinv ltac:(lia)) as Hstart. wp_step. apply wp_bind_inv in Hstart. eapply wp_mono, Hstart.
  intros ms1 s1 Hw1. wp_step. eapply wp_mono, Hw1. intros ms2 s2 [Hok2 Hg2 Hc2 Ht2 Hn2]. apply Forall2_nil_inv_l in Hc2 as Hnil.
  wp_step. eapply wp_unwrap; [exact Hparse|]. wp_step. apply wp_assert; [by apply bool_decide_eq_true_2|].
  unfold program_segments in *. set (L := elf_segments (elf_input elf) (elf_headers elf)) in *.
  pose proof (segments_end_bound _ _ Hheaders) as He. fold L in He. set (e := segments_end L) in *.
  wp_step. eapply wp_mono; [|apply (wp_foldM _ (fun l r s' => elf_inv s (elf_segments (elf_input elf) l) (fst r) s' /\
    snd r = segments_end (elf_segments (elf_input elf) l)))].
  - intros [ms me] s3 [Hi3 Hme]. cbn [fst snd] in *. subst me. fold L in Hi3 |- *. fold e.
    rewrite VirtAddr_from_VirtPageNum_small by lia. change USER_STACK_SIZE with 8192. unfold PAGE_SIZE in *. rewrite !wrap64_small by lia.
    wp_step. eapply wp_lift; [apply MapArea_new_ok; unfold PAGE_SIZE; lia|]. fold (va_range (e * 4096 + 4096) (e * 4096 + 4096 + 8192)).
    assert (Hst : va_range (e * 4096 + 4096) (e * 4096 + 4096 + 8192) = seg_range (user_stack_segment e)) by (unfold va_range, PAGE_SIZE; cbn; f_equal; zdm).
    pose proof (grows_size _ _ _ _ _ (ei_grows _ _ _ _ Hi3)) as Hz3. rewrite seg_pages_app, length_app in Hsize. cbn [seg_pages map concat] in Hsize. rewrite !length_app in Hsize.
    wp_step. rewrite Hst. eapply wp_mono; [|apply (wp_push_segment s L ms s3 (user_stack_segment e)); [done| |by left|lia]].
    2: { split; [unfold range_ok; cbn; lia|done| |by left]. intros v. by apply slots_apart_new with (R := [trap_segment]). }
    intros ms4 s4 Hi4. pose proof (grows_size _ _ _ _ _ (ei_grows _ _ _ _ Hi4)) as Hz4. rewrite seg_pages_snoc, length_app in Hz4.
    wp_step. eapply wp_lift; [reflexivity|]. wp_step.
    eapply wp_mono; [|apply (wp_push_segment s (L ++ [user_stack_segment e]) ms4 s4 trap_segment); [done| |by left|lia]].
    2: { split; [unfold range_ok; cbn; lia|done| |by left]. intros v. apply slots_apart_new with (R := []). by rewrite <-app_assoc. }
    intros ms5 s5 Hi5. wp_step. rewrite <-app_assoc in Hi5. replace (e * 4096 + 4096 + 8192) with ((e + 3) * 4096) by lia. by apply HQ.
  - cbn [fst snd]. split; [|done]. split; [done|done|rewrite Hnil; constructor|done|done].
  - intros l h rest [ms me] s3 Hsplit [Hi3 Hme]. cbn [fst snd] in *. subst me.
    assert (HL : L = elf_segments (elf_input elf) (l ++ [h]) ++ elf_segments (elf_input elf) rest).
    { unfold L, elf_segments. rewrite Hsplit. replace (l ++ h :: rest) with ((l ++ [h]) ++ rest) by (by rewrite <-app_assoc). by rewrite omap_app, map_app. }
    rewrite HL, <-app_assoc in Hslots. rewrite HL, <-app_assoc, seg_pages_app, length_app in Hsize.
    eapply wp_load_segment; [|exact Hslots|done|lia]. rewrite Forall_forall in Hheaders. apply Hheaders. rewrite Hsplit. set_solver.
Qed.

(** ** What the program sees *)

(** The byte at a virtual address. *)
Definition user_load (m : mem) (ms : MemorySet) (va : Z) : option Z := m <$> translate_va m (page_table ms) va.

Lemma user_load_area s ms g a i :
  ms_ok s ms -> a ∈ areas ms -> loaded (phys s) g a -> 0 <= i < Z.of_nat (length (range_items (seg_range g))) * PAGE_SIZE ->
  user_load (phys s) ms (range_l (seg_range g) * PAGE_SIZE + i) = Some (default 0 (seg_data g !! Z.to_nat i)).
Proof.
  intros Hms Ha [Hr Hp Hb] Hi. destruct (ms_ok_area _ _ _ Hms Ha) as (Hfa & Hua & _). pose proof (framed_ok_length _ _ _ Hfa) as Hlen. rewrite Hr in Hlen.
  pose proof (fo_range _ _ _ Hfa) as (Hr0 & _). rewrite Hr in Hr0. unfold PAGE_SIZE in *.
  destruct (lookup_lt_is_Some_2 (data_frames a) (Z.to_nat (i / 4096))) as [[v f] Hlook]; [rewrite Hlen; zdm|].
  pose proof (framed_ok_key _ _ _ _ _ _ Hfa Hlook) as Hv. rewrite Hr in Hv.
  destruct (framed_frame _ _ v f (pt_ok_inv _ _ (mo_pt _ _ Hms)) Hua) as [Hf _]; [by eapply list_elem_of_lookup_2|].
  unfold user_load. rewrite (translate_va_in_page _ _ _ (area_pte a f)).
  - cbn. rewrite area_pte_ppn by (done || apply Hfa). f_equal. unfold PAGE_SIZE.
    replace ((range_l (seg_range g) * 4096 + i) mod 4096) with (i mod 4096) by (rewrite Z.add_comm, Z.mod_add; lia).
    rewrite (Hb _ _ _ (i mod 4096) Hlook) by (unfold PAGE_SIZE; apply Z.mod_pos_bound; lia). do 2 f_equal. unfold PAGE_SIZE. zdm.
  - lia.
  - apply mapping_Some_translate. replace (VirtAddr_floor _) with v.
    + apply (fo_map _ _ _ Hfa). by eapply list_elem_of_lookup_2.
    + unfold VirtAddr_floor, PAGE_SIZE. rewrite Hv. zdm.
Qed.

(** C10: [from_elf] of a well-formed file, with three frames to spare for each page, returns
    the entry point of the file and an address space in new frames: the bytes of every
    page-aligned loadable segment are at its virtual addresses, followed by zeros up to its
    size in memory; the two pages below the returned stack pointer are cleared; each area
    has the permission of its segment; the trampoline is mapped and nothing else is; and
    no byte of a frame in use changes. *)
Theorem from_elf_correct s parse data elf :
  mm_inv s -> parse data = Some elf -> elf_ok elf ->
  (3 + 3 * length (seg_pages (program_segments elf)) <= size (free_frames s))%nat ->
  wp (from_elf ld parse data) (fun '(ms, sp, entry) s' =>
    entry = elf_entry_point elf /\ ms_ok s' ms /\
    map (fun a => (vpn_range a, map_perm a)) (areas ms) = map (fun g => (seg_range g, seg_perm g)) (program_segments elf) /\
    (forall ph i, Some ph ∈ elf_headers elf -> ph_is_load ph = Some true -> ph_virtual_addr ph mod PAGE_SIZE = 0 ->
       0 <= i < ph_mem_size ph ->
       user_load (phys s') ms (ph_virtual_addr ph + i) =
         Some (if i <? ph_file_size ph then nth (Z.to_nat (ph_offset ph + i)) (elf_input elf) 0 else 0)) /\
    (forall va, sp - USER_STACK_SIZE <= va < sp -> user_load (phys s') ms va = Some 0) /\
    mapping (phys s') (page_table ms) TRAMPOLINE_vpn = Some (trampoline_pte ld) /\
    (forall v, ~ aliases v (TRAMPOLINE_vpn :: seg_pages (program_segments elf)) -> mapping (phys s') (page_table ms) v = None) /\
    (forall f, f ∈ ms_frames ms -> f ∈ free_frames s) /\
    (forall x, in_use s (x / PAGE_SIZE) -> phys s' x = phys s x)) s.
Proof.
  intros Hinv Hparse Helf Hsize. eapply wp_from_elf; [done..|]. intros ms s' [Hok Hg HL Htr Hnone].
  pose proof (segments_end_bound _ _ (eo_headers _ Helf)) as He. split_and!; [done|done| | | |done|done|apply Hg|].
  - clear -HL. induction HL as [|g a L l [Hr Hp _] _ IH]; [done|]. cbn. by rewrite Hr, Hp, IH.
  - intros ph i Hin Hl Hal Hi. pose proof (eo_headers _ Helf) as Hhs. rewrite Forall_forall in Hhs.
    destruct (Hhs _ Hin) as (ph' & [= <-] & _ & Hok'). destruct (Hok' Hl) as (? & ? & ? & ? & ? & ?). set (g := header_segment (elf_input elf) ph).
    assert (Hg' : g ∈ program_segments elf).
    { apply elem_of_app. left. apply list_elem_of_fmap. exists ph. split; [done|]. apply list_elem_of_omap. exists (Some ph). cbn. by rewrite Hl. }
    apply list_elem_of_lookup in Hg' as [j Hj]. destruct (Forall2_lookup_l _ _ _ _ _ HL Hj) as (a & Ha & Hla).
    assert (Hrl : range_l (seg_range g) * PAGE_SIZE = ph_virtual_addr ph) by (change (range_l (seg_range g)) with (ph_virtual_addr ph / 4096); unfold PAGE_SIZE in *; zdm).
    assert (Hrange : range_ok (seg_range g)) by (rewrite <-(ld_range _ _ _ Hla); apply (ms_ok_area _ _ _ Hok), list_elem_of_lookup_2 with j; done).
    rewrite <-Hrl. rewrite (user_load_area s' ms g a); [|done|by eapply list_elem_of_lookup_2|done|].
    + f_equal. unfold g. cbn [header_segment seg_data]. rewrite lookup_take. destruct (Z.ltb_spec i (ph_file_size ph)).
      * rewrite decide_True, lookup_drop by lia. rewrite (lookup_nth _ _ 0) by lia. cbn. f_equal. lia.
      * by rewrite decide_False by lia.
    + rewrite range_ok_length by done. change (range_l (seg_range g)) with (ph_virtual_addr ph / 4096).
      change (range_r (seg_range g)) with ((ph_virtual_addr ph + ph_mem_size ph + 4096 - 1) / 4096). unfold PAGE_SIZE in *. zdm.
  - intros va Hva. set (e := segments_end _) in *. change USER_STACK_SIZE with 8192 in Hva. unfold PAGE_SIZE in *.
    assert (Hj : program_segments elf !! length (elf_segments (elf_input elf) (elf_headers elf)) = Some (user_stack_segment e)) by (unfold program_segments; by apply list_lookup_middle).
    destruct (Forall2_lookup_l _ _ _ _ _ HL Hj) as (a & Ha & Hla).
    replace va with (range_l (seg_range (user_stack_segment e)) * PAGE_SIZE + (va - (e + 1) * 4096)) by (unfold PAGE_SIZE; cbn; lia).
    rewrite (user_load_area s' ms (user_stack_segment e) a); [done|done|by eapply list_elem_of_lookup_2|done|].
    rewrite range_ok_length by (unfold range_ok; cbn; lia). unfold PAGE_SIZE. cbn. lia.
  - intros x Hx. eapply (grows_keeps_page _ s); try done. apply not_elem_of_nil.
Qed.

End Elf.
