(* ===== verification/Timer.v ===== *)
(** * Time (os5/src/timer.rs)

    The [time] register counts at [CLOCK_FREQ]; the functions take the value read
    from it.  Between the register and a [TimeVal] the kernel divides by the integer
    part of [CLOCK_FREQ / MICRO_PER_SEC], 12 instead of 12.5, so its microseconds run
    fast by one in 24; the theorems state the conversion exactly. *)

From S2P Require Import Prelude Config.

Abbreviation TICKS_PER_SEC := (100) (only parsing).
Abbreviation MICRO_PER_SEC := (1000000) (only parsing).

(** [get_time] is the register itself. *)
Definition get_time (time : Z) : Z := time.
Definition get_time_us (time : Z) : Z := time / (CLOCK_FREQ / MICRO_PER_SEC).
Definition get_time_ms (time : Z) : Z := get_time_us time / 1000.

(** The deadline that [set_next_trigger] gives to the SBI timer. *)
Definition set_next_trigger (time : Z) : Z := get_time time +% CLOCK_FREQ / TICKS_PER_SEC.

(** A [TimeVal] (syscall/process.rs) and how [sys_get_time] fills it. *)
Record TimeVal : Type := mk_tv { sec : Z; usec : Z }.
Definition time_val (us : Z) : TimeVal := mk_tv (us / 1000000) (us mod 1000000).

Lemma get_time_us_div time : get_time_us time = time / 12.
Proof. reflexivity. Qed.

(** The time of [sys_get_time]: seconds and microseconds put together are the
    kernel's microseconds, the microseconds are below a million, time is monotone,
    and after [n] seconds of the 12.5 MHz clock the kernel reports [n] seconds and
    [n/24] more: the reported time exceeds the elapsed time by one part in 24. *)
Theorem time_val_spec time time' :
  0 <= time <= time' ->
  let tv := time_val (get_time_us time) in
  let tv' := time_val (get_time_us time') in
  sec tv * 1000000 + usec tv = get_time_us time /\ 0 <= usec tv < 1000000 /\
  (sec tv < sec tv' \/ sec tv = sec tv' /\ usec tv <= usec tv') /\
  (forall n, time = n * CLOCK_FREQ ->
     24 * get_time_us time <= n * 25 * MICRO_PER_SEC < 24 * get_time_us time + 24).
Proof.
  intros Ht. cbn [time_val sec usec]. rewrite !get_time_us_div.
  split_and!; [zdm|zdm|zdm| |]; intros; zdm.
Qed.

Lemma time_val_spec_witness :
  let tv := time_val (get_time_us 12500000) in
  sec tv * 1000000 + usec tv = get_time_us 12500000 /\ sec tv = 1 /\ usec tv = 41666.
Proof.
  refine (conj (proj1 (time_val_spec 12500000 12500001 _)) (conj eq_refl eq_refl)). lia.
Defined.
