(* ===== verification/Pid.v ===== *)
(** * Process identifiers and kernel stacks (os5/src/task/pid.rs)

    The pid allocator and the placement of kernel stacks.  Live pids are distinct, and
    distinct pids have disjoint kernel stacks with an unmapped page between them. *)

From S2P Require Import Prelude Config.

(** ** The allocator *)

Record PidAllocator : Type := mk_pids { pid_current : Z; pid_recycled : list Z }.

Definition pids_new : PidAllocator := mk_pids 0 [].

Definition pids_alloc (a : PidAllocator) : Z * PidAllocator :=
  match vec_pop (pid_recycled a) with
  | (Some pid, rest) => (pid, mk_pids (pid_current a) rest)
  | (None, _) =>
      let current := pid_current a +% 1 in
      (current -% 1, mk_pids current (pid_recycled a))
  end.

Definition pids_dealloc (a : PidAllocator) (pid : Z) : outcome PidAllocator :=
  if pid <? pid_current a then
    if existsb (fun ppid => ppid =? pid) (pid_recycled a) then Panic AssertFailed
    else Ok (mk_pids (pid_current a) (vec_push (pid_recycled a) pid))
  else Panic AssertFailed.

(** ** Kernel stacks *)

(** Bottom and top of the kernel stack of a pid. *)
Definition kernel_stack_position (app_id : Z) : Z * Z :=
  let top := TRAMPOLINE -% (app_id *% (KERNEL_STACK_SIZE +% PAGE_SIZE)) in
  let bottom := top -% KERNEL_STACK_SIZE in
  (bottom, top).

(** ** Pids *)

(** [live] are the pids handed out and not given back. *)
Record pids_ok (a : PidAllocator) (live : list Z) : Prop := {
  po_nodup : NoDup (pid_recycled a ++ live);
  po_range pid : pid ∈ pid_recycled a ++ live <-> 0 <= pid < pid_current a;
  po_current : 0 <= pid_current a
}.

Lemma pids_ok_new : pids_ok pids_new [].
Proof. split; cbn; [apply NoDup_nil_2| |done]. intros pid. rewrite elem_of_nil. lia. Qed.

Lemma pids_ok_alloc a live pid a' :
  pids_ok a live -> pid_current a < 2 ^ 64 - 1 -> pids_alloc a = (pid, a') ->
  pids_ok a' (pid :: live) /\ (pid ∉ live) /\ pid_current a' <= pid_current a + 1.
Proof.
  intros [Hnd Hr Hc] Hlt. unfold pids_alloc. destruct a as [c r]; cbn [pid_current pid_recycled] in *.
  destruct (vec_cases r) as [->|(r' & p & ->)].
  - rewrite vec_pop_nil. intros [= <- <-]. rewrite (wrap64_small (c + 1)), wrap64_small by lia.
    replace (c + 1 - 1) with c by lia. cbn in *.
    assert (c ∉ live) by (rewrite Hr; lia). split_and!; [|done|lia]. split; cbn; [|intros pid|lia].
    + by apply NoDup_cons.
    + rewrite elem_of_cons, Hr. lia.
  - rewrite vec_pop_push. intros [= <- <-]. cbn [pid_current pid_recycled].
    unfold vec_push in *. rewrite <-app_assoc in *. cbn [app] in *.
    assert (p ∉ live). { apply NoDup_app in Hnd as (_ & _ & Hnd). by apply NoDup_cons in Hnd as [? _]. }
    split_and!; [|done|lia]. by split.
Qed.

Lemma pids_ok_dealloc a live pid :
  pids_ok a (pid :: live) ->
  exists a', pids_dealloc a pid = Ok a' /\ pids_ok a' live /\ pid_current a' = pid_current a.
Proof.
  intros [Hnd Hr Hc]. unfold pids_dealloc. assert (Hp : 0 <= pid < pid_current a).
  { apply Hr, elem_of_app. right. by left. }
  destruct (Z.ltb_spec pid (pid_current a)); [|lia].
  destruct (existsb _ (pid_recycled a)) eqn:E.
  - apply existsb_exists in E as (x & Hx & ->%Z.eqb_eq). apply list_elem_of_In in Hx.
    apply NoDup_app in Hnd as (_ & Hd & _). exfalso. apply (Hd _ Hx). by left.
  - eexists. split; [done|]. unfold vec_push. split; [|done].
    split; cbn [pid_current pid_recycled]; rewrite <-?app_assoc; done.
Qed.

#[export] Instance pids_ok_Proper a : Proper ((≡ₚ) ==> iff) (pids_ok a).
Proof.
  assert (Himp : forall l l', l ≡ₚ l' -> pids_ok a l -> pids_ok a l').
  { intros l l' Hp [Hnd Hr Hc]. split; [by rewrite <-Hp| |done]. intros pid. by rewrite <-Hp. }
  intros l l' Hp. split; apply Himp; [done|]. by symmetry.
Qed.

(** A history: allocate a pid, or drop the [i]-th of the live ones. *)
Inductive pid_op : Type := PAlloc | PDrop (i : nat).

Definition pid_step (st : PidAllocator * list Z) (op : pid_op) : outcome (PidAllocator * list Z) :=
  let '(a, live) := st in
  match op with
  | PAlloc => let '(pid, a') := pids_alloc a in Ok (a', pid :: live)
  | PDrop i =>
      match live !! i with
      | Some pid =>
          match pids_dealloc a pid with
          | Ok a' => Ok (a', delete i live)
          | Panic r => Panic r
          end
      | None => Ok st
      end
  end.

Fixpoint pid_run (st : PidAllocator * list Z) (ops : list pid_op) : outcome (PidAllocator * list Z) :=
  match ops with
  | [] => Ok st
  | op :: rest =>
      match pid_step st op with
      | Ok st' => pid_run st' rest
      | Panic r => Panic r
      end
  end.

Lemma pid_step_ok a live op :
  pids_ok a live -> pid_current a < 2 ^ 64 - 1 -> exists a' live',
    pid_step (a, live) op = Ok (a', live') /\ pids_ok a' live' /\ pid_current a' <= pid_current a + 1.
Proof.
  intros Hok Hlt. destruct op as [|i]; cbn [pid_step].
  - destruct (pids_alloc a) as [pid a'] eqn:E.
    destruct (pids_ok_alloc _ _ _ _ Hok Hlt E) as (? & _ & ?). by exists a', (pid :: live).
  - destruct (live !! i) as [pid|] eqn:Hi; [|exists a, live; split; [done|split; [done|lia]]].
    rewrite (delete_Permutation _ _ _ Hi) in Hok.
    destruct (pids_ok_dealloc _ _ _ Hok) as (a' & -> & ? & ?). exists a', (delete i live).
    split_and!; [done..|lia].
Qed.

(** Over every history of fewer than 2^64 - 1 allocations and drops, the pid
    allocator never panics, the live pids are distinct, they and the recycled ones
    are exactly the pids below [current], and none is both live and recycled. *)
Theorem pids_distinct ops :
  Z.of_nat (length ops) < 2 ^ 64 - 1 ->
  exists a live, pid_run (pids_new, []) ops = Ok (a, live) /\ pids_ok a live.
Proof.
  intros Hlen.
  assert (Hgen : forall ops a live, pids_ok a live ->
    pid_current a + Z.of_nat (length ops) < 2 ^ 64 - 1 ->
    exists a' live', pid_run (a, live) ops = Ok (a', live') /\ pids_ok a' live').
  { clear ops Hlen. induction ops as [|op ops IH]; intros a live Hok Hlt; [by exists a, live|].
    cbn [length pid_run] in *.
    destruct (pid_step_ok a live op Hok) as (a1 & live1 & -> & Hok1 & Hc1); [lia|].
    apply IH; [done|lia]. }
  apply Hgen; [apply pids_ok_new|]. cbn. lia.
Qed.

Lemma pids_distinct_witness :
  exists a live, pid_run (pids_new, []) [PAlloc; PAlloc; PDrop 1; PAlloc; PAlloc] = Ok (a, live) /\
    pids_ok a live.
Proof. apply (pids_distinct [PAlloc; PAlloc; PDrop 1; PAlloc; PAlloc]). cbn. lia. Defined.

(** ** Kernel stacks *)

Lemma kernel_stack_position_eq pid :
  0 <= pid -> (pid + 1) * 86016 <= TRAMPOLINE ->
  kernel_stack_position pid = (TRAMPOLINE - pid * 86016 - 81920, TRAMPOLINE - pid * 86016).
Proof.
  rewrite TRAMPOLINE_val. intros H0 H1. unfold kernel_stack_position.
  change (KERNEL_STACK_SIZE +% PAGE_SIZE) with 86016. change KERNEL_STACK_SIZE with 81920.
  rewrite TRAMPOLINE_val, (wrap64_small (pid * 86016)) by lia.
  rewrite (wrap64_small (2 ^ 64 - 4096 - pid * 86016)) by lia.
  by rewrite wrap64_small by lia.
Qed.

(** The kernel stacks of two pids below 2^46 are page-aligned, [KERNEL_STACK_SIZE]
    long, disjoint, and separated by at least one page that belongs to neither; the
    stack of pid 0 ends where the trampoline page begins. *)
Theorem kernel_stacks_disjoint p q :
  0 <= p < q -> q < 2 ^ 46 ->
  let '(bottom_p, top_p) := kernel_stack_position p in
  let '(bottom_q, top_q) := kernel_stack_position q in
  0 <= bottom_q /\ top_q + PAGE_SIZE <= bottom_p /\ top_p <= TRAMPOLINE /\
  top_p - bottom_p = KERNEL_STACK_SIZE /\ top_q - bottom_q = KERNEL_STACK_SIZE /\
  bottom_p mod PAGE_SIZE = 0 /\ bottom_q mod PAGE_SIZE = 0.
Proof.
  intros Hpq Hq. assert (H48 : (q + 1) * 86016 <= TRAMPOLINE) by (rewrite TRAMPOLINE_val; lia).
  rewrite !kernel_stack_position_eq by lia. rewrite TRAMPOLINE_val in *.
  unfold PAGE_SIZE. change KERNEL_STACK_SIZE with 81920. split_and!; try lia; zdm.
Qed.

Lemma kernel_stacks_disjoint_witness :
  fst (kernel_stack_position 0) = TRAMPOLINE - 81920 /\
  let '(bottom_p, top_p) := kernel_stack_position 0 in
  let '(bottom_q, top_q) := kernel_stack_position 7 in
  0 <= bottom_q /\ top_q + PAGE_SIZE <= bottom_p /\ top_p <= TRAMPOLINE /\
  top_p - bottom_p = KERNEL_STACK_SIZE /\ top_q - bottom_q = KERNEL_STACK_SIZE /\
  bottom_p mod PAGE_SIZE = 0 /\ bottom_q mod PAGE_SIZE = 0.
Proof. split; [reflexivity|]. apply (kernel_stacks_disjoint 0 7); lia. Defined.
