(* ===== verification/Utf8.v ===== *)
(** * Strings

    [core::str::from_utf8] and [str::chars] as the kernel uses them: a byte list is a
    string when it is well-formed UTF-8, and its characters are the code points. *)

From S2P Require Import Prelude.

Definition is_cont (b : Z) : bool := (128 <=? b) && (b <? 192).
Definition in_range (lo b hi : Z) : bool := (lo <=? b) && (b <=? hi).

(** The first character of a byte list, and the bytes after it. *)
Definition next_char (bs : list Z) : option (Z * list Z) :=
  match bs with
  | [] => None
  | b0 :: r0 =>
      if b0 <? 128 then Some (b0, r0)
      else match r0 with
      | [] => None
      | b1 :: r1 =>
          if in_range 194 b0 223 && is_cont b1 then
            Some ((b0 - 192) * 64 + (b1 - 128), r1)
          else match r1 with
          | [] => None
          | b2 :: r2 =>
              if ((b0 =? 224) && in_range 160 b1 191
                  || (in_range 225 b0 236 || in_range 238 b0 239) && is_cont b1
                  || (b0 =? 237) && in_range 128 b1 159) && is_cont b2 then
                Some ((b0 - 224) * 4096 + (b1 - 128) * 64 + (b2 - 128), r2)
              else match r2 with
              | [] => None
              | b3 :: r3 =>
                  if ((b0 =? 240) && in_range 144 b1 191
                      || in_range 241 b0 243 && is_cont b1
                      || (b0 =? 244) && in_range 128 b1 143) && is_cont b2 && is_cont b3 then
                    Some ((b0 - 240) * 262144 + (b1 - 128) * 4096 + (b2 - 128) * 64 + (b3 - 128), r3)
                  else None
              end
          end
      end
  end.

Fixpoint chars_loop (fuel : nat) (bs : list Z) : option (list Z) :=
  match bs, fuel with
  | [], _ => Some []
  | _, O => None
  | _, S fuel' =>
      match next_char bs with
      | Some (c, rest) =>
          match chars_loop fuel' rest with
          | Some cs => Some (c :: cs)
          | None => None
          end
      | None => None
      end
  end.

(** The characters of a byte list, or [None] when it is not UTF-8; every character
    takes at least a byte, so the length is enough fuel. *)
Definition from_utf8 (bs : list Z) : option (list Z) := chars_loop (length bs) bs.
