(* ===== verification/Kernel.v ===== *)
(** * The kernel's global state

    Task control blocks (os5/src/task/task.rs, context.rs; os5/src/trap/context.rs), the
    statics of the kernel ([FRAME_ALLOCATOR], [KERNEL_SPACE], [PID_ALLOCATOR],
    [TASK_MANAGER], [PROCESSOR], [INITPROC]) and [UPSafeCell] (os5/src/sync/up.rs).

    An [Arc<TaskControlBlock>] is a key of the heap [tasks]; two clones of it are the
    same key.  A guard of [exclusive_access] is a scope, [with_cell]: entering the scope
    of a cell that is already open panics, as [RefCell::borrow_mut] does.  Hardware and
    firmware (clock, console, the linker's addresses) are the record [Platform]. *)

From S2P Require Import Prelude Config Address PhysMem FrameAllocator PageTable MemorySet Timer Pid.

(** ** Task control blocks *)

Inductive TaskStatus : Type := UnInit | Ready | Running | Zombie.

#[export] Instance TaskStatus_eq_dec : EqDecision TaskStatus.
Proof. solve_decision. Defined.

Record TaskContext : Type := mk_tcx { tcx_ra : Z; tcx_sp : Z; tcx_s : list Z }.
Definition zero_init : TaskContext := mk_tcx 0 0 (repeat 0 12).
Definition goto_trap_return (trap_return kstack_ptr : Z) : TaskContext :=
  mk_tcx trap_return kstack_ptr (repeat 0 12).

Record TrapContext : Type := mk_trap_cx {
  tc_x : list Z;
  tc_sstatus : Z;
  tc_sepc : Z;
  tc_kernel_satp : Z;
  tc_kernel_sp : Z;
  tc_trap_handler : Z
}.

(** [Sstatus::set_spp(SPP::User)] clears bit 8. *)
Definition set_spp_user (sstatus : Z) : Z := Z.clearbit sstatus 8.
Definition set_sp (cx : TrapContext) (sp : Z) : TrapContext :=
  mk_trap_cx (<[2%nat := sp]> (tc_x cx)) (tc_sstatus cx) (tc_sepc cx) (tc_kernel_satp cx)
    (tc_kernel_sp cx) (tc_trap_handler cx).
Definition app_init_context (sstatus entry sp kernel_satp kernel_sp trap_handler : Z) : TrapContext :=
  set_sp (mk_trap_cx (repeat 0 32) (set_spp_user sstatus) entry kernel_satp kernel_sp trap_handler) sp.

(** The words of a [TrapContext] in memory ([repr(C)]: x0 to x31, sstatus, sepc,
    kernel_satp, kernel_sp, trap_handler), and writing them at an address. *)
Definition trap_cx_words (cx : TrapContext) : list Z :=
  tc_x cx ++ [tc_sstatus cx; tc_sepc cx; tc_kernel_satp cx; tc_kernel_sp cx; tc_trap_handler cx].
Fixpoint store_words (m : mem) (a : Z) (ws : list Z) : mem :=
  match ws with
  | [] => m
  | w :: ws' => store_words (store64 m a w) (a + 8) ws'
  end.
Definition cx_word (cx : Z) (i : Z) : Z := cx + 8 * i.
Definition CX_A0 : Z := 10.
Definition CX_SEPC : Z := 33.
Definition CX_KERNEL_SP : Z := 35.

(** Where the kernel stack of a task that is not running stands: the call that the
    [__switch] in [schedule] returns to.  A new task goes to [trap_return]; a task that
    was suspended is in [sys_yield], in the timer case of [trap_handler], or in the
    loop of [sys_read] with its buffer. *)
Inductive resume : Type :=
| ToTrapReturn
| InYield
| InTimer
| InRead (buf len : Z).

Record TaskControlBlockInner : Type := mk_inner {
  trap_cx_ppn : Z;
  base_size : Z;
  task_cx : TaskContext;
  task_status : TaskStatus;
  memory_set : MemorySet;
  parent : option Z;
  children : list Z;
  exit_code : Z;
  pass : Z;
  priority : Z;
  syscall_times : list Z;
  start_time : option Z;
  kstack : resume
}.

Record TaskControlBlock : Type := mk_tcb { pid : Z; kernel_stack : Z; inner : TaskControlBlockInner }.

(** The address of the trap context of a task ([get_trap_cx]). *)
Definition get_trap_cx (t : TaskControlBlockInner) : Z := page_base (trap_cx_ppn t).
Definition get_user_token (t : TaskControlBlockInner) : Z := MemorySet_token (memory_set t).
Definition is_zombie (t : TaskControlBlockInner) : bool := bool_decide (task_status t = Zombie).

(** ** Field updates *)

Definition set_status (v : TaskStatus) (t : TaskControlBlockInner) : TaskControlBlockInner :=
  mk_inner (trap_cx_ppn t) (base_size t) (task_cx t) v (memory_set t) (parent t) (children t)
    (exit_code t) (pass t) (priority t) (syscall_times t) (start_time t) (kstack t).
Definition set_memory_set (v : MemorySet) (t : TaskControlBlockInner) : TaskControlBlockInner :=
  mk_inner (trap_cx_ppn t) (base_size t) (task_cx t) (task_status t) v (parent t) (children t)
    (exit_code t) (pass t) (priority t) (syscall_times t) (start_time t) (kstack t).
Definition set_trap_cx_ppn (v : Z) (t : TaskControlBlockInner) : TaskControlBlockInner :=
  mk_inner v (base_size t) (task_cx t) (task_status t) (memory_set t) (parent t) (children t)
    (exit_code t) (pass t) (priority t) (syscall_times t) (start_time t) (kstack t).
Definition set_parent (v : option Z) (t : TaskControlBlockInner) : TaskControlBlockInner :=
  mk_inner (trap_cx_ppn t) (base_size t) (task_cx t) (task_status t) (memory_set t) v (children t)
    (exit_code t) (pass t) (priority t) (syscall_times t) (start_time t) (kstack t).
Definition set_children (v : list Z) (t : TaskControlBlockInner) : TaskControlBlockInner :=
  mk_inner (trap_cx_ppn t) (base_size t) (task_cx t) (task_status t) (memory_set t) (parent t) v
    (exit_code t) (pass t) (priority t) (syscall_times t) (start_time t) (kstack t).
Definition set_exit_code (v : Z) (t : TaskControlBlockInner) : TaskControlBlockInner :=
  mk_inner (trap_cx_ppn t) (base_size t) (task_cx t) (task_status t) (memory_set t) (parent t)
    (children t) v (pass t) (priority t) (syscall_times t) (start_time t) (kstack t).
Definition set_pass (v : Z) (t : TaskControlBlockInner) : TaskControlBlockInner :=
  mk_inner (trap_cx_ppn t) (base_size t) (task_cx t) (task_status t) (memory_set t) (parent t)
    (children t) (exit_code t) v (priority t) (syscall_times t) (start_time t) (kstack t).
Definition set_priority (v : Z) (t : TaskControlBlockInner) : TaskControlBlockInner :=
  mk_inner (trap_cx_ppn t) (base_size t) (task_cx t) (task_status t) (memory_set t) (parent t)
    (children t) (exit_code t) (pass t) v (syscall_times t) (start_time t) (kstack t).
Definition set_syscall_times (v : list Z) (t : TaskControlBlockInner) : TaskControlBlockInner :=
  mk_inner (trap_cx_ppn t) (base_size t) (task_cx t) (task_status t) (memory_set t) (parent t)
    (children t) (exit_code t) (pass t) (priority t) v (start_time t) (kstack t).
Definition set_start_time (v : option Z) (t : TaskControlBlockInner) : TaskControlBlockInner :=
  mk_inner (trap_cx_ppn t) (base_size t) (task_cx t) (task_status t) (memory_set t) (parent t)
    (children t) (exit_code t) (pass t) (priority t) (syscall_times t) v (kstack t).
Definition set_kstack (v : resume) (t : TaskControlBlockInner) : TaskControlBlockInner :=
  mk_inner (trap_cx_ppn t) (base_size t) (task_cx t) (task_status t) (memory_set t) (parent t)
    (children t) (exit_code t) (pass t) (priority t) (syscall_times t) (start_time t) v.

(** ** Hardware, firmware and linker *)

Record Platform : Type := {
  linker : linker_symbols;
  sbss : Z;
  parse_elf : list Z -> option ElfFile;
  (** the [n]-th read of the [time] register and of the SBI console *)
  time_at : nat -> Z;
  char_at : nat -> Z;
  sstatus_value : Z;
  trap_return_addr : Z;
  trap_handler_addr : Z;
  (** the tables of [link_app.S] *)
  num_app_addr : Z;
  app_names_addr : Z;
  (** the compiler's layout of [TaskInfo], which has no [repr]: the offset of each
      field *)
  ti_status : Z;
  ti_times : Z;
  ti_time : Z;
  (** how many bytes [translated_str] may read before the model gives up *)
  str_fuel : nat
}.

(** ** The statics *)

(** The cells that [exclusive_access] guards. *)
Inductive cell : Type :=
| CellProcessor
| CellManager
| CellKernelSpace
| CellPids
| CellTask (id : Z).

#[export] Instance cell_eq_dec : EqDecision cell.
Proof. solve_decision. Defined.

Record Kernel (T : Type) : Type := mk_kernel {
  mm : MmState T;
  kernel_space : MemorySet;
  pid_allocator : PidAllocator;
  tasks : gmap Z TaskControlBlock;
  next_task : Z;
  ready_queue : list Z;
  current : option Z;
  initproc : option Z;
  borrowed : list cell;
  time_reads : nat;
  char_reads : nat;
  timer : option Z;
  console : list Z
}.
Arguments mk_kernel {T}.
Arguments mm {T}.
Arguments kernel_space {T}.
Arguments pid_allocator {T}.
Arguments tasks {T}.
Arguments next_task {T}.
Arguments ready_queue {T}.
Arguments current {T}.
Arguments initproc {T}.
Arguments borrowed {T}.
Arguments time_reads {T}.
Arguments char_reads {T}.
Arguments timer {T}.
Arguments console {T}.

Section Kernel.
Context {T : Type}.
Implicit Types k : Kernel T.

Definition set_mm (v : MmState T) k : Kernel T :=
  mk_kernel v (kernel_space k) (pid_allocator k) (tasks k) (next_task k) (ready_queue k) (current k)
    (initproc k) (borrowed k) (time_reads k) (char_reads k) (timer k) (console k).
Definition set_kernel_space (v : MemorySet) k : Kernel T :=
  mk_kernel (mm k) v (pid_allocator k) (tasks k) (next_task k) (ready_queue k) (current k)
    (initproc k) (borrowed k) (time_reads k) (char_reads k) (timer k) (console k).
Definition set_pid_allocator (v : PidAllocator) k : Kernel T :=
  mk_kernel (mm k) (kernel_space k) v (tasks k) (next_task k) (ready_queue k) (current k)
    (initproc k) (borrowed k) (time_reads k) (char_reads k) (timer k) (console k).
Definition set_tasks (v : gmap Z TaskControlBlock) k : Kernel T :=
  mk_kernel (mm k) (kernel_space k) (pid_allocator k) v (next_task k) (ready_queue k) (current k)
    (initproc k) (borrowed k) (time_reads k) (char_reads k) (timer k) (console k).
Definition set_next_task (v : Z) k : Kernel T :=
  mk_kernel (mm k) (kernel_space k) (pid_allocator k) (tasks k) v (ready_queue k) (current k)
    (initproc k) (borrowed k) (time_reads k) (char_reads k) (timer k) (console k).
Definition set_ready_queue (v : list Z) k : Kernel T :=
  mk_kernel (mm k) (kernel_space k) (pid_allocator k) (tasks k) (next_task k) v (current k)
    (initproc k) (borrowed k) (time_reads k) (char_reads k) (timer k) (console k).
Definition set_current (v : option Z) k : Kernel T :=
  mk_kernel (mm k) (kernel_space k) (pid_allocator k) (tasks k) (next_task k) (ready_queue k) v
    (initproc k) (borrowed k) (time_reads k) (char_reads k) (timer k) (console k).
Definition set_initproc (v : option Z) k : Kernel T :=
  mk_kernel (mm k) (kernel_space k) (pid_allocator k) (tasks k) (next_task k) (ready_queue k)
    (current k) v (borrowed k) (time_reads k) (char_reads k) (timer k) (console k).
Definition set_borrowed (v : list cell) k : Kernel T :=
  mk_kernel (mm k) (kernel_space k) (pid_allocator k) (tasks k) (next_task k) (ready_queue k)
    (current k) (initproc k) v (time_reads k) (char_reads k) (timer k) (console k).
Definition set_time_reads (v : nat) k : Kernel T :=
  mk_kernel (mm k) (kernel_space k) (pid_allocator k) (tasks k) (next_task k) (ready_queue k)
    (current k) (initproc k) (borrowed k) v (char_reads k) (timer k) (console k).
Definition set_char_reads (v : nat) k : Kernel T :=
  mk_kernel (mm k) (kernel_space k) (pid_allocator k) (tasks k) (next_task k) (ready_queue k)
    (current k) (initproc k) (borrowed k) (time_reads k) v (timer k) (console k).
Definition set_timer_ (v : option Z) k : Kernel T :=
  mk_kernel (mm k) (kernel_space k) (pid_allocator k) (tasks k) (next_task k) (ready_queue k)
    (current k) (initproc k) (borrowed k) (time_reads k) (char_reads k) v (console k).
Definition set_console (v : list Z) k : Kernel T :=
  mk_kernel (mm k) (kernel_space k) (pid_allocator k) (tasks k) (next_task k) (ready_queue k)
    (current k) (initproc k) (borrowed k) (time_reads k) (char_reads k) (timer k) v.

(** ** Access *)

(** The scope of a guard of [UPSafeCell::exclusive_access]. *)
Definition with_cell {A} (c : cell) (m : M (Kernel T) A) : M (Kernel T) A :=
  fun k =>
    if decide (c ∈ borrowed k) then Panic AlreadyBorrowed
    else match m (set_borrowed (c :: borrowed k) k) with
         | Ok (a, k') => Ok (a, set_borrowed (borrowed k) k')
         | Panic r => Panic r
         end.

(** Memory-management code inside the kernel. *)
Definition in_mm {A} (m : M (MmState T) A) : M (Kernel T) A := zoom mm set_mm m.

(** The fields of a task. *)
Definition task_of (id : Z) : M (Kernel T) TaskControlBlock :=
  let* k := get in unwrap (tasks k !! id).
Definition inner_of (id : Z) : M (Kernel T) TaskControlBlockInner :=
  let* t := task_of id in ret (inner t).
Definition update_inner (id : Z) (f : TaskControlBlockInner -> TaskControlBlockInner)
    : M (Kernel T) unit :=
  let* t := task_of id in
  modify (fun k => set_tasks (<[id := mk_tcb (pid t) (kernel_stack t) (f (inner t))]> (tasks k)) k).

(** [Arc::new] *)
Definition new_task (t : TaskControlBlock) : M (Kernel T) Z :=
  let* k := get in
  modify (fun k => set_next_task (next_task k + 1) (set_tasks (<[next_task k := t]> (tasks k)) k)) ;;
  ret (next_task k).

(** The strong references to a task that the kernel's structures hold. *)
Definition count_in (id : Z) (l : list Z) : nat := length (filter (fun x => x = id) l).
Definition strong_refs k (id : Z) : nat :=
  (count_in id (ready_queue k)
   + (if decide (current k = Some id) then 1 else 0)
   + (if decide (initproc k = Some id) then 1 else 0)
   + map_fold (fun _ t n => count_in id (children (inner t)) + n) 0 (tasks k))%nat.

(** Reading the clock and the console. *)
Definition read_time (pf : Platform) : M (Kernel T) Z :=
  let* k := get in
  modify (set_time_reads (S (time_reads k))) ;;
  ret (time_at pf (time_reads k)).
Definition console_getchar (pf : Platform) : M (Kernel T) Z :=
  let* k := get in
  modify (set_char_reads (S (char_reads k))) ;;
  ret (char_at pf (char_reads k)).
Definition console_putchar (c : Z) : M (Kernel T) unit :=
  modify (fun k => set_console (console k ++ [c]) k).

(** Reading and writing memory. *)
Definition mem_of : M (Kernel T) mem := gets (fun k => phys (mm k)).
Definition update_mem (f : mem -> mem) : M (Kernel T) unit :=
  modify (fun k => set_mm (set_phys (f (phys (mm k))) (mm k)) k).

End Kernel.
