(* ===== verification/Manager.v ===== *)
(** * The ready queue (os5/src/task/manager.rs)

    A stride scheduler: [fetch] takes the first task with the least [pass] and
    advances its [pass] by [BIG_STRIDE / priority]. *)

From S2P Require Import Prelude Config PageTable Pid Kernel.

Section Manager.
Context {T : Type}.

(** [TaskManager::new]: the queue of a kernel that has just started. *)
Definition manager_new : list Z := [].

Definition add (task : Z) : M (Kernel T) unit :=
  modify (fun k => set_ready_queue (ready_queue k ++ [task]) k).

(** One comparison of the search: both tasks are borrowed while their passes are
    compared. *)
Definition fetch_round (queue : list Z) (task_pos : nat) (entry : nat * Z) : M (Kernel T) nat :=
  let '(idx, task) := entry in
  match queue !! task_pos with
  | None => panic OutOfRange
  | Some best =>
      with_cell (CellTask best) (
        let* b := inner_of best in
        with_cell (CellTask task) (
          let* t := inner_of task in
          ret (if pass t <? pass b then idx else task_pos)))
  end.

Definition fetch : M (Kernel T) (option Z) :=
  let* queue := gets ready_queue in
  match queue with
  | [] => ret None
  | _ :: _ =>
      let* task_pos := foldM (fetch_round queue) (drop 1 (enumerate queue)) 0%nat in
      let* task := unwrap (queue !! task_pos) in
      modify (set_ready_queue (delete task_pos queue)) ;;
      with_cell (CellTask task) (
        let* t := inner_of task in
        (if priority t =? 0 then panic DivByZero else ret tt) ;;
        update_inner task (fun t => set_pass (pass t +% BIG_STRIDE / priority t) t)) ;;
      ret (Some task)
  end.

Definition add_task (task : Z) : M (Kernel T) unit := with_cell CellManager (add task).
Definition fetch_task : M (Kernel T) (option Z) := with_cell CellManager fetch.

End Manager.
