(* ===== verification/Task.v ===== *)
(** * Processes (os5/src/task/task.rs, kernel stacks of pid.rs)

    Kernel stacks in the kernel's address space, and the creation, replacement,
    duplication and destruction of processes. *)

From S2P Require Import Prelude Config Address PhysMem FrameAllocator PageTable MemorySet Timer Pid.
From S2P Require Import Kernel.

Section Task.
Context {T : Type} `{FrameAllocator T}.
Context (pf : Platform).

(** ** Pids and kernel stacks *)

Definition pid_alloc : M (Kernel T) Z :=
  with_cell CellPids (
    let* a := gets pid_allocator in
    let '(p, a') := pids_alloc a in
    modify (set_pid_allocator a') ;;
    ret p).

(** [Drop for PidHandle] *)
Definition pid_drop (p : Z) : M (Kernel T) unit :=
  with_cell CellPids (
    let* a := gets pid_allocator in
    let* a' := lift (pids_dealloc a p) in
    modify (set_pid_allocator a')).

Definition KernelStack_new (p : Z) : M (Kernel T) Z :=
  let '(bottom, top) := kernel_stack_position p in
  with_cell CellKernelSpace (
    let* ks := gets kernel_space in
    let* ks' := in_mm (insert_framed_area ks bottom top (Z.lor MP_R MP_W)) in
    modify (set_kernel_space ks')) ;;
  ret p.

Definition get_top (stack : Z) : Z := snd (kernel_stack_position stack).

(** [Drop for KernelStack] *)
Definition KernelStack_drop (stack : Z) : M (Kernel T) unit :=
  let '(bottom, _) := kernel_stack_position stack in
  let* start_vpn := lift (VirtPageNum_from_VirtAddr bottom) in
  with_cell CellKernelSpace (
    let* ks := gets kernel_space in
    let* ks' := in_mm (remove_area_with_start_vpn ks start_vpn) in
    modify (set_kernel_space ks')).

Definition kernel_token : M (Kernel T) Z :=
  with_cell CellKernelSpace (gets (fun k => MemorySet_token (kernel_space k))).

(** ** Trap contexts *)

(** The frame that an address space maps at [TRAP_CONTEXT]. *)
Definition find_trap_cx (ms : MemorySet) : M (Kernel T) Z :=
  let* vpn := lift (VirtPageNum_from_VirtAddr TRAP_CONTEXT) in
  let* m := mem_of in
  let* bits := unwrap (MemorySet_translate m ms vpn) in
  ret (pte_ppn bits).

(** [*trap_cx = TrapContext::app_init_context(...)] *)
Definition write_init_context (cx entry_point user_sp kernel_sp : Z) : M (Kernel T) unit :=
  let* satp := kernel_token in
  update_mem (fun m => store_words m cx (trap_cx_words
    (app_init_context (sstatus_value pf) entry_point user_sp satp kernel_sp (trap_handler_addr pf)))).

(** ** Processes *)

(** [TaskControlBlock::new] *)
Definition TaskControlBlock_new (elf_data : list Z) : M (Kernel T) TaskControlBlock :=
  let* (ms, user_sp, entry_point) := in_mm (from_elf (linker pf) (parse_elf pf) elf_data) in
  let* cx_ppn := find_trap_cx ms in
  let* pid_handle := pid_alloc in
  let* stack := KernelStack_new pid_handle in
  let kernel_stack_top := get_top stack in
  let t := {| trap_cx_ppn := cx_ppn; base_size := user_sp;
              task_cx := goto_trap_return (trap_return_addr pf) kernel_stack_top;
              task_status := Ready; memory_set := ms; parent := None; children := [];
              exit_code := 0; pass := 0; priority := 16;
              syscall_times := repeat 0 (Z.to_nat MAX_SYSCALL_NUM); start_time := None;
              kstack := ToTrapReturn |} in
  write_init_context (get_trap_cx t) entry_point user_sp kernel_stack_top ;;
  ret (mk_tcb pid_handle stack t).

Definition exec (self : Z) (elf_data : list Z) : M (Kernel T) unit :=
  let* (ms, user_sp, entry_point) := in_mm (from_elf (linker pf) (parse_elf pf) elf_data) in
  let* cx_ppn := find_trap_cx ms in
  with_cell (CellTask self) (
    let* t := task_of self in
    (* the assignment drops the old address space *)
    in_mm (drop_memory_set (memory_set (inner t))) ;;
    update_inner self (set_memory_set ms) ;;
    update_inner self (set_trap_cx_ppn cx_ppn) ;;
    write_init_context (page_base cx_ppn) entry_point user_sp (get_top (kernel_stack t))).

Definition fork (self : Z) : M (Kernel T) Z :=
  with_cell (CellTask self) (
    let* parent_inner := inner_of self in
    let* ms := in_mm (from_existed_user (linker pf) (memory_set parent_inner)) in
    let* cx_ppn := find_trap_cx ms in
    let* pid_handle := pid_alloc in
    let* stack := KernelStack_new pid_handle in
    let kernel_stack_top := get_top stack in
    let* child := new_task (mk_tcb pid_handle stack
      {| trap_cx_ppn := cx_ppn; base_size := base_size parent_inner;
         task_cx := goto_trap_return (trap_return_addr pf) kernel_stack_top;
         task_status := Ready; memory_set := ms; parent := Some self; children := [];
         exit_code := 0; pass := pass parent_inner; priority := priority parent_inner;
         syscall_times := syscall_times parent_inner; start_time := start_time parent_inner;
         kstack := ToTrapReturn |}) in
    update_inner self (fun t => set_children (vec_push (children t) child) t) ;;
    let* cx := with_cell (CellTask child) (let* t := inner_of child in ret (get_trap_cx t)) in
    update_mem (fun m => store64 m (cx_word cx CX_KERNEL_SP) kernel_stack_top) ;;
    ret child).

Definition spawn (self : Z) (elf_data : list Z) : M (Kernel T) Z :=
  let* (ms, user_sp, entry_point) := in_mm (from_elf (linker pf) (parse_elf pf) elf_data) in
  let* cx_ppn := find_trap_cx ms in
  with_cell (CellTask self) (
    let* parent_inner := inner_of self in
    let* pid_handle := pid_alloc in
    let* stack := KernelStack_new pid_handle in
    let kernel_stack_top := get_top stack in
    let* child := new_task (mk_tcb pid_handle stack
      {| trap_cx_ppn := cx_ppn; base_size := base_size parent_inner;
         task_cx := goto_trap_return (trap_return_addr pf) kernel_stack_top;
         task_status := Ready; memory_set := ms; parent := Some self; children := [];
         exit_code := 0; pass := 0; priority := priority parent_inner;
         syscall_times := repeat 0 (Z.to_nat MAX_SYSCALL_NUM); start_time := None;
         kstack := ToTrapReturn |}) in
    update_inner self (fun t => set_children (vec_push (children t) child) t) ;;
    let* cx := with_cell (CellTask child) (let* t := inner_of child in ret (get_trap_cx t)) in
    write_init_context cx entry_point user_sp kernel_stack_top ;;
    ret child).

Definition getpid (t : TaskControlBlock) : Z := pid t.

(** Dropping the last reference to a process: its pid, its kernel stack, its address
    space, and its references to its children, which may be last ones too. *)
Fixpoint drop_task (fuel : nat) (id : Z) : M (Kernel T) unit :=
  match fuel with
  | O => panic OutOfFuel
  | S fuel' =>
      let* t := task_of id in
      modify (fun k => set_tasks (delete id (tasks k)) k) ;;
      pid_drop (pid t) ;;
      KernelStack_drop (kernel_stack t) ;;
      in_mm (drop_memory_set (memory_set (inner t))) ;;
      for_each (children (inner t)) (fun child =>
        let* k := get in
        if Nat.eqb (strong_refs k child) 0 then drop_task fuel' child else ret tt)
  end.

(** A local [Arc] goes out of scope: there are no more processes than [tasks] has. *)
Definition drop_arc (id : Z) : M (Kernel T) unit :=
  let* k := get in
  if Nat.eqb (strong_refs k id) 0 then drop_task (size (tasks k)) id else ret tt.

End Task.
