(* ===== verification/Loader.v ===== *)
(** * The embedded applications (os5/src/loader.rs)

    The build links the applications into the kernel's data section: a table
    [_num_app] with their number and the bounds of their images, and their names at
    [_app_names], one NUL-terminated string after another.  Names are compared as
    strings, that is, as lists of characters. *)

From S2P Require Import Prelude Config PhysMem MemorySet Utf8 Kernel.

Section Loader.
Context (pf : Platform).

Definition get_num_app (m : mem) : Z := load64 m (num_app_addr pf).

(** [app_start], the [num_app + 1] words after the number of applications. *)
Definition app_start (m : mem) (i : Z) : Z := load64 m (num_app_addr pf + 8 + 8 * i).

Definition get_app_data (m : mem) (app_id : Z) : outcome (list Z) :=
  if app_id <? get_num_app m
  then Ok (load_bytes m (app_start m app_id) (app_start m (app_id + 1) -% app_start m app_id))
  else Panic AssertFailed.

(** The bytes of a NUL-terminated string, and the address after its NUL. *)
Fixpoint read_name (fuel : nat) (m : mem) (start : Z) : outcome (list Z * Z) :=
  match fuel with
  | O => Panic OutOfFuel
  | S fuel' =>
      let b := load8 m start in
      if b =? 0 then Ok ([], start + 1)
      else match read_name fuel' m (start + 1) with
           | Ok (bs, next) => Ok (b :: bs, next)
           | Panic r => Panic r
           end
  end.

(** [APP_NAMES] from the [n]-th last name on. *)
Fixpoint app_names_loop (fuel : nat) (m : mem) (n : nat) (start : Z) : outcome (list (list Z)) :=
  match n with
  | O => Ok []
  | S n' =>
      match read_name fuel m start with
      | Panic r => Panic r
      | Ok (bs, next) =>
          match from_utf8 bs with
          | None => Panic UnwrapNone
          | Some str =>
              match app_names_loop fuel m n' next with
              | Ok v => Ok (str :: v)
              | Panic r => Panic r
              end
          end
      end
  end.
Definition APP_NAMES (m : mem) : outcome (list (list Z)) :=
  app_names_loop (str_fuel pf) m (Z.to_nat (get_num_app m)) (app_names_addr pf).

(** The first application with a name. *)
Fixpoint find_name (name : list Z) (names : list (list Z)) (i : Z) : option Z :=
  match names with
  | [] => None
  | n :: names' => if decide (n = name) then Some i else find_name name names' (i + 1)
  end.
Definition get_app_data_by_name (m : mem) (name : list Z) : outcome (option (list Z)) :=
  match APP_NAMES m with
  | Panic r => Panic r
  | Ok names =>
      match find_name name names 0 with
      | None => Ok None
      | Some i =>
          match get_app_data m i with
          | Ok data => Ok (Some data)
          | Panic r => Panic r
          end
      end
  end.

End Loader.
