(* ===== verification/Processor.v ===== *)
(** * The processor (os5/src/task/processor.rs, mod.rs)

    The running task, the idle loop, and the transfer of control: [suspend] and [exit]
    end in [__switch] to the idle loop, which the model splits there; a suspended task
    records in [kstack] which call it returns to. *)

From S2P Require Import Prelude Config Address PhysMem FrameAllocator PageTable MemorySet Timer Pid.
From S2P Require Import Kernel Manager Task Loader.

Section Processor.
Context {T : Type} `{FrameAllocator T}.
Context (pf : Platform).

(** ** The running task *)

(** [Processor::current] and [take_current] inside the processor's scope. *)
Definition processor_current : M (Kernel T) (option Z) := gets current.
Definition processor_take_current : M (Kernel T) (option Z) :=
  let* c := gets current in
  modify (set_current None) ;;
  ret c.

Definition take_current_task : M (Kernel T) (option Z) := with_cell CellProcessor processor_take_current.
Definition current_task : M (Kernel T) (option Z) := with_cell CellProcessor processor_current.

(** A guard of the current task's inner, with its fields. *)
Definition with_current {A} (f : Z -> TaskControlBlockInner -> M (Kernel T) A) : M (Kernel T) A :=
  let* c := processor_current in
  let* id := unwrap c in
  with_cell (CellTask id) (let* t := inner_of id in f id t).

Definition current_user_token : M (Kernel T) Z :=
  let* c := current_task in
  let* id := unwrap c in
  with_cell (CellTask id) (let* t := inner_of id in ret (get_user_token t)).
Definition current_trap_cx : M (Kernel T) Z :=
  let* c := current_task in
  let* id := unwrap c in
  with_cell (CellTask id) (let* t := inner_of id in ret (get_trap_cx t)).

(** ** Memory mapping *)

(** The loops over the pages: is any page mapped, is any page unmapped. *)
Definition any_mapped (m : mem) (ms : MemorySet) (pages : list Z) : bool :=
  existsb (fun vpn => match MemorySet_translate m ms vpn with
                      | Some bits => pte_is_valid bits
                      | None => false
                      end) pages.
Definition any_unmapped (m : mem) (ms : MemorySet) (pages : list Z) : bool :=
  existsb (fun vpn => match MemorySet_translate m ms vpn with
                      | Some bits => negb (pte_is_valid bits)
                      | None => true
                      end) pages.

Definition processor_task_mmap (start len port : Z) : M (Kernel T) Z :=
  let start_va := start in
  let end_va := start +% len in
  if negb (VirtAddr_aligned start_va) || negb (Z.land port (Z.lxor usize_max 7) =? 0)
     || (Z.land port 7 =? 0)
  then ret (-1)
  else with_current (fun id t =>
    let* m := mem_of in
    let* r := lift (SimpleRange_new (VirtAddr_floor start_va) (VirtAddr_ceil end_va)) in
    if any_mapped m (memory_set t) (range_items r) then ret (-1)
    else
      let* perm := unwrap (MapPermission_from_bits (wrap8 (Z.shiftl (wrap8 port) 1))) in
      let* ms := in_mm (insert_framed_area (memory_set t) start_va end_va (Z.lor perm MP_U)) in
      update_inner id (set_memory_set ms) ;;
      ret 0).

Definition processor_task_munmap (start len : Z) : M (Kernel T) Z :=
  let start_va := start in
  let end_va := start +% len in
  if negb (VirtAddr_aligned start_va) then ret (-1)
  else with_current (fun id t =>
    let* m := mem_of in
    let start_vpn := VirtAddr_floor start_va in
    let end_vpn := VirtAddr_ceil end_va in
    let* r := lift (SimpleRange_new start_vpn end_vpn) in
    if any_unmapped m (memory_set t) (range_items r) then ret (-1)
    else
      let* ms := in_mm (MemorySet_unmap (memory_set t) start_vpn end_vpn) in
      update_inner id (set_memory_set ms) ;;
      ret 0).

Definition task_mmap (start len port : Z) : M (Kernel T) Z :=
  with_cell CellProcessor (processor_task_mmap start len port).
Definition task_munmap (start len : Z) : M (Kernel T) Z :=
  with_cell CellProcessor (processor_task_munmap start len).

(** ** Accounting *)

Definition processor_count_syscall (syscall_id : Z) : M (Kernel T) unit :=
  if syscall_id <? MAX_SYSCALL_NUM then
    with_current (fun id t =>
      match syscall_times t !! Z.to_nat syscall_id with
      | None => panic OutOfRange
      | Some n =>
          update_inner id (fun t =>
            set_syscall_times (<[Z.to_nat syscall_id := wrap32 (n + 1)]> (syscall_times t)) t)
      end)
  else ret tt.
Definition count_syscall (syscall_id : Z) : M (Kernel T) unit :=
  with_cell CellProcessor (processor_count_syscall syscall_id).

Definition current_task_status : M (Kernel T) TaskStatus :=
  with_cell CellProcessor (with_current (fun _ t => ret (task_status t))).
Definition current_syscall_times : M (Kernel T) (list Z) :=
  with_cell CellProcessor (with_current (fun _ t => ret (syscall_times t))).

(** The clock is read before the task is borrowed. *)
Definition current_run_time : M (Kernel T) Z :=
  with_cell CellProcessor (
    let* now := read_time pf in
    with_current (fun _ t =>
      let* start := unwrap (start_time t) in
      ret (get_time_ms now -% start))).

(** ** Scheduling *)

(** [suspend_current_and_run_next] up to its [schedule]; [r] is the call it is in. *)
Definition suspend_current_and_run_next (r : resume) : M (Kernel T) unit :=
  let* c := take_current_task in
  let* task := unwrap c in
  with_cell (CellTask task) (
    update_inner task (set_status Ready) ;;
    update_inner task (set_kstack r)) ;;
  add_task task.

(** Giving one child of an exiting task to [INITPROC]. *)
Definition reparent (init child : Z) : M (Kernel T) unit :=
  with_cell (CellTask child) (update_inner child (set_parent (Some init))) ;;
  update_inner init (fun t => set_children (vec_push (children t) child) t).

(** [exit_current_and_run_next] up to its [schedule]. *)
Definition exit_current_and_run_next (code : Z) : M (Kernel T) unit :=
  let* c := take_current_task in
  let* task := unwrap c in
  with_cell (CellTask task) (
    update_inner task (set_status Zombie) ;;
    update_inner task (set_exit_code code) ;;
    let* k := get in
    let* init := unwrap (initproc k) in
    with_cell (CellTask init) (
      let* t := inner_of task in
      for_each (children t) (reparent init)) ;;
    update_inner task (set_children []) ;;
    let* t := inner_of task in
    let* ms := in_mm (recycle_data_pages (memory_set t)) in
    update_inner task (set_memory_set ms)) ;;
  drop_arc task.

(** One round of [run_tasks]: the task it switches to, if any is ready. *)
Definition run_tasks_round : M (Kernel T) (option Z) :=
  with_cell CellProcessor (
    let* o := fetch_task in
    match o with
    | None => ret None
    | Some task =>
        with_cell (CellTask task) (
          let* t := inner_of task in
          (if is_some (start_time t) then ret tt
           else let* now := read_time pf in
                update_inner task (set_start_time (Some (get_time_ms now)))) ;;
          update_inner task (set_status Running)) ;;
        modify (set_current (Some task)) ;;
        ret (Some task)
    end).

(** [INITPROC] and [add_initproc] *)
Definition initproc_name : list Z := [99; 104; 53; 98; 95; 105; 110; 105; 116; 112; 114; 111; 99].
Definition add_initproc : M (Kernel T) unit :=
  let* m := mem_of in
  let* o := lift (get_app_data_by_name pf m initproc_name) in
  let* data := unwrap o in
  let* t := TaskControlBlock_new pf data in
  let* id := new_task t in
  modify (set_initproc (Some id)) ;;
  add_task id.

End Processor.
