(* ===== verification/Syscall.v ===== *)
(** * System calls (os5/src/syscall/)

    Every handler, and the dispatcher.  A handler returns a value for the user, or
    control has left the task: it is suspended, with the rest of the call in its
    [kstack], or it has exited. *)

From S2P Require Import Prelude Config Address PhysMem FrameAllocator PageTable MemorySet Timer Pid.
From S2P Require Import Utf8 Kernel Manager Task Loader Processor.

Inductive SyscallNo : Type :=
| SYSCALL_READ
| SYSCALL_WRITE
| SYSCALL_EXIT
| SYSCALL_YIELD
| SYSCALL_GET_TIME
| SYSCALL_GETPID
| SYSCALL_FORK
| SYSCALL_EXEC
| SYSCALL_WAITPID
| SYSCALL_SPAWN
| SYSCALL_MUNMAP
| SYSCALL_MMAP
| SYSCALL_SET_PRIORITY
| SYSCALL_TASK_INFO.

Definition syscall_no (id : SyscallNo) : Z :=
  match id with
  | SYSCALL_READ => 63
  | SYSCALL_WRITE => 64
  | SYSCALL_EXIT => 93
  | SYSCALL_YIELD => 124
  | SYSCALL_GET_TIME => 169
  | SYSCALL_GETPID => 172
  | SYSCALL_FORK => 220
  | SYSCALL_EXEC => 221
  | SYSCALL_WAITPID => 260
  | SYSCALL_SPAWN => 400
  | SYSCALL_MUNMAP => 215
  | SYSCALL_MMAP => 222
  | SYSCALL_SET_PRIORITY => 140
  | SYSCALL_TASK_INFO => 410
  end.
Coercion syscall_no : SyscallNo >-> Z.

Abbreviation FD_STDIN := (0) (only parsing).
Abbreviation FD_STDOUT := (1) (only parsing).

Inductive control : Type :=
| Return (result : Z)
| Switched.

Section Syscall.
Context {T : Type} `{FrameAllocator T}.
Context (pf : Platform).

(** ** Files (fs.rs) *)

(** Rounds enough for a buffer of [len] bytes. *)
Definition buffer_fuel (len : Z) : nat := Z.to_nat (len / PAGE_SIZE + 2).

Definition write_slice (slice : Z * Z) : M (Kernel T) unit :=
  let '(a, n) := slice in
  fault_unless (kernel_maps a n) ;;
  let* m := mem_of in
  let* str := unwrap (from_utf8 (load_bytes m a n)) in
  for_each str console_putchar.

Definition sys_write (fd buf len : Z) : M (Kernel T) control :=
  if fd =? FD_STDOUT then
    let* token := current_user_token in
    let* m := mem_of in
    let* buffers := lift (translated_byte_buffer (buffer_fuel len) m token buf len) in
    for_each buffers write_slice ;;
    ret (Return (as_isize len))
  else panic Explicit.

(** The loop of [sys_read] and what follows it, from a call or after a resume. *)
Definition sys_read_loop (buf len : Z) : M (Kernel T) control :=
  let* c := console_getchar pf in
  if c =? 0 then
    suspend_current_and_run_next (InRead buf len) ;;
    ret Switched
  else
    let ch := wrap8 c in
    let* token := current_user_token in
    let* m := mem_of in
    let* buffers := lift (translated_byte_buffer (buffer_fuel len) m token buf len) in
    match buffers with
    | [] => panic OutOfRange
    | (a, _) :: _ =>
        fault_unless (kernel_writes (linker pf) a 1) ;;
        update_mem (fun m => store8 m a ch) ;;
        ret (Return 1)
    end.

Definition sys_read (fd buf len : Z) : M (Kernel T) control :=
  if fd =? FD_STDIN then
    assert_ (len =? 1) ;;
    sys_read_loop buf len
  else panic Explicit.

(** ** Processes (process.rs) *)

Definition sys_exit (code : Z) : M (Kernel T) control :=
  exit_current_and_run_next code ;;
  ret Switched.

Definition sys_yield : M (Kernel T) control :=
  suspend_current_and_run_next InYield ;;
  ret Switched.

Definition sys_getpid : M (Kernel T) control :=
  let* c := current_task in
  let* id := unwrap c in
  let* t := task_of id in
  ret (Return (as_isize (pid t))).

Definition sys_fork : M (Kernel T) control :=
  let* c := current_task in
  let* id := unwrap c in
  let* child := fork pf id in
  let* t := task_of child in
  let new_pid := pid t in
  let* cx := with_cell (CellTask child) (let* t := inner_of child in ret (get_trap_cx t)) in
  update_mem (fun m => store64 m (cx_word cx CX_A0) 0) ;;
  add_task child ;;
  ret (Return (as_isize new_pid)).

Definition sys_exec (path : Z) : M (Kernel T) control :=
  let* token := current_user_token in
  let* m := mem_of in
  let* name := lift (translated_str (str_fuel pf) m token path) in
  let* o := lift (get_app_data_by_name pf m name) in
  match o with
  | Some data =>
      let* c := current_task in
      let* id := unwrap c in
      exec pf id data ;;
      ret (Return 0)
  | None => ret (Return (-1))
  end.

(** Does the argument of [waitpid] name this pid? *)
Definition pid_matches (arg p : Z) : bool := (arg =? -1) || (as_usize arg =? p).

(** Is there a child that matches? *)
Definition any_child (arg : Z) (l : list Z) : M (Kernel T) bool :=
  foldM (fun found id => let* t := task_of id in ret (found || pid_matches arg (getpid t))) l false.

(** The first zombie child that matches, with its index. *)
Fixpoint find_zombie (arg : Z) (l : list Z) (idx : nat) : M (Kernel T) (option (nat * Z)) :=
  match l with
  | [] => ret None
  | id :: l' =>
      let* t := task_of id in
      let* zombie := with_cell (CellTask id) (let* t := inner_of id in ret (is_zombie t)) in
      if zombie && pid_matches arg (getpid t) then ret (Some (idx, id))
      else find_zombie arg l' (S idx)
  end.

Definition sys_waitpid (arg exit_code_ptr : Z) : M (Kernel T) control :=
  let* c := current_task in
  let* task := unwrap c in
  with_cell (CellTask task) (
    let* t := inner_of task in
    let* found := any_child arg (children t) in
    if negb found then ret (Return (-1))
    else
      let* hit := find_zombie arg (children t) 0 in
      match hit with
      | None => ret (Return (-2))
      | Some (idx, child) =>
          update_inner task (fun t => set_children (delete idx (children t)) t) ;;
          let* k := get in
          (* the local [child] is the one reference left *)
          assert_ (Nat.eqb (S (strong_refs k child)) 1) ;;
          let* ct := task_of child in
          let found_pid := getpid ct in
          let* code := with_cell (CellTask child) (let* t := inner_of child in ret (exit_code t)) in
          let* m := mem_of in
          let* t := inner_of task in
          let* pa := lift (translated_refmut m (MemorySet_token (memory_set t)) exit_code_ptr) in
          fault_unless (kernel_writes (linker pf) pa 4) ;;
          update_mem (fun m => store32 m pa (wrap32 code)) ;;
          drop_arc child ;;
          ret (Return (as_isize found_pid))
      end).

Definition sys_get_time (ts _tz : Z) : M (Kernel T) control :=
  let* token := current_user_token in
  let* m := mem_of in
  let* pa := lift (translated_refmut m token ts) in
  let* now := read_time pf in
  let tv := time_val (get_time_us now) in
  fault_unless (kernel_writes (linker pf) pa 16) ;;
  update_mem (fun m => store64 (store64 m pa (sec tv)) (pa + 8) (usec tv)) ;;
  ret (Return 0).

(** [TaskStatus] in memory: a byte with the constructor's number. *)
Definition status_byte (s : TaskStatus) : Z :=
  match s with
  | UnInit => 0
  | Ready => 1
  | Running => 2
  | Zombie => 3
  end.
Fixpoint store_u32s (m : mem) (a : Z) (ws : list Z) : mem :=
  match ws with
  | [] => m
  | w :: ws' => store_u32s (store32 m a w) (a + 4) ws'
  end.

Definition sys_task_info (ti : Z) : M (Kernel T) control :=
  let* token := current_user_token in
  let* m := mem_of in
  let* pa := lift (translated_refmut m token ti) in
  let* status := current_task_status in
  let* times := current_syscall_times in
  let* time := current_run_time pf in
  fault_unless (kernel_writes (linker pf) (pa + ti_status pf) 1 &&
    kernel_writes (linker pf) (pa + ti_times pf) (4 * Z.of_nat (length times)) &&
    kernel_writes (linker pf) (pa + ti_time pf) 8) ;;
  update_mem (fun m =>
    store64 (store_u32s (store8 m (pa + ti_status pf) (status_byte status)) (pa + ti_times pf) times)
      (pa + ti_time pf) time) ;;
  ret (Return 0).

Definition sys_set_priority (prio : Z) : M (Kernel T) control :=
  if prio <? 2 then ret (Return (-1))
  else
    let* c := current_task in
    let* id := unwrap c in
    with_cell (CellTask id) (update_inner id (set_priority (as_usize prio))) ;;
    ret (Return prio).

Definition sys_mmap (start len port : Z) : M (Kernel T) control :=
  let* r := task_mmap start len port in
  ret (Return r).
Definition sys_munmap (start len : Z) : M (Kernel T) control :=
  let* r := task_munmap start len in
  ret (Return r).

Definition sys_spawn (path : Z) : M (Kernel T) control :=
  let* token := current_user_token in
  let* m := mem_of in
  let* name := lift (translated_str (str_fuel pf) m token path) in
  let* o := lift (get_app_data_by_name pf m name) in
  match o with
  | Some data =>
      let* c := current_task in
      let* id := unwrap c in
      let* child := spawn pf id data in
      let* t := task_of child in
      let new_pid := as_isize (pid t) in
      add_task child ;;
      ret (Return new_pid)
  | None => ret (Return (-1))
  end.

(** ** The dispatcher (mod.rs) *)

Definition syscall (syscall_id a0 a1 a2 : Z) : M (Kernel T) control :=
  count_syscall syscall_id ;;
  if syscall_id =? SYSCALL_READ then sys_read a0 a1 a2
  else if syscall_id =? SYSCALL_WRITE then sys_write a0 a1 a2
  else if syscall_id =? SYSCALL_EXIT then sys_exit (as_i32 a0)
  else if syscall_id =? SYSCALL_YIELD then sys_yield
  else if syscall_id =? SYSCALL_GETPID then sys_getpid
  else if syscall_id =? SYSCALL_FORK then sys_fork
  else if syscall_id =? SYSCALL_EXEC then sys_exec a0
  else if syscall_id =? SYSCALL_WAITPID then sys_waitpid (as_isize a0) a1
  else if syscall_id =? SYSCALL_GET_TIME then sys_get_time a0 a1
  else if syscall_id =? SYSCALL_MMAP then sys_mmap a0 a1 a2
  else if syscall_id =? SYSCALL_MUNMAP then sys_munmap a0 a1
  else if syscall_id =? SYSCALL_SET_PRIORITY then sys_set_priority (as_isize a0)
  else if syscall_id =? SYSCALL_TASK_INFO then sys_task_info a0
  else if syscall_id =? SYSCALL_SPAWN then sys_spawn a0
  else panic Explicit.

End Syscall.
