(* ===== verification/Trap.v ===== *)
(** * Traps (os5/src/trap/mod.rs) and the kernel's steps

    [trap_handler] on every cause, what a resumed task does until it is back in user
    mode, and one step of the system: a trap of the running task followed by the
    scheduling it leads to. *)

From S2P Require Import Prelude Config Address PhysMem FrameAllocator PageTable MemorySet Timer Pid.
From S2P Require Import Utf8 Kernel Manager Task Loader Processor Syscall.

(** The causes the handler tells apart; [OtherTrap] is any other. *)
Inductive Trap : Type :=
| UserEnvCall
| StoreFault | StorePageFault
| InstructionFault | InstructionPageFault
| LoadFault | LoadPageFault
| IllegalInstruction
| SupervisorTimer
| OtherTrap.

Section Trap.
Context {T : Type} `{FrameAllocator T}.
Context (pf : Platform).

Definition load_cx (cx i : Z) : M (Kernel T) Z :=
  let* m := mem_of in
  ret (load64 m (cx_word cx i)).
Definition store_cx (cx i v : Z) : M (Kernel T) unit :=
  update_mem (fun m => store64 m (cx_word cx i) v).

(** The end of the system-call case: the result goes to a0 of the context of the task
    that is current then. *)
Definition finish_syscall (result : Z) : M (Kernel T) unit :=
  let* cx := current_trap_cx in
  store_cx cx CX_A0 (as_usize result).

(** [true]: the task goes on to [trap_return]; [false]: control has left the task. *)
Definition trap_handler (cause : Trap) : M (Kernel T) bool :=
  match cause with
  | UserEnvCall =>
      let* cx := current_trap_cx in
      let* sepc := load_cx cx CX_SEPC in
      store_cx cx CX_SEPC (sepc +% 4) ;;
      let* x17 := load_cx cx 17 in
      let* x10 := load_cx cx 10 in
      let* x11 := load_cx cx 11 in
      let* x12 := load_cx cx 12 in
      let* r := syscall pf x17 x10 x11 x12 in
      match r with
      | Return result => finish_syscall result ;; ret true
      | Switched => ret false
      end
  | StoreFault | StorePageFault | InstructionFault | InstructionPageFault
  | LoadFault | LoadPageFault =>
      (* the message names the faulting instruction *)
      let* cx := current_trap_cx in
      let* _sepc := load_cx cx CX_SEPC in
      exit_current_and_run_next (-2) ;;
      ret false
  | IllegalInstruction =>
      exit_current_and_run_next (-3) ;;
      ret false
  | SupervisorTimer =>
      let* now := read_time pf in
      modify (set_timer_ (Some (set_next_trigger now))) ;;
      suspend_current_and_run_next InTimer ;;
      ret false
  | OtherTrap => panic Explicit
  end.

(** What a task does when [__switch] returns to it. *)
Definition resume_task (id : Z) : M (Kernel T) bool :=
  let* t := inner_of id in
  match kstack t with
  | ToTrapReturn | InTimer => ret true
  | InYield => finish_syscall 0 ;; ret true
  | InRead buf len =>
      let* r := sys_read_loop pf buf len in
      match r with
      | Return result => finish_syscall result ;; ret true
      | Switched => ret false
      end
  end.

(** [trap_return]: the address-space token and the address of the trap context that
    [__restore] gets. *)
Definition trap_return : M (Kernel T) (Z * Z) :=
  let* user_satp := current_user_token in
  ret (user_satp, TRAP_CONTEXT).

(** [run_tasks] until a task is back in user mode; [None] when no task is ready, where
    the source keeps looking. *)
Fixpoint run_tasks (fuel : nat) : M (Kernel T) (option (Z * Z)) :=
  match fuel with
  | O => panic OutOfFuel
  | S fuel' =>
      let* o := run_tasks_round pf in
      match o with
      | None => ret None
      | Some id =>
          let* back := resume_task id in
          if back : bool then let* r := trap_return in ret (Some r) else run_tasks fuel'
      end
  end.

(** One step of the system: the running task traps. *)
Definition kernel_step (fuel : nat) (cause : Trap) : M (Kernel T) (option (Z * Z)) :=
  let* back := trap_handler cause in
  if back : bool then let* r := trap_return in ret (Some r) else run_tasks fuel.

End Trap.
