(* ===== verification/Boot.v ===== *)
(** * Start-up (os5/src/main.rs, mm/mod.rs)

    [rust_main] on the stack frame allocator: clear the bss, set up frames and the
    kernel's address space, check it, create the first process, arm the timer and
    enter the idle loop.  Logging and the listing of the applications only print. *)

From S2P Require Import Prelude Config Address PhysMem FrameAllocator PageTable MemorySet Timer Pid.
From S2P Require Import Utf8 Kernel Manager Task Loader Processor Syscall Trap.

Section Boot.
Context (pf : Platform).
Abbreviation K := (Kernel StackFrameAllocator).

(** The statics before their first use: memory as the bootloader left it. *)
Definition before_boot (m : mem) : K :=
  mk_kernel (mk_mm m sfa_new) (mk_ms (mk_pt 0 []) []) pids_new ∅ 0 manager_new None None [] 0 0 None [].

Definition clear_bss : M K unit :=
  update_mem (fun m => fill m (sbss pf) (ebss (linker pf) -% sbss pf) 0).

(** [mm::init]: the frame allocator, then [KERNEL_SPACE]; the token is what [activate]
    writes to [satp]. *)
Definition mm_init : M K Z :=
  modify (fun k => set_mm (mk_mm (phys (mm k))
    (init_frame_allocator (ekernel (linker pf)) (allocator (mm k)))) k) ;;
  let* ks := in_mm (new_kernel (linker pf)) in
  modify (set_kernel_space ks) ;;
  kernel_token.

Definition rust_main (fuel : nat) : M K (option (Z * Z)) :=
  clear_bss ;;
  let* _satp := mm_init in
  with_cell CellKernelSpace (
    let* ks := gets kernel_space in
    in_mm (remap_test (linker pf) ks)) ;;
  add_initproc pf ;;
  let* now := read_time pf in
  modify (set_timer_ (Some (set_next_trigger now))) ;;
  run_tasks pf fuel.

End Boot.
