(* ===== verification/KernelSpec.v ===== *)
(** * Rules for the kernel's state

    Total-correctness rules for guards, task accesses and updates, used by the
    theorems on the scheduler, processes and system calls. *)

From S2P Require Import Prelude Config FrameAllocator MemorySet Timer Pid Kernel.

Section Rules.
Context {T : Type}.
Implicit Types k : Kernel T.

(** A guard of a free cell: the body runs with the cell open and closes it. *)
Lemma wp_with_cell {A} c (m : M (Kernel T) A) Q k :
  c ∉ borrowed k ->
  wp m (fun a k' => Q a (set_borrowed (borrowed k) k')) (set_borrowed (c :: borrowed k) k) ->
  wp (with_cell c m) Q k.
Proof.
  intros Hc. unfold wp, with_cell. rewrite decide_False by done.
  by destruct (m _) as [[a k']|].
Qed.

(** A second guard of an open cell panics. *)
Lemma with_cell_twice {A} c (m : M (Kernel T) A) k :
  c ∈ borrowed k -> with_cell c m k = Panic AlreadyBorrowed.
Proof. intros Hc. unfold with_cell. by rewrite decide_True. Qed.

Lemma wp_task_of id t Q k :
  tasks k !! id = Some t -> Q t k -> wp (task_of id) Q k.
Proof. intros Hl HQ. unfold task_of. wp_steps. by eapply wp_unwrap. Qed.

Lemma wp_inner_of id t Q k :
  tasks k !! id = Some t -> Q (inner t) k -> wp (inner_of id) Q k.
Proof. intros Hl HQ. unfold inner_of. wp_step. eapply wp_task_of; [done|]. by wp_steps. Qed.

(** The heap after an update of one task. *)
Definition with_inner (f : TaskControlBlockInner -> TaskControlBlockInner) (t : TaskControlBlock)
    : TaskControlBlock := mk_tcb (pid t) (kernel_stack t) (f (inner t)).
Definition alter_task (id : Z) (f : TaskControlBlockInner -> TaskControlBlockInner) k : Kernel T :=
  set_tasks (alter (with_inner f) id (tasks k)) k.

Lemma wp_update_inner id t f Q k :
  tasks k !! id = Some t -> Q tt (alter_task id f k) -> wp (update_inner id f) Q k.
Proof.
  intros Hl HQ. unfold update_inner. wp_step. eapply wp_task_of; [done|]. wp_steps.
  replace (set_tasks _ k) with (alter_task id f k); [done|]. unfold alter_task. f_equal.
  apply map_eq. intros j. destruct (decide (j = id)) as [->|Hne].
  - by rewrite lookup_alter_eq, lookup_insert_eq, Hl.
  - by rewrite lookup_alter_ne, lookup_insert_ne.
Qed.

Lemma alter_task_lookup id f k t : tasks k !! id = Some t ->
  tasks (alter_task id f k) !! id = Some (with_inner f t).
Proof. intros Hl. cbn. by rewrite lookup_alter_eq, Hl. Qed.

Lemma alter_task_compose id f g k :
  alter_task id f (alter_task id g k) = alter_task id (fun t => f (g t)) k.
Proof.
  unfold alter_task. cbn [tasks set_tasks]. rewrite alter_alter_eq. by destruct k.
Qed.

Lemma alter_task_ext id f g k t :
  tasks k !! id = Some t -> f (inner t) = g (inner t) -> alter_task id f k = alter_task id g k.
Proof.
  intros Hl Hfg. unfold alter_task. f_equal. apply alter_ext. intros t' Ht'.
  assert (t' = t) as -> by congruence. unfold with_inner. by rewrite Hfg.
Qed.

(** Observing a field of a task that an update leaves alone, or sets. *)
Definition field_of {A} (g : TaskControlBlockInner -> A) k (id : Z) : option A :=
  (fun t => g (inner t)) <$> tasks k !! id.

Lemma field_of_alter {A} (g : TaskControlBlockInner -> A) id f k j :
  (forall t, g (f t) = g t) -> field_of g (alter_task id f k) j = field_of g k j.
Proof.
  intros Hf. unfold field_of, alter_task. cbn [tasks set_tasks]. destruct (decide (j = id)) as [->|Hne].
  - rewrite lookup_alter_eq. destruct (tasks k !! id); cbn; [|done]. by rewrite Hf.
  - by rewrite lookup_alter_ne.
Qed.

Lemma field_of_alter_ne {A} (g : TaskControlBlockInner -> A) id f k j :
  j <> id -> field_of g (alter_task id f k) j = field_of g k j.
Proof. intros Hne. unfold field_of, alter_task. cbn [tasks set_tasks]. by rewrite lookup_alter_ne. Qed.

Lemma field_of_alter_eq {A} (g : TaskControlBlockInner -> A) id f k t :
  tasks k !! id = Some t -> field_of g (alter_task id f k) id = Some (g (f (inner t))).
Proof. intros Hl. unfold field_of, alter_task. cbn [tasks set_tasks]. by rewrite lookup_alter_eq, Hl. Qed.

Lemma is_Some_alter id f k j : is_Some (tasks (alter_task id f k) !! j) <-> is_Some (tasks k !! j).
Proof. cbn. apply lookup_alter_is_Some. Qed.

Lemma set_borrowed_id k : set_borrowed (borrowed k) k = k.
Proof. by destruct k. Qed.

(** Writing into a larger state. *)
Lemma wp_in_mm {A} (m : M (MmState T) A) Q k :
  wp m (fun a s => Q a (set_mm s k)) (mm k) -> wp (in_mm m) Q k.
Proof. apply wp_zoom. Qed.

End Rules.

(** Reduce field accesses and updates of the kernel's state, and nothing else. *)
Ltac kernel_cbn :=
  unfold alter_task;
  cbn [mm kernel_space pid_allocator tasks next_task ready_queue current initproc borrowed time_reads
       char_reads timer console set_mm set_kernel_space set_pid_allocator set_tasks set_next_task
       set_ready_queue set_current set_initproc set_borrowed set_time_reads set_char_reads set_timer_
       set_console].

(** A cell is free when the open cells are visibly others. *)
Ltac cell_free :=
  kernel_cbn; repeat match goal with H : borrowed _ = _ |- _ => rewrite H end;
  rewrite ?not_elem_of_cons; repeat split; try done; try congruence; try apply not_elem_of_nil.
