(* ===== verification/SchedulerSpec.v ===== *)
(** * Stride scheduling

    [fetch] picks the first task with the least [pass]; over many rounds of running
    and preempting the same tasks, the turns of any two tasks stay in proportion to
    their priorities. *)

From S2P Require Import Prelude Config PageTable FrameAllocator MemorySet Timer Pid Kernel Manager.
From S2P Require Import Task Loader Processor Syscall Trap KernelSpec.

Section Scheduler.
Context {T : Type}.
Implicit Types k : Kernel T.

Definition pass_of k (id : Z) : Z := default 0 (field_of pass k id).
Definition priority_of k (id : Z) : Z := default 0 (field_of priority k id).
Definition stride_of k (id : Z) : Z := BIG_STRIDE / priority_of k id.

(** The tasks of a queue exist, once each, with a priority, and none is borrowed. *)
Record queue_ok k (q : list Z) : Prop := {
  qo_task id : id ∈ q -> is_Some (tasks k !! id);
  qo_nodup : NoDup q;
  qo_free id : id ∈ q -> CellTask id ∉ borrowed k;
  qo_priority id : id ∈ q -> 0 < priority_of k id
}.

(** Position [i] holds the first least pass of the first [n] tasks of [q]. *)
Definition first_least k (q : list Z) (n i : nat) : Prop :=
  (i < n)%nat /\ exists id, q !! i = Some id /\
  forall j id', (j < n)%nat -> q !! j = Some id' ->
    pass_of k id <= pass_of k id' /\ ((j < i)%nat -> pass_of k id < pass_of k id').

Lemma wp_fetch_round k q pos idx task :
  queue_ok k q -> first_least k q idx pos -> q !! idx = Some task ->
  wp (fetch_round q pos (idx, task)) (fun pos' k' => k' = k /\ first_least k q (S idx) pos') k.
Proof.
  intros [Ht Hnd Hfree _] (Hlt & best & Hbest & Hleast) Hidx.
  destruct (Ht best) as [tb Htb]; [by eapply list_elem_of_lookup_2|].
  destruct (Ht task) as [tt Htt]; [by eapply list_elem_of_lookup_2|].
  assert (Hne : task <> best). { intros ->. assert (pos = idx) by (by eapply NoDup_lookup). lia. }
  assert (Hb : pass_of k best = pass (inner tb)) by (unfold pass_of, field_of; by rewrite Htb).
  assert (Hp : pass_of k task = pass (inner tt)) by (unfold pass_of, field_of; by rewrite Htt).
  unfold fetch_round. rewrite Hbest. apply wp_with_cell; [by eapply Hfree, list_elem_of_lookup_2|].
  wp_step. eapply wp_inner_of; [done|]. apply wp_with_cell.
  { cbn. rewrite not_elem_of_cons. split; [congruence|]. by eapply Hfree, list_elem_of_lookup_2. }
  wp_step. eapply wp_inner_of; [done|]. wp_steps. split; [by destruct k|].
  destruct (Z.ltb_spec (pass (inner tt)) (pass (inner tb))).
  - split; [lia|]. exists task. split; [done|]. intros j id' Hj Hl.
    destruct (decide (j = idx)) as [->|]; [rewrite Hidx in Hl; injection Hl as <-; lia|].
    destruct (Hleast j id') as [? _]; [lia|done|]. lia.
  - split; [lia|]. exists best. split; [done|]. intros j id' Hj Hl.
    destruct (decide (j = idx)) as [->|]; [rewrite Hidx in Hl; injection Hl as <-; lia|].
    apply Hleast; [lia|done].
Qed.

Lemma enumerate_drop1 (x : Z) q :
  drop 1 (enumerate (x :: q)) = combine (seq 1 (length q)) q.
Proof. done. Qed.

Lemma lookup_combine_seq (q : list Z) a i :
  combine (seq a (length q)) q !! i = (fun x => ((a + i)%nat, x)) <$> q !! i.
Proof.
  revert a i. induction q as [|x q IH]; intros a i; [done|]. destruct i as [|i]; cbn.
  - by rewrite Nat.add_0_r.
  - rewrite IH. by replace (S a + i)%nat with (a + S i)%nat by lia.
Qed.

Lemma wp_search k x q :
  queue_ok k (x :: q) ->
  wp (foldM (fetch_round (x :: q)) (drop 1 (enumerate (x :: q))) 0%nat)
    (fun pos k' => k' = k /\ first_least k (x :: q) (S (length q)) pos) k.
Proof.
  intros Hok. rewrite enumerate_drop1.
  eapply wp_mono; [|apply (wp_foldM _ (fun l pos k' => k' = k /\ first_least k (x :: q) (S (length l)) pos))].
  - cbn beta. intros pos k'. rewrite length_combine, length_seq, Nat.min_id. done.
  - split; [done|]. split; [cbn; lia|]. exists x. split; [done|]. intros [|j] id' Hj; [|cbn in Hj; lia].
    cbn. intros [= <-]. lia.
  - intros l [idx task] rest pos k' Hsplit [-> Hfl].
    assert (Hlen : combine (seq 1 (length q)) q !! length l = Some (idx, task)).
    { rewrite Hsplit. by apply list_lookup_middle. }
    rewrite lookup_combine_seq in Hlen. destruct (q !! length l) as [t|] eqn:Hq; [|done].
    cbn in Hlen. injection Hlen as <- <-. rewrite length_app. cbn [length].
    rewrite Nat.add_1_r. by apply wp_fetch_round.
Qed.

(** ** One fetch *)

(** What [fetch] does to the task it takes. *)
Definition next_pass (t : TaskControlBlockInner) : TaskControlBlockInner :=
  set_pass (pass t +% BIG_STRIDE / priority t) t.

(** The state after [fetch] took the task at position [i]. *)
Definition fetched k (i : nat) (id : Z) k' : Prop :=
  k' = set_ready_queue (delete i (ready_queue k))
         (alter_task id next_pass k).

Lemma wp_fetch_task k :
  queue_ok k (ready_queue k) -> CellManager ∉ borrowed k -> ready_queue k <> [] ->
  wp fetch_task (fun o k' => exists i id, o = Some id /\ ready_queue k !! i = Some id /\
    first_least k (ready_queue k) (length (ready_queue k)) i /\ fetched k i id k') k.
Proof.
  intros Hok Hm Hne. apply wp_with_cell; [done|]. unfold fetch. wp_step. wp_step. cbn [ready_queue set_borrowed].
  destruct (ready_queue k) as [|x q] eqn:Eq; [done|]. clear Hne.
  assert (Hok' : queue_ok (set_borrowed (CellManager :: borrowed k) k) (x :: q)).
  { destruct Hok as [? ? Hf ?]. split; try done. intros id Hid. cbn. rewrite not_elem_of_cons.
    split; [done|by apply Hf]. }
  wp_step. eapply wp_mono; [|by apply wp_search]. cbn beta.
  intros pos k1 [-> Hfl]. pose proof Hfl as (Hlt & id & Hid & _).
  wp_step. eapply wp_unwrap; [done|]. wp_steps.
  assert (Hin : id ∈ x :: q) by (by eapply list_elem_of_lookup_2).
  destruct (qo_task _ _ Hok id Hin) as [t Ht].
  pose proof (qo_priority _ _ Hok id Hin) as Hpr. unfold priority_of, field_of in Hpr. rewrite Ht in Hpr. cbn in Hpr.
  apply wp_with_cell. { apply (qo_free _ _ Hok' id Hin). }
  wp_step. eapply wp_inner_of; [done|]. wp_step.
  destruct (Z.eqb_spec (priority (inner t)) 0); [lia|]. wp_steps.
  eapply wp_update_inner; [done|]. wp_steps.
  exists pos, id. split_and!; try done. unfold fetched. rewrite Eq. by destruct k.
Qed.

Lemma fetch_task_empty k :
  CellManager ∉ borrowed k -> ready_queue k = [] -> fetch_task k = Ok (None, k).
Proof.
  intros Hm Hq. unfold fetch_task, with_cell. rewrite decide_False by done.
  unfold fetch, bind, gets. cbn [ready_queue set_borrowed]. rewrite Hq. cbn. by destruct k.
Qed.

(** ** Suspending and dispatching *)

Lemma wp_suspend k c r t Q :
  current k = Some c -> tasks k !! c = Some t -> borrowed k = [] ->
  Q tt (set_ready_queue (ready_queue k ++ [c])
         (alter_task c (fun t => set_kstack r (set_status Ready t)) (set_current None k))) ->
  wp (suspend_current_and_run_next r) Q k.
Proof.
  intros Hc Ht Hb HQ. unfold suspend_current_and_run_next. wp_step.
  apply wp_with_cell; [cell_free|].
  unfold processor_take_current. wp_steps. cbn [current set_borrowed]. rewrite Hc. cbn [unwrap]. wp_steps.
  apply wp_with_cell; [cell_free|].
  wp_step. eapply wp_update_inner; [done|].
  eapply wp_update_inner; [by apply alter_task_lookup|]. unfold add_task.
  apply wp_with_cell; [cell_free|]. unfold add. wp_steps.
  rewrite alter_task_compose. by destruct k.
Qed.

(** What a dispatched task becomes. *)
Definition run_inner (st : Z) (t : TaskControlBlockInner) : TaskControlBlockInner :=
  set_status Running (set_start_time (Some st) (next_pass t)).

Definition dispatched k (i : nat) (id : Z) k' : Prop := exists n st,
  k' = set_time_reads n (set_current (Some id) (set_ready_queue (delete i (ready_queue k))
         (alter_task id (run_inner st) k))).

Lemma wp_run_tasks_round pf k :
  queue_ok k (ready_queue k) -> borrowed k = [] -> ready_queue k <> [] ->
  wp (run_tasks_round pf) (fun o k' => exists i id, o = Some id /\ ready_queue k !! i = Some id /\
    first_least k (ready_queue k) (length (ready_queue k)) i /\ dispatched k i id k') k.
Proof.
  intros Hok Hb Hne. unfold run_tasks_round. apply wp_with_cell; [cell_free|].
  wp_step. eapply wp_mono; [|apply (wp_fetch_task (set_borrowed (CellProcessor :: borrowed k) k))].
  2: { destruct Hok as [? ? Hf ?]. split; try done. intros id Hid. cbn. rewrite not_elem_of_cons.
       split; [done|by apply Hf]. }
  2: { cell_free. }
  2: done.
  cbn beta. intros o k1 (i & id & -> & Hi & Hfl & ->). cbn [ready_queue set_borrowed] in Hi, Hfl |- *.
  destruct (qo_task _ _ Hok id) as [t Ht]; [by eapply list_elem_of_lookup_2|].
  wp_step. apply wp_with_cell. { cell_free. }
  wp_step. eapply wp_inner_of; [by apply alter_task_lookup|]. wp_step. cbn [inner with_inner start_time set_pass next_pass].
  destruct (start_time (inner t)) as [st|] eqn:Est; cbn [is_some].
  - wp_step. eapply wp_update_inner; [by apply alter_task_lookup|]. wp_steps.
    exists i, id. split_and!; [done..|]. exists (time_reads k), st.
    rewrite <-(alter_task_ext id
      (fun t => set_status Running (next_pass t)) _ k t Ht).
    + rewrite <-(alter_task_compose id (set_status Running) next_pass k). by destruct k.
    + unfold run_inner, next_pass. destruct (inner t); cbn in *. by subst.
  - unfold read_time. wp_steps. eapply wp_update_inner; [by apply alter_task_lookup|].
    eapply wp_update_inner; [by apply alter_task_lookup, alter_task_lookup|]. wp_steps.
    exists i, id. split_and!; [done..|].
    set (v := get_time_ms (time_at pf (time_reads k))). exists (S (time_reads k)), v. unfold run_inner.
    rewrite <-(alter_task_compose id (set_status Running) (fun t => set_start_time (Some v) (next_pass t)) k).
    rewrite <-(alter_task_compose id (set_start_time (Some v)) next_pass k). by destruct k.
Qed.

(** ** Timer interrupts *)

Context `{FrameAllocator T}.

(** [l] are the running task and the ready ones, all of them to go on in user mode. *)
Record sched_ok k (l : list Z) : Prop := {
  so_split : exists c, current k = Some c /\ l ≡ₚ c :: ready_queue k;
  so_queue : queue_ok k l;
  so_borrowed : borrowed k = [];
  so_user id : id ∈ l -> field_of kstack k id = Some ToTrapReturn \/ field_of kstack k id = Some InTimer
}.

#[export] Instance queue_ok_Proper k : Proper ((≡ₚ) ==> iff) (queue_ok k).
Proof.
  assert (Himp : forall l l', l ≡ₚ l' -> queue_ok k l -> queue_ok k l').
  { intros l l' Hp [Ht Hnd Hf Hpr]. split.
    - intros id. rewrite <-Hp. apply Ht.
    - by rewrite <-Hp.
    - intros id. rewrite <-Hp. apply Hf.
    - intros id. rewrite <-Hp. apply Hpr. }
  intros l l' Hp. split; apply Himp; [done|]. by symmetry.
Qed.

Lemma queue_ok_alter id f k l :
  (forall t, priority (f t) = priority t) -> queue_ok k l -> queue_ok (alter_task id f k) l.
Proof.
  intros Hf [Ht Hnd Hfr Hpr]. split; try done.
  - intros j Hj. apply is_Some_alter. by apply Ht.
  - intros j Hj. unfold priority_of. rewrite field_of_alter by done. by apply Hpr.
Qed.

(** After the timer suspended the running task, before the next is chosen. *)
Definition suspended k (c : Z) (n : nat) (deadline : Z) : Kernel T :=
  set_ready_queue (ready_queue k ++ [c])
    (alter_task c (fun t => set_kstack InTimer (set_status Ready t))
       (set_current None (set_timer_ (Some deadline) (set_time_reads n k)))).

Lemma field_of_suspended {A} (g : TaskControlBlockInner -> A) k c n d j :
  (forall t, g (set_kstack InTimer (set_status Ready t)) = g t) ->
  field_of g (suspended k c n d) j = field_of g k j.
Proof. apply (field_of_alter g c (fun t => set_kstack InTimer (set_status Ready t)) k j). Qed.

Lemma kstack_suspended k c n d j :
  field_of kstack (suspended k c n d) j =
    if decide (j = c) then (fun _ => InTimer) <$> field_of kstack k j else field_of kstack k j.
Proof.
  unfold field_of. unfold suspended. kernel_cbn. case_decide; subst.
  - rewrite lookup_alter_eq. by destruct (tasks k !! c).
  - by rewrite lookup_alter_ne.
Qed.

Lemma field_of_dispatched {A} (g : TaskControlBlockInner -> A) k i id k' j :
  dispatched k i id k' -> (forall st t, g (run_inner st t) = g t) ->
  field_of g k' j = field_of g k j.
Proof.
  intros (n & st & ->) Hg. apply (field_of_alter g id (run_inner st) k j). apply Hg.
Qed.

Lemma pass_dispatched k i id k' j :
  dispatched k i id k' -> is_Some (tasks k !! id) ->
  pass_of k' j = if decide (j = id) then pass_of k id +% stride_of k id else pass_of k j.
Proof.
  intros (n & st & ->) [t Ht]. unfold stride_of, priority_of, pass_of, field_of.
  kernel_cbn. case_decide; subst.
  - by rewrite lookup_alter_eq, Ht.
  - by rewrite lookup_alter_ne.
Qed.

Lemma queue_ok_ext k k' l :
  (forall j, is_Some (tasks k !! j) -> is_Some (tasks k' !! j)) -> borrowed k' = borrowed k ->
  (forall j, priority_of k' j = priority_of k j) -> queue_ok k l -> queue_ok k' l.
Proof.
  intros Ht Hb Hp [Hqt Hnd Hf Hpr]. split; [auto|done| |].
  - intros j Hj. rewrite Hb. by apply Hf.
  - intros j Hj. rewrite Hp. by apply Hpr.
Qed.

Lemma queue_ok_sub k l l' :
  queue_ok k l' -> (forall id, id ∈ l -> id ∈ l') -> NoDup l -> queue_ok k l.
Proof. intros [Ht _ Hf Hp] Hs Hnd. split; auto. Qed.

Lemma wp_trap_return k id t Q :
  current k = Some id -> tasks k !! id = Some t -> borrowed k = [] ->
  Q (get_user_token (inner t), TRAP_CONTEXT) k -> wp trap_return Q k.
Proof.
  intros Hc Ht Hb HQ. unfold trap_return, current_user_token, current_task, processor_current. wp_step. wp_step.
  apply wp_with_cell; [cell_free|]. wp_steps. cbn [current set_borrowed]. rewrite Hc. cbn [unwrap]. wp_steps.
  apply wp_with_cell; [cell_free|]. wp_step. eapply wp_inner_of; [done|]. wp_steps.
  by destruct k.
Qed.

Lemma first_least_min k q i id j :
  first_least k q (length q) i -> q !! i = Some id -> j ∈ q -> pass_of k id <= pass_of k j.
Proof.
  intros (_ & id' & Hid' & Hl) Hi [n Hn]%list_elem_of_lookup.
  assert (id' = id) as -> by congruence. apply (Hl n j); [|done]. by eapply lookup_lt_Some.
Qed.

(** The scheduling state after a suspension and a dispatch. *)
Lemma sched_switch k l c t n d k2 i id :
  sched_ok k l -> current k = Some c -> tasks k !! c = Some t ->
  let k1 := suspended k c n d in
  ready_queue k1 !! i = Some id -> dispatched k1 i id k2 ->
  sched_ok k2 l /\ current k2 = Some id /\ (exists t2, tasks k2 !! id = Some t2) /\
  (forall j, pass_of k2 j = if decide (j = id) then pass_of k id +% stride_of k id else pass_of k j) /\
  (forall j, priority_of k2 j = priority_of k j).
Proof.
  intros [(c' & Hc' & Hl) Hq Hb Hu] Hc Ht k1 Hi Hd. assert (c' = c) as -> by congruence.
  assert (Hpr1 : forall j, priority_of k1 j = priority_of k j).
  { intros j. unfold priority_of. f_equal. by apply field_of_suspended. }
  assert (Hp1 : forall j, pass_of k1 j = pass_of k j).
  { intros j. unfold pass_of. f_equal. by apply field_of_suspended. }
  assert (Hpr2 : forall j, priority_of k2 j = priority_of k j).
  { intros j. rewrite <-Hpr1. unfold priority_of. f_equal. by eapply field_of_dispatched. }
  assert (Hql : l ≡ₚ ready_queue k1) by (rewrite Hl; cbn; apply Permutation_cons_append).
  assert (Hidl : id ∈ l) by (rewrite Hql; by eapply list_elem_of_lookup_2).
  assert (Hid1 : is_Some (tasks k1 !! id)). { apply (is_Some_alter c _ k). by apply Hq. }
  pose proof (fun j => pass_dispatched _ _ _ _ j Hd Hid1) as Hp2.
  pose proof Hd as (m & st & Hk2). destruct Hid1 as [t1 Ht1].
  assert (Hdom : forall j, is_Some (tasks k !! j) -> is_Some (tasks k2 !! j)).
  { intros j Hj. rewrite Hk2. apply (is_Some_alter id (run_inner st) k1), (is_Some_alter c _ k), Hj. }
  split_and!; [split| | | |done].
  - exists id. split; [by rewrite Hk2|]. rewrite Hql, Hk2. cbn [ready_queue set_time_reads set_current set_ready_queue].
    by apply delete_Permutation.
  - apply (queue_ok_ext k); [done|by rewrite Hk2|done..].
  - by rewrite Hk2.
  - intros j Hj. rewrite (field_of_dispatched kstack _ _ _ _ _ Hd) by done.
    rewrite (kstack_suspended k c n d j : field_of kstack k1 j = _). case_decide; [|by apply Hu]. subst. right. unfold field_of. by rewrite Ht.
  - by rewrite Hk2.
  - eexists. rewrite Hk2. by apply (alter_task_lookup id (run_inner st) k1).
  - intros j. rewrite Hp2, !Hp1. unfold stride_of. by rewrite Hpr1.
Qed.

Lemma wp_timer_step pf fuel k l :
  sched_ok k l ->
  wp (kernel_step pf (S fuel) SupervisorTimer) (fun _ k' => exists id,
    current k' = Some id /\ id ∈ l /\ sched_ok k' l /\
    (forall j, j ∈ l -> pass_of k id <= pass_of k j) /\
    (forall j, pass_of k' j = if decide (j = id) then pass_of k id +% stride_of k id else pass_of k j) /\
    (forall j, priority_of k' j = priority_of k j)) k.
Proof.
  intros Hs. pose proof Hs as [(c & Hc & Hl) Hq Hb _].
  assert (Hcl : c ∈ l) by (rewrite Hl; by left). destruct (qo_task _ _ Hq c Hcl) as [t Ht].
  unfold kernel_step, trap_handler, read_time. wp_steps. eapply wp_suspend; [done..|]. wp_steps.
  set (k1 := suspended k c (S (time_reads k)) (set_next_trigger (time_at pf (time_reads k)))).
  change (set_ready_queue _ _) with k1.
  assert (Hql : l ≡ₚ ready_queue k1) by (rewrite Hl; cbn; apply Permutation_cons_append).
  assert (Hp1 : forall j, pass_of k1 j = pass_of k j).
  { intros j. unfold pass_of. f_equal. by apply field_of_suspended. }
  assert (Hq1 : queue_ok k1 l).
  { apply (queue_ok_ext k); [|done| |done].
    - intros j. apply (is_Some_alter c _ k).
    - intros j. unfold priority_of. f_equal. by apply field_of_suspended. }
  cbn [run_tasks]. wp_step. eapply wp_mono; [|apply (wp_run_tasks_round pf k1)].
  2: by rewrite <-Hql. 2: done. 2: { cbn. by destruct (ready_queue k). }
  cbn beta. intros o k2 (i & id & -> & Hi & Hfl & Hd).
  assert (Hidl : id ∈ l) by (rewrite Hql; by eapply list_elem_of_lookup_2).
  destruct (sched_switch _ _ _ _ _ _ _ _ _ Hs Hc Ht Hi Hd) as (Hs2 & Hc2 & (t2 & Ht2) & Hp2 & Hpr2).
  wp_step. unfold resume_task. wp_step. eapply wp_inner_of; [done|].
  assert (Hk : kstack (inner t2) = ToTrapReturn \/ kstack (inner t2) = InTimer).
  { destruct (so_user _ _ Hs2 id Hidl) as [Hk|Hk]; unfold field_of in Hk; rewrite Ht2 in Hk;
      injection Hk; auto. }
  assert (Hgoal : exists id, current k2 = Some id /\ id ∈ l /\ sched_ok k2 l /\
    (forall j, j ∈ l -> pass_of k id <= pass_of k j) /\
    (forall j, pass_of k2 j = if decide (j = id) then pass_of k id +% stride_of k id else pass_of k j) /\
    (forall j, priority_of k2 j = priority_of k j)).
  { exists id. split_and!; try done. intros j Hj. rewrite <-!Hp1.
    eapply first_least_min; [done..|]. by rewrite <-Hql. }
  destruct Hk as [->| ->]; wp_steps; (eapply wp_trap_return; [done|done|apply Hs2|]); wp_steps; exact Hgoal.
Qed.

(** ** Fairness *)

(** The tasks that run over [n] timer interrupts. *)
Fixpoint timer_turns (pf : Platform) (fuel n : nat) : M (Kernel T) (list Z) :=
  match n with
  | O => ret []
  | S n' =>
      kernel_step pf fuel SupervisorTimer ;;
      let* c := gets current in
      let* id := unwrap c in
      let* rest := timer_turns pf fuel n' in
      ret (id :: rest)
  end.

Definition turns_of (id : Z) (ran : list Z) : Z := Z.of_nat (count_in id ran).

Lemma turns_of_cons id x ran :
  turns_of id (x :: ran) = (if decide (x = id) then 1 else 0) + turns_of id ran.
Proof. unfold turns_of, count_in. rewrite filter_cons. case_decide; cbn [length]; lia. Qed.

Lemma stride_bounds k l id : queue_ok k l -> id ∈ l -> 0 <= stride_of k id <= BIG_STRIDE.
Proof.
  intros Hq Hid. pose proof (qo_priority _ _ Hq id Hid). unfold stride_of. rewrite BIG_STRIDE_val. split.
  - apply Z.div_pos; lia.
  - apply Z.div_le_upper_bound; nia.
Qed.

(** C13: stride scheduling is fair.  Take tasks whose passes are within one stride of
    each other (equal ones, say) and preempt them by [n] timer interrupts that cannot
    wrap a pass.  Every interrupt is handled without a panic and starts one of the
    tasks; and after them, for any two tasks [i] and [j], the turns of [i] times the
    stride of [i] exceed the turns of [j] times the stride of [j] by at most one stride
    (plus the difference of the initial passes): since the stride is
    [BIG_STRIDE / priority], tasks run in proportion to their priorities, and none is
    starved. *)
Theorem stride_fair pf fuel n k l :
  sched_ok k l ->
  (forall i j, i ∈ l -> j ∈ l -> pass_of k i <= pass_of k j + stride_of k i) ->
  (forall i, i ∈ l -> 0 <= pass_of k i /\ pass_of k i + Z.of_nat n * BIG_STRIDE < 2 ^ 64) ->
  wp (timer_turns pf (S fuel) n) (fun ran k' => sched_ok k' l /\ length ran = n /\
    (forall id, id ∈ ran -> id ∈ l) /\
    forall i j, i ∈ l -> j ∈ l ->
      pass_of k i + turns_of i ran * stride_of k i <=
        pass_of k j + turns_of j ran * stride_of k j + stride_of k i) k.
Proof.
  revert k. induction n as [|n IH]; intros k Hs Hband Hnowrap; cbn [timer_turns].
  - apply wp_ret. split_and!; [done|done|by intros id []%not_elem_of_nil|]. intros i j Hi Hj.
    specialize (Hband i j Hi Hj). unfold turns_of; cbn. lia.
  - wp_step. eapply wp_mono; [|by apply wp_timer_step]. cbn beta.
    intros _ k1 (id & Hc & Hid & Hs1 & Hmin & Hp & Hpr). wp_steps. rewrite Hc. cbn [unwrap]. wp_steps.
    assert (Hst : forall j, stride_of k1 j = stride_of k j) by (intros j; unfold stride_of; by rewrite Hpr).
    assert (Hsb : forall j, j ∈ l -> 0 <= stride_of k j <= BIG_STRIDE)
      by (intros j Hj; by eapply stride_bounds; [apply Hs|]).
    rewrite BIG_STRIDE_val in *.
    assert (Hpass : forall j, j ∈ l ->
      pass_of k1 j = pass_of k j + (if decide (id = j) then stride_of k j else 0)).
    { intros j Hj. rewrite Hp. specialize (Hsb _ Hj). destruct (Hnowrap _ Hj) as [? ?].
      case_decide; subst; [|rewrite decide_False by congruence; lia].
      rewrite decide_True by done. apply wrap64_small. lia. }
    eapply wp_mono; [|apply (IH k1 Hs1)].
    + cbn beta. intros ran k2 (Hs2 & Hlen & Hran & Hfair). wp_steps.
      split_and!; [done|cbn; lia|by intros j [->|?]%elem_of_cons; [|apply Hran]|].
      intros i j Hi Hj. specialize (Hfair i j Hi Hj). rewrite !Hst, !Hpass in Hfair by done.
      rewrite !turns_of_cons, !Z.mul_add_distr_r. destruct (decide (id = i)), (decide (id = j)); lia.
    + intros i j Hi Hj. rewrite Hst, !Hpass by done. pose proof (Hsb i Hi). pose proof (Hsb j Hj).
      specialize (Hband i j Hi Hj). specialize (Hmin j Hj).
      destruct (decide (id = i)) as [<-|], (decide (id = j)) as [<-|]; lia.
    + intros i Hi. rewrite Hpass by done. destruct (Hnowrap i Hi). specialize (Hsb i Hi).
      case_decide; lia.
Qed.

(** A task far behind the others runs alone. *)
Lemma wp_monopoly pf fuel n : forall k l a,
  sched_ok k l -> a ∈ l -> 0 <= pass_of k a -> (forall j, j ∈ l -> pass_of k j < 2 ^ 64) ->
  (forall j, j ∈ l -> j <> a -> pass_of k a + Z.of_nat n * stride_of k a < pass_of k j) ->
  wp (timer_turns pf (S fuel) n) (fun ran k' => sched_ok k' l /\ ran = repeat a n) k.
Proof.
  induction n as [|n IH]; intros k l a Hs Ha H0 Hu Hlow; cbn [timer_turns]; [by apply wp_ret|].
  pose proof (stride_bounds k l a (so_queue _ _ Hs) Ha) as Hsb. rewrite BIG_STRIDE_val in Hsb.
  wp_step. eapply wp_mono; [|by apply wp_timer_step]. cbn beta. intros _ k1 (id & Hc & Hid & Hs1 & Hmin & Hp & Hpr).
  wp_steps. rewrite Hc. cbn [unwrap]. wp_steps.
  assert (id = a) as ->.
  { destruct (decide (id = a)) as [|Hne]; [done|]. specialize (Hlow id Hid Hne). specialize (Hmin a Ha). nia. }
  assert (Hst : stride_of k1 a = stride_of k a) by (unfold stride_of; by rewrite Hpr).
  assert (Hother : forall j, j <> a -> pass_of k1 j = pass_of k j) by (intros j Hj; by rewrite Hp, decide_False).
  assert (Hstep : forall v, v = pass_of k a +% stride_of k a -> 0 <= v /\ v < 2 ^ 64) by (intros v ->; apply wrap64_range).
  eapply wp_mono; [|apply (IH k1 l a Hs1 Ha)].
  - intros ran k2 [Hs2 ->]. wp_steps. by split.
  - rewrite Hp, decide_True by done. by apply Hstep.
  - intros j Hj. rewrite Hp. case_decide; [subst; by apply Hstep|by apply Hu].
  - intros j Hj Hne. rewrite Hst, (Hother j Hne), Hp, decide_True by done. specialize (Hlow j Hj Hne). specialize (Hu j Hj).
    rewrite wrap64_small by nia. nia.
Qed.

(** C38: the comparison of passes ignores that they wrap, and a task can be starved.  Take
    tasks such that the pass of the one to run next, whichever it is, exceeds 2^64 - 1 when
    its stride is added, and what is left of it plus [n] strides is still below the passes
    of the others (with equal priorities, [n] can be 2^20 times the priority).  Then the
    task that the next interrupt starts is the only one to run over [n + 1] interrupts. *)
Theorem stride_wrap_starves pf fuel n k l :
  sched_ok k l -> (forall i, i ∈ l -> 0 <= pass_of k i < 2 ^ 64) ->
  (forall i, i ∈ l -> (forall j, j ∈ l -> pass_of k i <= pass_of k j) ->
     2 ^ 64 <= pass_of k i + stride_of k i /\
     forall j, j ∈ l -> j <> i -> pass_of k i + stride_of k i - 2 ^ 64 + Z.of_nat n * stride_of k i < pass_of k j) ->
  wp (timer_turns pf (S fuel) (S n)) (fun ran k' => sched_ok k' l /\ exists a, a ∈ l /\ ran = repeat a (S n)) k.
Proof.
  intros Hs Hu Hwrap. cbn [timer_turns]. wp_step. eapply wp_mono; [|by apply wp_timer_step]. cbn beta.
  intros _ k1 (a & Hc & Ha & Hs1 & Hmin & Hp & Hpr). wp_steps. rewrite Hc. cbn [unwrap]. wp_steps.
  destruct (Hwrap a Ha Hmin) as [Hover Hlow]. pose proof (Hu a Ha) as Hua.
  pose proof (stride_bounds k l a (so_queue _ _ Hs) Ha) as Hsb. rewrite BIG_STRIDE_val in Hsb.
  assert (Hst : stride_of k1 a = stride_of k a) by (unfold stride_of; by rewrite Hpr).
  assert (Hpa : pass_of k1 a = pass_of k a + stride_of k a - 2 ^ 64).
  { rewrite Hp, decide_True by done. unfold wrap64. symmetry. apply (Z.mod_unique _ _ 1); lia. }
  eapply wp_mono; [|apply (wp_monopoly pf fuel n k1 l a Hs1 Ha)].
  - intros ran k2 [Hs2 ->]. wp_steps. split; [done|]. by exists a.
  - lia.
  - intros j Hj. destruct (decide (j = a)) as [->|Hne]; [lia|]. rewrite Hp, decide_False by done. by apply Hu.
  - intros j Hj Hne. rewrite Hst, Hpa, (Hp j), decide_False by done. by apply Hlow.
Qed.

(** [fetch_task] on every branch.  From an empty queue it returns [None] and changes
    nothing.  Otherwise it returns the first of the tasks with the least pass, removes
    exactly it from the queue, adds [BIG_STRIDE / priority] to its pass, and changes
    nothing else of the kernel. *)
Theorem fetch_task_correct k :
  queue_ok k (ready_queue k) -> CellManager ∉ borrowed k ->
  (ready_queue k = [] -> fetch_task k = Ok (None, k)) /\
  (ready_queue k <> [] -> exists i id, ready_queue k !! i = Some id /\
     (forall j id', ready_queue k !! j = Some id' ->
        pass_of k id <= pass_of k id' /\ ((j < i)%nat -> pass_of k id < pass_of k id')) /\
     fetch_task k = Ok (Some id, set_ready_queue (delete i (ready_queue k)) (alter_task id next_pass k))).
Proof.
  intros Hq Hm. split; intros Hr; [by apply fetch_task_empty|].
  pose proof (wp_fetch_task k Hq Hm Hr) as (o & k' & Hrun & i & id & -> & Hi & Hfl & ->)%wp_Ok.
  exists i, id. split_and!; [done| |done]. destruct Hfl as (_ & id' & Hid' & Hleast).
  assert (id' = id) as -> by congruence. intros j id'' Hj. apply Hleast; [|done].
  by eapply lookup_lt_Some.
Qed.

End Scheduler.

(** ** Concrete schedules *)

Definition demo_inner (p prio : Z) : TaskControlBlockInner := {|
  trap_cx_ppn := 0; base_size := 0; task_cx := zero_init; task_status := Ready;
  memory_set := mk_ms (mk_pt 0 []) []; parent := None; children := []; exit_code := 0;
  pass := p; priority := prio; syscall_times := []; start_time := None; kstack := ToTrapReturn |}.

(** Task 0 runs and task 1 is ready, with passes [p] and the given priorities. *)
Definition demo_sched (p prio0 prio1 : Z) : Kernel StackFrameAllocator :=
  mk_kernel (mk_mm (fun _ => 0) sfa_new) (mk_ms (mk_pt 0 []) []) pids_new
    (list_to_map [(0, mk_tcb 0 0 (demo_inner p prio0)); (1, mk_tcb 1 1 (demo_inner p prio1))])
    2 [1] (Some 0) None [] 0 0 None [].

Definition demo_platform : Platform := {|
  linker := {| stext := 0; etext := 0; srodata := 0; erodata := 0; sdata := 0; edata := 0;
               sbss_with_stack := 0; ebss := 0; ekernel := 0; strampoline := 0 |};
  sbss := 0; parse_elf := fun _ => None; time_at := fun n => Z.of_nat n; char_at := fun _ => 0;
  sstatus_value := 0; trap_return_addr := 0; trap_handler_addr := 0; num_app_addr := 0;
  app_names_addr := 0; ti_status := 2008; ti_times := 8; ti_time := 0; str_fuel := 64 |}.

Lemma demo_elem (P : Z -> Prop) : P 0 -> P 1 -> forall id, id ∈ [0; 1] -> P id.
Proof. intros H0 H1 id. rewrite !elem_of_cons. by intros [->|[->|[]%not_elem_of_nil]]. Qed.

Lemma demo_sched_ok p prio0 prio1 :
  0 < prio0 -> 0 < prio1 -> sched_ok (demo_sched p prio0 prio1) [0; 1].
Proof.
  intros H0 H1. split; [by exists 0|split|done|].
  - by apply demo_elem; eexists.
  - apply NoDup_cons. split; [set_solver|apply NoDup_singleton].
  - apply demo_elem; apply not_elem_of_nil.
  - by apply demo_elem.
  - apply demo_elem; by left.
Qed.

Lemma stride_fair_witness :
  wp (timer_turns demo_platform 1 6) (fun ran k' => sched_ok k' [0; 1] /\ length ran = 6%nat /\
    (forall id, id ∈ ran -> id ∈ [0; 1]) /\
    forall i j, i ∈ [0; 1] -> j ∈ [0; 1] ->
      pass_of (demo_sched 0 2 4) i + turns_of i ran * stride_of (demo_sched 0 2 4) i <=
        pass_of (demo_sched 0 2 4) j + turns_of j ran * stride_of (demo_sched 0 2 4) j
          + stride_of (demo_sched 0 2 4) i) (demo_sched 0 2 4).
Proof.
  apply (stride_fair demo_platform 0 6 (demo_sched 0 2 4) [0; 1]).
  - by apply demo_sched_ok.
  - intros i j Hi Hj. rewrite !elem_of_cons in Hi, Hj.
    destruct Hi as [->|[->|[]%not_elem_of_nil]], Hj as [->|[->|[]%not_elem_of_nil]];
      vm_compute; discriminate.
  - apply demo_elem; (split; [vm_compute; discriminate|vm_compute; reflexivity]).
Defined.

Lemma fetch_task_correct_witness :
  ready_queue (demo_sched 0 2 4) <> [] /\
  exists i id, ready_queue (demo_sched 0 2 4) !! i = Some id /\
    fetch_task (demo_sched 0 2 4) = Ok (Some id, set_ready_queue
      (delete i (ready_queue (demo_sched 0 2 4))) (alter_task id next_pass (demo_sched 0 2 4))).
Proof.
  split; [done|].
  assert (Hq : queue_ok (demo_sched 0 2 4) [1]).
  { eapply queue_ok_sub; [by apply (so_queue _ _ (demo_sched_ok 0 2 4 eq_refl eq_refl))| |].
    - intros id ->%list_elem_of_singleton. by right; left.
    - apply NoDup_singleton. }
  destruct (proj2 (fetch_task_correct (demo_sched 0 2 4) Hq (not_elem_of_nil _)) ltac:(done))
    as (i & id & Hi & _ & Hf).
  by exists i, id.
Defined.

(** Two tasks of priority 16 whose passes are 2^64 - 1: one of them waits for sixteen million
    interrupts. *)
Lemma stride_wrap_starves_witness :
  let n := Z.to_nat 16000000 in
  wp (timer_turns demo_platform 1 (S n)) (fun ran k' => exists a, a ∈ [0; 1] /\ ran = repeat a (S n)) (demo_sched (2 ^ 64 - 1) 16 16).
Proof.
  intros n. eapply wp_mono; [|refine (stride_wrap_starves demo_platform 0 n (demo_sched (2 ^ 64 - 1) 16 16) [0; 1] _ _ _)].
  - intros ran k' (_ & Hran). exact Hran.
  - by apply demo_sched_ok.
  - apply demo_elem; by split.
  - assert (Hn : Z.of_nat n = 16000000) by (apply Z2Nat.id; lia). rewrite Hn.
    intros i Hi _. split.
    + revert i Hi. apply demo_elem; vm_compute; discriminate.
    + intros j Hj _. rewrite !elem_of_cons in Hi, Hj.
      destruct Hi as [->|[->|[]%not_elem_of_nil]], Hj as [->|[->|[]%not_elem_of_nil]]; vm_compute; reflexivity.
Defined.
