(* ===== verification/MmapSpec.v ===== *)
(** * mmap and munmap

    What [sys_mmap] and [sys_munmap] do to the address space of the running task, on
    every branch, and what [munmap] leaves behind. *)

From S2P Require Import Prelude Config Address PhysMem FrameAllocator PageTable PageTableSpec.
From S2P Require Import MemorySet MemorySetSpec ForkSpec Timer Pid Kernel Manager Task Loader.
From S2P Require Import Processor Syscall KernelSpec.

Section Mmap.
Context {T : Type} `{FrameAllocatorSpec T}.
Implicit Types (s : MmState T) (k : Kernel T).

(** ** Unmapping a range *)

Lemma wp_unmap_pages s pt pages :
  pt_ok s pt -> (forall p q, p ∈ pages -> q ∈ pages -> p mod 2 ^ 27 = q mod 2 ^ 27 -> p = q) ->
  NoDup pages -> (forall p, p ∈ pages -> is_Some (mapping (phys s) pt p)) ->
  wp (foldM PageTable_unmap pages pt) (fun pt' s' => pt' = pt /\ pt_ok s' pt /\
    grows 0 s (pt_frames pt) [] s' /\
    (forall v, aliases v pages -> translate (phys s') pt v = Some pte_empty) /\
    (forall v, ~ aliases v pages -> translate (phys s') pt v = translate (phys s) pt v)) s.
Proof.
  intros Hok Hinj Hnd Hmapped.
  apply (wp_foldM _ (fun l pt' s' => pt' = pt /\ pt_ok s' pt /\ grows 0 s (pt_frames pt) [] s' /\
    (forall v, aliases v l -> translate (phys s') pt v = Some pte_empty) /\
    (forall v, ~ aliases v l -> translate (phys s') pt v = translate (phys s) pt v))).
  - split_and!; [done|done|apply grows_refl, Hok| |done]. by intros v (p & []%not_elem_of_nil & _).
  - intros l p rest pt' s1 Hsplit (-> & Hok1 & Hg1 & Hn1 & Ho1).
    assert (Hp : p ∈ pages) by (rewrite Hsplit; apply elem_of_app; right; by left).
    assert (Hna : ~ aliases p l).
    { intros (q & Hq & He). assert (p = q) as <-.
      - apply Hinj; try done. rewrite Hsplit. apply elem_of_app. by left.
      - rewrite Hsplit in Hnd. apply NoDup_app in Hnd as (_ & Hd & _). apply (Hd _ Hq). by left. }
    eapply wp_mono; [|apply (wp_unmap_entry s1 pt p Hok1)]; [|unfold mapping; by rewrite Ho1; [apply Hmapped|]].
    cbn beta. intros pt2 s2 (-> & Hok2 & Hg2 & Hm2). split_and!; [done|done| | |].
    + apply (grows_trans 0 0 s (pt_frames pt) [] s1 (pt_frames pt)); [done..|]. by left.
    + intros v (q & Hq & He). rewrite Hm2. case_decide; [done|]. apply Hn1. exists q. split; [|done].
      apply elem_of_app in Hq as [Hq|Hq%list_elem_of_singleton]; [done|]. by subst.
    + intros v [? ?]%aliases_snoc. rewrite Hm2, decide_False by done. by apply Ho1.
Qed.

(** The mappings that [translate] gives then. *)
Lemma unmapped_mapping (m m' : mem) pt pages :
  (forall v, aliases v pages -> translate m' pt v = Some pte_empty) -> (forall v, ~ aliases v pages -> translate m' pt v = translate m pt v) ->
  (forall v, aliases v pages -> mapping m' pt v = None) /\ (forall v, ~ aliases v pages -> mapping m' pt v = mapping m pt v).
Proof. intros Hn Ho. split; intros v Hv; unfold mapping; [by rewrite Hn|by rewrite Ho]. Qed.

(** ** The scans of the two calls *)

Lemma mapping_is_Some (m : mem) pt v :
  is_Some (mapping m pt v) <-> match translate m pt v with
                               | Some bits => pte_is_valid bits = true
                               | None => False
                               end.
Proof.
  unfold mapping. destruct (translate m pt v) as [b|].
  - destruct (pte_is_valid b); [split; eauto|split; [by intros [? ?]|done]].
  - split; [by intros [? ?]|done].
Qed.

Lemma any_mapped_false (m : mem) ms pages :
  any_mapped m ms pages = false <->
  forall p, p ∈ pages -> mapping m (page_table ms) p = None.
Proof.
  unfold any_mapped, MemorySet_translate. induction pages as [|p pages IH]; cbn.
  - split; [by intros _ p []%not_elem_of_nil|done].
  - rewrite orb_false_iff, IH. split.
    + intros [Hp Hr] q [->|Hq]%elem_of_cons; [|by apply Hr].
      unfold mapping. destruct (translate _ _ p) as [b|]; [|done]. by rewrite Hp.
    + intros Hall. split; [|intros q Hq; apply Hall; by right].
      specialize (Hall p ltac:(by left)). unfold mapping in Hall.
      destruct (translate _ _ p) as [b|]; [|done]. by destruct (pte_is_valid b).
Qed.

Lemma any_unmapped_false (m : mem) ms pages :
  any_unmapped m ms pages = false <->
  forall p, p ∈ pages -> is_Some (mapping m (page_table ms) p).
Proof.
  unfold any_unmapped, MemorySet_translate. induction pages as [|p pages IH]; cbn.
  - split; [by intros _ p []%not_elem_of_nil|done].
  - rewrite orb_false_iff, IH. split.
    + intros [Hp Hr] q [->|Hq]%elem_of_cons; [|by apply Hr]. apply mapping_is_Some.
      destruct (translate _ _ p) as [b|]; [|done]. by apply negb_false_iff.
    + intros Hall. split; [|intros q Hq; apply Hall; by right].
      specialize (Hall p ltac:(by left)). rewrite mapping_is_Some in Hall.
      destruct (translate _ _ p) as [b|]; [|done]. by rewrite Hall.
Qed.

(** The flags [port] accepts. *)
Lemma port_high_bits port :
  0 <= port < 2 ^ 64 -> (Z.land port (Z.lxor usize_max 7) =? 0) = (port <? 8).
Proof.
  intros Hp. destruct (Z.ltb_spec port 8) as [Hlt|Hge].
  - assert (Hc : forallb (fun p => Z.land p (Z.lxor usize_max 7) =? 0) (seqZ 0 8) = true) by reflexivity.
    apply (forallb_seqZ _ _ _ Hc). lia.
  - apply Z.eqb_neq. intros He. apply (f_equal (fun x => Z.testbit x (Z.log2 port))) in He.
    rewrite Z.land_spec, Z.bits_0, Z.bit_log2 in He by lia. cbn [andb] in He.
    assert (Hl : 3 <= Z.log2 port < 3 + 61).
    { split; [by apply (Z.log2_le_mono 8)|]. apply Z.log2_lt_pow2; lia. }
    assert (Hc : forallb (fun i => Z.testbit (Z.lxor usize_max 7) i) (seqZ 3 61) = true) by reflexivity.
    rewrite (forallb_seqZ _ _ _ Hc) in He by lia. discriminate.
Qed.

Lemma port_low_bits port : 0 <= port < 8 -> Z.land port 7 = port.
Proof. intros Hp. change 7 with (2 ^ 3 - 1). rewrite land_ones_mod by done. apply Z.mod_small. lia. Qed.

(** The permission of a mapping with flags [port]. *)
Definition mmap_perm (port : Z) : Z := Z.lor (wrap8 (Z.shiftl (wrap8 port) 1)) MP_U.

Lemma mmap_perm_ok port :
  1 <= port <= 7 ->
  MapPermission_from_bits (wrap8 (Z.shiftl (wrap8 port) 1)) = Some (wrap8 (Z.shiftl (wrap8 port) 1)) /\
  Z.lor (mmap_perm port) PTE_V = 2 * port + 17 /\ is_u8 (mmap_perm port).
Proof.
  intros Hp. assert (Hc : port = 1 \/ port = 2 \/ port = 3 \/ port = 4 \/ port = 5 \/ port = 6 \/ port = 7) by lia.
  destruct Hc as [->|[->|[->|[->|[->|[->| ->]]]]]]; by vm_compute.
Qed.

(** The running task of a kernel that holds no guard. *)
Record running k (c : Z) (t : TaskControlBlock) : Prop := {
  run_current : current k = Some c;
  run_task : tasks k !! c = Some t;
  run_borrowed : borrowed k = []
}.

Lemma wp_on_current {A} k c t (f : Z -> TaskControlBlockInner -> M (Kernel T) A) Q :
  running k c t ->
  wp (f c (inner t)) (fun a k' => Q a (set_borrowed [] k')) (set_borrowed [CellTask c; CellProcessor] k) ->
  wp (with_cell CellProcessor (with_current f)) Q k.
Proof.
  intros [Hc Ht Hb] Hw. apply wp_with_cell; [cell_free|]. rewrite Hb. unfold with_current, processor_current.
  wp_steps. cbn [current set_borrowed]. rewrite Hc. cbn [unwrap]. wp_steps.
  apply wp_with_cell; [cell_free|]. wp_step. eapply wp_inner_of; [done|].
  eapply wp_mono, Hw. done.
Qed.

Lemma range_of_call start len :
  0 <= start -> 0 <= len -> start + len <= 2 ^ 64 - PAGE_SIZE ->
  SimpleRange_new (VirtAddr_floor start) (VirtAddr_ceil (start +% len)) = Ok (va_range start (start + len)) /\
  wrap64 (start + len) = start + len.
Proof.
  intros Hs Hl He. unfold PAGE_SIZE in *. assert (Hw : wrap64 (start + len) = start + len) by (apply wrap64_small; lia).
  split; [|done]. rewrite Hw. pose proof (MapArea_new_ok start (start + len) Framed 0) as Hm.
  unfold MapArea_new in Hm. destruct (SimpleRange_new _ _) as [r|]; specialize (Hm ltac:(lia) ltac:(unfold PAGE_SIZE; lia));
    [|done]. by injection Hm as ->.
Qed.

Lemma VirtAddr_aligned_mod va : VirtAddr_aligned va = (va mod PAGE_SIZE =? 0).
Proof.
  unfold VirtAddr_aligned, VirtAddr_page_offset. change (PAGE_SIZE - 1) with (2 ^ 12 - 1).
  by rewrite land_ones_mod.
Qed.

Lemma wp_mmap_bad_args k c t start len port Q :
  running k c t -> 0 <= port < 2 ^ 64 ->
  start mod PAGE_SIZE <> 0 \/ port = 0 \/ 8 <= port -> Q (-1) k -> wp (task_mmap start len port) Q k.
Proof.
  intros [_ _ Hb] Hp Hbad HQ. apply wp_with_cell; [cell_free|]. unfold processor_task_mmap.
  rewrite VirtAddr_aligned_mod, port_high_bits by done.
  assert (negb (start mod PAGE_SIZE =? 0) || negb (port <? 8) || (Z.land port 7 =? 0) = true) as ->.
  { destruct (Z.eqb_spec (start mod PAGE_SIZE) 0); [|done]. destruct (Z.ltb_spec port 8); [|done].
    destruct Hbad as [?|[->|?]]; [done|done|lia]. }
  apply wp_ret. by rewrite <-set_borrowed_id with (k := k) at 2; destruct k.
Qed.

(** The call past its argument checks. *)
Lemma wp_mmap_checked k c t start len port Q :
  running k c t -> 0 <= start -> 0 <= len -> start + len <= 2 ^ 64 - PAGE_SIZE ->
  start mod PAGE_SIZE = 0 -> 1 <= port <= 7 ->
  let ms := memory_set (inner t) in
  (if any_mapped (phys (mm k)) ms (range_items (va_range start (start + len))) then Q (-1) k
   else wp (insert_framed_area ms start (start + len) (mmap_perm port))
          (fun ms' s' => Q 0 (alter_task c (set_memory_set ms') (set_mm s' k))) (mm k)) ->
  wp (task_mmap start len port) Q k.
Proof.
  intros Hrun Hs Hl He Hal Hport ms HQ. destruct (range_of_call start len) as [Hr Hw]; [done..|].
  unfold task_mmap, processor_task_mmap.
  rewrite VirtAddr_aligned_mod, port_high_bits, port_low_bits, Hal by lia.
  destruct (Z.ltb_spec port 8); [|lia]. destruct (Z.eqb_spec port 0); [lia|]. cbn [Z.eqb negb orb].
  eapply wp_on_current; [done|]. unfold mem_of. wp_steps. eapply wp_lift; [done|].
  cbn [mm set_borrowed]. destruct (any_mapped _ _ _).
  - wp_steps. destruct Hrun as [_ _ Hb]. by destruct k; cbn in *; subst.
  - destruct (mmap_perm_ok port Hport) as (Hbits & _ & _).
    wp_step. eapply wp_unwrap; [done|]. fold (mmap_perm port). rewrite Hw. wp_step. apply wp_in_mm.
    eapply wp_mono, HQ. intros ms' s' HQ'. wp_step.
    eapply wp_update_inner; [apply Hrun|]. wp_steps. destruct Hrun as [_ _ Hb].
    by destruct k; cbn in *; subst.
Qed.

(** A call that is refused. *)
Lemma mmap_refused k c t start len port :
  running k c t -> 0 <= start -> 0 <= len -> start + len <= 2 ^ 64 - PAGE_SIZE -> 0 <= port < 2 ^ 64 ->
  start mod PAGE_SIZE <> 0 \/ port = 0 \/ 8 <= port \/
    (exists p, p ∈ range_items (va_range start (start + len)) /\ is_Some (mapping (phys (mm k)) (page_table (memory_set (inner t))) p)) ->
  sys_mmap start len port k = Ok (Return (-1), k).
Proof.
  intros Hrun Hs Hl He Hport Hbad. apply wp_eq. unfold sys_mmap. wp_step.
  destruct (decide (start mod PAGE_SIZE <> 0 \/ port = 0 \/ 8 <= port)) as [Hargs|Hargs].
  { by eapply wp_mmap_bad_args. }
  eapply wp_mmap_checked; [done|lia..|]. destruct (any_mapped _ _ _) eqn:E; [done|].
  destruct Hbad as [?|[?|[?|(p & Hp & Hsome)]]]; [tauto..|].
  rewrite any_mapped_false in E. rewrite (E p Hp) in Hsome. by destruct Hsome.
Qed.

(** A call that maps its range. *)
Lemma mmap_maps k c t start len port :
  running k c t -> ms_ok (mm k) (memory_set (inner t)) ->
  0 <= start -> 0 <= len <= 2 ^ 38 -> start + len <= 2 ^ 64 - PAGE_SIZE -> start mod PAGE_SIZE = 0 -> 1 <= port <= 7 ->
  let pt := page_table (memory_set (inner t)) in
  let pages := range_items (va_range start (start + len)) in
  (forall p, p ∈ pages -> mapping (phys (mm k)) pt p = None) ->
  (3 * length pages <= size (free_frames (mm k)))%nat ->
  wp (sys_mmap start len port) (fun r k' => r = Return 0 /\ exists ms' s',
    k' = alter_task c (set_memory_set ms') (set_mm s' k) /\ ms_ok s' ms' /\
    (forall p, p ∈ pages -> exists f,
       mapping (phys s') (page_table ms') p = Some (pte_new f (2 * port + 17)) /\
       f ∈ free_frames (mm k) /\ forall x, x / PAGE_SIZE = f -> phys s' x = 0) /\
    (forall v, ~ aliases v pages ->
       mapping (phys s') (page_table ms') v = mapping (phys (mm k)) pt v) /\
    (forall x, in_use (mm k) (x / PAGE_SIZE) -> x / PAGE_SIZE ∉ pt_frames pt ->
       phys s' x = phys (mm k) x)) k.
Proof.
  intros Hrun Hms Hs Hl He Hal Hp pt pages Hnone Hsize. unfold sys_mmap. wp_step. eapply wp_mmap_checked; [done|lia..|done|done|].
  destruct (mmap_perm_ok port Hp) as (_ & Hbits & Hu8).
  assert (E : any_mapped (phys (mm k)) (memory_set (inner t)) (range_items (va_range start (start + len))) = false)
    by (by apply any_mapped_false).
  rewrite E. eapply wp_mono; [|apply (wp_insert_framed_area (mm k)); try done; lia].
  cbn beta. intros ms' s' (Hok & _ & _ & Hmap & Hother & Hmem). wp_steps. split; [done|].
  exists ms', s'. rewrite Hbits in Hmap. done.
Qed.

(** C16: [sys_mmap] on every branch, for a range that does not reach the last page.  A
    start that is not page-aligned, flags outside 1 to 7, or a page of the range that
    is already mapped: it returns -1 and changes nothing.  Otherwise, with three
    frames to spare per page, it returns 0: every page of the range is mapped to a
    cleared frame of its own with the permissions asked for and user access, every
    other page keeps its mapping, no byte of a page in use outside the page tables
    changes, the address space is well-formed, and nothing but memory and the
    caller's address space changes. *)
Theorem sys_mmap_correct k c t start len port :
  running k c t -> ms_ok (mm k) (memory_set (inner t)) ->
  0 <= start -> 0 <= len <= 2 ^ 38 -> start + len <= 2 ^ 64 - PAGE_SIZE -> 0 <= port < 2 ^ 64 ->
  let pt := page_table (memory_set (inner t)) in
  let pages := range_items (va_range start (start + len)) in
  (start mod PAGE_SIZE <> 0 \/ port = 0 \/ 8 <= port \/
     (exists p, p ∈ pages /\ is_Some (mapping (phys (mm k)) pt p)) ->
   sys_mmap start len port k = Ok (Return (-1), k)) /\
  (start mod PAGE_SIZE = 0 -> 1 <= port <= 7 ->
   (forall p, p ∈ pages -> mapping (phys (mm k)) pt p = None) ->
   (3 * length pages <= size (free_frames (mm k)))%nat ->
   wp (sys_mmap start len port) (fun r k' => r = Return 0 /\ exists ms' s',
     k' = alter_task c (set_memory_set ms') (set_mm s' k) /\ ms_ok s' ms' /\
     (forall p, p ∈ pages -> exists f,
        mapping (phys s') (page_table ms') p = Some (pte_new f (2 * port + 17)) /\
        f ∈ free_frames (mm k) /\ forall x, x / PAGE_SIZE = f -> phys s' x = 0) /\
     (forall v, ~ aliases v pages ->
        mapping (phys s') (page_table ms') v = mapping (phys (mm k)) pt v) /\
     (forall x, in_use (mm k) (x / PAGE_SIZE) -> x / PAGE_SIZE ∉ pt_frames pt ->
        phys s' x = phys (mm k) x)) k).
Proof.
  intros Hrun Hms Hs Hl He Hport pt pages. split.
  - intros Hbad. eapply mmap_refused; try done. lia.
  - intros Hal Hp Hnone Hsize. by apply mmap_maps.
Qed.

Lemma va_range_ok start len :
  0 <= start -> 0 <= len <= 2 ^ 38 -> start + len <= 2 ^ 64 - PAGE_SIZE -> range_ok (va_range start (start + len)).
Proof. intros. unfold range_ok, va_range, PAGE_SIZE in *. cbn. zdm. Qed.

Lemma wp_MemorySet_unmap s ms start_vpn end_vpn :
  pt_ok s (page_table ms) -> range_ok (mk_range start_vpn end_vpn) ->
  let pages := range_items (mk_range start_vpn end_vpn) in
  (forall p, p ∈ pages -> is_Some (mapping (phys s) (page_table ms) p)) ->
  wp (MemorySet_unmap ms start_vpn end_vpn) (fun ms' s' => ms' = ms /\ pt_ok s' (page_table ms) /\
    grows 0 s (pt_frames (page_table ms)) [] s' /\
    (forall v, aliases v pages -> translate (phys s') (page_table ms) v = Some pte_empty) /\
    (forall v, ~ aliases v pages -> translate (phys s') (page_table ms) v = translate (phys s) (page_table ms) v)) s.
Proof.
  intros Hok Hr pages Hm. unfold MemorySet_unmap. wp_step. apply (wp_lift _ (mk_range start_vpn end_vpn)).
  { unfold SimpleRange_new. destruct Hr as [Hr _]. cbn in Hr. by destruct (Z.leb_spec start_vpn end_vpn); [|lia]. }
  wp_step. eapply wp_mono; [|apply (wp_unmap_pages s (page_table ms)); try done].
  - cbn beta. intros pt' s' (-> & Hok' & Hg & Hn & Ho). wp_steps. by destruct ms.
  - intros p q Hp Hq. by apply (range_ok_slot (mk_range start_vpn end_vpn)).
  - by apply NoDup_range_items.
Qed.

(** The call past its alignment check. *)
Lemma wp_munmap_checked k c t start len Q :
  running k c t -> 0 <= start -> 0 <= len -> start + len <= 2 ^ 64 - PAGE_SIZE -> start mod PAGE_SIZE = 0 ->
  let ms := memory_set (inner t) in
  let r := va_range start (start + len) in
  (if any_unmapped (phys (mm k)) ms (range_items r) then Q (-1) k
   else wp (MemorySet_unmap ms (range_l r) (range_r r))
          (fun ms' s' => Q 0 (alter_task c (set_memory_set ms') (set_mm s' k))) (mm k)) ->
  wp (task_munmap start len) Q k.
Proof.
  intros Hrun Hs Hl He Hal ms r HQ. destruct (range_of_call start len) as [Hr Hw]; [done..|].
  unfold task_munmap, processor_task_munmap. rewrite VirtAddr_aligned_mod, Hal. cbn [Z.eqb negb].
  eapply wp_on_current; [done|]. unfold mem_of. wp_steps.
  pose proof Hr as Hlr. unfold SimpleRange_new, va_range in Hlr. destruct (_ <=? _); [|done]. injection Hlr as Hr'.
  eapply wp_lift; [done|]. cbn [mm set_borrowed]. fold ms r. destruct (any_unmapped _ _ _).
  - wp_steps. destruct Hrun as [_ _ Hb]. by destruct k; cbn in *; subst.
  - wp_step. apply wp_in_mm. rewrite Hr'. eapply wp_mono, HQ. intros ms' s' HQ'. wp_step.
    eapply wp_update_inner; [apply Hrun|]. wp_steps. destruct Hrun as [_ _ Hb].
    by destruct k; cbn in *; subst.
Qed.

Lemma alter_task_same k c t : tasks k !! c = Some t -> alter_task c (set_memory_set (memory_set (inner t))) k = k.
Proof.
  intros Ht. rewrite (alter_task_ext c _ (fun i => i) k t Ht) by (by destruct (inner t)).
  unfold alter_task. rewrite alter_id; [by destruct k|]. by intros [].
Qed.

(** A call that is refused. *)
Lemma munmap_refused k c t start len :
  running k c t -> 0 <= start -> 0 <= len -> start + len <= 2 ^ 64 - PAGE_SIZE ->
  start mod PAGE_SIZE <> 0 \/
    (exists p, p ∈ range_items (va_range start (start + len)) /\ mapping (phys (mm k)) (page_table (memory_set (inner t))) p = None) ->
  sys_munmap start len k = Ok (Return (-1), k).
Proof.
  intros Hrun Hs Hl He Hbad. apply wp_eq. unfold sys_munmap. wp_step. destruct (decide (start mod PAGE_SIZE = 0)) as [Hal|Hal].
  - eapply wp_munmap_checked; [done|lia..|done|]. destruct (any_unmapped _ _ _) eqn:E; [done|].
    destruct Hbad as [?|(p & Hp & Hnone)]; [done|]. rewrite any_unmapped_false in E. destruct (E p Hp) as [b Hb]. congruence.
  - destruct Hrun as [_ _ Hb]. apply wp_with_cell; [cell_free|]. unfold processor_task_munmap.
    rewrite VirtAddr_aligned_mod. destruct (Z.eqb_spec (start mod PAGE_SIZE) 0); [done|]. wp_steps.
    split; [done|]. by destruct k; cbn in *; subst.
Qed.

(** A call that unmaps: the tables stay, and the entries of the pages are empty. *)
Lemma munmap_unmaps k c t start len :
  running k c t -> ms_ok (mm k) (memory_set (inner t)) -> 0 <= start -> 0 <= len <= 2 ^ 38 -> start + len <= 2 ^ 64 - PAGE_SIZE ->
  start mod PAGE_SIZE = 0 ->
  let pt := page_table (memory_set (inner t)) in
  let pages := range_items (va_range start (start + len)) in
  (forall p, p ∈ pages -> is_Some (mapping (phys (mm k)) pt p)) ->
  exists s', sys_munmap start len k = Ok (Return 0, set_mm s' k) /\ pt_ok s' pt /\ grows 0 (mm k) (pt_frames pt) [] s' /\
    (forall v, aliases v pages -> translate (phys s') pt v = Some pte_empty) /\
    (forall v, ~ aliases v pages -> translate (phys s') pt v = translate (phys (mm k)) pt v).
Proof.
  intros Hrun Hms Hs Hl He Hal pt pages Hm.
  assert (Hw : wp (sys_munmap start len) (fun r k' => r = Return 0 /\ exists s', k' = set_mm s' k /\ pt_ok s' pt /\
    grows 0 (mm k) (pt_frames pt) [] s' /\ (forall v, aliases v pages -> translate (phys s') pt v = Some pte_empty) /\
    (forall v, ~ aliases v pages -> translate (phys s') pt v = translate (phys (mm k)) pt v)) k).
  { unfold sys_munmap. wp_step. eapply wp_munmap_checked; [done|lia..|done|].
    assert (E : any_unmapped (phys (mm k)) (memory_set (inner t)) (range_items (va_range start (start + len))) = false)
      by (by apply any_unmapped_false).
    rewrite E. eapply wp_mono; [|apply wp_MemorySet_unmap; [apply Hms|by apply va_range_ok|done]].
    cbn beta. intros ms' s' (-> & Hok & Hg & Hn & Ho). wp_steps. split; [done|]. exists s'. split_and!; try done.
    apply (alter_task_same (set_mm s' k)). apply Hrun. }
  apply wp_Ok in Hw as (r & k' & Hrun' & -> & s' & -> & Hrest). by exists s'.
Qed.

(** C30: [sys_munmap] on every branch, for a range that does not reach the last page.  A
    start that is not page-aligned, or a page of the range that is not mapped: it
    returns -1 and changes nothing.  Otherwise it returns 0: the pages of the range are
    unmapped, every other page keeps its mapping, and memory outside the page tables
    is as before.  The frames of the pages are not freed, and the record of the areas
    is the same as before the call. *)
Theorem sys_munmap_correct k c t start len :
  running k c t -> ms_ok (mm k) (memory_set (inner t)) ->
  0 <= start -> 0 <= len <= 2 ^ 38 -> start + len <= 2 ^ 64 - PAGE_SIZE ->
  let pt := page_table (memory_set (inner t)) in
  let pages := range_items (va_range start (start + len)) in
  (start mod PAGE_SIZE <> 0 \/ (exists p, p ∈ pages /\ mapping (phys (mm k)) pt p = None) ->
   sys_munmap start len k = Ok (Return (-1), k)) /\
  (start mod PAGE_SIZE = 0 -> (forall p, p ∈ pages -> is_Some (mapping (phys (mm k)) pt p)) ->
   exists s', sys_munmap start len k = Ok (Return 0, set_mm s' k) /\
     free_frames s' = free_frames (mm k) /\
     (forall v, aliases v pages -> mapping (phys s') pt v = None) /\
     (forall v, ~ aliases v pages -> mapping (phys s') pt v = mapping (phys (mm k)) pt v) /\
     (forall x, x / PAGE_SIZE ∉ pt_frames pt -> phys s' x = phys (mm k) x)).
Proof.
  intros Hrun Hms Hs Hl He pt pages. split.
  - intros Hbad. eapply munmap_refused; try done. lia.
  - intros Hal Hm. destruct (munmap_unmaps k c t start len) as (s' & Hcall & _ & Hg & Hn & Ho); [done..|].
    destruct (unmapped_mapping _ _ _ _ Hn Ho) as [Hn' Ho']. exists s'. split_and!; [done| |done|done|].
    + rewrite (gr_free _ _ _ _ _ Hg). set_solver.
    + intros x Hx. apply (gr_mem _ _ _ _ _ Hg); [done|apply not_elem_of_nil].
Qed.

End Mmap.

(** ** A concrete task *)

(** Task 0 runs in the address space [demo_space]. *)
Definition demo_task (ms : MemorySet) : TaskControlBlock := mk_tcb 0 0 {|
  trap_cx_ppn := 0; base_size := 0; task_cx := zero_init; task_status := Running;
  memory_set := ms; parent := None; children := []; exit_code := 0;
  pass := 0; priority := 16; syscall_times := []; start_time := None; kstack := ToTrapReturn |}.
Definition demo_kernel (s : MmState StackFrameAllocator) (ms : MemorySet) : Kernel StackFrameAllocator :=
  mk_kernel s (mk_ms (mk_pt 0 []) []) pids_new {[ 0 := demo_task ms ]} 1 [] (Some 0) None [] 0 0 None [].

Lemma demo_kernel_running s ms : running (demo_kernel s ms) 0 (demo_task ms).
Proof. by split. Qed.

Lemma sys_mmap_correct_witness :
  wp (sys_mmap 65536 100 3) (fun r _ => r = Return 0) (demo_kernel (snd demo_space) (fst demo_space)).
Proof.
  refine (wp_mono _ _ _ _ _ (proj2 (sys_mmap_correct (demo_kernel (snd demo_space) (fst demo_space)) 0
    (demo_task (fst demo_space)) 65536 100 3 (demo_kernel_running _ _) demo_space_ok _ _ _ _) _ _ _ _)).
  - by intros r k' [Hr _].
  - lia.
  - lia.
  - unfold PAGE_SIZE. lia.
  - lia.
  - reflexivity.
  - lia.
  - assert (range_items (va_range 65536 (65536 + 100)) = [16]) as -> by reflexivity.
    intros p ->%list_elem_of_singleton. vm_compute. reflexivity.
  - vm_compute. lia.
Defined.

Lemma sys_munmap_correct_witness :
  exists s', sys_munmap 16384 4096 (demo_kernel (snd demo_space) (fst demo_space)) =
    Ok (Return 0, set_mm s' (demo_kernel (snd demo_space) (fst demo_space))).
Proof.
  destruct (proj2 (sys_munmap_correct (demo_kernel (snd demo_space) (fst demo_space)) 0
    (demo_task (fst demo_space)) 16384 4096 (demo_kernel_running _ _) demo_space_ok
    ltac:(lia) ltac:(lia) ltac:(unfold PAGE_SIZE; lia)) ltac:(reflexivity)) as (s' & Hs' & _).
  - assert (range_items (va_range 16384 (16384 + 4096)) = [4]) as -> by reflexivity.
    intros p ->%list_elem_of_singleton. apply is_some_true. vm_compute. reflexivity.
  - exists s'. exact Hs'.
Defined.
