(* ===== verification/LifecycleSpec.v ===== *)
(** * The end of a process

    [exit_current_and_run_next]: the task becomes a zombie with its exit code, its
    children go to [INITPROC], and the frames of its data pages return to the allocator.
    [sys_waitpid] while no child has exited, and what happens when [INITPROC] exits. *)

From S2P Require Import Prelude Config Address PhysMem FrameAllocator PageTable PageTableSpec.
From S2P Require Import MemorySet MemorySetSpec ForkSpec Timer Pid Kernel Manager Task Loader.
From S2P Require Import Processor Syscall KernelSpec MmapSpec.

(** ** Counting references *)

Section Refs.
Context {T : Type}.
Implicit Types k : Kernel T.

Lemma count_in_pos id l : id ∈ l -> count_in id l <> 0%nat.
Proof.
  intros Hin. unfold count_in. assert (Hf : id ∈ filter (fun x => x = id) l) by (by apply list_elem_of_filter).
  destruct (filter (fun x => x = id) l); [by apply not_elem_of_nil in Hf|done].
Qed.

(** A task in the list of children of a live task is referred to. *)
Lemma strong_refs_child k p tp id :
  tasks k !! p = Some tp -> id ∈ children (inner tp) -> strong_refs k id <> 0%nat.
Proof.
  intros Hp Hin%count_in_pos. unfold strong_refs.
  rewrite (map_fold_delete_L _ _ p tp (tasks k)); [lia|intros; lia|done].
Qed.

End Refs.

Section Exit.
Context {T : Type} `{FrameAllocatorSpec T}.
Implicit Types (s : MmState T) (k : Kernel T).

(** ** Reparenting *)

(** The heap after the tasks in [l] went to [init]. *)
Record reparented (init : Z) (l : list Z) k k' : Prop := {
  rp_same : k' = set_tasks (tasks k') k;
  rp_init : tasks k' !! init = with_inner (fun t => set_children (children t ++ l) t) <$> tasks k !! init;
  rp_child j : j <> init -> j ∈ l -> tasks k' !! j = with_inner (set_parent (Some init)) <$> tasks k !! j;
  rp_other j : j <> init -> j ∉ l -> tasks k' !! j = tasks k !! j
}.

Lemma wp_reparent init k l child k1 Q :
  reparented init l k k1 -> is_Some (tasks k !! init) -> is_Some (tasks k !! child) ->
  child <> init -> child ∉ l -> CellTask child ∉ borrowed k ->
  (forall k2, reparented init (l ++ [child]) k k2 -> Q tt k2) ->
  wp (reparent init child) Q k1.
Proof.
  intros [Hs Hi Hc Ho] [ti Hti] [tc Htc] Hne Hnl Hfree HQ. rewrite Hti in Hi.
  assert (Hb : borrowed k1 = borrowed k) by (by rewrite Hs).
  assert (Hc1 : tasks k1 !! child = Some tc) by (by rewrite Ho).
  unfold reparent. wp_step. apply wp_with_cell; [by rewrite Hb|].
  eapply wp_update_inner; [exact Hc1|]. eapply wp_update_inner.
  { cbn. by rewrite lookup_alter_ne, Hi. }
  apply HQ. split.
  - rewrite Hs. by destruct k.
  - cbn. rewrite lookup_alter_eq, lookup_alter_ne, Hi, Hti by done. cbn. unfold with_inner, vec_push, set_children. cbn.
    by rewrite <-app_assoc.
  - intros j Hj [Hin| ->%list_elem_of_singleton]%elem_of_app; cbn; rewrite lookup_alter_ne by done.
    + rewrite lookup_alter_ne by (intros ->; done). by apply Hc.
    + by rewrite lookup_alter_eq, Hc1, Htc.
  - intros j Hj Hnj. rewrite elem_of_app, list_elem_of_singleton in Hnj. cbn.
    rewrite !lookup_alter_ne by (intros ->; auto). apply Ho; auto.
Qed.

Lemma wp_reparent_all init k l Q :
  NoDup l -> is_Some (tasks k !! init) -> (forall c, c ∈ l -> is_Some (tasks k !! c) /\ c <> init /\ (CellTask c ∉ borrowed k)) ->
  (forall k', reparented init l k k' -> Q tt k') ->
  wp (for_each l (reparent init)) Q k.
Proof.
  intros Hnd Hinit Hl HQ. unfold for_each. eapply wp_mono; [|apply (wp_foldM _ (fun l' _ k' => reparented init l' k k'))].
  - intros [] k'. apply HQ.
  - split; [by destruct k| |by intros j _ []%not_elem_of_nil|done].
    destruct Hinit as [ti ->]. cbn. f_equal. destruct ti as [? ? []]. unfold with_inner, set_children. cbn. by rewrite app_nil_r.
  - intros l' c rest [] k1 Hsplit Hr. destruct (Hl c) as (Hc & Hne & Hfree); [rewrite Hsplit; apply elem_of_app; right; by left|].
    rewrite Hsplit in Hnd. apply NoDup_app in Hnd as (_ & Hd & _).
    eapply wp_reparent; [done..| |done|auto]. intros Hin. apply (Hd _ Hin). by left.
Qed.

(** ** Exit *)

(** The processes around an exiting task: [INITPROC] is another task, the children are
    other live tasks, and some task will be able to wait for it. *)
Record family k (c : Z) (t : TaskControlBlock) (init : Z) (ti : TaskControlBlock) : Prop := {
  fa_init : initproc k = Some init /\ tasks k !! init = Some ti /\ c <> init;
  fa_nodup : NoDup (children (inner t));
  fa_children j : j ∈ children (inner t) -> is_Some (tasks k !! j) /\ j <> init /\ j <> c;
  fa_parent : exists p tp, tasks k !! p = Some tp /\ p <> c /\ c ∈ children (inner tp)
}.

Definition zombie_of (code : Z) (t : TaskControlBlockInner) : TaskControlBlockInner :=
  set_memory_set (mk_ms (page_table (memory_set t)) []) (set_children [] (set_exit_code code (set_status Zombie t))).

Definition own_frames (ms : MemorySet) : list Z := concat (map area_frames (areas ms)).

Record exited (code : Z) k (c : Z) (t : TaskControlBlock) (init : Z) (ti : TaskControlBlock) k' : Prop := {
  ex_same : k' = set_tasks (tasks k') (set_mm (mm k') (set_current None k));
  ex_task : tasks k' !! c = Some (with_inner (zombie_of code) t);
  ex_init : tasks k' !! init = Some (with_inner (fun i => set_children (children i ++ children (inner t)) i) ti);
  ex_child j : j ∈ children (inner t) -> tasks k' !! j = with_inner (set_parent (Some init)) <$> tasks k !! j;
  ex_other j : j <> c -> j <> init -> j ∉ children (inner t) -> tasks k' !! j = tasks k !! j;
  ex_frames : free_frames (mm k') = list_to_set (own_frames (memory_set (inner t))) ∪ free_frames (mm k);
  ex_keep q : in_use (mm k) q -> q ∉ own_frames (memory_set (inner t)) -> in_use (mm k') q;
  ex_tables : ms_ok (mm k') (mk_ms (page_table (memory_set (inner t))) []);
  ex_phys : phys (mm k') = phys (mm k)
}.

(** The body of [exit_current_and_run_next] under the guard of the task. *)
Lemma wp_exit_body k c t init ti code Q :
  tasks k !! c = Some t -> borrowed k = [CellTask c] -> family k c t init ti -> ms_ok (mm k) (memory_set (inner t)) ->
  (forall k', exited code (set_current (current k) k) c t init ti (set_current None k') ->
     current k' = current k -> borrowed k' = [CellTask c] -> Q tt k') ->
  wp (update_inner c (set_status Zombie) ;;
      update_inner c (set_exit_code code) ;;
      let* k := get in
      let* init := unwrap (initproc k) in
      with_cell (CellTask init) (
        let* t := inner_of c in
        for_each (children t) (reparent init)) ;;
      update_inner c (set_children []) ;;
      let* t := inner_of c in
      let* ms := in_mm (recycle_data_pages (memory_set t)) in
      update_inner c (set_memory_set ms)) Q k.
Proof.
  intros Hc Hb [(Hin & Hti & Hne) Hnd Hch _] Hms HQ.
  wp_step. eapply wp_update_inner; [done|]. wp_step. eapply wp_update_inner; [by apply alter_task_lookup|].
  rewrite alter_task_compose. set (k1 := alter_task c _ k).
  assert (Hc1 : tasks k1 !! c = Some (with_inner (fun t => set_exit_code code (set_status Zombie t)) t)) by (by apply alter_task_lookup).
  assert (Ho1 : forall j, j <> c -> tasks k1 !! j = tasks k !! j) by (intros j Hj; cbn; by rewrite lookup_alter_ne).
  wp_step. wp_step. wp_step. eapply wp_unwrap; [exact Hin|].
  wp_step. apply wp_with_cell; [kernel_cbn; change (borrowed k1) with (borrowed k); rewrite Hb; rewrite not_elem_of_cons; split; [congruence|apply not_elem_of_nil]|].
  wp_step. eapply wp_inner_of; [exact Hc1|].
  apply wp_reparent_all; [exact Hnd| | |].
  { cbn. rewrite lookup_alter_ne by done. by eexists. }
  { intros j Hj. destruct (Hch j Hj) as (Hs & Hji & Hjc). split_and!; [|done|].
    - cbn. by rewrite lookup_alter_ne.
    - cbn. rewrite Hb. rewrite !not_elem_of_cons. split_and!; [congruence..|apply not_elem_of_nil]. }
  intros k2 [Hs2 Hi2 Hcs2 Ho2]. cbn [children inner with_inner set_exit_code set_status] in *.
  assert (Hncl : c ∉ children (inner t)) by (intros Hj%Hch; by destruct Hj as (_ & _ & ?)).
  assert (Hc2 : tasks k2 !! c = Some (with_inner (fun t => set_exit_code code (set_status Zombie t)) t)) by (by rewrite Ho2).
  wp_step. eapply wp_update_inner; [exact Hc2|]. wp_step. eapply wp_inner_of; [by apply alter_task_lookup|].
  wp_step. apply wp_in_mm. assert (Hmm : mm k2 = mm k) by (by rewrite Hs2). cbn [mm alter_task set_tasks set_borrowed].
  rewrite Hmm. eapply wp_mono; [|by apply wp_recycle_data_pages]. cbn beta. intros ms' s' (-> & Hok' & Hfr & Huse & Hph).
  eapply wp_update_inner; [kernel_cbn; by rewrite lookup_alter_eq, Hc2|]. apply HQ.
  - split; kernel_cbn; try done.
    + rewrite Hs2. unfold k1. by destruct k.
    + by rewrite !lookup_alter_eq, Hc2.
    + rewrite !lookup_alter_ne by done. rewrite Hi2. cbn. rewrite lookup_alter_ne by done. by rewrite Hti.
    + intros j Hj. destruct (Hch j Hj) as (_ & Hji & Hjc). rewrite !lookup_alter_ne by done.
      rewrite Hcs2 by done. cbn. by rewrite lookup_alter_ne.
    + intros j Hj1 Hj2 Hj3. rewrite !lookup_alter_ne by done. rewrite Ho2 by done. by apply Ho1.
    + intros q Hq Hn. by apply Huse.
  - kernel_cbn. by rewrite Hs2.
  - kernel_cbn. unfold k1. cbn. done.
Qed.

Lemma wp_take_current k c Q :
  current k = Some c -> borrowed k = [] -> Q (Some c) (set_current None k) -> wp take_current_task Q k.
Proof.
  intros Hc Hb HQ. unfold take_current_task, processor_take_current. apply wp_with_cell; [cell_free|].
  wp_steps. kernel_cbn. rewrite Hc, Hb. rewrite <-Hb. by destruct k.
Qed.

Lemma wp_current_task k c Q :
  current k = Some c -> borrowed k = [] -> Q (Some c) k -> wp current_task Q k.
Proof.
  intros Hc Hb HQ. unfold current_task, processor_current. apply wp_with_cell; [cell_free|].
  wp_steps. kernel_cbn. rewrite Hc. by destruct k.
Qed.

Lemma wp_exit_current k c t init ti code Q :
  running k c t -> family k c t init ti -> ms_ok (mm k) (memory_set (inner t)) ->
  (forall k', exited code k c t init ti k' -> Q tt k') -> wp (exit_current_and_run_next code) Q k.
Proof.
  intros [Hc Ht Hb] Hfam Hms HQ. unfold exit_current_and_run_next. wp_step. eapply wp_take_current; [done..|].
  wp_step. eapply wp_unwrap; [done|]. wp_step. apply wp_with_cell; [cell_free|].
  eapply (wp_exit_body _ c t init ti code); [done|kernel_cbn; by rewrite Hb| |done|].
  { destruct Hfam as [(? & ? & ?) ? ? ?]. by split. }
  intros k' [Hs Htask Hi Hch Hot Hfr Hkeep Htb Hph] Hcur Hbor. kernel_cbn. rewrite Hb.
  unfold drop_arc. wp_step. wp_step.
  assert (Hrefs : strong_refs (set_borrowed [] k') c <> 0%nat).
  { destruct Hfam as [(_ & Hti & Hne) _ Hchild (p & tp & Hp & Hpc & Hin)]. kernel_cbn.
    destruct (decide (p = init)) as [->|Hpi].
    - eapply strong_refs_child; [exact Hi|]. cbn. apply elem_of_app. left. by simplify_eq.
    - destruct (decide (p ∈ children (inner t))) as [Hpin|Hpn].
      + eapply (strong_refs_child _ p (with_inner (set_parent (Some init)) tp)); [|exact Hin].
        kernel_cbn. cbn [tasks set_current] in Hch. rewrite Hch by done. cbn. by rewrite Hp.
      + eapply (strong_refs_child _ p tp); [|exact Hin]. cbn [tasks set_current] in Hot.
        kernel_cbn. by rewrite Hot. }
  rewrite (proj2 (Nat.eqb_neq _ _)) by done. wp_step. apply HQ. split; kernel_cbn; try done.
  cbn [tasks mm set_current set_tasks set_mm] in Hs. destruct k, k'. cbn in *. injection Hs as -> -> -> -> -> -> -> -> -> ->. subst. done.
Qed.

(** C19: [exit_current_and_run_next] of a task other than [INITPROC] whose parent is alive
    does not panic.  The task stays in the heap as a zombie with the exit code, without
    children and without data pages, and is nowhere scheduled; exactly the frames of its
    data pages are free in addition, while its page tables stay; its children keep
    everything but their parent, which is [INITPROC], and are appended to the children of
    [INITPROC] in order; no other task and nothing else in the kernel changes. *)
Theorem exit_correct k c t init ti code :
  running k c t -> family k c t init ti -> ms_ok (mm k) (memory_set (inner t)) ->
  wp (exit_current_and_run_next code) (fun _ k' => exited code k c t init ti k') k.
Proof. intros Hrun Hfam Hms. by eapply wp_exit_current. Qed.

(** C40: When [INITPROC] itself exits, [exit_current_and_run_next] panics, also when it
    has no children: it takes the guard of the exiting task and then that of [INITPROC],
    which are the same cell. *)
Theorem initproc_exit_panics k c t code :
  running k c t -> initproc k = Some c -> exit_current_and_run_next code k = Panic AlreadyBorrowed.
Proof.
  intros [Hc Ht Hb] Hi. unfold exit_current_and_run_next, take_current_task, processor_take_current.
  unfold bind at 1. unfold with_cell at 1. rewrite Hb, decide_False by apply not_elem_of_nil.
  cbn. rewrite Hc. cbn. unfold bind at 1. unfold with_cell at 1. cbn.
  rewrite decide_False by apply not_elem_of_nil.
  unfold update_inner, task_of, bind, get, modify, unwrap, ret. cbn. rewrite Ht. cbn. rewrite lookup_insert_eq. cbn.
  rewrite Hi. cbn. by rewrite with_cell_twice by (cbn; by left).
Qed.

(** ** Waiting *)

(** The pids that a call of [waitpid] asks for, among the live tasks in [l]. *)
Definition asked k (arg : Z) (l : list Z) (zombies : bool) : Prop :=
  exists j tj, j ∈ l /\ tasks k !! j = Some tj /\ pid_matches arg (pid tj) = true /\
    (zombies = true -> task_status (inner tj) = Zombie).

Lemma wp_any_child k arg l :
  (forall j, j ∈ l -> is_Some (tasks k !! j)) ->
  wp (any_child arg l) (fun b k' => k' = k /\ (b = true <-> asked k arg l false)) k.
Proof.
  intros Hl. unfold any_child.
  apply (wp_foldM _ (fun l' b k' => k' = k /\ (b = true <-> asked k arg l' false))).
  - split; [done|]. split; [done|]. by intros (j & tj & []%not_elem_of_nil & _).
  - intros l' j rest b k' Hsplit [-> Hb]. destruct (Hl j) as [tj Hj]; [rewrite Hsplit; apply elem_of_app; right; by left|].
    wp_step. eapply wp_task_of; [exact Hj|]. wp_step. split; [done|].
    unfold getpid. rewrite orb_true_iff, Hb. split.
    + intros [(i & ti & Hi & Hti & Hm & _)|Hm].
      * exists i, ti. split_and!; [apply elem_of_app; by left|done..].
      * exists j, tj. split_and!; [apply elem_of_app; right; by left|done..].
    + intros (i & ti & [Hi|Hi%list_elem_of_singleton]%elem_of_app & Hti & Hm & _).
      * left. by exists i, ti.
      * right. by simplify_eq.
Qed.

Lemma wp_find_zombie k arg l : forall idx,
  (forall j, j ∈ l -> is_Some (tasks k !! j) /\ (CellTask j ∉ borrowed k)) -> ~ asked k arg l true ->
  wp (find_zombie arg l idx) (fun r k' => r = None /\ k' = k) k.
Proof.
  induction l as [|j l IH]; intros idx Hl Hno; cbn [find_zombie]; [by apply wp_ret|].
  destruct (Hl j) as [[tj Hj] Hfree]; [by left|]. wp_step. eapply wp_task_of; [exact Hj|].
  wp_step. apply wp_with_cell; [done|]. wp_step. eapply wp_inner_of; [exact Hj|]. wp_step.
  replace (set_borrowed (borrowed k) _) with k by (by destruct k).
  replace (is_zombie (inner tj) && pid_matches arg (getpid tj)) with false.
  - apply IH; [intros i Hi; apply Hl; by right|]. intros (i & ti & Hi & Hr). apply Hno. exists i, ti. split; [by right|done].
  - symmetry. apply andb_false_iff. destruct (is_zombie (inner tj)) eqn:Hz; [|by left]. right.
    destruct (pid_matches arg (getpid tj)) eqn:Hm; [|done]. exfalso. apply Hno. exists j, tj.
    split_and!; [by left|done|done|]. intros _. by apply bool_decide_eq_true_1 in Hz.
Qed.

Lemma wp_waitpid_pending pf k c t arg ptr Q :
  running k c t ->
  (forall j, j ∈ children (inner t) -> is_Some (tasks k !! j) /\ j <> c) ->
  ~ asked k arg (children (inner t)) true ->
  (asked k arg (children (inner t)) false -> Q (Return (-2)) k) ->
  (~ asked k arg (children (inner t)) false -> Q (Return (-1)) k) ->
  wp (sys_waitpid pf arg ptr) Q k.
Proof.
  intros [Hc Ht Hb] Hl Hno HQ2 HQ1. unfold sys_waitpid. wp_step. eapply wp_current_task; [done..|].
  wp_step. eapply wp_unwrap; [done|]. apply wp_with_cell; [cell_free|]. rewrite Hb.
  set (k1 := set_borrowed [CellTask c] k). assert (Hk1 : set_borrowed [] k1 = k) by (subst k1; rewrite <-Hb; by destruct k).
  wp_step. eapply wp_inner_of; [done|]. wp_step.
  assert (Hasked : forall z, asked k1 arg (children (inner t)) z <-> asked k arg (children (inner t)) z) by done.
  eapply wp_mono; [|apply wp_any_child; intros j Hj; by apply Hl]. intros b k' [-> Hany]. rewrite Hasked in Hany.
  destruct b; cbn [negb].
  - wp_step. eapply wp_mono; [|apply wp_find_zombie; [|by rewrite Hasked]].
    + intros r k' [-> ->]. wp_step. cbn [borrowed set_borrowed]. rewrite Hk1. by apply HQ2, Hany.
    + intros j Hj. split; [by apply Hl|]. destruct (Hl j Hj) as [_ Hne]. cbn. rewrite not_elem_of_cons.
      split; [congruence|apply not_elem_of_nil].
  - wp_step. cbn [borrowed set_borrowed]. rewrite Hk1. apply HQ1. by intros ?%Hany.
Qed.

(** [sys_waitpid] when nothing can be reaped: -1 exactly when no child has a pid that
    was asked for, -2 when there are such children but none has exited; in both cases
    nothing in the kernel changes, so the user library may ask again. *)
Theorem waitpid_pending pf k c t arg ptr :
  running k c t ->
  (forall j, j ∈ children (inner t) -> is_Some (tasks k !! j) /\ j <> c) ->
  ~ asked k arg (children (inner t)) true ->
  wp (sys_waitpid pf arg ptr) (fun r k' => k' = k /\
    (asked k arg (children (inner t)) false /\ r = Return (-2) \/
     ~ asked k arg (children (inner t)) false /\ r = Return (-1))) k.
Proof. intros Hrun Hl Hno. apply (wp_waitpid_pending pf k c t); auto. Qed.

End Exit.

(** ** Three processes: [INITPROC] is task 1, its child 0 runs and has the child 2. *)

Definition demo_family (s : MmState StackFrameAllocator) (ms : MemorySet) : Kernel StackFrameAllocator :=
  let with_children l t := with_inner (set_children l) t in
  mk_kernel s (mk_ms (mk_pt 0 []) []) pids_new
    {[ 0 := with_children [2] (demo_task ms); 1 := with_children [0] (demo_task ms); 2 := demo_task ms ]}
    3 [1; 2] (Some 0) (Some 1) [] 0 0 None [].

Lemma exit_correct_witness :
  wp (exit_current_and_run_next 7) (fun _ k' =>
    field_of task_status k' 0 = Some Zombie /\ field_of exit_code k' 0 = Some 7 /\
    field_of children k' 1 = Some [0; 2] /\ field_of parent k' 2 = Some (Some 1) /\ ready_queue k' = [1; 2])
    (demo_family (snd demo_space) (fst demo_space)).
Proof.
  set (k := demo_family _ _).
  eapply wp_mono; [|refine (exit_correct k 0 (with_inner (set_children [2]) (demo_task (fst demo_space)))
    1 (with_inner (set_children [0]) (demo_task (fst demo_space))) 7 _ _ _)].
  - intros _ k' [Hs Ht Hi Hc _ _ _ _ _]. unfold field_of. rewrite Ht, Hi, (Hc 2) by (cbn; by left).
    split_and!; [done..|]. by rewrite Hs.
  - by split.
  - split.
    + by split_and!.
    + apply NoDup_singleton.
    + intros j ->%list_elem_of_singleton. by split_and!; [eexists| |].
    + exists 1. eexists. split_and!; [done|done|]. cbn. by left.
  - exact demo_space_ok.
Defined.

Lemma initproc_exit_panics_witness :
  exit_current_and_run_next 0 (set_initproc (Some 0) (demo_family (snd demo_space) (fst demo_space)))
    = Panic AlreadyBorrowed.
Proof.
  apply (initproc_exit_panics _ 0 (with_inner (set_children [2]) (demo_task (fst demo_space)))); [by split|done].
Defined.

Lemma waitpid_pending_witness pf :
  wp (sys_waitpid pf (-1) 64) (fun r k' => r = Return (-2)) (demo_family (snd demo_space) (fst demo_space)).
Proof.
  generalize (fst demo_space), (snd demo_space). intros ms s.
  eapply wp_mono; [|refine (waitpid_pending pf (demo_family s ms) 0 (with_inner (set_children [2]) (demo_task ms)) (-1) 64 _ _ _)].
  - intros r k' [_ [[_ ->]|[Hn _]]]; [done|]. exfalso. apply Hn. exists 2, (demo_task ms).
    split_and!; [by left|done..].
  - by split.
  - intros j ->%list_elem_of_singleton. by split; [eexists|].
  - intros (j & tj & ->%list_elem_of_singleton & Hj & _ & Hz). injection Hj as <-. by specialize (Hz eq_refl).
Defined.
