(* ===== verification/KernelStackSpec.v ===== *)
(** * Kernel stacks

    The kernel's address space holds identity-mapped sections and one framed area for the
    kernel stack of each process.  [KernelStack::new] inserts the stack of a pid and its
    drop removes it again, in the allocator's and in the page table's view. *)

From S2P Require Import Prelude Config Address PhysMem FrameAllocator PageTable PageTableSpec.
From S2P Require Import MemorySet MemorySetSpec ForkSpec SpaceSpec Timer Pid Kernel Task KernelSpec.

(** Pids whose stacks have page-table slots of their own. *)
Definition STACK_LIMIT : Z := 2 ^ 20.

(** The pages of the kernel stack of a pid. *)
Definition stack_range (p : Z) : SimpleRange := mk_range (2 ^ 52 - 21 - 21 * p) (2 ^ 52 - 1 - 21 * p).

(** The part of the kernel's address space that owns frames. *)
Definition framed_part (ks : MemorySet) : MemorySet :=
  mk_ms (page_table ks) (filter (fun a => map_type a = Framed) (areas ks)).

Lemma stack_range_ok p : 0 <= p < STACK_LIMIT -> range_ok (stack_range p).
Proof. unfold STACK_LIMIT, range_ok, stack_range. cbn [range_l range_r]. lia. Qed.

Lemma stack_position p :
  0 <= p < STACK_LIMIT ->
  kernel_stack_position p = (PAGE_SIZE * range_l (stack_range p), PAGE_SIZE * range_r (stack_range p)).
Proof.
  unfold STACK_LIMIT. intros Hp. rewrite kernel_stack_position_eq; rewrite ?TRAMPOLINE_val; [|lia..].
  unfold stack_range, PAGE_SIZE. cbn [range_l range_r]. f_equal; lia.
Qed.

Lemma stack_pages p v : 0 <= p < STACK_LIMIT ->
  v ∈ range_items (stack_range p) <-> 2 ^ 52 - 21 - 21 * p <= v < 2 ^ 52 - 1 - 21 * p.
Proof. intros Hp. by rewrite range_ok_elem by (by apply stack_range_ok). Qed.

(** Stacks of different pids share no page-table slot. *)
Lemma stack_slots p q v w :
  0 <= p < STACK_LIMIT -> 0 <= q < STACK_LIMIT -> v ∈ range_items (stack_range p) -> w ∈ range_items (stack_range q) ->
  v mod 2 ^ 27 = w mod 2 ^ 27 -> p = q.
Proof.
  intros Hp Hq Hv Hw. rewrite stack_pages in Hv, Hw by done. unfold STACK_LIMIT in *.
  change (2 ^ 27) with 134217728. intros. zdm.
Qed.

Section KernelStacks.
Context {T : Type} `{FrameAllocatorSpec T}.
Implicit Types (s : MmState T) (k : Kernel T).

(** The kernel's address space with the stacks of the pids [stacks]. *)
Record kspace_ok s (ks : MemorySet) (stacks : list Z) : Prop := {
  kk_ms : ms_ok s (framed_part ks);
  kk_ident a : a ∈ areas ks -> map_type a = Identical -> range_l (vpn_range a) < 2 ^ 51;
  kk_stacks : map vpn_range (areas (framed_part ks)) ≡ₚ map stack_range stacks;
  kk_none p v : 0 <= p < STACK_LIMIT -> p ∉ stacks -> v ∈ range_items (stack_range p) ->
    mapping (phys s) (page_table ks) v = None;
  kk_range : Forall (fun p => 0 <= p < STACK_LIMIT) stacks;
  kk_nodup : NoDup stacks
}.

#[export] Instance kspace_ok_Proper s ks : Proper ((≡ₚ) ==> iff) (kspace_ok s ks).
Proof.
  assert (Himp : forall l l', l ≡ₚ l' -> kspace_ok s ks l -> kspace_ok s ks l').
  { intros l l' Hp [? ? Hs Hn ? ?]. split; try done; [by rewrite Hs, Hp| |by rewrite <-Hp|by rewrite <-Hp].
    intros p v Hr Hnp. apply Hn; [done|]. by rewrite Hp. }
  intros l l' Hp. split; apply Himp; [done|]. by symmetry.
Qed.

(** A state that keeps the frames of the stacks keeps the kernel's address space. *)
Lemma kspace_ok_keep s s' ks stacks :
  kspace_ok s ks stacks -> ms_ok s' (framed_part ks) ->
  (forall v, mapping (phys s') (page_table ks) v = mapping (phys s) (page_table ks) v) -> kspace_ok s' ks stacks.
Proof. intros [? ? ? Hn ? ?] Hms Hm. split; try done. intros p v. rewrite Hm. apply Hn. Qed.

Lemma framed_part_push pt l a :
  map_type a = Framed -> framed_part (mk_ms pt (vec_push l a)) = mk_ms pt (vec_push (areas (framed_part (mk_ms pt l))) a).
Proof.
  intros Ha. unfold framed_part, vec_push. cbn [areas page_table]. f_equal. rewrite filter_app. f_equal.
  by rewrite filter_cons_True.
Qed.

(** [insert_framed_area] of the stack of a new pid. *)
Lemma wp_stack_insert s ks stacks p :
  kspace_ok s ks stacks -> 0 <= p < STACK_LIMIT -> (p ∉ stacks) -> (60 <= size (free_frames s))%nat ->
  wp (insert_framed_area ks (PAGE_SIZE * range_l (stack_range p)) (PAGE_SIZE * range_r (stack_range p)) (Z.lor MP_R MP_W))
    (fun ks' s' => kspace_ok s' ks' (p :: stacks) /\ MemorySet_token ks' = MemorySet_token ks /\ exists new,
       ms_frames (framed_part ks') ≡ₚ ms_frames (framed_part ks) ++ new /\
       grows 60 s (pt_frames (page_table ks)) new s') s.
Proof.
  intros Hks Hp Hnew Hsize. pose proof (stack_range_ok p Hp) as Hr. unfold insert_framed_area. wp_step.
  eapply wp_lift; [apply MapArea_new_ok; unfold stack_range, STACK_LIMIT, PAGE_SIZE in *; cbn [range_l range_r]; lia|].
  replace (mk_range _ _) with (stack_range p) by (unfold stack_range, PAGE_SIZE; cbn [range_l range_r]; f_equal; zdm).
  set (area := mk_area (stack_range p) [] Framed (Z.lor MP_R MP_W)).
  assert (Hlen : length (range_items (stack_range p)) = 20%nat).
  { pose proof (range_ok_length _ Hr) as Hl. unfold stack_range in Hl at 2 3. cbn [range_l range_r] in Hl. lia. }
  assert (Hnone : forall v, v ∈ range_items (vpn_range area) -> mapping (phys s) (page_table (framed_part ks)) v = None)
    by (intros v; by apply (kk_none _ _ _ Hks)).
  unfold MemorySet_push. wp_step.
  eapply wp_mono; [|apply (wp_MapArea_map s (page_table (framed_part ks)) area);
    [apply Hks|done|done|done|exact Hr|exact Hnone|cbn [vpn_range area]; rewrite Hlen; lia]].
  intros [a pt'] s' (tables & Ham). wp_steps. pose proof Ham as [Ha Hk Hpt Hroot Hfr Hg Hm Ho Hz]; cbn [fst snd] in *.
  assert (Hfa : map_type a = Framed) by (by rewrite Ha).
  pose proof (ms_ok_push _ (framed_part ks) area tables a pt' s' (kk_ms _ _ _ Hks) eq_refl ltac:(done) Hr Hnone Ham) as Hms'.
  destruct Hks as [Hms Hid Hst Hno Hran Hnd]. split_and!; [|unfold MemorySet_token, PageTable_token; cbn; by rewrite Hroot|].
  - split.
    + rewrite framed_part_push by done. exact Hms'.
    + intros b [Hb|Hb]%elem_of_vec_push; [by apply Hid|]. subst b. by rewrite Hfa.
    + rewrite framed_part_push by done. cbn [areas]. unfold vec_push. rewrite map_app. cbn [map].
      replace (vpn_range a) with (stack_range p) by (by rewrite Ha). rewrite Permutation_app_comm. by apply Permutation_skip.
    + intros q v Hq [Hqp Hqn]%not_elem_of_cons Hv. cbn [page_table]. rewrite Ho; [by apply (Hno q)|].
      intros (w & Hw & He). apply Hqp. by apply (stack_slots q p v w).
    + by constructor.
    + by constructor.
  - exists (tables ++ area_frames a). rewrite framed_part_push by done. split.
    + by apply ms_frames_push.
    + cbn [vpn_range area] in Hg. rewrite Hlen in Hg. exact Hg.
Qed.

Lemma find_area_first start l : forall idx a,
  a ∈ l -> get_start (vpn_range a) = start ->
  exists i b, find_area start l idx = Some ((idx + i)%nat, b) /\ l !! i = Some b /\ get_start (vpn_range b) = start.
Proof.
  induction l as [|b l IH]; intros idx a Ha Hs; [by apply not_elem_of_nil in Ha|]. cbn [find_area].
  destruct (Z.eqb_spec (get_start (vpn_range b)) start) as [Hb|Hb].
  - exists 0%nat, b. rewrite Nat.add_0_r. done.
  - apply elem_of_cons in Ha as [->|Ha]; [done|]. destruct (IH (S idx) a Ha Hs) as (i & c & Hf & Hl & Hc).
    exists (S i), c. split_and!; [|done|done]. rewrite Hf. do 2 f_equal. lia.
Qed.

(** [remove_area_with_start_vpn] of the stack of a pid that goes. *)
Lemma wp_stack_remove s ks stacks p :
  kspace_ok s ks (p :: stacks) ->
  wp (remove_area_with_start_vpn ks (range_l (stack_range p)))
    (fun ks' s' => kspace_ok s' ks' stacks /\ page_table ks' = page_table ks /\ exists gone,
       ms_frames (framed_part ks) ≡ₚ ms_frames (framed_part ks') ++ gone /\
       changes s (pt_frames (page_table ks)) [] gone s') s.
Proof.
  intros [Hms Hid Hst Hno Hran Hnd]. apply Forall_cons in Hran as [Hp Hran]. apply NoDup_cons in Hnd as [Hpn Hnd].
  assert (Hex : exists a, a ∈ areas ks /\ get_start (vpn_range a) = range_l (stack_range p)).
  { assert (Hin : stack_range p ∈ map vpn_range (areas (framed_part ks))) by (rewrite Hst; by left).
    apply list_elem_of_fmap in Hin as (a & Ha & Hin). apply list_elem_of_filter in Hin as [_ Hin]. exists a. split; [done|]. by rewrite <-Ha. }
  destruct Hex as (a0 & Ha0 & Hs0). destruct (find_area_first _ _ 0 a0 Ha0 Hs0) as (i & a & Hf & Hi & Hs). rewrite Nat.add_0_l in Hf.
  unfold remove_area_with_start_vpn. rewrite Hf. 
  apply list_elem_of_split_length in Hi as (l1 & l2 & El & ->).
  assert (Hty : map_type a = Framed).
  { destruct (map_type a) eqn:E; [|done]. assert (Hlt : range_l (vpn_range a) < 2 ^ 51) by (apply Hid; [rewrite El; set_solver|done]).
    unfold get_start, stack_range, STACK_LIMIT in *. cbn [range_l] in *. lia. }
  assert (Hpart : framed_part ks = mk_ms (page_table ks) (areas (framed_part (mk_ms (page_table ks) l1)) ++ a :: areas (framed_part (mk_ms (page_table ks) l2)))).
  { unfold framed_part. cbn [areas page_table]. by rewrite El, filter_app, filter_cons_True. }
  set (f1 := areas (framed_part (mk_ms (page_table ks) l1))) in *. set (f2 := areas (framed_part (mk_ms (page_table ks) l2))) in *.
  assert (Hrange : vpn_range a = stack_range p).
  { assert (Hin : vpn_range a ∈ map stack_range (p :: stacks)).
    { rewrite <-Hst, Hpart. cbn [areas]. apply list_elem_of_fmap. exists a. split; [done|]. set_solver. }
    apply list_elem_of_fmap in Hin as (q & Hq & Hin). rewrite Hq. rewrite Hq in Hs. unfold stack_range, get_start in Hs. cbn [range_l] in Hs.
    f_equal. lia. }
  wp_step. eapply wp_mono; [|apply (wp_MapArea_unmap s (framed_part ks) a Hms); rewrite Hpart; cbn [areas]; set_solver].
  intros [a' pt'] s' Hun. destruct (ms_ok_unmapped s (framed_part ks) f1 a f2 _ s' Hms ltac:(by rewrite Hpart) Hun) as [Hms' Hfr'].
  destruct Hun as [Ha' Hpt' Hok' Hc' Hnone' Ho']. cbn [fst snd page_table framed_part] in *. subst a' pt'. wp_step.
  unfold drop_area, drop_frames, for_each. cbn [data_frames set_data_frames map foldM]. wp_step. wp_step.
  rewrite El, delete_middle.
  assert (Hpart' : framed_part (mk_ms (page_table ks) (l1 ++ l2)) = mk_ms (page_table ks) (f1 ++ f2)).
  { unfold framed_part. cbn [areas page_table]. by rewrite filter_app. }
  destruct (ms_ok_area _ _ a Hms) as ([_ _ _ Hkeys _] & _ & _); [rewrite Hpart; cbn [areas]; set_solver|]. rewrite Hkeys, Hrange in *.
  split_and!; [|done|exists (area_frames a); rewrite Hpart'; done].
  split; rewrite ?Hpart'; [done| | | |done|done].
  - intros b Hb. apply Hid. rewrite El. cbn [areas] in Hb. set_solver.
  - cbn [areas]. rewrite Hpart in Hst. cbn [areas map] in Hst. rewrite map_app in Hst |- *. cbn [map] in Hst. rewrite Hrange in Hst.
    rewrite <-Permutation_middle in Hst. by apply Permutation_cons_inv in Hst.
  - intros q v Hq Hqn Hv. cbn [page_table]. destruct (decide (q = p)) as [->|Hne].
    + apply Hnone'. by exists v.
    + rewrite Ho'; [apply (Hno q); [done|by apply not_elem_of_cons|done]|].
      intros (w & Hw & He). by apply Hne, (stack_slots q p v w).
Qed.

End KernelStacks.
