(* ===== verification/KernelSpaceSpec.v ===== *)
(** * The kernel's address space

    [MemorySet::new_kernel] maps the trampoline and the sections of the kernel and the rest
    of memory to themselves.  Tables are shared by the pages of a block of 512, so two
    frames per block are enough.  The space that results has room for kernel stacks, and
    [remap_test] passes. *)

From S2P Require Import Prelude Config Address PhysMem FrameAllocator PageTable PageTableSpec.
From S2P Require Import MemorySet MemorySetSpec ForkSpec SpaceSpec Timer Pid Kernel Task KernelSpec KernelStackSpec.

Section Ident.
Context {T : Type} `{FrameAllocatorSpec T}.
Implicit Types s : MmState T.

(** ** Mapping next to a mapped page *)

(** A page shares its last-level table with a mapped page of the same block of 512: no
    table is created. *)
Lemma wp_map_near s pt v w ppn flags :
  pt_ok s pt -> is_Some (mapping (phys s) pt w) -> w / 512 = v / 512 -> 0 <= ppn < 2 ^ 44 -> is_u8 flags ->
  mapping (phys s) pt v = None ->
  wp (PageTable_map pt v ppn flags) (fun pt' s' =>
    pt_ok s' pt' /\ root_ppn pt' = root_ppn pt /\ tables_grow 0 s (pt_frames pt) s' (pt_frames pt') /\
    forall u, mapping (phys s') pt' u =
      if decide (u mod 2 ^ 27 = v mod 2 ^ 27) then Some (pte_new ppn (Z.lor flags PTE_V)) else mapping (phys s) pt u) s.
Proof.
  intros Hok [bits Hb] Hblock Hppn Hfl Hnone. destruct (mapping_Some_slot _ _ _ _ Hb) as (i0 & i1 & j2 & q & Ew & Hq & _ & _).
  destruct (indexes_three v) as (k0 & k1 & i2 & E & _).
  assert (k0 = i0 /\ k1 = i1) as [-> ->].
  { rewrite indexes_eq, !shiftr_div in Ew, E by done. injection Ew as <- <- _. injection E as <- <- _.
    change (2 ^ 18) with 262144. change (2 ^ 9) with 512. split; [|by rewrite Hblock].
    f_equal. zdm. }
  unfold PageTable_map. wp_step. eapply wp_of_Ok; [by eapply find_pte_create_existing|]. cbn [unwrap]. wp_steps.
  pose proof Hok as [Hinv Hwf _]. apply wp_assert.
  { apply negb_true_iff. destruct (pte_is_valid _) eqn:Hv; [|done].
    rewrite (mapping_translate _ _ _ (pte_load (phys s) q i2)) in Hnone; [unfold pte_load in Hnone; by rewrite Hv in Hnone|].
    by rewrite (translate_walk _ _ _ _ _ _ E), Hq. }
  unfold write_pte. wp_steps.
  destruct (pt_ok_write_slot 0 s pt s pt v i0 i1 i2 q (pte_new ppn (Z.lor flags PTE_V))) as [Hok2 Hg2]; try done; [by apply tables_grow_refl|].
  assert (Hfl' : is_u8 (Z.lor flags PTE_V)) by (by apply lor_u8).
  split_and!; [done..|]. intros u. cbn [phys set_phys]. case_decide as He.
  - rewrite (mapping_translate _ _ _ (pte_new ppn (Z.lor flags PTE_V))); [by rewrite pte_new_valid|].
    eapply translate_slot_eq; try done. by apply pte_new_usize.
  - unfold mapping. by erewrite translate_slot_ne.
Qed.

(** ** Identical areas *)

(** The blocks of 512 pages that the pages from [l] to [l + n] touch. *)
Definition blocks (l n : Z) : Z := if n <=? 0 then 0 else (l + n - 1) / 512 - l / 512 + 1.

Lemma blocks_step l n :
  0 <= n -> blocks l (n + 1) = blocks l n + (if (0 <? n) && ((l + n - 1) / 512 =? (l + n) / 512) then 0 else 1).
Proof.
  intros Hn. unfold blocks. destruct (Z.leb_spec (n + 1) 0); [lia|]. destruct (Z.leb_spec n 0) as [Hz|Hz].
  - assert (n = 0) as -> by lia. cbn [Z.ltb Z.compare andb]. replace (l + (0 + 1) - 1) with l by lia. lia.
  - destruct (Z.ltb_spec 0 n); [|lia]. cbn [andb]. replace (l + (n + 1) - 1) with (l + n) by lia.
    destruct (Z.eqb_spec ((l + n - 1) / 512) ((l + n) / 512)); zdm.
Qed.

(** The first [n] pages of the area are mapped to themselves. *)
Record ident_mapped s pt (l n perm : Z) (pt' : PageTable) s' : Prop := {
  im_pt : pt_ok s' pt';
  im_root : root_ppn pt' = root_ppn pt;
  im_grow : tables_grow (Z.to_nat (2 * blocks l n)) s (pt_frames pt) s' (pt_frames pt');
  im_map v : mapping (phys s') pt' v =
    if decide (l <= v mod 2 ^ 27 < l + n) then Some (pte_new (v mod 2 ^ 27) (Z.lor perm PTE_V)) else mapping (phys s) pt v
}.

Lemma blocks_nonneg l n : 0 <= blocks l n.
Proof. unfold blocks. destruct (Z.leb_spec n 0); zdm. Qed.

Lemma wp_ident_step s pt l n perm pt1 s1 :
  ident_mapped s pt l n perm pt1 s1 -> 0 <= l -> 0 <= n -> l + n < 2 ^ 27 -> is_u8 perm ->
  mapping (phys s) pt (l + n) = None -> 2 * blocks l (n + 1) <= Z.of_nat (size (free_frames s)) ->
  wp (PageTable_map pt1 (l + n) (l + n) perm) (fun pt2 s2 => ident_mapped s pt l (n + 1) perm pt2 s2) s1.
Proof.
  intros [Hok Hroot Hg Hm] Hl Hn Hln Hu Hnone Hsize. pose proof (tables_grow_size _ _ _ _ _ Hg) as Hsz. pose proof (blocks_nonneg l n).
  assert (Hself : (l + n) mod 2 ^ 27 = l + n) by (apply Z.mod_small; lia).
  assert (Hnone1 : mapping (phys s1) pt1 (l + n) = None) by (rewrite Hm, Hself, decide_False by lia; done).
  assert (Hstep : forall b pt2 s2, Z.to_nat (2 * blocks l (n + 1)) = (Z.to_nat (2 * blocks l n) + b)%nat ->
    pt_ok s2 pt2 -> root_ppn pt2 = root_ppn pt1 -> tables_grow b s1 (pt_frames pt1) s2 (pt_frames pt2) ->
    (forall u, mapping (phys s2) pt2 u = if decide (u mod 2 ^ 27 = (l + n) mod 2 ^ 27) then Some (pte_new (l + n) (Z.lor perm PTE_V))
       else mapping (phys s1) pt1 u) -> ident_mapped s pt l (n + 1) perm pt2 s2).
  { intros b pt2 s2 Hb Hok2 Hr2 Hg2 Hm2. split; [done|congruence|rewrite Hb; by eapply tables_grow_trans|].
    intros v. rewrite Hm2, Hm, Hself. destruct (decide (v mod 2 ^ 27 = l + n)) as [->|Hne].
    - by rewrite decide_True by lia.
    - destruct (decide (l <= v mod 2 ^ 27 < l + n)); [by rewrite decide_True by lia|by rewrite decide_False by lia]. }
  rewrite (blocks_step l n Hn) in Hsize, Hstep. destruct ((0 <? n) && _) eqn:E.
  - apply andb_true_iff in E as [Hpos%Z.ltb_lt Hb%Z.eqb_eq]. eapply wp_mono; [|apply (wp_map_near s1 pt1 (l + n) (l + n - 1)); try done; [|lia]].
    + cbn beta. intros pt2 s2 (? & ? & ? & ?). apply (Hstep 0%nat); try done. lia.
    + rewrite Hm, Z.mod_small, decide_True by lia. eauto.
  - eapply wp_mono; [|apply (wp_map s1 pt1 (l + n)); try done; lia].
    cbn beta. intros pt2 s2 (? & ? & ? & ?). apply (Hstep 2%nat); try done. lia.
Qed.

Lemma wp_ident_area s pt l n perm :
  pt_ok s pt -> 0 <= l -> 0 <= n -> l + n <= 2 ^ 27 -> is_u8 perm ->
  (forall p, l <= p < l + n -> mapping (phys s) pt p = None) -> 2 * blocks l n <= Z.of_nat (size (free_frames s)) ->
  let area := mk_area (mk_range l (l + n)) [] Identical perm in
  wp (MapArea_map area pt) (fun r s' => fst r = area /\ ident_mapped s pt l n perm (snd r) s') s.
Proof.
  intros Hok Hl Hn Hln Hu Hnone Hsize area. unfold MapArea_map.
  assert (Hr : range_ok (vpn_range area)) by (unfold range_ok, area; cbn [vpn_range range_l range_r]; lia).
  assert (Hitems : range_items (vpn_range area) = seqZ l n) by (rewrite range_ok_items by done; cbn [vpn_range area range_l range_r]; f_equal; lia).
  rewrite Hitems. eapply wp_mono; [|apply (wp_foldM _ (fun dn r s' => fst r = area /\ ident_mapped s pt l (Z.of_nat (length dn)) perm (snd r) s'))].
  - cbn beta. intros r s'. rewrite length_seqZ, Z2Nat.id by done. done.
  - split; [done|]. split; [done|done| |].
    + apply tables_grow_refl, Hok.
    + intros v. by rewrite decide_False by (cbn; lia).
  - intros dn x rest [a p] s1 Hsplit [Ha Hi]. cbn [fst snd] in *. subst a.
    assert (Hlen : 0 <= Z.of_nat (length dn) < n).
    { apply (f_equal length) in Hsplit. rewrite length_seqZ, length_app in Hsplit. cbn in Hsplit. lia. }
    assert (Hx : x = l + Z.of_nat (length dn)).
    { assert (Hlk : seqZ l n !! length dn = Some x) by (rewrite Hsplit; by apply list_lookup_middle).
      apply lookup_seqZ in Hlk. lia. }
    unfold map_one. cbn [map_type area]. wp_steps. subst x. cbn [map_perm].
    assert (Hmono : blocks l (Z.of_nat (length dn) + 1) <= blocks l n).
    { unfold blocks. destruct (Z.leb_spec (Z.of_nat (length dn) + 1) 0); [lia|]. destruct (Z.leb_spec n 0); [lia|]. zdm. }
    eapply wp_mono; [|apply (wp_ident_step s pt l (Z.of_nat (length dn)) perm p s1 Hi); try done; [lia|lia|apply Hnone; lia|lia]].
    cbn beta. intros pt2 s2 Hi2. wp_steps. split; [done|]. rewrite length_app. cbn [length].
    by replace (Z.of_nat (length dn + 1)) with (Z.of_nat (length dn) + 1) by lia.
Qed.

(** ** The sections of the kernel *)

(** A section: its first page, the page after it, and its permission. *)
Definition section : Type := Z * Z * Z.

Definition section_entry (w : Z) (g : section) : option Z :=
  let '(l, r, perm) := g in if decide (l <= w < r) then Some (pte_new w (Z.lor perm PTE_V)) else None.

(** The entry that the sections give to a slot. *)
Fixpoint sections_entry (L : list section) (w : Z) : option Z :=
  match L with
  | [] => None
  | g :: L' => match section_entry w g with Some b => Some b | None => sections_entry L' w end
  end.

Lemma sections_entry_app L L' w :
  sections_entry (L ++ L') w = match sections_entry L w with Some b => Some b | None => sections_entry L' w end.
Proof. induction L as [|g L IH]; [done|]. cbn. by destruct (section_entry w g). Qed.

Lemma sections_entry_below L w : Forall (fun g => snd (fst g) <= w) L -> sections_entry L w = None.
Proof.
  induction 1 as [|[[l r] p] L Hg _ IH]; [done|]. cbn in *. by rewrite decide_False by lia.
Qed.

Fixpoint sections_blocks (L : list section) : Z :=
  match L with
  | [] => 0
  | (l, r, _) :: L' => blocks l (r - l) + sections_blocks L'
  end.

Lemma sections_blocks_app L L' : sections_blocks (L ++ L') = sections_blocks L + sections_blocks L'.
Proof. induction L as [|[[l r] p] L IH]; cbn; lia. Qed.

Lemma sections_blocks_nonneg L : 0 <= sections_blocks L.
Proof. induction L as [|[[l r] p] L IH]; cbn; [done|]. pose proof (blocks_nonneg l (r - l)). lia. Qed.

Definition ident_area (g : section) : MapArea := let '(l, r, perm) := g in mk_area (mk_range l r) [] Identical perm.

Context (ld : linker_symbols).
Hypothesis Hld : trampoline_ok ld.

(** The kernel's address space after the sections [L]. *)
Record sections_mapped s (L : list section) (ms : MemorySet) s' : Prop := {
  sm_pt : pt_ok s' (page_table ms);
  sm_areas : areas ms = map ident_area L;
  sm_grow : grows (3 + Z.to_nat (2 * sections_blocks L)) s [] (pt_frames (page_table ms)) s';
  sm_map v : mapping (phys s') (page_table ms) v =
    if decide (v mod 2 ^ 27 = TRAMPOLINE_vpn mod 2 ^ 27) then Some (trampoline_pte ld) else sections_entry L (v mod 2 ^ 27)
}.

Lemma wp_sections_start s :
  mm_inv s -> (3 <= size (free_frames s))%nat ->
  wp (let* ms := new_bare in map_trampoline ld ms) (sections_mapped s []) s.
Proof.
  intros Hinv Hsize. eapply wp_mono; [|by apply (wp_fork_start ld Hld)]. intros ms s' [Hok Hg Hc Ht Hn].
  apply Forall2_nil_inv_l in Hc. destruct ms as [pt l]. cbn in Hc. subst l.
  unfold ms_frames in Hg. cbn in Hg. rewrite app_nil_r in Hg. split; [apply Hok|done|exact Hg|].
  intros v. cbn [sections_entry page_table]. case_decide as He; [by rewrite (mapping_slot _ _ _ _ He)|].
  apply Hn. intros (p & ->%list_elem_of_singleton & Hp). done.
Qed.

Lemma wp_push_section s L ms s1 l r perm :
  sections_mapped s L ms s1 -> 0 <= l <= r -> r <= 2 ^ 26 -> is_u8 perm -> Forall (fun g => snd (fst g) <= l) L ->
  3 + 2 * sections_blocks (L ++ [(l, r, perm)]) <= Z.of_nat (size (free_frames s)) ->
  wp (push_identical ms (l * PAGE_SIZE) (r * PAGE_SIZE) perm) (sections_mapped s (L ++ [(l, r, perm)])) s1.
Proof.
  intros [Hok Har Hg Hm] Hlr Hr Hu Hbelow Hsize. pose proof (grows_size _ _ _ _ _ Hg) as Hsz.
  assert (Hsum : sections_blocks (L ++ [(l, r, perm)]) = sections_blocks L + blocks l (r - l)).
  { rewrite sections_blocks_app. cbn. lia. }
  pose proof (sections_blocks_nonneg L).
  pose proof (blocks_nonneg l (r - l)). unfold push_identical. wp_step. unfold PAGE_SIZE.
  eapply wp_lift; [apply MapArea_new_ok; unfold PAGE_SIZE; lia|]. unfold PAGE_SIZE. rewrite Z.div_mul by done.
  replace ((r * 4096 + 4096 - 1) / 4096) with (l + (r - l)) by zdm. unfold MemorySet_push. wp_step.
  assert (Htr : TRAMPOLINE_vpn mod 2 ^ 27 = 2 ^ 27 - 1) by done.
  eapply wp_mono; [|apply (wp_ident_area s1 (page_table ms) l (r - l) perm); [exact Hok|lia|lia|lia|exact Hu| |lia]].
  2: { intros p Hp. rewrite Hm, Z.mod_small, decide_False by lia. apply sections_entry_below. eapply Forall_impl; [exact Hbelow|]. cbn. lia. }
  cbn beta. intros [a pt'] s2 [Ha [Hok2 _ (new & Hnew & Hg2) Hm2]]. cbn [fst snd] in *. subst a. wp_steps. split; cbn [page_table areas].
  - done.
  - rewrite Har, map_app. cbn. unfold vec_push. do 4 f_equal. lia.
  - rewrite Hnew, Hsum. replace (3 + _)%nat with ((3 + Z.to_nat (2 * sections_blocks L)) + Z.to_nat (2 * blocks l (r - l)))%nat by lia.
    eapply (grows_trans _ _ s [] _ s1 (pt_frames (page_table ms))); [done|done|]. auto.
  - intros v. rewrite Hm2, Hm, sections_entry_app. cbn [sections_entry section_entry].
    replace (l + (r - l)) with r by lia. destruct (decide (l <= v mod 2 ^ 27 < r)) as [Hin|Hout].
    + rewrite decide_False by lia. by rewrite sections_entry_below by (eapply Forall_impl; [exact Hbelow|]; cbn; lia).
    + case_decide; [done|]. by destruct (sections_entry L _).
Qed.

(** ** [new_kernel] *)

(** What linker.ld says of its symbols: the sections start at 0x80200000, follow each
    other and are aligned to pages; the kernel ends below 0x87000000, so that at least
    4096 frames are left. *)
Record layout_ok : Prop := {
  lo_text : 2149580800 <= stext ld < etext ld;
  lo_rodata : etext ld <= srodata ld < erodata ld;
  lo_data : erodata ld <= sdata ld < edata ld;
  lo_bss : edata ld <= sbss_with_stack ld <= ebss ld;
  lo_end : ebss ld <= ekernel ld <= 2264924160;
  lo_aligned : Forall (fun a => a mod PAGE_SIZE = 0)
    [stext ld; etext ld; srodata ld; erodata ld; sdata ld; edata ld; sbss_with_stack ld; ebss ld; ekernel ld]
}.

(** The sections in pages. *)
Definition kernel_sections : list section :=
  [(stext ld / PAGE_SIZE, etext ld / PAGE_SIZE, Z.lor MP_R MP_X);
   (srodata ld / PAGE_SIZE, erodata ld / PAGE_SIZE, map_permission_bits MP_R);
   (sdata ld / PAGE_SIZE, edata ld / PAGE_SIZE, Z.lor MP_R MP_W);
   (sbss_with_stack ld / PAGE_SIZE, ebss ld / PAGE_SIZE, Z.lor MP_R MP_W);
   (ekernel ld / PAGE_SIZE, MEMORY_END / PAGE_SIZE, Z.lor MP_R MP_W)].

Lemma blocks_le l r : 0 <= r - l -> 512 * blocks l (r - l) <= (r - l) + 1024.
Proof. intros Hn. unfold blocks. destruct (Z.leb_spec (r - l) 0); [lia|]. zdm. Qed.

(** All frames that [new_kernel] takes. *)
Lemma kernel_sections_blocks : layout_ok -> sections_blocks kernel_sections <= 73.
Proof.
  intros [H1 H2 H3 H4 H5 Hal]. unfold kernel_sections. cbn [sections_blocks].
  change (MEMORY_END / PAGE_SIZE) with 557056. unfold PAGE_SIZE in *.
  repeat match goal with |- context [blocks ?l (?r - ?l)] => let n := fresh "n" in let E := fresh "E" in
    pose proof (blocks_le l r ltac:(zdm)); remember (blocks l (r - l)) as n eqn:E; clear E end.
  zdm.
Qed.

Lemma wp_push_kernel_section s L ms s1 a b perm :
  sections_mapped s L ms s1 -> 0 <= a <= b -> b <= MEMORY_END -> a mod PAGE_SIZE = 0 -> b mod PAGE_SIZE = 0 -> is_u8 perm ->
  Forall (fun g => snd (fst g) <= a / PAGE_SIZE) L ->
  3 + 2 * sections_blocks (L ++ [(a / PAGE_SIZE, b / PAGE_SIZE, perm)]) <= Z.of_nat (size (free_frames s)) ->
  wp (push_identical ms a b perm) (sections_mapped s (L ++ [(a / PAGE_SIZE, b / PAGE_SIZE, perm)])) s1.
Proof.
  intros Hs Hab Hb Ha1 Hb1 Hu Hbelow Hsize.
  replace a with (a / PAGE_SIZE * PAGE_SIZE) at 1 by (unfold PAGE_SIZE in *; zdm).
  replace b with (b / PAGE_SIZE * PAGE_SIZE) at 1 by (unfold PAGE_SIZE in *; zdm).
  unfold MEMORY_END in Hb. apply wp_push_section; try done; unfold PAGE_SIZE in *; zdm.
Qed.

Lemma wp_new_kernel s :
  layout_ok -> mm_inv s -> (149 <= size (free_frames s))%nat ->
  wp (new_kernel ld) (sections_mapped s kernel_sections) s.
Proof.
  intros Hlo Hinv Hsize. pose proof (kernel_sections_blocks Hlo) as Hblocks. destruct Hlo as [H1 H2 H3 H4 H5 Hal].
  rewrite !Forall_cons in Hal. destruct Hal as (A1 & A2 & A3 & A4 & A5 & A6 & A7 & A8 & A9 & _).
  unfold kernel_sections in *.
  set (g1 := (stext ld / PAGE_SIZE, etext ld / PAGE_SIZE, Z.lor MP_R MP_X)) in *.
  set (g2 := (srodata ld / PAGE_SIZE, erodata ld / PAGE_SIZE, map_permission_bits MP_R)) in *.
  set (g3 := (sdata ld / PAGE_SIZE, edata ld / PAGE_SIZE, Z.lor MP_R MP_W)) in *.
  set (g4 := (sbss_with_stack ld / PAGE_SIZE, ebss ld / PAGE_SIZE, Z.lor MP_R MP_W)) in *.
  set (g5 := (ekernel ld / PAGE_SIZE, MEMORY_END / PAGE_SIZE, Z.lor MP_R MP_W)) in *.
  assert (Hpre : forall L L', L ++ L' = [g1; g2; g3; g4; g5] -> 3 + 2 * sections_blocks L <= Z.of_nat (size (free_frames s))).
  { intros L L' E. rewrite <-E, sections_blocks_app in Hblocks. pose proof (sections_blocks_nonneg L'). lia. }
  assert (Hmono : forall a b, a <= b -> a / PAGE_SIZE <= b / PAGE_SIZE) by (intros; apply Z.div_le_mono; done).
  pose proof (wp_sections_start s Hinv ltac:(lia)) as Hstart. unfold new_kernel. apply wp_bind_inv in Hstart. wp_step.
  eapply wp_mono, Hstart. intros ms0 s0 Hw0. wp_step. eapply wp_mono, Hw0. intros ms1 s1 Hs1. unfold MEMORY_END in *.
  wp_step. eapply wp_mono; [|apply (wp_push_kernel_section s [] ms1 s1 (stext ld) (etext ld));
    [exact Hs1|lia|unfold MEMORY_END; lia|assumption|assumption|by split|constructor|by apply (Hpre [g1] [g2; g3; g4; g5])]].
  intros ms2 s2 Hs2. cbn [app] in Hs2. fold g1 in Hs2.
  wp_step. eapply wp_mono; [|apply (wp_push_kernel_section s [g1] ms2 s2 (srodata ld) (erodata ld));
    [exact Hs2|lia|unfold MEMORY_END; lia|assumption|assumption|by split|repeat constructor; cbn; apply Hmono; lia|by apply (Hpre [g1; g2] [g3; g4; g5])]].
  intros ms3 s3 Hs3. cbn [app] in Hs3. fold g2 in Hs3.
  wp_step. eapply wp_mono; [|apply (wp_push_kernel_section s [g1; g2] ms3 s3 (sdata ld) (edata ld));
    [exact Hs3|lia|unfold MEMORY_END; lia|assumption|assumption|by split|repeat constructor; cbn; apply Hmono; lia|by apply (Hpre [g1; g2; g3] [g4; g5])]].
  intros ms4 s4 Hs4. cbn [app] in Hs4. fold g3 in Hs4.
  wp_step. eapply wp_mono; [|apply (wp_push_kernel_section s [g1; g2; g3] ms4 s4 (sbss_with_stack ld) (ebss ld));
    [exact Hs4|lia|unfold MEMORY_END; lia|assumption|assumption|by split|repeat constructor; cbn; apply Hmono; lia|by apply (Hpre [g1; g2; g3; g4] [g5])]].
  intros ms5 s5 Hs5. cbn [app] in Hs5. fold g4 in Hs5.
  apply (wp_push_kernel_section s [g1; g2; g3; g4] ms5 s5 (ekernel ld) MEMORY_END);
    [exact Hs5|unfold MEMORY_END; lia|done|assumption|done|by split|repeat constructor; cbn; apply Hmono; lia|by apply (Hpre [g1; g2; g3; g4; g5] [])].
Qed.

(** ** What the new space is good for *)

Lemma kernel_sections_below w : layout_ok -> 2 ^ 26 <= w -> Forall (fun g => snd (fst g) <= w) kernel_sections.
Proof.
  intros [H1 H2 H3 H4 H5 _] Hw. unfold kernel_sections. change (MEMORY_END / PAGE_SIZE) with 557056. unfold PAGE_SIZE.
  rewrite !Forall_cons. cbn [fst snd]. split_and!; try (by apply Forall_nil); try lia; zdm.
Qed.

Lemma sections_kspace s ks s' : layout_ok -> sections_mapped s kernel_sections ks s' -> kspace_ok s' ks [].
Proof.
  intros Hlo [Hok Har _ Hm].
  assert (Hnil : framed_part ks = mk_ms (page_table ks) []).
  { unfold framed_part. rewrite Har. by unfold kernel_sections. }
  assert (Hfr : ms_frames (framed_part ks) = pt_frames (page_table ks)) by (rewrite Hnil; unfold ms_frames; cbn; by rewrite app_nil_r).
  split; [split; rewrite ?Hfr| |by rewrite Hnil| |constructor|constructor].
  - by rewrite Hnil.
  - rewrite Hnil. constructor.
  - apply Hok.
  - apply Hok.
  - intros a Ha _. rewrite Har in Ha. apply list_elem_of_fmap in Ha as ([[l r] p] & -> & Hg). cbn.
    destruct Hlo as [H1 H2 H3 H4 H5 _]. unfold kernel_sections, PAGE_SIZE in Hg.
    repeat (apply elem_of_cons in Hg as [Hg|Hg]; [injection Hg as -> -> ->; zdm|]). by apply not_elem_of_nil in Hg.
  - intros p v Hp _ Hv. rewrite stack_pages in Hv by done. unfold STACK_LIMIT in *. rewrite Hm.
    assert (Hslot : 2 ^ 26 <= v mod 2 ^ 27 <= 2 ^ 27 - 2) by (change (2 ^ 27) with 134217728; change (2 ^ 26) with 67108864; zdm).
    rewrite decide_False.
    + apply sections_entry_below, kernel_sections_below; [done|lia].
    + change (TRAMPOLINE_vpn mod 2 ^ 27) with (2 ^ 27 - 1). lia.
Qed.

Lemma sections_entry_at L l r perm L' w :
  Forall (fun g => snd (fst g) <= w) L -> l <= w < r -> sections_entry (L ++ (l, r, perm) :: L') w = Some (pte_new w (Z.lor perm PTE_V)).
Proof.
  intros HL Hw. rewrite sections_entry_app, sections_entry_below by done. cbn. by rewrite decide_True.
Qed.

(** A check in the middle of a section. *)
Lemma wp_remap_check s ks s' L a b perm L' (check : Z -> bool) Q :
  sections_mapped s kernel_sections ks s' -> kernel_sections = L ++ (a / PAGE_SIZE, b / PAGE_SIZE, perm) :: L' ->
  Forall (fun g => snd (fst g) <= a / PAGE_SIZE) L -> 0 <= a < b -> b <= MEMORY_END -> a mod PAGE_SIZE = 0 -> b mod PAGE_SIZE = 0 ->
  (forall w, 0 <= w < 2 ^ 26 -> check (pte_new w (Z.lor perm PTE_V)) = false) -> Q tt s' ->
  wp (remap_check (phys s') ks a b check) Q s'.
Proof.
  intros Hs HL Hbelow Hab Hb Ha1 Hb1 Hcheck HQ. unfold remap_check. unfold MEMORY_END in Hb. rewrite wrap64_small by lia. unfold VirtAddr_floor.
  set (w := (a + b) / 2 / PAGE_SIZE).
  assert (Hw : a / PAGE_SIZE <= w < b / PAGE_SIZE) by (unfold w, PAGE_SIZE in *; zdm).
  assert (Hw2 : 0 <= w < 2 ^ 26) by (unfold w, PAGE_SIZE in *; zdm).
  assert (Hmap : mapping (phys s') (page_table ks) w = Some (pte_new w (Z.lor perm PTE_V))).
  { rewrite (sm_map _ _ _ _ Hs), Z.mod_small, decide_False by (change (TRAMPOLINE_vpn mod 2 ^ 27) with (2 ^ 27 - 1) || idtac; lia).
    rewrite HL. apply sections_entry_at; [|done]. eapply Forall_impl; [exact Hbelow|]. cbn. lia. }
  wp_step. eapply wp_unwrap; [by apply mapping_Some_translate|]. apply wp_assert; [by rewrite Hcheck|done].
Qed.

(** [remap_test] passes and changes nothing. *)
Lemma wp_remap_test s ks s' Q :
  layout_ok -> sections_mapped s kernel_sections ks s' -> Q tt s' -> wp (remap_test ld ks) Q s'.
Proof.
  intros [H1 H2 H3 H4 H5 Hal] Hs HQ. rewrite !Forall_cons in Hal. destruct Hal as (A1 & A2 & A3 & A4 & A5 & A6 & _).
  assert (Hmono : forall a b, a <= b -> a / PAGE_SIZE <= b / PAGE_SIZE) by (intros; apply Z.div_le_mono; done).
  assert (Hflags : forall w perm, 0 <= w < 2 ^ 26 -> is_u8 perm -> pte_flags (pte_new w (Z.lor perm PTE_V)) = Z.lor perm PTE_V).
  { intros. apply pte_flags_new; [lia|by apply lor_u8]. }
  unfold remap_test. wp_step. wp_step. unfold pte_writable, pte_executable.
  wp_step. eapply (wp_remap_check s ks s' []); [done|done|constructor|lia|unfold MEMORY_END; lia|done|done|intros w Hw; by rewrite Hflags|].
  wp_step. eapply (wp_remap_check s ks s' [_]); [done|done|repeat constructor; cbn; apply Hmono; lia|lia|unfold MEMORY_END; lia|done|done|intros w Hw; by rewrite Hflags|].
  eapply (wp_remap_check s ks s' [_; _]); [done|done|repeat constructor; cbn; apply Hmono; lia|lia|unfold MEMORY_END; lia|done|done|intros w Hw; by rewrite Hflags|].
  done.
Qed.

(** ** Where the kernel can read and write *)

(** What linker.ld says besides: the image starts at [BASE_ADDRESS], and there is nothing
    between two sections. *)
Definition linker_script : Prop :=
  stext ld = BASE_ADDRESS /\ srodata ld = etext ld /\ sdata ld = erodata ld /\ sbss_with_stack ld = edata ld /\ ekernel ld = ebss ld.

Lemma section_flags w perm : 0 <= w < 2 ^ 26 -> is_u8 perm -> pte_flags (pte_new w (Z.lor perm PTE_V)) = Z.lor perm PTE_V.
Proof. intros. apply pte_flags_new; [lia|by apply lor_u8]. Qed.

(** The entry of a page below 2^26. *)
Lemma kernel_entry w :
  layout_ok -> linker_script -> 0 <= w < 2 ^ 26 ->
  sections_entry kernel_sections w =
    if decide (BASE_ADDRESS / PAGE_SIZE <= w < MEMORY_END / PAGE_SIZE) then
      Some (pte_new w (Z.lor (if decide (w < etext ld / PAGE_SIZE) then Z.lor MP_R MP_X
                              else if decide (w < sdata ld / PAGE_SIZE) then map_permission_bits MP_R else Z.lor MP_R MP_W) PTE_V))
    else None.
Proof.
  intros [H1 H2 H3 H4 H5 _] (E1 & E2 & E3 & E4 & E5) Hw.
  assert (Hmono : forall a b, a <= b -> a / PAGE_SIZE <= b / PAGE_SIZE) by (intros; apply Z.div_le_mono; done).
  pose proof (Hmono (stext ld) (etext ld) ltac:(lia)). pose proof (Hmono (srodata ld) (erodata ld) ltac:(lia)). pose proof (Hmono (sdata ld) (edata ld) ltac:(lia)).
  pose proof (Hmono (sbss_with_stack ld) (ebss ld) ltac:(lia)). pose proof (Hmono (ekernel ld) MEMORY_END ltac:(unfold MEMORY_END; lia)).
  unfold kernel_sections. cbn [sections_entry section_entry]. rewrite E1, E2, E4, E5 in *. rewrite E3 in *.
  repeat case_decide; try lia; done.
Qed.

(** C18: the checks [kernel_maps] and [kernel_writes], which decide whether an access of the
    kernel faults, are those of the page table that [new_kernel] builds for an image laid out
    by linker.ld: the kernel can read a physical address exactly when its page is mapped to
    itself and readable, and can write it exactly when the entry has [W]. *)
Theorem kernel_space_access s :
  layout_ok -> linker_script -> mm_inv s -> (149 <= size (free_frames s))%nat ->
  wp (new_kernel ld) (fun ms s' => forall a, 0 <= a < 2 ^ 38 ->
    (kernel_maps a 1 = true <-> exists bits, mapping (phys s') (page_table ms) (VirtAddr_floor a) = Some bits /\
       pte_readable bits = true /\ pte_ppn bits = PhysAddr_floor a) /\
    (kernel_writes ld a 1 = true <-> exists bits, mapping (phys s') (page_table ms) (VirtAddr_floor a) = Some bits /\
       pte_writable bits = true)) s.
Proof.
  intros Hlo Hls Hinv Hsize. eapply wp_mono; [|by apply wp_new_kernel]. intros ms s' Hs a Ha.
  unfold VirtAddr_floor, PhysAddr_floor. set (w := a / PAGE_SIZE). assert (Hw : 0 <= w < 2 ^ 26) by (unfold w, PAGE_SIZE; zdm).
  rewrite (sm_map _ _ _ _ Hs), Z.mod_small, decide_False by (change (TRAMPOLINE_vpn mod 2 ^ 27) with (2 ^ 27 - 1) || idtac; lia).
  rewrite kernel_entry by done. destruct Hlo as [H1 H2 H3 H4 H5 Hal]. destruct Hls as (E1 & E2 & E3 & E4 & E5).
  rewrite !Forall_cons in Hal. destruct Hal as (_ & _ & _ & _ & A5 & _).
  assert (Hr : kernel_maps a 1 = true <-> BASE_ADDRESS / PAGE_SIZE <= w < MEMORY_END / PAGE_SIZE).
  { unfold kernel_maps. cbn [Z.leb Z.compare orb]. rewrite andb_true_iff, !Z.leb_le. unfold w, BASE_ADDRESS, MEMORY_END, PAGE_SIZE. zdm. }
  assert (Hwr : kernel_writes ld a 1 = true <-> sdata ld / PAGE_SIZE <= w < MEMORY_END / PAGE_SIZE).
  { unfold kernel_writes. cbn [Z.leb Z.compare orb]. rewrite andb_true_iff, !Z.leb_le. unfold w, MEMORY_END, PAGE_SIZE in *. zdm. }
  rewrite Hr, Hwr. assert (Hsd : BASE_ADDRESS / PAGE_SIZE <= etext ld / PAGE_SIZE <= sdata ld / PAGE_SIZE).
  { unfold BASE_ADDRESS, PAGE_SIZE. zdm. }
  assert (Hppn : forall perm, is_u8 perm -> pte_ppn (pte_new w (Z.lor perm PTE_V)) = w).
  { intros perm Hp. apply pte_ppn_new; [lia|by apply lor_u8]. }
  assert (Hflags : forall perm, is_u8 perm -> pte_flags (pte_new w (Z.lor perm PTE_V)) = Z.lor perm PTE_V) by (intros; by apply section_flags).
  case_decide as Hin; [|split; split; [done|by intros (? & ? & _)|lia|by intros (? & ? & _)]].
  unfold pte_readable, pte_writable. split; split.
  - intros _. eexists. split; [done|]. rewrite Hflags, Hppn by (repeat case_decide; by split). split; [repeat case_decide; done|done].
  - done.
  - intros Hs2. eexists. split; [done|]. rewrite !decide_False by lia. by rewrite Hflags.
  - intros (bits & [= <-] & Hb). rewrite Hflags in Hb by (repeat case_decide; by split). repeat case_decide; try done. lia.
Qed.

End Ident.

(** ** A concrete kernel *)

Definition demo_frames : MmState StackFrameAllocator := mk_mm (fun _ => 0) (sfa_init sfa_new 526000 526200).

(** The kernel of [demo_linker] can read its text and cannot write it, and cannot read page 0. *)
Lemma kernel_space_access_witness :
  wp (new_kernel demo_linker) (fun ms s' =>
    (exists bits, mapping (phys s') (page_table ms) (VirtAddr_floor BASE_ADDRESS) = Some bits /\ pte_readable bits = true /\
       pte_ppn bits = PhysAddr_floor BASE_ADDRESS) /\
    ~ (exists bits, mapping (phys s') (page_table ms) (VirtAddr_floor BASE_ADDRESS) = Some bits /\ pte_writable bits = true) /\
    ~ (exists bits, mapping (phys s') (page_table ms) (VirtAddr_floor 0) = Some bits /\ pte_readable bits = true /\ pte_ppn bits = PhysAddr_floor 0))
    demo_frames.
Proof.
  eapply wp_mono; [|refine (kernel_space_access demo_linker _ demo_frames _ _ _ _)].
  - intros ms s' Hs. destruct (Hs BASE_ADDRESS) as [Hr Hw]; [unfold BASE_ADDRESS; lia|]. destruct (Hs 0) as [Hr0 _]; [lia|].
    rewrite <-Hr, <-Hw, <-Hr0. done.
  - split; [cbn; lia|reflexivity].
  - split; cbn; try lia. by rewrite !Forall_cons.
  - by repeat split.
  - apply sfa_init_ok; [unfold is_frame|]; lia.
  - vm_compute. lia.
Defined.
