(* ===== verification/KernelInv.v ===== *)
(** * The invariant of the kernel

    [kernel_ok]: the address spaces of the kernel and of the processes are well formed and
    own disjoint frames; the kernel stacks are those of the live pids; every process that
    has not exited has a trampoline and a trap context; parents and children agree and
    lead to [INITPROC]; exactly the ready processes are queued, and the running one is
    current.  The files after this one show which calls keep it. *)

From S2P Require Import Prelude Config Address PhysMem FrameAllocator PageTable PageTableSpec.
From S2P Require Import MemorySet MemorySetSpec ForkSpec SpaceSpec Timer Pid Kernel Manager Task.
From S2P Require Import KernelSpec KernelStackSpec.

(** ** The values of a heap *)

Definition values {V A} (f : V -> A) (m : gmap Z V) : list A := map (fun e => f (snd e)) (map_to_list m).

Lemma values_insert {V A} (f : V -> A) m i x : m !! i = None -> values f (<[i := x]> m) ≡ₚ f x :: values f m.
Proof. intros Hi. unfold values. by rewrite map_to_list_insert. Qed.

Lemma values_delete {V A} (f : V -> A) m i x : m !! i = Some x -> values f m ≡ₚ f x :: values f (delete i m).
Proof.
  intros Hi. rewrite <-(values_insert f (delete i m) i x) by apply lookup_delete_eq.
  by rewrite insert_delete_id.
Qed.

Lemma values_alter {V A} (f : V -> A) (g : V -> V) m i x :
  m !! i = Some x -> values f (alter g i m) ≡ₚ f (g x) :: values f (delete i m).
Proof.
  intros Hi. rewrite (values_delete f (alter g i m) i (g x)) by (by rewrite lookup_alter_eq, Hi).
  by rewrite delete_alter_eq.
Qed.

Lemma values_alter_same {V A} (f : V -> A) (g : V -> V) m i x :
  m !! i = Some x -> f (g x) = f x -> values f (alter g i m) ≡ₚ values f m.
Proof. intros Hi Hf. by rewrite (values_alter f g m i x Hi), Hf, <-values_delete. Qed.

Lemma elem_of_values {V A} (f : V -> A) m y : y ∈ values f m <-> exists i x, m !! i = Some x /\ y = f x.
Proof.
  unfold values. rewrite list_elem_of_fmap. split.
  - intros ([i x] & -> & Hin%elem_of_map_to_list). by exists i, x.
  - intros (i & x & Hi & ->). exists (i, x). split; [done|]. by apply elem_of_map_to_list.
Qed.

(** ** Processes *)

Definition TRAP_CONTEXT_vpn : Z := VirtAddr_floor TRAP_CONTEXT.

(** An address space that a process can run in: the trampoline is mapped, the page of
    the trap context is one of its pages, in the frame [cx], and nothing but the trampoline
    and the pages of its areas is mapped. *)
Record user_space_ok (ld : linker_symbols) (m : mem) (ms : MemorySet) (cx : Z) : Prop := {
  us_trampoline : mapping m (page_table ms) TRAMPOLINE_vpn = Some (trampoline_pte ld);
  us_areas : ~ aliases TRAMPOLINE_vpn (area_pages (areas ms));
  us_cx : exists a, a ∈ areas ms /\ (TRAP_CONTEXT_vpn, cx) ∈ data_frames a /\ map_perm a = Z.lor MP_R MP_W;
  us_only v : ~ aliases v (TRAMPOLINE_vpn :: area_pages (areas ms)) -> mapping m (page_table ms) v = None
}.

(** The address [va] lies in a data page of the space. *)
Definition user_page (ms : MemorySet) (va : Z) : Prop :=
  0 <= va < 2 ^ 64 - PAGE_SIZE /\ exists a f, a ∈ areas ms /\ (VirtAddr_floor va, f) ∈ data_frames a.

(** A suspended process finds its buffer when it goes on. *)
Definition resume_ok (ms : MemorySet) (r : resume) : Prop :=
  match r with
  | InRead buf len => len = 1 /\ user_page ms buf
  | _ => True
  end.

Record task_ok (pf : Platform) (m : mem) (t : TaskControlBlock) : Prop := {
  to_stack : kernel_stack t = pid t;
  to_priority : 0 < priority (inner t) < 2 ^ 64;
  to_times : length (syscall_times (inner t)) = Z.to_nat MAX_SYSCALL_NUM;
  to_space : task_status (inner t) <> Zombie ->
    user_space_ok (linker pf) m (memory_set (inner t)) (trap_cx_ppn (inner t));
  to_zombie : task_status (inner t) = Zombie -> children (inner t) = [] /\ areas (memory_set (inner t)) = [];
  to_resume : task_status (inner t) = Ready -> resume_ok (memory_set (inner t)) (kstack (inner t))
}.

Definition space_of (t : TaskControlBlock) : MemorySet := memory_set (inner t).

Section Inv.
Context {T : Type} `{FrameAllocatorSpec T}.
Implicit Types (s : MmState T) (k : Kernel T).

Definition task_pids k : list Z := values pid (tasks k).
Definition kernel_spaces k : list MemorySet := framed_part (kernel_space k) :: values space_of (tasks k).

(** The family tree: children know their parent, none is listed twice or is its own parent, every process but [INITPROC] is the child
    of its parent, and [INITPROC] runs for ever. *)
Record tree_ok k : Prop := {
  tr_child p tp c : tasks k !! p = Some tp -> c ∈ children (inner tp) ->
    exists tc, tasks k !! c = Some tc /\ parent (inner tc) = Some p;
  tr_nodup p tp : tasks k !! p = Some tp -> NoDup (p :: children (inner tp));
  tr_parent c tc : tasks k !! c = Some tc -> initproc k <> Some c ->
    exists p tp, parent (inner tc) = Some p /\ tasks k !! p = Some tp /\ c ∈ children (inner tp);
  tr_init : exists i ti, initproc k = Some i /\ tasks k !! i = Some ti /\ parent (inner ti) = None /\
    task_status (inner ti) <> Zombie
}.

(** The scheduler: no process is lost, and none is queued twice. *)
Record schedule_ok k : Prop := {
  sc_nodup : NoDup (ready_queue k);
  sc_ready id : id ∈ ready_queue k -> exists t, tasks k !! id = Some t /\ task_status (inner t) = Ready;
  sc_current c : current k = Some c ->
    exists t, tasks k !! c = Some t /\ task_status (inner t) = Running /\ is_Some (start_time (inner t));
  sc_all id t : tasks k !! id = Some t ->
    match task_status (inner t) with
    | Ready => id ∈ ready_queue k
    | Running => current k = Some id
    | Zombie => True
    | UnInit => False
    end
}.

(** The first frame above the image of the kernel. *)
Definition frame_floor (pf : Platform) : Z := ekernel (linker pf) / PAGE_SIZE.

Record kernel_ok (pf : Platform) k : Prop := {
  ko_free : borrowed k = [];
  ko_spaces : spaces_ok (frame_floor pf) (mm k) (kernel_spaces k);
  ko_stacks : kspace_ok (mm k) (kernel_space k) (task_pids k);
  ko_pids : pids_ok (pid_allocator k) (task_pids k);
  ko_heap id : is_Some (tasks k !! id) -> id < next_task k;
  ko_tasks id t : tasks k !! id = Some t -> task_ok pf (phys (mm k)) t;
  ko_tree : tree_ok k;
  ko_sched : schedule_ok k;
  ko_image : sdata (linker pf) <= frame_floor pf * PAGE_SIZE
}.

(** ** Memory *)

(** Mappings are the same for a list of address spaces. *)
Definition same_maps (L : list MemorySet) s s' : Prop :=
  forall ms v, ms ∈ L -> mapping (phys s') (page_table ms) v = mapping (phys s) (page_table ms) v.

Lemma same_bytes_maps {lo} L s s' : Forall (ms_ok s) L -> same_bytes lo L s s' -> same_maps L s s'.
Proof.
  intros Hall Hb ms v Hms. rewrite Forall_forall in Hall. apply mapping_agree; [apply (Hall ms Hms)|].
  intros a Ha. eapply same_bytes_in; [done..|]. by apply ms_table_frame.
Qed.

Lemma user_space_keep ld m m' ms cx :
  user_space_ok ld m ms cx -> (forall v, mapping m' (page_table ms) v = mapping m (page_table ms) v) -> user_space_ok ld m' ms cx.
Proof. intros [Ht ? ? Ho] Hm. split; try done; [by rewrite Hm|]. intros v Hv. rewrite Hm. by apply Ho. Qed.

Lemma task_ok_keep pf m m' t :
  task_ok pf m t -> (forall v, mapping m' (page_table (space_of t)) v = mapping m (page_table (space_of t)) v) -> task_ok pf m' t.
Proof. intros [? ? ? Hs ? ?] Hm. split; try done. intros Hz. eapply user_space_keep; [by apply Hs|done]. Qed.

Lemma kernel_space_task k id t : tasks k !! id = Some t -> space_of t ∈ kernel_spaces k.
Proof. intros Ht. right. apply elem_of_values. by exists id, t. Qed.

Lemma kernel_ok_ms pf k id t : kernel_ok pf k -> tasks k !! id = Some t -> ms_ok (mm k) (memory_set (inner t)).
Proof.
  intros Hk Ht. pose proof (so_all _ _ (ko_spaces _ _ Hk)) as Ha. rewrite Forall_forall in Ha.
  by apply Ha, (kernel_space_task k id).
Qed.

Lemma kernel_ok_inv pf k : kernel_ok pf k -> mm_inv (mm k).
Proof. intros Hk. apply (ko_spaces _ _ Hk). Qed.

(** Memory may change under the kernel as long as the address spaces stand. *)
Lemma kernel_ok_mm pf k s' :
  kernel_ok pf k -> spaces_ok (frame_floor pf) s' (kernel_spaces k) -> same_maps (kernel_spaces k) (mm k) s' -> kernel_ok pf (set_mm s' k).
Proof.
  intros [? Hs Hst ? ? Ht Htree Hsch ?] Hs' Hm. split; try done; kernel_cbn.
  - apply (kspace_ok_keep (mm k)); [done| |intros v; apply (Hm (framed_part (kernel_space k))); by left].
    pose proof (so_all _ _ Hs') as Ha. by apply Forall_cons in Ha as [? _].
  - intros id t Hid. eapply task_ok_keep; [by apply (Ht id)|]. intros v. apply Hm. by apply (kernel_space_task k id).
  - by destruct Htree.
  - by destruct Hsch.
Qed.

(** Writing to data pages. *)
Lemma spaces_ok_write {lo} s L m :
  spaces_ok lo s L -> (forall ms a, ms ∈ L -> a / PAGE_SIZE ∈ pt_frames (page_table ms) -> m a = phys s a) ->
  spaces_ok lo (set_phys m s) L /\ same_maps L s (set_phys m s).
Proof.
  intros [Hi Ha Hn Hlo] Hm. rewrite Forall_forall in Ha. split; [split; [done| |done|done]|].
  - apply Forall_forall. intros ms Hms. refine (proj1 (ms_ok_write s ms m (Ha ms Hms) _)). intros a. by apply Hm.
  - intros ms v Hms. refine (proj2 (ms_ok_write s ms m (Ha ms Hms) _) v). intros a. by apply Hm.
Qed.

(** A data frame of one space is a table of none. *)
Lemma data_frame_no_table {lo} s L ms f ms' :
  spaces_ok lo s L -> ms ∈ L -> f ∈ concat (map area_frames (areas ms)) -> ms' ∈ L -> f ∉ pt_frames (page_table ms').
Proof.
  intros [_ _ Hn _] Hms Hf Hms' Hp. apply list_elem_of_split in Hms as (L1 & L2 & ->).
  unfold space_frames in Hn. rewrite map_app, concat_app in Hn. cbn in Hn. unfold ms_frames at 2 in Hn.
  rewrite !NoDup_app in Hn. setoid_rewrite elem_of_app in Hn. setoid_rewrite elem_of_app in Hn.
  destruct Hn as (_ & Hn1 & (_ & Hn2 & _) & Hn3 & _).
  assert (Hcase : (exists x, x ∈ L1 /\ ms' = x) \/ ms' = ms \/ ms' ∈ L2) by set_solver.
  destruct Hcase as [(? & Hin & <-)|[->|Hin]].
  - apply (Hn1 f); [|auto]. apply elem_of_concat_map. exists ms'. split; [done|]. by apply ms_table_frame.
  - by apply (Hn2 f).
  - apply (Hn3 f); [by right|]. apply elem_of_concat_map. exists ms'. split; [done|]. by apply ms_table_frame.
Qed.

(** The kernel writes to data pages of its address spaces. *)
Lemma kernel_ok_write pf k m :
  kernel_ok pf k ->
  (forall a, m a <> phys (mm k) a -> exists ms, ms ∈ kernel_spaces k /\ a / PAGE_SIZE ∈ concat (map area_frames (areas ms))) ->
  kernel_ok pf (set_mm (set_phys m (mm k)) k).
Proof.
  intros Hk Hm. destruct (spaces_ok_write (mm k) (kernel_spaces k) m (ko_spaces _ _ Hk)) as [Hs Hmaps].
  - intros ms' a Hms' Ha. destruct (decide (m a = phys (mm k) a)) as [|Hne]; [done|].
    destruct (Hm a Hne) as (ms & Hms & Hf). by destruct (data_frame_no_table _ _ _ _ _ (ko_spaces _ _ Hk) Hms Hf Hms').
  - by apply kernel_ok_mm.
Qed.

(** All address spaces but that of one process. *)
Definition other_spaces k (c : Z) : list MemorySet :=
  framed_part (kernel_space k) :: values space_of (delete c (tasks k)).

Lemma kernel_spaces_split k c t : tasks k !! c = Some t -> kernel_spaces k ≡ₚ space_of t :: other_spaces k c.
Proof. intros Hc. unfold kernel_spaces, other_spaces. rewrite (values_delete space_of (tasks k) c t Hc). solve_Permutation. Qed.

Lemma other_spaces_sub k c ms : ms ∈ other_spaces k c -> ms ∈ kernel_spaces k.
Proof.
  intros [->|(i & x & Hi & ->)%elem_of_values]%elem_of_cons; [by left|]. apply lookup_delete_Some in Hi as [_ Hi]. by eapply kernel_space_task.
Qed.

Lemma other_spaces_ok pf k c : kernel_ok pf k -> Forall (ms_ok (mm k)) (other_spaces k c).
Proof.
  intros Hk. pose proof (so_all _ _ (ko_spaces _ _ Hk)) as Ha. rewrite Forall_forall in Ha |- *. intros ms Hms. by apply Ha, (other_spaces_sub k c).
Qed.

(** ** Changing one process *)

(** What a change of a process may do without changing the family and the queue. *)
Record keeps_family (i i' : TaskControlBlockInner) : Prop := {
  kf_parent : parent i' = parent i;
  kf_children : children i' = children i;
  kf_status : task_status i' = task_status i;
  kf_start : is_Some (start_time i) -> is_Some (start_time i')
}.

Section Replaced.
Context (pf : Platform) (k : Kernel T) (c : Z) (t : TaskControlBlock) (f : TaskControlBlockInner -> TaskControlBlockInner).
Hypothesis Hk : kernel_ok pf k.
Hypothesis Hc : tasks k !! c = Some t.
Hypothesis Hf : keeps_family (inner t) (f (inner t)).

Lemma replaced_cases j tj :
  alter (with_inner f) c (tasks k) !! j = Some tj <->
  (j = c /\ tj = with_inner f t) \/ (j <> c /\ tasks k !! j = Some tj).
Proof.
  destruct (decide (j = c)) as [->|Hne].
  - rewrite lookup_alter_eq, Hc. cbn. split; [intros [= <-]; auto|]. intros [[_ ->]|[? _]]; congruence.
  - rewrite lookup_alter_ne by done. split; [auto|]. intros [[? _]|[_ ?]]; congruence.
Qed.

Lemma replaced_old j tj : tasks k !! j = Some tj ->
  exists tj', alter (with_inner f) c (tasks k) !! j = Some tj' /\ keeps_family (inner tj) (inner tj').
Proof.
  intros Hj. destruct (decide (j = c)) as [->|Hne].
  - assert (tj = t) as -> by congruence. exists (with_inner f t). split; [apply replaced_cases; auto|done].
  - exists tj. split; [apply replaced_cases; auto|by split].
Qed.

Lemma replaced_new j tj' : alter (with_inner f) c (tasks k) !! j = Some tj' ->
  exists tj, tasks k !! j = Some tj /\ keeps_family (inner tj) (inner tj').
Proof. intros [[-> ->]|[_ Hj]]%replaced_cases; [by exists t|]. exists tj'. split; [done|by split]. Qed.

Lemma replaced_tree k' :
  tasks k' = alter (with_inner f) c (tasks k) -> initproc k' = initproc k -> tree_ok k'.
Proof.
  intros Ht Hi. pose proof (ko_tree _ _ Hk) as [Hch Hnd Hpa (i & ti & Hii & Hti & Hip & Hiz)]. split; rewrite ?Ht, ?Hi.
  - intros p tp x (tp0 & Hp & [_ Hcs _ _])%replaced_new Hx. rewrite Hcs in Hx. destruct (Hch p tp0 x Hp Hx) as (tx & Htx & Hpx).
    destruct (replaced_old x tx Htx) as (tx' & Hx' & [Hpp _ _ _]). exists tx'. split; [done|]. congruence.
  - intros p tp (tp0 & Hp & [_ Hcs _ _])%replaced_new. rewrite Hcs. by eapply Hnd.
  - intros x tx (tx0 & Hx & [Hpp _ _ _])%replaced_new Hni. destruct (Hpa x tx0 Hx Hni) as (p & tp & Hp & Htp & Hin).
    destruct (replaced_old p tp Htp) as (tp' & Hp' & [_ Hcs _ _]). exists p, tp'. rewrite Hcs. split_and!; [congruence|done|done].
  - destruct (replaced_old i ti Hti) as (ti' & Hi' & [Hpp _ Hss _]). exists i, ti'. split_and!; [done|done|congruence|congruence].
Qed.

Lemma replaced_sched k' :
  tasks k' = alter (with_inner f) c (tasks k) -> ready_queue k' = ready_queue k -> current k' = current k -> schedule_ok k'.
Proof.
  intros Ht Hq Hcu. pose proof (ko_sched _ _ Hk) as [Hnd Hre Hcur Hal]. split; rewrite ?Ht, ?Hq, ?Hcu; [done|..].
  - intros id Hid. destruct (Hre id Hid) as (tx & Hx & Hs). destruct (replaced_old id tx Hx) as (tx' & Hx' & [_ _ Hss _]). exists tx'. split; [done|congruence].
  - intros x Hx. destruct (Hcur x Hx) as (tx & Htx & Hs & Hst). destruct (replaced_old x tx Htx) as (tx' & Hx' & [_ _ Hss Hst']). exists tx'.
    split_and!; [done|congruence|auto].
  - intros id tx (tx0 & Hx & [_ _ Hss _])%replaced_new. rewrite Hss. by apply Hal.
Qed.

(** The process gets a new address space, or new accounts. *)
Lemma kernel_ok_replace s' :
  spaces_ok (frame_floor pf) s' (memory_set (f (inner t)) :: other_spaces k c) -> same_maps (other_spaces k c) (mm k) s' ->
  task_ok pf (phys s') (with_inner f t) ->
  kernel_ok pf (set_tasks (alter (with_inner f) c (tasks k)) (set_mm s' k)).
Proof.
  unfold other_spaces. rewrite (Permutation_swap (framed_part (kernel_space k))). intros Hsp Hm Htask. pose proof Hk as [Hb Hsp0 Hst0 Hpi Hh Hts _ _ ?].
  assert (Hpids : values pid (alter (with_inner f) c (tasks k)) ≡ₚ task_pids k) by (by apply (values_alter_same pid _ _ c t)).
  split; [done| | | | | |by apply replaced_tree|by apply replaced_sched|done]; unfold task_pids, kernel_spaces; kernel_cbn.
  - by rewrite (values_alter space_of _ _ c t).
  - rewrite Hpids. apply (kspace_ok_keep (mm k)); [done| |intros v; apply (Hm (framed_part (kernel_space k))); by left].
    pose proof (so_all _ _ Hsp) as Ha. by apply Forall_cons in Ha as [? _].
  - by rewrite Hpids.
  - intros id Hid. apply Hh. by rewrite lookup_alter_is_Some in Hid.
  - intros id tx Hx. apply replaced_cases in Hx as [[-> ->]|[Hne Hx]]; [done|]. eapply task_ok_keep; [by apply (Hts id)|].
    intros v. apply Hm. right. apply elem_of_values. exists id, tx. by rewrite lookup_delete_ne.
Qed.

End Replaced.
End Inv.
