(* ===== verification/ProcessSpec.v ===== *)
(** * New processes

    The steps that [fork] and [spawn] share: a pid, a kernel stack, a control block that
    is pushed to the children of its parent and queued.  [sys_fork] is correct: the child
    is a copy of its parent but for its result and its kernel stack, and the invariant of
    the kernel holds again. *)

From S2P Require Import Prelude Config Address PhysMem FrameAllocator PageTable PageTableSpec.
From S2P Require Import MemorySet MemorySetSpec ForkSpec SpaceSpec Timer Pid Kernel Manager Task Loader.
From S2P Require Import Processor Syscall KernelSpec MmapSpec LifecycleSpec KernelStackSpec KernelInv.

Definition push_child (child : Z) (i : TaskControlBlockInner) : TaskControlBlockInner :=
  set_children (vec_push (children i) child) i.

Section Process.
Context {T : Type} `{FrameAllocatorSpec T}.
Implicit Types (s : MmState T) (k : Kernel T).

(** The running process has not exited. *)
Lemma running_live pf k c t : kernel_ok pf k -> running k c t -> task_status (inner t) <> Zombie.
Proof.
  intros Hk [Hcur Hc _]. destruct (sc_current _ (ko_sched _ _ Hk) c Hcur) as (t' & Ht' & Hr & _). rewrite Hc in Ht'. injection Ht' as <-. by rewrite Hr.
Qed.

Lemma running_status pf k c t : kernel_ok pf k -> running k c t -> task_status (inner t) = Running.
Proof.
  intros Hk [Hcur Hc _]. destruct (sc_current _ (ko_sched _ _ Hk) c Hcur) as (t' & Ht' & Hr & _). congruence.
Qed.

(** ** Pids and kernel stacks *)

Lemma as_isize_pid p : 0 <= p < STACK_LIMIT -> Return (as_isize p) = Return p.
Proof. unfold STACK_LIMIT, as_isize. intros. by rewrite (proj2 (Z.ltb_lt p _)) by lia. Qed.

Lemma wp_pid_alloc k live Q :
  CellPids ∉ borrowed k -> pids_ok (pid_allocator k) live -> pid_current (pid_allocator k) < STACK_LIMIT ->
  (forall p a', (p ∉ live) -> 0 <= p < STACK_LIMIT -> pids_ok a' (p :: live) -> pid_current a' <= pid_current (pid_allocator k) + 1 ->
     Q p (set_pid_allocator a' k)) ->
  wp pid_alloc Q k.
Proof.
  intros Hb Hok Hlt HQ. unfold pid_alloc. apply wp_with_cell; [done|]. wp_step. wp_step. kernel_cbn.
  destruct (pids_alloc (pid_allocator k)) as [p a'] eqn:E. unfold STACK_LIMIT in *.
  destruct (pids_ok_alloc _ _ _ _ Hok ltac:(lia) E) as (Hok' & Hp & Hc). wp_steps. kernel_cbn.
  apply HQ; [done| |done|exact Hc]. assert (Hr : p ∈ pid_recycled a' ++ p :: live) by (apply elem_of_app; right; by left).
  apply (po_range _ _ Hok') in Hr. lia.
Qed.

Lemma wp_KernelStack_new k stacks p Q :
  CellKernelSpace ∉ borrowed k -> kspace_ok (mm k) (kernel_space k) stacks -> 0 <= p < STACK_LIMIT -> (p ∉ stacks) ->
  (60 <= size (free_frames (mm k)))%nat ->
  (forall ks' s' new, kspace_ok s' ks' (p :: stacks) -> MemorySet_token ks' = MemorySet_token (kernel_space k) ->
     ms_frames (framed_part ks') ≡ₚ ms_frames (framed_part (kernel_space k)) ++ new ->
     grows 60 (mm k) (pt_frames (page_table (kernel_space k))) new s' -> Q p (set_kernel_space ks' (set_mm s' k))) ->
  wp (KernelStack_new p) Q k.
Proof.
  intros Hb Hks Hp Hn Hsize HQ. unfold KernelStack_new. rewrite stack_position by done. wp_step.
  apply wp_with_cell; [done|]. wp_step. wp_step. kernel_cbn. wp_step. apply wp_in_mm. kernel_cbn.
  eapply wp_mono; [|by apply (wp_stack_insert _ _ stacks)]. intros ks' s' (Hks' & Htok & new & Hfr & Hg). wp_step. wp_step.
  kernel_cbn. by apply (HQ ks' s' new).
Qed.

Lemma get_top_eq p : 0 <= p < STACK_LIMIT -> get_top p = TRAMPOLINE - p * 86016.
Proof.
  unfold STACK_LIMIT. intros Hp. unfold get_top. by rewrite kernel_stack_position_eq by (rewrite ?TRAMPOLINE_val; lia).
Qed.

(** ** The heap *)

Lemma wp_new_task k t Q :
  Q (next_task k) (set_next_task (next_task k + 1) (set_tasks (<[next_task k := t]> (tasks k)) k)) -> wp (new_task t) Q k.
Proof. intros HQ. unfold new_task. wp_steps. exact HQ. Qed.

(** ** The family of a new process *)

Section Added.
Context (pf : Platform) (k : Kernel T) (c : Z) (t : TaskControlBlock) (k' : Kernel T) (tc : TaskControlBlock).
Hypothesis Hk : kernel_ok pf k.
Hypothesis Hc : tasks k !! c = Some t.
Hypothesis Hlive : task_status (inner t) <> Zombie.
Hypothesis Htasks : tasks k' = <[next_task k := tc]> (alter (with_inner (push_child (next_task k))) c (tasks k)).
Hypothesis Hparent : parent (inner tc) = Some c.
Hypothesis Hnone : children (inner tc) = [].
Hypothesis Hready : task_status (inner tc) = Ready.
Hypothesis Hinit : initproc k' = initproc k.

Lemma added_fresh : tasks k !! next_task k = None.
Proof. destruct (tasks k !! next_task k) eqn:E; [|done]. pose proof (ko_heap _ _ Hk (next_task k) ltac:(eauto)). lia. Qed.

Lemma added_ne : c <> next_task k.
Proof. intros ->. rewrite added_fresh in Hc. done. Qed.

(** Every process is the new one, its parent, or as before. *)
Lemma added_cases j tj :
  tasks k' !! j = Some tj <->
  (j = next_task k /\ tj = tc) \/ (j = c /\ tj = with_inner (push_child (next_task k)) t) \/
  (j <> next_task k /\ j <> c /\ tasks k !! j = Some tj).
Proof.
  pose proof added_ne. rewrite Htasks. destruct (decide (j = next_task k)) as [->|Hne].
  - rewrite lookup_insert_eq. split; [intros [= <-]; auto|]. by intros [[_ ->]|[[? _]|[? _]]]; [|congruence..].
  - rewrite lookup_insert_ne by done. destruct (decide (j = c)) as [->|Hjc].
    + rewrite lookup_alter_eq, Hc. cbn. split; [intros [= <-]; auto|]. intros [[? _]|[[_ ->]|(_ & ? & _)]]; congruence.
    + rewrite lookup_alter_ne by done. split; [auto|]. intros [[? _]|[[? _]|(_ & _ & ?)]]; congruence.
Qed.

Lemma added_values {A} (f : TaskControlBlock -> A) :
  f (with_inner (push_child (next_task k)) t) = f t -> values f (tasks k') ≡ₚ f tc :: values f (tasks k).
Proof.
  intros Hf. rewrite Htasks, values_insert.
  - by rewrite (values_alter_same f _ _ c t).
  - rewrite lookup_alter_ne by apply added_ne. apply added_fresh.
Qed.

Lemma added_old j tj : tasks k !! j = Some tj -> exists tj', tasks k' !! j = Some tj' /\
  parent (inner tj') = parent (inner tj) /\ task_status (inner tj') = task_status (inner tj) /\
  start_time (inner tj') = start_time (inner tj) /\ forall x, x ∈ children (inner tj) -> x ∈ children (inner tj').
Proof.
  intros Hj. destruct (decide (j = c)) as [->|Hne].
  - exists (with_inner (push_child (next_task k)) t). rewrite Hc in Hj. injection Hj as <-. split_and!; [apply added_cases; auto|done..|].
    intros x Hx. cbn. apply elem_of_vec_push. by left.
  - exists tj. split_and!; try done. apply added_cases. right. right. split_and!; [|done..]. intros ->. by rewrite added_fresh in Hj.
Qed.

Lemma added_tree : tree_ok k'.
Proof.
  pose proof (ko_tree _ _ Hk) as [Hch Hnd Hpa (i & ti & Hi & Hti & Hip & Hiz)]. split.
  - intros p tp x Hp Hx.
    assert (Hold : forall q tq, tasks k !! q = Some tq -> x ∈ children (inner tq) -> exists tx, tasks k' !! x = Some tx /\ parent (inner tx) = Some q).
    { intros q tq Hq Hxq. destruct (Hch q tq x Hq Hxq) as (tx & Htx & Hpx). destruct (added_old x tx Htx) as (tx' & ? & ? & _).
      exists tx'. split; congruence. }
    apply added_cases in Hp as [[-> ->]|[[-> ->]|(_ & _ & Hp)]]; [by rewrite Hnone in Hx; apply not_elem_of_nil in Hx| |by eapply Hold].
    cbn in Hx. apply elem_of_vec_push in Hx as [Hx| ->]; [by eapply Hold|]. exists tc. split; [apply added_cases; auto|done].
  - intros p tp Hp. apply added_cases in Hp as [[-> ->]|[[-> ->]|(_ & _ & Hp)]]; [rewrite Hnone; apply NoDup_singleton| |by eapply Hnd].
    cbn. pose proof (Hnd c t Hc) as [Hself Hnd']%NoDup_cons. apply NoDup_cons. rewrite elem_of_vec_push. split.
    { intros [?|Heq]; [done|]. pose proof added_fresh as Hfr. rewrite <-Heq in Hfr. congruence. }
    apply NoDup_vec_push. split; [done|]. intros Hin. destruct (Hch c t _ Hc Hin) as (tx & Htx & _). by rewrite added_fresh in Htx.
  - intros x tx Hx Hni. rewrite Hinit in Hni.
    assert (Hold : forall q tq, tasks k !! x = Some tq -> parent (inner tq) = parent (inner tx) -> q = x ->
      exists p tp, parent (inner tx) = Some p /\ tasks k' !! p = Some tp /\ x ∈ children (inner tp)).
    { intros q tq Hq Hpq _. destruct (Hpa x tq Hq Hni) as (p & tp & Hpp & Htp & Hin). destruct (added_old p tp Htp) as (tp' & Hp' & _ & _ & _ & Hsub).
      exists p, tp'. split_and!; [congruence|done|by apply Hsub]. }
    apply added_cases in Hx as [[-> ->]|[[-> ->]|(_ & _ & Hx)]]; [|by eapply (Hold c t)|by eapply Hold].
    exists c, (with_inner (push_child (next_task k)) t). split_and!; [done|apply added_cases; auto|]. cbn. apply elem_of_vec_push. by right.
  - destruct (added_old i ti Hti) as (ti' & Hi' & Hp' & Hs' & _). exists i, ti'. rewrite Hinit. split_and!; try done; congruence.
Qed.

Hypothesis Hqueue : ready_queue k' = ready_queue k ++ [next_task k].
Hypothesis Hcurrent : current k' = current k.

Lemma added_sched : schedule_ok k'.
Proof.
  pose proof (ko_sched _ _ Hk) as [Hnd Hre Hcu Hal]. split.
  - rewrite Hqueue. apply (NoDup_vec_push (ready_queue k)). split; [done|]. intros Hin. destruct (Hre _ Hin) as (tx & Htx & _). by rewrite added_fresh in Htx.
  - intros id. rewrite Hqueue, elem_of_app, list_elem_of_singleton. intros [Hin|Hin].
    + destruct (Hre id Hin) as (tx & Htx & Hs). destruct (added_old id tx Htx) as (tx' & ? & _ & ? & _). exists tx'. split; congruence.
    + subst id. exists tc. split; [apply added_cases; auto|done].
  - intros x Hx. rewrite Hcurrent in Hx. destruct (Hcu x Hx) as (tx & Htx & Hs & Hst). destruct (added_old x tx Htx) as (tx' & ? & _ & ? & Hst' & _).
    exists tx'. rewrite Hst'. split_and!; [done|congruence|done].
  - intros id tx Hx. rewrite Hqueue, Hcurrent.
    apply added_cases in Hx as [[-> ->]|[[-> ->]|(_ & _ & Hx)]]; [rewrite Hready; set_solver|specialize (Hal c t Hc)|specialize (Hal id tx Hx)].
    + cbn. destruct (task_status (inner t)); [done|set_solver|done|done].
    + destruct (task_status (inner tx)); [done|set_solver|done|done].
Qed.

Hypothesis Hnext : next_task k' = next_task k + 1.
Hypothesis Hborrowed : borrowed k' = [].
Hypothesis Hspaces : spaces_ok (frame_floor pf) (mm k') (framed_part (kernel_space k') :: space_of tc :: values space_of (tasks k)).
Hypothesis Hmaps : same_maps (values space_of (tasks k)) (mm k) (mm k').
Hypothesis Hstacks : kspace_ok (mm k') (kernel_space k') (pid tc :: task_pids k).
Hypothesis Hpids : pids_ok (pid_allocator k') (pid tc :: task_pids k).
Hypothesis Htask : task_ok pf (phys (mm k')) tc.

Lemma kernel_ok_added : kernel_ok pf k'.
Proof.
  assert (Hpp : task_pids k' ≡ₚ pid tc :: task_pids k) by (by apply added_values).
  split; [done| |by rewrite Hpp|by rewrite Hpp| | |apply added_tree|apply added_sched|apply Hk].
  - unfold kernel_spaces. rewrite (added_values space_of) by done. done.
  - intros id [tx Hx]. rewrite Hnext. apply added_cases in Hx as [[-> _]|[[-> _]|(_ & _ & Hx)]]; [lia|..].
    + pose proof (ko_heap _ _ Hk c ltac:(eauto)). lia.
    + pose proof (ko_heap _ _ Hk id ltac:(eauto)). lia.
  - intros id tx Hx.
    assert (Hold : forall j tj, tasks k !! j = Some tj -> task_ok pf (phys (mm k')) tj).
    { intros j tj Hj. eapply task_ok_keep; [by apply (ko_tasks _ _ Hk j)|]. intros v. apply Hmaps, elem_of_values. by exists j, tj. }
    apply added_cases in Hx as [[-> ->]|[[-> ->]|(_ & _ & Hx)]]; [done| |by eapply Hold].
    destruct (Hold c t Hc) as [? ? ? Hsp Hz Hre]. split; try done.
Qed.

End Added.

(** ** Writing to the trap context *)

Lemma wp_find_trap_cx k ms a cx Q :
  ms_ok (mm k) ms -> a ∈ areas ms -> (TRAP_CONTEXT_vpn, cx) ∈ data_frames a -> Q cx k -> wp (find_trap_cx ms) Q k.
Proof.
  intros Hms Ha Hcx HQ. destruct (ms_ok_area _ _ _ Hms Ha) as (Hfa & Hua & _).
  destruct (framed_frame _ _ _ _ (pt_ok_inv _ _ (mo_pt _ _ Hms)) Hua Hcx) as [Hf _].
  unfold find_trap_cx. wp_step. apply (wp_lift _ TRAP_CONTEXT_vpn); [reflexivity|]. unfold mem_of. wp_step. wp_step. wp_step.
  eapply wp_unwrap; [apply mapping_Some_translate, (fo_map _ _ _ Hfa), Hcx|]. wp_step.
  rewrite area_pte_ppn by (done || apply Hfa). exact HQ.
Qed.

(** A word in the first 512 bytes of the page [f]. *)
Lemma store_word_page (m : mem) f i v a :
  is_frame f -> 0 <= i < 512 -> a / PAGE_SIZE <> f -> store64 m (cx_word (page_base f) i) v a = m a.
Proof.
  intros Hf Hi Ha. apply store64_out. unfold cx_word. intros Hin. apply Ha, page_span; [done|]. unfold PAGE_SIZE. lia.
Qed.

(** Writing within a data frame of one space. *)
Lemma spaces_ok_store {lo} s ms L f m :
  spaces_ok lo s (ms :: L) -> f ∈ concat (map area_frames (areas ms)) -> (forall a, a / PAGE_SIZE <> f -> m a = phys s a) ->
  spaces_ok lo (set_phys m s) (ms :: L) /\ same_bytes lo L s (set_phys m s) /\ same_maps (ms :: L) s (set_phys m s).
Proof.
  intros Hok Hf Hm.
  assert (Hw : forall ms' a, ms' ∈ ms :: L -> a / PAGE_SIZE ∈ pt_frames (page_table ms') -> m a = phys s a).
  { intros ms' a Hms' Ha. apply Hm. intros <-. by apply (data_frame_no_table s (ms :: L) ms (a / PAGE_SIZE) ms' Hok ltac:(by left) Hf). }
  destruct (spaces_ok_write s (ms :: L) m Hok Hw) as [Hok' Hmaps]. split_and!; [done| |done].
  refine (proj2 (spaces_ok_step s [ms] [ms] L [f] [] [] (set_phys m s) Hok _ _ _ _ _ _)).
  - apply (changes_grows 0), grows_write; [apply Hok|]. intros a Ha. apply Hm. intros Hin. apply Ha. by apply list_elem_of_singleton.
  - intros p ->%list_elem_of_singleton. unfold space_frames. cbn. rewrite app_nil_r. by apply ms_frames_areas.
  - by intros p []%not_elem_of_nil.
  - pose proof (so_all _ _ Hok') as Ha. apply Forall_cons in Ha as [? _]. by apply Forall_singleton.
  - pose proof (so_all _ _ Hok') as Ha. apply Forall_cons in Ha as [Ha _]. unfold space_frames. cbn. rewrite app_nil_r. apply Ha.
  - by left.
Qed.

(** ** The steps that [fork] and [spawn] share *)

(** The kernel with a new process [tc], child of [c], whose guard is held. *)
Definition attached k (c : Z) s (ks : MemorySet) (a : PidAllocator) (tc : TaskControlBlock) : Kernel T :=
  set_borrowed [CellTask c] (set_mm s (set_kernel_space ks (set_pid_allocator a (set_next_task (next_task k + 1)
    (set_tasks (<[next_task k := tc]> (alter (with_inner (push_child (next_task k))) c (tasks k))) k))))).

(** What holds of memory then: the kernel has a stack for the pid [p], and the address
    space [ms] of the child is apart from all others. *)
Record attaching (lo : Z) k s1 (ms : MemorySet) (p : Z) s (ks : MemorySet) (a : PidAllocator) : Prop := {
  at_pid : p ∉ task_pids k;
  at_limit : 0 <= p < STACK_LIMIT;
  at_pids : pids_ok a (p :: task_pids k);
  at_stacks : kspace_ok s ks (p :: task_pids k);
  at_token : MemorySet_token ks = MemorySet_token (kernel_space k);
  at_spaces : spaces_ok lo s (framed_part ks :: ms :: values space_of (tasks k));
  at_bytes : same_bytes lo (ms :: values space_of (tasks k)) s1 s;
  at_free : (size (free_frames s1) <= size (free_frames s) + 60)%nat
}.

Lemma wp_attach {A} pf k c t s1 ms cxp (mk : Z -> TaskControlBlockInner) (K : Z -> Z -> Z -> M (Kernel T) A) Q :
  kernel_ok pf k -> tasks k !! c = Some t -> pid_current (pid_allocator k) < STACK_LIMIT ->
  spaces_ok (frame_floor pf) s1 (ms :: kernel_spaces k) -> same_bytes (frame_floor pf) (kernel_spaces k) (mm k) s1 -> (60 <= size (free_frames s1))%nat ->
  (forall top, trap_cx_ppn (mk top) = cxp) ->
  (forall p a ks s, attaching (frame_floor pf) k s1 ms p s ks a ->
     wp (K (next_task k) (page_base cxp) (get_top p)) Q (attached k c s ks a (mk_tcb p p (mk (get_top p))))) ->
  wp (let* pid_handle := pid_alloc in
      let* stack := KernelStack_new pid_handle in
      let* child := new_task (mk_tcb pid_handle stack (mk (get_top stack))) in
      update_inner c (push_child child) ;;
      let* cx := with_cell (CellTask child) (let* t := inner_of child in ret (get_trap_cx t)) in
      K child cx (get_top stack)) Q (set_borrowed [CellTask c] (set_mm s1 k)).
Proof.
  intros Hk Hc Hlim Hsp1 Hb1 Hsize Hcx HQ. pose proof (added_fresh pf k Hk) as Hfresh.
  assert (Hne : c <> next_task k) by (intros ->; congruence).
  wp_step. apply (wp_pid_alloc _ (task_pids k)); [cell_free|apply Hk|done|]. intros p a Hp Hpl Hpids _. kernel_cbn.
  assert (Hmaps1 : same_maps (kernel_spaces k) (mm k) s1) by (eapply same_bytes_maps; [apply Hk|done]).
  pose proof (so_all _ _ Hsp1) as Hall. apply Forall_cons in Hall as [Hms1 Hall]. apply Forall_cons in Hall as [Hks1 _].
  assert (Hks : kspace_ok s1 (kernel_space k) (task_pids k)).
  { apply (kspace_ok_keep (mm k)); [apply Hk|done|]. intros v. apply (Hmaps1 (framed_part (kernel_space k))). by left. }
  wp_step. apply (wp_KernelStack_new _ (task_pids k)); [cell_free|done|done|done|done|]. kernel_cbn.
  intros ks' s2 new Hks' Htok Hfr Hg.
  destruct (spaces_ok_step (lo := frame_floor pf) s1 [framed_part (kernel_space k)] [framed_part ks'] (ms :: values space_of (tasks k))
    (pt_frames (page_table (kernel_space k))) new [] s2) as [Hsp2 Hb2].
  { cbn. unfold kernel_spaces in Hsp1. by rewrite Permutation_swap. }
  { by eapply changes_grows. }
  { intros q Hq. unfold space_frames. cbn. rewrite app_nil_r. by apply (ms_table_frame (framed_part (kernel_space k))). }
  { by intros q []%not_elem_of_nil. }
  { apply Forall_singleton, Hks'. }
  { unfold space_frames. cbn. rewrite app_nil_r. apply (kk_ms _ _ _ Hks'). }
  { intros q. unfold space_frames. cbn. rewrite !app_nil_r, Hfr, elem_of_app. auto. }
  wp_step. apply wp_new_task. kernel_cbn. wp_step. eapply wp_update_inner; [kernel_cbn; rewrite lookup_insert_ne by done; exact Hc|].
  wp_step. apply wp_with_cell; [cell_free|].
  wp_step. eapply wp_inner_of; [kernel_cbn; rewrite lookup_alter_ne, lookup_insert_eq by done; reflexivity|].
  wp_step. kernel_cbn. unfold get_trap_cx. cbn [inner]. rewrite Hcx. rewrite alter_insert_ne by done.
  apply (HQ p a ks' s2). split; try done. by apply (grows_size _ _ _ _ _ Hg).
Qed.

(** Memory after the trap context of the child, in the frame [cx], is written. *)
Record child_ready (lo : Z) k s1 (ms : MemorySet) (p : Z) (ks : MemorySet) s' : Prop := {
  cr_spaces : spaces_ok lo s' (framed_part ks :: ms :: values space_of (tasks k));
  cr_others : same_bytes lo (values space_of (tasks k)) (mm k) s';
  cr_maps v : mapping (phys s') (page_table ms) v = mapping (phys s1) (page_table ms) v;
  cr_stacks : kspace_ok s' ks (p :: task_pids k)
}.

Lemma child_ready_write {lo} k s1 ms p s ks a f m :
  ms_ok s1 ms -> same_bytes lo (kernel_spaces k) (mm k) s1 -> attaching lo k s1 ms p s ks a -> f ∈ concat (map area_frames (areas ms)) ->
  (forall x, x / PAGE_SIZE <> f -> m x = phys s x) -> child_ready lo k s1 ms p ks (set_phys m s).
Proof.
  intros Hms1 Hb1 [Hp Hpl Hpids Hst _ Hsp Hbs _] Hf Hm. rewrite Permutation_swap in Hsp.
  destruct (spaces_ok_store s ms (framed_part ks :: values space_of (tasks k)) f m Hsp Hf Hm) as (Hsp' & Hb' & Hm'). split.
  - by rewrite Permutation_swap.
  - eapply same_bytes_trans; [eapply same_bytes_sub; [|exact Hb1]; set_solver|].
    eapply same_bytes_trans; [eapply same_bytes_sub; [|exact Hbs]; set_solver|]. eapply same_bytes_sub; [|exact Hb']; set_solver.
  - intros v. etrans; [apply (Hm' ms); by left|]. apply mapping_agree; [apply Hms1|]. intros x Hx. eapply same_bytes_in; [exact Hbs|by left|by apply ms_table_frame].
  - apply (kspace_ok_keep s); [done| |].
    + pose proof (so_all _ _ Hsp') as Ha. rewrite Forall_forall in Ha. apply Ha. set_solver.
    + intros v. apply (Hm' (framed_part ks)). set_solver.
Qed.

(** The bytes of the child before that write are those before its kernel stack was made. *)
Lemma attaching_bytes {lo} k s1 ms p s ks a x :
  attaching lo k s1 ms p s ks a -> x / PAGE_SIZE ∈ ms_frames ms -> phys s x = phys s1 x.
Proof. intros Hat Hx. eapply same_bytes_in; [apply (at_bytes _ _ _ _ _ _ _ _ Hat)|by left|done]. Qed.

(** The kernel's invariant with the new process. *)
Lemma kernel_ok_child pf k c t k' tc s1 :
  kernel_ok pf k -> tasks k !! c = Some t ->
  tasks k' = <[next_task k := tc]> (alter (with_inner (push_child (next_task k))) c (tasks k)) ->
  parent (inner tc) = Some c -> children (inner tc) = [] -> task_status (inner tc) = Ready ->
  initproc k' = initproc k -> ready_queue k' = ready_queue k ++ [next_task k] -> current k' = current k ->
  next_task k' = next_task k + 1 -> borrowed k' = [] -> task_status (inner t) <> Zombie ->
  child_ready (frame_floor pf) k s1 (space_of tc) (pid tc) (kernel_space k') (mm k') -> pids_ok (pid_allocator k') (pid tc :: task_pids k) ->
  task_ok pf (phys s1) tc -> kernel_ok pf k'.
Proof.
  intros Hk Hc Ht Hp Hch Hr Hi Hq Hcu Hn Hb Hz [Hsp Hoth Hmaps Hst] Hpids Htc.
  eapply (kernel_ok_added pf k c t k' tc); try done.
  - eapply same_bytes_maps; [|exact Hoth]. pose proof (so_all _ _ (ko_spaces _ _ Hk)) as Ha. by apply Forall_cons in Ha as [_ ?].
  - by eapply task_ok_keep.
Qed.

(** ** Applications by name *)

Lemma wp_current_user_token k c t Q :
  running k c t -> Q (get_user_token (inner t)) k -> wp current_user_token Q k.
Proof.
  intros [Hcur Hc Hb] HQ. unfold current_user_token. wp_step. eapply wp_current_task; [done..|]. wp_step. eapply wp_unwrap; [done|].
  apply wp_with_cell; [cell_free|]. wp_step. eapply wp_inner_of; [exact Hc|]. wp_step. kernel_cbn. by destruct k.
Qed.

(** [exec] and [spawn] look an application up by the name at [path]. *)
Lemma wp_app_by_name {A} pf k c t path name o (K : option (list Z) -> M (Kernel T) A) Q :
  running k c t -> translated_str (str_fuel pf) (phys (mm k)) (get_user_token (inner t)) path = Ok name ->
  get_app_data_by_name pf (phys (mm k)) name = Ok o -> wp (K o) Q k ->
  wp (let* token := current_user_token in
      let* m := mem_of in
      let* name := lift (translated_str (str_fuel pf) m token path) in
      let* o := lift (get_app_data_by_name pf m name) in
      K o) Q k.
Proof.
  intros Hrun Hstr Hdata HQ. wp_step. eapply wp_current_user_token; [done|]. unfold mem_of. wp_step. wp_step.
  wp_step. eapply wp_lift; [done|]. wp_step. by eapply wp_lift.
Qed.

End Process.
