(* ===== verification/UserMemSpec.v ===== *)
(** * User memory

    Pieces of memory that system calls write for a process: they lie in one page of its
    address space, the kernel finds them by translation, and writing there keeps the
    invariant of the kernel. *)

From S2P Require Import Prelude Config Address PhysMem FrameAllocator PageTable PageTableSpec UserAccess.
From S2P Require Import MemorySet MemorySetSpec ForkSpec SpaceSpec Timer Pid Kernel Manager Task Loader.
From S2P Require Import Processor Syscall KernelSpec MmapSpec LifecycleSpec KernelStackSpec KernelInv ProcessSpec.

(** [n] bytes at [ptr] lie in the page of the space that the frame [f] holds. *)
Definition user_span (ms : MemorySet) (ptr n f : Z) : Prop :=
  0 <= ptr /\ ptr mod PAGE_SIZE + n <= PAGE_SIZE /\ exists a, a ∈ areas ms /\ (VirtAddr_floor ptr, f) ∈ data_frames a.

(** Addresses of other pages are outside the span. *)
Lemma user_span_out ms ptr n f x :
  is_frame f -> user_span ms ptr n f -> x / PAGE_SIZE <> f ->
  ~ (page_base f + ptr mod PAGE_SIZE <= x < page_base f + ptr mod PAGE_SIZE + n).
Proof.
  intros Hf (? & ? & _) Hx Hin. apply Hx, page_span; [done|]. unfold PAGE_SIZE in *. pose proof (Z.mod_pos_bound ptr 4096). lia.
Qed.

Lemma byte_buffer_one n m token va pa :
  0 <= va < 2 ^ 64 - PAGE_SIZE -> translate_va m (PageTable_from_token token) va = Some pa ->
  translated_byte_buffer (S n) m token va 1 = Ok [(pa, 1)].
Proof.
  intros Hva Hpa. unfold translated_byte_buffer. unfold PAGE_SIZE in Hva. rewrite wrap64_small by lia. cbn [byte_buffer_loop].
  destruct (byte_buffer_round_ok m (PageTable_from_token token) (va + 1) va) as (base & Hr & Hb); [lia|unfold PAGE_SIZE; lia|eauto|].
  replace (Z.min _ (va + 1)) with (va + 1) in Hr, Hb by (unfold PAGE_SIZE; zdm). replace (va + 1 - va) with 1 in Hr, Hb by lia.
  rewrite Hr. destruct (Z.ltb_spec va (va + 1)); [|lia]. assert (He : (va + 1 <? va + 1) = false) by (apply Z.ltb_ge; lia).
  rewrite (seqZ_cons base), (seqZ_cons va) in Hb by lia. cbn [map] in Hb. rewrite Hpa in Hb. injection Hb as ->. destruct n; cbn [byte_buffer_loop]; by rewrite He.
Qed.

Section UserMem.
Context {T : Type} `{FrameAllocatorSpec T}.
Implicit Types (s : MmState T) (k : Kernel T).

Lemma ms_root_frame s ms : ms_ok s ms -> is_frame (root_ppn (page_table ms)).
Proof.
  intros [[_ Hwf _] _ _ _]. pose proof (pt_wf_frames _ _ Hwf) as Hfr. rewrite Forall_forall in Hfr.
  apply Hfr, (pt_wf_owned _ _ Hwf []); [|done]. split; [cbn; lia|constructor].
Qed.

Lemma user_page_va s ms a va f :
  ms_ok s ms -> 0 <= va -> a ∈ areas ms -> (VirtAddr_floor va, f) ∈ data_frames a ->
  translate_va (phys s) (PageTable_from_token (MemorySet_token ms)) va = Some (page_base f + va mod PAGE_SIZE) /\
  f ∈ concat (map area_frames (areas ms)) /\ is_frame f.
Proof.
  intros Hms Hva Ha Hf. destruct (ms_ok_area _ _ _ Hms Ha) as (Hfa & Hua & _). destruct (mo_pt _ _ Hms) as [Hinv Hwf Hu].
  destruct (framed_frame _ _ _ _ Hinv Hua Hf) as [Hff _].
  pose proof (ms_root_frame _ _ Hms) as Hroot.
  split_and!; [|by eapply in_data_frames|done]. unfold MemorySet_token. unfold is_frame in Hroot. rewrite from_token_token by lia.
  rewrite translate_va_root, (translate_va_in_page _ _ _ (area_pte a f)); [|done|by apply mapping_Some_translate, (fo_map _ _ _ Hfa)].
  by rewrite area_pte_ppn by (done || apply Hfa).
Qed.

(** A frame holds one page. *)
Lemma data_frame_once s ms a a' v v' f :
  ms_ok s ms -> a ∈ areas ms -> a' ∈ areas ms -> (v, f) ∈ data_frames a -> (v', f) ∈ data_frames a' -> v = v'.
Proof.
  intros Hms Ha Ha' Hv Hv'. pose proof (mo_nodup _ _ Hms) as Hnd. apply NoDup_app in Hnd as (_ & _ & Hnd).
  set (X := concat (map data_frames (areas ms))). assert (HX : concat (map area_frames (areas ms)) = X.*2).
  { unfold X. rewrite concat_map, map_map. done. }
  rewrite HX in Hnd. assert (Hin : forall x b, b ∈ areas ms -> (x, f) ∈ data_frames b -> exists i, X !! i = Some (x, f)).
  { intros x b Hb Hx. apply list_elem_of_lookup, elem_of_concat_map. by exists b. }
  destruct (Hin v a Ha Hv) as [i Hi], (Hin v' a' Ha' Hv') as [j Hj].
  assert (i = j) as -> by (eapply (NoDup_lookup _ _ _ f Hnd); rewrite list_lookup_fmap, ?Hi, ?Hj; done). congruence.
Qed.

Lemma refmut_span s ms ptr n f :
  ms_ok s ms -> user_span ms ptr n f ->
  translated_refmut (phys s) (MemorySet_token ms) ptr = Ok (page_base f + ptr mod PAGE_SIZE) /\
  f ∈ concat (map area_frames (areas ms)) /\ is_frame f.
Proof.
  intros Hms (Hptr & Hw & a & Ha & Hf). destruct (user_page_va s ms a ptr f Hms Hptr Ha Hf) as (Hva & Hin & Hff).
  split; [|done]. unfold translated_refmut. rewrite Hva. apply (get_mut_mapped _ 1); [done|].
  pose proof (Z.mod_pos_bound ptr PAGE_SIZE eq_refl). apply frame_maps; [done|lia|lia].
Qed.

(** The kernel can write to a page of a process. *)
Lemma frame_writes pf k c t f off n :
  kernel_ok pf k -> tasks k !! c = Some t -> f ∈ concat (map area_frames (areas (space_of t))) ->
  0 <= off -> off + n <= PAGE_SIZE -> kernel_writes (linker pf) (page_base f + off) n = true.
Proof.
  intros Hk Hc Hf Ho Hn. pose proof (ms_data_frames _ _ (kernel_ok_ms _ _ _ _ Hk Hc)) as Hfr. rewrite Forall_forall in Hfr.
  pose proof (Hfr f Hf) as Hff. pose proof (ko_image _ _ Hk) as Him.
  assert (Hfl : frame_floor pf <= f).
  { apply (so_above _ _ (ko_spaces _ _ Hk)). right. apply elem_of_space_frames. exists (space_of t).
    split; [by apply (kernel_space_task k c)|]. unfold ms_frames. apply elem_of_app. by right. }
  unfold is_frame in Hff. unfold kernel_writes, MEMORY_END, PAGE_SIZE in *. rewrite page_base_small by lia.
  destruct (Z.leb_spec n 0); [done|]. cbn [orb]. apply andb_true_iff. rewrite !Z.leb_le. lia.
Qed.

Lemma span_writes pf k c t ptr n f :
  kernel_ok pf k -> tasks k !! c = Some t -> f ∈ concat (map area_frames (areas (space_of t))) -> user_span (space_of t) ptr n f ->
  kernel_writes (linker pf) (page_base f + ptr mod PAGE_SIZE) n = true.
Proof.
  intros Hk Hc Hf (_ & Hn & _). pose proof (Z.mod_pos_bound ptr PAGE_SIZE eq_refl). eapply frame_writes; [done..|lia|lia].
Qed.

(** Writing within a data page of a process. *)
Lemma kernel_ok_store pf k c t f m :
  kernel_ok pf k -> tasks k !! c = Some t -> f ∈ concat (map area_frames (areas (space_of t))) ->
  (forall x, x / PAGE_SIZE <> f -> m x = phys (mm k) x) -> kernel_ok pf (set_mm (set_phys m (mm k)) k).
Proof.
  intros Hk Hc Hf Hm. apply kernel_ok_write; [done|]. intros x Hx. exists (space_of t). split; [by eapply kernel_space_task|].
  destruct (decide (x / PAGE_SIZE = f)) as [->|Hxf]; [done|]. by destruct Hx; apply Hm.
Qed.

End UserMem.
