(* ===== verification/SysForkSpec.v ===== *)
(** * fork

    [sys_fork] returns the pid of a child that is a copy of its parent in frames of its
    own, differs from it in the result of the call and in its kernel stack, and is queued;
    the invariant of the kernel holds again. *)

From S2P Require Import Prelude Config Address PhysMem FrameAllocator PageTable PageTableSpec.
From S2P Require Import MemorySet MemorySetSpec ForkSpec SpaceSpec Timer Pid Kernel Manager Task Loader.
From S2P Require Import Processor Syscall KernelSpec MmapSpec LifecycleSpec KernelStackSpec KernelInv ProcessSpec.

(** The fields of a forked process. *)
Definition forked_inner (pf : Platform) (self : Z) (i : TaskControlBlockInner) (ms : MemorySet) (cx top : Z)
    : TaskControlBlockInner :=
  {| trap_cx_ppn := cx; base_size := base_size i; task_cx := goto_trap_return (trap_return_addr pf) top;
     task_status := Ready; memory_set := ms; parent := Some self; children := []; exit_code := 0;
     pass := pass i; priority := priority i; syscall_times := syscall_times i; start_time := start_time i;
     kstack := ToTrapReturn |}.

Section SysFork.
Context {T : Type} `{FrameAllocatorSpec T}.
Implicit Types (s : MmState T) (k : Kernel T).
Context (pf : Platform).
Hypothesis Hld : trampoline_ok (linker pf).

(** A copy has the same pages. *)
Lemma copied_pages (m m' : mem) l l' : Forall2 (fun a a' => area_copy m a m' a') l l' -> area_pages l' = area_pages l.
Proof. unfold area_pages. induction 1 as [|x y l l' [Hxy _ _] _ IH]; [done|]. cbn. by rewrite Hxy, IH. Qed.

(** The copy of an address space that a process can run in is one. *)
Lemma copied_user_space s user cx child s1 :
  ms_ok s user -> user_space_ok (linker pf) (phys s) user cx -> fork_inv (linker pf) s (areas user) child s1 ->
  exists cx' a, a ∈ areas child /\ (TRAP_CONTEXT_vpn, cx') ∈ data_frames a /\ user_space_ok (linker pf) (phys s1) child cx'.
Proof.
  intros Hms [Ht Ha (a & Hin & Hcx & Hperm) _] [Hok _ Hcopy Htr Hno]. apply list_elem_of_lookup in Hin as [i Hi].
  destruct (Forall2_lookup_l _ _ _ _ _ Hcopy Hi) as (a' & Hi' & [Hr Hp _]).
  assert (Hin' : a' ∈ areas child) by (by eapply list_elem_of_lookup_2). assert (Hin : a ∈ areas user) by (by eapply list_elem_of_lookup_2).
  destruct (ms_ok_area _ _ _ Hok Hin') as (Hfa' & _ & _). destruct (ms_ok_area _ _ _ Hms Hin) as (Hfa & _ & _).
  assert (Hv : TRAP_CONTEXT_vpn ∈ range_items (vpn_range a')).
  { rewrite Hr, <-(fo_keys _ _ _ Hfa). apply list_elem_of_fmap. by exists (TRAP_CONTEXT_vpn, cx). }
  destruct (framed_ok_page _ _ _ _ Hfa' Hv) as (cx' & Hcx' & _). exists cx', a'. split_and!; [done..|].
  pose proof (copied_pages _ _ _ _ Hcopy) as Hpages. split; [done|by rewrite Hpages|exists a'; by rewrite Hp|by rewrite Hpages].
Qed.

Lemma wp_fork k c t Q :
  kernel_ok pf k -> tasks k !! c = Some t -> task_status (inner t) <> Zombie -> pid_current (pid_allocator k) < STACK_LIMIT ->
  (63 + 3 * length (area_pages (areas (space_of t))) <= size (free_frames (mm k)))%nat ->
  (forall s1 ms cx ax p a ks s, fork_inv (linker pf) (mm k) (areas (space_of t)) ms s1 ->
     ax ∈ areas ms -> (TRAP_CONTEXT_vpn, cx) ∈ data_frames ax -> user_space_ok (linker pf) (phys s1) ms cx ->
     same_bytes (frame_floor pf) (kernel_spaces k) (mm k) s1 -> attaching (frame_floor pf) k s1 ms p s ks a ->
     Q (next_task k) (set_borrowed [] (attached k c (set_phys (store64 (phys s) (cx_word (page_base cx) CX_KERNEL_SP) (get_top p)) s)
       ks a (mk_tcb p p (forked_inner pf c (inner t) ms cx (get_top p)))))) ->
  wp (fork pf c) Q k.
Proof.
  intros Hk Hc Hz Hlim Hsize HQ. pose proof (kernel_ok_ms _ _ _ _ Hk Hc) as Hms.
  pose proof (to_space _ _ _ (ko_tasks _ _ Hk _ _ Hc) Hz) as Hus. pose proof (ko_free _ _ Hk) as Hb.
  unfold fork. apply wp_with_cell; [cell_free|]. rewrite Hb. wp_step. eapply wp_inner_of; [done|]. wp_step. apply wp_in_mm. kernel_cbn.
  eapply wp_mono; [|apply (wp_from_existed_user (linker pf) Hld); [done|apply Hus|unfold space_of in *; lia]].
  intros ms s1 Hfi. pose proof Hfi as [Hms1 Hg _ _ _].
  destruct (copied_user_space _ _ _ _ _ Hms Hus Hfi) as (cx & ax & Hax & Hcx & Hus1).
  destruct (spaces_ok_add _ (mm k) (kernel_spaces k) ms s1 (ko_spaces _ _ Hk) Hg Hms1) as [Hsp1 Hb1].
  pose proof (grows_size _ _ _ _ _ Hg) as Hsz.
  wp_step. eapply wp_find_trap_cx; [exact Hms1|exact Hax|exact Hcx|].
  eapply (wp_attach pf k c t s1 ms cx (forked_inner pf c (inner t) ms cx)
    (fun child cx top => update_mem (fun m => store64 m (cx_word cx CX_KERNEL_SP) top) ;; ret child)); try done.
  { unfold space_of in *. lia. }
  intros p a ks s Hat. unfold update_mem. wp_steps. kernel_cbn. by eapply (HQ s1 ms cx ax p a ks s).
Qed.

(** ** The call *)

(** The kernel after [fork]: the child [tc] is a new process at the end of the queue, and
    the last of the children of [c]; nothing else in the heap changes; the memory of all
    other processes is the same; the pages of the child are copies of those of its parent,
    but for two words of its trap context: the result of the call is 0, and the kernel
    stack is that of the child. *)
Record forked k (c : Z) (t tc : TaskControlBlock) k' : Prop := {
  fk_pid : pid tc ∉ task_pids k;
  fk_tasks : tasks k' = <[next_task k := tc]> (alter (with_inner (push_child (next_task k))) c (tasks k));
  fk_inner : inner tc = forked_inner pf c (inner t) (space_of tc) (trap_cx_ppn (inner tc)) (get_top (pid tc));
  fk_queue : ready_queue k' = ready_queue k ++ [next_task k];
  fk_rest : current k' = current k /\ initproc k' = initproc k /\ console k' = console k;
  fk_others : same_bytes (frame_floor pf) (values space_of (tasks k)) (mm k) (mm k');
  fk_copy : exists m, Forall2 (fun a a' => area_copy (phys (mm k)) a m a') (areas (space_of t)) (areas (space_of tc)) /\
    phys (mm k') = store64 (store64 m (cx_word (get_trap_cx (inner tc)) CX_KERNEL_SP) (get_top (pid tc)))
      (cx_word (get_trap_cx (inner tc)) CX_A0) 0
}.

(** The two words are written within the page of the trap context. *)
Lemma forked_words (m : mem) cx top a :
  is_frame cx -> a / PAGE_SIZE <> cx ->
  store64 (store64 m (cx_word (page_base cx) CX_KERNEL_SP) top) (cx_word (page_base cx) CX_A0) 0 a = m a.
Proof. intros Hf Ha. by rewrite !store_word_page by (done || (unfold CX_A0, CX_KERNEL_SP; lia)). Qed.

Lemma wp_sys_fork k c t Q :
  kernel_ok pf k -> running k c t -> pid_current (pid_allocator k) < STACK_LIMIT ->
  (63 + 3 * length (area_pages (areas (space_of t))) <= size (free_frames (mm k)))%nat ->
  (forall tc k', forked k c t tc k' -> kernel_ok pf k' -> Q (Return (pid tc)) k') -> wp (sys_fork pf) Q k.
Proof.
  intros Hk Hrun Hlim Hsize HQ. assert (Hz : task_status (inner t) <> Zombie) by (by eapply running_live). destruct Hrun as [Hcur Hc Hb].
  unfold sys_fork. wp_step. eapply wp_current_task; [done..|]. wp_step. eapply wp_unwrap; [done|]. wp_step.
  eapply (wp_fork k c t); [done..|]. intros s1 ms cx ax p a ks s Hfi Hax Hcx Hus1 Hb1 Hat. pose proof Hat as [Hp Hpl Hpids _ _ _ _ _].
  unfold attached. wp_step. eapply wp_task_of; [kernel_cbn; by rewrite lookup_insert_eq|]. wp_step. apply wp_with_cell; [cell_free|]. wp_step.
  eapply wp_inner_of; [kernel_cbn; by rewrite lookup_insert_eq|]. wp_step. wp_step. unfold update_mem. wp_step. wp_step.
  unfold add_task, add. apply wp_with_cell; [cell_free|]. wp_step. wp_step. kernel_cbn. cbn [pid inner].
  set (tc := mk_tcb p p _). pose proof (in_data_frames ax ms _ _ Hax Hcx) as Hcxin. pose proof (ms_data_frames _ _ (fi_ok _ _ _ _ _ Hfi)) as Hfr.
  assert (Hcxf : is_frame cx) by (rewrite Forall_forall in Hfr; by apply Hfr).
  pose proof (child_ready_write k s1 ms p s ks a cx _ (fi_ok _ _ _ _ _ Hfi) Hb1 Hat Hcxin (fun x => forked_words (phys s) cx (get_top p) x Hcxf)) as Hcr.
  rewrite (as_isize_pid p) by done. apply (HQ tc).
  - split; try done; [apply Hcr|]. exists (phys s). split; [|done]. eapply copies_keep; [apply Hfi|done|]. intros x Hx.
    eapply attaching_bytes; [exact Hat|by apply ms_frames_areas].
  - pose proof (ko_tasks _ _ Hk _ _ Hc) as [_ Hpri Htm _ _ _]. by eapply (kernel_ok_child pf k c t _ tc s1).
Qed.

(** C5: [sys_fork], with frames enough for the copy, returns the new pid of a child that is
    a copy of the running process in frames of its own, in every register but the result
    and the kernel stack; the child is queued and is the last child of its parent; memory
    and control blocks of all other processes are as before, and the invariant of the
    kernel holds again. *)
Theorem sys_fork_correct k c t :
  kernel_ok pf k -> running k c t -> pid_current (pid_allocator k) < STACK_LIMIT ->
  (63 + 3 * length (area_pages (areas (space_of t))) <= size (free_frames (mm k)))%nat ->
  wp (sys_fork pf) (fun r k' => exists tc, r = Return (pid tc) /\ forked k c t tc k' /\ kernel_ok pf k') k.
Proof. intros Hk Hrun Hlim Hsize. eapply wp_sys_fork; [done..|]. intros tc k' Hf Hk'. by exists tc. Qed.

(** C37: a process that has unmapped memory cannot fork.  In every state in which [fork]
    would succeed, let the process give back a range of mapped pages with one at least that
    an area of its address space lists: [munmap] returns 0 and leaves the area as it is, and
    the next [fork] stops the kernel, since it copies every page of every area and reads
    through the empty entry of that page. *)
Theorem munmap_breaks_fork k c t start len p :
  kernel_ok pf k -> running k c t -> pid_current (pid_allocator k) < STACK_LIMIT ->
  (63 + 3 * length (area_pages (areas (space_of t))) <= size (free_frames (mm k)))%nat ->
  0 <= start -> 0 <= len <= 2 ^ 38 -> start + len <= 2 ^ 64 - PAGE_SIZE -> start mod PAGE_SIZE = 0 ->
  let pages := range_items (va_range start (start + len)) in
  (forall v, v ∈ pages -> is_Some (mapping (phys (mm k)) (page_table (space_of t)) v)) ->
  p ∈ pages -> p ∈ area_pages (areas (space_of t)) ->
  exists s', sys_munmap start len k = Ok (Return 0, set_mm s' k) /\ sys_fork pf (set_mm s' k) = Panic PageFault.
Proof.
  intros Hk Hrun _ Hsize Hs Hl He Hal pages Hm Hp Ha. pose proof Hrun as [Hcur Hc Hb]. pose proof (kernel_ok_ms _ _ _ _ Hk Hc) as Hms.
  destruct (munmap_unmaps k c t start len Hrun Hms Hs Hl He Hal Hm) as (s' & Hcall & Hpt & Hg & Hn & Ho). exists s'. split; [exact Hcall|].
  destruct (unmapped_mapping _ _ _ _ Hn Ho) as [_ Ho']. pose proof (running_live _ _ _ _ Hk Hrun) as Hz.
  pose proof (us_areas _ _ _ _ (to_space _ _ _ (ko_tasks _ _ Hk _ _ Hc) Hz)) as Hnt.
  assert (Hfork : from_existed_user (linker pf) (space_of t) s' = Panic PageFault).
  { apply (from_existed_user_faults (linker pf) Hld (mm k) s' (space_of t) pages Hms Hpt Hg Hn Ho' Hnt p Ha); [by exists p|].
    rewrite (gr_free _ _ _ _ _ Hg), list_to_set_nil, difference_empty_L. lia. }
  unfold sys_fork. apply wp_then_panic. eapply wp_current_task; [done..|]. apply wp_then_panic. eapply wp_unwrap; [done|].
  unfold bind at 1. unfold fork, with_cell. kernel_cbn. rewrite Hb, decide_False by apply not_elem_of_nil.
  unfold bind, inner_of, task_of, in_mm, zoom, bind, get, unwrap, ret. kernel_cbn. rewrite Hc. unfold ret. kernel_cbn. fold (space_of t).
  by rewrite Hfork.
Qed.

End SysFork.
