(* ===== verification/SysSpawnSpec.v ===== *)
(** * spawn

    [sys_spawn] of an application by its name creates a child that runs the program from
    its entry point in a new address space, with the initial trap context; the invariant of
    the kernel holds again.  A name that no application has gives -1 and no change. *)

From S2P Require Import Prelude Config Address PhysMem FrameAllocator PageTable PageTableSpec UserAccess.
From S2P Require Import MemorySet MemorySetSpec ForkSpec SpaceSpec ElfSpec Timer Pid Kernel Manager Task Loader.
From S2P Require Import Processor Syscall KernelSpec MmapSpec LifecycleSpec KernelStackSpec KernelInv ProcessSpec.

(** The fields of a spawned process. *)
Definition spawned_inner (pf : Platform) (self : Z) (i : TaskControlBlockInner) (ms : MemorySet) (cx top : Z)
    : TaskControlBlockInner :=
  {| trap_cx_ppn := cx; base_size := base_size i; task_cx := goto_trap_return (trap_return_addr pf) top;
     task_status := Ready; memory_set := ms; parent := Some self; children := []; exit_code := 0;
     pass := 0; priority := priority i; syscall_times := repeat 0 (Z.to_nat MAX_SYSCALL_NUM); start_time := None;
     kstack := ToTrapReturn |}.

(** The first trap context of a program. *)
Definition first_context (pf : Platform) (entry sp satp top : Z) : list Z :=
  trap_cx_words (app_init_context (sstatus_value pf) entry sp satp top (trap_handler_addr pf)).

Lemma store_words_out ws : forall (m : mem) a x,
  ~ (a <= x < a + 8 * Z.of_nat (length ws)) -> store_words m a ws x = m x.
Proof.
  induction ws as [|w ws IH]; intros m a x Hx; [done|]. cbn [store_words length] in *. rewrite IH by lia. apply store64_out. lia.
Qed.

(** The trap context is written within its page. *)
Lemma first_context_page pf (m : mem) cx entry sp satp top x :
  is_frame cx -> x / PAGE_SIZE <> cx -> store_words m (page_base cx) (first_context pf entry sp satp top) x = m x.
Proof.
  intros Hf Hx. apply store_words_out. intros Hin. apply Hx, page_span; [done|].
  replace (length (first_context pf entry sp satp top)) with 37%nat in Hin by done. unfold PAGE_SIZE. lia.
Qed.

Section SysSpawn.
Context {T : Type} `{FrameAllocatorSpec T}.
Implicit Types (s : MmState T) (k : Kernel T).
Context (pf : Platform).
Hypothesis Hld : trampoline_ok (linker pf).

Lemma wp_write_init_context k cx entry sp top Q :
  CellKernelSpace ∉ borrowed k ->
  Q tt (set_mm (set_phys (store_words (phys (mm k)) cx (first_context pf entry sp (MemorySet_token (kernel_space k)) top)) (mm k)) k) ->
  wp (write_init_context pf cx entry sp top) Q k.
Proof.
  intros Hb HQ. unfold write_init_context, kernel_token. wp_step. apply wp_with_cell; [done|]. wp_step. unfold update_mem. wp_step.
  kernel_cbn. destruct k. exact HQ.
Qed.

(** A loaded program has the pages of its segments. *)
Lemma loaded_pages (m : mem) L l : Forall2 (loaded m) L l -> area_pages l = seg_pages L.
Proof. unfold area_pages, seg_pages. induction 1 as [|g b M l [Hgb _ _] _ IH]; [done|]. cbn. by rewrite <-Hgb, IH. Qed.

(** A loaded program can run. *)
Lemma loaded_user_space s elf ms s1 :
  elf_ok elf -> elf_inv (linker pf) s (program_segments elf) ms s1 ->
  exists cx a, a ∈ areas ms /\ (TRAP_CONTEXT_vpn, cx) ∈ data_frames a /\ user_space_ok (linker pf) (phys s1) ms cx.
Proof.
  intros Helf [Hok _ HL Htr Hno]. set (L := elf_segments (elf_input elf) (elf_headers elf)).
  assert (Hj : program_segments elf !! S (length L) = Some trap_segment).
  { unfold program_segments. fold L. rewrite lookup_app_r by lia. by replace (S (length L) - length L)%nat with 1%nat by lia. }
  destruct (Forall2_lookup_l _ _ _ _ _ HL Hj) as (a & Ha & [Hr Hp _]). assert (Hin : a ∈ areas ms) by (by eapply list_elem_of_lookup_2).
  destruct (ms_ok_area _ _ _ Hok Hin) as (Hfa & _ & _).
  destruct (framed_ok_page _ _ _ TRAP_CONTEXT_vpn Hfa) as (cx & Hcx & _).
  { apply range_ok_elem; [apply Hfa|]. rewrite Hr. split; [done|]. reflexivity. }
  exists cx, a. split_and!; [done..|]. pose proof (loaded_pages _ _ _ HL) as Hpages.
  split; [done| |exists a; by rewrite Hp|by rewrite Hpages]. rewrite Hpages. intros (q & Hq & He).
  pose proof (eo_slots _ Helf) as Hs. unfold slots_apart in Hs. cbn [map] in Hs. apply NoDup_cons in Hs as [Hs _]. apply Hs.
  rewrite He. apply list_elem_of_fmap. by exists q.
Qed.

(** A program is loaded into frames that no address space of the kernel owns. *)
Lemma wp_load_program {A} k data elf (K : MemorySet * Z * Z -> M (Kernel T) A) Q :
  spaces_ok (frame_floor pf) (mm k) (kernel_spaces k) -> parse_elf pf data = Some elf -> elf_ok elf ->
  (3 + 3 * length (seg_pages (program_segments elf)) <= size (free_frames (mm k)))%nat ->
  (forall ms s1 cx ax, elf_inv (linker pf) (mm k) (program_segments elf) ms s1 ->
     ax ∈ areas ms -> (TRAP_CONTEXT_vpn, cx) ∈ data_frames ax -> user_space_ok (linker pf) (phys s1) ms cx ->
     spaces_ok (frame_floor pf) s1 (ms :: kernel_spaces k) -> same_bytes (frame_floor pf) (kernel_spaces k) (mm k) s1 ->
     wp (K (ms, (segments_end (elf_segments (elf_input elf) (elf_headers elf)) + 3) * PAGE_SIZE, elf_entry_point elf)) Q (set_mm s1 k)) ->
  wp (let* r := in_mm (from_elf (linker pf) (parse_elf pf) data) in K r) Q k.
Proof.
  intros Hk Hp He Hsize HQ. wp_step. apply wp_in_mm. eapply wp_from_elf; [done|apply Hk|done..|].
  intros ms s1 Hi. pose proof Hi as [Hms1 Hg _ _ _]. destruct (loaded_user_space _ _ _ _ He Hi) as (cx & ax & Hax & Hcx & Hus).
  destruct (spaces_ok_add _ (mm k) (kernel_spaces k) ms s1 Hk Hg Hms1) as [Hsp1 Hb1].
  by eapply HQ.
Qed.

(** The stack pointer of a program. *)
Definition program_sp (elf : ElfFile) : Z := (segments_end (elf_segments (elf_input elf) (elf_headers elf)) + 3) * PAGE_SIZE.

Lemma wp_spawn k c t data elf Q :
  kernel_ok pf k -> tasks k !! c = Some t -> pid_current (pid_allocator k) < STACK_LIMIT ->
  parse_elf pf data = Some elf -> elf_ok elf ->
  (63 + 3 * length (seg_pages (program_segments elf)) <= size (free_frames (mm k)))%nat ->
  (forall ms s1 cx ax p a ks s, elf_inv (linker pf) (mm k) (program_segments elf) ms s1 ->
     ax ∈ areas ms -> (TRAP_CONTEXT_vpn, cx) ∈ data_frames ax -> user_space_ok (linker pf) (phys s1) ms cx ->
     same_bytes (frame_floor pf) (kernel_spaces k) (mm k) s1 -> attaching (frame_floor pf) k s1 ms p s ks a ->
     Q (next_task k) (set_borrowed [] (attached k c
       (set_phys (store_words (phys s) (page_base cx)
          (first_context pf (elf_entry_point elf) (program_sp elf) (MemorySet_token (kernel_space k)) (get_top p))) s)
       ks a (mk_tcb p p (spawned_inner pf c (inner t) ms cx (get_top p)))))) ->
  wp (spawn pf c data) Q k.
Proof.
  intros Hk Hc Hlim Hp He Hsize HQ. pose proof (ko_free _ _ Hk) as Hb. unfold spawn. eapply wp_load_program; [apply Hk|done|done|lia|].
  intros ms s1 cx ax Hi Hax Hcx Hus Hsp1 Hb1. pose proof (grows_size _ _ _ _ _ (ei_grows _ _ _ _ _ Hi)) as Hsz.
  cbn beta iota. wp_step. eapply wp_find_trap_cx; [apply Hi|exact Hax|exact Hcx|]. apply wp_with_cell; [cell_free|]. kernel_cbn. rewrite Hb.
  wp_step. eapply wp_inner_of; [exact Hc|]. fold (program_sp elf).
  eapply (wp_attach pf k c t s1 ms cx (spawned_inner pf c (inner t) ms cx)
    (fun child cx top => write_init_context pf cx (elf_entry_point elf) (program_sp elf) top ;; ret child)); try done; [lia|].
  intros p a ks s Hat. unfold attached. wp_step. apply wp_write_init_context; [cell_free|]. kernel_cbn. wp_step.
  rewrite (at_token _ _ _ _ _ _ _ _ Hat). by apply (HQ ms s1 cx ax p a ks s).
Qed.

(** ** The call *)

(** The kernel after [spawn]: the child [tc] is a new process at the end of the queue and
    the last of the children of [c]; nothing else in the heap changes, nor the memory of
    any other process; the child has the segments of the program and the first trap
    context. *)
Record spawned k (c : Z) (t : TaskControlBlock) (elf : ElfFile) (tc : TaskControlBlock) k' : Prop := {
  sp_pid : pid tc ∉ task_pids k;
  sp_tasks : tasks k' = <[next_task k := tc]> (alter (with_inner (push_child (next_task k))) c (tasks k));
  sp_inner : inner tc = spawned_inner pf c (inner t) (space_of tc) (trap_cx_ppn (inner tc)) (get_top (pid tc));
  sp_queue : ready_queue k' = ready_queue k ++ [next_task k];
  sp_rest : current k' = current k /\ initproc k' = initproc k /\ console k' = console k;
  sp_others : same_bytes (frame_floor pf) (values space_of (tasks k)) (mm k) (mm k');
  sp_program : exists m, Forall2 (loaded m) (program_segments elf) (areas (space_of tc)) /\
    phys (mm k') = store_words m (get_trap_cx (inner tc))
      (first_context pf (elf_entry_point elf) (program_sp elf) (MemorySet_token (kernel_space k)) (get_top (pid tc)))
}.

Lemma wp_sys_spawn_none k c t path name Q :
  running k c t -> translated_str (str_fuel pf) (phys (mm k)) (get_user_token (inner t)) path = Ok name ->
  get_app_data_by_name pf (phys (mm k)) name = Ok None -> Q (Return (-1)) k -> wp (sys_spawn pf path) Q k.
Proof. intros Hrun Hstr Hdata HQ. unfold sys_spawn. eapply wp_app_by_name; [done..|]. cbn beta iota. by wp_step. Qed.

Lemma wp_sys_spawn k c t path name data elf Q :
  kernel_ok pf k -> running k c t -> pid_current (pid_allocator k) < STACK_LIMIT ->
  translated_str (str_fuel pf) (phys (mm k)) (get_user_token (inner t)) path = Ok name ->
  get_app_data_by_name pf (phys (mm k)) name = Ok (Some data) -> parse_elf pf data = Some elf -> elf_ok elf ->
  (63 + 3 * length (seg_pages (program_segments elf)) <= size (free_frames (mm k)))%nat ->
  (forall tc k', spawned k c t elf tc k' -> kernel_ok pf k' -> Q (Return (pid tc)) k') -> wp (sys_spawn pf path) Q k.
Proof.
  intros Hk Hrun Hlim Hstr Hdata Hp He Hsize HQ. pose proof Hrun as [Hcur Hc Hb].
  unfold sys_spawn. eapply wp_app_by_name; [done..|]. cbn beta iota.
  assert (Hz : task_status (inner t) <> Zombie) by (by eapply running_live).
  wp_step. eapply wp_current_task; [done..|]. wp_step. eapply wp_unwrap; [done|]. wp_step. eapply (wp_spawn k c t); [done..|].
  intros ms s1 cx ax p a ks s Hi Hax Hcx Hus1 Hb1 Hat. pose proof Hat as [Hpid Hpl Hpids _ _ _ _ _].
  unfold attached. wp_step. eapply wp_task_of; [kernel_cbn; by rewrite lookup_insert_eq|]. wp_step.
  unfold add_task, add. apply wp_with_cell; [cell_free|]. wp_step. wp_step. kernel_cbn. cbn [pid inner].
  set (tc := mk_tcb p p _). pose proof (in_data_frames ax ms _ _ Hax Hcx) as Hcxin. pose proof (ms_data_frames _ _ (ei_ok _ _ _ _ _ Hi)) as Hfr.
  assert (Hcxf : is_frame cx) by (rewrite Forall_forall in Hfr; by apply Hfr).
  pose proof (child_ready_write k s1 ms p s ks a cx _ (ei_ok _ _ _ _ _ Hi) Hb1 Hat Hcxin (fun x => first_context_page pf (phys s) cx
    (elf_entry_point elf) (program_sp elf) (MemorySet_token (kernel_space k)) (get_top p) x Hcxf)) as Hcr.
  rewrite (as_isize_pid p) by done. apply (HQ tc).
  - split; try done; [apply Hcr|]. exists (phys s). split; [|done]. eapply all_loaded_keep; [apply Hi|done|]. intros x Hx.
    eapply attaching_bytes; [exact Hat|by apply ms_frames_areas].
  - pose proof (ko_tasks _ _ Hk _ _ Hc) as [_ Hpri _ _ _ _]. by eapply (kernel_ok_child pf k c t _ tc s1).
Qed.

(** C9: [sys_spawn] of a path whose name no application has returns -1 and changes nothing.
    Otherwise, for a well-formed program with frames enough, it returns the new pid of a
    child of the running process that is queued to run the program from its entry point:
    its address space holds the segments of the program in frames of its own and its trap
    context is the first one; memory and control blocks of all other processes are as
    before, and the invariant of the kernel holds again. *)
Theorem sys_spawn_correct k c t path name o :
  kernel_ok pf k -> running k c t -> pid_current (pid_allocator k) < STACK_LIMIT ->
  translated_str (str_fuel pf) (phys (mm k)) (get_user_token (inner t)) path = Ok name ->
  get_app_data_by_name pf (phys (mm k)) name = Ok o ->
  (o = None -> sys_spawn pf path k = Ok (Return (-1), k)) /\
  (forall data elf, o = Some data -> parse_elf pf data = Some elf -> elf_ok elf ->
     (63 + 3 * length (seg_pages (program_segments elf)) <= size (free_frames (mm k)))%nat ->
     wp (sys_spawn pf path) (fun r k' => exists tc, r = Return (pid tc) /\ spawned k c t elf tc k' /\ kernel_ok pf k') k).
Proof.
  intros Hk Hrun Hlim Hstr Hdata. split.
  - intros ->. by eapply wp_eq, wp_sys_spawn_none.
  - intros data elf -> Hp He Hsize. eapply wp_sys_spawn; [done..|]. intros tc k' Hs Hk'. by exists tc.
Qed.

End SysSpawn.
