(* ===== verification/SysExecSpec.v ===== *)
(** * exec

    [sys_exec] of an application by its name replaces the address space of the running
    process by that of the program and gives back every frame of the old one. *)

From S2P Require Import Prelude Config Address PhysMem FrameAllocator PageTable PageTableSpec UserAccess.
From S2P Require Import MemorySet MemorySetSpec ForkSpec SpaceSpec ElfSpec Timer Pid Kernel Manager Task Loader.
From S2P Require Import Processor Syscall KernelSpec MmapSpec LifecycleSpec KernelStackSpec KernelInv ProcessSpec.
From S2P Require Import SysSpawnSpec.

Section SysExec.
Context {T : Type} `{FrameAllocatorSpec T}.
Implicit Types (s : MmState T) (k : Kernel T).
Context (pf : Platform).
Hypothesis Hld : trampoline_ok (linker pf).

(** The process after [exec]. *)
Definition exec_inner (ms : MemorySet) (cx : Z) (i : TaskControlBlockInner) : TaskControlBlockInner :=
  set_trap_cx_ppn cx (set_memory_set ms i).

(** The kernel after [exec]: only the address space of the process [c] is another one,
    with the segments of the program and the first trap context on the kernel stack of
    [c]; the frames of the old address space are free, those of the new one are not. *)
Record executed k (c : Z) (t : TaskControlBlock) (elf : ElfFile) k' : Prop := {
  xc_tasks : exists ms cx, tasks k' = alter (with_inner (exec_inner ms cx)) c (tasks k) /\
    free_frames (mm k') = free_frames (mm k) ∖ list_to_set (ms_frames ms) ∪ list_to_set (ms_frames (space_of t)) /\
    exists m, Forall2 (loaded m) (program_segments elf) (areas ms) /\
      phys (mm k') = store_words m (page_base cx)
        (first_context pf (elf_entry_point elf) (program_sp elf) (MemorySet_token (kernel_space k)) (get_top (pid t)));
  xc_same : k' = set_tasks (tasks k') (set_mm (mm k') k);
  xc_others : same_bytes (frame_floor pf) (values space_of (delete c (tasks k))) (mm k) (mm k')
}.

Lemma wp_exec k c t data elf Q :
  kernel_ok pf k -> tasks k !! c = Some t -> task_status (inner t) = Running -> parse_elf pf data = Some elf -> elf_ok elf ->
  (3 + 3 * length (seg_pages (program_segments elf)) <= size (free_frames (mm k)))%nat ->
  (forall k', executed k c t elf k' -> kernel_ok pf k' -> Q tt k') ->
  wp (exec pf c data) Q k.
Proof.
  intros Hk Hc Hz Hp He Hsize HQ. pose proof (ko_free _ _ Hk) as Hb. unfold exec. eapply (wp_load_program pf Hld); [apply Hk|done..|].
  intros ms s1 cx ax Hi Hax Hcx Hus Hsp1 Hb1. fold (program_sp elf). pose proof Hi as [Hms1 Hg HL _ _].
  rewrite (kernel_spaces_split k c t Hc), Permutation_swap in Hsp1.
  cbn beta iota. wp_step. eapply wp_find_trap_cx; [apply Hi|exact Hax|exact Hcx|]. apply wp_with_cell; [cell_free|]. kernel_cbn. rewrite Hb.
  wp_step. eapply wp_task_of; [exact Hc|]. wp_step. apply wp_in_mm. kernel_cbn. eapply wp_drop_space; [exact Hsp1|]. intros s2 Hsp2 Hph2 Hfr2.
  wp_step. eapply wp_update_inner; [exact Hc|]. wp_step. eapply wp_update_inner; [by apply alter_task_lookup|].
  rewrite alter_task_compose. apply wp_write_init_context; [cell_free|]. kernel_cbn.
  pose proof (in_data_frames ax ms _ _ Hax Hcx) as Hcxin. pose proof (ms_data_frames _ _ Hms1) as Hframes.
  assert (Hcxf : is_frame cx) by (rewrite Forall_forall in Hframes; by apply Hframes).
  rewrite (to_stack _ _ _ (ko_tasks _ _ Hk _ _ Hc)). set (m' := store_words _ _ _).
  destruct (spaces_ok_store s2 ms (other_spaces k c) cx m' Hsp2 Hcxin) as (Hsp3 & Hb3 & Hm3); [intros x Hx; by apply first_context_page|].
  assert (Hbytes : same_bytes (frame_floor pf) (other_spaces k c) (mm k) (set_phys m' s2)).
  { eapply same_bytes_trans; [eapply same_bytes_sub; [apply other_spaces_sub|exact Hb1]|]. intros x Hx. by rewrite (Hb3 x Hx), Hph2. }
  apply HQ.
  - split; kernel_cbn.
    + exists ms, cx. split_and!; [done| |].
      * change (free_frames (set_phys m' s2)) with (free_frames s2). by rewrite Hfr2, (gr_free _ _ _ _ _ Hg).
      * exists (phys s2). split; [|done]. by rewrite Hph2.
    + by rewrite <-Hb; destruct k.
    + eapply same_bytes_sub; [|exact Hbytes]. intros x. by right.
  - replace (set_borrowed _ _) with (set_tasks (alter (with_inner (exec_inner ms cx)) c (tasks k)) (set_mm (set_phys m' s2) k)) by (rewrite <-Hb; by destruct k).
    pose proof (ko_tasks _ _ Hk _ _ Hc) as [Hst Hpri Htm _ _ _].
    eapply kernel_ok_replace; [done..|by split|done|eapply same_bytes_maps; [by eapply other_spaces_ok|done]|].
    split; try done; cbn; [|by rewrite Hz|by rewrite Hz]. intros _. eapply user_space_keep; [exact Hus|]. intros v. etrans; [apply (Hm3 ms); by left|]. by rewrite Hph2.
Qed.

Lemma wp_sys_exec k c t path name data elf Q :
  kernel_ok pf k -> running k c t ->
  translated_str (str_fuel pf) (phys (mm k)) (get_user_token (inner t)) path = Ok name ->
  get_app_data_by_name pf (phys (mm k)) name = Ok (Some data) -> parse_elf pf data = Some elf -> elf_ok elf ->
  (3 + 3 * length (seg_pages (program_segments elf)) <= size (free_frames (mm k)))%nat ->
  (forall k', executed k c t elf k' -> kernel_ok pf k' -> Q (Return 0) k') -> wp (sys_exec pf path) Q k.
Proof.
  intros Hk Hrun Hstr Hdata Hp He Hsize HQ. pose proof Hrun as [Hcur Hc Hb].
  unfold sys_exec. eapply wp_app_by_name; [done..|]. cbn beta iota.
  wp_step. eapply wp_current_task; [done..|]. wp_step. eapply wp_unwrap; [done|]. wp_step.
  eapply (wp_exec k c t); [done|done|by eapply running_status|done|done|done|]. intros k' Hx Hk'. wp_step. by apply HQ.
Qed.

Lemma wp_sys_exec_none k c t path name Q :
  running k c t -> translated_str (str_fuel pf) (phys (mm k)) (get_user_token (inner t)) path = Ok name ->
  get_app_data_by_name pf (phys (mm k)) name = Ok None -> Q (Return (-1)) k -> wp (sys_exec pf path) Q k.
Proof. intros Hrun Hstr Hdata HQ. unfold sys_exec. eapply wp_app_by_name; [done..|]. cbn beta iota. by wp_step. Qed.

(** C8: [sys_exec] of a path whose name no application has returns -1 and changes nothing.
    Otherwise, for a well-formed program with frames enough, it returns 0 and the running
    process has the address space and the first trap context of the program, with its pid,
    its kernel stack, its children and its place in the schedule; the frames of its old
    address space are free again, nothing else changes, and the invariant of the kernel
    holds again. *)
Theorem sys_exec_correct k c t path name o :
  kernel_ok pf k -> running k c t ->
  translated_str (str_fuel pf) (phys (mm k)) (get_user_token (inner t)) path = Ok name ->
  get_app_data_by_name pf (phys (mm k)) name = Ok o ->
  (o = None -> sys_exec pf path k = Ok (Return (-1), k)) /\
  (forall data elf, o = Some data -> parse_elf pf data = Some elf -> elf_ok elf ->
     (3 + 3 * length (seg_pages (program_segments elf)) <= size (free_frames (mm k)))%nat ->
     wp (sys_exec pf path) (fun r k' => r = Return 0 /\ executed k c t elf k' /\ kernel_ok pf k') k).
Proof.
  intros Hk Hrun Hstr Hdata. split.
  - intros ->. by eapply wp_eq, wp_sys_exec_none.
  - intros data elf -> Hp He Hsize. by eapply wp_sys_exec.
Qed.

End SysExec.
