(* ===== verification/WaitSpec.v ===== *)
(** * waitpid

    [sys_waitpid] with an exited child: the first one that the argument names is reaped.
    Its exit code is stored at the address given, its pid, its kernel stack and the frames
    of its page tables are free again, and the invariant of the kernel holds. *)

From S2P Require Import Prelude Config Address PhysMem FrameAllocator PageTable PageTableSpec UserAccess.
From S2P Require Import MemorySet MemorySetSpec ForkSpec SpaceSpec Timer Pid Kernel Manager Task Loader.
From S2P Require Import Processor Syscall KernelSpec MmapSpec LifecycleSpec KernelStackSpec KernelInv ProcessSpec.
From S2P Require Import UserMemSpec.

Section Wait.
Context {T : Type} `{FrameAllocatorSpec T}.
Implicit Types (s : MmState T) (k : Kernel T).

(** ** Dropping a process *)

Lemma count_in_zero id l : id ∉ l -> count_in id l = 0%nat.
Proof.
  intros Hn. unfold count_in. destruct (filter (fun x => x = id) l) as [|y l'] eqn:E; [done|].
  assert (Hy : y ∈ filter (fun x => x = id) l) by (rewrite E; by left). apply list_elem_of_filter in Hy as [-> Hy]. done.
Qed.

Lemma strong_refs_zero k id :
  (id ∉ ready_queue k) -> current k <> Some id -> initproc k <> Some id ->
  (forall p tp, tasks k !! p = Some tp -> id ∉ children (inner tp)) -> strong_refs k id = 0%nat.
Proof.
  intros Hq Hc Hi Hch. unfold strong_refs. rewrite count_in_zero, !decide_False by done. cbn.
  apply (map_fold_weak_ind (fun r m => (forall p tp, m !! p = Some tp -> id ∉ children (inner tp)) -> r = 0%nat)); [done| |done].
  intros i x m r Hi' IH Hm. rewrite count_in_zero; [|apply (Hm i); by rewrite lookup_insert_eq]. apply IH.
  intros p tp Hp. apply (Hm p). rewrite lookup_insert_ne; [done|]. intros ->. congruence.
Qed.

Lemma wp_pid_drop k live p Q :
  CellPids ∉ borrowed k -> pids_ok (pid_allocator k) (p :: live) ->
  (forall a', pids_ok a' live -> Q tt (set_pid_allocator a' k)) -> wp (pid_drop p) Q k.
Proof.
  intros Hb Hok HQ. unfold pid_drop. apply wp_with_cell; [done|]. wp_step. wp_step. kernel_cbn.
  destruct (pids_ok_dealloc _ _ _ Hok) as (a' & Ha & Hok' & _). wp_step. eapply wp_lift; [exact Ha|]. wp_step. kernel_cbn. by apply HQ.
Qed.

Lemma wp_KernelStack_drop k stacks p Q :
  CellKernelSpace ∉ borrowed k -> kspace_ok (mm k) (kernel_space k) (p :: stacks) ->
  (forall ks' s' gone, kspace_ok s' ks' stacks -> page_table ks' = page_table (kernel_space k) ->
     ms_frames (framed_part (kernel_space k)) ≡ₚ ms_frames (framed_part ks') ++ gone ->
     changes (mm k) (pt_frames (page_table (kernel_space k))) [] gone s' -> Q tt (set_kernel_space ks' (set_mm s' k))) ->
  wp (KernelStack_drop p) Q k.
Proof.
  intros Hb Hks HQ. pose proof (kk_range _ _ _ Hks) as Hr. apply Forall_cons in Hr as [Hp _].
  unfold KernelStack_drop. rewrite stack_position by done. wp_step. apply (wp_lift _ (range_l (stack_range p))).
  { unfold VirtPageNum_from_VirtAddr, VirtAddr_floor, PAGE_SIZE. rewrite VirtAddr_page_offset_mod. unfold PAGE_SIZE.
    rewrite Z.mul_comm, Z.mod_mul, Z.div_mul by done. done. }
  apply wp_with_cell; [done|]. wp_step. wp_step. kernel_cbn. wp_step. apply wp_in_mm. kernel_cbn.
  eapply wp_mono; [|by apply (wp_stack_remove _ _ stacks)]. intros ks' s' (Hks' & Hpt & gone & Hfr & Hg). wp_step. kernel_cbn. by apply (HQ ks' s' gone).
Qed.

(** The last reference to a process without children goes: its pid, its kernel stack and
    its address space go with it. *)
Lemma wp_drop_zombie {lo} n k z tz live L Q :
  CellPids ∉ borrowed k -> CellKernelSpace ∉ borrowed k -> tasks k !! z = Some tz -> children (inner tz) = [] -> kernel_stack tz = pid tz ->
  pids_ok (pid_allocator k) (pid tz :: live) -> kspace_ok (mm k) (kernel_space k) (pid tz :: live) ->
  spaces_ok lo (mm k) (framed_part (kernel_space k) :: space_of tz :: L) ->
  (forall a ks s gone, pids_ok a live -> kspace_ok s ks live -> spaces_ok lo s (framed_part ks :: L) -> same_bytes lo L (mm k) s ->
     ms_frames (framed_part (kernel_space k)) ≡ₚ ms_frames (framed_part ks) ++ gone ->
     free_frames s = free_frames (mm k) ∪ list_to_set (gone ++ ms_frames (space_of tz)) ->
     Q tt (set_mm s (set_kernel_space ks (set_pid_allocator a (set_tasks (delete z (tasks k)) k))))) ->
  wp (drop_task (S n) z) Q k.
Proof.
  intros Hb1 Hb2 Hz Hch Hst Hpids Hks Hsp HQ. cbn [drop_task]. wp_step. eapply wp_task_of; [exact Hz|]. wp_step. wp_step.
  wp_step. apply (wp_pid_drop _ live); [done|done|]. intros a Ha. kernel_cbn. wp_step. rewrite Hst.
  apply (wp_KernelStack_drop _ live); [done|done|]. kernel_cbn. intros ks s1 gone Hks1 Hpt Hfr Hc1.
  destruct (spaces_ok_step (mm k) [framed_part (kernel_space k)] [framed_part ks] (space_of tz :: L)
    (pt_frames (page_table (kernel_space k))) [] gone s1 Hsp Hc1) as [Hsp1 Hbs1].
  { intros q Hq. unfold space_frames. cbn. rewrite app_nil_r. by apply (ms_table_frame (framed_part (kernel_space k))). }
  { intros q Hq. unfold space_frames. cbn. rewrite app_nil_r, Hfr. apply elem_of_app. by right. }
  { apply Forall_singleton, Hks1. }
  { unfold space_frames. cbn. rewrite app_nil_r. apply (kk_ms _ _ _ Hks1). }
  { intros q. unfold space_frames. cbn. rewrite !app_nil_r, Hfr, elem_of_app. auto. }
  cbn [app] in Hsp1. rewrite Permutation_swap in Hsp1. wp_step. apply wp_in_mm. kernel_cbn. fold (space_of tz).
  eapply wp_drop_space; [exact Hsp1|]. intros s2 Hsp2 Hph2 Hfr2. rewrite Hch. unfold for_each. cbn [foldM]. wp_step. kernel_cbn.
  apply (HQ a ks s2 gone); [done| |done| |done|].
  - apply (kspace_ok_keep s1); [done| |by rewrite Hph2]. pose proof (so_all _ _ Hsp2) as Hall. by apply Forall_cons in Hall as [? _].
  - intros x Hx. rewrite Hph2. revert x Hx. eapply same_bytes_sub; [|exact Hbs1]. intros ms. by right.
  - rewrite Hfr2, (ch_free _ _ _ _ _ Hc1), list_to_set_app_L. cbn [list_to_set]. rewrite difference_empty_L. by rewrite union_assoc_L.
Qed.

(** ** A process leaves the family *)

Definition drop_child (idx : nat) (i : TaskControlBlockInner) : TaskControlBlockInner := set_children (delete idx (children i)) i.

Section Removed.
Context (pf : Platform) (k : Kernel T) (c : Z) (t : TaskControlBlock) (idx : nat) (z : Z) (tz : TaskControlBlock).
Hypothesis Hk : kernel_ok pf k.
Hypothesis Hc : tasks k !! c = Some t.
Hypothesis Hlive : task_status (inner t) <> Zombie.
Hypothesis Hidx : children (inner t) !! idx = Some z.
Hypothesis Hz : tasks k !! z = Some tz.
Hypothesis Hzombie : task_status (inner tz) = Zombie.

Definition family_without : gmap Z TaskControlBlock := delete z (alter (with_inner (drop_child idx)) c (tasks k)).

Lemma removed_ne : c <> z.
Proof. intros ->. congruence. Qed.

Lemma removed_cases j tj :
  family_without !! j = Some tj <->
  j <> z /\ ((j = c /\ tj = with_inner (drop_child idx) t) \/ (j <> c /\ tasks k !! j = Some tj)).
Proof.
  unfold family_without. rewrite lookup_delete_Some. destruct (decide (j = c)) as [->|Hne].
  - rewrite lookup_alter_eq, Hc. cbn. split.
    + intros [? [= <-]]. auto.
    + intros [? [[_ ->]|[? _]]]; [done|congruence].
  - rewrite lookup_alter_ne by done. split; [intros [? ?]; auto|]. intros [? [[? _]|[_ ?]]]; [congruence|auto].
Qed.

(** The children that are left. *)
Lemma drop_child_elem x : x ∈ delete idx (children (inner t)) <-> x ∈ children (inner t) /\ x <> z.
Proof.
  pose proof (tr_nodup _ (ko_tree _ _ Hk) c t Hc) as [_ Hnd]%NoDup_cons. pose proof (delete_Permutation _ _ _ Hidx) as Hp. rewrite Hp in Hnd. apply NoDup_cons in Hnd as [Hnz _].
  assert (Hel : x ∈ children (inner t) <-> x ∈ z :: delete idx (children (inner t))) by (by rewrite <-Hp).
  rewrite Hel, elem_of_cons. split; [intros Hx; split; [by right|by intros ->]|]. intros [[->|?] ?]; done.
Qed.

(** Nobody else refers to the child. *)
Lemma removed_only p tp : tasks k !! p = Some tp -> z ∈ children (inner tp) -> p = c.
Proof.
  intros Hp Hin. pose proof (ko_tree _ _ Hk) as [Hch _ _ _].
  destruct (Hch p tp z Hp Hin) as (t1 & Ht1 & Hp1). destruct (Hch c t z Hc ltac:(by eapply list_elem_of_lookup_2)) as (t2 & Ht2 & Hp2). congruence.
Qed.

Lemma removed_old j tj : tasks k !! j = Some tj -> j <> z -> exists tj', family_without !! j = Some tj' /\
  parent (inner tj') = parent (inner tj) /\ task_status (inner tj') = task_status (inner tj) /\ start_time (inner tj') = start_time (inner tj) /\
  forall x, x ∈ children (inner tj) -> x <> z -> x ∈ children (inner tj').
Proof.
  intros Hj Hne. destruct (decide (j = c)) as [->|Hjc].
  - assert (tj = t) as -> by congruence. exists (with_inner (drop_child idx) t). split_and!; [apply removed_cases; auto|done..|].
    intros x Hx Hxz. cbn. by apply drop_child_elem.
  - exists tj. split_and!; [apply removed_cases; auto|done..].
Qed.

Lemma removed_new j tj' : family_without !! j = Some tj' -> exists tj, tasks k !! j = Some tj /\ j <> z /\
  parent (inner tj') = parent (inner tj) /\ task_status (inner tj') = task_status (inner tj) /\ start_time (inner tj') = start_time (inner tj) /\
  (NoDup (j :: children (inner tj)) -> NoDup (j :: children (inner tj'))) /\ forall x, x ∈ children (inner tj') -> x ∈ children (inner tj) /\ x <> z.
Proof.
  intros [Hne [[-> ->]|[Hjc Hj]]]%removed_cases.
  - exists t. split_and!; [done..| |].
    + intros [Hs Hnd]%NoDup_cons. cbn. pose proof (delete_Permutation _ _ _ Hidx) as Hp. rewrite Hp in Hnd. apply NoDup_cons in Hnd as [_ ?].
      apply NoDup_cons. split; [|done]. by intros [? _]%drop_child_elem.
    + intros x Hx. by apply drop_child_elem.
  - exists tj'. split_and!; [done..|]. intros x Hx. split; [done|]. intros ->. by apply Hjc, (removed_only j tj').
Qed.

Lemma removed_init : initproc k <> Some z.
Proof.
  intros Hi. pose proof (ko_tree _ _ Hk) as [Hch _ _ (i & ti & Hii & Hti & _ & Hiz)]. assert (i = z) as -> by congruence. congruence.
Qed.

Lemma removed_not_scheduled : (z ∉ ready_queue k) /\ current k <> Some z.
Proof.
  pose proof (ko_sched _ _ Hk) as [_ Hre Hcu _]. split.
  - intros (tx & Hx & Hs)%Hre. congruence.
  - intros (tx & Hx & Hs & _)%Hcu. congruence.
Qed.

Lemma removed_tree k' : tasks k' = family_without -> initproc k' = initproc k -> tree_ok k'.
Proof.
  intros Ht Hi. pose proof (ko_tree _ _ Hk) as [Hch Hnd Hpa (i & ti & Hii & Hti & Hip & Hiz)]. split; rewrite ?Ht, ?Hi.
  - intros p tp x (tp0 & Hp & _ & _ & _ & _ & _ & Hsub)%removed_new Hx. destruct (Hsub x Hx) as [Hx0 Hxz].
    destruct (Hch p tp0 x Hp Hx0) as (tx & Htx & Hpx). destruct (removed_old x tx Htx Hxz) as (tx' & Hx' & Hpp & _). exists tx'. split; congruence.
  - intros p tp (tp0 & Hp & _ & _ & _ & _ & Hn & _)%removed_new. by eapply Hn, Hnd.
  - intros x tx (tx0 & Hx & Hxz & Hpp & _)%removed_new Hni. destruct (Hpa x tx0 Hx Hni) as (p & tp & Hp & Htp & Hin).
    assert (Hpz : p <> z). { intros ->. assert (tp = tz) as -> by congruence. destruct (to_zombie _ _ _ (ko_tasks _ _ Hk z tz Hz) Hzombie) as [Hnil _]. rewrite Hnil in Hin. by apply not_elem_of_nil in Hin. }
    destruct (removed_old p tp Htp Hpz) as (tp' & Hp' & _ & _ & _ & Hsub). exists p, tp'. split_and!; [congruence|done|by apply Hsub].
  - assert (Hiz' : i <> z) by (intros ->; by apply removed_init). destruct (removed_old i ti Hti Hiz') as (ti' & Hi' & Hpp & Hss & _).
    exists i, ti'. split_and!; [done|done|congruence|congruence].
Qed.

Lemma removed_sched k' : tasks k' = family_without -> ready_queue k' = ready_queue k -> current k' = current k -> schedule_ok k'.
Proof.
  intros Ht Hq Hcu. destruct removed_not_scheduled as [Hnq Hnc]. pose proof (ko_sched _ _ Hk) as [Hnd Hre Hcur Hal]. split; rewrite ?Ht, ?Hq, ?Hcu; [done|..].
  - intros id Hid. destruct (Hre id Hid) as (tx & Hx & Hs). destruct (removed_old id tx Hx) as (tx' & Hx' & _ & Hss & _); [by intros ->|]. exists tx'. split; congruence.
  - intros x Hx. destruct (Hcur x Hx) as (tx & Htx & Hs & Hst). destruct (removed_old x tx Htx) as (tx' & Hx' & _ & Hss & Hst' & _); [by intros ->|].
    exists tx'. rewrite Hst'. split_and!; [done|congruence|done].
  - intros id tx (tx0 & Hx & _ & _ & Hss & _)%removed_new. rewrite Hss. by apply Hal.
Qed.

(** The local reference is the last one. *)
Lemma removed_refs k' :
  ready_queue k' = ready_queue k -> current k' = current k -> initproc k' = initproc k ->
  tasks k' = alter (with_inner (drop_child idx)) c (tasks k) -> strong_refs k' z = 0%nat.
Proof.
  intros Hq Hcu Hi Ht. destruct removed_not_scheduled as [Hnq Hnc]. apply strong_refs_zero; rewrite ?Hq, ?Hcu, ?Hi, ?Ht; [done|done|apply removed_init|].
  intros p tp Hp Hin. destruct (decide (p = z)) as [->|Hpz].
  - rewrite lookup_alter_ne in Hp by apply removed_ne. assert (tp = tz) as -> by congruence.
    destruct (to_zombie _ _ _ (ko_tasks _ _ Hk z tz Hz) Hzombie) as [Hnil _]. rewrite Hnil in Hin. by apply not_elem_of_nil in Hin.
  - destruct (removed_new p tp) as (tp0 & _ & _ & _ & _ & _ & _ & Hsub); [unfold family_without; by rewrite lookup_delete_ne|].
    by destruct (Hsub z Hin).
Qed.

Lemma removed_values {A} (f : TaskControlBlock -> A) :
  f (with_inner (drop_child idx) t) = f t -> values f (tasks k) ≡ₚ f tz :: values f family_without.
Proof.
  intros Hf. unfold family_without. rewrite <-(values_alter_same f (with_inner (drop_child idx)) (tasks k) c t Hc Hf).
  apply values_delete. rewrite lookup_alter_ne by apply removed_ne. done.
Qed.

Lemma kernel_ok_removed k' :
  tasks k' = family_without -> initproc k' = initproc k -> ready_queue k' = ready_queue k -> current k' = current k ->
  next_task k' = next_task k -> borrowed k' = [] -> spaces_ok (frame_floor pf) (mm k') (framed_part (kernel_space k') :: values space_of family_without) ->
  same_maps (values space_of family_without) (mm k) (mm k') -> kspace_ok (mm k') (kernel_space k') (values pid family_without) ->
  pids_ok (pid_allocator k') (values pid family_without) -> kernel_ok pf k'.
Proof.
  intros Ht Hi Hq Hcu Hn Hb Hsp Hm Hks Hpids.
  split; [done|unfold kernel_spaces; by rewrite Ht|unfold task_pids; by rewrite Ht|unfold task_pids; by rewrite Ht| | |by apply removed_tree|by apply removed_sched|apply Hk]; rewrite ?Ht.
  - intros id [tx (tx0 & Hx & _)%removed_new]. rewrite Hn. apply (ko_heap _ _ Hk). eauto.
  - intros id tx Hx. assert (Hin : space_of tx ∈ values space_of family_without) by (apply elem_of_values; eauto).
    eapply task_ok_keep; [|intros v; by apply (Hm (space_of tx))]. apply removed_cases in Hx as [_ [[-> ->]|[_ Hx]]].
    + destruct (ko_tasks _ _ Hk c t Hc) as [? ? ? Hs ? ?]. by split.
    + by apply (ko_tasks _ _ Hk id).
Qed.

End Removed.
(** ** Finding the child *)

(** The first child in [l] that the argument names and that has exited. *)
Record first_zombie k (arg : Z) (l : list Z) (i : nat) (z : Z) (tz : TaskControlBlock) : Prop := {
  fz_at : l !! i = Some z;
  fz_task : tasks k !! z = Some tz;
  fz_zombie : task_status (inner tz) = Zombie;
  fz_named : pid_matches arg (pid tz) = true;
  fz_first j x tx : (j < i)%nat -> l !! j = Some x -> tasks k !! x = Some tx ->
    task_status (inner tx) <> Zombie \/ pid_matches arg (pid tx) = false
}.

Lemma wp_find_zombie_hit k arg l : forall idx,
  (forall j, j ∈ l -> is_Some (tasks k !! j) /\ (CellTask j ∉ borrowed k)) -> asked k arg l true ->
  wp (find_zombie arg l idx) (fun r k' => k' = k /\ exists i z tz, r = Some ((idx + i)%nat, z) /\ first_zombie k arg l i z tz) k.
Proof.
  induction l as [|j l IH]; intros idx Hl Hask; [by destruct Hask as (? & ? & []%not_elem_of_nil & _)|]. cbn [find_zombie].
  destruct (Hl j) as [[tj Hj] Hfree]; [by left|]. wp_step. eapply wp_task_of; [exact Hj|].
  wp_step. apply wp_with_cell; [done|]. wp_step. eapply wp_inner_of; [exact Hj|]. wp_step.
  replace (set_borrowed (borrowed k) _) with k by (by destruct k). unfold is_zombie, getpid.
  destruct (bool_decide (task_status (inner tj) = Zombie) && pid_matches arg (pid tj)) eqn:E.
  - apply andb_true_iff in E as [Hz%bool_decide_eq_true_1 Hm]. wp_step. split; [done|]. exists 0%nat, j, tj. rewrite Nat.add_0_r.
    split; [done|]. split; try done. lia.
  - assert (Hno : task_status (inner tj) <> Zombie \/ pid_matches arg (pid tj) = false).
    { apply andb_false_iff in E as [Hz%bool_decide_eq_false_1|Hm]; auto. }
    eapply wp_mono; [|apply (IH (S idx))].
    + intros r k' (-> & i & z & tz & -> & [Hat Htz Hzz Hnm Hfirst]). split; [done|]. exists (S i), z, tz. split; [do 2 f_equal; lia|]. split; try done.
      intros [|n] x tx Hn Hx Htx; cbn in Hx; [injection Hx as <-; congruence|]. apply (Hfirst n x tx); [lia|done|done].
    + intros x Hx. apply Hl. by right.
    + destruct Hask as (x & tx & [->|Hx]%elem_of_cons & Htx & Hm & Hz); [|by exists x, tx].
      exfalso. assert (tx = tj) as -> by congruence. specialize (Hz eq_refl). destruct Hno as [?|?]; congruence.
Qed.

(** ** The call *)

(** The kernel after the child [z] is reaped: it is gone from the heap and from the
    children of [c]; its pid can be given out again; the frames of its page tables and of
    its kernel stack are free; the image of the kernel and user memory differ only in the exit code at [pa]. *)
Record reaped (pf : Platform) k (c : Z) (i : nat) (z : Z) (tz : TaskControlBlock) (pa : Z) k' : Prop := {
  re_tasks : tasks k' = family_without k c i z;
  re_pid : pid tz ∉ task_pids k';
  re_frames : exists gone, ms_frames (framed_part (kernel_space k)) ≡ₚ ms_frames (framed_part (kernel_space k')) ++ gone /\
    free_frames (mm k') = free_frames (mm k) ∪ list_to_set (gone ++ ms_frames (space_of tz));
  re_memory x : x / PAGE_SIZE < frame_floor pf \/ x / PAGE_SIZE ∈ space_frames (values space_of (tasks k')) ->
    phys (mm k') x = store32 (phys (mm k)) pa (wrap32 (exit_code (inner tz))) x;
  re_rest : ready_queue k' = ready_queue k /\ current k' = current k /\ initproc k' = initproc k /\ console k' = console k
}.

(** The call once the child is found, under the guard of the running process. *)
Lemma wp_reap pf k c t i z tz ptr f Q :
  kernel_ok pf k -> running k c t -> children (inner t) !! i = Some z -> tasks k !! z = Some tz -> task_status (inner tz) = Zombie ->
  user_span (space_of t) ptr 4 f ->
  (forall k', reaped pf k c i z tz (page_base f + ptr mod PAGE_SIZE) k' -> kernel_ok pf k' -> Q (Return (as_isize (pid tz))) k') ->
  wp (update_inner c (drop_child i) ;;
      let* k := get in
      assert_ (Nat.eqb (S (strong_refs k z)) 1) ;;
      let* ct := task_of z in
      let* code := with_cell (CellTask z) (let* t := inner_of z in ret (exit_code t)) in
      let* m := mem_of in
      let* t := inner_of c in
      let* pa := lift (translated_refmut m (MemorySet_token (memory_set t)) ptr) in
      fault_unless (kernel_writes (linker pf) pa 4) ;;
      update_mem (fun m => store32 m pa (wrap32 code)) ;;
      drop_arc z ;;
      ret (Return (as_isize (getpid ct)))) (fun r k' => Q r (set_borrowed [] k')) (set_borrowed [CellTask c] k).
Proof.
  intros Hk Hrun Hi Hz Hzz Hword HQ. pose proof Hrun as [Hcur Hc Hb]. assert (Hlive : task_status (inner t) <> Zombie) by (by eapply running_live).
  assert (Hne : c <> z) by (intros ->; congruence). destruct (removed_not_scheduled pf k z tz Hk Hz Hzz) as [Hnq Hnc].
  destruct (refmut_span (mm k) (space_of t) ptr 4 f (kernel_ok_ms _ _ _ _ Hk Hc) Hword) as (Hpa & Hfin & Hff).
  set (m := store32 (phys (mm k)) (page_base f + ptr mod PAGE_SIZE) (wrap32 (exit_code (inner tz)))).
  assert (Hk1 : kernel_ok pf (set_mm (set_phys m (mm k)) k)).
  { apply (kernel_ok_store pf k c t f); [done..|]. intros x Hx. apply store32_out. by eapply user_span_out. }
  pose proof (removed_refs pf k c t i z tz Hk Hc Hlive Hi Hz Hzz) as Hrefs.
  wp_step. eapply wp_update_inner; [exact Hc|]. wp_step. wp_step. wp_step. apply wp_assert; [by rewrite Hrefs|].
  wp_step. eapply wp_task_of; [kernel_cbn; rewrite lookup_alter_ne by done; exact Hz|].
  wp_step. apply wp_with_cell; [cell_free|]. wp_step. eapply wp_inner_of; [kernel_cbn; rewrite lookup_alter_ne by done; exact Hz|]. wp_step.
  unfold mem_of. wp_step. wp_step. wp_step. eapply wp_inner_of; [kernel_cbn; rewrite lookup_alter_eq, Hc; reflexivity|]. wp_step. kernel_cbn.
  eapply wp_lift; [exact Hpa|]. wp_step. apply wp_fault_unless; [by eapply span_writes|]. wp_step. unfold update_mem. wp_step. kernel_cbn. fold m. wp_step. unfold drop_arc. wp_step. wp_step. rewrite Hrefs by done.
  cbn [Nat.eqb]. kernel_cbn. destruct (size (alter _ c (tasks k))) as [|n] eqn:Hsize.
  { apply map_size_empty_inv in Hsize. assert (Hzl : alter (with_inner (drop_child i)) c (tasks k) !! z = Some tz) by (by rewrite lookup_alter_ne). by rewrite Hsize in Hzl. }
  pose proof Hk1 as [_ Hsp1 Hst1 Hpi1 _ _ _ _ _]. set (F := family_without k c i z). unfold task_pids, kernel_spaces in Hsp1, Hst1, Hpi1. kernel_cbn.
  cbn [tasks set_mm] in Hsp1, Hst1, Hpi1. rewrite (removed_values k c t i z tz Hc Hlive Hz Hzz pid eq_refl) in Hst1, Hpi1.
  rewrite (removed_values k c t i z tz Hc Hlive Hz Hzz space_of eq_refl) in Hsp1. fold F in Hsp1, Hst1, Hpi1.
  destruct (ko_tasks _ _ Hk z tz Hz) as [Hstk _ _ _ Hzn _]. destruct (Hzn Hzz) as [Hnil _].
  eapply (wp_drop_zombie n _ z tz (values pid F) (values space_of F)); kernel_cbn; [cell_free|cell_free|by rewrite lookup_alter_ne|done..|].
  intros a ks s gone Ha Hks Hsp Hbytes Hgone Hfree. fold (family_without k c i z). fold F. wp_step. kernel_cbn. unfold getpid. apply HQ.
  - split; kernel_cbn; [done| |by exists gone| |done].
    + unfold task_pids. kernel_cbn. pose proof (po_nodup _ _ Hpi1) as Hnd. apply NoDup_app in Hnd as (_ & _ & Hnd). by apply NoDup_cons in Hnd as [? _].
    + exact Hbytes.
  - assert (Hall : Forall (ms_ok (set_phys m (mm k))) (values space_of F)).
    { pose proof (so_all _ _ Hsp1) as Hall. by apply Forall_cons in Hall as [_ [_ ?]%Forall_cons]. }
    eapply (kernel_ok_removed pf (set_mm (set_phys m (mm k)) k) c t i z tz Hk1 Hc Hlive Hi Hz Hzz); kernel_cbn; try done.
    by eapply same_bytes_maps.
Qed.

Lemma wp_waitpid_reaps pf k c t arg ptr f Q :
  kernel_ok pf k -> running k c t -> asked k arg (children (inner t)) true -> user_span (space_of t) ptr 4 f ->
  (forall i z tz k', first_zombie k arg (children (inner t)) i z tz ->
     reaped pf k c i z tz (page_base f + ptr mod PAGE_SIZE) k' -> kernel_ok pf k' -> Q (Return (pid tz)) k') ->
  wp (sys_waitpid pf arg ptr) Q k.
Proof.
  intros Hk Hrun Hask Hword HQ. pose proof Hrun as [Hcur Hc Hb]. pose proof (ko_tree _ _ Hk) as [Hch Hnd _ _]. pose proof (Hnd c t Hc) as [Hself _]%NoDup_cons.
  assert (Hl : forall j, j ∈ children (inner t) -> is_Some (tasks k !! j) /\ j <> c).
  { intros j Hj. destruct (Hch c t j Hc Hj) as (tj & Htj & Hp). split; [eauto|]. by intros ->. }
  unfold sys_waitpid. wp_step. eapply wp_current_task; [done..|].
  wp_step. eapply wp_unwrap; [done|]. apply wp_with_cell; [cell_free|]. rewrite Hb.
  set (k1 := set_borrowed [CellTask c] k). assert (Hasked : forall b, asked k1 arg (children (inner t)) b <-> asked k arg (children (inner t)) b) by done.
  wp_step. eapply wp_inner_of; [done|]. wp_step.
  eapply wp_mono; [|apply wp_any_child; intros j Hj; by apply Hl]. intros b k' [-> Hany].
  destruct b; cbn [negb]; [|exfalso; enough (false = true) by done; apply Hany; destruct Hask as (j & tj & ? & ? & ? & _); by exists j, tj].
  wp_step. eapply wp_mono; [|apply wp_find_zombie_hit; [|by rewrite Hasked]].
  - intros r k' (-> & i & z & tz & -> & Hfz). rewrite Nat.add_0_l. pose proof Hfz as [Hi Hz Hzz _ _].
    eapply (wp_reap pf k c t i z tz ptr f Q); try done. intros k' Hre Hk'. rewrite (as_isize_pid (pid tz)).
    { apply (HQ i z tz); [by destruct Hfz|done|done]. }
    pose proof (kk_range _ _ _ (ko_stacks _ _ Hk)) as Hr. rewrite Forall_forall in Hr. apply Hr, elem_of_values. by exists z, tz.
  - intros j Hj. destruct (Hl j Hj) as [Hs Hne]. split; [done|]. cbn. rewrite not_elem_of_cons. split; [congruence|apply not_elem_of_nil].
Qed.

(** C7: [sys_waitpid] with an exited child that the argument names reaps the first such
    child: it returns its pid and stores its exit code at the address given, and the
    child's control block, pid, kernel stack and page tables are gone, exactly their
    frames being free in addition; nothing else changes, and the invariant of the kernel
    holds again. *)
Theorem waitpid_reaps pf k c t arg ptr f :
  kernel_ok pf k -> running k c t -> asked k arg (children (inner t)) true -> user_span (space_of t) ptr 4 f ->
  wp (sys_waitpid pf arg ptr) (fun r k' => exists i z tz, first_zombie k arg (children (inner t)) i z tz /\
    r = Return (pid tz) /\ reaped pf k c i z tz (page_base f + ptr mod PAGE_SIZE) k' /\ kernel_ok pf k') k.
Proof. intros Hk Hrun Hask Hword. eapply wp_waitpid_reaps; [done..|]. intros i z tz k' Hz Hre Hk'. by exists i, z, tz. Qed.

End Wait.
