(* ===== verification/ExitSpec.v ===== *)
(** * exit and the invariant of the kernel

    A process that exits leaves a kernel in which the invariant holds: its data pages are
    gone, its children are those of [INITPROC], and it is nowhere scheduled. *)

From S2P Require Import Prelude Config Address PhysMem FrameAllocator PageTable PageTableSpec.
From S2P Require Import MemorySet MemorySetSpec ForkSpec SpaceSpec Timer Pid Kernel Manager Task Loader.
From S2P Require Import Processor Syscall KernelSpec MmapSpec LifecycleSpec KernelStackSpec KernelInv ProcessSpec.

(** The values of two heaps that agree on a field are the same, up to order. *)
Lemma values_ext {V A} (f : V -> A) (m m' : gmap Z V) :
  (forall i, f <$> m' !! i = f <$> m !! i) -> values f m' ≡ₚ values f m.
Proof.
  intros He. assert (Hv : forall n : gmap Z V, values f n ≡ₚ map snd (map_to_list (f <$> n))).
  { intros n. unfold values. rewrite map_to_list_fmap. rewrite <-list_fmap_compose. done. }
  rewrite !Hv. replace (f <$> m') with (f <$> m); [done|]. apply map_eq. intros i. by rewrite !lookup_fmap.
Qed.

Section ExitInv.
Context {T : Type} `{FrameAllocatorSpec T}.
Implicit Types (s : MmState T) (k : Kernel T).

Lemma kernel_family pf k c t :
  kernel_ok pf k -> running k c t -> initproc k <> Some c -> exists init ti, family k c t init ti.
Proof.
  intros Hk [Hcur Hc Hb] Hne. pose proof (ko_tree _ _ Hk) as [Hch Hnd Hpa (init & ti & Hi & Hti & Hip & Hiz)].
  exists init, ti. pose proof (Hnd c t Hc) as [Hself Hnd']%NoDup_cons. split; [split_and!; congruence|done| |].
  - intros j Hj. destruct (Hch c t j Hc Hj) as (tj & Htj & Hpj). split_and!; [eauto| |]; intros ->; congruence.
  - destruct (Hpa c t Hc Hne) as (p & tp & _ & Hp & Hin). exists p, tp. split_and!; [done| |done]. intros ->. congruence.
Qed.

Section Exited.
Context (pf : Platform) (k : Kernel T) (c : Z) (t : TaskControlBlock) (init : Z) (ti : TaskControlBlock) (code : Z) (k' : Kernel T).
Hypothesis Hk : kernel_ok pf k.
Hypothesis Hrun : running k c t.
Hypothesis Hfam : family k c t init ti.
Hypothesis Hex : exited code k c t init ti k'.

(** What becomes of a process. *)
Definition after_exit (j : Z) (i : TaskControlBlockInner) : TaskControlBlockInner :=
  if decide (j = c) then zombie_of code i
  else if decide (j = init) then set_children (children i ++ children (inner t)) i
  else if decide (j ∈ children (inner t)) then set_parent (Some init) i
  else i.

Lemma exited_lookup j : tasks k' !! j = with_inner (after_exit j) <$> tasks k !! j.
Proof.
  destruct Hfam as [(Hi & Hti & Hne) _ Hcl _]. destruct Hrun as [_ Hc _]. destruct Hex as [_ Htask Hinit Hchild Hother _ _ _ _]. unfold after_exit.
  destruct (decide (j = c)) as [->|Hjc]; [by rewrite Htask, Hc|]. destruct (decide (j = init)) as [->|Hji]; [by rewrite Hinit, Hti|].
  destruct (decide (j ∈ children (inner t))) as [Hj|Hj]; [by apply Hchild|]. rewrite Hother by done.
  by destruct (tasks k !! j) as [[? ? []]|].
Qed.

Lemma exited_new j tj : tasks k' !! j = Some tj -> exists tj0, tasks k !! j = Some tj0 /\ tj = with_inner (after_exit j) tj0.
Proof. rewrite exited_lookup. intros (tj0 & Ht & ->)%fmap_Some. eauto. Qed.

Lemma after_parent j i : parent (after_exit j i) = if decide (j ∈ children (inner t)) then Some init else parent i.
Proof.
  destruct Hfam as [_ _ Hcl _]. unfold after_exit. destruct (decide (j ∈ children (inner t))) as [Hj|Hj].
  - destruct (Hcl j Hj) as (_ & ? & ?). rewrite !decide_False by done. done.
  - repeat case_decide; done.
Qed.

Lemma after_children j i :
  children (after_exit j i) = if decide (j = c) then [] else if decide (j = init) then children i ++ children (inner t) else children i.
Proof. unfold after_exit. repeat case_decide; done. Qed.

Lemma after_status j i : task_status (after_exit j i) = if decide (j = c) then Zombie else task_status i.
Proof. unfold after_exit. repeat case_decide; done. Qed.

Lemma after_space j i : memory_set (after_exit j i) = if decide (j = c) then mk_ms (page_table (memory_set i)) [] else memory_set i.
Proof. unfold after_exit. repeat case_decide; done. Qed.

(** No process is a child of both. *)
Lemma exited_children_apart x : x ∈ children (inner ti) -> x ∉ children (inner t).
Proof.
  intros Hx Hx'. destruct Hfam as [(Hi & Hti & Hne) _ _ _]. pose proof (ko_tree _ _ Hk) as [Hch _ _ _].
  destruct (Hch init ti x Hti Hx) as (t1 & H1 & Hp1). destruct (Hch c t x (run_task _ _ _ Hrun) Hx') as (t2 & H2 & Hp2). congruence.
Qed.

Lemma exited_tree : tree_ok k'.
Proof.
  pose proof Hfam as [(Hi & Hti & Hne) _ Hcl _]. pose proof (run_task _ _ _ Hrun) as Hc. pose proof (ex_same _ _ _ _ _ _ _ Hex) as Hs.
  assert (Hinit : initproc k' = Some init) by (by rewrite Hs). pose proof (ko_tree _ _ Hk) as [Hch Hnd Hpa (i & ti' & Hi' & Hti' & Hip & Hiz)].
  assert (i = init) as -> by congruence. assert (ti' = ti) as -> by congruence. split.
  - intros p tp x (tp0 & Hp & ->)%exited_new Hx. cbn in Hx. rewrite after_children in Hx.
    assert (Hpar : forall q tq, tasks k !! q = Some tq -> x ∈ children (inner tq) -> (if decide (x ∈ children (inner t)) then init else q) = p ->
      exists tc, tasks k' !! x = Some tc /\ parent (inner tc) = Some p).
    { intros q tq Hq Hxq <-. destruct (Hch q tq x Hq Hxq) as (tx & Htx & Hpx). exists (with_inner (after_exit x) tx).
      rewrite exited_lookup, Htx. split; [done|]. cbn. rewrite after_parent. by case_decide. }
    destruct (decide (p = c)) as [->|Hpc]; [by apply not_elem_of_nil in Hx|]. destruct (decide (p = init)) as [->|Hpi].
    + apply elem_of_app in Hx as [Hx|Hx]; [|apply (Hpar c t); [done..|]; by rewrite decide_True].
      apply (Hpar init tp0); [done..|]. by case_decide.
    + apply (Hpar p tp0); [done..|]. rewrite decide_False; [done|]. intros Hx'.
      destruct (Hch p tp0 x Hp Hx) as (t1 & H1 & Hp1). destruct (Hch c t x Hc Hx') as (t2 & H2 & Hp2). congruence.
  - intros p tp (tp0 & Hp & ->)%exited_new. cbn. rewrite after_children. destruct (decide (p = c)) as [->|Hpc]; [apply NoDup_singleton|].
    destruct (decide (p = init)) as [->|Hpi]; [|by apply Hnd]. assert (tp0 = ti) as -> by congruence.
    pose proof (Hnd init ti Hti) as [Hself Hn]%NoDup_cons. pose proof (Hnd c t Hc) as [_ Hn']%NoDup_cons. apply NoDup_cons. split.
    + intros [?|Hin]%elem_of_app; [done|]. by destruct (Hcl init Hin) as (_ & ? & _).
    + apply NoDup_app. split_and!; [done|apply exited_children_apart|done].
  - intros x tx (tx0 & Hx & ->)%exited_new Hni. rewrite Hinit in Hni. cbn. rewrite after_parent. destruct (decide (x ∈ children (inner t))) as [Hx'|Hx'].
    + exists init, (with_inner (after_exit init) ti). rewrite exited_lookup, Hti. split_and!; [done|done|]. cbn.
      rewrite after_children, decide_False, decide_True by done. apply elem_of_app. by right.
    + destruct (Hpa x tx0 Hx ltac:(congruence)) as (p & tp & Hp & Htp & Hin). exists p, (with_inner (after_exit p) tp).
      rewrite exited_lookup, Htp. split_and!; [done|done|]. cbn. rewrite after_children, decide_False by (intros ->; congruence).
      case_decide; [apply elem_of_app; by left|done].
  - exists init, (with_inner (after_exit init) ti). rewrite exited_lookup, Hti. cbn. rewrite after_parent, after_status, !decide_False; try done.
    intros Hin. by destruct (Hcl init Hin) as (_ & ? & _).
Qed.

Lemma exited_sched : schedule_ok k'.
Proof.
  pose proof Hrun as [Hcur Hc _]. pose proof (ex_same _ _ _ _ _ _ _ Hex) as Hs. pose proof (ko_sched _ _ Hk) as [Hnd Hre Hcu Hal].
  assert (Hq : ready_queue k' = ready_queue k) by (by rewrite Hs). assert (Hn : current k' = None) by (by rewrite Hs).
  destruct (Hcu c Hcur) as (t0 & Ht0 & Hr & _). split; rewrite ?Hq, ?Hn; [done| |done|].
  - intros id Hid. destruct (Hre id Hid) as (tx & Hx & Hst). exists (with_inner (after_exit id) tx). rewrite exited_lookup, Hx. split; [done|].
    cbn. rewrite after_status, decide_False; [done|]. intros ->. congruence.
  - intros id tx (tx0 & Hx & ->)%exited_new. cbn. rewrite after_status. case_decide as Hid; [done|]. specialize (Hal id tx0 Hx).
    destruct (task_status (inner tx0)); try done. congruence.
Qed.

Lemma exited_spaces :
  spaces_ok (frame_floor pf) (mm k') (kernel_spaces k') /\ same_bytes (frame_floor pf) (other_spaces k c) (mm k) (mm k') /\
  values space_of (tasks k') ≡ₚ mk_ms (page_table (space_of t)) [] :: values space_of (delete c (tasks k)).
Proof.
  pose proof (run_task _ _ _ Hrun) as Hc. destruct Hex as [Hs Htask _ _ _ Hfr Hkeep Htb Hph].
  assert (Hval : values space_of (tasks k') ≡ₚ mk_ms (page_table (space_of t)) [] :: values space_of (delete c (tasks k))).
  { rewrite (values_delete space_of (tasks k') c _ Htask). cbn. apply Permutation_skip, values_ext. intros j.
    destruct (decide (j = c)) as [->|Hj]; [by rewrite !lookup_delete_eq|]. rewrite !lookup_delete_ne, exited_lookup by done.
    destruct (tasks k !! j) as [tj|]; [|done]. cbn. unfold space_of. cbn. by rewrite after_space, decide_False. }
  destruct (spaces_ok_step (lo := frame_floor pf) (mm k) [space_of t] [mk_ms (page_table (space_of t)) []] (other_spaces k c) [] [] (own_frames (space_of t)) (mm k')) as [Hsp Hbs].
  - rewrite <-(kernel_spaces_split k c t Hc). apply Hk.
  - apply changes_drop; [apply Htb|done| |done]. intros q Hq Hu. by apply Hkeep.
  - by intros p []%not_elem_of_nil.
  - intros p Hp. unfold space_frames. cbn. rewrite app_nil_r. by apply ms_frames_areas.
  - by apply Forall_singleton.
  - unfold space_frames. cbn. rewrite app_nil_r. apply Htb.
  - intros p. unfold space_frames, ms_frames. cbn. rewrite !app_nil_r. intros Hp. left. apply elem_of_app. by left.
  - split_and!; [|done|done]. unfold kernel_spaces. rewrite Hval, Permutation_swap. assert (kernel_space k' = kernel_space k) as -> by (by rewrite Hs). exact Hsp.
Qed.

Lemma kernel_ok_exited : kernel_ok pf k'.
Proof.
  destruct exited_spaces as (Hsp & Hbs & Hval). pose proof (run_task _ _ _ Hrun) as Hc. pose proof (ex_same _ _ _ _ _ _ _ Hex) as Hs.
  assert (Hph : phys (mm k') = phys (mm k)) by (apply Hex).
  assert (Hks : kernel_space k' = kernel_space k) by (by rewrite Hs).
  assert (Hpids : task_pids k' ≡ₚ task_pids k).
  { apply values_ext. intros j. rewrite exited_lookup. by destruct (tasks k !! j). }
  split; [|done| | | | |apply exited_tree|apply exited_sched|apply Hk].
  - rewrite Hs. kernel_cbn. apply Hrun.
  - rewrite Hpids, Hks. apply (kspace_ok_keep (mm k)); [apply Hk| |by rewrite Hph].
    pose proof (so_all _ _ Hsp) as Ha. apply Forall_cons in Ha as [Ha _]. by rewrite Hks in Ha.
  - rewrite Hpids. assert (pid_allocator k' = pid_allocator k) as -> by (by rewrite Hs). apply Hk.
  - intros id [tx (tx0 & Hx & _)%exited_new]. assert (next_task k' = next_task k) as -> by (by rewrite Hs). apply (ko_heap _ _ Hk). eauto.
  - intros id tx (tx0 & Hx & ->)%exited_new. destruct (ko_tasks _ _ Hk id tx0 Hx) as [H1 H2 H3 H4 H5 H6]. rewrite Hph.
    split; cbn; rewrite ?after_status, ?after_children, ?after_space; try done;
      unfold after_exit; repeat case_decide; cbn; try done. intros Hz. subst id.
    pose proof (tr_init _ (ko_tree _ _ Hk)) as (i & ti' & Hi' & Hti' & _ & Hiz). pose proof (fa_init _ _ _ _ _ Hfam) as (Hi & Hti & _). congruence.
Qed.

End Exited.

(** [exit_current_and_run_next] keeps the invariant. *)
Lemma wp_exit_ok pf k c t code Q :
  kernel_ok pf k -> running k c t -> initproc k <> Some c ->
  (forall init ti k', family k c t init ti -> exited code k c t init ti k' -> kernel_ok pf k' -> Q tt k') ->
  wp (exit_current_and_run_next code) Q k.
Proof.
  intros Hk Hrun Hne HQ. destruct (kernel_family pf k c t Hk Hrun Hne) as (init & ti & Hfam).
  eapply wp_exit_current; [done..|by eapply kernel_ok_ms, Hrun|]. intros k' Hex. eapply HQ; [done..|].
  by eapply (kernel_ok_exited pf k c t init ti code).
Qed.

End ExitInv.
