(* ===== verification/ScheduleSpec.v ===== *)
(** * Scheduling and the invariant of the kernel

    A suspension and a dispatch keep the invariant of the kernel.  While no process runs,
    some process is ready, and the idle loop brings one back to user mode as soon as the
    console has a character for the processes that wait for one. *)

From S2P Require Import Prelude Config Address PhysMem FrameAllocator PageTable PageTableSpec UserAccess.
From S2P Require Import MemorySet MemorySetSpec ForkSpec SpaceSpec Timer Pid Kernel Manager Task Loader.
From S2P Require Import Processor Syscall Trap KernelSpec SchedulerSpec MmapSpec LifecycleSpec KernelStackSpec KernelInv ProcessSpec.
From S2P Require Import ExitSpec.

Section Schedule.
Context {T : Type} `{FrameAllocatorSpec T}.
Implicit Types (s : MmState T) (k : Kernel T).

(** ** One process changes its place in the schedule *)

(** What the family tree depends on. *)
Definition in_family (t : TaskControlBlock) : option Z * list Z * bool :=
  (parent (inner t), children (inner t), is_zombie (inner t)).

Lemma tree_ok_ext k k' :
  tree_ok k -> (forall j, in_family <$> tasks k' !! j = in_family <$> tasks k !! j) -> initproc k' = initproc k -> tree_ok k'.
Proof.
  intros [Hch Hnd Hpa (i & ti & Hi & Hti & Hip & Hiz)] Hf Hinit.
  assert (Hnew : forall j tj, tasks k' !! j = Some tj -> exists tj0, tasks k !! j = Some tj0 /\ in_family tj0 = in_family tj).
  { intros j tj Hj. specialize (Hf j). rewrite Hj in Hf. symmetry in Hf. apply fmap_Some in Hf as (tj0 & ? & ?). eauto. }
  assert (Hold : forall j tj, tasks k !! j = Some tj -> exists tj', tasks k' !! j = Some tj' /\ in_family tj = in_family tj').
  { intros j tj Hj. specialize (Hf j). rewrite Hj in Hf. apply fmap_Some in Hf as (tj' & ? & ?). eauto. }
  split.
  - intros p tp x (tp0 & Hp & [= _ Hcs _])%Hnew Hx. rewrite <-Hcs in Hx. destruct (Hch p tp0 x Hp Hx) as (tx & Htx & Hpx).
    destruct (Hold x tx Htx) as (tx' & Hx' & [= Hpp _ _]). exists tx'. split; congruence.
  - intros p tp (tp0 & Hp & [= _ Hcs _])%Hnew. rewrite <-Hcs. by apply Hnd.
  - intros x tx (tx0 & Hx & [= Hpp _ _])%Hnew Hni. rewrite Hinit in Hni. destruct (Hpa x tx0 Hx Hni) as (p & tp & Hp & Htp & Hin).
    destruct (Hold p tp Htp) as (tp' & Hp' & [= _ Hcs _]). exists p, tp'. rewrite <-Hcs. split_and!; congruence.
  - destruct (Hold i ti Hti) as (ti' & Hi' & [= Hpp _ Hz]). exists i, ti'. rewrite Hinit. split_and!; [done|done|congruence|].
    intros Hz'. apply Hiz. unfold is_zombie in Hz. rewrite (bool_decide_eq_true_2 _ Hz') in Hz. by apply bool_decide_eq_true_1 in Hz.
Qed.

(** What a step of the scheduler leaves alone in a process. *)
Record keeps_process (i i' : TaskControlBlockInner) : Prop := {
  kp_parent : parent i' = parent i;
  kp_children : children i' = children i;
  kp_space : memory_set i' = memory_set i;
  kp_cx : trap_cx_ppn i' = trap_cx_ppn i;
  kp_priority : 0 < priority i < 2 ^ 64 -> 0 < priority i' < 2 ^ 64;
  kp_times : length (syscall_times i') = length (syscall_times i);
  kp_zombie : is_zombie i' = is_zombie i
}.

Lemma kernel_ok_reschedule pf k c f k' t :
  kernel_ok pf k -> tasks k !! c = Some t -> keeps_process (inner t) (f (inner t)) ->
  (task_status (f (inner t)) = Ready -> resume_ok (space_of t) (kstack (f (inner t)))) ->
  tasks k' = alter (with_inner f) c (tasks k) -> mm k' = mm k -> kernel_space k' = kernel_space k ->
  pid_allocator k' = pid_allocator k -> next_task k' = next_task k -> initproc k' = initproc k -> borrowed k' = [] ->
  schedule_ok k' -> kernel_ok pf k'.
Proof.
  intros [Hb Hsp Hst Hpi Hh Hts Htr _ ?] Hc [Hp1 Hp2 Hp3 Hp4 Hp5 Hp6 Hp7] Hre Ht Hmm Hks Hpa Hn Hi Hbo Hs.
  assert (Hpids : task_pids k' ≡ₚ task_pids k) by (unfold task_pids; rewrite Ht; by apply (values_alter_same pid _ _ c t)).
  assert (Hspaces : kernel_spaces k' ≡ₚ kernel_spaces k).
  { unfold kernel_spaces. rewrite Hks, Ht. by rewrite (values_alter_same space_of _ _ c t). }
  split; [done|by rewrite Hspaces, Hmm|by rewrite Hpids, Hmm, Hks|by rewrite Hpids, Hpa| | | |done|done].
  - intros id Hid. rewrite Hn. apply Hh. rewrite Ht in Hid. by rewrite lookup_alter_is_Some in Hid.
  - intros id tx. rewrite Hmm, Ht. destruct (decide (id = c)) as [->|Hne]; [|rewrite lookup_alter_ne by done; apply Hts].
    rewrite lookup_alter_eq, Hc. intros [= <-]. destruct (Hts c t Hc) as [? ? ? Hus Hz ?].
    assert (Hzeq : task_status (f (inner t)) = Zombie <-> task_status (inner t) = Zombie).
    { unfold is_zombie in Hp7. rewrite <-(bool_decide_eq_true (task_status (f (inner t)) = Zombie)), Hp7. by rewrite bool_decide_eq_true. }
    split; cbn; rewrite ?Hp2, ?Hp3, ?Hp4, ?Hp6, ?Hzeq; try done. by apply Hp5.
  - apply (tree_ok_ext k); [done| |done]. intros j. rewrite Ht. destruct (decide (j = c)) as [->|Hne]; [|by rewrite lookup_alter_ne].
    rewrite lookup_alter_eq, Hc. cbn. unfold in_family. cbn. by rewrite Hp1, Hp2, Hp7.
Qed.

(** ** Suspension *)

Lemma kernel_ok_suspended pf k c t r :
  kernel_ok pf k -> running k c t -> resume_ok (space_of t) r ->
  kernel_ok pf (set_ready_queue (ready_queue k ++ [c])
    (alter_task c (fun t => set_kstack r (set_status Ready t)) (set_current None k))).
Proof.
  intros Hk Hrun Hr. pose proof Hrun as [Hcur Hc Hb]. pose proof (running_status _ _ _ _ Hk Hrun) as Hst.
  pose proof (ko_sched _ _ Hk) as [Hnd Hre Hcu Hal].
  eapply (kernel_ok_reschedule pf k c (fun t => set_kstack r (set_status Ready t)) _ t); try done.
  { split; try done. cbn. unfold is_zombie. cbn. by rewrite Hst. }
  assert (Hnq : c ∉ ready_queue k) by (intros (tx & Hx & Hs)%Hre; congruence).
  split; kernel_cbn; [apply (NoDup_vec_push (ready_queue k)); done| |done|].
  - intros id [Hid|Hid%list_elem_of_singleton]%elem_of_app.
    + destruct (Hre id Hid) as (tx & Hx & Hs). exists tx. rewrite lookup_alter_ne by (intros ->; done). done.
    + subst id. rewrite lookup_alter_eq, Hc. eauto.
  - intros id tx. destruct (decide (id = c)) as [->|Hne].
    + rewrite lookup_alter_eq, Hc. intros [= <-]. cbn. apply elem_of_app. right. by left.
    + rewrite lookup_alter_ne by done. intros Hx. specialize (Hal id tx Hx). destruct (task_status (inner tx)); [done|apply elem_of_app; by left|congruence|done].
Qed.

(** ** Dispatch *)

Lemma kernel_queue_ok pf k : kernel_ok pf k -> queue_ok k (ready_queue k).
Proof.
  intros Hk. pose proof (ko_sched _ _ Hk) as [Hnd Hre _ _]. split; [|done| |].
  - intros id (t & Ht & _)%Hre. eauto.
  - intros id _. rewrite (ko_free _ _ Hk). apply not_elem_of_nil.
  - intros id (t & Ht & _)%Hre. unfold priority_of, field_of. rewrite Ht. cbn. apply (ko_tasks _ _ Hk id t Ht).
Qed.

(** While nothing runs, [INITPROC] at least is ready. *)
Lemma kernel_queue_nonempty pf k : kernel_ok pf k -> current k = None -> ready_queue k <> [].
Proof.
  intros Hk Hcur Hq. destruct (tr_init _ (ko_tree _ _ Hk)) as (i & ti & _ & Hti & _ & Hiz).
  pose proof (sc_all _ (ko_sched _ _ Hk) i ti Hti) as Ha. rewrite Hq in Ha.
  destruct (task_status (inner ti)); [done|by apply not_elem_of_nil in Ha|congruence|done].
Qed.

Lemma kernel_ok_dispatched pf k i c k' :
  kernel_ok pf k -> current k = None -> ready_queue k !! i = Some c -> dispatched k i c k' ->
  kernel_ok pf k' /\ exists t st, tasks k !! c = Some t /\ resume_ok (space_of t) (kstack (inner t)) /\
    running k' c (with_inner (run_inner st) t).
Proof.
  intros Hk Hcur Hi (n & st & ->). pose proof (ko_sched _ _ Hk) as [Hnd Hre Hcu Hal].
  destruct (Hre c ltac:(by eapply list_elem_of_lookup_2)) as (t & Hc & Hst). split.
  - eapply (kernel_ok_reschedule pf k c (run_inner st) _ t); try done; [|apply Hk|].
    { split; try done. unfold is_zombie. cbn. by rewrite Hst. }
    pose proof (delete_Permutation _ _ _ Hi) as Hp. assert (Hnd' : NoDup (c :: delete i (ready_queue k))) by (by rewrite <-Hp).
    apply NoDup_cons in Hnd' as [Hncd Hnd'].
    assert (Hel : forall x, x ∈ ready_queue k <-> x = c \/ x ∈ delete i (ready_queue k)) by (intros x; rewrite <-elem_of_cons; by rewrite <-Hp).
    split; kernel_cbn; [done| | |].
    + intros id Hid. destruct (Hre id) as (tx & Hx & Hs); [apply Hel; by right|]. exists tx. rewrite lookup_alter_ne by (intros ->; done). done.
    + intros x [= <-]. rewrite lookup_alter_eq, Hc. eexists. split_and!; [done|done|]. cbn. eauto.
    + intros id tx. destruct (decide (id = c)) as [->|Hne].
      * rewrite lookup_alter_eq, Hc. by intros [= <-].
      * rewrite lookup_alter_ne by done. intros Hx. specialize (Hal id tx Hx). destruct (task_status (inner tx)); [done| |congruence|done].
        apply Hel in Hal as [?|?]; done.
  - exists t, st. split_and!; [done|by apply (to_resume _ _ _ (ko_tasks _ _ Hk c t Hc))|]. split; kernel_cbn; [done|by rewrite lookup_alter_eq, Hc|apply Hk].
Qed.

Lemma wp_round_ok pf k Q :
  kernel_ok pf k -> current k = None ->
  (forall c t k', kernel_ok pf k' -> running k' c t -> resume_ok (space_of t) (kstack (inner t)) -> char_reads k' = char_reads k -> Q (Some c) k') ->
  wp (run_tasks_round pf) Q k.
Proof.
  intros Hk Hcur HQ. eapply wp_mono; [|apply wp_run_tasks_round; [by eapply kernel_queue_ok|apply Hk|by eapply kernel_queue_nonempty]].
  cbn beta. intros o k' (i & c & -> & Hi & _ & Hd). destruct (kernel_ok_dispatched _ _ _ _ _ Hk Hcur Hi Hd) as (Hk' & t & st & _ & Hr & Hrun).
  eapply HQ; [done..|]. destruct Hd as (n & st' & ->). done.
Qed.

End Schedule.
