(* ===== verification/HandlerSpec.v ===== *)
(** * The handlers of system calls and the invariant of the kernel

    Every handler, called with arguments that do not make the kernel panic, keeps the
    invariant of the kernel and leaves either the calling process running or none. *)

From S2P Require Import Prelude Config Address PhysMem FrameAllocator PageTable PageTableSpec UserAccess.
From S2P Require Import MemorySet MemorySetSpec ForkSpec SpaceSpec ElfSpec Timer Pid Utf8 Kernel Manager Task Loader.
From S2P Require Import Processor Syscall Trap KernelSpec SchedulerSpec MmapSpec LifecycleSpec KernelStackSpec KernelInv ProcessSpec.
From S2P Require Import UserMemSpec SysForkSpec SysSpawnSpec SysExecSpec WaitSpec ExitSpec ScheduleSpec.

Section Handlers.
Context {T : Type} `{FrameAllocatorSpec T}.
Implicit Types (s : MmState T) (k : Kernel T).
Context (pf : Platform).

(** What a handler leaves behind. *)
Definition handled (c : Z) (r : control) k : Prop :=
  kernel_ok pf k /\ current k = match r with Return _ => Some c | Switched => None end.

(** The current process of a kernel between two calls is running. *)
Lemma kernel_running k c : kernel_ok pf k -> current k = Some c -> exists t, running k c t.
Proof.
  intros Hk Hcur. destruct (sc_current _ (ko_sched _ _ Hk) c Hcur) as (t & Ht & _). exists t. split; [done|done|apply Hk].
Qed.

(** ** Clock, console and accounts *)

(** The invariant does not depend on devices. *)
Lemma kernel_ok_same k k' :
  kernel_ok pf k -> mm k' = mm k -> kernel_space k' = kernel_space k -> pid_allocator k' = pid_allocator k -> tasks k' = tasks k ->
  next_task k' = next_task k -> initproc k' = initproc k -> ready_queue k' = ready_queue k -> current k' = current k ->
  borrowed k' = [] -> kernel_ok pf k'.
Proof.
  destruct k, k'. cbn. intros [? ? ? ? ? ? Ht Hs ?]. intros. subst. split; try done.
  - by destruct Ht.
  - by destruct Hs.
Qed.

(** A change of the accounts of the running process. *)
Lemma kernel_ok_account k c t f :
  kernel_ok pf k -> running k c t -> keeps_process (inner t) (f (inner t)) -> task_status (f (inner t)) = task_status (inner t) ->
  start_time (f (inner t)) = start_time (inner t) -> kernel_ok pf (alter_task c f k).
Proof.
  intros Hk Hrun Hp Hst Htm. pose proof Hrun as [Hcur Hc Hb]. pose proof (running_status _ _ _ _ Hk Hrun) as Hr.
  eapply (kernel_ok_reschedule pf k c f _ t); try done; [congruence|]. eapply (replaced_sched pf k c t f); try done.
  split; [apply Hp|apply Hp|done|]. by rewrite Htm.
Qed.

Lemma wp_count_syscall k c t id Q :
  kernel_ok pf k -> running k c t ->
  (forall t', keeps_process (inner t) (inner t') -> forall k', k' = set_tasks (tasks k') k -> running k' c t' -> kernel_ok pf k' -> Q tt k') ->
  wp (count_syscall id) Q k.
Proof.
  intros Hk Hrun HQ. pose proof Hrun as [Hcur Hc Hb]. pose proof (ko_tasks _ _ Hk c t Hc) as Hto. unfold count_syscall, processor_count_syscall.
  destruct (Z.ltb_spec id MAX_SYSCALL_NUM) as [Hid|Hid].
  - eapply wp_on_current; [done|]. destruct (syscall_times (inner t) !! Z.to_nat id) as [n|] eqn:En.
    + eapply wp_update_inner; [exact Hc|]. set (f := fun i => set_syscall_times _ i).
      assert (Hke : keeps_process (inner t) (f (inner t))) by (split; try done; cbn; by rewrite length_insert).
      replace (set_borrowed [] _) with (alter_task c f k) by (destruct k; cbn in *; by subst).
      apply (HQ (with_inner f t)); [done|by destruct k|split; [done|by apply alter_task_lookup|done]|].
      by apply (kernel_ok_account k c t).
    + exfalso. apply lookup_ge_None in En. rewrite (to_times _ _ _ Hto) in En. unfold MAX_SYSCALL_NUM in *. lia.
  - apply wp_with_cell; [cell_free|]. wp_step. replace (set_borrowed _ _) with k by (by destruct k).
    apply (HQ t); [by split|by destruct k|done|done].
Qed.

Lemma getpid_handled k c t : kernel_ok pf k -> running k c t -> wp sys_getpid (handled c) k.
Proof.
  intros Hk [Hcur Hc Hb]. unfold sys_getpid. wp_step. eapply wp_current_task; [done..|]. wp_step. eapply wp_unwrap; [done|].
  wp_step. eapply wp_task_of; [exact Hc|]. by wp_step.
Qed.

Lemma set_priority_handled k c t prio : kernel_ok pf k -> running k c t -> prio < 2 ^ 63 -> wp (sys_set_priority prio) (handled c) k.
Proof.
  intros Hk Hrun Hp. pose proof Hrun as [Hcur Hc Hb]. unfold sys_set_priority. destruct (Z.ltb_spec prio 2) as [Hlt|Hge]; [by wp_step|].
  wp_step. eapply wp_current_task; [done..|]. wp_step. eapply wp_unwrap; [done|]. wp_step. apply wp_with_cell; [cell_free|].
  eapply wp_update_inner; [exact Hc|]. wp_step. set (f := set_priority (as_usize prio)).
  replace (set_borrowed _ _) with (alter_task c f k) by (destruct k; cbn in *; by subst). split; [|done].
  apply (kernel_ok_account k c t); [done..| |done|done]. split; try done. intros _. cbn. unfold as_usize.
  rewrite wrap64_small by lia. lia.
Qed.

(** ** Scheduling *)

Lemma yield_handled k c t : kernel_ok pf k -> running k c t -> wp sys_yield (handled c) k.
Proof.
  intros Hk Hrun. pose proof Hrun as [Hcur Hc Hb]. unfold sys_yield. wp_step. eapply wp_suspend; [done..|]. wp_step.
  split; [|done]. by eapply kernel_ok_suspended.
Qed.

Lemma exit_handled k c t code : kernel_ok pf k -> running k c t -> initproc k <> Some c -> wp (sys_exit code) (handled c) k.
Proof.
  intros Hk Hrun Hne. unfold sys_exit. wp_step. eapply wp_exit_ok; [done..|]. intros init ti k' _ Hex Hk'. wp_step.
  split; [done|]. by rewrite (ex_same _ _ _ _ _ _ _ Hex).
Qed.

(** ** Processes *)

Context (Hld : trampoline_ok (linker pf)).

Definition fork_ready k (t : TaskControlBlock) : Prop :=
  pid_current (pid_allocator k) < STACK_LIMIT /\ (63 + 3 * length (area_pages (areas (space_of t))) <= size (free_frames (mm k)))%nat.

Lemma fork_handled k c t : kernel_ok pf k -> running k c t -> fork_ready k t -> wp (sys_fork pf) (handled c) k.
Proof.
  intros Hk Hrun [Hlim Hsize]. eapply wp_sys_fork; [done..|]. intros tc k' Hf Hk'. split; [done|].
  destruct (fk_rest _ _ _ _ _ _ Hf) as [-> _]. apply Hrun.
Qed.

(** The path names no application, or a well-formed program that [frames] more frames than
    three for each of its pages suffice for. *)
Definition program_ready k (t : TaskControlBlock) (path : Z) (frames : nat) : Prop :=
  exists name o, translated_str (str_fuel pf) (phys (mm k)) (get_user_token (inner t)) path = Ok name /\
    get_app_data_by_name pf (phys (mm k)) name = Ok o /\
    forall data, o = Some data -> exists elf, parse_elf pf data = Some elf /\ elf_ok elf /\
      (frames + 3 * length (seg_pages (program_segments elf)) <= size (free_frames (mm k)))%nat.

Lemma spawn_handled k c t path :
  kernel_ok pf k -> running k c t -> pid_current (pid_allocator k) < STACK_LIMIT -> program_ready k t path 63 ->
  wp (sys_spawn pf path) (handled c) k.
Proof.
  intros Hk Hrun Hlim (name & o & Hstr & Hdata & Ho). destruct o as [data|].
  - destruct (Ho data eq_refl) as (elf & Hp & He & Hsize). eapply wp_sys_spawn; [done..|]. intros tc k' Hs Hk'. split; [done|].
    destruct (sp_rest _ _ _ _ _ _ _ Hs) as [-> _]. apply Hrun.
  - eapply wp_sys_spawn_none; [done..|]. split; [done|apply Hrun].
Qed.

Lemma exec_handled k c t path :
  kernel_ok pf k -> running k c t -> program_ready k t path 3 -> wp (sys_exec pf path) (handled c) k.
Proof.
  intros Hk Hrun (name & o & Hstr & Hdata & Ho). destruct o as [data|].
  - destruct (Ho data eq_refl) as (elf & Hp & He & Hsize). eapply wp_sys_exec; [done..|]. intros k' Hs Hk'. split; [done|].
    rewrite (xc_same _ _ _ _ _ _ Hs). apply Hrun.
  - eapply wp_sys_exec_none; [done..|]. split; [done|apply Hrun].
Qed.

Lemma child_live k c t j : kernel_ok pf k -> tasks k !! c = Some t -> j ∈ children (inner t) -> is_Some (tasks k !! j) /\ j <> c.
Proof.
  intros Hk Hc Hj. pose proof (ko_tree _ _ Hk) as [Hch Hnd _ _]. pose proof (Hnd c t Hc) as [Hself _]%NoDup_cons.
  destruct (Hch c t j Hc Hj) as (tj & Htj & _). split; [eauto|]. by intros ->.
Qed.

(** Is there a child to reap? *)
Lemma asked_dec k arg l : asked k arg l true \/ ~ asked k arg l true.
Proof.
  destruct (existsb (fun j => match tasks k !! j with Some tj => pid_matches arg (pid tj) && is_zombie (inner tj) | None => false end) l) eqn:E.
  - left. apply existsb_exists in E as (j & Hj%list_elem_of_In & Hm). destruct (tasks k !! j) as [tj|] eqn:Ej; [|done].
    apply andb_true_iff in Hm as [? Hz%bool_decide_eq_true_1]. exists j, tj. done.
  - right. intros (j & tj & Hj & Htj & Hm & Hz). apply not_true_iff_false in E. apply E, existsb_exists. exists j.
    split; [by apply list_elem_of_In|]. rewrite Htj, Hm. cbn. by apply bool_decide_eq_true_2, Hz.
Qed.

Lemma waitpid_handled k c t arg ptr :
  kernel_ok pf k -> running k c t -> (asked k arg (children (inner t)) true -> exists f, user_span (space_of t) ptr 4 f) ->
  wp (sys_waitpid pf arg ptr) (handled c) k.
Proof.
  intros Hk Hrun Hready. pose proof Hrun as [Hcur Hc _]. destruct (asked_dec k arg (children (inner t))) as [Ha|Ha].
  - destruct (Hready Ha) as [f Hf]. eapply wp_waitpid_reaps; [done..|]. intros i z tz k' _ Hre Hk'. split; [done|].
    destruct (re_rest _ _ _ _ _ _ _ _ Hre) as (_ & -> & _). done.
  - apply (wp_waitpid_pending pf k c t); [done|intros j Hj; by eapply child_live|done|by split..].
Qed.

(** ** User memory *)

(** A value that is stored within a page of the process. *)
Lemma store_handled k c t f m :
  kernel_ok pf k -> running k c t -> f ∈ concat (map area_frames (areas (space_of t))) ->
  (forall x, x / PAGE_SIZE <> f -> m x = phys (mm k) x) ->
  kernel_ok pf (set_mm (set_phys m (mm k)) k) /\ running (set_mm (set_phys m (mm k)) k) c t.
Proof.
  intros Hk [Hcur Hc Hb] Hf Hm. split; [by eapply kernel_ok_store|by split].
Qed.

Lemma get_time_handled k c t ts tz f :
  kernel_ok pf k -> running k c t -> user_span (space_of t) ts 16 f -> wp (sys_get_time pf ts tz) (handled c) k.
Proof.
  intros Hk Hrun Hs. pose proof Hrun as [Hcur Hc Hb]. destruct (refmut_span (mm k) (space_of t) ts 16 f (kernel_ok_ms _ _ _ _ Hk Hc) Hs) as (Hpa & Hin & Hf).
  unfold sys_get_time, mem_of, read_time, update_mem. wp_step. eapply wp_current_user_token; [done|]. wp_step. wp_step. wp_step.
  eapply wp_lift; [exact Hpa|]. wp_steps. apply wp_fault_unless; [by eapply span_writes|]. wp_steps. kernel_cbn. set (m := store64 _ _ _). split; [|done].
  apply (kernel_ok_same (set_mm (set_phys m (mm k)) k)); try done. apply (kernel_ok_store pf k c t f); [done..|]. intros x Hx.
  pose proof (user_span_out _ _ _ _ _ Hf Hs Hx). unfold m. rewrite !store64_out by lia. done.
Qed.

Lemma store_u32s_out ws : forall (m : mem) a x, ~ (a <= x < a + 4 * Z.of_nat (length ws)) -> store_u32s m a ws x = m x.
Proof.
  induction ws as [|w ws IH]; intros m a x Hx; [done|]. cbn [store_u32s length] in *. rewrite IH by lia. apply store32_out. lia.
Qed.

(** The offsets of the fields of [TaskInfo] lie within its [n] bytes. *)
Definition task_info_layout (n : Z) : Prop :=
  0 <= ti_status pf < n /\ 0 <= ti_times pf <= n - 4 * MAX_SYSCALL_NUM /\ 0 <= ti_time pf <= n - 8.

Lemma wp_on_current_read {A} k c t (g : TaskControlBlockInner -> A) Q :
  running k c t -> Q (g (inner t)) k -> wp (with_cell CellProcessor (with_current (fun _ t => ret (g t)))) Q k.
Proof.
  intros Hrun HQ. eapply wp_on_current; [done|]. wp_step. destruct Hrun as [_ _ Hb]. by destruct k; cbn in *; subst.
Qed.

Lemma task_info_writes k c t ti n f l :
  kernel_ok pf k -> tasks k !! c = Some t -> f ∈ concat (map area_frames (areas (space_of t))) -> task_info_layout n ->
  user_span (space_of t) ti n f -> length l = Z.to_nat MAX_SYSCALL_NUM ->
  kernel_writes (linker pf) (page_base f + ti mod PAGE_SIZE + ti_status pf) 1 &&
  kernel_writes (linker pf) (page_base f + ti mod PAGE_SIZE + ti_times pf) (4 * Z.of_nat (length (l : list Z))) &&
  kernel_writes (linker pf) (page_base f + ti mod PAGE_SIZE + ti_time pf) 8 = true.
Proof.
  intros Hk Hc Hf (H1 & H2 & H3) (_ & Hn & _) ->. pose proof (Z.mod_pos_bound ti PAGE_SIZE eq_refl).
  rewrite <-!Z.add_assoc. rewrite !andb_true_iff. split_and!; (eapply frame_writes; [exact Hk|exact Hc|exact Hf|lia|unfold MAX_SYSCALL_NUM in *; lia]).
Qed.

Lemma task_info_handled k c t ti n f :
  kernel_ok pf k -> running k c t -> task_info_layout n -> user_span (space_of t) ti n f -> wp (sys_task_info pf ti) (handled c) k.
Proof.
  intros Hk Hrun (Hl1 & Hl2 & Hl3) Hs. pose proof Hrun as [Hcur Hc Hb].
  destruct (refmut_span (mm k) (space_of t) ti n f (kernel_ok_ms _ _ _ _ Hk Hc) Hs) as (Hpa & Hin & Hf).
  destruct (sc_current _ (ko_sched _ _ Hk) c Hcur) as (t' & Ht' & _ & st & Hst). assert (t' = t) as -> by congruence.
  unfold sys_task_info, mem_of. wp_step. eapply wp_current_user_token; [done|]. wp_step. wp_step. wp_step. eapply wp_lift; [exact Hpa|].
  wp_step. eapply wp_on_current_read; [done|]. wp_step. eapply wp_on_current_read; [done|]. wp_step. unfold current_run_time, read_time.
  apply wp_with_cell; [cell_free|]. wp_steps. kernel_cbn. unfold with_current, processor_current. wp_steps. kernel_cbn. rewrite Hcur. cbn [unwrap]. wp_steps.
  apply wp_with_cell; [cell_free|]. wp_step. eapply wp_inner_of; [exact Hc|]. rewrite Hst. cbn [unwrap]. wp_steps.
  apply wp_fault_unless; [apply (task_info_writes k c t ti n f); try done; apply (to_times _ _ _ (ko_tasks _ _ Hk c t Hc))|]. unfold update_mem. wp_steps. kernel_cbn.
  set (m := store64 _ _ _). split; [|done]. apply (kernel_ok_same (set_mm (set_phys m (mm k)) k)); try done.
  apply (kernel_ok_store pf k c t f); [done..|]. intros x Hx. pose proof (user_span_out _ _ _ _ _ Hf Hs Hx) as Hout.
  pose proof (to_times _ _ _ (ko_tasks _ _ Hk c t Hc)) as Hlen. unfold MAX_SYSCALL_NUM in *.
  unfold m. rewrite store64_out by lia. rewrite store_u32s_out by (rewrite Hlen; lia). unfold store8. by destruct (Z.eqb_spec x (page_base f + ti mod PAGE_SIZE + ti_status pf)); [lia|].
Qed.

(** ** The console *)

(** The buffer lies in memory the kernel can read, and each of its pieces is UTF-8. *)
Definition write_ready k (t : TaskControlBlock) (fd buf len : Z) : Prop :=
  fd = FD_STDOUT /\ exists v, translated_byte_buffer (buffer_fuel len) (phys (mm k)) (get_user_token (inner t)) buf len = Ok v /\
    Forall (fun '(a, n) => kernel_maps a n = true /\ is_Some (from_utf8 (load_bytes (phys (mm k)) a n))) v.

Lemma wp_putchars k l Q :
  (forall cs, Q tt (set_console cs k)) -> wp (for_each l console_putchar) Q k.
Proof.
  intros HQ. unfold for_each. eapply wp_mono; [|apply (wp_foldM _ (fun _ _ k' => exists cs, k' = set_console cs k))].
  - intros [] k' [cs ->]. apply HQ.
  - exists (console k). by destruct k.
  - intros dn x rest [] k' _ [cs ->]. unfold console_putchar. wp_step. by eexists.
Qed.

Lemma write_handled k c t fd buf len :
  kernel_ok pf k -> running k c t -> write_ready k t fd buf len -> wp (sys_write fd buf len) (handled c) k.
Proof.
  intros Hk Hrun (-> & v & Hv & Hall). unfold sys_write, mem_of. cbn [Z.eqb Pos.eqb]. wp_step. eapply wp_current_user_token; [done|].
  wp_step. wp_step. wp_step. eapply wp_lift; [exact Hv|]. wp_step. unfold for_each.
  eapply wp_mono; [|apply (wp_foldM _ (fun _ _ k' => exists cs, k' = set_console cs k))].
  - intros [] k' [cs ->]. wp_step. split; [|apply Hrun]. apply (kernel_ok_same k); try done. apply Hk.
  - exists (console k). by destruct k.
  - intros dn [a n] rest [] k' -> [cs ->]. apply Forall_app in Hall as [_ Hall]. apply Forall_cons in Hall as [[Hmaps [str Hstr]] _].
    unfold write_slice, mem_of. wp_step. apply wp_fault_unless; [done|]. wp_step. wp_step. wp_step. kernel_cbn. eapply wp_unwrap; [exact Hstr|]. apply wp_putchars. intros cs'. by exists cs'.
Qed.

Lemma read_loop_handled k c t buf len :
  kernel_ok pf k -> running k c t -> resume_ok (space_of t) (InRead buf len) ->
  wp (sys_read_loop pf buf len) (fun r k' => handled c r k' /\ char_reads k' = S (char_reads k) /\
    (r = Switched -> char_at pf (char_reads k) = 0)) k.
Proof.
  intros Hk Hrun Hr. pose proof Hrun as [Hcur Hc Hb]. pose proof Hr as (-> & Hva & a & f & Ha & Hf). unfold sys_read_loop, console_getchar.
  wp_steps. kernel_cbn. set (k1 := set_char_reads _ k).
  assert (Hk1 : kernel_ok pf k1) by (by apply (kernel_ok_same k)). assert (Hrun1 : running k1 c t) by (by split).
  destruct (Z.eqb_spec (char_at pf (char_reads k)) 0) as [E|E].
  - wp_step. eapply wp_suspend; [done..|]. wp_step. split_and!; [|done|done]. split; [|done]. by eapply kernel_ok_suspended.
  - destruct (user_page_va (mm k) (space_of t) a buf f (kernel_ok_ms _ _ _ _ Hk Hc) (proj1 Hva) Ha Hf) as (Hpa & Hin & Hff).
    wp_step. eapply wp_current_user_token; [exact Hrun1|]. unfold mem_of. wp_step. wp_step. wp_step.
    eapply wp_lift; [by apply byte_buffer_one|]. cbn beta iota. unfold update_mem. wp_step.
    pose proof (Z.mod_pos_bound buf PAGE_SIZE eq_refl). apply wp_fault_unless; [eapply frame_writes; [exact Hk|exact Hc|done|lia|lia]|].
    wp_steps. split_and!; [|done|done]. split; [|done].
    set (m := store8 _ _ _). apply (kernel_ok_store pf k1 c t f); [done..|]. intros x Hx. unfold m, store8.
    destruct (Z.eqb_spec x (page_base f + buf mod PAGE_SIZE)) as [->|]; [|done]. exfalso. apply Hx, page_base_div; [done|].
    apply Z.mod_pos_bound. done.
Qed.

Lemma read_handled k c t fd buf len :
  kernel_ok pf k -> running k c t -> fd = FD_STDIN -> resume_ok (space_of t) (InRead buf len) ->
  wp (sys_read pf fd buf len) (handled c) k.
Proof.
  intros Hk Hrun -> Hr. pose proof Hr as [-> _]. unfold sys_read. cbn [Z.eqb]. wp_step. apply wp_assert; [done|].
  eapply wp_mono; [|by apply (read_loop_handled k c t)]. by intros r k' [? _].
Qed.

(** ** Mapping *)

(** The arguments are refused, or the range ends before the last page and there are frames
    enough. *)
Definition mmap_ready k (start len port : Z) : Prop :=
  0 <= port < 2 ^ 64 /\ ((start mod PAGE_SIZE <> 0 \/ port = 0 \/ 8 <= port) \/
  (0 <= start /\ 0 <= len <= 2 ^ 38 /\ start + len <= 2 ^ 64 - PAGE_SIZE /\
   (3 * length (range_items (va_range start (start + len))) <= size (free_frames (mm k)))%nat)).

Lemma mapped_user_space s ms cx area tables a pt' s' :
  user_space_ok (linker pf) (phys s) ms cx ->
  (forall p, p ∈ range_items (vpn_range area) -> mapping (phys s) (page_table ms) p = None) ->
  area_mapped s (page_table ms) area (range_items (vpn_range area)) tables (a, pt') s' ->
  user_space_ok (linker pf) (phys s') (mk_ms pt' (vec_push (areas ms) a)) cx.
Proof.
  intros [Ht Ha (b & Hb & Hcx) Ho] Hnone Ham.
  assert (Hna : ~ aliases TRAMPOLINE_vpn (range_items (vpn_range area))).
  { intros (p & Hp & He). pose proof (Hnone p Hp) as Hn. rewrite <-(mapping_slot _ _ _ _ He), Ht in Hn. done. }
  assert (Hpages : area_pages (vec_push (areas ms) a) = area_pages (areas ms) ++ range_items (vpn_range area)).
  { unfold vec_push. rewrite area_pages_snoc. do 2 f_equal. pose proof (am_area _ _ _ _ _ _ _ Ham) as Haa. cbn in Haa. by rewrite Haa. }
  split; cbn [page_table areas]; rewrite ?Hpages.
  - rewrite (am_other _ _ _ _ _ _ _ Ham) by done. done.
  - intros (p & [Hp|Hp]%elem_of_app & He); [apply Ha|apply Hna]; by exists p.
  - exists b. split; [|done]. apply elem_of_vec_push. by left.
  - intros v Hv. rewrite (am_other _ _ _ _ _ _ _ Ham).
    + apply Ho. intros (p & [->|Hp]%elem_of_cons & He); apply Hv; eexists; (split; [|exact He]); [by left|right; apply elem_of_app; by left].
    + intros (p & Hp & He). apply Hv. exists p. split; [right; apply elem_of_app; by right|done].
Qed.

Lemma insert_handled k c t start len port :
  kernel_ok pf k -> running k c t -> 0 <= start -> 0 <= len <= 2 ^ 38 -> start + len <= 2 ^ 64 - PAGE_SIZE -> 1 <= port <= 7 ->
  (forall p, p ∈ range_items (va_range start (start + len)) -> mapping (phys (mm k)) (page_table (space_of t)) p = None) ->
  (3 * length (range_items (va_range start (start + len))) <= size (free_frames (mm k)))%nat ->
  wp (insert_framed_area (space_of t) start (start + len) (mmap_perm port))
    (fun ms s => kernel_ok pf (alter_task c (set_memory_set ms) (set_mm s k))) (mm k).
Proof.
  intros Hk Hrun Hs Hl He Hp Hnone Hsize. pose proof Hrun as [Hcur Hc Hb]. pose proof (running_status _ _ _ _ Hk Hrun) as Hst.
  unfold insert_framed_area. wp_step. eapply wp_lift; [apply MapArea_new_ok; lia|]. set (area := mk_area _ [] Framed (mmap_perm port)).
  destruct (mmap_perm_ok port Hp) as (_ & _ & Hu8). assert (Hr : range_ok (vpn_range area)) by (by apply va_range_ok).
  eapply wp_mono; [|apply (wp_push_framed (mm k) (space_of t) area); [by eapply kernel_ok_ms|done..]].
  intros ms s (a & tables & Hareas & Hms & Ham). destruct ms as [pt l]. cbn [areas page_table] in *. subst l.
  pose proof (am_grows _ _ _ _ _ _ _ Ham) as Hg. pose proof (ms_frames_push (page_table (space_of t)) (areas (space_of t)) a pt tables (am_frames _ _ _ _ _ _ _ Ham)) as Hfr.
  replace (mk_ms (page_table (space_of t)) (areas (space_of t))) with (space_of t) in Hfr by (by destruct (space_of t)).
  destruct (spaces_ok_step (lo := frame_floor pf) (mm k) [space_of t] [mk_ms pt (vec_push (areas (space_of t)) a)] (other_spaces k c) (pt_frames (page_table (space_of t))) (tables ++ area_frames a) [] s) as [Hsp Hbs].
  { cbn. rewrite <-(kernel_spaces_split k c t Hc). apply Hk. }
  { by eapply changes_grows. }
  { intros p Hpf. unfold space_frames. cbn. rewrite app_nil_r. by apply ms_table_frame. }
  { by intros p []%not_elem_of_nil. }
  { by apply Forall_singleton. }
  { unfold space_frames. cbn. rewrite app_nil_r. apply Hms. }
  { intros p. unfold space_frames. cbn. rewrite !app_nil_r, Hfr, elem_of_app. auto. }
  pose proof (ko_tasks _ _ Hk c t Hc) as [? ? ? Hus Hz ?].
  eapply (kernel_ok_replace pf k c t (set_memory_set _) Hk Hc); [by split|exact Hsp|eapply same_bytes_maps; [by eapply other_spaces_ok|done]|].
  split; try done; cbn; [|by rewrite Hst|by rewrite Hst]. intros Hnz. eapply (mapped_user_space (mm k) (space_of t) _ area); [by apply Hus|exact Hnone|exact Ham].
Qed.

Lemma mmap_handled k c t start len port :
  kernel_ok pf k -> running k c t -> mmap_ready k start len port -> wp (sys_mmap start len port) (handled c) k.
Proof.
  intros Hk Hrun [Hport Hready]. pose proof Hrun as [Hcur Hc Hb]. unfold sys_mmap. wp_step.
  destruct (decide (start mod PAGE_SIZE <> 0 \/ port = 0 \/ 8 <= port)) as [Hbad|Hgood].
  { eapply wp_mmap_bad_args; [done..|]. by wp_step. }
  destruct Hready as [?|(Hs & Hl & He & Hsize)]; [done|]. eapply wp_mmap_checked; [done|lia..|lia|lia|].
  destruct (any_mapped _ _ _) eqn:E; [by wp_step|]. eapply wp_mono; [|apply (insert_handled k c t start len port); try done; [lia|]].
  - intros ms s Hk'. wp_step. by split.
  - by apply any_mapped_false.
Qed.

(** The calls of [munmap] that change nothing. *)
Definition munmap_ready k (t : TaskControlBlock) (start len : Z) : Prop :=
  start mod PAGE_SIZE <> 0 \/ (0 <= start /\ 0 <= len /\ start + len <= 2 ^ 64 - PAGE_SIZE /\
    any_unmapped (phys (mm k)) (space_of t) (range_items (va_range start (start + len))) = true).

Lemma munmap_handled k c t start len :
  kernel_ok pf k -> running k c t -> munmap_ready k t start len -> wp (sys_munmap start len) (handled c) k.
Proof.
  intros Hk Hrun Hready. pose proof Hrun as [Hcur Hc Hb]. unfold sys_munmap. wp_step.
  destruct (decide (start mod PAGE_SIZE = 0)) as [Hal|Hal].
  - destruct Hready as [?|(Hs & Hl & He & Hu)]; [done|]. eapply wp_munmap_checked; [done..|]. unfold space_of in Hu. rewrite Hu. by wp_step.
  - apply wp_with_cell; [cell_free|]. unfold processor_task_munmap. rewrite VirtAddr_aligned_mod.
    destruct (Z.eqb_spec (start mod PAGE_SIZE) 0); [done|]. wp_steps. split; [|done]. by apply (kernel_ok_same k).
Qed.

End Handlers.
