(* ===== verification/SystemSpec.v ===== *)
(** * The whole kernel

    The traps of user programs, the handlers and the idle loop together: from a state in
    which the invariant of the kernel holds and a process runs, every trap that is not
    fatal leads to such a state again, whatever the programs do in their own memory in
    between; and a program reaches only memory of its own process. *)

From S2P Require Import Prelude Config Address PhysMem FrameAllocator PageTable PageTableSpec UserAccess.
From S2P Require Import MemorySet MemorySetSpec ForkSpec SpaceSpec ElfSpec Timer Pid Utf8 Kernel Manager Task Loader.
From S2P Require Import Processor Syscall Trap KernelSpec SchedulerSpec MmapSpec LifecycleSpec KernelStackSpec KernelInv ProcessSpec.
From S2P Require Import UserMemSpec SysForkSpec SysSpawnSpec SysExecSpec WaitSpec ExitSpec ScheduleSpec HandlerSpec.

Section System.
Context {T : Type} `{FrameAllocatorSpec T}.
Implicit Types (s : MmState T) (k : Kernel T).
Context (pf : Platform).

(** ** Calls that do not make the kernel panic *)

Definition call_ready k (c : Z) (t : TaskControlBlock) (id a0 a1 a2 : Z) : Prop :=
  if id =? SYSCALL_READ then a0 = FD_STDIN /\ resume_ok (space_of t) (InRead a1 a2)
  else if id =? SYSCALL_WRITE then write_ready k t a0 a1 a2
  else if id =? SYSCALL_EXIT then initproc k <> Some c
  else if id =? SYSCALL_YIELD then True
  else if id =? SYSCALL_GETPID then True
  else if id =? SYSCALL_FORK then fork_ready k t
  else if id =? SYSCALL_EXEC then program_ready pf k t a0 3
  else if id =? SYSCALL_WAITPID then exists f, user_span (space_of t) a1 4 f
  else if id =? SYSCALL_GET_TIME then exists f, user_span (space_of t) a0 16 f
  else if id =? SYSCALL_MMAP then mmap_ready k a0 a1 a2
  else if id =? SYSCALL_MUNMAP then munmap_ready k t a0 a1
  else if id =? SYSCALL_SET_PRIORITY then as_isize a0 < 2 ^ 63
  else if id =? SYSCALL_TASK_INFO then exists n f, task_info_layout pf n /\ user_span (space_of t) a0 n f
  else if id =? SYSCALL_SPAWN then pid_current (pid_allocator k) < STACK_LIMIT /\ program_ready pf k t a0 63
  else False.

(** It depends on the process only through its address space. *)
Lemma call_ready_keep k c t id a0 a1 a2 k' t' :
  k' = set_tasks (tasks k') k -> keeps_process (inner t) (inner t') ->
  call_ready k c t id a0 a1 a2 -> call_ready k' c t' id a0 a1 a2.
Proof.
  intros Hk' [_ _ Hsp _ _ _ _]. assert (Hs : space_of t' = space_of t) by done. rewrite Hk'.
  unfold call_ready, write_ready, fork_ready, program_ready, munmap_ready, mmap_ready, get_user_token. rewrite Hs, Hsp. kernel_cbn. done.
Qed.

Context (Hld : trampoline_ok (linker pf)).

(** The dispatcher. *)
Lemma syscall_handled k c t id a0 a1 a2 :
  kernel_ok pf k -> running k c t -> call_ready k c t id a0 a1 a2 -> wp (syscall pf id a0 a1 a2) (handled pf c) k.
Proof.
  intros Hk Hrun Hcall. unfold syscall. wp_step. eapply (wp_count_syscall pf); [done..|]. intros t' Hkeep k' Hk' Hrun' Hok.
  eapply call_ready_keep in Hcall; [|done..]. unfold call_ready in Hcall. clear Hkeep Hk'.
  repeat match type of Hcall with if ?b then _ else _ => destruct b end.
  - destruct Hcall. by eapply read_handled.
  - by eapply write_handled.
  - by eapply exit_handled.
  - by eapply yield_handled.
  - by eapply getpid_handled.
  - by eapply fork_handled.
  - by eapply exec_handled.
  - eapply waitpid_handled; [done..|]. intros _. done.
  - destruct Hcall as [f Hf]. by eapply get_time_handled.
  - by eapply mmap_handled.
  - by eapply munmap_handled.
  - by eapply set_priority_handled.
  - destruct Hcall as (n & f & Hl & Hs). by eapply task_info_handled.
  - destruct Hcall. by eapply spawn_handled.
  - done.
Qed.

(** ** Traps *)

Lemma wp_current_trap_cx k c t Q : running k c t -> Q (get_trap_cx (inner t)) k -> wp current_trap_cx Q k.
Proof.
  intros [Hcur Hc Hb] HQ. unfold current_trap_cx. wp_step. eapply wp_current_task; [done..|]. wp_step. eapply wp_unwrap; [done|].
  apply wp_with_cell; [cell_free|]. wp_step. eapply wp_inner_of; [exact Hc|]. wp_step. kernel_cbn. by destruct k.
Qed.

(** A word of the trap context of a process. *)
Definition cx_reg k (t : TaskControlBlock) (i : Z) : Z := load64 (phys (mm k)) (cx_word (get_trap_cx (inner t)) i).

(** The kernel after a word of the trap context of the running process is written. *)
Definition with_cx_word k (t : TaskControlBlock) (i v : Z) : Kernel T :=
  set_mm (set_phys (store64 (phys (mm k)) (cx_word (get_trap_cx (inner t)) i) v) (mm k)) k.

Lemma cx_word_ok k c t i v :
  kernel_ok pf k -> running k c t -> 0 <= i < 512 -> kernel_ok pf (with_cx_word k t i v) /\ running (with_cx_word k t i v) c t.
Proof.
  intros Hk Hrun Hi. pose proof (running_live _ _ _ _ Hk Hrun) as Hz. pose proof Hrun as [_ Hc _].
  destruct (us_cx _ _ _ _ (to_space _ _ _ (ko_tasks _ _ Hk c t Hc) Hz)) as (a & Ha & Hcx & _). pose proof (in_data_frames _ _ _ _ Ha Hcx) as Hin.
  pose proof (ms_data_frames _ _ (kernel_ok_ms _ _ _ _ Hk Hc)) as Hfr. rewrite Forall_forall in Hfr.
  eapply store_handled; [done..|]. intros x Hx. apply store_word_page; [by apply Hfr|done|done].
Qed.

Lemma wp_load_cx k t i Q : Q (cx_reg k t i) k -> wp (load_cx (get_trap_cx (inner t)) i) Q k.
Proof. intros HQ. unfold load_cx, mem_of. by wp_steps. Qed.

Lemma wp_store_cx k t i v Q : Q tt (with_cx_word k t i v) -> wp (store_cx (get_trap_cx (inner t)) i v) Q k.
Proof. intros HQ. unfold store_cx, update_mem. by wp_steps. Qed.

Lemma wp_finish_syscall k c t v Q :
  kernel_ok pf k -> running k c t -> (forall k', kernel_ok pf k' -> running k' c t -> char_reads k' = char_reads k -> Q tt k') ->
  wp (finish_syscall v) Q k.
Proof.
  intros Hk Hrun HQ. unfold finish_syscall, store_cx, update_mem. wp_step. eapply wp_current_trap_cx; [done|]. wp_step.
  destruct (cx_word_ok k c t CX_A0 (as_usize v) Hk Hrun) as [Hk' Hrun']; [unfold CX_A0; lia|]. by apply HQ.
Qed.

(** The kernel when the handler of a system call runs: [sepc] is advanced. *)
Definition entered k (t : TaskControlBlock) : Kernel T := with_cx_word k t CX_SEPC (cx_reg k t CX_SEPC +% 4).

(** A trap the kernel survives: a system call that is ready when [sepc] is advanced, a
    fault or an illegal instruction of a process other than [INITPROC], or the timer. *)
Definition fatal (cause : Trap) : bool :=
  match cause with
  | UserEnvCall | SupervisorTimer | OtherTrap => false
  | _ => true
  end.

Inductive trap_ready k (c : Z) (t : TaskControlBlock) : Trap -> Prop :=
| ready_call :
    call_ready (entered k t) c t (cx_reg (entered k t) t 17) (cx_reg (entered k t) t 10) (cx_reg (entered k t) t 11)
      (cx_reg (entered k t) t 12) -> trap_ready k c t UserEnvCall
| ready_fault cause : fatal cause = true -> initproc k <> Some c -> trap_ready k c t cause
| ready_timer : trap_ready k c t SupervisorTimer.

Lemma wp_ecall k c t Q :
  running k c t ->
  wp (syscall pf (cx_reg (entered k t) t 17) (cx_reg (entered k t) t 10) (cx_reg (entered k t) t 11) (cx_reg (entered k t) t 12)) (fun r k' =>
    wp (match r with Return result => finish_syscall result ;; ret true | Switched => ret false end) Q k') (entered k t) ->
  wp (trap_handler pf UserEnvCall) Q k.
Proof.
  intros Hrun HQ. unfold trap_handler. wp_step. eapply wp_current_trap_cx; [exact Hrun|]. wp_step. apply wp_load_cx.
  wp_step. apply wp_store_cx. do 4 (wp_step; apply wp_load_cx). wp_step. exact HQ.
Qed.

(** What the handler of a trap leaves behind. *)
Definition trapped (c : Z) (back : bool) k : Prop := kernel_ok pf k /\ current k = if back then Some c else None.

Lemma call_finished k c r :
  handled pf c r k -> wp (match r with Return result => finish_syscall result ;; ret true | Switched => ret false end) (trapped c) k.
Proof.
  intros [Hk Hcur]. destruct r as [v|]; [|by apply wp_ret]. destruct (kernel_running pf k c Hk Hcur) as [t Hrun].
  wp_step. eapply wp_finish_syscall; [done..|]. intros k' Hk' Hrun' _. wp_step. split; [done|apply Hrun'].
Qed.

Lemma trap_handled k c t cause :
  kernel_ok pf k -> running k c t -> trap_ready k c t cause -> wp (trap_handler pf cause) (trapped c) k.
Proof.
  intros Hk Hrun Hready. pose proof Hrun as [Hcur Hc Hb]. destruct Hready as [Hcall|cause Hfatal Hne|].
  - destruct (cx_word_ok k c t CX_SEPC (cx_reg k t CX_SEPC +% 4) Hk Hrun) as [Hk1 Hrun1]; [unfold CX_SEPC; lia|].
    apply (wp_ecall k c t _ Hrun). eapply wp_mono; [|exact (syscall_handled _ c t _ _ _ _ Hk1 Hrun1 Hcall)].
    intros r k' Hh. by apply call_finished.
  - assert (Hexit : forall code, wp (exit_current_and_run_next code) (fun _ => trapped c false) k).
    { intros code. eapply wp_exit_ok; [done..|]. intros init ti k' _ Hex Hk'. split; [done|]. by rewrite (ex_same _ _ _ _ _ _ _ Hex). }
    destruct cause; try done; unfold trap_handler; wp_step;
      try (eapply wp_current_trap_cx; [done|]; wp_step; apply wp_load_cx; wp_step);
      (eapply wp_mono; [|apply Hexit]); intros [] k' Hk'; by apply wp_ret.
  - unfold trap_handler, read_time. wp_steps. set (k1 := set_timer_ _ _). assert (Hk1 : kernel_ok pf k1) by (by apply (kernel_ok_same pf k)).
    assert (Hrun1 : running k1 c t) by (by split). eapply wp_suspend; [done..|]. wp_step.
    split; [|done]. by eapply kernel_ok_suspended.
Qed.

(** ** The idle loop *)

(** The console has a character at the latest at the [d]-th of any polls in a row. *)
Definition console_live (d : nat) : Prop := forall n, exists j, (j <= d)%nat /\ char_at pf (n + j) <> 0.

(** Back in user mode. *)
Definition in_user_mode (r : option (Z * Z)) k : Prop :=
  exists c t, r = Some (get_user_token (inner t), TRAP_CONTEXT) /\ kernel_ok pf k /\ running k c t.

Lemma back_handled k c : kernel_ok pf k -> current k = Some c -> wp (let* r := trap_return in ret (Some r)) in_user_mode k.
Proof.
  intros Hk Hcur. destruct (kernel_running pf k c Hk Hcur) as [t Hrun]. pose proof Hrun as [_ Hc Hb].
  wp_step. eapply wp_trap_return; [done..|]. wp_step. by exists c, t.
Qed.

(** A dispatched process goes on to user mode, or waits for the console again. *)
Lemma resume_handled k c t :
  kernel_ok pf k -> running k c t -> resume_ok (space_of t) (kstack (inner t)) ->
  wp (resume_task pf c) (fun back k' => kernel_ok pf k' /\
    if back : bool then current k' = Some c
    else current k' = None /\ char_reads k' = S (char_reads k) /\ char_at pf (char_reads k) = 0) k.
Proof.
  intros Hk Hrun Hre. pose proof Hrun as [Hcur Hc Hb]. unfold resume_task. wp_step. eapply wp_inner_of; [exact Hc|].
  destruct (kstack (inner t)) as [| | |buf len]; [by wp_step| |by wp_step|].
  - wp_step. eapply wp_finish_syscall; [done..|]. intros k' Hk' Hrun' _. wp_step. split; [done|apply Hrun'].
  - wp_step. eapply wp_mono; [|by apply (read_loop_handled pf k c t)]. intros [v|] k2 ([Hk2 Hcur2] & Hcr & Hz); [|wp_step; auto].
    destruct (kernel_running pf k2 c Hk2 Hcur2) as [t2 Hrun2]. wp_step. eapply wp_finish_syscall; [done..|].
    intros k3 Hk3 Hrun3 _. wp_step. split; [done|apply Hrun3].
Qed.

Lemma run_tasks_handled d : forall k,
  kernel_ok pf k -> current k = None -> (exists j, (j <= d)%nat /\ char_at pf (char_reads k + j) <> 0) ->
  wp (run_tasks pf (S d)) in_user_mode k.
Proof.
  induction d as [|d IH]; intros k Hk Hcur (j & Hj & Hch);
    cbn [run_tasks]; wp_step; (eapply wp_round_ok; [done|done|]); intros c t k' Hk' Hrun Hre Hcr; wp_step;
    (eapply wp_mono; [|by apply (resume_handled k' c t)]); intros [] k2 [Hk2 Hback]; try (by eapply back_handled);
    destruct Hback as (Hcur2 & Hcr2 & Hz); rewrite Hcr in *.
  - exfalso. apply Hch. replace j with 0%nat by lia. by rewrite Nat.add_0_r.
  - apply IH; [done..|]. destruct j as [|j]; [exfalso; apply Hch; by rewrite Nat.add_0_r|].
    exists j. split; [lia|]. by rewrite Hcr2, Nat.add_succ_comm.
Qed.

Lemma kernel_step_handled d k c t cause :
  console_live d -> kernel_ok pf k -> running k c t -> trap_ready k c t cause -> wp (kernel_step pf (S d) cause) in_user_mode k.
Proof.
  intros Hlive Hk Hrun Hready. unfold kernel_step. wp_step. eapply wp_mono; [|by apply (trap_handled k c t)].
  intros [] k' [Hk' Hcur]; [by eapply back_handled|]. by apply run_tasks_handled.
Qed.

(** ** Isolation *)

(** The [U] flag of an entry. *)
Definition pte_user (bits : Z) : bool := negb (Z.land (pte_flags bits) PTE_U =? 0).

(** The physical addresses that the page table lets user code reach. *)
Definition user_reach (m : mem) (ms : MemorySet) (x : Z) : Prop :=
  exists va bits, 0 <= va /\ mapping m (page_table ms) (VirtAddr_floor va) = Some bits /\ pte_user bits = true /\
    x = page_base (pte_ppn bits) + va mod PAGE_SIZE.

(** What user code reaches is a data page of an area with [U]. *)
Lemma user_reach_area s ms cx x :
  ms_ok s ms -> user_space_ok (linker pf) (phys s) ms cx -> user_reach (phys s) ms x ->
  exists a v, a ∈ areas ms /\ (v, x / PAGE_SIZE) ∈ data_frames a /\ pte_user (area_pte a (x / PAGE_SIZE)) = true.
Proof.
  intros Hms [Ht Ha _ Ho] (va & bits & Hva & Hmap & Hu & ->).
  destruct (decide (VirtAddr_floor va mod 2 ^ 27 = TRAMPOLINE_vpn mod 2 ^ 27)) as [He|He].
  { exfalso. rewrite (mapping_slot _ _ _ _ He), Ht in Hmap. injection Hmap as <-. unfold trampoline_pte, pte_user in Hu.
    destruct Hld as [? _]. rewrite pte_flags_new in Hu; [done|unfold PAGE_SIZE; zdm|done]. }
  destruct (decide (Exists (fun p => VirtAddr_floor va mod 2 ^ 27 = p mod 2 ^ 27) (area_pages (areas ms)))) as [Hin|Hin].
  - apply Exists_exists in Hin as (p & Hp & Hpe). apply elem_of_concat_map in Hp as (a & Hain & Hp).
    destruct (ms_ok_area _ _ _ Hms Hain) as (Hfa & Hua & _). destruct (framed_ok_page _ _ _ _ Hfa Hp) as (f & Hf & Hmf).
    destruct (framed_frame _ _ _ _ (pt_ok_inv _ _ (mo_pt _ _ Hms)) Hua Hf) as [Hff _].
    rewrite (mapping_slot _ _ _ _ Hpe), Hmf in Hmap. injection Hmap as <-. rewrite area_pte_ppn by (done || apply Hfa).
    rewrite page_base_div by (done || by apply Z.mod_pos_bound). by exists a, p.
  - rewrite Ho in Hmap; [done|]. intros (p & [->|Hp]%elem_of_cons & Hpe); [done|]. apply Hin, Exists_exists. eauto.
Qed.

Lemma user_reach_own s ms cx x :
  ms_ok s ms -> user_space_ok (linker pf) (phys s) ms cx -> user_reach (phys s) ms x ->
  x / PAGE_SIZE ∈ concat (map area_frames (areas ms)).
Proof. intros Hms Hus Hx. destruct (user_reach_area _ _ _ _ Hms Hus Hx) as (a & v & Ha & Hv & _). by eapply in_data_frames. Qed.

(** The trap context is out of reach. *)
Lemma user_reach_not_cx s ms cx x :
  ms_ok s ms -> user_space_ok (linker pf) (phys s) ms cx -> user_reach (phys s) ms x -> x / PAGE_SIZE <> cx.
Proof.
  intros Hms Hus Hx ->%eq_sym. destruct (user_reach_area _ _ _ _ Hms Hus Hx) as (a & v & Ha & Hv & Hu).
  destruct (us_cx _ _ _ _ Hus) as (b & Hb & Hcx & Hp). assert (v = TRAP_CONTEXT_vpn) as -> by (by eapply (data_frame_once s ms a b)).
  destruct (ms_ok_area _ _ _ Hms Ha) as (Hfa & Hua & _). destruct (ms_ok_area _ _ _ Hms Hb) as (Hfb & _).
  pose proof (fo_map _ _ _ Hfa _ _ Hv) as H1. rewrite (fo_map _ _ _ Hfb _ _ Hcx) in H1. injection H1 as H1.
  destruct (framed_frame _ _ _ _ (pt_ok_inv _ _ (mo_pt _ _ Hms)) Hua Hv) as [Hff _]. unfold is_frame in Hff.
  rewrite <-H1 in Hu. unfold pte_user, area_pte in Hu. rewrite Hp, pte_flags_new in Hu; [done|lia|done].
Qed.

(** What user code of one process reaches belongs to nothing else. *)
Record own_memory k (i x : Z) : Prop := {
  om_frame : frame_floor pf <= x / PAGE_SIZE /\ x / PAGE_SIZE ∉ free_frames (mm k);
  om_kernel : x / PAGE_SIZE ∉ ms_frames (framed_part (kernel_space k));
  om_tables j tj : tasks k !! j = Some tj -> x / PAGE_SIZE ∉ pt_frames (page_table (space_of tj));
  om_context j tj : tasks k !! j = Some tj -> task_status (inner tj) <> Zombie -> x / PAGE_SIZE <> trap_cx_ppn (inner tj);
  om_data j tj : tasks k !! j = Some tj -> x / PAGE_SIZE ∈ concat (map area_frames (areas (space_of tj))) -> j = i;
  om_reach j tj : tasks k !! j = Some tj -> task_status (inner tj) <> Zombie -> user_reach (phys (mm k)) (space_of tj) x -> j = i
}.

(** Two address spaces share no frame. *)
Lemma spaces_apart k i ti j tj f :
  kernel_ok pf k -> tasks k !! i = Some ti -> tasks k !! j = Some tj -> f ∈ ms_frames (space_of ti) -> f ∈ ms_frames (space_of tj) -> j = i.
Proof.
  intros Hk Hi Hj Hf Hf'. destruct (decide (j = i)) as [|Hne]; [done|]. exfalso. pose proof (so_nodup _ _ (ko_spaces _ _ Hk)) as Hnd.
  rewrite (kernel_spaces_split k i ti Hi) in Hnd. unfold space_frames in Hnd. cbn in Hnd. apply NoDup_app in Hnd as (_ & Hd & _).
  apply (Hd _ Hf). apply elem_of_app. right. apply elem_of_space_frames. exists (space_of tj). split; [|done].
  apply elem_of_values. exists j, tj. by rewrite lookup_delete_ne by congruence.
Qed.

Lemma user_reach_isolated k i ti x :
  kernel_ok pf k -> tasks k !! i = Some ti -> task_status (inner ti) <> Zombie -> user_reach (phys (mm k)) (space_of ti) x -> own_memory k i x.
Proof.
  intros Hk Hi Hz Hx. pose proof (kernel_ok_ms _ _ _ _ Hk Hi) as Hms. pose proof (ko_spaces _ _ Hk) as Hsp.
  pose proof (to_space _ _ _ (ko_tasks _ _ Hk i ti Hi) Hz) as Hus. pose proof (user_reach_own _ _ _ _ Hms Hus Hx) as Hown.
  assert (Hsame : forall j tj, tasks k !! j = Some tj -> x / PAGE_SIZE ∈ concat (map area_frames (areas (space_of tj))) -> j = i).
  { intros j tj Hj Hf. eapply (spaces_apart k i ti j tj); [done..|by apply ms_frames_areas|by apply ms_frames_areas]. }
  split.
  - split.
    + apply (so_above _ _ Hsp). right. apply elem_of_space_frames. exists (space_of ti). split; [by eapply kernel_space_task|by apply ms_frames_areas].
    + apply in_use_not_free; [apply Hsp|]. pose proof (mo_use _ _ Hms) as Hu. rewrite Forall_forall in Hu. by apply Hu, ms_frames_areas.
  - pose proof Hsp as [_ _ Hnd _]. rewrite (kernel_spaces_split k i ti Hi) in Hnd. unfold space_frames in Hnd. cbn in Hnd.
    apply NoDup_app in Hnd as (_ & Hd & _). intros Hf. apply (Hd _ (ms_frames_areas _ _ Hown)). apply elem_of_app. by left.
  - intros j tj Hj. eapply (data_frame_no_table _ (kernel_spaces k) (space_of ti)); [done|by eapply kernel_space_task|done|by eapply kernel_space_task].
  - intros j tj Hj Hzj He. pose proof (to_space _ _ _ (ko_tasks _ _ Hk j tj Hj) Hzj) as Husj.
    destruct (us_cx _ _ _ _ Husj) as (b & Hb & Hcx & _).
    assert (j = i) as -> by (apply (Hsame j tj Hj); rewrite He; by eapply in_data_frames).
    assert (tj = ti) as -> by congruence. by apply (user_reach_not_cx _ _ _ _ Hms Hus Hx).
  - exact Hsame.
  - intros j tj Hj Hzj Hr. apply (Hsame j tj Hj). eapply user_reach_own; [by eapply kernel_ok_ms| |done].
    apply (to_space _ _ _ (ko_tasks _ _ Hk j tj Hj) Hzj).
Qed.

(** ** Runs of the system *)

(** User code of the running process writes where its page table lets it, and the entry
    into the kernel saves registers in its trap context; then it traps. *)
Inductive sys_step (d : nat) k : Kernel T -> Prop :=
| step_user c t m :
    running k c t -> (forall x, m x <> phys (mm k) x -> user_reach (phys (mm k)) (space_of t) x \/ x / PAGE_SIZE = trap_cx_ppn (inner t)) ->
    sys_step d k (set_mm (set_phys m (mm k)) k)
| step_trap c t cause r k' :
    running k c t -> trap_ready k c t cause -> kernel_step pf (S d) cause k = Ok (r, k') -> sys_step d k k'.

Lemma sys_step_ok d k k' :
  console_live d -> kernel_ok pf k -> sys_step d k k' -> kernel_ok pf k' /\ is_Some (current k').
Proof.
  intros Hlive Hk [c t m Hrun Hm|c t cause r k'' Hrun Hready Hstep].
  - pose proof Hrun as [Hcur Hc Hb]. split; [|by exists c]. apply kernel_ok_write; [done|]. intros x Hx. exists (space_of t).
    split; [by eapply kernel_space_task|]. pose proof (to_space _ _ _ (ko_tasks _ _ Hk c t Hc) (running_live _ _ _ _ Hk Hrun)) as Hus.
    destruct (Hm x Hx) as [Hr|Hr]; [by eapply user_reach_own; [eapply kernel_ok_ms| |]|]. rewrite Hr.
    destruct (us_cx _ _ _ _ Hus) as (a & Ha & Hcx & _). by eapply in_data_frames.
  - pose proof (kernel_step_handled d k c t cause Hlive Hk Hrun Hready) as Hw. unfold wp in Hw. rewrite Hstep in Hw.
    destruct Hw as (c' & t' & _ & Hk'' & Hrun''). split; [done|]. exists c'. apply Hrun''.
Qed.

Lemma sys_steps_ok d k k' :
  console_live d -> kernel_ok pf k -> is_Some (current k) -> rtc (sys_step d) k k' -> kernel_ok pf k' /\ is_Some (current k').
Proof.
  intros Hlive Hk Hcur Hsteps. induction Hsteps as [|k k1 k2 Hs _ IH]; [done|].
  destruct (sys_step_ok d k k1 Hlive Hk Hs) as [Hk1 Hc1]. by apply IH.
Qed.


End System.
