(* ===== verification/BootSpec.v ===== *)
(** * Start-up

    [rust_main] sets up frames and the kernel's address space, passes [remap_test], makes
    [INITPROC] and enters user mode; the invariant of the kernel holds then. *)

From S2P Require Import Prelude Config Address PhysMem FrameAllocator PageTable PageTableSpec UserAccess.
From S2P Require Import MemorySet MemorySetSpec ForkSpec SpaceSpec ElfSpec Timer Pid Utf8 Kernel Manager Task Loader.
From S2P Require Import Processor Syscall Trap Boot KernelSpec SchedulerSpec MmapSpec LifecycleSpec KernelStackSpec KernelSpaceSpec.
From S2P Require Import KernelInv ProcessSpec UserMemSpec SysSpawnSpec ExitSpec ScheduleSpec HandlerSpec SystemSpec.

Section FirstProcess.
Context {T : Type} `{FrameAllocatorSpec T}.
Implicit Types (s : MmState T) (k : Kernel T).
Context (pf : Platform).
Hypothesis Hld : trampoline_ok (linker pf).

(** A kernel without processes. *)
Record kernel_blank k : Prop := {
  kb_free : borrowed k = [];
  kb_tasks : tasks k = ∅;
  kb_sched : ready_queue k = [] /\ current k = None;
  kb_pids : pids_ok (pid_allocator k) [] /\ pid_current (pid_allocator k) < STACK_LIMIT;
  kb_stacks : kspace_ok (mm k) (kernel_space k) [];
  kb_above p : p ∈ free_frames (mm k) \/ p ∈ ms_frames (framed_part (kernel_space k)) -> frame_floor pf <= p;
  kb_image : sdata (linker pf) <= frame_floor pf * PAGE_SIZE
}.

Lemma blank_spaces k : kernel_blank k -> spaces_ok (frame_floor pf) (mm k) (kernel_spaces k).
Proof.
  intros [_ Ht _ _ Hks Hab _]. unfold kernel_spaces. rewrite Ht. unfold values. rewrite map_to_list_empty. cbn.
  pose proof (kk_ms _ _ _ Hks) as Hms. split; [apply Hms|by apply Forall_singleton|..]; unfold space_frames; cbn; rewrite app_nil_r; [apply Hms|done].
Qed.

(** The fields of the first process. *)
Definition first_inner (ms : MemorySet) (cx sp top : Z) : TaskControlBlockInner :=
  {| trap_cx_ppn := cx; base_size := sp; task_cx := goto_trap_return (trap_return_addr pf) top;
     task_status := Ready; memory_set := ms; parent := None; children := []; exit_code := 0;
     pass := 0; priority := 16; syscall_times := repeat 0 (Z.to_nat MAX_SYSCALL_NUM); start_time := None;
     kstack := ToTrapReturn |}.

(** Its pid, its kernel stack and its address space. *)
Record first_ready k (elf : ElfFile) (ms : MemorySet) (cx p : Z) s (ks : MemorySet) (a : PidAllocator) : Prop := {
  fr_limit : 0 <= p < STACK_LIMIT;
  fr_pids : pids_ok a [p];
  fr_next : pid_current a <= pid_current (pid_allocator k) + 1;
  fr_stacks : kspace_ok s ks [p];
  fr_spaces : spaces_ok (frame_floor pf) s [framed_part ks; ms];
  fr_bytes : same_bytes (frame_floor pf) [] (mm k) s;
  fr_space : user_space_ok (linker pf) (phys s) ms cx;
  fr_token : MemorySet_token ks = MemorySet_token (kernel_space k);
  fr_loaded : exists m, Forall2 (loaded m) (program_segments elf) (areas ms) /\
    phys s = store_words m (page_base cx)
      (first_context pf (elf_entry_point elf) (program_sp elf) (MemorySet_token (kernel_space k)) (get_top p));
  fr_size : (size (free_frames (mm k)) <= size (free_frames s) + (63 + 3 * length (seg_pages (program_segments elf))))%nat
}.

Lemma wp_TaskControlBlock_new k data elf Q :
  kernel_blank k -> parse_elf pf data = Some elf -> elf_ok elf ->
  (63 + 3 * length (seg_pages (program_segments elf)) <= size (free_frames (mm k)))%nat ->
  (forall ms cx p s ks a, first_ready k elf ms cx p s ks a ->
     Q (mk_tcb p p (first_inner ms cx (program_sp elf) (get_top p))) (set_mm s (set_kernel_space ks (set_pid_allocator a k)))) ->
  wp (TaskControlBlock_new pf data) Q k.
Proof.
  intros Hk Hp He Hsize HQ. pose proof Hk as [Hb Ht _ [Hpids Hlim] Hks _ _]. unfold TaskControlBlock_new.
  eapply (wp_load_program pf Hld); [by apply blank_spaces|done|done|lia|]. intros ms s1 cx ax Hi Hax Hcx Hus Hsp1 Hb1. fold (program_sp elf).
  pose proof Hi as [Hms1 Hg HL _ _]. pose proof (grows_size _ _ _ _ _ Hg) as Hsz. unfold kernel_spaces in Hsp1, Hb1. rewrite Ht in Hsp1, Hb1.
  unfold values in Hsp1, Hb1. rewrite map_to_list_empty in Hsp1, Hb1. cbn [map] in Hsp1, Hb1.
  cbn beta iota. wp_step. eapply wp_find_trap_cx; [apply Hi|exact Hax|exact Hcx|].
  wp_step. apply (wp_pid_alloc _ []); [cell_free|done|done|]. intros p a Hpn Hpl Hpa Hnext. kernel_cbn.
  pose proof (so_all _ _ Hsp1) as Hall. apply Forall_cons in Hall as [_ Hall]. apply Forall_cons in Hall as [Hks1 _].
  assert (Hkk : kspace_ok s1 (kernel_space k) []).
  { apply (kspace_ok_keep (mm k)); [done|done|]. intros v. refine (same_bytes_maps _ _ _ _ Hb1 (framed_part (kernel_space k)) v _); [|by left].
    apply Forall_singleton, Hks. }
  wp_step. apply (wp_KernelStack_new _ []); [cell_free|done|done|done|kernel_cbn; lia|]. kernel_cbn. intros ks s2 new Hks2 Htok Hfr Hg2.
  destruct (spaces_ok_step (lo := frame_floor pf) s1 [framed_part (kernel_space k)] [framed_part ks] [ms] (pt_frames (page_table (kernel_space k))) new [] s2) as [Hsp2 Hb2].
  { cbn. by rewrite Permutation_swap. }
  { by eapply changes_grows. }
  { intros q Hq. unfold space_frames. cbn. rewrite app_nil_r. by apply (ms_table_frame (framed_part (kernel_space k))). }
  { by intros q []%not_elem_of_nil. }
  { apply Forall_singleton, Hks2. }
  { unfold space_frames. cbn. rewrite app_nil_r. apply (kk_ms _ _ _ Hks2). }
  { intros q. unfold space_frames. cbn. rewrite !app_nil_r, Hfr, elem_of_app. auto. }
  pose proof (in_data_frames ax ms _ _ Hax Hcx) as Hcxin. pose proof (ms_data_frames _ _ Hms1) as Hframes.
  assert (Hcxf : is_frame cx) by (rewrite Forall_forall in Hframes; by apply Hframes).
  wp_step. cbn [get_trap_cx trap_cx_ppn]. apply wp_write_init_context; [cell_free|]. kernel_cbn. rewrite Htok. wp_step. set (m' := store_words _ _ _).
  destruct (spaces_ok_store (lo := frame_floor pf) s2 ms [framed_part ks] cx m') as (Hsp3 & Hb3 & Hm3); [by rewrite Permutation_swap|done|intros x Hx; by apply first_context_page|].
  apply (HQ ms cx p (set_phys m' s2) ks a). pose proof (grows_size _ _ _ _ _ Hg2) as Hsz2.
  split; [done|done|done| |by rewrite Permutation_swap| | |done| |].
  - apply (kspace_ok_keep s2); [done| |intros v; apply (Hm3 (framed_part ks)); right; by left].
    pose proof (so_all _ _ Hsp3) as Ha. by apply Forall_cons in Ha as [_ [? _]%Forall_cons].
  - eapply same_bytes_trans; [eapply same_bytes_sub; [|exact Hb1]; by intros x []%not_elem_of_nil|].
    eapply same_bytes_trans; [eapply same_bytes_sub; [|exact Hb2]|eapply same_bytes_sub; [|exact Hb3]]; by intros x []%not_elem_of_nil.
  - eapply user_space_keep; [exact Hus|]. intros v. etrans; [apply (Hm3 ms); by left|]. apply mapping_agree; [apply Hms1|].
    intros x Hx. eapply same_bytes_in; [exact Hb2|by left|by apply ms_table_frame].
  - exists (phys s2). split; [|done]. eapply all_loaded_keep; [exact HL|done|]. intros x Hx.
    eapply same_bytes_in; [exact Hb2|by left|by apply ms_frames_areas].
  - change (free_frames (set_phys m' s2)) with (free_frames s2). lia.
Qed.

(** The kernel with its first process. *)
Definition with_first k (elf : ElfFile) (ms : MemorySet) (cx p : Z) s (ks : MemorySet) (a : PidAllocator) : Kernel T :=
  set_ready_queue [next_task k] (set_initproc (Some (next_task k)) (set_next_task (next_task k + 1)
    (set_tasks {[next_task k := mk_tcb p p (first_inner ms cx (program_sp elf) (get_top p))]}
      (set_mm s (set_kernel_space ks (set_pid_allocator a k)))))).

Lemma kernel_ok_first k elf ms cx p s ks a :
  kernel_blank k -> first_ready k elf ms cx p s ks a -> kernel_ok pf (with_first k elf ms cx p s ks a).
Proof.
  intros [Hb _ [_ Hcur] _ _ _ ?] [Hpl Hpids _ Hks Hsp _ Hus _ _ _]. unfold with_first. set (tc := mk_tcb p p _).
  assert (Hval : forall {A} (f : TaskControlBlock -> A), values f {[next_task k := tc]} = [f tc]).
  { intros A f. unfold values. by rewrite map_to_list_singleton. }
  assert (Hone : forall j tj, ({[next_task k := tc]} : gmap Z TaskControlBlock) !! j = Some tj <-> j = next_task k /\ tj = tc).
  { intros j tj. rewrite lookup_singleton_Some. split; intros [? ?]; done. }
  split; unfold kernel_spaces, task_pids; kernel_cbn; rewrite ?Hval; try done.
  - intros id [tx [-> _]%Hone]. lia.
  - intros id tx [-> ->]%Hone. split; try done.
  - split; kernel_cbn.
    + intros q tq x [-> ->]%Hone []%not_elem_of_nil.
    + intros q tq [-> ->]%Hone. apply NoDup_singleton.
    + intros q tq [-> ->]%Hone. done.
    + exists (next_task k), tc. split_and!; [done|by apply Hone|done|done].
  - split; kernel_cbn; rewrite ?Hcur.
    + apply NoDup_singleton.
    + intros id ->%list_elem_of_singleton. exists tc. split; [by apply Hone|done].
    + done.
    + intros id tx [-> ->]%Hone. cbn. by left.
Qed.

Lemma wp_add_initproc k data elf Q :
  kernel_blank k -> get_app_data_by_name pf (phys (mm k)) initproc_name = Ok (Some data) -> parse_elf pf data = Some elf -> elf_ok elf ->
  (63 + 3 * length (seg_pages (program_segments elf)) <= size (free_frames (mm k)))%nat ->
  (forall ms cx p s ks a, first_ready k elf ms cx p s ks a -> Q tt (with_first k elf ms cx p s ks a)) ->
  wp (add_initproc pf) Q k.
Proof.
  intros Hk Hdata Hp He Hsize HQ. pose proof Hk as [Hb Ht [Hq _] _ _ _ _]. unfold add_initproc, mem_of. wp_step. wp_step. wp_step. eapply wp_lift; [exact Hdata|].
  wp_step. eapply wp_unwrap; [done|]. wp_step. eapply wp_TaskControlBlock_new; [done..|]. intros ms cx p s ks a Hfr. wp_step. apply wp_new_task.
  kernel_cbn. wp_step. wp_step. unfold add_task, add. apply wp_with_cell; [cell_free|]. wp_step. kernel_cbn. rewrite Ht, Hq, Hb.
  pose proof (HQ ms cx p s ks a Hfr) as HQ'. unfold with_first in HQ'. rewrite <-insert_empty in HQ'. destruct k. cbn in *. subst. exact HQ'.
Qed.

End FirstProcess.

Section Boot.
Context (pf : Platform).
Hypothesis Hld : trampoline_ok (linker pf).
Hypothesis Hlayout : layout_ok (linker pf).
Implicit Types k : Kernel StackFrameAllocator.

(** The frames from the end of the kernel to the end of memory. *)
Lemma boot_frames (m : mem) :
  let s := mk_mm m (init_frame_allocator (ekernel (linker pf)) sfa_new) in
  mm_inv s /\ 4096 <= Z.of_nat (size (free_frames s)) /\ (forall f, f ∈ free_frames s -> frame_floor pf <= f).
Proof.
  destruct Hlayout as [H1 H2 H3 H4 H5 Hal]. rewrite !Forall_cons in Hal. destruct Hal as (_ & _ & _ & _ & _ & _ & _ & _ & A9 & _).
  assert (Hceil : PhysAddr_ceil (ekernel (linker pf)) = ekernel (linker pf) / PAGE_SIZE).
  { unfold PhysAddr_ceil, PAGE_SIZE in *. rewrite !wrap64_small by (rewrite ?wrap64_small; lia). zdm. }
  assert (Hend : PhysAddr_floor MEMORY_END = 557056) by done.
  unfold init_frame_allocator. rewrite Hceil, Hend. cbn zeta. set (e := ekernel (linker pf) / PAGE_SIZE).
  assert (He : 524800 <= e <= 552960) by (unfold e, PAGE_SIZE; zdm).
  assert (Hel : forall f, f ∈ free_frames (mk_mm m (sfa_init sfa_new e 557056)) <-> e <= f < 557056).
  { intros f. unfold free_frames. cbn [allocator]. change (fa_free ?a) with (sfa_free a). rewrite elem_of_sfa_free. cbn.
    split; [intros [[]%not_elem_of_nil|?]; lia|auto]. }
  split_and!.
  - apply sfa_init_ok; [unfold is_frame|]; lia.
  - assert (Hsub : list_to_set (seqZ e 4096) ⊆ free_frames (mk_mm m (sfa_init sfa_new e 557056))).
    { intros f. rewrite elem_of_list_to_set, elem_of_seqZ, Hel. lia. }
    apply subseteq_size in Hsub. rewrite size_list_to_set, length_seqZ in Hsub by apply NoDup_seqZ. lia.
  - intros f Hf%Hel. unfold frame_floor. fold e. lia.
Qed.

(** The data of the kernel starts below the frames. *)
Lemma image_below : sdata (linker pf) <= frame_floor pf * PAGE_SIZE.
Proof.
  destruct Hlayout as [H1 H2 H3 H4 H5 Hal]. rewrite !Forall_cons in Hal. destruct Hal as (_ & _ & _ & _ & _ & _ & _ & _ & A9 & _).
  unfold frame_floor, PAGE_SIZE in *. zdm.
Qed.

(** The image of the kernel without the bss section is the same. *)
Definition same_image (m m' : mem) : Prop :=
  forall x, x / PAGE_SIZE < frame_floor pf -> ~ (sbss pf <= x < ebss (linker pf)) -> m' x = m x.

(** The image of an application lies in that of the kernel outside of the bss section:
    whatever other memory holds, the loader finds it. *)
Definition app_image (m : mem) (name : list Z) (data : list Z) : Prop :=
  forall m', same_image m m' -> get_app_data_by_name pf m' name = Ok (Some data).

(** The kernel when it enters user mode for the first time: one process, [INITPROC], runs
    the program from its entry point. *)
Record booted (m0 : mem) (elf : ElfFile) k (t : TaskControlBlock) : Prop := {
  bo_tasks : tasks k = {[0 := t]};
  bo_init : initproc k = Some 0;
  bo_family : parent (inner t) = None /\ children (inner t) = [];
  bo_queue : ready_queue k = [];
  bo_next : next_task k = 1 /\ pid_current (pid_allocator k) <= 1;
  bo_image : same_image m0 (phys (mm k));
  bo_program : exists m, Forall2 (loaded m) (program_segments elf) (areas (space_of t)) /\
    phys (mm k) = store_words m (get_trap_cx (inner t))
      (first_context pf (elf_entry_point elf) (program_sp elf) (MemorySet_token (kernel_space k)) (get_top (pid t)));
  bo_frames : 3884 <= Z.of_nat (size (free_frames (mm k))) + 3 * Z.of_nat (length (seg_pages (program_segments elf)))
}.

(** [mm::init]: frames, the kernel's address space and its check. *)
Lemma wp_mm_init (m : mem) Q :
  (forall ks s, sections_mapped (linker pf) (mk_mm m (init_frame_allocator (ekernel (linker pf)) sfa_new)) (kernel_sections (linker pf)) ks s ->
     Q (MemorySet_token ks) (set_kernel_space ks (set_mm s (before_boot m)))) ->
  wp (mm_init pf) Q (before_boot m).
Proof.
  intros HQ. destruct (boot_frames m) as (Hinv & Hsize & _). unfold mm_init. wp_step. wp_step. kernel_cbn. cbn [phys allocator mm before_boot].
  wp_step. apply wp_in_mm. kernel_cbn. eapply wp_mono; [|apply (wp_new_kernel (linker pf) Hld); [done|exact Hinv|lia]].
  intros ks s Hs. wp_step. unfold kernel_token. wp_step. apply wp_with_cell; [apply not_elem_of_nil|]. wp_step. kernel_cbn. by apply HQ.
Qed.

(** The kernel after [mm::init] has no process yet. *)
Lemma booted_blank (m : mem) ks s :
  sections_mapped (linker pf) (mk_mm m (init_frame_allocator (ekernel (linker pf)) sfa_new)) (kernel_sections (linker pf)) ks s ->
  kernel_blank pf (set_kernel_space ks (set_mm s (before_boot m))).
Proof.
  intros Hs. destruct (boot_frames m) as (_ & _ & Hfree). pose proof (sm_grow _ _ _ _ _ Hs) as Hg.
  split; [done|done|done|split; [apply pids_ok_new|done]|by eapply (sections_kspace (linker pf))| |exact image_below]. kernel_cbn. intros p [Hp|Hp]; apply Hfree.
  - rewrite (gr_free _ _ _ _ _ Hg) in Hp. by apply elem_of_difference in Hp as [? _].
  - apply (gr_sub _ _ _ _ _ Hg). unfold framed_part, ms_frames in Hp. rewrite (sm_areas _ _ _ _ _ Hs) in Hp. cbn in Hp. by rewrite app_nil_r in Hp.
Qed.

(** The first round of the idle loop. *)
Lemma wp_first_round k elf ms cx p s ks a fuel Q :
  kernel_blank pf k -> next_task k = 0 -> first_ready pf k elf ms cx p s ks a ->
  (forall r n t st, let k' := set_current (Some 0) (set_ready_queue [] (set_time_reads n (alter_task 0 (run_inner st) (with_first pf k elf ms cx p s ks a)))) in
     t = mk_tcb p p (run_inner st (first_inner pf ms cx (program_sp elf) (get_top p))) ->
     kernel_ok pf k' -> running k' 0 t -> r = Some (get_user_token (inner t), TRAP_CONTEXT) -> Q r k') ->
  wp (run_tasks pf (S fuel)) Q (with_first pf k elf ms cx p s ks a).
Proof.
  intros Hblank Hnext Hfr HQ. pose proof Hblank as [Hb _ [_ Hcur] _ _ _ _]. pose proof (kernel_ok_first pf k _ _ _ _ _ _ _ Hblank Hfr) as Hk.
  set (k1 := with_first pf k elf ms cx p s ks a) in *. cbn [run_tasks]. wp_step.
  eapply wp_mono; [|apply wp_run_tasks_round; [by eapply kernel_queue_ok|apply Hk|by eapply kernel_queue_nonempty]].
  cbn beta. intros o k' (i & id & -> & Hi & _ & Hd). pose proof (kernel_ok_dispatched _ _ _ _ _ Hk Hcur Hi Hd) as (Hk' & t & st' & Ht & _ & Hrun).
  unfold k1 in Hi, Ht. unfold with_first in Hi, Ht. kernel_cbn. cbn [ready_queue set_ready_queue tasks set_tasks set_initproc set_next_task] in Hi, Ht.
  destruct i as [|i]; [|done]. injection Hi as <-. rewrite Hnext in *. rewrite lookup_singleton_eq in Ht. injection Ht as <-.
  destruct Hd as (n & st & Hk'eq). assert (Hrun' : running k' 0 (mk_tcb p p (run_inner st (first_inner pf ms cx (program_sp elf) (get_top p))))).
  { split; [by rewrite Hk'eq| |by rewrite Hk'eq]. rewrite Hk'eq. unfold k1, with_first. kernel_cbn. by rewrite Hnext, lookup_alter_eq, lookup_singleton_eq. }
  wp_step. unfold resume_task. wp_step. eapply wp_inner_of; [apply Hrun'|]. cbn [kstack inner run_inner set_status set_start_time next_pass set_pass first_inner].
  wp_step. pose proof Hrun' as [Hc2 Ht2 Hb2]. wp_step. eapply wp_trap_return; [done..|]. wp_step.
  assert (Heq : k' = set_current (Some 0) (set_ready_queue [] (set_time_reads n (alter_task 0 (run_inner st) k1)))).
  { rewrite Hk'eq. unfold k1, with_first. kernel_cbn. by rewrite Hnext. }
  rewrite Heq in *. eapply HQ; [done|exact Hk'|exact Hrun'|done].
Qed.

Lemma wp_rust_main (m : mem) data elf fuel Q :
  app_image m initproc_name data -> parse_elf pf data = Some elf -> elf_ok elf -> edata (linker pf) <= sbss pf <= ebss (linker pf) ->
  3 * Z.of_nat (length (seg_pages (program_segments elf))) <= 3884 ->
  (forall r k t, in_user_mode pf r k -> kernel_ok pf k -> running k 0 t -> booted m elf k t -> Q r k) ->
  wp (rust_main pf (S fuel)) Q (before_boot m).
Proof.
  intros Himage Hparse Helf Hbss Hpages HQ. unfold rust_main. wp_step. unfold clear_bss, update_mem. wp_step.
  set (m1 := fill _ _ _ _). change (set_mm _ (before_boot m)) with (before_boot m1). wp_step. apply wp_mm_init. intros ks s Hs.
  destruct (boot_frames m1) as (Hinv & Hsize & Hfree). set (s0 := mk_mm m1 _) in *. set (k1 := set_kernel_space ks (set_mm s (before_boot m1))).
  pose proof (kernel_sections_blocks (linker pf) Hlayout) as Hblocks. pose proof (sm_grow _ _ _ _ _ Hs) as Hg. pose proof (grows_size _ _ _ _ _ Hg) as Hsz.
  wp_step. apply wp_with_cell; [apply not_elem_of_nil|]. wp_step. wp_step. apply wp_in_mm. kernel_cbn. eapply (wp_remap_test (linker pf)); [done|exact Hs|]. kernel_cbn.
  change (set_borrowed _ _) with k1. assert (Hblank : kernel_blank pf k1) by (by eapply booted_blank).
  assert (Hsame : same_image m (phys s)).
  { intros x Hx Hn. destruct Hlayout as [H1 H2 H3 H4 H5 _]. rewrite (gr_mem _ _ _ _ _ Hg); [|apply not_elem_of_nil|].
    - cbn [phys s0]. apply fill_out. rewrite wrap64_small by lia. lia.
    - intros Hin%(gr_sub _ _ _ _ _ Hg)%Hfree. lia. }
  wp_step. eapply (wp_add_initproc pf Hld); [done|by apply Himage|done|done|change (mm k1) with s; lia|]. intros ms cx p s2 ks2 a Hfr.
  unfold read_time. wp_steps. set (k2 := set_timer_ _ _). set (k3 := set_timer_ (timer k2) (set_time_reads (time_reads k2) k1)).
  change k2 with (with_first pf k3 elf ms cx p s2 ks2 a).
  assert (Hblank3 : kernel_blank pf k3) by (by destruct Hblank). assert (Hfr3 : first_ready pf k3 elf ms cx p s2 ks2 a) by (by destruct Hfr).
  eapply wp_first_round; [exact Hblank3|done|exact Hfr3|]. intros r n t st k' Ht Hk' Hrun' ->.
  apply (HQ _ _ t); [eexists _, _; split_and!; [done|exact Hk'|exact Hrun']|done|done|]. subst t.
  destruct Hfr as [_ _ Hnext _ _ Hbytes _ Htok (m2 & HL & Hph) Hfree2]. unfold k'. split; unfold with_first; kernel_cbn.
  - change (next_task k3) with 0. by rewrite alter_singleton_eq.
  - done.
  - done.
  - done.
  - split; [done|]. exact Hnext.
  - intros x Hx Hn. rewrite <-(Hsame x Hx Hn). apply Hbytes. by left.
  - exists m2. split; [exact HL|]. by rewrite Htok.
  - change (mm k1) with s in Hfree2. lia.
Qed.

(** C6: the kernel boots.  [rust_main], on any memory that holds the image of the kernel with
    a well-formed first application, returns to user mode for the first time: nothing
    panics, [remap_test] included; [INITPROC] is the one process and runs its program from
    the entry point in a new address space, the image of the kernel outside of the bss
    section is untouched, at least 3884 frames less three per page are left, and the
    invariant of the kernel holds. *)
Theorem rust_main_boots (m : mem) data elf fuel :
  app_image m initproc_name data -> parse_elf pf data = Some elf -> elf_ok elf -> edata (linker pf) <= sbss pf <= ebss (linker pf) ->
  3 * Z.of_nat (length (seg_pages (program_segments elf))) <= 3884 ->
  wp (rust_main pf (S fuel)) (fun r k => in_user_mode pf r k /\ exists t, running k 0 t /\ booted m elf k t) (before_boot m).
Proof. intros Himage Hparse Helf Hbss Hpages. eapply wp_rust_main; [done..|]. intros r k t Hr _ Hrun Hb. split; [done|]. by exists t. Qed.


End Boot.
