(* ===== verification/Machine.v ===== *)
(** * A concrete machine

    A kernel image with one application, on which [rust_main] boots: the calls of a first
    process are run on it, and the theorems on processes, isolation and safety are applied
    to the states that they reach. *)

From Stdlib Require Import FunctionalExtensionality.
From S2P Require Import Prelude Config Address PhysMem FrameAllocator PageTable PageTableSpec UserAccess.
From S2P Require Import MemorySet MemorySetSpec ForkSpec SpaceSpec ElfSpec Timer Pid Utf8 Kernel Manager Task Loader.
From S2P Require Import Processor Syscall Trap Boot KernelSpec SchedulerSpec MmapSpec LifecycleSpec KernelStackSpec KernelSpaceSpec.
From S2P Require Import KernelInv ProcessSpec UserMemSpec SysForkSpec SysSpawnSpec SysExecSpec WaitSpec ExitSpec ScheduleSpec.
From S2P Require Import HandlerSpec SystemSpec BootSpec.

(** ** The machine *)

(** A kernel of four pages at 0x80200000: text, read-only data, data, bss. *)
Definition machine_linker : linker_symbols := {|
  stext := 2149580800; etext := 2149584896;
  srodata := 2149584896; erodata := 2149588992;
  sdata := 2149588992; edata := 2149593088;
  sbss_with_stack := 2149593088; ebss := 2149597184;
  ekernel := 2149597184;
  strampoline := 2149580800
|}.

(** The program: one segment at 0x10000 that starts with the name of the application. *)
Definition machine_bytes : list Z := initproc_name ++ [0; 19; 0].
Definition machine_elf : ElfFile := {|
  elf_magic := [127; 69; 76; 70];
  elf_headers := [Some {| ph_is_load := Some true; ph_virtual_addr := 65536; ph_mem_size := 64; ph_offset := 0;
    ph_file_size := 16; ph_is_read := true; ph_is_write := true; ph_is_execute := true |}];
  elf_entry_point := 65550;
  elf_input := machine_bytes
|}.

Definition machine : Platform := {|
  linker := machine_linker;
  sbss := 2149593088;
  parse_elf := fun _ => Some machine_elf;
  time_at := fun n => wrap64 (Z.of_nat n * 1000);
  char_at := fun n => 10;
  sstatus_value := 0;
  trap_return_addr := 2149581000;
  trap_handler_addr := 2149582000;
  num_app_addr := 2149588992;
  app_names_addr := 2149589120;
  ti_status := 2008;
  ti_times := 8;
  ti_time := 0;
  str_fuel := 32
|}.

(** The table of applications in the data section. *)
Definition machine_memory : mem :=
  store_bytes (store_bytes
    (store64 (store64 (store64 (fun _ => 0) 2149588992 1) 2149589000 2149589056) 2149589008 2149589072)
    2149589056 machine_bytes) 2149589120 (initproc_name ++ [0]).

Lemma machine_trampoline : trampoline_ok (linker machine).
Proof. split; [cbn; lia|done]. Qed.

Lemma machine_layout : layout_ok (linker machine).
Proof. split; cbn; try lia. by rewrite !Forall_cons. Qed.

Lemma machine_elf_ok : elf_ok machine_elf.
Proof.
  split; [done| |].
  - apply Forall_singleton. eexists. split_and!; [done|by eexists|]. intros _. cbn. unfold PAGE_SIZE. split_and!; lia.
  - apply (bool_decide_unpack (NoDup _)). by vm_compute.
Qed.

Lemma machine_pages : seg_pages (program_segments machine_elf) = [16; 18; 19; TRAP_CONTEXT_vpn].
Proof. by vm_compute. Qed.

(** The loader finds the application whatever memory outside of the image holds. *)
Lemma machine_image : app_image machine machine_memory initproc_name machine_bytes.
Proof.
  intros m' Hm.
  assert (m' = fun x => if (x / 4096 <? 524804) && negb ((2149593088 <=? x) && (x <? 2149597184)) then machine_memory x else m' x) as ->.
  { apply functional_extensionality. intros x. destruct (_ && _) eqn:E; [|done]. apply andb_true_iff in E as [E1 E2].
    apply Hm; [by apply Z.ltb_lt in E1|]. cbn. intros [H1%Z.leb_le H2%Z.ltb_lt]. by rewrite H1, H2 in E2. }
  vm_compute. reflexivity.
Qed.

(** ** After booting *)

Record machine_up (k : Kernel StackFrameAllocator) (t : TaskControlBlock) : Prop := {
  mu_ok : kernel_ok machine k;
  mu_run : running k 0 t;
  mu_boot : booted machine machine_memory machine_elf k t
}.

Lemma wp_machine Q :
  (forall r k t, in_user_mode machine r k -> machine_up k t -> Q r k) -> wp (rust_main machine 1) Q (before_boot machine_memory).
Proof.
  intros HQ. eapply (wp_rust_main machine machine_trampoline machine_layout); [exact machine_image|done|exact machine_elf_ok|cbn; lia| |].
  - rewrite machine_pages. cbn. lia.
  - intros r k t Hr Hk Hrun Hb. by apply (HQ r k t).
Qed.

Lemma machine_frames k t : machine_up k t -> 3800 <= Z.of_nat (size (free_frames (mm k))).
Proof. intros [_ _ Hb]. pose proof (bo_frames _ _ _ _ _ Hb) as Hf. rewrite machine_pages in Hf. cbn [length] in Hf. lia. Qed.

Lemma machine_space k t : machine_up k t -> area_pages (areas (space_of t)) = [16; 18; 19; TRAP_CONTEXT_vpn].
Proof. intros [_ _ Hb]. destruct (bo_program _ _ _ _ _ Hb) as (m & HL & _). by rewrite (loaded_pages _ _ _ HL), machine_pages. Qed.

(** The page of the program: it is user memory and holds the bytes of the file. *)
Lemma machine_code k t :
  machine_up k t -> exists a f, a ∈ areas (space_of t) /\ (16, f) ∈ data_frames a /\ map_perm a = 30 /\
    forall off, 0 <= off < PAGE_SIZE -> phys (mm k) (page_base f + off) = default 0 (machine_bytes !! Z.to_nat off).
Proof.
  intros [Hk Hrun Hb]. pose proof (run_task _ _ _ Hrun) as Ht. destruct (bo_program _ _ _ _ _ Hb) as (m & HL & Hph).
  pose proof (kernel_ok_ms _ _ _ _ Hk Ht) as Hms. change (memory_set (inner t)) with (space_of t) in Hms.
  assert (Hg : program_segments machine_elf !! 0%nat = Some (mk_seg (mk_range 16 17) 30 machine_bytes)) by (by vm_compute).
  destruct (Forall2_lookup_l _ _ _ _ _ HL Hg) as (a & Ha & [Hr Hp Hbytes]). assert (Hin : a ∈ areas (space_of t)) by (by eapply list_elem_of_lookup_2).
  destruct (ms_ok_area _ _ _ Hms Hin) as (Hfa & Hua & _). destruct (framed_ok_page _ _ _ 16 Hfa) as (f & Hf & _).
  { apply range_ok_elem; [apply Hfa|]. rewrite Hr. cbn. lia. }
  destruct (framed_frame _ _ _ _ (pt_ok_inv _ _ (mo_pt _ _ Hms)) Hua Hf) as [Hff _].
  exists a, f. split_and!; [done|done|done|]. intros off Hoff.
  destruct (us_cx _ _ _ _ (to_space _ _ _ (ko_tasks _ _ Hk 0 t Ht) (running_live _ _ _ _ Hk Hrun))) as (a' & Ha' & Hcx & _).
  destruct (ms_ok_area _ _ _ Hms Ha') as (_ & Hua' & _). destruct (framed_frame _ _ _ _ (pt_ok_inv _ _ (mo_pt _ _ Hms)) Hua' Hcx) as [Hcf _].
  rewrite Hph. unfold get_trap_cx. rewrite first_context_page; [|done|].
  - apply list_elem_of_lookup in Hf as [i Hi]. rewrite (Hbytes i 16 f off Hi Hoff). pose proof (framed_ok_key _ _ _ _ _ _ Hfa Hi) as Hkey. rewrite Hr in Hkey. cbn in Hkey.
    replace i with 0%nat by lia. done.
  - rewrite page_base_div by done. intros He. subst f. assert (16 = TRAP_CONTEXT_vpn) by (by eapply (data_frame_once (mm k) (space_of t) a a')). done.
Qed.

(** The name that the program holds, as a path. *)
Lemma machine_path k t :
  machine_up k t -> translated_str (str_fuel machine) (phys (mm k)) (get_user_token (inner t)) 65536 = Ok initproc_name.
Proof.
  intros Hup. destruct (machine_code k t Hup) as (a & f & Ha & Hf & _ & Hb). destruct Hup as [Hk [_ Ht _] _].
  pose proof (kernel_ok_ms _ _ _ _ Hk Ht) as Hms.
  apply (translated_str_correct _ _ _ _ _ (map (fun i => page_base f + i) (seqZ 0 14))); [lia|cbn; lia|cbn; lia| | | |].
  - rewrite map_map. change (seqZ 65536 _) with (map (Z.add 65536) (seqZ 0 14)). rewrite map_map. apply map_ext_in. intros i Hi%list_elem_of_In%elem_of_seqZ.
    unfold get_user_token. destruct (user_page_va (mm k) (memory_set (inner t)) a (65536 + i) f) as [-> _]; [done|lia|done| |].
    + replace (VirtAddr_floor (65536 + i)) with 16; [done|]. unfold VirtAddr_floor, PAGE_SIZE. zdm.
    + do 2 f_equal. unfold PAGE_SIZE. zdm.
  - apply Forall_fmap, Forall_forall. intros i Hi%elem_of_seqZ. apply frame_maps; [|lia|unfold PAGE_SIZE; lia].
    by destruct (user_page_va (mm k) (memory_set (inner t)) a 65536 f) as (_ & _ & ?).
  - rewrite map_map. transitivity (map (fun i => default 0 (machine_bytes !! Z.to_nat i)) (seqZ 0 14)); [|by vm_compute].
    apply map_ext_in. intros i Hi%list_elem_of_In%elem_of_seqZ. apply Hb. unfold PAGE_SIZE. lia.
  - unfold initproc_name. repeat (apply Forall_cons; split; [done|]). constructor.
Qed.

Lemma machine_data k t : machine_up k t -> get_app_data_by_name machine (phys (mm k)) initproc_name = Ok (Some machine_bytes).
Proof. intros [_ _ Hb]. apply machine_image, (bo_image _ _ _ _ _ Hb). Qed.

(** User code reaches the first byte of the page of the program. *)
Lemma machine_reach k t : machine_up k t -> exists x, user_reach (phys (mm k)) (space_of t) x /\ phys (mm k) x = 99.
Proof.
  intros Hup. destruct (machine_code k t Hup) as (a & f & Ha & Hf & Hp & Hb). destruct Hup as [Hk [_ Ht _] _].
  pose proof (kernel_ok_ms _ _ _ _ Hk Ht) as Hms. destruct (ms_ok_area _ _ _ Hms Ha) as (Hfa & Hua & _).
  destruct (framed_frame _ _ _ _ (pt_ok_inv _ _ (mo_pt _ _ Hms)) Hua Hf) as [Hff _]. exists (page_base f + 0). split; [|by rewrite Hb].
  exists 65536, (area_pte a f). split_and!; [lia|by apply (fo_map _ _ _ Hfa)| |by rewrite area_pte_ppn by (done || apply Hfa)].
  unfold pte_user, area_pte. rewrite Hp. unfold is_frame in Hff. by rewrite pte_flags_new by (done || lia).
Qed.

(** ** Theorems at work *)

Lemma from_elf_correct_witness :
  wp (from_elf (linker machine) (parse_elf machine) machine_bytes)
    (fun '(ms, sp, entry) s' => entry = 65550 /\ user_load (phys s') ms 65537 = Some 104) demo_mm.
Proof.
  eapply wp_mono; [|refine (from_elf_correct machine_linker machine_trampoline demo_mm (parse_elf machine) machine_bytes machine_elf demo_mm_inv eq_refl machine_elf_ok _)].
  - intros [[ms sp] entry] s' (-> & _ & _ & Hbytes & _). split; [done|]. etrans; [apply (Hbytes _ 1 (list_elem_of_here _ _)); [done|done|cbn; lia]|done].
  - rewrite machine_pages. vm_compute. lia.
Defined.

Lemma rust_main_boots_witness :
  wp (rust_main machine 1) (fun r k => is_Some r /\ initproc k = Some 0) (before_boot machine_memory).
Proof.
  eapply wp_mono; [|refine (rust_main_boots machine machine_trampoline machine_layout machine_memory machine_bytes machine_elf 0 machine_image eq_refl machine_elf_ok _ _)].
  - intros r k [(c & t & -> & _) (t' & _ & Hb)]. split; [done|]. apply (bo_init _ _ _ _ _ Hb).
  - cbn. lia.
  - rewrite machine_pages. cbn. lia.
Defined.

(** The first process forks. *)
Lemma sys_fork_correct_witness :
  wp (rust_main machine 1 ;; sys_fork machine) (fun r k => exists tc, r = Return (pid tc) /\ tasks k !! 1 = Some tc /\ ready_queue k = [1])
    (before_boot machine_memory).
Proof.
  wp_step. apply wp_machine. intros r k t _ Hup. pose proof (machine_frames k t Hup) as Hfr. pose proof (machine_space k t Hup) as Hsp. destruct Hup as [Hk Hrun Hb].
  destruct (bo_next _ _ _ _ _ Hb) as [Hn Hp].
  eapply wp_mono; [|refine (sys_fork_correct machine machine_trampoline k 0 t Hk Hrun _ _)].
  - intros r' k' (tc & -> & Hf & _). exists tc. rewrite (fk_tasks _ _ _ _ _ _ Hf), (fk_queue _ _ _ _ _ _ Hf), Hn, lookup_insert_eq, (bo_queue _ _ _ _ _ Hb). done.
  - unfold STACK_LIMIT. lia.
  - rewrite Hsp. cbn [length]. lia.
Defined.

(** It gives back the page of its program, and forks. *)
Lemma munmap_breaks_fork_witness :
  wp (rust_main machine 1) (fun _ k => exists s', sys_munmap 65536 4096 k = Ok (Return 0, set_mm s' k) /\
    sys_fork machine (set_mm s' k) = Panic PageFault) (before_boot machine_memory).
Proof.
  apply wp_machine. intros r k t _ Hup. pose proof (machine_frames k t Hup) as Hfr. pose proof (machine_space k t Hup) as Hsp.
  destruct (machine_code k t Hup) as (a & f & Ha & Hf & _). destruct Hup as [Hk Hrun Hb]. pose proof (run_task _ _ _ Hrun) as Ht.
  destruct (bo_next _ _ _ _ _ Hb) as [Hn Hp]. assert (Hpages : range_items (va_range 65536 (65536 + 4096)) = [16]) by reflexivity.
  apply (munmap_breaks_fork machine machine_trampoline k 0 t 65536 4096 16 Hk Hrun).
  - unfold STACK_LIMIT. lia.
  - rewrite Hsp. cbn [length]. lia.
  - lia.
  - lia.
  - unfold PAGE_SIZE. lia.
  - done.
  - rewrite Hpages. intros v ->%list_elem_of_singleton. destruct (ms_ok_area _ _ _ (kernel_ok_ms _ _ _ _ Hk Ht) Ha) as (Hfa & _).
    eexists. by apply (fo_map _ _ _ Hfa).
  - rewrite Hpages. by left.
  - rewrite Hsp. by left.
Defined.

(** It spawns the application that it runs itself, by its name. *)
Lemma sys_spawn_correct_witness :
  wp (rust_main machine 1 ;; sys_spawn machine 65536) (fun r k => exists tc, r = Return (pid tc) /\ tasks k !! 1 = Some tc /\ ready_queue k = [1])
    (before_boot machine_memory).
Proof.
  wp_step. apply wp_machine. intros r k t _ Hup. pose proof (machine_frames k t Hup) as Hfr. pose proof Hup as [Hk Hrun Hb].
  destruct (bo_next _ _ _ _ _ Hb) as [Hn Hp].
  destruct (sys_spawn_correct machine machine_trampoline k 0 t 65536 initproc_name (Some machine_bytes)) as [_ Hs];
    [done|done|unfold STACK_LIMIT; lia|by apply machine_path|by eapply machine_data|].
  eapply wp_mono; [|apply (Hs machine_bytes machine_elf); [done|done|exact machine_elf_ok|rewrite machine_pages; cbn [length]; lia]].
  intros r' k' (tc & -> & Hf & _). exists tc. rewrite (sp_tasks _ _ _ _ _ _ _ Hf), (sp_queue _ _ _ _ _ _ _ Hf), Hn, lookup_insert_eq, (bo_queue _ _ _ _ _ Hb). done.
Defined.

(** It executes it. *)
Lemma sys_exec_correct_witness :
  wp (rust_main machine 1 ;; sys_exec machine 65536) (fun r k => r = Return 0 /\ current k = Some 0 /\ kernel_ok machine k)
    (before_boot machine_memory).
Proof.
  wp_step. apply wp_machine. intros r k t _ Hup. pose proof (machine_frames k t Hup) as Hfr. pose proof Hup as [Hk Hrun Hb].
  destruct (sys_exec_correct machine machine_trampoline k 0 t 65536 initproc_name (Some machine_bytes)) as [_ Hs];
    [done|done|by apply machine_path|by eapply machine_data|].
  eapply wp_mono; [|apply (Hs machine_bytes machine_elf); [done|done|exact machine_elf_ok|rewrite machine_pages; cbn [length]; lia]].
  intros r' k' (-> & Hx & Hk'). split_and!; [done| |done]. rewrite (xc_same _ _ _ _ _ _ Hx). cbn. apply Hrun.
Defined.

(** The first process writes to its page. *)
Lemma machine_write k t x :
  running k 0 t -> user_reach (phys (mm k)) (space_of t) x -> sys_step machine 0 k (set_mm (set_phys (store8 (phys (mm k)) x 7) (mm k)) k).
Proof. intros Hrun Hx. eapply step_user; [exact Hrun|]. intros y Hy. left. unfold store8 in Hy. destruct (Z.eqb_spec y x); [by subst|done]. Qed.

(** It still reaches it then. *)
Lemma machine_write_reach (k : Kernel StackFrameAllocator) t x :
  kernel_ok machine k -> running k 0 t -> user_reach (phys (mm k)) (space_of t) x -> user_reach (store8 (phys (mm k)) x 7) (space_of t) x.
Proof.
  intros Hk Hrun Hx. pose proof Hrun as [_ Ht _]. pose proof (kernel_ok_ms _ _ _ _ Hk Ht) as Hms.
  pose proof (om_tables _ _ _ _ (user_reach_isolated machine machine_trampoline k 0 t x Hk Ht (running_live _ _ _ _ Hk Hrun) Hx) 0 t Ht) as Hno.
  destruct Hx as (va & bits & ? & Hmap & ? & ?). exists va, bits. split_and!; [done| |done|done]. rewrite <-Hmap.
  refine (proj2 (ms_ok_write (mm k) (space_of t) (store8 (phys (mm k)) x 7) Hms _) _). intros y Hy. unfold store8.
  destruct (Z.eqb_spec y x); [by subst|done].
Qed.

Lemma machine_console : console_live machine 0.
Proof. intros n. exists 0%nat. split; [lia|done]. Qed.



(** ** A child that exits *)

(** The idle loop takes the head of the queue when no other process is behind it. *)
Lemma wp_round_head (k : Kernel StackFrameAllocator) x q Q :
  kernel_ok machine k -> current k = None -> ready_queue k = x :: q -> (forall y, y ∈ q -> pass_of k x <= pass_of k y) ->
  (forall k', dispatched k 0 x k' -> kernel_ok machine k' -> Q (Some x) k') -> wp (run_tasks_round machine) Q k.
Proof.
  intros Hk Hcur Hq Hle HQ. eapply wp_mono; [|apply wp_run_tasks_round; [by eapply kernel_queue_ok|apply Hk|by rewrite Hq]].
  cbn beta. intros o k' (i & id & -> & Hi & (_ & id' & Hid & Hleast) & Hd).
  assert (i = 0%nat) as ->.
  { destruct i as [|i]; [done|]. exfalso. destruct (Hleast 0%nat x) as [_ Hlt]; [rewrite Hq; cbn; lia|by rewrite Hq|].
    rewrite Hq in Hid. specialize (Hle id' ltac:(by eapply list_elem_of_lookup_2)). specialize (Hlt ltac:(lia)). lia. }
  rewrite Hq in Hi. injection Hi as <-. eapply HQ; [done|]. refine (proj1 (kernel_ok_dispatched _ _ _ _ _ Hk Hcur _ Hd)). by rewrite Hq.
Qed.

(** [INITPROC], its child, the queue and the running process. *)
Record two_tasks (k : Kernel StackFrameAllocator) (t0 t1 : TaskControlBlock) (q : list Z) (cur : option Z) : Prop := {
  tt_ok : kernel_ok machine k;
  tt_first : tasks k !! 0 = Some t0;
  tt_child : tasks k !! 1 = Some t1;
  tt_queue : ready_queue k = q;
  tt_current : current k = cur;
  tt_init : initproc k = Some 0
}.

Definition yielded (t : TaskControlBlock) : TaskControlBlock := with_inner (fun t => set_kstack InYield (set_status Ready t)) t.
Definition with_more_children (t : TaskControlBlock) : TaskControlBlock := with_inner (fun i => set_children (children i ++ []) i) t.

Lemma wp_two_yield k t0 t1 Q :
  two_tasks k t0 t1 [1] (Some 0) -> (forall k', two_tasks k' (yielded t0) t1 [1; 0] None -> Q Switched k') -> wp sys_yield Q k.
Proof.
  intros [Hk H0 H1 Hq Hc Hi] HQ. unfold sys_yield. wp_step. eapply wp_suspend; [done..|apply Hk|]. wp_step. apply HQ.
  split; kernel_cbn; [|by rewrite lookup_alter_eq, H0|by rewrite lookup_alter_ne|by rewrite Hq|done|done].
  apply (kernel_ok_suspended machine k 0 t0); [done| |done]. split; [done..|apply Hk].
Qed.

Lemma wp_two_run_child k t0 t1 Q :
  two_tasks k t0 t1 [1; 0] None -> pass (inner t1) <= pass (inner t0) ->
  (forall k' st, two_tasks k' t0 (with_inner (run_inner st) t1) [0] (Some 1) -> Q (Some 1) k') -> wp (run_tasks_round machine) Q k.
Proof.
  intros [Hk H0 H1 Hq Hc Hi] Hp HQ. eapply wp_round_head; [done..| |].
  - intros y ->%list_elem_of_singleton. unfold pass_of, field_of. by rewrite H0, H1.
  - intros k' (n & st & ->) Hk'. apply (HQ _ st). split; kernel_cbn; [done|by rewrite lookup_alter_ne|by rewrite lookup_alter_eq, H1|by rewrite Hq|done|done].
Qed.

Lemma wp_two_exit k t0 t1 code Q :
  two_tasks k t0 t1 [0] (Some 1) -> children (inner t1) = [] ->
  (forall k', two_tasks k' (with_more_children t0) (with_inner (zombie_of code) t1) [0] None -> Q Switched k') -> wp (sys_exit code) Q k.
Proof.
  intros [Hk H0 H1 Hq Hc Hi] Hch HQ. unfold sys_exit. wp_step. eapply (wp_exit_ok machine k 1 t1); [done|split; [done..|apply Hk]|by rewrite Hi|].
  intros init ti k' [(Hinit & Hti & _) _ _ _] [Hs Htask Hin _ _ _ _ _ _] Hk'. rewrite Hi in Hinit. injection Hinit as <-. rewrite H0 in Hti. injection Hti as <-.
  rewrite Hch in Hin. wp_step. apply HQ. split; [done..| | |]; rewrite Hs; [exact Hq|done|exact Hi].
Qed.

Lemma wp_two_run_first k t0 t1 Q :
  two_tasks k t0 t1 [0] None -> (forall k' st, two_tasks k' (with_inner (run_inner st) t0) t1 [] (Some 0) -> Q (Some 0) k') ->
  wp (run_tasks_round machine) Q k.
Proof.
  intros [Hk H0 H1 Hq Hc Hi] HQ. eapply wp_round_head; [done..|by intros y []%not_elem_of_nil|].
  intros k' (n & st & ->) Hk'. apply (HQ _ st). split; kernel_cbn; [done|by rewrite lookup_alter_eq, H0|by rewrite lookup_alter_ne|by rewrite Hq|done|done].
Qed.

(** The first process forks. *)
Lemma wp_two_fork Q :
  (forall r k t0 t1 a f, two_tasks k t0 t1 [1] (Some 0) -> pass (inner t1) = pass (inner t0) -> children (inner t1) = [] ->
     children (inner t0) = [1] -> a ∈ areas (space_of t0) -> (16, f) ∈ data_frames a -> Q r k) ->
  wp (rust_main machine 1 ;; sys_fork machine) Q (before_boot machine_memory).
Proof.
  intros HQ. wp_step. apply wp_machine. intros r k t _ Hup. pose proof (machine_frames k t Hup) as Hfr. pose proof (machine_space k t Hup) as Hsp.
  destruct (machine_code k t Hup) as (a & f & Ha & Hf & _). destruct Hup as [Hk Hrun Hb]. destruct (bo_next _ _ _ _ _ Hb) as [Hn Hp].
  eapply (wp_sys_fork machine machine_trampoline k 0 t); [done|done|unfold STACK_LIMIT; lia|rewrite Hsp; cbn [length]; lia|].
  intros tc k1 [_ Htasks Hin Hq (Hc & Hi & _) _ _] Hk1. rewrite Hn in Htasks, Hq. apply (HQ _ _ (with_inner (push_child 1) t) tc a f); try done.
  - split; [done| | | | |]; rewrite ?Htasks, ?Hq, ?Hc, ?Hi.
    + by rewrite lookup_insert_ne, lookup_alter_eq, (run_task _ _ _ Hrun) by done.
    + by rewrite lookup_insert_eq.
    + by rewrite (bo_queue _ _ _ _ _ Hb).
    + apply Hrun.
    + apply (bo_init _ _ _ _ _ Hb).
  - by rewrite Hin.
  - by rewrite Hin.
  - cbn. destruct (bo_family _ _ _ _ _ Hb) as [_ ->]. done.
Qed.

(** The first process forks and yields; the child runs and exits with code 7; the first
    process waits for it. *)
Lemma waitpid_reaps_witness :
  wp ((rust_main machine 1 ;; sys_fork machine) ;; sys_yield ;; run_tasks_round machine ;; sys_exit 7 ;; run_tasks_round machine ;;
      sys_waitpid machine (-1) 65600)
    (fun r k => tasks k !! 1 = None /\ (exists p, r = Return p /\ p ∉ task_pids k) /\ kernel_ok machine k) (before_boot machine_memory).
Proof.
  wp_step. apply wp_two_fork. intros r0 k0 t0 t1 a f H0 Hpass Hch1 Hch0 Ha Hf.
  wp_step. eapply wp_two_yield; [done|]. intros k1 H1. wp_step. eapply wp_two_run_child; [done|cbn; lia|]. intros k2 st2 H2.
  wp_step. eapply wp_two_exit; [done|done|]. intros k3 H3. wp_step. eapply wp_two_run_first; [done|]. intros k4 st4 [Hk H4 H5 _ Hc _].
  eapply wp_mono; [|refine (waitpid_reaps machine k4 0 _ (-1) 65600 f Hk (Build_running _ _ _ Hc H4 (ko_free _ _ Hk)) _ _)].
  - intros r k' (i & z & tz & [Hi _ _ _ _] & -> & Hre & Hk'). cbn in Hi. rewrite Hch0 in Hi. destruct i as [|i]; [|done]. injection Hi as <-.
    rewrite (re_tasks _ _ _ _ _ _ _ _ Hre). split_and!; [apply lookup_delete_eq| |done]. exists (pid tz). split; [done|apply Hre].
  - exists 1, (with_inner (zombie_of 7) (with_inner (run_inner st2) t1)). split_and!; [|done|done|done]. cbn. rewrite Hch0. by left.
  - split; [lia|]. split; [by vm_compute|]. by exists a.
Defined.
