(* ===== verification/WidthSpec.v ===== *)
(** * Types at run time

    The model has integers for machine words.  Every operation of the kernel keeps them
    within the types of the source: memory is made of bytes, passes and pids are [usize],
    priorities are what [sys_set_priority] accepts, exit codes [i32], counters [u32],
    permissions [u8], and the console gets characters.  The rules of [typed] follow the
    structure of a computation; the hint database [typed] has those of the operations. *)

From S2P Require Import Prelude Config Address PhysMem FrameAllocator PageTable PageTableSpec MemorySet Timer Pid Utf8.
From S2P Require Import Kernel Manager Task Loader Processor Syscall Trap Boot Machine.

(** ** Computations that keep a type *)

(** [m] keeps [I], and its result, if it returns, is in [R]. *)
Definition typed {S A} (I : S -> Prop) (R : A -> Prop) (m : M S A) : Prop :=
  forall s, I s -> match m s with Ok (a, s') => I s' /\ R a | Panic _ => True end.

Abbreviation any := (fun _ => True) (only parsing).

Create HintDb typed.

Section Rules.
Context {S : Type} (I : S -> Prop).

Lemma typed_bind {A B} (R : A -> Prop) (Q : B -> Prop) (m : M S A) (f : A -> M S B) :
  typed I R m -> (forall a, R a -> typed I Q (f a)) -> typed I Q (bind m f).
Proof.
  intros Hm Hf s Hs. unfold bind. specialize (Hm s Hs). destruct (m s) as [[a s']|]; [|done]. destruct Hm as [Hs' Ha]. by apply Hf.
Qed.

Lemma typed_weaken {A} (R Q : A -> Prop) (m : M S A) : typed I R m -> (forall a, R a -> Q a) -> typed I Q m.
Proof. intros Hm HQ s Hs. specialize (Hm s Hs). destruct (m s) as [[a s']|]; [|done]. destruct Hm. auto. Qed.

Lemma typed_ret {A} (R : A -> Prop) a : R a -> typed I R (ret a).
Proof. intros Ha s Hs. done. Qed.

Lemma typed_panic {A} (R : A -> Prop) r : typed I R (panic r).
Proof. done. Qed.

Lemma typed_get : typed I I get.
Proof. done. Qed.

Lemma typed_gets {A} (R : A -> Prop) f : (forall s, I s -> R (f s)) -> typed I R (gets f).
Proof. intros Hf s Hs. split; [done|by apply Hf]. Qed.

Lemma typed_modify f : (forall s, I s -> I (f s)) -> typed I any (modify f).
Proof. intros Hf s Hs. split; [by apply Hf|done]. Qed.

Lemma typed_assert b : typed I any (assert_ b).
Proof. by destruct b. Qed.

Lemma typed_fault_unless b : typed I any (fault_unless b).
Proof. by destruct b. Qed.

Lemma typed_unwrap {A} (R : A -> Prop) o : (forall a, o = Some a -> R a) -> typed I R (unwrap o).
Proof. intros Ho s Hs. destruct o; [|done]. split; [done|by apply Ho]. Qed.

Lemma typed_lift {A} (R : A -> Prop) o : (forall a, o = Ok a -> R a) -> typed I R (lift o).
Proof. intros Ho s Hs. unfold lift. destruct o; [|done]. split; [done|by apply Ho]. Qed.

Lemma typed_foldM {A B} (J : B -> Prop) (P : A -> Prop) (f : B -> A -> M S B) l b :
  J b -> Forall P l -> (forall b x, J b -> P x -> typed I J (f b x)) -> typed I J (foldM f l b).
Proof.
  intros Hb Hl Hf. revert b Hb. induction Hl as [|x l Hx _ IH]; intros b Hb; cbn [foldM]; [by apply typed_ret|].
  eapply typed_bind; [by apply Hf|exact IH].
Qed.

Lemma typed_for_each {A} (P : A -> Prop) l (f : A -> M S unit) : Forall P l -> (forall x, P x -> typed I any (f x)) -> typed I any (for_each l f).
Proof. intros Hl Hf. eapply (typed_foldM any P); [done|done|]. intros _ x _. apply Hf. Qed.

End Rules.

(** A step into the first part of a computation: what is known of its result is what its
    rule in the database says, or else nothing. *)
Ltac typed_first :=
  lazymatch goal with
  | |- typed _ _ get => apply typed_get
  | |- typed _ _ (gets _) => first [solve [eauto with typed]|by apply (typed_gets _ any)]
  | |- typed _ _ (assert_ _) => apply typed_assert
  | |- typed _ _ (fault_unless _) => apply typed_fault_unless
  | |- typed _ _ (unwrap _) => first [solve [eauto with typed]|by apply (typed_unwrap _ any)]
  | |- typed _ _ (lift _) => first [solve [eauto with typed]|by apply (typed_lift _ any)]
  | |- typed _ _ (modify _) => apply typed_modify; solve [eauto with typed]
  | |- typed _ _ _ => solve [eauto with typed]
  end.
Ltac typed_step := eapply typed_bind; [typed_first|intros ? ?]; cbn beta iota in *.
(** The end of a computation of which only the state matters. *)
Ltac typed_end :=
  lazymatch goal with
  | |- typed _ _ (ret _) => by apply typed_ret
  | |- typed _ _ (panic _) => apply typed_panic
  | |- typed _ _ _ => first [typed_first|eapply typed_weaken; [typed_first|done]]
  end.

(** ** Memory *)

Definition bytes (m : mem) : Prop := forall x, is_u8 (m x).

Lemma byte_at_u8 v i : is_u8 (byte_at v i).
Proof. unfold byte_at, is_u8. by apply Z.mod_pos_bound. Qed.

Lemma bytes_store8 m a v : bytes m -> is_u8 v -> bytes (store8 m a v).
Proof. intros Hm Hv x. unfold store8. by destruct (x =? a). Qed.

Lemma bytes_store64 m a v : bytes m -> bytes (store64 m a v).
Proof. intros Hm x. unfold store64. destruct (in_span x a 8); [apply byte_at_u8|done]. Qed.

Lemma bytes_store32 m a v : bytes m -> bytes (store32 m a v).
Proof. intros Hm x. unfold store32. destruct (in_span x a 4); [apply byte_at_u8|done]. Qed.

Lemma bytes_fill m a n v : bytes m -> is_u8 v -> bytes (fill m a n v).
Proof. intros Hm Hv x. unfold fill. by destruct (in_span x a n). Qed.

Lemma bytes_copy m dst src n : bytes m -> bytes (copy m dst src n).
Proof. intros Hm x. unfold copy. by destruct (in_span x dst n). Qed.

Lemma bytes_store_bytes m a bs : bytes m -> Forall is_u8 bs -> bytes (store_bytes m a bs).
Proof.
  intros Hm Hbs x. unfold store_bytes. destruct (in_span x a _) eqn:Hx; [|done]. apply in_span_true in Hx. rewrite Forall_forall in Hbs.
  apply Hbs, list_elem_of_In, nth_In. lia.
Qed.

Lemma bytes_store_words ws : forall m a, bytes m -> bytes (store_words m a ws).
Proof. induction ws as [|w ws IH]; intros m a Hm; cbn; [done|]. by apply IH, bytes_store64. Qed.

Lemma bytes_store_u32s ws : forall m a, bytes m -> bytes (store_u32s m a ws).
Proof. induction ws as [|w ws IH]; intros m a Hm; cbn; [done|]. by apply IH, bytes_store32. Qed.

#[export] Hint Resolve bytes_store8 bytes_store64 bytes_store32 bytes_fill bytes_copy bytes_store_bytes bytes_store_words bytes_store_u32s : typed.

Lemma load64_usize m a : bytes m -> is_usize (load64 m a).
Proof.
  intros Hm. unfold load64, is_usize. pose proof (Hm a). pose proof (Hm (a + 1)). pose proof (Hm (a + 2)). pose proof (Hm (a + 3)).
  pose proof (Hm (a + 4)). pose proof (Hm (a + 5)). pose proof (Hm (a + 6)). pose proof (Hm (a + 7)). unfold is_u8 in *. lia.
Qed.

Lemma load_bytes_u8 m a n : bytes m -> Forall is_u8 (load_bytes m a n).
Proof. intros Hm. unfold load_bytes. apply Forall_forall. intros x Hx. apply list_elem_of_fmap in Hx as (i & -> & _). apply Hm. Qed.

Lemma wrap64_usize x : is_usize (wrap64 x).
Proof. by apply Z.mod_pos_bound. Qed.

Lemma wrap8_u8 x : is_u8 (wrap8 x).
Proof. by apply Z.mod_pos_bound. Qed.

#[export] Hint Resolve load64_usize load_bytes_u8 wrap64_usize wrap8_u8 lor_u8 : typed.

(** ** Memory management *)

Section Widths.
Context {T : Type} `{FrameAllocator T}.

Definition mm_bytes (s : MmState T) : Prop := bytes (phys s).
Abbreviation mtyped := (typed mm_bytes).

Lemma mm_bytes_set m (s : MmState T) : bytes m -> mm_bytes (set_phys m s).
Proof. done. Qed.
Lemma mm_bytes_phys (s : MmState T) : mm_bytes s -> bytes (phys s).
Proof. done. Qed.
#[local] Hint Resolve mm_bytes_set mm_bytes_phys : typed.

Lemma u8_0 : is_u8 0.
Proof. done. Qed.
#[local] Hint Resolve u8_0 : typed.

Lemma typed_FrameTracker_new p : mtyped any (FrameTracker_new p).
Proof. unfold FrameTracker_new. typed_step. typed_end. Qed.
#[local] Hint Resolve typed_FrameTracker_new : typed.

Lemma typed_frame_alloc : mtyped any frame_alloc.
Proof.
  unfold frame_alloc. typed_step. destruct (fa_alloc _) as [o a']. typed_step. destruct o; [typed_step|]; typed_end.
Qed.

Lemma typed_frame_dealloc p : mtyped any (frame_dealloc p).
Proof. unfold frame_dealloc. typed_step. typed_step. typed_end. Qed.
#[local] Hint Resolve typed_frame_alloc typed_frame_dealloc : typed.

Lemma typed_drop_frames l : mtyped any (drop_frames l).
Proof. eapply (typed_for_each _ any); [by apply Forall_true|]. intros p _. typed_end. Qed.

Lemma typed_PageTable_new : mtyped any PageTable_new.
Proof. unfold PageTable_new. typed_step. typed_step. typed_end. Qed.

Lemma typed_write_pte pte bits : mtyped any (write_pte pte bits).
Proof. unfold write_pte. typed_end. Qed.
#[local] Hint Resolve typed_drop_frames typed_PageTable_new typed_write_pte : typed.

Lemma typed_find_pte_create_loop idxs : forall ppn frames, mtyped any (find_pte_create_loop idxs ppn frames).
Proof.
  induction idxs as [|[i idx] idxs IH]; intros ppn frames; cbn [find_pte_create_loop]; [typed_end|]. destruct (Nat.eqb i 2); [typed_end|].
  typed_step. eapply typed_bind with (R := any).
  - destruct (negb _); [|typed_end]. typed_step. typed_step. typed_step. typed_end.
  - intros fr _. typed_step. apply IH.
Qed.
#[local] Hint Resolve typed_find_pte_create_loop : typed.

Lemma typed_find_pte_create pt vpn : mtyped any (find_pte_create pt vpn).
Proof. unfold find_pte_create. typed_step. destruct a. typed_end. Qed.
#[local] Hint Resolve typed_find_pte_create : typed.

Lemma typed_PageTable_map pt vpn ppn flags : mtyped any (PageTable_map pt vpn ppn flags).
Proof. unfold PageTable_map. typed_step. destruct a. typed_step. typed_step. typed_step. typed_step. typed_end. Qed.

Lemma typed_PageTable_unmap pt vpn : mtyped any (PageTable_unmap pt vpn).
Proof. unfold PageTable_unmap. typed_step. destruct a. typed_step. typed_step. typed_step. typed_step. typed_end. Qed.
#[local] Hint Resolve typed_PageTable_map typed_PageTable_unmap : typed.

(** Areas have permissions of a byte. *)
Definition area_widths (a : MapArea) : Prop := is_u8 (map_perm a).
Definition ms_widths (ms : MemorySet) : Prop := Forall area_widths (areas ms).
Definition pair_widths (p : MapArea * PageTable) : Prop := area_widths (fst p).

Lemma typed_drop_displaced o : mtyped any (drop_displaced o).
Proof. destruct o; cbn [drop_displaced]; typed_end. Qed.
#[local] Hint Resolve typed_drop_displaced : typed.

Lemma typed_map_one area pt vpn : area_widths area -> mtyped pair_widths (map_one area pt vpn).
Proof.
  intros Ha. unfold map_one. eapply typed_bind with (R := fun p => area_widths (snd p)).
  - destruct (map_type area); [typed_end|]. typed_step. typed_step. typed_step. typed_end.
  - intros [ppn a] Ha'. typed_step. typed_end.
Qed.

Lemma typed_unmap_one area pt vpn : area_widths area -> mtyped pair_widths (unmap_one area pt vpn).
Proof.
  intros Ha. unfold unmap_one. eapply typed_bind with (R := area_widths).
  - destruct (map_type area); [typed_end|]. typed_step. typed_end.
  - intros a Ha'. typed_step. typed_end.
Qed.

Lemma typed_MapArea_map area pt : area_widths area -> mtyped pair_widths (MapArea_map area pt).
Proof.
  intros Ha. eapply (typed_foldM _ pair_widths any); [done|by apply Forall_true|]. intros [a p] vpn Hp _. by apply typed_map_one.
Qed.

Lemma typed_MapArea_unmap area pt : area_widths area -> mtyped pair_widths (MapArea_unmap area pt).
Proof.
  intros Ha. eapply (typed_foldM _ pair_widths any); [done|by apply Forall_true|]. intros [a p] vpn Hp _. by apply typed_unmap_one.
Qed.
#[local] Hint Resolve typed_MapArea_map typed_MapArea_unmap : typed.

Lemma slice_u8 data lo hi bs : Forall is_u8 data -> slice data lo hi = Ok bs -> Forall is_u8 bs.
Proof. intros Hd. unfold slice. destruct (_ && _); [|done]. intros [= <-]. by apply Forall_take, Forall_drop. Qed.

Lemma typed_copy_data_loop pt data fuel : Forall is_u8 data -> forall start vpn, mtyped any (copy_data_loop fuel pt data start vpn).
Proof.
  intros Hd. induction fuel as [|fuel IH]; intros start vpn; cbn [copy_data_loop]; [typed_end|].
  eapply typed_bind; [apply (typed_lift _ (Forall is_u8)); intros bs; by apply slice_u8|]. intros src Hsrc.
  do 4 typed_step. destruct (_ <=? _); [typed_end|apply IH].
Qed.

Lemma typed_copy_data area pt data : Forall is_u8 data -> mtyped any (copy_data area pt data).
Proof. intros Hd. unfold copy_data. typed_step. by apply typed_copy_data_loop. Qed.

Lemma typed_drop_area area : mtyped any (drop_area area).
Proof. unfold drop_area. typed_end. Qed.
#[local] Hint Resolve typed_copy_data typed_drop_area : typed.

Lemma typed_new_bare : mtyped ms_widths new_bare.
Proof. unfold new_bare. typed_step. apply typed_ret. by apply Forall_nil. Qed.

Lemma typed_MemorySet_push ms area data :
  ms_widths ms -> area_widths area -> match data with Some d => Forall is_u8 d | None => True end -> mtyped ms_widths (MemorySet_push ms area data).
Proof.
  intros Hms Ha Hd. unfold MemorySet_push. typed_step. destruct a as [a pt]. eapply typed_bind with (R := any).
  - destruct data; typed_end.
  - intros _ _. apply typed_ret. apply Forall_app. split; [done|]. by apply Forall_singleton.
Qed.

Lemma MapArea_new_widths l r ty perm a : is_u8 perm -> MapArea_new l r ty perm = Ok a -> area_widths a.
Proof. intros Hp. unfold MapArea_new. destruct (SimpleRange_new _ _); [|done]. by intros [= <-]. Qed.

Lemma typed_MapArea_new {S} (I : S -> Prop) l r ty perm : is_u8 perm -> typed I area_widths (lift (MapArea_new l r ty perm)).
Proof. intros Hp. apply typed_lift. intros a. by apply MapArea_new_widths. Qed.
#[local] Hint Resolve typed_new_bare typed_MemorySet_push typed_MapArea_new : typed.

Lemma typed_insert_framed_area ms l r perm : ms_widths ms -> is_u8 perm -> mtyped ms_widths (insert_framed_area ms l r perm).
Proof. intros Hms Hp. unfold insert_framed_area. typed_step. by apply typed_MemorySet_push. Qed.

Lemma find_area_widths start l i idx a : Forall area_widths l -> find_area start l i = Some (idx, a) -> area_widths a.
Proof.
  intros Hl. revert i. induction Hl as [|b l Hb _ IH]; intros i; cbn [find_area]; [done|]. destruct (_ =? _); [by intros [= _ <-]|apply IH].
Qed.

Lemma typed_remove_area ms start : ms_widths ms -> mtyped ms_widths (remove_area_with_start_vpn ms start).
Proof.
  intros Hms. unfold remove_area_with_start_vpn. destruct (find_area _ _ _) as [[idx area]|] eqn:Hf; [|typed_end].
  pose proof (find_area_widths _ _ _ _ _ Hms Hf). typed_step. destruct a as [a pt]. typed_step. apply typed_ret. by apply Forall_delete.
Qed.

Lemma typed_recycle_data_pages ms : mtyped ms_widths (recycle_data_pages ms).
Proof.
  unfold recycle_data_pages. eapply typed_bind; [apply (typed_for_each _ any); [by apply Forall_true|intros a _; typed_end]|].
  intros _ _. apply typed_ret. by apply Forall_nil.
Qed.

Lemma typed_drop_memory_set ms : mtyped any (drop_memory_set ms).
Proof. unfold drop_memory_set. typed_step. apply (typed_for_each _ any); [by apply Forall_true|intros x _; typed_end]. Qed.

Lemma typed_MemorySet_unmap ms l r : ms_widths ms -> mtyped ms_widths (MemorySet_unmap ms l r).
Proof.
  intros Hms. unfold MemorySet_unmap. typed_step. eapply typed_bind; [apply (typed_foldM _ any any); [done|by apply Forall_true|intros p v _ _; typed_end]|].
  intros pt _. by apply typed_ret.
Qed.
#[local] Hint Resolve typed_insert_framed_area typed_remove_area typed_recycle_data_pages typed_drop_memory_set typed_MemorySet_unmap : typed.

(** *** Building address spaces *)

Context (ld : linker_symbols).

Lemma typed_map_trampoline ms : ms_widths ms -> mtyped ms_widths (map_trampoline ld ms).
Proof. intros Hms. unfold map_trampoline. typed_step. typed_step. typed_step. by apply typed_ret. Qed.

Lemma typed_push_identical ms l r perm : ms_widths ms -> is_u8 perm -> mtyped ms_widths (push_identical ms l r perm).
Proof. intros Hms Hp. unfold push_identical. typed_step. by apply typed_MemorySet_push. Qed.
#[local] Hint Resolve typed_map_trampoline typed_push_identical : typed.

Lemma perm_u8 (p : MapPermission) : is_u8 p.
Proof. by destruct p. Qed.
#[local] Hint Resolve perm_u8 : typed.

Lemma typed_new_kernel : mtyped ms_widths (new_kernel ld).
Proof. unfold new_kernel. do 6 typed_step. typed_end. Qed.

Lemma typed_remap_test ks : mtyped any (remap_test ld ks).
Proof.
  assert (forall m lo hi perm, mtyped any (remap_check m ks lo hi perm)) as Hc by (intros m lo hi perm; unfold remap_check; typed_step; typed_end).
  unfold remap_test. typed_step. do 2 (eapply typed_bind; [apply Hc|intros _ _]). apply Hc.
Qed.

Lemma segment_perm_u8 ph : is_u8 (segment_perm ph).
Proof. unfold segment_perm. by destruct (ph_is_read ph), (ph_is_write ph), (ph_is_execute ph). Qed.
#[local] Hint Resolve segment_perm_u8 : typed.

Lemma typed_load_segment input st header : Forall is_u8 input -> ms_widths (fst st) -> mtyped (fun p => ms_widths (fst p)) (load_segment input st header).
Proof.
  intros Hin. destruct st as [ms e]. intros Hms. unfold load_segment. typed_step. typed_step. destruct a0; [|typed_end]. typed_step.
  eapply typed_bind; [apply (typed_lift _ (Forall is_u8)); intros bs; by apply slice_u8|]. intros data Hd. typed_step. typed_end.
Qed.

(** [from_elf] returns a stack pointer of the width of an address. *)
Definition elf_widths (r : MemorySet * Z * Z) : Prop := ms_widths (fst (fst r)) /\ is_usize (snd (fst r)).

Lemma typed_from_elf parse data :
  (forall elf, parse data = Some elf -> Forall is_u8 (elf_input elf)) -> mtyped elf_widths (from_elf ld parse data).
Proof.
  intros Hp. unfold from_elf. typed_step. typed_step.
  eapply typed_bind; [apply typed_unwrap; exact Hp|]. intros elf Helf. typed_step.
  eapply typed_bind; [apply (typed_foldM _ (fun p => ms_widths (fst p)) any); [done|by apply Forall_true|intros st h Hst _; by apply typed_load_segment]|].
  intros [ms e] Hms. typed_step. typed_step. typed_step. typed_step. apply typed_ret. split; [done|]. cbn. apply wrap64_usize.
Qed.

Lemma typed_copy_page us ms vpn : mtyped any (copy_page us ms vpn).
Proof. unfold copy_page. do 5 typed_step. typed_end. Qed.

Lemma typed_copy_area us ms area : ms_widths ms -> area_widths area -> mtyped ms_widths (copy_area us ms area).
Proof.
  intros Hms Ha. unfold copy_area. eapply typed_bind with (R := area_widths).
  - apply typed_lift. intros b. unfold MapArea_from_another. destruct (SimpleRange_new _ _); [|done]. by intros [= <-].
  - intros b Hb. typed_step. eapply typed_bind; [apply (typed_for_each _ any); [by apply Forall_true|intros v _; apply typed_copy_page]|].
    intros _ _. by apply typed_ret.
Qed.

Lemma typed_from_existed_user us : ms_widths us -> mtyped ms_widths (from_existed_user ld us).
Proof.
  intros Hus. unfold from_existed_user. typed_step. typed_step. eapply (typed_foldM _ ms_widths area_widths); [done|done|].
  intros ms area. apply typed_copy_area.
Qed.
#[local] Hint Resolve typed_new_kernel typed_remap_test typed_from_elf typed_from_existed_user : typed.

End Widths.

#[export] Hint Resolve typed_new_kernel typed_remap_test typed_from_elf typed_from_existed_user typed_insert_framed_area typed_remove_area
  typed_recycle_data_pages typed_drop_memory_set typed_MemorySet_unmap perm_u8 u8_0 : typed.

(** ** The kernel *)

Definition is_i32 (x : Z) : Prop := - 2 ^ 31 <= x < 2 ^ 31.
(** A Unicode scalar value. *)
Definition is_char (c : Z) : Prop := 0 <= c < 0xd800 \/ 0xe000 <= c < 0x110000.

Record inner_widths (t : TaskControlBlockInner) : Prop := {
  iw_cx : 0 <= trap_cx_ppn t < 2 ^ 44;
  iw_base : is_usize (base_size t);
  iw_space : ms_widths (memory_set t);
  iw_code : is_i32 (exit_code t);
  iw_pass : is_usize (pass t);
  iw_priority : 2 <= priority t < 2 ^ 63;
  iw_times : length (syscall_times t) = Z.to_nat MAX_SYSCALL_NUM /\ Forall is_u32 (syscall_times t);
  iw_start : match start_time t with Some ms => is_usize ms | None => True end;
  iw_kstack : match kstack t with InRead buf len => is_usize buf /\ is_usize len | _ => True end
}.

Definition task_widths (t : TaskControlBlock) : Prop := is_usize (pid t) /\ inner_widths (inner t).
Definition pids_widths (a : PidAllocator) : Prop := is_usize (pid_current a) /\ Forall is_usize (pid_recycled a).

(** What the types of the source say of the state. *)
Record widths {T} (k : Kernel T) : Prop := {
  wd_mem : bytes (phys (mm k));
  wd_space : ms_widths (kernel_space k);
  wd_pids : pids_widths (pid_allocator k);
  wd_tasks : map_Forall (fun _ t => task_widths t) (tasks k);
  wd_timer : match timer k with Some t => is_usize t | None => True end;
  wd_console : Forall is_char (console k)
}.

(** The clock is a [u64], and what [xmas_elf] has of a file are bytes. *)
Class PlatformWidths (pf : Platform) : Prop := {
  pw_time n : is_usize (time_at pf n);
  pw_elf data elf : Forall is_u8 data -> parse_elf pf data = Some elf -> Forall is_u8 (elf_input elf)
}.

Section Kernel.
Context {T : Type} `{FrameAllocator T} (pf : Platform) `{!PlatformWidths pf}.
Implicit Types k : Kernel T.
Abbreviation ktyped := (typed (widths (T := T))).

Lemma wd_current v k : widths k -> widths (set_current v k).
Proof. by intros []. Qed.
Lemma wd_ready_queue v k : widths k -> widths (set_ready_queue v k).
Proof. by intros []. Qed.
Lemma wd_borrowed v k : widths k -> widths (set_borrowed v k).
Proof. by intros []. Qed.
Lemma wd_initproc v k : widths k -> widths (set_initproc v k).
Proof. by intros []. Qed.
Lemma wd_time_reads v k : widths k -> widths (set_time_reads v k).
Proof. by intros []. Qed.
Lemma wd_char_reads v k : widths k -> widths (set_char_reads v k).
Proof. by intros []. Qed.
Lemma wd_next_task v k : widths k -> widths (set_next_task v k).
Proof. by intros []. Qed.
Lemma wd_set_mm v k : widths k -> mm_bytes v -> widths (set_mm v k).
Proof. by intros []. Qed.
Lemma wd_set_space v k : widths k -> ms_widths v -> widths (set_kernel_space v k).
Proof. by intros []. Qed.
Lemma wd_set_pids v k : widths k -> pids_widths v -> widths (set_pid_allocator v k).
Proof. by intros []. Qed.
Lemma wd_set_tasks v k : widths k -> map_Forall (fun _ t => task_widths t) v -> widths (set_tasks v k).
Proof. by intros []. Qed.
Lemma wd_set_timer v k : widths k -> is_usize v -> widths (set_timer_ (Some v) k).
Proof. by intros []. Qed.
#[local] Hint Resolve wd_current wd_ready_queue wd_borrowed wd_initproc wd_time_reads wd_char_reads wd_next_task wd_set_mm wd_set_space
  wd_set_pids wd_set_tasks wd_set_timer wd_mem wd_space wd_pids wd_tasks : typed.

Lemma wd_delete_task id k : widths k -> widths (set_tasks (delete id (tasks k)) k).
Proof. intros Hk. apply wd_set_tasks; [done|]. by apply map_Forall_delete, wd_tasks. Qed.
#[local] Hint Resolve wd_delete_task : typed.

(** *** Access *)

Lemma typed_with_cell {A} (R : A -> Prop) c m : ktyped R m -> ktyped R (with_cell c m).
Proof.
  intros Hm k Hk. unfold with_cell. destruct (decide _); [done|]. specialize (Hm _ (wd_borrowed (c :: borrowed k) k Hk)).
  destruct (m _) as [[a k']|]; [|done]. destruct Hm as [Hk' Ha]. split; [by apply wd_borrowed|done].
Qed.

Lemma typed_in_mm {A} (R : A -> Prop) m : typed mm_bytes R m -> ktyped R (in_mm m).
Proof.
  intros Hm k Hk. unfold in_mm, zoom. specialize (Hm (mm k) (wd_mem _ Hk)). destruct (m (mm k)) as [[a s]|]; [|done].
  destruct Hm as [Hs Ha]. split; [by apply wd_set_mm|done].
Qed.

Lemma typed_mem_of : ktyped bytes mem_of.
Proof. apply typed_gets. eauto with typed. Qed.

Lemma typed_update_mem f : (forall m, bytes m -> bytes (f m)) -> ktyped any (update_mem f).
Proof. intros Hf. apply typed_modify. intros k Hk. apply wd_set_mm; [done|]. by apply Hf, wd_mem. Qed.

Lemma typed_gets_pids : ktyped pids_widths (gets pid_allocator).
Proof. apply typed_gets. eauto with typed. Qed.

Lemma typed_gets_space : ktyped ms_widths (gets kernel_space).
Proof. apply typed_gets. eauto with typed. Qed.
#[local] Hint Resolve typed_gets_pids typed_gets_space : typed.

Lemma typed_task_of id : ktyped task_widths (task_of id).
Proof. intros k Hk. unfold task_of, bind, get, unwrap. destruct (tasks k !! id) as [t|] eqn:Ht; [|done]. split; [done|]. by apply (wd_tasks _ Hk id). Qed.

Lemma typed_inner_of id : ktyped inner_widths (inner_of id).
Proof. eapply typed_bind; [apply typed_task_of|]. intros t [_ Ht]. by apply typed_ret. Qed.
#[local] Hint Resolve typed_with_cell typed_in_mm typed_mem_of typed_update_mem typed_task_of typed_inner_of : typed.

Lemma typed_update_inner id f : (forall t, inner_widths t -> inner_widths (f t)) -> ktyped any (update_inner id f).
Proof.
  intros Hf. unfold update_inner. typed_step. apply typed_modify. intros k Hk. apply wd_set_tasks; [done|].
  apply map_Forall_insert_2; [|by apply wd_tasks]. destruct H0. split; [done|by apply Hf].
Qed.

Lemma typed_new_task t : task_widths t -> ktyped any (new_task t).
Proof.
  intros Ht. unfold new_task. typed_step. eapply typed_bind; [apply typed_modify|intros _ _; typed_end].
  intros k Hk. apply wd_next_task, wd_set_tasks; [done|]. apply map_Forall_insert_2; [done|by apply wd_tasks].
Qed.

Lemma typed_read_time : ktyped is_usize (read_time pf).
Proof. unfold read_time. typed_step. typed_step. apply typed_ret, pw_time. Qed.

Lemma typed_console_getchar : ktyped any (console_getchar pf).
Proof. unfold console_getchar. typed_step. typed_step. typed_end. Qed.

Lemma typed_console_putchar c : is_char c -> ktyped any (console_putchar c).
Proof. intros Hc. apply typed_modify. intros k []. split; try done. cbn. apply Forall_app. split; [done|]. by apply Forall_singleton. Qed.
#[local] Hint Resolve typed_update_inner typed_new_task typed_read_time typed_console_getchar typed_console_putchar : typed.

(** *** Tasks *)

Lemma iw_set_status v t : inner_widths t -> inner_widths (set_status v t).
Proof. by intros []. Qed.
Lemma iw_set_parent v t : inner_widths t -> inner_widths (set_parent v t).
Proof. by intros []. Qed.
Lemma iw_set_children v t : inner_widths t -> inner_widths (set_children v t).
Proof. by intros []. Qed.
Lemma iw_set_memory_set v t : ms_widths v -> inner_widths t -> inner_widths (set_memory_set v t).
Proof. by intros ? []. Qed.
Lemma iw_set_trap_cx v t : 0 <= v < 2 ^ 44 -> inner_widths t -> inner_widths (set_trap_cx_ppn v t).
Proof. by intros ? []. Qed.
Lemma iw_set_exit_code v t : is_i32 v -> inner_widths t -> inner_widths (set_exit_code v t).
Proof. by intros ? []. Qed.
Lemma iw_set_pass v t : is_usize v -> inner_widths t -> inner_widths (set_pass v t).
Proof. by intros ? []. Qed.
Lemma iw_set_priority v t : 2 <= v < 2 ^ 63 -> inner_widths t -> inner_widths (set_priority v t).
Proof. by intros ? []. Qed.
Lemma iw_set_start v t : is_usize v -> inner_widths t -> inner_widths (set_start_time (Some v) t).
Proof. by intros ? []. Qed.
Lemma iw_set_kstack r t : match r with InRead buf len => is_usize buf /\ is_usize len | _ => True end -> inner_widths t -> inner_widths (set_kstack r t).
Proof. by intros ? []. Qed.
#[local] Hint Resolve iw_set_status iw_set_parent iw_set_children iw_set_memory_set iw_set_trap_cx iw_set_exit_code iw_set_pass iw_set_priority
  iw_set_start iw_set_kstack iw_space : typed.

Lemma pids_alloc_widths a : pids_widths a -> is_usize (fst (pids_alloc a)) /\ pids_widths (snd (pids_alloc a)).
Proof.
  intros [Hc Hr]. unfold pids_alloc. destruct (vec_cases (pid_recycled a)) as [->|(r' & p & Heq)].
  - rewrite vec_pop_nil. split; [apply wrap64_usize|]. split; [apply wrap64_usize|by apply Forall_nil].
  - rewrite Heq in *. rewrite vec_pop_push. apply Forall_app in Hr as [Hr Hp]. split; [by inversion Hp|done].
Qed.

Lemma typed_pid_alloc : ktyped is_usize pid_alloc.
Proof.
  apply typed_with_cell. typed_step. pose proof (pids_alloc_widths _ H0) as [Hp Ha]. destruct (pids_alloc a) as [p a']. typed_step. by apply typed_ret.
Qed.

Lemma typed_pid_drop p : is_usize p -> ktyped any (pid_drop p).
Proof.
  intros Hp. apply typed_with_cell. typed_step. destruct H0 as [Hc Hr]. eapply typed_bind; [apply (typed_lift _ pids_widths)|intros a' Ha'; typed_end].
  unfold pids_dealloc. intros a'. destruct (_ <? _); [|done]. destruct (existsb _ _); [done|]. intros [= <-]. split; [done|].
  apply Forall_app. split; [done|by apply Forall_singleton].
Qed.

Lemma typed_KernelStack_new p : is_usize p -> ktyped is_usize (KernelStack_new p).
Proof.
  intros Hp. unfold KernelStack_new. destruct (kernel_stack_position p) as [bottom top]. eapply typed_bind; [apply typed_with_cell|intros _ _; by apply typed_ret].
  typed_step. typed_step. typed_end.
Qed.

Lemma typed_KernelStack_drop p : ktyped any (KernelStack_drop p).
Proof.
  unfold KernelStack_drop. destruct (kernel_stack_position p) as [bottom top]. typed_step. apply typed_with_cell. typed_step. typed_step. typed_end.
Qed.

Lemma typed_kernel_token : ktyped any kernel_token.
Proof. apply typed_with_cell. typed_end. Qed.
#[local] Hint Resolve typed_pid_alloc typed_pid_drop typed_KernelStack_new typed_KernelStack_drop typed_kernel_token : typed.

Lemma typed_find_trap_cx ms : ktyped (fun p => 0 <= p < 2 ^ 44) (find_trap_cx ms).
Proof. unfold find_trap_cx. typed_step. typed_step. typed_step. apply typed_ret, pte_ppn_range. Qed.

Lemma typed_write_init_context cx entry sp ksp : ktyped any (write_init_context pf cx entry sp ksp).
Proof. unfold write_init_context. typed_step. apply typed_update_mem. intros m. apply bytes_store_words. Qed.
#[local] Hint Resolve typed_find_trap_cx typed_write_init_context : typed.

Lemma typed_load_program data : Forall is_u8 data -> ktyped elf_widths (in_mm (from_elf (linker pf) (parse_elf pf) data)).
Proof. intros Hd. apply typed_in_mm, typed_from_elf. intros elf. by apply pw_elf. Qed.
#[local] Hint Resolve typed_load_program : typed.

(** A task that has just been made. *)
Lemma new_inner_widths cx base tcx ms parent : 0 <= cx < 2 ^ 44 -> is_usize base -> ms_widths ms ->
  forall st pr, 2 <= pr < 2 ^ 63 -> inner_widths
  {| trap_cx_ppn := cx; base_size := base; task_cx := tcx; task_status := st; memory_set := ms; parent := parent; children := [];
     exit_code := 0; pass := 0; priority := pr; syscall_times := repeat 0 (Z.to_nat MAX_SYSCALL_NUM); start_time := None; kstack := ToTrapReturn |}.
Proof.
  intros Hcx Hb Hms st pr Hpr. split; try done. split; [apply repeat_length|]. apply Forall_forall. intros x Hx. apply list_elem_of_In, repeat_spec in Hx. by subst.
Qed.

Lemma typed_TaskControlBlock_new data : Forall is_u8 data -> ktyped task_widths (TaskControlBlock_new pf data).
Proof.
  intros Hd. unfold TaskControlBlock_new. typed_step. destruct a as [[ms sp] entry]. destruct H0. typed_step. typed_step. typed_step. typed_step.
  apply typed_ret. split; [done|]. by apply new_inner_widths.
Qed.

Lemma typed_exec self data : Forall is_u8 data -> ktyped any (exec pf self data).
Proof.
  intros Hd. unfold exec. typed_step. destruct a as [[ms sp] entry]. destruct H0. typed_step. apply typed_with_cell.
  typed_step. typed_step. typed_step. typed_step. typed_end.
Qed.

Lemma typed_cx_of id : ktyped any (with_cell (CellTask id) (let* t := inner_of id in ret (get_trap_cx t))).
Proof. apply typed_with_cell. typed_step. typed_end. Qed.
#[local] Hint Resolve typed_TaskControlBlock_new typed_exec typed_cx_of : typed.

Lemma typed_fork self : ktyped any (fork pf self).
Proof.
  unfold fork. apply typed_with_cell. typed_step. destruct H0. typed_step. typed_step. typed_step. typed_step.
  eapply typed_bind; [apply typed_new_task; split; [done|by split]|]. intros child _. typed_step. typed_step. typed_step. typed_end.
Qed.

Lemma typed_spawn self data : Forall is_u8 data -> ktyped any (spawn pf self data).
Proof.
  intros Hd. unfold spawn. typed_step. destruct a as [[ms sp] entry]. destruct H0. typed_step. apply typed_with_cell. typed_step. typed_step. typed_step.
  eapply typed_bind; [apply typed_new_task; split; [done|apply new_inner_widths; by eauto using iw_base, iw_priority]|]. intros child _.
  typed_step. typed_step. typed_step. typed_end.
Qed.

Lemma typed_drop_task fuel : forall id, ktyped any (drop_task fuel id).
Proof.
  induction fuel as [|fuel IH]; intros id; cbn [drop_task]; [typed_end|]. typed_step. destruct H0. do 4 typed_step.
  apply (typed_for_each _ any); [by apply Forall_true|]. intros child _. typed_step. destruct (Nat.eqb _ _); [apply IH|typed_end].
Qed.

Lemma typed_drop_arc id : ktyped any (drop_arc id).
Proof. unfold drop_arc. typed_step. destruct (Nat.eqb _ _); [apply typed_drop_task|typed_end]. Qed.
#[local] Hint Resolve typed_fork typed_spawn typed_drop_arc : typed.

(** *** Scheduling *)

Lemma typed_add_task id : ktyped any (add_task id).
Proof. apply typed_with_cell. unfold add. typed_end. Qed.

Lemma typed_fetch_round queue pos entry : ktyped any (fetch_round queue pos entry).
Proof.
  destruct entry as [idx task]. cbn [fetch_round]. destruct (queue !! pos); [|typed_end]. apply typed_with_cell. typed_step. apply typed_with_cell. typed_step. typed_end.
Qed.

Lemma typed_fetch_task : ktyped any fetch_task.
Proof.
  apply typed_with_cell. unfold fetch. typed_step. destruct a as [|x queue]; [typed_end|].
  eapply typed_bind; [apply (typed_foldM _ any any); [done|by apply Forall_true|intros b e _ _; apply typed_fetch_round]|]. intros pos _.
  typed_step. typed_step. eapply typed_bind; [apply typed_with_cell|intros _ _; typed_end]. typed_step.
  eapply typed_bind with (R := any); [by destruct (_ =? _)|]. intros _ _. apply typed_update_inner. intros t Ht. apply iw_set_pass; [apply wrap64_usize|done].
Qed.

Lemma typed_take_current : ktyped any take_current_task.
Proof. apply typed_with_cell. unfold processor_take_current. typed_step. typed_step. typed_end. Qed.

Lemma typed_current_task : ktyped any current_task.
Proof. apply typed_with_cell. unfold processor_current. typed_end. Qed.

Lemma typed_with_current {A} (R : A -> Prop) f : (forall id t, inner_widths t -> ktyped R (f id t)) -> ktyped R (with_current f).
Proof.
  intros Hf. unfold with_current, processor_current. typed_step. typed_step. apply typed_with_cell. typed_step. by apply Hf.
Qed.
#[local] Hint Resolve typed_add_task typed_fetch_task typed_take_current typed_current_task : typed.

Lemma typed_current_user_token : ktyped any current_user_token.
Proof. unfold current_user_token. typed_step. typed_step. apply typed_with_cell. typed_step. typed_end. Qed.

Lemma typed_current_trap_cx : ktyped any current_trap_cx.
Proof. unfold current_trap_cx. typed_step. typed_step. apply typed_with_cell. typed_step. typed_end. Qed.
#[local] Hint Resolve typed_current_user_token typed_current_trap_cx : typed.

Definition is_isize (x : Z) : Prop := - 2 ^ 63 <= x < 2 ^ 63.
Lemma as_isize_isize x : is_usize x -> is_isize (as_isize x).
Proof. unfold is_usize, is_isize, as_isize. intros Hx. destruct (x <? 2 ^ 63) eqn:E; [apply Z.ltb_lt in E|apply Z.ltb_ge in E]; lia. Qed.

Lemma MapPermission_from_bits_u8 b p : is_u8 b -> MapPermission_from_bits b = Some p -> is_u8 p.
Proof. intros Hb. unfold MapPermission_from_bits. destruct (_ =? _); [|done]. by intros [= <-]. Qed.

Lemma typed_task_mmap start len port : ktyped any (task_mmap start len port).
Proof.
  apply typed_with_cell. unfold processor_task_mmap. destruct (_ || _); [typed_end|]. apply typed_with_current. intros id t Ht. typed_step. typed_step.
  destruct (any_mapped _ _ _); [typed_end|].
  eapply typed_bind; [apply (typed_unwrap _ is_u8); intros p; by apply MapPermission_from_bits_u8, wrap8_u8|]. intros perm Hp.
  typed_step. typed_step. typed_end.
Qed.

Lemma typed_task_munmap start len : ktyped any (task_munmap start len).
Proof.
  apply typed_with_cell. unfold processor_task_munmap. destruct (negb _); [typed_end|]. apply typed_with_current. intros id t Ht. typed_step. typed_step.
  destruct (any_unmapped _ _ _); [typed_end|]. typed_step. typed_step. typed_end.
Qed.

Lemma typed_count_syscall id : ktyped any (count_syscall id).
Proof.
  apply typed_with_cell. unfold processor_count_syscall. destruct (_ <? _); [|typed_end]. apply typed_with_current. intros c t Ht.
  destruct (_ !! _); [|typed_end]. apply typed_update_inner. intros t' []. split; try done. cbn. destruct iw_times0 as [Hl Hf].
  split; [by rewrite length_insert|]. apply Forall_insert; [done|]. by apply Z.mod_pos_bound.
Qed.

Lemma typed_suspend r :
  match r with InRead buf len => is_usize buf /\ is_usize len | _ => True end -> ktyped any (suspend_current_and_run_next r).
Proof.
  intros Hr. unfold suspend_current_and_run_next. typed_step. typed_step. eapply typed_bind; [apply typed_with_cell|intros _ _; typed_end].
  typed_step. typed_end.
Qed.

Lemma typed_exit code : is_i32 code -> ktyped any (exit_current_and_run_next code).
Proof.
  intros Hc. unfold exit_current_and_run_next. typed_step. typed_step. eapply typed_bind; [apply typed_with_cell|intros _ _; typed_end].
  typed_step. typed_step. typed_step. typed_step. eapply typed_bind.
  - apply typed_with_cell. typed_step. apply (typed_for_each _ any); [by apply Forall_true|]. intros child _. unfold reparent. typed_step. typed_end.
  - intros _ _. typed_step. typed_step. typed_step. typed_end.
Qed.

Lemma get_time_ms_usize t : is_usize t -> is_usize (get_time_ms t).
Proof. unfold is_usize, get_time_ms. rewrite get_time_us_div. intros [? ?]. split; [by repeat apply Z.div_pos|]. apply Z.div_lt_upper_bound; [done|]. apply Z.div_lt_upper_bound; lia. Qed.

Lemma typed_run_tasks_round : ktyped any (run_tasks_round pf).
Proof.
  apply typed_with_cell. typed_step. destruct a as [task|]; [|typed_end]. eapply typed_bind; [apply typed_with_cell|intros _ _; typed_step; typed_end].
  typed_step. eapply typed_bind with (R := any).
  - destruct (is_some _); [typed_end|]. typed_step. apply typed_update_inner. intros t. by apply iw_set_start, get_time_ms_usize.
  - intros _ _. typed_end.
Qed.
#[local] Hint Resolve typed_task_mmap typed_task_munmap typed_count_syscall typed_suspend typed_exit typed_run_tasks_round : typed.

Lemma app_data_u8 m name data : bytes m -> get_app_data_by_name pf m name = Ok (Some data) -> Forall is_u8 data.
Proof.
  intros Hm. unfold get_app_data_by_name. destruct (APP_NAMES _ _); [|done]. destruct (find_name _ _ _) as [i|]; [|done].
  unfold get_app_data. destruct (_ <? _); [|done]. intros [= <-]. by apply load_bytes_u8.
Qed.

Lemma typed_app_data m name : bytes m -> ktyped (fun o => match o with Some data => Forall is_u8 data | None => True end) (lift (get_app_data_by_name pf m name)).
Proof. intros Hm. apply typed_lift. intros [data|] Hd; [|done]. by eapply app_data_u8. Qed.
#[local] Hint Resolve typed_app_data : typed.

Lemma typed_add_initproc : ktyped any (add_initproc pf).
Proof.
  unfold add_initproc. typed_step. typed_step. eapply typed_bind; [apply (typed_unwrap _ (Forall is_u8)); intros d ->; done|]. intros data Hd.
  typed_step. typed_step. typed_step. typed_end.
Qed.

(** *** System calls *)

Lemma next_char_char bs c rest : Forall is_u8 bs -> next_char bs = Some (c, rest) -> is_char c /\ Forall is_u8 rest.
Proof.
  intros Hbs. unfold next_char, in_range, is_cont, is_char, is_u8 in *. destruct bs as [|b0 r0]; [done|]. apply Forall_cons in Hbs as [H0 Hr0].
  destruct (b0 <? 128) eqn:E0; [intros [= <- <-]; split; [lia|done]|]. destruct r0 as [|b1 r1]; [done|]. apply Forall_cons in Hr0 as [H1 Hr1].
  destruct ((194 <=? b0) && (b0 <=? 223) && _) eqn:E1; [intros [= <- <-]; split; [lia|done]|]. destruct r1 as [|b2 r2]; [done|]. apply Forall_cons in Hr1 as [H2 Hr2].
  destruct (_ && ((128 <=? b2) && (b2 <? 192))) eqn:E2; [intros [= <- <-]; split; [lia|done]|]. destruct r2 as [|b3 r3]; [done|]. apply Forall_cons in Hr2 as [H3 Hr3].
  match goal with |- (if ?b then _ else None) = _ -> _ => destruct b eqn:E3; [|done] end. intros [= <- <-]. split; [lia|done].
Qed.

Lemma from_utf8_chars bs cs : Forall is_u8 bs -> from_utf8 bs = Some cs -> Forall is_char cs.
Proof.
  unfold from_utf8. generalize (length bs) as fuel. intros fuel. revert bs cs. induction fuel as [|fuel IH]; intros bs cs Hbs.
  - destruct bs; [|done]. intros [= <-]. by apply Forall_nil.
  - destruct bs as [|b bs']; [intros [= <-]; by apply Forall_nil|]. cbn [chars_loop]. destruct (next_char _) as [[c rest]|] eqn:Hc; [|done].
    destruct (next_char_char _ _ _ Hbs Hc) as [Hch Hrest]. destruct (chars_loop fuel rest) as [l|] eqn:Hl; [|done]. intros [= <-].
    apply Forall_cons. split; [done|by eapply IH].
Qed.

Lemma typed_sys_write fd buf len : ktyped any (sys_write fd buf len).
Proof.
  unfold sys_write. destruct (_ =? _); [|typed_end]. typed_step. typed_step. typed_step. eapply typed_bind; [|intros _ _; typed_end].
  apply (typed_for_each _ any); [by apply Forall_true|]. intros [b n] _. cbn [write_slice]. typed_step. typed_step.
  eapply typed_bind; [apply (typed_unwrap _ (Forall is_char)); intros cs; by apply from_utf8_chars, load_bytes_u8|]. intros cs Hcs.
  eapply typed_for_each; [exact Hcs|]. intros c Hc. typed_end.
Qed.

Lemma typed_sys_read_loop buf len : is_usize buf -> is_usize len -> ktyped any (sys_read_loop pf buf len).
Proof.
  intros Hb Hl. unfold sys_read_loop. typed_step. destruct (_ =? _).
  - eapply typed_bind; [by apply typed_suspend|]. intros _ _. typed_end.
  - typed_step. typed_step. typed_step. destruct a2 as [|[p n] bufs]; [typed_end|]. typed_step. eapply typed_bind; [apply typed_update_mem; intros m Hm; by apply bytes_store8, wrap8_u8|].
    intros _ _. typed_end.
Qed.
#[local] Hint Resolve typed_sys_write typed_sys_read_loop : typed.

Lemma typed_sys_read fd buf len : is_usize buf -> is_usize len -> ktyped any (sys_read pf fd buf len).
Proof. intros Hb Hl. unfold sys_read. destruct (_ =? _); [|typed_end]. typed_step. typed_end. Qed.

Lemma typed_sys_exit code : is_i32 code -> ktyped any (sys_exit code).
Proof. intros Hc. unfold sys_exit. typed_step. typed_end. Qed.

Lemma typed_sys_yield : ktyped any sys_yield.
Proof. unfold sys_yield. eapply typed_bind; [by apply typed_suspend|]. intros _ _. typed_end. Qed.

Lemma typed_sys_getpid : ktyped any sys_getpid.
Proof. unfold sys_getpid. typed_step. typed_step. typed_step. typed_end. Qed.

Lemma typed_sys_fork : ktyped any (sys_fork pf).
Proof. unfold sys_fork. do 7 typed_step. typed_end. Qed.

Lemma typed_sys_exec path : ktyped any (sys_exec pf path).
Proof. unfold sys_exec. do 4 typed_step. destruct a2; [|typed_end]. do 3 typed_step. typed_end. Qed.

Lemma typed_any_child arg l : ktyped any (any_child arg l).
Proof. apply (typed_foldM _ any any); [done|by apply Forall_true|]. intros b id _ _. typed_step. typed_end. Qed.

Lemma typed_find_zombie arg l : forall idx, ktyped any (find_zombie arg l idx).
Proof.
  induction l as [|id l IH]; intros idx; cbn [find_zombie]; [typed_end|]. typed_step.
  eapply typed_bind with (R := any); [apply typed_with_cell; typed_step; typed_end|]. intros z _. destruct (_ && _); [typed_end|apply IH].
Qed.
#[local] Hint Resolve typed_any_child typed_find_zombie : typed.

Lemma typed_sys_waitpid arg ptr : ktyped any (sys_waitpid pf arg ptr).
Proof.
  unfold sys_waitpid. typed_step. typed_step. apply typed_with_cell. typed_step. typed_step. destruct (negb _); [typed_end|]. typed_step.
  destruct a3 as [[idx child]|]; [|typed_end]. do 4 typed_step. eapply typed_bind with (R := any); [apply typed_with_cell; typed_step; typed_end|]. intros code _.
  do 6 typed_step. typed_end.
Qed.

Lemma typed_sys_get_time ts tz : ktyped any (sys_get_time pf ts tz).
Proof. unfold sys_get_time. do 6 typed_step. typed_end. Qed.

Lemma status_byte_u8 s : is_u8 (status_byte s).
Proof. by destruct s. Qed.

Lemma typed_sys_task_info ti : ktyped any (sys_task_info pf ti).
Proof.
  unfold sys_task_info. do 3 typed_step. eapply typed_bind with (R := any); [apply typed_with_cell, typed_with_current; intros id t _; typed_end|]. intros st _.
  eapply typed_bind with (R := any); [apply typed_with_cell, typed_with_current; intros id t _; typed_end|]. intros times _.
  eapply typed_bind with (R := any); [apply typed_with_cell; typed_step; apply typed_with_current; intros id t _; typed_step; typed_end|]. intros time _.
  typed_step. eapply typed_bind; [apply typed_update_mem; intros m Hm; by apply bytes_store64, bytes_store_u32s, bytes_store8, status_byte_u8|]. intros _ _. typed_end.
Qed.

Lemma typed_sys_set_priority prio : is_isize prio -> ktyped any (sys_set_priority prio).
Proof.
  intros Hp. unfold sys_set_priority. destruct (prio <? 2) eqn:E; [typed_end|]. apply Z.ltb_ge in E. typed_step. typed_step.
  eapply typed_bind; [apply typed_with_cell, typed_update_inner; intros t; apply iw_set_priority|intros _ _; typed_end].
  unfold as_usize. unfold is_isize in Hp. rewrite wrap64_small by lia. lia.
Qed.

Lemma typed_sys_mmap start len port : ktyped any (sys_mmap start len port).
Proof. unfold sys_mmap. typed_step. typed_end. Qed.

Lemma typed_sys_munmap start len : ktyped any (sys_munmap start len).
Proof. unfold sys_munmap. typed_step. typed_end. Qed.

Lemma typed_sys_spawn path : ktyped any (sys_spawn pf path).
Proof. unfold sys_spawn. do 4 typed_step. destruct a2; [|typed_end]. do 5 typed_step. typed_end. Qed.
#[local] Hint Resolve typed_sys_read typed_sys_exit typed_sys_yield typed_sys_getpid typed_sys_fork typed_sys_exec typed_sys_waitpid typed_sys_get_time
  typed_sys_task_info typed_sys_set_priority typed_sys_mmap typed_sys_munmap typed_sys_spawn : typed.

Lemma as_i32_i32 x : is_i32 (as_i32 x).
Proof.
  unfold as_i32, is_i32. assert (0 <= wrap32 x < 2 ^ 32) by (by apply Z.mod_pos_bound).
  destruct (wrap32 x <? 2 ^ 31) eqn:E; [apply Z.ltb_lt in E|apply Z.ltb_ge in E]; lia.
Qed.
#[local] Hint Resolve as_i32_i32 as_isize_isize : typed.

Lemma typed_syscall id a0 a1 a2 : is_usize a0 -> is_usize a1 -> is_usize a2 -> ktyped any (syscall pf id a0 a1 a2).
Proof.
  intros H0 H1 H2. unfold syscall. typed_step. repeat (destruct (id =? _); [typed_end|]). typed_end.
Qed.

(** *** Traps *)

Lemma typed_load_cx cx i : ktyped is_usize (load_cx cx i).
Proof. unfold load_cx. typed_step. apply typed_ret. by apply load64_usize. Qed.

Lemma typed_store_cx cx i v : ktyped any (store_cx cx i v).
Proof. apply typed_update_mem. intros m. apply bytes_store64. Qed.
#[local] Hint Resolve typed_load_cx typed_store_cx typed_syscall : typed.

Lemma typed_finish_syscall v : ktyped any (finish_syscall v).
Proof. unfold finish_syscall. typed_step. typed_end. Qed.
#[local] Hint Resolve typed_finish_syscall : typed.

Lemma typed_finish_control r : ktyped any (match r with Return result => finish_syscall result ;; ret true | Switched => ret false end).
Proof. destruct r; [typed_step|]; typed_end. Qed.

Lemma typed_trap_handler cause : ktyped any (trap_handler pf cause).
Proof.
  assert (forall code, is_i32 code -> ktyped any (exit_current_and_run_next code ;; ret false)) as Hexit by (intros code Hc; typed_step; typed_end).
  destruct cause; cbn [trap_handler]; [| | | | | | |by apply Hexit| |typed_end]; try (typed_step; typed_step; by apply Hexit).
  - do 8 typed_step. apply typed_finish_control.
  - typed_step. eapply typed_bind; [apply typed_modify; intros k Hk; apply wd_set_timer; [done|apply wrap64_usize]|]. intros _ _.
    eapply typed_bind; [by apply typed_suspend|]. intros _ _. typed_end.
Qed.

Lemma typed_resume_task id : ktyped any (resume_task pf id).
Proof.
  unfold resume_task. typed_step. destruct H0 as [_ _ _ _ _ _ _ _ Hk]. destruct (kstack a) as [| | |buf len]; [typed_end|typed_step; typed_end|typed_end|].
  destruct Hk. typed_step. apply typed_finish_control.
Qed.

Lemma typed_trap_return : ktyped any trap_return.
Proof. unfold trap_return. typed_step. typed_end. Qed.
#[local] Hint Resolve typed_trap_handler typed_resume_task typed_trap_return : typed.

Lemma typed_run_tasks fuel : ktyped any (run_tasks pf fuel).
Proof.
  induction fuel as [|fuel IH]; cbn [run_tasks]; [typed_end|]. typed_step. destruct a; [|typed_end]. typed_step. destruct a; [typed_step; typed_end|exact IH].
Qed.

Lemma typed_kernel_step fuel cause : ktyped any (kernel_step pf fuel cause).
Proof. unfold kernel_step. typed_step. destruct a; [typed_step; typed_end|apply typed_run_tasks]. Qed.

End Kernel.

(** ** From power-on *)

Section Reached.
Context (pf : Platform).
Abbreviation K := (Kernel StackFrameAllocator).

(** The states after start-up from memory [m0]: user code stores bytes, and traps. *)
Inductive reached (m0 : mem) : K -> Prop :=
| reached_boot fuel r k : rust_main pf fuel (before_boot m0) = Ok (r, k) -> reached m0 k
| reached_user m k : reached m0 k -> bytes m -> reached m0 (set_mm (set_phys m (mm k)) k)
| reached_trap fuel cause r k k' : reached m0 k -> kernel_step pf fuel cause k = Ok (r, k') -> reached m0 k'.

Lemma before_boot_widths m : bytes m -> widths (before_boot m).
Proof. intros Hm. split; try done; by apply Forall_nil. Qed.

Lemma typed_mm_init : typed (widths (T := StackFrameAllocator)) any (mm_init pf).
Proof.
  unfold mm_init. eapply typed_bind; [apply typed_modify; by intros k []|]. intros _ _. eapply typed_bind; [apply typed_in_mm, typed_new_kernel|]. intros ks Hks.
  eapply typed_bind; [apply typed_modify; intros k; by intros []|]. intros _ _. apply typed_kernel_token.
Qed.

Lemma typed_rust_main `{!PlatformWidths pf} fuel : typed (widths (T := StackFrameAllocator)) any (rust_main pf fuel).
Proof.
  unfold rust_main. eapply typed_bind; [apply typed_update_mem; intros m Hm; by apply bytes_fill|]. intros _ _.
  eapply typed_bind; [apply typed_mm_init|]. intros satp _.
  eapply typed_bind; [apply typed_with_cell; eapply typed_bind; [apply typed_gets_space|intros ks _; apply typed_in_mm, typed_remap_test]|]. intros _ _.
  eapply typed_bind; [by apply typed_add_initproc|]. intros _ _. eapply typed_bind; [by apply typed_read_time|]. intros now _.
  eapply typed_bind; [apply typed_modify; intros k Hk; apply wd_set_timer; [done|apply wrap64_usize]|]. intros _ _. by apply typed_run_tasks.
Qed.

(** C4: Values keep their types.  In every state that the kernel reaches from start-up,
    whatever bytes user code stores and however it traps, memory is made of bytes; of every
    process the pass is a [usize], the priority one that [sys_set_priority] accepts, the exit
    code an [i32], the counters of its system calls are [MAX_SYSCALL_NUM] many [u32], and its
    trap context is in a page of 44 bits; pids, permissions of areas, the timer and the
    characters on the console are in range. *)
Theorem reached_widths `{!PlatformWidths pf} m0 k : bytes m0 -> reached m0 k -> widths k.
Proof.
  intros Hm0. induction 1 as [fuel r k Hb|m k _ Hk Hm|fuel cause r k k' _ Hk Hs].
  - pose proof (typed_rust_main fuel _ (before_boot_widths _ Hm0)) as Ht. rewrite Hb in Ht. by apply Ht.
  - by apply wd_set_mm.
  - pose proof (typed_kernel_step pf fuel cause _ Hk) as Ht. rewrite Hs in Ht. by apply Ht.
Qed.

End Reached.

Lemma is_u8_bool bs : forallb (fun x => (0 <=? x) && (x <? 256)) bs = true -> Forall is_u8 bs.
Proof. rewrite forallb_forall. intros Hb. apply Forall_forall. intros x Hx. apply list_elem_of_In, Hb in Hx. unfold is_u8. lia. Qed.

Lemma machine_bytes_u8 : Forall is_u8 machine_bytes.
Proof. by apply is_u8_bool. Qed.

(** The machine of the examples boots into such a state. *)
#[global] Instance machine_widths : PlatformWidths machine.
Proof.
  split.
  - intros n. apply wrap64_usize.
  - intros data elf _ [= <-]. exact machine_bytes_u8.
Qed.

Lemma machine_memory_bytes : bytes machine_memory.
Proof.
  unfold machine_memory. apply bytes_store_bytes; [|by apply is_u8_bool]. apply bytes_store_bytes; [|apply machine_bytes_u8].
  apply bytes_store64, bytes_store64, bytes_store64. by intros x.
Qed.

Lemma reached_widths_witness : exists r k, rust_main machine 1 (before_boot machine_memory) = Ok (r, k) /\ widths k.
Proof.
  assert (wp (rust_main machine 1) (fun _ _ => True) (before_boot machine_memory)) as Hb by (by apply wp_machine).
  destruct (proj1 (wp_Ok (rust_main machine 1) _ (before_boot machine_memory)) Hb) as (r & k & Hr & _). exists r, k. split; [exact Hr|].
  exact (reached_widths machine machine_memory k machine_memory_bytes (reached_boot machine machine_memory 1 r k Hr)).
Defined.
