(* ===== verification/TrapAsm.v ===== *)
(** * The assembly of traps (os5/src/trap/trap.S)

    A hart with the registers that [__alltraps] and [__restore] use, and their
    instructions.  Loads and stores of supervisor mode go through the address space in [satp]
    with the checks of the privileged architecture: the walk is the one of [translate], the
    page is readable or writable as needed, it is not one for user mode unless [SUM] is set,
    and the address is canonical and aligned.  The accessed and dirty bits that hardware may
    set and the fetch of the instructions, which are on the trampoline page of every address
    space, are left out.  A routine is the list of its instructions up to its jump. *)

From S2P Require Import Prelude Config Address PhysMem FrameAllocator PageTable PageTableSpec UserAccess.
From S2P Require Import MemorySet MemorySetSpec ForkSpec SpaceSpec Timer Pid Kernel Manager Task Processor Syscall Trap.
From S2P Require Import KernelSpec MmapSpec KernelInv ProcessSpec UserMemSpec HandlerSpec SystemSpec Boot Machine.

Module Asm.

Inductive csr : Type :=
| Satp
| Sscratch
| Sstatus
| Sepc.
#[export] Instance csr_eq_dec : EqDecision csr.
Proof. solve_decision. Defined.

(** [x] are the integer registers, of which [x0] is always 0. *)
Record Hart : Type := mk_hart {
  x : Z -> Z;
  csrs : csr -> Z;
  pc : Z;
  supervisor : bool
}.

Definition reg (h : Hart) (r : Z) : Z := if r =? 0 then 0 else x h r.
Definition set_reg (r v : Z) (h : Hart) : Hart := mk_hart (fun i => if i =? r then v else x h i) (csrs h) (pc h) (supervisor h).
Definition set_csr (c : csr) (v : Z) (h : Hart) : Hart := mk_hart (x h) (fun d => if decide (d = c) then v else csrs h d) (pc h) (supervisor h).
Definition jump (a : Z) (h : Hart) : Hart := mk_hart (x h) (csrs h) a (supervisor h).

Inductive instr : Type :=
| SD (rs off base : Z)
| LD (rd off base : Z)
| CSRRW (rd : Z) (c : csr) (rs : Z)
| CSRR (rd : Z) (c : csr)
| CSRW (c : csr) (rs : Z)
| MV (rd rs : Z)
| SFENCE_VMA
| JR (rs : Z)
| SRET.

(** The physical address of a doubleword, or [None] for a fault. *)
Definition canonical (va : Z) : bool := (va <? 2 ^ 38) || (2 ^ 64 - 2 ^ 38 <=? va).
Definition may_access (h : Hart) (store : bool) (bits : Z) : bool :=
  pte_is_valid bits && (if store then pte_writable bits else pte_readable bits)
  && ((Z.land (pte_flags bits) PTE_U =? 0) || Z.testbit (csrs h Sstatus) 18).
Definition address (h : Hart) (m : mem) (store : bool) (va : Z) : option Z :=
  if negb (va mod 8 =? 0) then None
  else if Z.shiftr (csrs h Satp) 60 =? 0 then Some va
  else if negb (canonical va) then None
  else
    match translate m (PageTable_from_token (csrs h Satp)) (VirtAddr_floor va) with
    | Some bits => if may_access h store bits then Some (page_base (pte_ppn bits) + VirtAddr_page_offset va) else None
    | None => None
    end.

(** [sret]: [SIE] becomes [SPIE], [SPIE] is set, [SPP] says the mode and is cleared. *)
Definition SIE : Z := 1.
Definition SPIE : Z := 5.
Definition SPP : Z := 8.
Definition put_bit (w i : Z) (b : bool) : Z := if b then Z.setbit w i else Z.clearbit w i.
Definition sret (h : Hart) : Hart :=
  let s := csrs h Sstatus in
  let s' := Z.clearbit (Z.setbit (put_bit s SIE (Z.testbit s SPIE)) SPIE) SPP in
  let h' := set_csr Sstatus s' h in
  mk_hart (x h') (csrs h') (csrs h Sepc) (Z.testbit s SPP).

(** A trap from user mode into the handler at [stvec]. *)
Definition trap_entry (stvec : Z) (h : Hart) : Hart :=
  let s := csrs h Sstatus in
  let s' := Z.clearbit (Z.clearbit (put_bit s SPIE (Z.testbit s SIE)) SIE) SPP in
  let h' := set_csr Sepc (pc h) (set_csr Sstatus s' h) in
  mk_hart (x h') (csrs h') stvec true.

Fixpoint run (code : list instr) (h : Hart) (m : mem) : option (Hart * mem) :=
  match code with
  | [] => Some (h, m)
  | i :: rest =>
      match i with
      | SD rs off base =>
          match address h m true (reg h base +% off) with
          | Some a => run rest h (store64 m a (reg h rs))
          | None => None
          end
      | LD rd off base =>
          match address h m false (reg h base +% off) with
          | Some a => run rest (set_reg rd (load64 m a) h) m
          | None => None
          end
      | CSRRW rd c rs => run rest (set_reg rd (csrs h c) (set_csr c (reg h rs) h)) m
      | CSRR rd c => run rest (set_reg rd (csrs h c) h) m
      | CSRW c rs => run rest (set_csr c (reg h rs) h) m
      | MV rd rs => run rest (set_reg rd (reg h rs) h) m
      | SFENCE_VMA => run rest h m
      | JR rs => Some (jump (reg h rs) h, m)
      | SRET => Some (sret h, m)
      end
  end.

(** ** trap.S *)

Abbreviation ra := 1 (only parsing).
Abbreviation sp := 2 (only parsing).
Abbreviation t0 := 5 (only parsing).
Abbreviation t1 := 6 (only parsing).
Abbreviation t2 := 7 (only parsing).
Abbreviation a0 := 10 (only parsing).
Abbreviation a1 := 11 (only parsing).

Definition SAVE_GP (n : Z) : instr := SD n (n * 8) sp.
Definition LOAD_GP (n : Z) : instr := LD n (n * 8) sp.

Definition __alltraps : list instr :=
  [CSRRW sp Sscratch sp;
   SD 1 (1 * 8) sp;
   SD 3 (3 * 8) sp] ++
  (SAVE_GP <$> seqZ 5 27) ++
  [CSRR t0 Sstatus;
   CSRR t1 Sepc;
   SD t0 (32 * 8) sp;
   SD t1 (33 * 8) sp;
   CSRR t2 Sscratch;
   SD t2 (2 * 8) sp;
   LD t0 (34 * 8) sp;
   LD t1 (36 * 8) sp;
   LD sp (35 * 8) sp;
   CSRW Satp t0;
   SFENCE_VMA;
   JR t1].

Definition __restore : list instr :=
  [CSRW Satp a1;
   SFENCE_VMA;
   CSRW Sscratch a0;
   MV sp a0;
   LD t0 (32 * 8) sp;
   LD t1 (33 * 8) sp;
   CSRW Sstatus t0;
   CSRW Sepc t1;
   LD 1 (1 * 8) sp;
   LD 3 (3 * 8) sp] ++
  (LOAD_GP <$> seqZ 5 27) ++
  [LD sp (2 * 8) sp;
   SRET].

End Asm.

(** * Traps save and restore the registers of a process

    [__alltraps] and [__restore] run in the address space of the process, where the page of
    its trap context is mapped for supervisor mode only: they do not fault, they save and
    load exactly the words of the trap context, and what they store is a step of the system
    that the invariant of the kernel survives.  *)

Import Asm.

Section TrapAsm.
Context {T : Type} `{FrameAllocatorSpec T}.
Implicit Types (k : Kernel T) (h : Hart).
Context (pf : Platform).

(** ** The trap context in the address space of its process *)

Lemma cx_page_access h store a f : map_perm a = Z.lor MP_R MP_W -> is_frame f -> may_access h store (area_pte a f) = true.
Proof.
  intros Hp [? ?]. unfold may_access, area_pte, pte_writable, pte_readable. rewrite Hp, pte_new_valid by (done || lia).
  rewrite !pte_flags_new by (done || lia). by destruct store.
Qed.

Lemma token_sv39 pt : 0 <= root_ppn pt < 2 ^ 44 -> Z.shiftr (PageTable_token pt) 60 = 8.
Proof. intros Hr. rewrite PageTable_token_eq, shiftr_div by done. rewrite Z.div_add_l by done. by rewrite Z.div_small by lia. Qed.

(** Word [i] of the trap context is where the kernel has it. *)
Lemma cx_address k c t h store i :
  kernel_ok pf k -> running k c t -> csrs h Satp = get_user_token (inner t) -> 0 <= i < 512 ->
  address h (phys (mm k)) store (TRAP_CONTEXT +% i * 8) = Some (cx_word (get_trap_cx (inner t)) i).
Proof.
  intros Hk Hrun Hsatp Hi. pose proof Hrun as [_ Hc _].
  destruct (us_cx _ _ _ _ (to_space _ _ _ (ko_tasks _ _ Hk c t Hc) (running_live _ _ _ _ Hk Hrun))) as (a & Ha & Hcx & Hperm).
  pose proof (kernel_ok_ms _ _ _ _ Hk Hc) as Hms. destruct (ms_ok_area _ _ _ Hms Ha) as (Hfa & Hua & _).
  destruct (framed_frame _ _ _ _ (pt_ok_inv _ _ (mo_pt _ _ Hms)) Hua Hcx) as [Hf _].
  pose proof (ms_root_frame _ _ Hms) as Hroot. unfold is_frame in Hroot. set (va := TRAP_CONTEXT +% i * 8).
  assert (va = 2 ^ 64 - 8192 + i * 8) as Hva by (unfold va; rewrite TRAP_CONTEXT_val; apply wrap64_small; lia).
  unfold address. assert (va mod 8 = 0) as -> by (rewrite Hva; zdm).
  rewrite Hsatp. unfold get_user_token, MemorySet_token. rewrite token_sv39, from_token_token by lia. cbn [negb Z.eqb].
  assert (canonical va = true) as -> by (unfold canonical; apply orb_true_iff; right; apply Z.leb_le; lia).
  assert (VirtAddr_floor va = TRAP_CONTEXT_vpn) as ->.
  { unfold VirtAddr_floor, TRAP_CONTEXT_vpn, VirtAddr_floor. rewrite Hva, TRAP_CONTEXT_val. unfold PAGE_SIZE. zdm. }
  change (translate ?m (mk_pt (root_ppn ?pt) []) ?v) with (translate m pt v).
  rewrite (mapping_Some_translate _ _ _ _ (fo_map _ _ _ Hfa _ _ Hcx)), cx_page_access by done. rewrite (area_pte_ppn _ _ Hf (fo_perm _ _ _ Hfa)).
  f_equal. unfold cx_word, get_trap_cx. rewrite VirtAddr_page_offset_mod, Hva. unfold PAGE_SIZE. zdm.
Qed.

(** The kernel after stores to the trap context of the running process. *)
Record cx_written k c t k' : Prop := {
  cw_ok : kernel_ok pf k';
  cw_run : running k' c t;
  cw_mem : k' = set_mm (set_phys (phys (mm k')) (mm k)) k;
  cw_page a : phys (mm k') a <> phys (mm k) a -> a / PAGE_SIZE = trap_cx_ppn (inner t)
}.

Lemma cx_written_refl k c t : kernel_ok pf k -> running k c t -> cx_written k c t k.
Proof. intros Hk Hrun. split; [done|done| |done]. by destruct k as [[]]. Qed.

Lemma cx_written_word k c t k' i v : 0 <= i < 512 -> cx_written k c t k' -> cx_written k c t (with_cx_word k' t i v).
Proof.
  intros Hi [Hk Hrun Hmem Hpage]. destruct (cx_word_ok pf k' c t i v Hk Hrun Hi) as [Hk' Hrun']. split; [done|done|by rewrite Hmem|].
  intros a Ha. destruct (decide (a / PAGE_SIZE = trap_cx_ppn (inner t))) as [|Hne]; [done|]. apply Hpage. intros He. apply Ha. rewrite <-He.
  pose proof Hrun as [_ Hc _]. destruct (us_cx _ _ _ _ (to_space _ _ _ (ko_tasks _ _ Hk c t Hc) (running_live _ _ _ _ Hk Hrun))) as (b & Hb & Hcx & _).
  pose proof (ms_data_frames _ _ (kernel_ok_ms _ _ _ _ Hk Hc)) as Hfr. rewrite Forall_forall in Hfr.
  apply store_word_page; [by eapply Hfr, in_data_frames|done|done].
Qed.

Lemma cx_reg_eq k t i v : is_usize v -> cx_reg (with_cx_word k t i v) t i = v.
Proof. intros Hv. by apply load64_store64_eq. Qed.

Lemma cx_reg_ne k t i j v : i <> j -> cx_reg (with_cx_word k t i v) t j = cx_reg k t j.
Proof. intros Hne. apply load64_store64_ne. unfold cx_word. lia. Qed.

#[local] Opaque cx_reg with_cx_word get_user_token TRAP_CONTEXT.

(** ** One instruction *)

Lemma run_SD k c t k' h rs off base i rest :
  cx_written k c t k' -> csrs h Satp = get_user_token (inner t) -> reg h base = TRAP_CONTEXT -> off = i * 8 -> 0 <= i < 512 ->
  run (SD rs off base :: rest) h (phys (mm k')) = run rest h (phys (mm (with_cx_word k' t i (reg h rs)))).
Proof. intros Hw Hs Hb -> Hi. cbn [run]. rewrite Hb, (cx_address k' c t h true i (cw_ok _ _ _ _ Hw) (cw_run _ _ _ _ Hw) Hs Hi). done. Qed.

Lemma run_LD k c t k' h rd off base i rest :
  cx_written k c t k' -> csrs h Satp = get_user_token (inner t) -> reg h base = TRAP_CONTEXT -> off = i * 8 -> 0 <= i < 512 ->
  run (LD rd off base :: rest) h (phys (mm k')) = run rest (set_reg rd (cx_reg k' t i) h) (phys (mm k')).
Proof. intros Hw Hs Hb -> Hi. cbn [run]. rewrite Hb, (cx_address k' c t h false i (cw_ok _ _ _ _ Hw) (cw_run _ _ _ _ Hw) Hs Hi). done. Qed.

Lemma reg_set_reg_ne h r v j : j <> r -> reg (set_reg r v h) j = reg h j.
Proof. intros Hne. unfold reg. destruct (j =? 0); [done|]. cbn [set_reg x]. by rewrite (proj2 (Z.eqb_neq j r)) by lia. Qed.

Lemma run_CSRR rd r rest h m : run (CSRR rd r :: rest) h m = run rest (set_reg rd (csrs h r) h) m.
Proof. done. Qed.

(** A run of saves; a run of loads. *)
Definition save_all h t (ns : list Z) k : Kernel T := fold_left (fun k n => with_cx_word k t n (reg h n)) ns k.
Definition load_all k t (ns : list Z) h : Hart := fold_left (fun h n => set_reg n (cx_reg k t n) h) ns h.

Lemma run_saves k c t h ns rest : csrs h Satp = get_user_token (inner t) -> reg h 2 = TRAP_CONTEXT -> Forall (fun n => 0 <= n < 512) ns -> forall k',
  cx_written k c t k' ->
  cx_written k c t (save_all h t ns k') /\ run ((SAVE_GP <$> ns) ++ rest) h (phys (mm k')) = run rest h (phys (mm (save_all h t ns k'))).
Proof.
  intros Hs Hb. induction 1 as [|n ns Hn _ IH]; intros k' Hw; [done|]. cbn [fmap list_fmap app save_all fold_left]. unfold SAVE_GP at 1.
  rewrite (run_SD k c t k' h n (n * 8) 2 n) by done. apply IH. by apply cx_written_word.
Qed.

Lemma run_loads k c t k' ns rest : cx_written k c t k' -> Forall (fun n => 0 <= n < 512 /\ n <> 2) ns -> forall h,
  csrs h Satp = get_user_token (inner t) -> reg h 2 = TRAP_CONTEXT ->
  run ((LOAD_GP <$> ns) ++ rest) h (phys (mm k')) = run rest (load_all k' t ns h) (phys (mm k')) /\
  csrs (load_all k' t ns h) = csrs h /\ reg (load_all k' t ns h) 2 = TRAP_CONTEXT.
Proof.
  intros Hw. induction 1 as [|n ns [Hn Hn2] _ IH]; intros h Hs Hb; [done|]. cbn [fmap list_fmap app load_all fold_left]. unfold LOAD_GP at 1.
  rewrite (run_LD k c t k' h n (n * 8) 2 n) by done. apply IH; [done|]. by rewrite reg_set_reg_ne by lia.
Qed.

Lemma save_all_reg h t ns k j : (forall n, n ∈ ns -> is_usize (reg h n)) ->
  cx_reg (save_all h t ns k) t j = if decide (j ∈ ns) then reg h j else cx_reg k t j.
Proof.
  revert k. induction ns as [|n ns IH]; intros k Hu; [done|]. cbn [save_all fold_left]. fold (save_all h t ns (with_cx_word k t n (reg h n))).
  rewrite IH by (intros; apply Hu; by right). destruct (decide (j ∈ ns)) as [Hj|Hj]; [by rewrite decide_True by (by right)|].
  destruct (decide (n = j)) as [->|Hne]; [rewrite decide_True by (by left); apply cx_reg_eq, Hu; by left|].
  rewrite decide_False by (rewrite elem_of_cons; by intros [|]). by apply cx_reg_ne.
Qed.

Lemma load_all_reg k t ns h j : reg (load_all k t ns h) j = if decide (j ∈ ns /\ j <> 0) then cx_reg k t j else reg h j.
Proof.
  revert h. induction ns as [|n ns IH]; intros h; [done|]. cbn [load_all fold_left]. fold (load_all k t ns (set_reg n (cx_reg k t n) h)). rewrite IH.
  unfold reg, set_reg. cbn. destruct (Z.eqb_spec j 0) as [->|Hj0]; [by rewrite !decide_False by (by intros [])|].
  destruct (Z.eqb_spec j n) as [->|Hn]; [rewrite (decide_True (P := n ∈ n :: ns /\ _)) by (split; [by left|done])|].
  - by destruct (decide _).
  - destruct (decide (j ∈ ns /\ j <> 0)) as [[]|Hno]; [by rewrite decide_True by (split; [by right|done])|].
    rewrite decide_False; [done|]. intros [[->|]%elem_of_cons ?]; [done|]. by apply Hno.
Qed.

(** ** Into the kernel *)

(** A hart that runs user code of the process [t]; its registers are words. *)
Record runs_user h t : Prop := {
  ru_mode : supervisor h = false;
  ru_satp : csrs h Satp = get_user_token (inner t);
  ru_scratch : csrs h Sscratch = TRAP_CONTEXT;
  ru_words r : is_usize (reg h r);
  ru_pc : is_usize (pc h);
  ru_status : is_usize (csrs h Sstatus)
}.

(** The registers that a trap saves: all but [x0], which is constant, and [tp]. *)
Abbreviation gp_regs := ([1; 3] ++ seqZ 5 27) (only parsing).

Lemma usize_bits w : is_usize w <-> 0 <= w /\ forall j, 64 <= j -> Z.testbit w j = false.
Proof.
  unfold is_usize. split.
  - intros [Hlo Hhi]. split; [done|]. by apply Z.bounded_iff_bits_nonneg.
  - intros [Hlo Hb]. split; [done|]. by apply Z.bounded_iff_bits_nonneg.
Qed.

Lemma put_bit_usize w i b : 0 <= i < 64 -> is_usize w -> is_usize (put_bit w i b).
Proof.
  intros Hi. rewrite !usize_bits. intros [Hlo Hb]. unfold put_bit. destruct b; split.
  - apply Z.lor_nonneg. split; [done|]. by apply Z.shiftl_nonneg.
  - intros j Hj. rewrite Z.setbit_neq by lia. by apply Hb.
  - apply Z.ldiff_nonneg. by left.
  - intros j Hj. rewrite Z.clearbit_neq by lia. by apply Hb.
Qed.

(** The end of [__alltraps], when the registers are saved. *)
Definition save_end h t k : Kernel T :=
  with_cx_word (with_cx_word (with_cx_word k t 32 (csrs h Sstatus)) t 33 (csrs h Sepc)) t 2 (csrs h Sscratch).

Lemma cx_written_end k c t k' h : cx_written k c t k' -> cx_written k c t (save_end h t k').
Proof. intros Hw. apply cx_written_word; [lia|]. apply cx_written_word; [lia|]. apply cx_written_word; [lia|]. exact Hw. Qed.

Lemma run_tail k c t k' h :
  cx_written k c t k' -> csrs h Satp = get_user_token (inner t) -> reg h 2 = TRAP_CONTEXT -> exists h1,
  run (drop 30 __alltraps) h (phys (mm k')) = Some (h1, phys (mm (save_end h t k'))) /\
  csrs h1 Satp = cx_reg (save_end h t k') t 34 /\ reg h1 2 = cx_reg (save_end h t k') t 35 /\ pc h1 = cx_reg (save_end h t k') t 36 /\
  supervisor h1 = supervisor h.
Proof.
  intros W1 Hs Hb. pose proof (cx_written_end _ _ _ _ h W1) as W4. unfold save_end in *.
  assert (cx_written k c t (with_cx_word k' t 32 (csrs h Sstatus))) as W2 by (apply cx_written_word; [lia|exact W1]).
  assert (cx_written k c t (with_cx_word (with_cx_word k' t 32 (csrs h Sstatus)) t 33 (csrs h Sepc))) as W3 by (apply cx_written_word; [lia|exact W2]).
  set (k2 := with_cx_word k' t 32 _) in *. set (k3 := with_cx_word k2 t 33 _) in *. set (k4 := with_cx_word k3 t 2 _) in *.
  change (drop 30 __alltraps) with [CSRR 5 Sstatus; CSRR 6 Sepc; SD 5 (32 * 8) 2; SD 6 (33 * 8) 2; CSRR 7 Sscratch; SD 7 (2 * 8) 2;
    LD 5 (34 * 8) 2; LD 6 (36 * 8) 2; LD 2 (35 * 8) 2; CSRW Satp 5; SFENCE_VMA; JR 6].
  eexists. split; [|split; [|split; [|split]]].
  - rewrite !run_CSRR. erewrite (run_SD _ _ _ k') with (i := 32); [|exact W1|exact Hs|exact Hb|reflexivity|lia]. fold k2.
    erewrite (run_SD _ _ _ k2) with (i := 33); [|exact W2|exact Hs|exact Hb|reflexivity|lia]. fold k3. rewrite run_CSRR.
    erewrite (run_SD _ _ _ k3) with (i := 2); [|exact W3|exact Hs|exact Hb|reflexivity|lia]. fold k4.
    erewrite (run_LD _ _ _ k4) with (i := 34); [|exact W4|exact Hs|exact Hb|reflexivity|lia]. erewrite (run_LD _ _ _ k4) with (i := 36); [|exact W4|exact Hs|exact Hb|reflexivity|lia].
    erewrite (run_LD _ _ _ k4) with (i := 35); [|exact W4|exact Hs|exact Hb|reflexivity|lia]. reflexivity.
  - reflexivity.
  - reflexivity.
  - reflexivity.
  - reflexivity.
Qed.

Lemma save_end_reg h t k j : is_usize (csrs h Sstatus) -> is_usize (csrs h Sepc) -> is_usize (csrs h Sscratch) ->
  cx_reg (save_end h t k) t j =
  if decide (j = 2) then csrs h Sscratch else if decide (j = 33) then csrs h Sepc else if decide (j = 32) then csrs h Sstatus else cx_reg k t j.
Proof.
  intros Hs He Hc. unfold save_end. destruct (decide (j = 2)) as [->|]; [by apply cx_reg_eq|]. rewrite cx_reg_ne by done.
  destruct (decide (j = 33)) as [->|]; [by apply cx_reg_eq|]. rewrite cx_reg_ne by done.
  destruct (decide (j = 32)) as [->|]; [by apply cx_reg_eq|]. by apply cx_reg_ne.
Qed.

Lemma gp_regs_range r : r ∈ gp_regs -> 1 <= r < 32 /\ r <> 2 /\ r <> 4.
Proof. rewrite elem_of_app, !elem_of_cons, elem_of_nil, elem_of_seqZ. lia. Qed.

Lemma entry_status_usize stvec h : is_usize (csrs h Sstatus) -> is_usize (csrs (trap_entry stvec h) Sstatus).
Proof.
  intros Hs. change (is_usize (put_bit (put_bit (put_bit (csrs h Sstatus) SPIE (Z.testbit (csrs h Sstatus) SIE)) SIE false) SPP false)).
  by repeat apply put_bit_usize.
Qed.

(** What a trap leaves for the kernel: the words of the trap context are the registers of
    user code, and the hart is in the kernel as the trap context says. *)
Record trapped_in k c t h stvec h1 k1 : Prop := {
  ti_written : cx_written k c t k1;
  ti_regs r : r ∈ 2 :: gp_regs -> cx_reg k1 t r = reg h r;
  ti_status : cx_reg k1 t 32 = csrs (trap_entry stvec h) Sstatus;
  ti_pc : cx_reg k1 t CX_SEPC = pc h;
  ti_rest j : 34 <= j < 512 -> cx_reg k1 t j = cx_reg k t j;
  ti_satp : csrs h1 Satp = cx_reg k t 34;
  ti_sp : reg h1 sp = cx_reg k t CX_KERNEL_SP;
  ti_handler : pc h1 = cx_reg k t 36;
  ti_mode : supervisor h1 = true
}.

Lemma alltraps_run k c t h stvec :
  kernel_ok pf k -> running k c t -> runs_user h t ->
  exists h1 k1, run __alltraps (trap_entry stvec h) (phys (mm k)) = Some (h1, phys (mm k1)) /\ trapped_in k c t h stvec h1 k1.
Proof.
  intros Hk Hrun [Hmode Hsatp Hscr Hw Hpc Hst]. set (h0 := trap_entry stvec h).
  set (ha := set_reg 2 (csrs h0 Sscratch) (set_csr Sscratch (reg h0 2) h0)).
  assert (reg ha 2 = TRAP_CONTEXT) as Hb by exact Hscr. assert (csrs ha Satp = get_user_token (inner t)) as Hs by exact Hsatp.
  assert (forall r, r ∈ gp_regs -> reg ha r = reg h r) as Hsame.
  { intros r Hr%gp_regs_range. unfold ha. rewrite reg_set_reg_ne by lia. reflexivity. }
  assert (Forall (fun n => 0 <= n < 512) gp_regs) as Hrange by (apply Forall_forall; intros r Hr%gp_regs_range; lia).
  destruct (run_saves k c t ha gp_regs (drop 30 __alltraps) Hs Hb Hrange k (cx_written_refl k c t Hk Hrun)) as [W1 Hsave].
  destruct (run_tail k c t _ ha W1 Hs Hb) as (h1 & Htail & Hsatp1 & Hsp1 & Hpc1 & Hmode1).
  exists h1, (save_end ha t (save_all ha t gp_regs k)). split; [etrans; [exact Hsave|exact Htail]|].
  assert (forall j, cx_reg (save_end ha t (save_all ha t gp_regs k)) t j = if decide (j = 2) then reg h 2 else if decide (j = 33) then pc h
    else if decide (j = 32) then csrs h0 Sstatus else if decide (j ∈ gp_regs) then reg ha j else cx_reg k t j) as Hreg.
  { intros j. rewrite save_end_reg; [|exact (entry_status_usize stvec h Hst)|exact Hpc|exact (Hw 2)].
    rewrite save_all_reg by (intros n Hn; rewrite Hsame by done; apply Hw). reflexivity. }
  assert (forall j, 34 <= j -> cx_reg (save_end ha t (save_all ha t gp_regs k)) t j = cx_reg k t j) as Hrest.
  { intros j Hj. rewrite Hreg, !decide_False; [done|intros Hg%gp_regs_range; lia|lia..]. }
  split; [by apply cx_written_end|..|exact Hmode1].
  - intros r [->|Hr]%elem_of_cons; rewrite Hreg; [done|]. pose proof (gp_regs_range _ Hr). rewrite !(decide_False (P := r = _)) by lia. rewrite decide_True by exact Hr. by apply Hsame.
  - by rewrite Hreg.
  - by rewrite Hreg.
  - intros j Hj. apply Hrest. lia.
  - rewrite Hsatp1. apply Hrest. lia.
  - rewrite Hsp1. by apply Hrest.
  - rewrite Hpc1. apply Hrest. lia.
Qed.

(** ** Back to user mode *)

(** The hart when [trap_return] jumps to [__restore]. *)
Record returns_to h t : Prop := {
  rt_mode : supervisor h = true;
  rt_cx : reg h a0 = TRAP_CONTEXT;
  rt_token : reg h a1 = get_user_token (inner t)
}.

(** What [__restore] gives back. *)
Record restored k t h3 : Prop := {
  rs_regs r : r ∈ 2 :: gp_regs -> reg h3 r = cx_reg k t r;
  rs_pc : pc h3 = cx_reg k t CX_SEPC;
  rs_mode : supervisor h3 = Z.testbit (cx_reg k t 32) SPP;
  rs_satp : csrs h3 Satp = get_user_token (inner t);
  rs_scratch : csrs h3 Sscratch = TRAP_CONTEXT
}.

Lemma reg_set_reg_eq h r v : r <> 0 -> reg (set_reg r v h) r = v.
Proof. intros Hr. unfold reg. rewrite (proj2 (Z.eqb_neq r 0)) by done. cbn [set_reg x]. by rewrite Z.eqb_refl. Qed.

Lemma restore_run k c t h :
  kernel_ok pf k -> running k c t -> returns_to h t -> exists h3, run __restore h (phys (mm k)) = Some (h3, phys (mm k)) /\ restored k t h3.
Proof.
  intros Hk Hrun [Hmode Hcx Htok]. pose proof (cx_written_refl k c t Hk Hrun) as W.
  set (ha := set_reg 2 (reg h 10) (set_csr Sscratch (reg h 10) (set_csr Satp (reg h 11) h))).
  assert (reg ha 2 = TRAP_CONTEXT) as Hb by exact Hcx. assert (csrs ha Satp = get_user_token (inner t)) as Hs by exact Htok.
  set (hb := set_csr Sepc (cx_reg k t 33) (set_csr Sstatus (cx_reg k t 32) (set_reg 6 (cx_reg k t 33) (set_reg 5 (cx_reg k t 32) ha)))).
  assert (Forall (fun n => 0 <= n < 512 /\ n <> 2) gp_regs) as Hrange by (apply Forall_forall; intros r Hr%gp_regs_range; lia).
  destruct (run_loads k c t k gp_regs [LD 2 (2 * 8) 2; SRET] W Hrange hb Hs Hb) as (Hload & Hcsr & Hsp).
  assert (forall r, r ∈ gp_regs -> reg (load_all k t gp_regs hb) r = cx_reg k t r) as Hregs.
  { intros r Hr. pose proof (gp_regs_range _ Hr). by rewrite load_all_reg, decide_True by (split; [exact Hr|lia]). }
  generalize dependent (load_all k t gp_regs hb). intros hc Hload Hcsr Hsp Hregs. exists (sret (set_reg 2 (cx_reg k t 2) hc)). split.
  - change __restore with ([CSRW Satp 11; SFENCE_VMA; CSRW Sscratch 10; MV 2 10; LD 5 (32 * 8) 2; LD 6 (33 * 8) 2; CSRW Sstatus 5; CSRW Sepc 6] ++
      (LOAD_GP <$> gp_regs) ++ [LD 2 (2 * 8) 2; SRET]).
    etrans; [|etrans; [exact Hload|]].
    + change (run (LD 5 (32 * 8) 2 :: LD 6 (33 * 8) 2 :: CSRW Sstatus 5 :: CSRW Sepc 6 :: (LOAD_GP <$> gp_regs) ++ [LD 2 (2 * 8) 2; SRET]) ha (phys (mm k)) =
        run ((LOAD_GP <$> gp_regs) ++ [LD 2 (2 * 8) 2; SRET]) hb (phys (mm k))).
      erewrite (run_LD _ _ _ k) with (i := 32); [|exact W|exact Hs|exact Hb|reflexivity|lia].
      erewrite (run_LD _ _ _ k) with (i := 33); [|exact W|exact Hs|exact Hb|reflexivity|lia]. reflexivity.
    + erewrite (run_LD _ _ _ k) with (i := 2); [reflexivity|exact W|rewrite Hcsr; exact Hs|exact Hsp|reflexivity|lia].
  - split.
    + intros r [->|Hr]%elem_of_cons; [exact (reg_set_reg_eq hc 2 _ ltac:(done))|]. pose proof (gp_regs_range _ Hr).
      change (reg (set_reg 2 (cx_reg k t 2) hc) r = cx_reg k t r). rewrite reg_set_reg_ne by lia. by apply Hregs.
    + change (csrs hc Sepc = cx_reg k t 33). by rewrite Hcsr.
    + change (Z.testbit (csrs hc Sstatus) SPP = Z.testbit (cx_reg k t 32) SPP). by rewrite Hcsr.
    + change (csrs hc Satp = get_user_token (inner t)). rewrite Hcsr. exact Hs.
    + change (csrs hc Sscratch = TRAP_CONTEXT). rewrite Hcsr. exact Hcx.
Qed.

Lemma cx_written_step d k c t k' : running k c t -> cx_written k c t k' -> sys_step pf d k k'.
Proof. intros Hrun [_ _ Hmem Hpage]. rewrite Hmem. eapply step_user; [exact Hrun|]. intros a Ha. right. by apply Hpage. Qed.

Lemma entry_status_user stvec h : Z.testbit (csrs (trap_entry stvec h) Sstatus) SPP = false.
Proof. apply Z.clearbit_eq. Qed.

(** C3: Traps are transparent.  When user code of the running process traps, [__alltraps]
    does not fault; it saves every register but [tp], the program counter and [sstatus] in
    the trap context of the process, which is a step of the system that the invariant
    survives, and enters the kernel with the address space, the stack and the handler that
    the trap context names.  Whenever the kernel later returns to the process, [__restore]
    does not fault and loads exactly what the trap context holds then; if the kernel left the
    saved words alone, user code goes on where it was, with the registers it had. *)
Theorem trap_round_trip d k c t h :
  kernel_ok pf k -> running k c t -> runs_user h t -> exists h1 k1,
  run __alltraps (trap_entry TRAMPOLINE h) (phys (mm k)) = Some (h1, phys (mm k1)) /\ sys_step pf d k k1 /\ trapped_in k c t h TRAMPOLINE h1 k1 /\
  forall k2 t2 h2, kernel_ok pf k2 -> running k2 c t2 -> returns_to h2 t2 -> exists h3,
    run __restore h2 (phys (mm k2)) = Some (h3, phys (mm k2)) /\ restored k2 t2 h3 /\
    ((forall r, r ∈ 32 :: CX_SEPC :: 2 :: gp_regs -> cx_reg k2 t2 r = cx_reg k1 t r) ->
     (forall r, r ∈ 2 :: gp_regs -> reg h3 r = reg h r) /\ pc h3 = pc h /\ supervisor h3 = false).
Proof.
  intros Hk Hrun Hu. destruct (alltraps_run k c t h TRAMPOLINE Hk Hrun Hu) as (h1 & k1 & Hr1 & Hti). exists h1, k1.
  split; [exact Hr1|]. split; [exact (cx_written_step d k c t k1 Hrun (ti_written _ _ _ _ _ _ _ Hti))|]. split; [exact Hti|].
  intros k2 t2 h2 Hk2 Hrun2 Hret. destruct (restore_run k2 c t2 h2 Hk2 Hrun2 Hret) as (h3 & Hr3 & Hrs). exists h3. split; [exact Hr3|]. split; [exact Hrs|].
  destruct Hti as [_ Hregs Hst Hpc _ _ _ _ _]. destruct Hrs as [Hregs3 Hpc3 Hmode3 _ _]. intros Hsame. split_and!.
  - intros r Hr. rewrite Hregs3 by exact Hr. rewrite Hsame by (do 2 right; exact Hr). by apply Hregs.
  - rewrite Hpc3, Hsame by (right; left). exact Hpc.
  - rewrite Hmode3, Hsame by left. rewrite Hst. apply entry_status_user.
Qed.

End TrapAsm.

(** User code of the first process of the example machine, and a trap of it. *)
Definition user_hart (t : TaskControlBlock) : Hart :=
  mk_hart (fun r => r * 1000 mod 2 ^ 64) (fun c => match c with Satp => get_user_token (inner t) | Sscratch => TRAP_CONTEXT | _ => 0 end) 65550 false.

Lemma user_hart_runs t : runs_user (user_hart t) t.
Proof. split; try done. intros r. unfold reg. destruct (r =? 0); [done|]. by apply Z.mod_pos_bound. Qed.

Lemma trap_round_trip_witness :
  wp (rust_main machine 1) (fun _ k => exists t h1 (k1 : Kernel StackFrameAllocator), running k 0 t /\
    run __alltraps (trap_entry TRAMPOLINE (user_hart t)) (phys (mm k)) = Some (h1, phys (mm k1)) /\ cx_reg k1 t 31 = 31000 /\ cx_reg k1 t CX_SEPC = 65550)
    (before_boot machine_memory).
Proof.
  apply wp_machine. intros r k t _ [Hk Hrun _].
  destruct (trap_round_trip machine 0 k 0 t (user_hart t) Hk Hrun (user_hart_runs t)) as (h1 & k1 & Hr & _ & Hti & _).
  exists t, h1, k1. split; [exact Hrun|]. split; [exact Hr|]. split.
  - rewrite (ti_regs _ _ _ _ _ _ _ _ Hti); [done|]. apply elem_of_cons. right. apply elem_of_app. right. apply elem_of_seqZ. lia.
  - exact (ti_pc _ _ _ _ _ _ _ _ Hti).
Defined.
