(* ===== verification/Codec.v ===== *)
(** * Typed views of bytes

    easy-fs accesses the bytes of a cached block as values of [repr(C)] types.  A
    [Layout] gives the size of a type and its little-endian encoding; the instances for
    arrays of words are here, those for structures are with the structures. *)

From S2P Require Import Prelude.

(** ** Little-endian integers *)

Fixpoint le_dec (bs : list Z) : Z :=
  match bs with
  | [] => 0
  | b :: bs' => b + 256 * le_dec bs'
  end.
Fixpoint le_enc (n : nat) (v : Z) : list Z :=
  match n with
  | O => []
  | S n' => v mod 256 :: le_enc n' (v / 256)
  end.

Lemma length_le_enc n v : length (le_enc n v) = n.
Proof. revert v. induction n as [|n IH]; intros v; cbn; [done|]. by rewrite IH. Qed.

Lemma le_dec_enc n v : 0 <= v < 256 ^ Z.of_nat n -> le_dec (le_enc n v) = v.
Proof.
  revert v. induction n as [|n IH]; intros v Hv; cbn [le_enc le_dec].
  - change (256 ^ Z.of_nat 0) with 1 in Hv. lia.
  - rewrite Nat2Z.inj_succ, Z.pow_succ_r in Hv by lia. rewrite IH; [|zdm].
    pose proof (Z.div_mod v 256). lia.
Qed.

Lemma le_dec_range bs : Forall is_u8 bs -> 0 <= le_dec bs < 256 ^ Z.of_nat (length bs).
Proof.
  induction bs as [|b bs IH]; intros Hall; cbn [le_dec length]; [done|].
  apply Forall_cons in Hall as [Hb Hall]. specialize (IH Hall). unfold is_u8 in Hb.
  rewrite Nat2Z.inj_succ, Z.pow_succ_r by lia. lia.
Qed.

Lemma le_enc_dec bs : Forall is_u8 bs -> le_enc (length bs) (le_dec bs) = bs.
Proof.
  induction bs as [|b bs IH]; intros Hall; cbn [le_dec le_enc length]; [done|].
  apply Forall_cons in Hall as [Hb Hall]. unfold is_u8 in Hb.
  replace ((b + 256 * le_dec bs) mod 256) with b by zdm.
  replace ((b + 256 * le_dec bs) / 256) with (le_dec bs) by zdm. by rewrite IH.
Qed.

Lemma le_enc_u8 n v : Forall is_u8 (le_enc n v).
Proof.
  revert v. induction n as [|n IH]; intros v; cbn; [apply Forall_nil_2|].
  apply Forall_cons. split; [|done]. unfold is_u8. zdm.
Qed.

(** ** Arrays of words *)

(** The first [n] words of [w] bytes each. *)
Fixpoint words_dec (w n : nat) (bs : list Z) : list Z :=
  match n with
  | O => []
  | S n' => le_dec (take w bs) :: words_dec w n' (drop w bs)
  end.
Definition words_enc (w : nat) (ws : list Z) : list Z := concat (map (le_enc w) ws).

Lemma length_words_dec w n bs : length (words_dec w n bs) = n.
Proof. revert bs. induction n as [|n IH]; intros bs; cbn; [done|]. by rewrite IH. Qed.

Lemma length_words_enc w ws : length (words_enc w ws) = (w * length ws)%nat.
Proof.
  induction ws as [|x ws IH]; cbn; [lia|]. rewrite length_app, length_le_enc.
  unfold words_enc in IH. lia.
Qed.

Lemma words_dec_enc w ws tail :
  Forall (fun x => 0 <= x < 256 ^ Z.of_nat w) ws ->
  words_dec w (length ws) (words_enc w ws ++ tail) = ws.
Proof.
  induction ws as [|x ws IH]; intros Hall; cbn; [done|].
  apply Forall_cons in Hall as [Hx Hall]. rewrite <-app_assoc.
  rewrite take_app_length', drop_app_length' by (by rewrite length_le_enc).
  rewrite le_dec_enc by done. f_equal. by apply IH.
Qed.

Lemma words_dec_enc_all w n ws :
  length ws = n -> Forall (fun x => 0 <= x < 256 ^ Z.of_nat w) ws -> words_dec w n (words_enc w ws) = ws.
Proof. intros <- Hall. by rewrite <-(app_nil_r (words_enc w ws)), words_dec_enc. Qed.

Lemma words_enc_dec w n bs :
  Forall is_u8 bs -> length bs = (w * n)%nat -> words_enc w (words_dec w n bs) = bs.
Proof.
  revert bs. induction n as [|n IH]; intros bs Hall Hlen; cbn.
  - rewrite Nat.mul_0_r in Hlen. by destruct bs.
  - unfold words_enc in IH. rewrite IH.
    + rewrite <-(length_take_le bs w) at 1 by lia. rewrite le_enc_dec by (by apply Forall_take).
      apply take_drop.
    + by apply Forall_drop.
    + rewrite length_drop. lia.
Qed.

Lemma words_dec_range w n bs :
  Forall is_u8 bs -> (w * n <= length bs)%nat ->
  Forall (fun x => 0 <= x < 256 ^ Z.of_nat w) (words_dec w n bs).
Proof.
  revert bs. induction n as [|n IH]; intros bs Hall Hlen; cbn; [apply Forall_nil_2|].
  apply Forall_cons. split.
  - pose proof (le_dec_range (take w bs) (Forall_take _ w _ Hall)) as Hr.
    by rewrite length_take_le in Hr by lia.
  - apply IH; [by apply Forall_drop|]. rewrite length_drop. lia.
Qed.

Lemma words_enc_u8 w ws : Forall is_u8 (words_enc w ws).
Proof.
  unfold words_enc. induction ws as [|x ws IH]; cbn; [apply Forall_nil_2|].
  apply Forall_app. split; [apply le_enc_u8|done].
Qed.

Lemma words_dec_app w n a b : (w * n <= length a)%nat -> words_dec w n (a ++ b) = words_dec w n a.
Proof.
  revert a. induction n as [|n IH]; intros a Hl; cbn; [done|].
  rewrite take_app_le, drop_app_le by lia. rewrite IH; [done|]. rewrite length_drop. lia.
Qed.

(** Bytes are words of one byte. *)
Lemma words_enc_1 bs : Forall is_u8 bs -> words_enc 1 bs = bs.
Proof.
  induction bs as [|b bs IH]; intros Hall; [done|]. apply Forall_cons in Hall as [Hb Hall].
  unfold words_enc in *. cbn [map concat]. rewrite IH by done. cbn. unfold is_u8 in Hb.
  f_equal. apply Z.mod_small. lia.
Qed.

Lemma words_dec_1 bs n : Forall is_u8 bs -> length bs = n -> words_dec 1 n bs = bs.
Proof.
  intros Hall Hn. rewrite <-(words_enc_1 bs Hall) at 1. apply words_dec_enc_all; [done|].
  eapply Forall_impl; [done|]. unfold is_u8. cbn. lia.
Qed.

(** ** Layouts *)

Class Layout (A : Type) : Type := {
  size_of : nat;
  from_bytes : list Z -> A;
  to_bytes : A -> list Z;
  (** the values that the type has *)
  valid_value : A -> Prop
}.
Arguments size_of A {_}.

Class LayoutSpec (A : Type) `{Layout A} : Prop := {
  length_to_bytes a : valid_value a -> length (to_bytes a) = size_of A;
  to_bytes_u8 a : valid_value a -> Forall is_u8 (to_bytes a);
  from_to_bytes a : valid_value a -> from_bytes (to_bytes a) = a;
  from_bytes_valid bs : Forall is_u8 bs -> length bs = size_of A -> valid_value (from_bytes bs);
  to_from_bytes bs : Forall is_u8 bs -> length bs = size_of A -> to_bytes (from_bytes bs) = bs
}.

(** [[uK; n]] with [K = 8 * w]. *)
Record array (w n : nat) : Type := Array { elems : list Z }.
Arguments Array {w n}.
Arguments elems {w n}.

#[export] Instance array_layout w n : Layout (array w n) := {
  size_of := (w * n)%nat;
  from_bytes bs := Array (words_dec w n bs);
  to_bytes a := words_enc w (elems a);
  valid_value a := length (elems a) = n /\ Forall (fun x => 0 <= x < 256 ^ Z.of_nat w) (elems a)
}.

#[export] Instance array_layout_spec w n : LayoutSpec (array w n).
Proof.
  split; cbn [size_of from_bytes to_bytes valid_value array_layout].
  - intros [l] [Hl _]. cbn [elems] in *. by rewrite length_words_enc, Hl.
  - intros [l] _. apply words_enc_u8.
  - intros [l] [Hl Hr]. cbn [elems] in *. f_equal. by apply words_dec_enc_all.
  - intros bs Hb Hl. cbn [elems]. rewrite length_words_dec. split; [done|]. apply words_dec_range; [done|lia].
  - intros bs Hb Hl. cbn [elems]. by apply words_enc_dec.
Qed.
