(* ===== verification/BlockCache.v ===== *)
(** * Block devices and the block cache (easy-fs/src/block_dev.rs, block_cache.rs)

    The cache holds at most sixteen blocks.  An entry of the queue is the [BlockCache]
    behind one [Arc<Mutex<_>>]: [refs] counts the references outside the queue, and
    [locked] is its spin lock, which hangs a thread that takes it twice.  A block is
    written to its device when it is evicted or synchronised and was modified. *)

From S2P Require Import Prelude Codec.

Definition BLOCK_SZ : Z := 512.
Abbreviation BLOCK_CACHE_SIZE := (16%nat) (only parsing).

(** The trait [BlockDevice]: reading and writing in units of blocks; a device may
    panic, for instance on a block it does not have. *)
Class BlockDevice (D : Type) : Type := {
  read_block : D -> Z -> outcome (list Z);
  write_block : D -> Z -> list Z -> outcome D
}.

Record BlockCache : Type := mk_cache {
  cache : list Z;
  block_id : Z;
  block_device : nat;
  modified : bool;
  refs : nat;
  locked : bool
}.

(** The devices, and the queue of the global [BLOCK_CACHE_MANAGER]. *)
Record FsState (D : Type) : Type := mk_fs { devices : list D; queue : list (Z * BlockCache) }.
Arguments mk_fs {D}.
Arguments devices {D}.
Arguments queue {D}.

Definition cache_manager_new : list (Z * BlockCache) := [].

Definition set_cache (v : list Z) (c : BlockCache) : BlockCache :=
  mk_cache v (block_id c) (block_device c) (modified c) (refs c) (locked c).
Definition set_modified (v : bool) (c : BlockCache) : BlockCache :=
  mk_cache (cache c) (block_id c) (block_device c) v (refs c) (locked c).
Definition set_refs (v : nat) (c : BlockCache) : BlockCache :=
  mk_cache (cache c) (block_id c) (block_device c) (modified c) v (locked c).
Definition set_locked (v : bool) (c : BlockCache) : BlockCache :=
  mk_cache (cache c) (block_id c) (block_device c) (modified c) (refs c) v.

(** The entry of a block. *)
Fixpoint find_cache (id : Z) (q : list (Z * BlockCache)) : option BlockCache :=
  match q with
  | [] => None
  | (id', c) :: q' => if id' =? id then Some c else find_cache id q'
  end.
Fixpoint update_cache (id : Z) (f : BlockCache -> BlockCache) (q : list (Z * BlockCache))
    : list (Z * BlockCache) :=
  match q with
  | [] => []
  | (id', c) :: q' => if id' =? id then (id', f c) :: q' else (id', c) :: update_cache id f q'
  end.

(** The first entry that only the queue refers to. *)
Fixpoint find_idle (q : list (Z * BlockCache)) (idx : nat) : option (nat * BlockCache) :=
  match q with
  | [] => None
  | (_, c) :: q' => if Nat.eqb (refs c) 0 then Some (idx, c) else find_idle q' (S idx)
  end.

(** Part of a byte array, and its replacement. *)
Definition sub_bytes (off n : nat) (bs : list Z) : list Z := take n (drop off bs).
Definition put_bytes (off : nat) (new bs : list Z) : list Z :=
  take off bs ++ new ++ drop (off + length new) bs.

Section BlockCache.
Context {D : Type} `{BlockDevice D}.

(** The device of an index, and writing to it. *)
Definition device_read (dev : nat) (id : Z) : M (FsState D) (list Z) :=
  let* s := get in
  let* d := unwrap (devices s !! dev) in
  lift (read_block d id).
Definition device_write (dev : nat) (id : Z) (bs : list Z) : M (FsState D) unit :=
  let* s := get in
  let* d := unwrap (devices s !! dev) in
  let* d' := lift (write_block d id bs) in
  modify (fun s => mk_fs (<[dev := d']> (devices s)) (queue s)).

(** [BlockCache::sync] of an entry that is no longer, or not yet, in the queue. *)
Definition sync (c : BlockCache) : M (FsState D) BlockCache :=
  if modified c then
    device_write (block_device c) (block_id c) (cache c) ;;
    ret (set_modified false c)
  else ret c.

(** [BlockCache::new] *)
Definition BlockCache_new (id : Z) (dev : nat) : M (FsState D) BlockCache :=
  let* data := device_read dev id in
  ret (mk_cache data id dev false 0 false).

(** [BlockCacheManager::get_block_cache]; the caller's [Arc] is a reference more. *)
Definition get_block_cache (id : Z) (dev : nat) : M (FsState D) unit :=
  let* q := gets queue in
  match find_cache id q with
  | Some _ => modify (fun s => mk_fs (devices s) (update_cache id (fun c => set_refs (S (refs c)) c) (queue s)))
  | None =>
      (if Nat.eqb (length q) BLOCK_CACHE_SIZE then
         match find_idle q 0 with
         | Some (idx, c) =>
             modify (fun s => mk_fs (devices s) (delete idx (queue s))) ;;
             let* _ := sync c in
             ret tt
         | None => panic Explicit
         end
       else ret tt) ;;
      let* c := BlockCache_new id dev in
      modify (fun s => mk_fs (devices s) (queue s ++ [(id, set_refs 1 c)]))
  end.

(** [.lock()] on the [Arc] of a block, and the end of the guard and of the [Arc]. *)
Definition lock_cache (id : Z) : M (FsState D) BlockCache :=
  let* q := gets queue in
  let* c := unwrap (find_cache id q) in
  if locked c then panic Deadlock
  else
    modify (fun s => mk_fs (devices s) (update_cache id (set_locked true) (queue s))) ;;
    ret (set_locked true c).
Definition unlock_cache (id : Z) : M (FsState D) unit :=
  modify (fun s => mk_fs (devices s)
    (update_cache id (fun c => set_refs (refs c - 1) (set_locked false c)) (queue s))).

Context {A : Type} `{Layout A}.

(** [BlockCache::addr_of_offset]: the index is checked. *)
Definition addr_of_offset (offset : Z) : M (FsState D) unit :=
  if offset <? BLOCK_SZ then ret tt else panic OutOfRange.

(** [BlockCache::get_ref] and [get_mut] of the locked entry [c] of block [id]. *)
Definition get_ref (c : BlockCache) (offset : Z) : M (FsState D) A :=
  assert_ (offset +% Z.of_nat (size_of A) <=? BLOCK_SZ) ;;
  addr_of_offset offset ;;
  ret (from_bytes (sub_bytes (Z.to_nat offset) (size_of A) (cache c))).
Definition get_mut (id : Z) (c : BlockCache) (offset : Z) : M (FsState D) A :=
  assert_ (offset +% Z.of_nat (size_of A) <=? BLOCK_SZ) ;;
  modify (fun s => mk_fs (devices s) (update_cache id (set_modified true) (queue s))) ;;
  addr_of_offset offset ;;
  ret (from_bytes (sub_bytes (Z.to_nat offset) (size_of A) (cache c))).

(** [get_block_cache(id, dev).lock().read(offset, f)] *)
Definition read_cache {V} (id : Z) (dev : nat) (offset : Z) (f : A -> M (FsState D) V) : M (FsState D) V :=
  get_block_cache id dev ;;
  let* c := lock_cache id in
  let* a := get_ref c offset in
  let* v := f a in
  unlock_cache id ;;
  ret v.

(** [get_block_cache(id, dev).lock().modify(offset, f)]: [f] returns its value and the
    new contents of what it was given; while it runs nobody else can see the block. *)
Definition modify_cache {V} (id : Z) (dev : nat) (offset : Z) (f : A -> M (FsState D) (V * A))
    : M (FsState D) V :=
  get_block_cache id dev ;;
  let* c := lock_cache id in
  let* a := get_mut id c offset in
  let* (v, a') := f a in
  modify (fun s => mk_fs (devices s)
    (update_cache id (fun c => set_cache (put_bytes (Z.to_nat offset) (to_bytes a') (cache c)) c) (queue s))) ;;
  unlock_cache id ;;
  ret v.

End BlockCache.

Section SyncAll.
Context {D : Type} `{BlockDevice D}.

(** One entry of [block_cache_sync_all]. *)
Definition sync_entry (id : Z) : M (FsState D) unit :=
  let* q := gets queue in
  let* c := unwrap (find_cache id q) in
  if locked c then panic Deadlock
  else
    let* c' := sync c in
    modify (fun s => mk_fs (devices s) (update_cache id (fun _ => c') (queue s))).
Definition block_cache_sync_all : M (FsState D) unit :=
  let* q := gets queue in
  for_each (map fst q) sync_entry.

End SyncAll.
