(* ===== verification/BlockCacheSpec.v ===== *)
(** * The block cache is transparent

    [view] is the disk as clients see it: the cached copy of a block if there is one,
    the device's otherwise.  Every operation on a block is an operation on the view,
    whatever is cached, evicted or written back; [block_cache_sync_all] makes the
    device equal to it. *)

From S2P Require Import Prelude Codec BlockCache.

(** What a device must satisfy: on the blocks it has, reads and writes do not panic,
    a read returns what was last written, and writes do not interfere. *)
Class BlockDeviceSpec (D : Type) `{BlockDevice D} : Type := {
  has_block : D -> Z -> Prop;
  read_block_ok d id : has_block d id ->
    exists bs, read_block d id = Ok bs /\ length bs = Z.to_nat BLOCK_SZ /\ Forall is_u8 bs;
  write_block_ok d id bs : has_block d id -> length bs = Z.to_nat BLOCK_SZ -> Forall is_u8 bs ->
    exists d', write_block d id bs = Ok d' /\ read_block d' id = Ok bs /\
      (forall id', id' <> id -> has_block d id' -> read_block d' id' = read_block d id') /\
      (forall id', has_block d id' -> has_block d' id')
}.

(** ** Queues *)

Lemma find_cache_None id q : find_cache id q = None <-> id ∉ map fst q.
Proof.
  induction q as [|[id' c] q IH]; cbn; [split; [intros _; apply not_elem_of_nil|done]|].
  rewrite not_elem_of_cons. destruct (Z.eqb_spec id' id) as [->|Hne]; [by split; [|intros []]|].
  rewrite IH. split; [done|]. by intros [_ ?].
Qed.

Lemma find_cache_elem id q c : find_cache id q = Some c -> (id, c) ∈ q.
Proof.
  induction q as [|[id' c'] q IH]; cbn; [done|]. destruct (Z.eqb_spec id' id) as [->|Hne].
  - intros [= ->]. by left.
  - intros Hf. right. by apply IH.
Qed.

Lemma find_cache_NoDup id c q : NoDup (map fst q) -> (id, c) ∈ q -> find_cache id q = Some c.
Proof.
  induction q as [|[id' c'] q IH]; cbn; [by intros _ []%not_elem_of_nil|].
  intros [Hn Hnd]%NoDup_cons [[= -> ->]|Hin]%elem_of_cons; [by rewrite Z.eqb_refl|].
  destruct (Z.eqb_spec id' id) as [->|Hne]; [|by apply IH]. exfalso. apply Hn.
  apply list_elem_of_fmap. by exists (id, c).
Qed.

Lemma find_update id f q j :
  find_cache j (update_cache id f q) = if decide (j = id) then f <$> find_cache id q else find_cache j q.
Proof.
  induction q as [|[id' c] q IH]; cbn; [by case_decide|].
  destruct (Z.eqb_spec id' id) as [->|Hne]; cbn.
  - case_decide as Hj; [subst; by rewrite Z.eqb_refl|]. by destruct (Z.eqb_spec id j).
  - destruct (Z.eqb_spec id' j) as [->|Hne']; [by rewrite decide_False|]. done.
Qed.

Lemma keys_update id f q : map fst (update_cache id f q) = map fst q.
Proof.
  induction q as [|[id' c] q IH]; cbn; [done|]. destruct (id' =? id); cbn; [done|]. by rewrite IH.
Qed.

Lemma elem_of_update id f q j c :
  (j, c) ∈ update_cache id f q -> (j, c) ∈ q \/ exists c0, (j, c0) ∈ q /\ j = id /\ c = f c0.
Proof.
  induction q as [|[id' c'] q IH]; cbn; [by intros []%not_elem_of_nil|].
  destruct (Z.eqb_spec id' id) as [->|Hne].
  - intros [[= -> ->]|Hin]%elem_of_cons; [right; exists c'; split_and!; [by left|done..]|].
    left. by right.
  - intros [[= -> ->]|Hin]%elem_of_cons; [left; by left|].
    destruct (IH Hin) as [?|(c0 & ? & -> & ->)]; [left; by right|].
    right. exists c0. split_and!; [by right|done..].
Qed.

Lemma find_idle_spec q idx i c :
  find_idle q idx = Some (i, c) -> exists j id, i = (idx + j)%nat /\ q !! j = Some (id, c) /\ refs c = 0%nat.
Proof.
  revert idx. induction q as [|[id' c'] q IH]; intros idx; cbn; [done|].
  destruct (Nat.eqb_spec (refs c') 0) as [He|Hne].
  - intros [= <- <-]. exists 0%nat, id'. rewrite Nat.add_0_r. done.
  - intros (j & id & -> & Hj & Hr)%IH. exists (S j), id. split_and!; [lia|done|done].
Qed.

Lemma find_idle_None q idx : find_idle q idx = None -> forall id c, (id, c) ∈ q -> refs c <> 0%nat.
Proof.
  revert idx. induction q as [|[id' c'] q IH]; intros idx; cbn; [by intros _ id c []%not_elem_of_nil|].
  destruct (Nat.eqb_spec (refs c') 0) as [He|Hne]; [done|].
  intros Hn id c [[= -> ->]|Hin]%elem_of_cons; [done|]. by eapply IH.
Qed.

Lemma find_cache_app id q1 q2 :
  find_cache id (q1 ++ q2) = match find_cache id q1 with Some c => Some c | None => find_cache id q2 end.
Proof. induction q1 as [|[id' c] q1 IH]; cbn; [done|]. by destruct (id' =? id). Qed.

(** Removing the entry of a key that occurs once. *)
Lemma find_delete q i id c j :
  NoDup (map fst q) -> q !! i = Some (id, c) ->
  find_cache j (delete i q) = if decide (j = id) then None else find_cache j q.
Proof.
  intros Hnd Hi. apply take_drop_middle in Hi. rewrite delete_take_drop. revert Hi Hnd.
  generalize (take i q), (drop (S i) q). intros l1 l2 <- Hnd. rewrite map_app in Hnd. cbn in Hnd. apply NoDup_app in Hnd as (_ & Hd & [Hn2 _]%NoDup_cons).
  rewrite !find_cache_app. cbn [find_cache]. case_decide as Hj; [subst|].
  - assert (find_cache id l1 = None) as ->.
    { apply find_cache_None. intros Hin. apply (Hd _ Hin). by left. }
    by apply find_cache_None.
  - destruct (Z.eqb_spec id j) as [->|]; [done|]. done.
Qed.

Lemma keys_delete (q : list (Z * BlockCache)) i : map fst (delete i q) = delete i (map fst q).
Proof. rewrite !delete_take_drop, map_app. by rewrite firstn_map, skipn_map. Qed.

(** How a block is in use: an [Arc] to it exists, it is locked by [read], or it is
    locked by [modify]. *)
Inductive hold : Type := Pinned | Reading | Writing.

Section Cache.
Context {D : Type} `{BlockDeviceSpec D}.
Context (has : Z -> Prop).
Implicit Types s : FsState D.

(** The block of the one device. *)
Definition device_block s (id : Z) : outcome (list Z) :=
  match devices s with
  | d :: _ => read_block d id
  | [] => Panic UnwrapNone
  end.

(** The disk that clients see. *)
Definition view s (id : Z) : list Z :=
  match find_cache id (queue s) with
  | Some c => cache c
  | None => match device_block s id with
            | Ok bs => bs
            | Panic _ => []
            end
  end.

Definition held_status (h : option hold) : nat * bool :=
  match h with
  | None => (0%nat, false)
  | Some Pinned => (1%nat, false)
  | Some Reading | Some Writing => (1%nat, true)
  end.

Record entry_ok s (h : gmap Z hold) (id : Z) (c : BlockCache) : Prop := {
  eo_id : block_id c = id;
  eo_dev : block_device c = 0%nat;
  eo_has : has id;
  eo_len : length (cache c) = Z.to_nat BLOCK_SZ;
  eo_u8 : Forall is_u8 (cache c);
  eo_clean : modified c = false -> device_block s id = Ok (cache c);
  eo_held : (refs c, locked c) = held_status (h !! id);
  eo_dirty : h !! id = Some Writing -> modified c = true
}.

Record cache_ok s (h : gmap Z hold) : Prop := {
  co_device : exists d, devices s = [d] /\ forall id, has id -> has_block d id;
  co_len : (length (queue s) <= BLOCK_CACHE_SIZE)%nat;
  co_keys : NoDup (map fst (queue s));
  co_entry id c : find_cache id (queue s) = Some c -> entry_ok s h id c;
  co_held id : is_Some (h !! id) -> is_Some (find_cache id (queue s))
}.

Lemma view_ok s h id :
  cache_ok s h -> has id -> length (view s id) = Z.to_nat BLOCK_SZ /\ Forall is_u8 (view s id).
Proof.
  intros [(d & Hd & Hhas) _ _ He _] Hid. unfold view, device_block.
  destruct (find_cache id (queue s)) as [c|] eqn:Hf; [by destruct (He id c Hf)|].
  rewrite Hd. destruct (read_block_ok d id) as (bs & -> & ? & ?); [by apply Hhas|done].
Qed.

(** Changing only the status of one block in use. *)
Lemma cache_ok_update s h id f h' :
  cache_ok s h ->
  (forall j, j <> id -> h' !! j = h !! j) -> is_Some (find_cache id (queue s)) ->
  (forall c, find_cache id (queue s) = Some c -> entry_ok s h id c -> entry_ok s h' id (f c)) ->
  cache_ok (mk_fs (devices s) (update_cache id f (queue s))) h'.
Proof.
  intros [Hd Hl Hk He Hh] Hother Hid Hf. split; cbn [devices queue].
  - done.
  - rewrite <-(length_map fst), keys_update, length_map. done.
  - by rewrite keys_update.
  - intros j c. rewrite find_update. case_decide as Hj.
    + subst. destruct Hid as [c0 Hc0]. rewrite Hc0. intros [= <-].
      destruct (Hf c0 Hc0 (He _ _ Hc0)). by split.
    + intros Hc. destruct (He j c Hc). split; try done; by rewrite Hother.
  - intros j Hj. rewrite find_update. case_decide as He'; [subst; by destruct Hid as [c0 ->]; eexists|].
    apply Hh. by rewrite <-Hother.
Qed.

Lemma view_update s id f j :
  view (mk_fs (devices s) (update_cache id f (queue s))) j =
    if decide (j = id) then match find_cache id (queue s) with Some c => cache (f c) | None => view s id end
    else view s j.
Proof.
  unfold view, device_block. cbn [devices queue]. rewrite find_update. case_decide; subst; [|done].
  by destruct (find_cache id (queue s)).
Qed.

(** Evicting an entry that nobody uses keeps the view. *)
Lemma wp_evict s h i id c Q :
  cache_ok s h -> queue s !! i = Some (id, c) -> refs c = 0%nat ->
  (forall s', cache_ok s' h -> (forall j, has j -> view s' j = view s j) -> length (queue s') = (length (queue s) - 1)%nat ->
     (forall j, find_cache j (queue s) = None -> find_cache j (queue s') = None) -> Q tt s') ->
  wp (modify (fun s => mk_fs (devices s) (delete i (queue s))) ;; let* _ := sync c in ret tt) Q s.
Proof.
  intros [(d & Hd & Hhas) Hl Hk He Hh] Hi Hr HQ.
  assert (Hf : find_cache id (queue s) = Some c).
  { apply find_cache_NoDup; [done|]. by eapply list_elem_of_lookup_2. }
  destruct (He id c Hf) as [Hid Hdev Hha Hlen Hu8 Hclean Hheld _].
  assert (Hnh : h !! id = None). { rewrite Hr in Hheld. by destruct (h !! id) as [[]|]. }
  assert (Hdel : forall j, find_cache j (delete i (queue s)) = if decide (j = id) then None else find_cache j (queue s)).
  { intros j. by eapply find_delete. }
  assert (Hlen' : length (delete i (queue s)) = (length (queue s) - 1)%nat).
  { apply length_delete. by eexists. }
  (* the state after the deletion and any write of the block to the device *)
  assert (Hgen : forall d', (forall j, has j -> has_block d' j) ->
    (forall j, j <> id -> has j -> read_block d' j = read_block d j) -> read_block d' id = Ok (cache c) ->
    Q tt (mk_fs [d'] (delete i (queue s)))).
  { intros d' Hhas' Hother Hread. apply HQ; cbn [devices queue].
    - split; cbn [devices queue].
      + by exists d'.
      + rewrite Hlen'. lia.
      + rewrite keys_delete. assert (Hfst : map fst (queue s) !! i = Some id).
        { change (map fst (queue s)) with (fst <$> queue s). by rewrite list_lookup_fmap, Hi. }
        rewrite (delete_Permutation _ _ _ Hfst) in Hk. by apply NoDup_cons in Hk as [_ ?].
      + intros j cj. rewrite Hdel. case_decide as Hj; [done|]. intros Hcj. destruct (He j cj Hcj) as [? ? ? ? ? Hcl ? ?].
        split; try done. unfold device_block in *. rewrite Hd in Hcl. cbn [devices]. by rewrite Hother.
      + intros j Hj. rewrite Hdel. rewrite decide_False by (intros ->; rewrite Hnh in Hj; by destruct Hj). by apply Hh.
    - intros j Hhj. unfold view, device_block. cbn [devices queue]. rewrite Hdel, Hd. case_decide as Hj.
      + subst j. by rewrite Hread, Hf.
      + by rewrite Hother.
    - done.
    - intros j Hj. rewrite Hdel. by case_decide. }
  unfold sync. wp_steps. destruct (modified c) eqn:Hm.
  - unfold device_write. wp_steps. cbn [devices]. rewrite Hdev, Hd. cbn [unwrap lookup list_lookup]. wp_steps.
    destruct (write_block_ok d id (cache c)) as (d' & Hw & Hrd & Hoth & Hpres); [by apply Hhas|done..|].
    eapply wp_lift; [by rewrite Hid|]. wp_steps. cbn. apply Hgen; auto.
  - wp_steps. rewrite Hd. apply Hgen; [done|done|]. specialize (Hclean eq_refl).
    unfold device_block in Hclean. by rewrite Hd in Hclean.
Qed.

(** Loading a block that is not cached. *)
Lemma wp_load s h id Q :
  cache_ok s h -> h !! id = None -> find_cache id (queue s) = None ->
  (length (queue s) < BLOCK_CACHE_SIZE)%nat -> has id ->
  (forall s', cache_ok s' (<[id := Pinned]> h) -> (forall j, has j -> view s' j = view s j) -> Q tt s') ->
  wp (let* c := BlockCache_new id 0 in
      modify (fun s => mk_fs (devices s) (queue s ++ [(id, set_refs 1 c)]))) Q s.
Proof.
  intros [(d & Hd & Hhas) Hl Hk He Hh] Hn Hf Hlt Hid HQ. unfold BlockCache_new, device_read. wp_steps.
  rewrite Hd. cbn [unwrap lookup list_lookup]. wp_steps.
  destruct (read_block_ok d id) as (bs & Hbs & Hlen & Hu8); [by apply Hhas|].
  eapply wp_lift; [done|]. wp_steps.
  assert (Hfind : forall j c, find_cache j (queue s ++ [(id, set_refs 1 c)]) =
    if decide (j = id) then Some (set_refs 1 c) else find_cache j (queue s)).
  { intros j c. rewrite find_cache_app. cbn. case_decide as Hj; [subst; by rewrite Hf, Z.eqb_refl|].
    destruct (find_cache j (queue s)); [done|]. by destruct (Z.eqb_spec id j). }
  apply HQ; [split; cbn [devices queue]|].
  - by exists d.
  - rewrite length_app. cbn. lia.
  - rewrite map_app. apply NoDup_app. split_and!; [done| |apply NoDup_singleton].
    intros j Hj ->%list_elem_of_singleton. by apply find_cache_None in Hf.
  - intros j c. rewrite Hfind. case_decide as Hj.
    + subst. intros [= <-]. split; cbn; rewrite ?lookup_insert_eq; try done.
      unfold device_block. cbn. by rewrite Hd.
    + intros Hc. destruct (He j c Hc). split; try done; by rewrite lookup_insert_ne.
  - intros j Hj. rewrite Hfind. case_decide as Hje; [by eexists|]. apply Hh.
    by rewrite lookup_insert_ne in Hj.
  - intros j Hhj. unfold view, device_block. cbn [devices queue]. rewrite Hfind. case_decide as Hj; [|done].
    subst. by rewrite Hf, Hd, Hbs.
Qed.

(** With fewer blocks in use than the cache holds, some entry is idle. *)
Lemma idle_exists s h :
  cache_ok s h -> (size h < BLOCK_CACHE_SIZE)%nat -> length (queue s) = BLOCK_CACHE_SIZE ->
  is_Some (find_idle (queue s) 0).
Proof.
  intros [_ _ Hk He _] Hsize Hlen. destruct (find_idle (queue s) 0) as [p|] eqn:E; [by eexists|].
  exfalso. pose proof (find_idle_None _ _ E) as Hall.
  assert (Hsub : list_to_set (map fst (queue s)) ⊆@{gset Z} dom h).
  { intros id Hid. apply elem_of_list_to_set, list_elem_of_fmap in Hid as ([id' c] & -> & Hin). cbn.
    apply elem_of_dom. destruct (He id' c) as [? ? ? ? ? ? Hst _]; [by apply find_cache_NoDup|].
    specialize (Hall _ _ Hin). destruct (h !! id') as [l|] eqn:Eh; rewrite ?Eh in Hst; [by eexists|]. cbn in Hst. by injection Hst as Hr0 _. }
  apply subseteq_size in Hsub. rewrite size_dom, size_list_to_set, length_map in Hsub by done. lia.
Qed.

Lemma wp_get_block_cache s h id Q :
  cache_ok s h -> h !! id = None -> (size h < BLOCK_CACHE_SIZE)%nat -> has id ->
  (forall s', cache_ok s' (<[id := Pinned]> h) -> (forall j, has j -> view s' j = view s j) -> Q tt s') ->
  wp (get_block_cache id 0) Q s.
Proof.
  intros Hok Hn Hsize Hid HQ. unfold get_block_cache. wp_step. wp_step.
  destruct (find_cache id (queue s)) as [c|] eqn:Hf.
  - wp_steps. apply HQ.
    + eapply cache_ok_update; [done| |by eexists|].
      * intros j Hj. by rewrite lookup_insert_ne.
      * intros c0 _ [? ? ? ? ? ? Hst _]. rewrite Hn in Hst. cbn in Hst. injection Hst as Hr Hlk.
        split; try done; cbn; rewrite lookup_insert_eq; [cbn; by rewrite Hr, Hlk|done].
    + intros j _. rewrite view_update. case_decide; [|done]. subst. rewrite Hf. unfold view. by rewrite Hf.
  - wp_step. destruct (Nat.eqb_spec (length (queue s)) BLOCK_CACHE_SIZE) as [Hfull|Hroom].
    + destruct (idle_exists s h Hok Hsize Hfull) as [[i c] Hidle]. rewrite Hidle.
      destruct (find_idle_spec _ _ _ _ Hidle) as (j & id' & -> & Hj & Hr).
      eapply wp_evict; [done..|]. intros s1 Hok1 Hv1 Hl1 Hf1.
      apply (wp_load s1 h); [done|done|by apply Hf1|rewrite Hl1, Hfull; lia|done|].
      intros s2 Hok2 Hv2. apply HQ; [done|]. intros j' Hj'. by rewrite Hv2, Hv1.
    + apply wp_ret. pose proof (co_len _ _ Hok). apply (wp_load s h); [done..|lia|done|done].
Qed.

Lemma wp_lock_cache s h id Q :
  cache_ok s (<[id := Pinned]> h) ->
  (forall c s', cache_ok s' (<[id := Reading]> h) -> (forall j, has j -> view s' j = view s j) -> cache c = view s id -> Q c s') ->
  wp (lock_cache id) Q s.
Proof.
  intros Hok HQ. destruct (co_held _ _ Hok id) as [c Hc]; [rewrite lookup_insert_eq; by eexists|].
  destruct (co_entry _ _ Hok id c Hc) as [? ? ? ? ? ? Hst _]. rewrite lookup_insert_eq in Hst.
  injection Hst as Hr Hlk. unfold lock_cache. wp_steps. rewrite Hc. cbn [unwrap]. wp_steps. rewrite Hlk. wp_steps.
  apply HQ.
  - eapply cache_ok_update; [done| |by eexists|].
    + intros j Hj. by rewrite !lookup_insert_ne.
    + intros c0 _ [? ? ? ? ? ? Hst _]. rewrite lookup_insert_eq in Hst. injection Hst as Hr0 _.
      split; try done; cbn; rewrite lookup_insert_eq; [by rewrite Hr0|done].
  - intros j _. rewrite view_update. case_decide; [|done]. subst. rewrite Hc. unfold view. by rewrite Hc.
  - unfold view. by rewrite Hc.
Qed.

Lemma wp_unlock_cache s h id l Q :
  cache_ok s (<[id := l]> h) -> h !! id = None -> l <> Pinned ->
  (forall s', cache_ok s' h -> (forall j, has j -> view s' j = view s j) -> Q tt s') ->
  wp (unlock_cache id) Q s.
Proof.
  intros Hok Hn Hl HQ. destruct (co_held _ _ Hok id) as [c Hc]; [rewrite lookup_insert_eq; by eexists|].
  unfold unlock_cache. wp_steps. apply HQ.
  - eapply cache_ok_update; [done| |by eexists|].
    + intros j Hj. by rewrite lookup_insert_ne.
    + intros c0 _ [? ? ? ? ? ? Hst _]. rewrite lookup_insert_eq in Hst.
      assert (Hr0 : refs c0 = 1%nat) by (by destruct l; injection Hst).
      split; try done; cbn; rewrite Hn; [by rewrite Hr0|done].
  - intros j _. rewrite view_update. case_decide; [|done]. subst. rewrite Hc. unfold view. by rewrite Hc.
Qed.

(** Marking a locked block as modified. *)
Lemma cache_ok_dirty s h id :
  cache_ok s (<[id := Reading]> h) ->
  let s' := mk_fs (devices s) (update_cache id (set_modified true) (queue s)) in
  cache_ok s' (<[id := Writing]> h) /\ forall j, has j -> view s' j = view s j.
Proof.
  intros Hok. cbn zeta. destruct (co_held _ _ Hok id) as [c Hc]; [rewrite lookup_insert_eq; by eexists|]. split.
  - eapply cache_ok_update; [done| |by eexists|].
    + intros j Hj. by rewrite !lookup_insert_ne.
    + intros c0 _ [? ? ? ? ? ? Hst _]. rewrite lookup_insert_eq in Hst.
      split; try done; cbn; by rewrite lookup_insert_eq.
  - intros j _. rewrite view_update. case_decide; [|done]. subst. rewrite Hc. unfold view. by rewrite Hc.
Qed.

(** Changing the contents of a block locked by [modify]. *)
Lemma cache_ok_write s h id (g : list Z -> list Z) :
  cache_ok s (<[id := Writing]> h) ->
  length (g (view s id)) = Z.to_nat BLOCK_SZ -> Forall is_u8 (g (view s id)) ->
  let s' := mk_fs (devices s) (update_cache id (fun c => set_cache (g (cache c)) c) (queue s)) in
  cache_ok s' (<[id := Writing]> h) /\
  forall j, has j -> view s' j = if decide (j = id) then g (view s id) else view s j.
Proof.
  intros Hok Hlen Hu8. cbn zeta. destruct (co_held _ _ Hok id) as [c Hc]; [rewrite lookup_insert_eq; by eexists|].
  assert (Hview : view s id = cache c) by (unfold view; by rewrite Hc). rewrite Hview in *. split.
  - eapply cache_ok_update; [done|done|by eexists|]. intros c0 Hc0 [? ? ? ? ? ? Hst Hd].
    assert (c0 = c) as -> by congruence. split; try done. cbn.
    rewrite Hd by (by rewrite lookup_insert_eq). done.
  - intros j _. by rewrite view_update, Hc.
Qed.

Lemma length_put_bytes off new bs :
  (off + length new <= length bs)%nat -> length (put_bytes off new bs) = length bs.
Proof. intros Hl. unfold put_bytes. rewrite !length_app, length_take, length_drop. lia. Qed.

Lemma put_bytes_u8 off new bs : Forall is_u8 new -> Forall is_u8 bs -> Forall is_u8 (put_bytes off new bs).
Proof.
  intros Hn Hb. unfold put_bytes. rewrite !Forall_app. split_and!; [by apply Forall_take|done|by apply Forall_drop].
Qed.

(** Replacing a range in two parts. *)
Lemma put_bytes_app off a b bs :
  (off + length a + length b <= length bs)%nat ->
  put_bytes (off + length a) b (put_bytes off a bs) = put_bytes off (a ++ b) bs.
Proof.
  intros Hl. unfold put_bytes. rewrite length_app, (app_assoc (take off bs) a).
  rewrite take_app_length' by (rewrite length_app, length_take; lia).
  rewrite <-!app_assoc. do 3 f_equal. rewrite app_assoc, drop_app_ge by (rewrite length_app, length_take; lia).
  rewrite length_app, length_take, drop_drop. f_equal. lia.
Qed.

(** ** The rules for clients *)

Section Access.
Context {A : Type} `{LayoutSpec A}.

(** The offsets that are accepted. *)
Definition offset_ok (off : Z) : Prop := 0 <= off < BLOCK_SZ /\ off + Z.of_nat (size_of A) <= BLOCK_SZ.

Lemma wp_get_ref c off s Q :
  offset_ok off -> Q (from_bytes (sub_bytes (Z.to_nat off) (size_of A) (cache c))) s -> wp (get_ref c off) Q s.
Proof.
  unfold offset_ok, BLOCK_SZ. intros [Hlt Hle] HQ. unfold get_ref, addr_of_offset, BLOCK_SZ.
  wp_step. apply wp_assert; [rewrite wrap64_small by lia; by apply Z.leb_le|].
  rewrite (proj2 (Z.ltb_lt off 512)) by lia. by wp_steps.
Qed.

Lemma wp_get_mut id c off s Q :
  offset_ok off ->
  Q (from_bytes (sub_bytes (Z.to_nat off) (size_of A) (cache c)))
    (mk_fs (devices s) (update_cache id (set_modified true) (queue s))) ->
  wp (get_mut id c off) Q s.
Proof.
  unfold offset_ok, BLOCK_SZ. intros [Hlt Hle] HQ. unfold get_mut, addr_of_offset, BLOCK_SZ.
  wp_step. apply wp_assert; [rewrite wrap64_small by lia; by apply Z.leb_le|].
  rewrite (proj2 (Z.ltb_lt off 512)) by lia. by wp_steps.
Qed.

(** [read]: the value at the offset in the view; the body may use other blocks. *)
Lemma wp_read_cache {V} s h id off (f : A -> M (FsState D) V) Q :
  cache_ok s h -> h !! id = None -> (size h < BLOCK_CACHE_SIZE)%nat -> has id ->
  offset_ok off ->
  (forall s1, cache_ok s1 (<[id := Reading]> h) -> (forall j, has j -> view s1 j = view s j) ->
     wp (f (from_bytes (sub_bytes (Z.to_nat off) (size_of A) (view s id))))
       (fun v s2 => cache_ok s2 (<[id := Reading]> h) /\
          forall s3, cache_ok s3 h -> (forall j, has j -> view s3 j = view s2 j) -> Q v s3) s1) ->
  wp (read_cache id 0 off f) Q s.
Proof.
  intros Hok Hn Hsize Hid Hoff Hf. unfold read_cache. wp_step.
  eapply wp_get_block_cache; [done..|]. intros s1 Hok1 Hv1. wp_step.
  eapply wp_lock_cache; [done|]. intros c s2 Hok2 Hv2 Hc. wp_step. apply wp_get_ref; [done|].
  wp_step. rewrite Hc, Hv1 by done. eapply wp_mono; [|apply Hf; [done|intros j ?; by rewrite Hv2, Hv1]].
  intros v s3 [Hok3 HQ]. wp_step. eapply wp_unlock_cache; [done..|]. intros s4 Hok4 Hv4. wp_step. by apply HQ.
Qed.

(** [modify]: the body gets the value at the offset, and what it returns replaces it in
    the view. *)
Lemma wp_modify_cache {V} s h id off (f : A -> M (FsState D) (V * A)) Q :
  cache_ok s h -> h !! id = None -> (size h < BLOCK_CACHE_SIZE)%nat -> has id ->
  offset_ok off ->
  (forall s1, cache_ok s1 (<[id := Writing]> h) -> (forall j, has j -> view s1 j = view s j) ->
     wp (f (from_bytes (sub_bytes (Z.to_nat off) (size_of A) (view s id))))
       (fun r s2 => cache_ok s2 (<[id := Writing]> h) /\ valid_value (snd r) /\
          forall s3, cache_ok s3 h ->
            (forall j, has j -> view s3 j = if decide (j = id) then put_bytes (Z.to_nat off) (to_bytes (snd r)) (view s2 id)
                                   else view s2 j) -> Q (fst r) s3) s1) ->
  wp (modify_cache id 0 off f) Q s.
Proof.
  intros Hok Hn Hsize Hid Hoff Hf. unfold modify_cache. wp_step.
  eapply wp_get_block_cache; [done..|]. intros s1 Hok1 Hv1. wp_step.
  eapply wp_lock_cache; [done|]. intros c s2 Hok2 Hv2 Hc. wp_step. apply wp_get_mut; [done|].
  destruct (cache_ok_dirty _ _ _ Hok2) as [Hok3 Hv3].
  wp_step. rewrite Hc, Hv1 by done. eapply wp_mono; [|apply Hf; [done|intros j ?; by rewrite Hv3, Hv2, Hv1]].
  intros [v a] s4 (Hok4 & Ha & HQ). cbn [fst snd] in *.
  destruct (view_ok s4 _ id Hok4 Hid) as [Hlen Hu8].
  pose proof (length_to_bytes a Ha) as Hla.
  destruct (cache_ok_write s4 h id (put_bytes (Z.to_nat off) (to_bytes a)) Hok4) as [Hok5 Hv5].
  { rewrite length_put_bytes; [done|]. rewrite Hla, Hlen. unfold offset_ok, BLOCK_SZ in *. lia. }
  { apply put_bytes_u8; [by apply to_bytes_u8|done]. }
  wp_step. wp_step. wp_step. eapply wp_unlock_cache; [done..|]. intros s6 Hok6 Hv6. wp_step. apply HQ; [done|].
  intros j Hj. by rewrite Hv6, Hv5.
Qed.

(** A type of the size of a block is the whole block. *)
Lemma whole_block bs :
  Z.of_nat (size_of A) = BLOCK_SZ -> length bs = Z.to_nat BLOCK_SZ ->
  sub_bytes (Z.to_nat 0) (size_of A) bs = bs /\
  forall new, length new = size_of A -> put_bytes (Z.to_nat 0) new bs = new.
Proof.
  intros HA Hl. assert (length bs = size_of A) as Hl' by lia. split.
  - unfold sub_bytes. by rewrite drop_0, take_ge by lia.
  - intros new Hn. unfold put_bytes. cbn. by rewrite drop_ge, app_nil_r by lia.
Qed.

Lemma wp_read_block {V} s h id (f : A -> M (FsState D) V) Q :
  Z.of_nat (size_of A) = BLOCK_SZ ->
  cache_ok s h -> h !! id = None -> (size h < BLOCK_CACHE_SIZE)%nat -> has id ->
  (forall s1, cache_ok s1 (<[id := Reading]> h) -> (forall j, has j -> view s1 j = view s j) ->
     wp (f (from_bytes (view s id)))
       (fun v s2 => cache_ok s2 (<[id := Reading]> h) /\
          forall s3, cache_ok s3 h -> (forall j, has j -> view s3 j = view s2 j) -> Q v s3) s1) ->
  wp (read_cache id 0 0 f) Q s.
Proof.
  intros HA Hok Hn Hsize Hid Hf. eapply wp_read_cache; [done..| |].
  - unfold offset_ok. rewrite HA. by unfold BLOCK_SZ.
  - intros s1 Hok1 Hv1. destruct (view_ok s h id Hok Hid) as [Hl _].
    destruct (whole_block (view s id) HA Hl) as [-> _]. by apply Hf.
Qed.

Lemma wp_modify_block {V} s h id (f : A -> M (FsState D) (V * A)) Q :
  Z.of_nat (size_of A) = BLOCK_SZ ->
  cache_ok s h -> h !! id = None -> (size h < BLOCK_CACHE_SIZE)%nat -> has id ->
  (forall s1, cache_ok s1 (<[id := Writing]> h) -> (forall j, has j -> view s1 j = view s j) ->
     wp (f (from_bytes (view s id)))
       (fun r s2 => cache_ok s2 (<[id := Writing]> h) /\ valid_value (snd r) /\
          forall s3, cache_ok s3 h ->
            (forall j, has j -> view s3 j = if decide (j = id) then to_bytes (snd r) else view s2 j) ->
            Q (fst r) s3) s1) ->
  wp (modify_cache id 0 0 f) Q s.
Proof.
  intros HA Hok Hn Hsize Hid Hf. eapply wp_modify_cache; [done..| |].
  - unfold offset_ok. rewrite HA. by unfold BLOCK_SZ.
  - intros s1 Hok1 Hv1. destruct (view_ok s h id Hok Hid) as [Hl _].
    destruct (whole_block (view s id) HA Hl) as [-> _].
    eapply wp_mono; [|by apply Hf]. intros r s2 (Hok2 & Hval & HQ). split_and!; [done..|].
    intros s3 Hok3 Hv3. apply HQ; [done|]. intros j Hj. rewrite Hv3 by done. case_decide; [|done].
    destruct (view_ok s2 _ id Hok2 Hid) as [Hl2 _].
    destruct (whole_block (view s2 id) HA Hl2) as [_ Hput]. apply Hput. by apply length_to_bytes.
Qed.

End Access.

(** ** Synchronising *)

(** The device after an entry was written to it, or was clean. *)
Lemma cache_ok_synced s id c d d' :
  cache_ok s ∅ -> find_cache id (queue s) = Some c -> devices s = [d] ->
  (forall j, has j -> has_block d' j) -> (forall j, j <> id -> has j -> read_block d' j = read_block d j) ->
  read_block d' id = Ok (cache c) ->
  let s' := mk_fs [d'] (update_cache id (fun _ => set_modified false c) (queue s)) in
  cache_ok s' ∅ /\ forall j, has j -> view s' j = view s j.
Proof.
  intros [_ Hl Hk He Hh] Hc Hd Hhas Hother Hread. cbn zeta.
  destruct (He id c Hc) as [Hid Hdev Hhas0 Hlen Hu8 _ Hst _]. split; [split; cbn [devices queue]|].
  - by exists d'.
  - rewrite <-(length_map fst), keys_update, length_map. done.
  - by rewrite keys_update.
  - intros j cj. rewrite find_update. case_decide as Hj.
    + subst j. rewrite Hc. intros [= <-]. by split.
    + intros Hcj. destruct (He j cj Hcj) as [? ? ? ? ? Hcl ? ?]. split; try done.
      unfold device_block in *. rewrite Hd in Hcl. cbn. by rewrite Hother.
  - intros j. rewrite lookup_empty. by intros [? ?].
  - intros j Hhj. unfold view, device_block. cbn [devices queue]. rewrite find_update, Hd. case_decide as Hj.
    + subst j. by rewrite Hc.
    + by rewrite Hother.
Qed.

Lemma wp_sync_entry s id Q :
  cache_ok s ∅ -> is_Some (find_cache id (queue s)) ->
  (forall s', cache_ok s' ∅ -> (forall j, has j -> view s' j = view s j) -> map fst (queue s') = map fst (queue s) ->
     device_block s' id = Ok (view s id) ->
     (forall j, has j -> device_block s j = Ok (view s j) -> device_block s' j = Ok (view s j)) -> Q tt s') ->
  wp (sync_entry id) Q s.
Proof.
  intros Hok [c Hc] HQ. pose proof (co_entry _ _ Hok id c Hc) as [Hid Hdev Hhas Hlen Hu8 Hcl Hst _].
  pose proof (co_device _ _ Hok) as (d & Hd & Hhd).
  assert (Hview : view s id = cache c) by (unfold view; by rewrite Hc).
  rewrite lookup_empty in Hst. injection Hst as Hr Hlk.
  assert (Hgen : forall d', (forall j, has j -> has_block d' j) ->
    (forall j, j <> id -> has j -> read_block d' j = read_block d j) -> read_block d' id = Ok (cache c) ->
    Q tt (mk_fs [d'] (update_cache id (fun _ => set_modified false c) (queue s)))).
  { intros d' Hhas' Hother Hread. destruct (cache_ok_synced s id c d d') as [Hok' Hv']; try done.
    apply HQ; [done|done|apply keys_update|by rewrite Hview|].
    intros j Hhj. unfold device_block. rewrite Hd. cbn. destruct (decide (j = id)) as [->|Hj].
    - intros _. by rewrite Hread, Hview.
    - by rewrite Hother. }
  unfold sync_entry. wp_steps. rewrite Hc. cbn [unwrap]. wp_steps. rewrite Hlk. wp_step.
  unfold sync. destruct (modified c) eqn:Hm.
  - destruct (write_block_ok d id (cache c)) as (d' & Hw & Hrd & Hoth & Hpres); [by apply Hhd|done..|].
    unfold device_write. wp_steps. rewrite Hdev, Hd, Hid. cbn [unwrap lookup list_lookup]. wp_steps.
    eapply wp_lift; [exact Hw|]. wp_steps. rewrite Hd. cbn. apply Hgen; auto.
  - wp_steps. specialize (Hcl eq_refl). unfold device_block in Hcl. rewrite Hd in Hcl. rewrite Hd.
    replace (fun _ => c) with (fun _ : BlockCache => set_modified false c) by (by destruct c; cbn in *; subst).
    by apply Hgen.
Qed.

(** After [sync_all] the device is the view. *)
Lemma wp_sync_all s Q :
  cache_ok s ∅ ->
  (forall s', cache_ok s' ∅ -> (forall j, has j -> view s' j = view s j) ->
     (forall j, has j -> device_block s' j = Ok (view s j)) -> Q tt s') ->
  wp block_cache_sync_all Q s.
Proof.
  intros Hok HQ. unfold block_cache_sync_all, for_each. wp_steps.
  eapply wp_mono; [|apply (wp_foldM _ (fun l _ s' => cache_ok s' ∅ /\ (forall j, has j -> view s' j = view s j) /\
    map fst (queue s') = map fst (queue s) /\ forall j, has j -> j ∈ l -> device_block s' j = Ok (view s j)))].
  - cbn beta. intros [] s' (Hok' & Hv & Hkeys & Hdone). apply HQ; [done|done|]. intros j Hj.
    destruct (decide (j ∈ map fst (queue s))) as [Hin|Hnin]; [by apply Hdone|].
    rewrite <-Hv by done. unfold view. rewrite <-Hkeys in Hnin. apply find_cache_None in Hnin. rewrite Hnin.
    destruct (co_device _ _ Hok') as (d & Hd & Hhd). unfold device_block. rewrite Hd.
    by destruct (read_block_ok d j) as (bs & -> & _); [apply Hhd|].
  - split_and!; [done..|]. by intros j _ []%not_elem_of_nil.
  - intros l id rest _ s' Hsplit (Hok' & Hv & Hkeys & Hdone). eapply wp_sync_entry; [done| |].
    + destruct (find_cache id (queue s')) eqn:Hf; [by eexists|]. apply find_cache_None in Hf.
      rewrite Hkeys, Hsplit in Hf. exfalso. apply Hf, elem_of_app. right. by left.
    + intros s2 Hok2 Hv2 Hk2 Hid Hkeep. split_and!; [done|intros j ?; by rewrite Hv2, Hv|congruence|].
      intros j Hhj [Hj|Hj%list_elem_of_singleton]%elem_of_app; [|subst j]; rewrite <-Hv by done; [|done].
      apply Hkeep; [done|]. rewrite Hv by done. by apply Hdone.
Qed.

End Cache.
