(* ===== verification/BlockFile.v ===== *)
(** * A file as a block device (easy-fs-fuse/src/main.rs)

    [BlockFile] keeps the blocks of a disk image in a file of the host.  The file is its
    bytes: [read] after [seek] stops at the end of the file, [write] extends it.  The
    instance at the end shows that it is a block device in the sense the block cache
    relies on. *)

From S2P Require Import Prelude Codec BlockCache BlockCacheSpec.

Module Fuse.

Definition BLOCK_SZ : Z := 512.
Definition BLOCK_NUM : Z := 131072.

Record BlockFile : Type := mk_file { file : list Z }.

(** [std::fs::File]: reading and writing at a position, and [set_len]. *)
Definition File_read (f : list Z) (pos : Z) (len : nat) : list Z :=
  if Z.of_nat (length f) <=? pos then [] else sub_bytes (Z.to_nat pos) len f.
Definition File_write (f : list Z) (pos : Z) (buf : list Z) : list Z :=
  put_bytes (Z.to_nat pos) buf (f ++ replicate (Z.to_nat pos - length f) 0).
Definition File_set_len (f : list Z) (len : Z) : list Z :=
  take (Z.to_nat len) f ++ replicate (Z.to_nat len - length f) 0.

(** The cache reads into a buffer of [BLOCK_SZ] bytes. *)
Definition BlockFile_read_block (d : BlockFile) (id : Z) : outcome (list Z) :=
  let bs := File_read (file d) (id *% BLOCK_SZ) (Z.to_nat BLOCK_SZ) in
  if Z.of_nat (length bs) =? BLOCK_SZ then Ok bs else Panic AssertFailed.
Definition BlockFile_write_block (d : BlockFile) (id : Z) (buf : list Z) : outcome BlockFile :=
  let f := File_write (file d) (id *% BLOCK_SZ) buf in
  if Z.of_nat (length buf) =? BLOCK_SZ then Ok (mk_file f) else Panic AssertFailed.

#[global] Instance BlockFile_device : BlockDevice BlockFile := {
  read_block := BlockFile_read_block;
  write_block := BlockFile_write_block
}.

(** The image file as [easy_fs_pack] opens it. *)
Definition open_image (f : list Z) : BlockFile := mk_file (File_set_len f (BLOCK_NUM *% BLOCK_SZ)).

End Fuse.
Import Fuse.

(** ** The blocks of the file *)

Definition file_has (d : BlockFile) (id : Z) : Prop :=
  0 <= id < 2 ^ 32 /\ (id + 1) * 512 <= Z.of_nat (length (file d)) /\ Forall is_u8 (file d).

Lemma file_pos id : 0 <= id < 2 ^ 32 -> id *% Fuse.BLOCK_SZ = id * 512.
Proof. intros Hid. unfold Fuse.BLOCK_SZ. by rewrite wrap64_small by lia. Qed.

Lemma length_sub_bytes off n bs : (off + n <= length bs)%nat -> length (sub_bytes off n bs) = n.
Proof. intros Hl. unfold sub_bytes. rewrite length_take, length_drop. lia. Qed.

Lemma sub_put_same off new bs :
  (off + length new <= length bs)%nat -> sub_bytes off (length new) (put_bytes off new bs) = new.
Proof.
  intros Hl. unfold sub_bytes, put_bytes.
  rewrite drop_app_length' by (rewrite length_take; lia). by rewrite take_app_length.
Qed.

(** Reading a range apart from what was replaced. *)
Lemma sub_put_other off new bs off' n :
  (off + length new <= length bs)%nat -> (off' + n <= off \/ off + length new <= off')%nat ->
  sub_bytes off' n (put_bytes off new bs) = sub_bytes off' n bs.
Proof.
  intros Hl [Hlt|Hge]; unfold sub_bytes, put_bytes; apply list_eq; intros i.
  - destruct (decide (i < n)%nat); [|by rewrite !lookup_take_ge by lia].
    rewrite !lookup_take_lt, !lookup_drop by done.
    rewrite lookup_app_l by (rewrite length_take; lia). by rewrite lookup_take_lt by lia.
  - destruct (decide (i < n)%nat); [|by rewrite !lookup_take_ge by lia].
    rewrite !lookup_take_lt, !lookup_drop by done.
    rewrite !lookup_app_r; rewrite ?length_take; try lia. rewrite lookup_drop. f_equal. lia.
Qed.

Lemma File_read_inside f pos n :
  0 <= pos < Z.of_nat (length f) -> File_read f pos n = sub_bytes (Z.to_nat pos) n f.
Proof. intros Hp. unfold File_read. by rewrite (proj2 (Z.leb_gt _ _)) by lia. Qed.

Lemma file_write_read d id bs :
  file_has d id -> length bs = Z.to_nat BlockCache.BLOCK_SZ ->
  read_block (mk_file (File_write (file d) (id *% Fuse.BLOCK_SZ) bs)) id = Ok bs.
Proof.
  intros (Hid & Hlen & _) Hbs. assert (BlockCache.BLOCK_SZ = 512) as HB by done. cbn. unfold BlockFile_read_block, File_write. cbn [file].
  rewrite file_pos by done. replace (Z.to_nat (id * 512) - length (file d))%nat with 0%nat by lia.
  cbn [replicate]. rewrite app_nil_r. rewrite File_read_inside by (rewrite length_put_bytes; lia). change (Z.to_nat Fuse.BLOCK_SZ) with (Z.to_nat BlockCache.BLOCK_SZ).
  rewrite <-Hbs. rewrite sub_put_same by lia. rewrite Hbs. done.
Qed.

Lemma file_write_other d id bs id' :
  file_has d id -> length bs = Z.to_nat BlockCache.BLOCK_SZ -> id' <> id -> file_has d id' ->
  read_block (mk_file (File_write (file d) (id *% Fuse.BLOCK_SZ) bs)) id' = read_block d id'.
Proof.
  intros (Hid & Hlen & _) Hbs Hne (Hid' & Hlen' & _). cbn. unfold BlockFile_read_block, File_write.
  cbn [file]. rewrite !file_pos by done. replace (Z.to_nat (id * 512) - length (file d))%nat with 0%nat by lia.
  cbn [replicate]. rewrite app_nil_r. assert (BlockCache.BLOCK_SZ = 512) as HB by done.
  assert (Fuse.BLOCK_SZ = 512) as HB' by done. rewrite !File_read_inside by (rewrite ?length_put_bytes; lia).
  rewrite sub_put_other; [done|lia|]. rewrite Hbs, HB, HB'. destruct (Z.lt_trichotomy id' id) as [?|[?|?]]; [left; lia|done|right; lia].
Qed.

Lemma file_write_has d id bs id' :
  file_has d id -> length bs = Z.to_nat BlockCache.BLOCK_SZ -> Forall is_u8 bs -> file_has d id' ->
  file_has (mk_file (File_write (file d) (id *% Fuse.BLOCK_SZ) bs)) id'.
Proof.
  intros (Hid & Hlen & _) Hbs Hu8 (Hid' & Hlen' & Hf). unfold File_write. split; [done|]. cbn [file].
  rewrite !file_pos by done. replace (Z.to_nat (id * 512) - length (file d))%nat with 0%nat by lia.
  cbn [replicate]. rewrite app_nil_r. assert (BlockCache.BLOCK_SZ = 512) as HB by done.
  split; [rewrite length_put_bytes by lia; done|by apply put_bytes_u8].
Qed.

#[export] Program Instance BlockFile_spec : BlockDeviceSpec BlockFile := { has_block := file_has }.
Next Obligation.
  intros d id (Hid & Hlen & Hf). cbn. unfold BlockFile_read_block. rewrite file_pos by done.
  assert (Fuse.BLOCK_SZ = 512) as HB by done. rewrite File_read_inside by lia.
  rewrite length_sub_bytes by lia. eexists. split; [done|]. split; [by rewrite length_sub_bytes by lia|].
  by apply Forall_take, Forall_drop.
Qed.
Next Obligation.
  intros d id bs Hhas Hbs Hu8. eexists. split; [|split; [by apply file_write_read|split]].
  - cbn. unfold BlockFile_write_block. by rewrite Hbs.
  - intros id' Hne Hhas'. by apply file_write_other.
  - intros id' Hhas'. by apply file_write_has.
Qed.
