(* ===== verification/DiskSpec.v ===== *)
(** * The block cache implements a disk

    The abstract machine is a disk without a cache: every access goes to the contents of
    the block.  A sequence of accesses through the cache, with any pattern of evictions
    and synchronisations, returns the same values, and [block_cache_sync_all] leaves the
    device with the contents of the abstract disk. *)

From S2P Require Import Prelude Codec BlockCache BlockCacheSpec BlockFile.

(** ** Accesses and the abstract disk *)

Inductive access (A : Type) : Type :=
| Read (id off : Z)
| Write (id off : Z) (a : A)
| Sync.
Arguments Read {A}.
Arguments Write {A}.
Arguments Sync {A}.

Section Disk.
Context {A : Type} `{Layout A}.

Definition disk : Type := Z -> list Z.

Definition disk_access (o : access A) (k : disk) : option A * disk :=
  match o with
  | Read id off => (Some (from_bytes (sub_bytes (Z.to_nat off) (size_of A) (k id))), k)
  | Write id off a => (None, fun j => if decide (j = id) then put_bytes (Z.to_nat off) (to_bytes a) (k id) else k j)
  | Sync => (None, k)
  end.

Fixpoint disk_accesses (os : list (access A)) (k : disk) : list (option A) * disk :=
  match os with
  | [] => ([], k)
  | o :: os' =>
      let '(v, k1) := disk_access o k in
      let '(vs, k2) := disk_accesses os' k1 in
      (v :: vs, k2)
  end.

Context {D : Type} `{BlockDevice D}.

(** The same accesses through the cache. *)
Definition cache_access (o : access A) : M (FsState D) (option A) :=
  match o with
  | Read id off => read_cache id 0 off (fun a => ret (Some a))
  | Write id off a => modify_cache id 0 off (fun _ => ret (None, a))
  | Sync => block_cache_sync_all ;; ret None
  end.

Fixpoint cache_accesses (os : list (access A)) : M (FsState D) (list (option A)) :=
  match os with
  | [] => ret []
  | o :: os' =>
      let* v := cache_access o in
      let* vs := cache_accesses os' in
      ret (v :: vs)
  end.

(** Accesses inside the blocks of the device, with values of the type. *)
Definition access_ok (has : Z -> Prop) (o : access A) : Prop :=
  match o with
  | Read id off => has id /\ offset_ok (A := A) off
  | Write id off a => has id /\ offset_ok (A := A) off /\ valid_value a
  | Sync => True
  end.

End Disk.

Section Refinement.
Context {A : Type} `{LayoutSpec A} {D : Type} `{BlockDeviceSpec D} (has : Z -> Prop).

(** The disk that the state of the cache stands for. *)
Definition stands_for (s : FsState D) (k : disk) : Prop :=
  cache_ok has s ∅ /\ forall j, has j -> view s j = k j.

Lemma no_holds : (size (∅ : gmap Z hold) < BLOCK_CACHE_SIZE)%nat.
Proof. rewrite map_size_empty. lia. Qed.
#[local] Hint Resolve lookup_empty no_holds : fs.

Lemma wp_cache_access o (s : FsState D) k :
  stands_for s k -> access_ok has o ->
  wp (cache_access o) (fun v s' => v = fst (disk_access (A := A) o k) /\ stands_for s' (snd (disk_access o k))) s.
Proof.
  intros [Hok Hk] Ho. destruct o as [id off|id off a|]; cbn in *.
  - destruct Ho as [Hid Hoff]. apply (wp_read_cache has s ∅); [by auto with fs..|]. intros s1 Hok1 Hv1. apply wp_ret.
    split; [done|]. intros s3 Hok3 Hv3. split; [by rewrite Hk|]. split; [done|].
    intros j Hj. by rewrite Hv3, Hv1, Hk.
  - destruct Ho as (Hid & Hoff & Ha). apply (wp_modify_cache has s ∅); [by auto with fs..|]. intros s1 Hok1 Hv1. apply wp_ret.
    split_and!; [done..|]. intros s3 Hok3 Hv3. split; [done|]. split; [done|]. intros j Hj.
    rewrite Hv3 by done. cbn [snd]. case_decide; by rewrite Hv1, Hk.
  - wp_step. eapply wp_sync_all; [done|]. intros s' Hok' Hv' _. apply wp_ret. split; [done|]. split; [done|].
    intros j Hj. by rewrite Hv', Hk.
Qed.

Lemma wp_cache_accesses os (s : FsState D) k :
  stands_for s k -> Forall (access_ok has) os ->
  wp (cache_accesses os) (fun vs s' => vs = fst (disk_accesses (A := A) os k) /\ stands_for s' (snd (disk_accesses os k))) s.
Proof.
  revert s k. induction os as [|o os IH]; intros s k Hs Hos; cbn [cache_accesses disk_accesses]; [by apply wp_ret|].
  apply Forall_cons in Hos as [Ho Hos]. wp_step. eapply wp_mono; [|by apply wp_cache_access].
  intros v s1 [-> Hs1]. destruct (disk_access o k) as [v k1]. cbn [fst snd] in *.
  wp_step. eapply wp_mono; [|by eapply IH]. intros vs s2 [-> Hs2]. wp_step.
  by destruct (disk_accesses os k1) as [vs k2].
Qed.

(** C15: The block cache refines a disk without a cache.  From a state of the cache that
    stands for the disk [k], any sequence of typed reads, typed writes and
    synchronisations inside the device's blocks runs without panic or deadlock, however
    the sixteen entries are evicted and reloaded, and returns what the same sequence
    returns on [k]; synchronising at the end leaves on the device, for every block, the
    contents the sequence gives [k]. *)
Theorem cache_refines_disk os (s : FsState D) k :
  stands_for s k -> Forall (access_ok has) os ->
  wp (let* rs := cache_accesses os in block_cache_sync_all ;; ret rs)
    (fun rs s' => rs = fst (disk_accesses (A := A) os k) /\
       stands_for s' (snd (disk_accesses os k)) /\
       forall j, has j -> device_block s' j = Ok (snd (disk_accesses os k) j)) s.
Proof.
  intros Hs Hos. wp_step. eapply wp_mono; [|by apply wp_cache_accesses]. intros rs s1 [-> [Hok Hk]]. wp_step.
  eapply wp_sync_all; [done|]. intros s2 Hok2 Hv2 Hd2. wp_step.
  split; [done|]. split; [split; [done|]|]; intros j Hj; [by rewrite Hv2, Hk|by rewrite Hd2, Hk].
Qed.

End Refinement.
#[export] Hint Resolve lookup_empty no_holds : fs.

(** ** Blank disk images *)

Definition blank_image (total : Z) : FsState Fuse.BlockFile :=
  mk_fs [Fuse.mk_file (replicate (Z.to_nat (total * 512)) 0)] [].

Lemma blank_image_ok total :
  0 <= total < 2 ^ 31 -> cache_ok (fun id => 0 <= id < total) (blank_image total) ∅.
Proof.
  intros Ht. split.
  - eexists. split; [done|]. intros id Hid. split; [lia|]. cbn [Fuse.file]. rewrite length_replicate.
    split; [lia|]. by apply Forall_replicate.
  - cbn. lia.
  - apply NoDup_nil_2.
  - done.
  - intros id [? Hx]. by rewrite lookup_empty in Hx.
Qed.

(** ** A disk image of twenty blocks *)

Definition demo_image : FsState Fuse.BlockFile := mk_fs [Fuse.mk_file (replicate (Z.to_nat 10240) 0)] [].
Definition demo_has (id : Z) : Prop := 0 <= id < 20.
Definition blank_disk : disk := fun _ => replicate 512 0.

Lemma demo_image_stands_for : stands_for demo_has demo_image blank_disk.
Proof.
  assert (Hhas : forall id, demo_has id -> has_block (Fuse.mk_file (replicate (Z.to_nat 10240) 0)) id).
  { intros id Hid. unfold demo_has in Hid. split; [lia|]. cbn [Fuse.file]. rewrite length_replicate.
    split; [lia|]. apply Forall_replicate. done. }
  split; [split|].
  - exists (Fuse.mk_file (replicate (Z.to_nat 10240) 0)). split; [done|exact Hhas].
  - cbn. lia.
  - apply NoDup_nil_2.
  - done.
  - intros id [? Hx]. by rewrite lookup_empty in Hx.
  - intros j Hj. unfold demo_has in Hj.
    assert (Hall : forallb (fun j => bool_decide (view demo_image j = blank_disk j)) (seqZ 0 20) = true)
      by (vm_compute; reflexivity).
    apply (bool_decide_eq_true_1 _ (forallb_seqZ _ _ _ Hall j ltac:(lia))).
Qed.

Lemma cache_refines_disk_witness :
  wp (let* rs := cache_accesses [Write 3 508 (Array (w := 4) (n := 1) [77]); Sync; Read 3 508] in
      block_cache_sync_all ;; ret rs)
    (fun rs s' => rs = [None; None; Some (Array [77])] /\
       device_block s' 3 = Ok (replicate 508 0 ++ [77; 0; 0; 0])) demo_image.
Proof.
  eapply wp_mono; [|refine (cache_refines_disk (A := array 4 1) demo_has
    [Write 3 508 (Array [77]); Sync; Read 3 508] demo_image blank_disk demo_image_stands_for _)].
  - cbn beta. intros rs s' (-> & _ & Hd). split; [vm_compute; reflexivity|].
    rewrite Hd by (unfold demo_has; lia). vm_compute. reflexivity.
  - assert (Hoff : offset_ok (A := array 4 1) 508) by (unfold offset_ok, BLOCK_SZ; cbn; lia).
    assert (H3 : demo_has 3) by (unfold demo_has; lia).
    constructor; [|constructor; [done|constructor; [done|constructor]]].
    split_and!; [done..|]. split; [done|]. constructor; [lia|constructor].
Defined.

(** ** Two devices *)

(** Cached blocks are found by their number alone: once block [id] of some device is
    cached, reading or modifying block [id] of any other device behaves exactly as the
    access to the first one, until the entry is evicted. *)
Theorem cache_ignores_device {D A V W} `{BlockDevice D} `{Layout A} id dev1 dev2 off
    (f : A -> M (FsState D) V) (g : A -> M (FsState D) (W * A)) (s : FsState D) :
  is_Some (find_cache id (queue s)) ->
  read_cache id dev1 off f s = read_cache id dev2 off f s /\
  modify_cache id dev1 off g s = modify_cache id dev2 off g s.
Proof.
  intros [c Hc]. assert (Hg : get_block_cache id dev1 s = get_block_cache id dev2 s).
  { unfold get_block_cache, bind, gets. by rewrite Hc. }
  unfold read_cache, modify_cache, bind. by rewrite Hg.
Qed.

(** Two images of one block, the second with the byte 9 in front. *)
Definition two_images : FsState Fuse.BlockFile :=
  mk_fs [Fuse.mk_file (replicate 512 0); Fuse.mk_file (9 :: replicate 511 0)] [].
Definition first_byte (dev : nat) : M (FsState Fuse.BlockFile) Z :=
  read_cache 0 dev 0 (fun b : array 1 1 => ret (nth 0 (elems b) 0)).

(** The state after a read of the first image. *)
Definition first_cached : FsState Fuse.BlockFile :=
  match first_byte 0 two_images with
  | Ok (_, s) => s
  | Panic _ => two_images
  end.

Lemma cache_ignores_device_witness :
  wp (first_byte 1) (fun v _ => v = 9) two_images /\ wp (first_byte 1) (fun v _ => v = 0) first_cached.
Proof.
  split; [vm_compute; reflexivity|].
  assert (Hc : is_Some (find_cache 0 (queue first_cached))) by (vm_compute; eexists; reflexivity).
  unfold wp, first_byte.
  rewrite (proj1 (cache_ignores_device 0 1 0 0 (fun b : array 1 1 => ret (nth 0 (elems b) 0))
    (fun b => ret (tt, b)) first_cached Hc)). vm_compute. reflexivity.
Defined.
