(* ===== verification/Bitmap.v ===== *)
(** * Bitmaps on the disk (easy-fs/src/bitmap.rs)

    A bitmap is a run of blocks of 64 words of 64 bits; bit [i] of the bitmap is bit
    [i mod 64] of word [i / 64].  [alloc] finds and sets the first clear bit, [dealloc]
    clears a bit that must be set. *)

From S2P Require Import Prelude Codec BlockCache BlockCacheSpec BlockFile DiskSpec.

Definition BitmapBlock : Type := array 8 64.
Definition BLOCK_BITS : Z := BLOCK_SZ * 8.
Definition u64_MAX : Z := 2 ^ 64 - 1.

Record Bitmap : Type := Bitmap_new { start_block_id : Z; blocks : Z }.

(** [(block_pos, bits64_pos, inner_pos)] of a bit. *)
Definition decomposition (bit : Z) : Z * Z * Z :=
  let block_pos := bit / BLOCK_BITS in
  let bit := bit mod BLOCK_BITS in
  (block_pos, bit / 64, bit mod 64).

(** [u64::trailing_ones] *)
Fixpoint trailing_ones_loop (width : nat) (x : Z) : Z :=
  match width with
  | O => 0
  | S width' => if Z.odd x then 1 + trailing_ones_loop width' (x / 2) else 0
  end.
Definition trailing_ones (x : Z) : Z := trailing_ones_loop 64 x.

(** [.iter().enumerate().find(|(_, bits64)| **bits64 != u64::MAX)] *)
Fixpoint find_not_full (ws : list Z) (pos : nat) : option (nat * Z) :=
  match ws with
  | [] => None
  | w :: ws' => if w =? u64_MAX then find_not_full ws' (S pos) else Some (pos, w)
  end.

(** The closure of [alloc] on one block. *)
Definition alloc_in_block (block_id : Z) (b : BitmapBlock) : option Z * BitmapBlock :=
  match find_not_full (elems b) 0 with
  | Some (bits64_pos, bits64) =>
      let inner_pos := trailing_ones bits64 in
      (Some (block_id *% BLOCK_BITS +% Z.of_nat bits64_pos *% 64 +% inner_pos),
       Array (<[bits64_pos := Z.lor bits64 (1 <<% inner_pos)]> (elems b)))
  | None => (None, b)
  end.

(** The closure of [dealloc]; [bits64_pos] is an index below 64. *)
Definition dealloc_in_block (bits64_pos inner_pos : Z) (b : BitmapBlock) : outcome (unit * BitmapBlock) :=
  match elems b !! Z.to_nat bits64_pos with
  | None => Panic OutOfRange
  | Some w =>
      if 0 <? Z.land w (1 <<% inner_pos) then
        Ok (tt, Array (<[Z.to_nat bits64_pos := w -% (1 <<% inner_pos)]> (elems b)))
      else Panic AssertFailed
  end.

Section Bitmap.
Context {D : Type} `{BlockDevice D}.

Fixpoint alloc_loop (bm : Bitmap) (dev : nat) (ids : list Z) : M (FsState D) (option Z) :=
  match ids with
  | [] => ret None
  | block_id :: ids' =>
      let* pos := modify_cache (block_id +% start_block_id bm) dev 0
                    (fun b => ret (alloc_in_block block_id b)) in
      if is_some pos then ret pos else alloc_loop bm dev ids'
  end.
Definition Bitmap_alloc (bm : Bitmap) (dev : nat) : M (FsState D) (option Z) :=
  alloc_loop bm dev (seqZ 0 (blocks bm)).

Definition Bitmap_dealloc (bm : Bitmap) (dev : nat) (bit : Z) : M (FsState D) unit :=
  let '(block_pos, bits64_pos, inner_pos) := decomposition bit in
  modify_cache (block_pos +% start_block_id bm) dev 0
    (fun b => lift (dealloc_in_block bits64_pos inner_pos b)).

End Bitmap.

Definition Bitmap_maximum (bm : Bitmap) : Z := blocks bm *% BLOCK_BITS.

(** ** The bits of a word, of a block and of the bitmap *)

Lemma trailing_ones_loop_spec n x :
  0 <= x < 2 ^ Z.of_nat n -> x <> 2 ^ Z.of_nat n - 1 ->
  let t := trailing_ones_loop n x in
  0 <= t < Z.of_nat n /\ Z.testbit x t = false /\ forall i, 0 <= i < t -> Z.testbit x i = true.
Proof.
  revert x. induction n as [|n IH]; intros x Hx Hne; cbn zeta; [change (2 ^ Z.of_nat 0) with 1 in *; lia|].
  cbn [trailing_ones_loop]. rewrite Nat2Z.inj_succ in *. rewrite Z.pow_succ_r in * by lia.
  destruct (Z.odd x) eqn:Ho; [|split_and!; [lia|lia|by rewrite Z.bit0_odd|lia]].
  assert (Hx2 : x = 2 * (x / 2) + 1) by (rewrite (Z.div2_odd x) at 1; rewrite Ho, Z.div2_div; done).
  destruct (IH (x / 2)) as (Ht & Hf & Hall); [zdm|lia|].
  split_and!; [lia..| |].
  - rewrite Z.add_1_l, Hx2 at 1. by rewrite Z.testbit_odd_succ by lia.
  - intros i Hi. destruct (decide (i = 0)) as [->|Hi0]; [by rewrite Z.bit0_odd|].
    rewrite Hx2. replace i with (Z.succ (i - 1)) by lia. rewrite Z.testbit_odd_succ by lia. apply Hall. lia.
Qed.

Lemma find_not_full_spec ws p i w :
  find_not_full ws p = Some (i, w) ->
  (p <= i)%nat /\ ws !! (i - p)%nat = Some w /\ w <> u64_MAX /\
  forall j, (p <= j < i)%nat -> ws !! (j - p)%nat = Some u64_MAX.
Proof.
  revert p. induction ws as [|v ws IH]; intros p; cbn [find_not_full]; [done|].
  destruct (Z.eqb_spec v u64_MAX) as [->|Hne].
  - intros Hf. destruct (IH (S p) Hf) as (Hle & Hl & Hw & Hall). split_and!; [lia| |done|].
    + replace (i - p)%nat with (S (i - S p))%nat by lia. done.
    + intros j Hj. destruct (decide (j = p)) as [->|]; [by rewrite Nat.sub_diag|].
      replace (j - p)%nat with (S (j - S p))%nat by lia. apply Hall. lia.
  - intros [= <- <-]. rewrite Nat.sub_diag. split_and!; [lia|done|done|lia].
Qed.

Lemma find_not_full_None ws p : find_not_full ws p = None -> Forall (fun w => w = u64_MAX) ws.
Proof.
  revert p. induction ws as [|v ws IH]; intros p; cbn [find_not_full]; [constructor|].
  destruct (Z.eqb_spec v u64_MAX); [|done]. intros Hf. constructor; [done|by eapply IH].
Qed.

(** Bit [i] of a block of words. *)
Definition block_bit (ws : list Z) (i : Z) : bool :=
  match ws !! Z.to_nat (i / 64) with
  | Some w => Z.testbit w (i mod 64)
  | None => false
  end.

Definition words_ok (ws : list Z) : Prop := length ws = 64%nat /\ Forall (fun x => 0 <= x < 2 ^ 64) ws.

Lemma u64_MAX_bits i : 0 <= i < 64 -> Z.testbit u64_MAX i = true.
Proof. intros Hi. change u64_MAX with (Z.ones 64). by apply Z.ones_spec_low. Qed.

(** Replacing one word. *)
Lemma block_bit_insert ws p w j :
  (p < length ws)%nat -> 0 <= j ->
  block_bit (<[p := w]> ws) j = if j / 64 =? Z.of_nat p then Z.testbit w (j mod 64) else block_bit ws j.
Proof.
  intros Hp Hj. unfold block_bit. destruct (Z.eqb_spec (j / 64) (Z.of_nat p)) as [->|Hne].
  - by rewrite Nat2Z.id, list_lookup_insert_eq.
  - rewrite list_lookup_insert_ne; [done|]. pose proof (Z.div_pos j 64 Hj). lia.
Qed.

Lemma shift_bit i : 0 <= i < 64 -> 1 <<% i = 2 ^ i.
Proof.
  intros Hi. rewrite Z.shiftl_1_l, wrap64_small; [done|]. split; [lia|]. apply Z.pow_lt_mono_r; lia.
Qed.

Lemma lor_bit_range w i : 0 <= w < 2 ^ 64 -> 0 <= i < 64 -> 0 <= Z.lor w (2 ^ i) < 2 ^ 64.
Proof.
  intros Hw Hi. assert (Hr : Z.lor w (2 ^ i) = Z.lor w (2 ^ i) mod 2 ^ 64).
  { apply Z.bits_inj'. intros n Hn. destruct (decide (n < 64)).
    - by rewrite Z.mod_pow2_bits_low.
    - rewrite Z.mod_pow2_bits_high by lia. rewrite Z.lor_spec, Z.pow2_bits_false by lia.
      rewrite <-(Z.mod_small w (2 ^ 64)), Z.mod_pow2_bits_high by lia. done. }
  rewrite Hr. by apply Z.mod_pos_bound.
Qed.

(** What the closure of [alloc] does to the bits of a block. *)
Lemma alloc_in_block_Some id ws p ws' :
  words_ok ws -> 0 <= id < 2 ^ 32 -> alloc_in_block id (Array ws) = (Some p, Array ws') ->
  exists i, 0 <= i < 4096 /\ p = id * 4096 + i /\ words_ok ws' /\ block_bit ws i = false /\
    (forall j, 0 <= j < i -> block_bit ws j = true) /\
    (forall j, 0 <= j < 4096 -> block_bit ws' j = block_bit ws j || (j =? i)).
Proof.
  intros [Hlen Hr] Hid. unfold alloc_in_block. cbn [elems].
  destruct (find_not_full ws 0) as [[q w]|] eqn:Hf; [|done]. intros [= <- <-].
  destruct (find_not_full_spec _ _ _ _ Hf) as (_ & Hq & Hw & Hfull). rewrite Nat.sub_0_r in Hq.
  pose proof (lookup_lt_Some _ _ _ Hq) as Hlt. pose proof (Forall_lookup_1 _ _ _ _ Hr Hq) as Hwr.
  destruct (trailing_ones_loop_spec 64 w Hwr Hw) as (Ht & Hclear & Hset).
  fold (trailing_ones w) in *. set (t := trailing_ones w) in *. clearbody t.
  rewrite shift_bit by lia. unfold BLOCK_BITS, BLOCK_SZ.
  exists (Z.of_nat q * 64 + t). rewrite (wrap64_small (id * _)), (wrap64_small (Z.of_nat q * 64)), (wrap64_small (id * _ + _)), wrap64_small by lia.
  assert (Hdiv : (Z.of_nat q * 64 + t) / 64 = Z.of_nat q) by zdm.
  assert (Hmod : (Z.of_nat q * 64 + t) mod 64 = t) by zdm.
  split_and!; [lia..|lia| | | |].
  - split; [by rewrite length_insert|]. apply Forall_insert; [done|]. by apply lor_bit_range.
  - unfold block_bit. by rewrite Hdiv, Hmod, Nat2Z.id, Hq.
  - intros j Hj. unfold block_bit. destruct (decide (j / 64 = Z.of_nat q)) as [He|Hne].
    + rewrite He, Nat2Z.id, Hq. apply Hset. zdm.
    + assert (0 <= j / 64 < Z.of_nat q) by zdm. specialize (Hfull (Z.to_nat (j / 64))).
      rewrite Nat.sub_0_r in Hfull. rewrite Hfull by lia.
      apply u64_MAX_bits. zdm.
  - intros j Hj. rewrite block_bit_insert by lia. destruct (Z.eqb_spec (j / 64) (Z.of_nat q)) as [He|Hne].
    + unfold block_bit. rewrite He, Nat2Z.id, Hq, Z.lor_spec. f_equal.
      rewrite Z.pow2_bits_eqb by lia. apply Bool.eq_iff_eq_true. rewrite !Z.eqb_eq. zdm.
    + destruct (Z.eqb_spec j (Z.of_nat q * 64 + t)); [zdm|]. by rewrite orb_false_r.
Qed.

Lemma alloc_in_block_None id ws b' :
  words_ok ws -> alloc_in_block id (Array ws) = (None, b') ->
  b' = Array ws /\ forall j, 0 <= j < 4096 -> block_bit ws j = true.
Proof.
  intros [Hlen Hr]. unfold alloc_in_block. cbn [elems].
  destruct (find_not_full ws 0) as [[q w]|] eqn:Hf; [done|]. intros [= <-]. split; [done|]. intros j Hj.
  unfold block_bit. destruct (lookup_lt_is_Some_2 ws (Z.to_nat (j / 64))) as [w Hw]; [zdm|]. rewrite Hw.
  apply find_not_full_None in Hf. rewrite (Forall_lookup_1 _ _ _ _ Hf Hw). apply u64_MAX_bits. zdm.
Qed.

(** What the closure of [dealloc] does to the bits of a block. *)
Lemma dealloc_in_block_Ok ws i :
  words_ok ws -> 0 <= i < 4096 -> block_bit ws i = true ->
  exists ws', dealloc_in_block (i / 64) (i mod 64) (Array ws) = Ok (tt, Array ws') /\ words_ok ws' /\
    forall j, 0 <= j < 4096 -> block_bit ws' j = block_bit ws j && negb (j =? i).
Proof.
  intros [Hlen Hr] Hi Hbit. unfold block_bit in Hbit. unfold dealloc_in_block. cbn [elems].
  destruct (ws !! Z.to_nat (i / 64)) as [w|] eqn:Hw; [|done].
  pose proof (Forall_lookup_1 _ _ _ _ Hr Hw) as Hwr. cbn beta in Hwr. assert (Hm : 0 <= i mod 64 < 64) by zdm.
  rewrite shift_bit by done. assert (Hland : Z.land w (2 ^ (i mod 64)) = 2 ^ (i mod 64)).
  { apply Z.bits_inj'. intros n Hn. rewrite Z.land_spec, Z.pow2_bits_eqb by lia.
    destruct (Z.eqb_spec (i mod 64) n) as [<-|]; [by rewrite Hbit|by rewrite andb_false_r]. }
  rewrite Hland, (proj2 (Z.ltb_lt _ _)) by (apply Z.pow_pos_nonneg; lia).
  assert (Hsub : w - 2 ^ (i mod 64) = Z.ldiff w (2 ^ (i mod 64))).
  { apply Z.sub_nocarry_ldiff. rewrite Z.ldiff_land. apply Z.bits_inj'. intros n Hn.
    rewrite Z.land_spec, Z.lnot_spec, Z.pow2_bits_eqb, Z.bits_0 by lia.
    destruct (Z.eqb_spec (i mod 64) n) as [<-|]; [by rewrite Hbit|done]. }
  assert (Hle : 0 <= w - 2 ^ (i mod 64) < 2 ^ 64).
  { split; [rewrite Hsub; apply Z.ldiff_nonneg; lia|]. pose proof (Z.pow_pos_nonneg 2 (i mod 64)). lia. }
  rewrite wrap64_small by done. eexists. split; [done|]. split.
  - split; [by rewrite length_insert|]. by apply Forall_insert.
  - intros j Hj. rewrite block_bit_insert by (try zdm; lia).
    destruct (Z.eqb_spec (j / 64) (Z.of_nat (Z.to_nat (i / 64)))) as [He|Hne].
    + unfold block_bit. rewrite He, Nat2Z.id, Hw, Hsub, Z.ldiff_spec, Z.pow2_bits_eqb by lia. f_equal. f_equal.
      apply Bool.eq_iff_eq_true. rewrite !Z.eqb_eq. zdm.
    + destruct (Z.eqb_spec j i); [zdm|]. by rewrite andb_true_r.
Qed.

Lemma dealloc_in_block_clear ws i :
  words_ok ws -> 0 <= i < 4096 -> block_bit ws i = false ->
  dealloc_in_block (i / 64) (i mod 64) (Array ws) = Panic AssertFailed.
Proof.
  intros [Hlen Hr] Hi Hbit. unfold block_bit in Hbit. unfold dealloc_in_block. cbn [elems].
  destruct (lookup_lt_is_Some_2 ws (Z.to_nat (i / 64))) as [w Hw]; [zdm|]. rewrite Hw in *.
  rewrite shift_bit by zdm. replace (Z.land w (2 ^ (i mod 64))) with 0; [done|].
  symmetry. apply Z.bits_inj'. intros n Hn. rewrite Z.land_spec, Z.pow2_bits_eqb, Z.bits_0 by zdm.
  destruct (Z.eqb_spec (i mod 64) n) as [<-|]; [by rewrite Hbit|by rewrite andb_false_r].
Qed.

(** * What the bitmaps promise

    The bits of a bitmap are read off the disk that the block cache stands for.  [alloc]
    sets the first clear bit and says which one it was, or reports that every bit is set;
    [dealloc] clears exactly the given bit.  No other block changes. *)

(** The bit [i] on the disk [k]. *)
Definition bitmap_bit (bm : Bitmap) (k : disk) (i : Z) : bool :=
  block_bit (words_dec 8 64 (k (start_block_id bm + i / 4096))) (i mod 4096).

Definition bitmap_block (bm : Bitmap) (id : Z) : Prop :=
  start_block_id bm <= id < start_block_id bm + blocks bm.

(** The disk after bit [i] got the value [b]. *)
Record bit_changed (bm : Bitmap) (has : Z -> Prop) (i : Z) (b : bool) (k k' : disk) : Prop := {
  bc_bits j : 0 <= j < blocks bm * 4096 -> bitmap_bit bm k' j = if j =? i then b else bitmap_bit bm k j;
  bc_frame id : has id -> ~ bitmap_block bm id -> k' id = k id
}.

(** The bitmap lies on the device, and none of its blocks is in use. *)
Record bitmap_ok (bm : Bitmap) (has : Z -> Prop) (h : gmap Z hold) : Prop := {
  bm_range : 0 <= start_block_id bm /\ 0 <= blocks bm /\ start_block_id bm + blocks bm <= 2 ^ 32;
  bm_has id : bitmap_block bm id -> has id /\ h !! id = None
}.

Lemma bit_pos b i j : 0 <= i < 4096 -> (j =? b * 4096 + i) = ((j / 4096 =? b) && (j mod 4096 =? i)).
Proof. intros Hi. apply Bool.eq_iff_eq_true. rewrite andb_true_iff, !Z.eqb_eq. zdm. Qed.

(** The bits of one block of the bitmap. *)
Lemma bitmap_bit_at bm (k : disk) b i :
  0 <= i < 4096 -> bitmap_bit bm k (b * 4096 + i) = block_bit (words_dec 8 64 (k (b + start_block_id bm))) i.
Proof.
  intros Hi. unfold bitmap_bit. replace ((b * 4096 + i) / 4096) with b by zdm.
  replace ((b * 4096 + i) mod 4096) with i by zdm. by rewrite Z.add_comm.
Qed.

Lemma bitmap_bit_same bm (k k' : disk) j :
  (forall id, bitmap_block bm id -> k' id = k id) -> 0 <= j < blocks bm * 4096 ->
  bitmap_bit bm k' j = bitmap_bit bm k j.
Proof. intros Hs Hj. unfold bitmap_bit. rewrite Hs; [done|]. unfold bitmap_block. zdm. Qed.

Section Spec.
Context {D : Type} `{BlockDeviceSpec D} (has : Z -> Prop).
Implicit Types s : FsState D.

Lemma view_words s h id : cache_ok has s h -> has id -> words_ok (words_dec 8 64 (view s id)).
Proof.
  intros Hok Hid. destruct (view_ok has s h id Hok Hid) as [Hl Hu]. split; [apply length_words_dec|].
  change (2 ^ 64) with (256 ^ Z.of_nat 8). apply words_dec_range; [done|]. rewrite Hl. by unfold BLOCK_SZ.
Qed.

Lemma words_ok_valid ws : words_ok ws -> valid_value (Array ws : BitmapBlock).
Proof. done. Qed.

(** Changing bit [i] of block [b] of the bitmap, and no other block. *)
Lemma bit_changed_block bm (k k' : disk) b i ws (v : bool) :
  (forall id, bitmap_block bm id -> has id) -> 0 <= b < blocks bm -> 0 <= i < 4096 ->
  words_ok ws -> k' (b + start_block_id bm) = words_enc 8 ws ->
  (forall id, has id -> id <> b + start_block_id bm -> k' id = k id) ->
  (forall j, 0 <= j < 4096 -> block_bit ws j =
     if j =? i then v else block_bit (words_dec 8 64 (k (b + start_block_id bm))) j) ->
  bit_changed bm has (b * 4096 + i) v k k'.
Proof.
  intros Hhas Hb Hi [Hlen Hr] Henc Hother Hbits. split.
  - intros j Hj. rewrite bit_pos by done. unfold bitmap_bit. rewrite (Z.add_comm (start_block_id bm)).
    destruct (Z.eqb_spec (j / 4096) b) as [->|Hne]; cbn [andb].
    + rewrite Henc, words_dec_enc_all by done. apply Hbits. zdm.
    + rewrite Hother; [done| |lia]. apply Hhas. unfold bitmap_block. zdm.
  - intros id Hid Hnb. apply Hother; [done|]. intros ->. apply Hnb. unfold bitmap_block. lia.
Qed.

(** The loop of [alloc] from block [b], all blocks before it being full. *)
Lemma wp_alloc_loop bm n : forall b s h Q,
  cache_ok has s h -> bitmap_ok bm has h -> (size h < BLOCK_CACHE_SIZE)%nat ->
  0 <= b -> b + Z.of_nat n = blocks bm ->
  (forall j, 0 <= j < b * 4096 -> bitmap_bit bm (view s) j = true) ->
  (forall i s', 0 <= i < blocks bm * 4096 -> cache_ok has s' h -> bitmap_bit bm (view s) i = false ->
     (forall j, 0 <= j < i -> bitmap_bit bm (view s) j = true) ->
     bit_changed bm has i true (view s) (view s') -> Q (Some i) s') ->
  (forall s', cache_ok has s' h -> (forall j, 0 <= j < blocks bm * 4096 -> bitmap_bit bm (view s) j = true) ->
     (forall id, has id -> view s' id = view s id) -> Q None s') ->
  wp (alloc_loop bm 0 (seqZ b (Z.of_nat n))) Q s.
Proof.
  induction n as [|n IH]; intros b s h Q Hok Hbm Hsize Hb Hn Hfull HSome HNone.
  { cbn. apply wp_ret. apply HNone; [done| |done]. intros j Hj. apply Hfull. lia. }
  rewrite seqZ_cons by lia. cbn [alloc_loop]. wp_step. destruct (bm_range _ _ _ Hbm) as (Hs0 & Hb0 & Hmax).
  rewrite wrap64_small by lia. set (id := b + start_block_id bm).
  destruct (bm_has _ _ _ Hbm id) as [Hid Hfree]; [unfold bitmap_block; lia|].
  pose proof (view_words s h id Hok Hid) as Hw.
  apply (wp_modify_block has s h); [done..|]. intros s1 Hok1 Hv1. apply wp_ret. cbn [from_bytes array_layout].
  destruct (alloc_in_block b (Array (words_dec 8 64 (view s id)))) as [[p|] [ws']] eqn:Ha; cbn [fst snd].
  - apply alloc_in_block_Some in Ha as (i & Hi & -> & Hws' & Hclear & Hbelow & Hbits); [|done|lia].
    split_and!; [done|by apply words_ok_valid|]. intros s3 Hok3 Hv3. cbn [is_some]. apply wp_ret.
    apply HSome; [lia|done|by rewrite bitmap_bit_at| |].
    + intros j Hj. destruct (decide (j < b * 4096)); [by apply Hfull; lia|].
      replace j with (b * 4096 + (j - b * 4096)) by lia. rewrite bitmap_bit_at by lia. apply Hbelow. lia.
    + eapply (bit_changed_block bm _ _ b i ws'); [by intros ? []%Hbm|lia|done|done| | |].
      * fold id. by rewrite Hv3, decide_True.
      * intros id' Hh' Hne. by rewrite Hv3, decide_False, Hv1.
      * intros j Hj. rewrite Hbits by done. fold id. destruct (j =? i); [apply orb_true_r|apply orb_false_r].
  - apply alloc_in_block_None in Ha as [Ha Hall]; [|done]. apply (f_equal elems) in Ha. cbn [elems] in Ha. subst ws'.
    split_and!; [done|by apply words_ok_valid|].
    intros s3 Hok3 Hv3. cbn [is_some].
    assert (Hsame : forall id', has id' -> view s3 id' = view s id').
    { intros id' Hh'. rewrite Hv3 by done. case_decide as He; [|by rewrite Hv1]. subst id'. cbn [fst snd to_bytes array_layout elems].
      destruct (view_ok has s h id Hok Hid) as [Hl Hu]. by apply words_enc_dec. }
    assert (Hbit : forall j, 0 <= j < blocks bm * 4096 -> bitmap_bit bm (view s3) j = bitmap_bit bm (view s) j).
    { intros j Hj. apply bitmap_bit_same; [|done]. intros id' []%Hbm. by apply Hsame. }
    replace (Z.pred (Z.of_nat (S n))) with (Z.of_nat n) by lia.
    apply (IH (Z.succ b) s3 h); [done..|lia|lia| | |].
    + intros j Hj. rewrite Hbit by lia. destruct (decide (j < b * 4096)); [by apply Hfull; lia|].
      replace j with (b * 4096 + (j - b * 4096)) by lia. rewrite bitmap_bit_at by lia. apply Hall. lia.
    + intros i s' Hi Hok' Hcl Hbel [Hbc Hfr]. apply HSome; [done|done|by rewrite <-Hbit| |split].
      * intros j Hj. rewrite <-Hbit by lia. by apply Hbel.
      * intros j Hj. rewrite Hbc by done. by rewrite Hbit.
      * intros id' Hh' Hnb. by rewrite Hfr, Hsame.
    + intros s' Hok' Hfull' Hs'. apply HNone; [done| |].
      * intros j Hj. rewrite <-Hbit by done. by apply Hfull'.
      * intros id' Hh'. by rewrite Hs', Hsame.
Qed.

Lemma wp_Bitmap_alloc bm s h Q :
  cache_ok has s h -> bitmap_ok bm has h -> (size h < BLOCK_CACHE_SIZE)%nat ->
  (forall i s', 0 <= i < blocks bm * 4096 -> cache_ok has s' h -> bitmap_bit bm (view s) i = false ->
     (forall j, 0 <= j < i -> bitmap_bit bm (view s) j = true) ->
     bit_changed bm has i true (view s) (view s') -> Q (Some i) s') ->
  (forall s', cache_ok has s' h -> (forall j, 0 <= j < blocks bm * 4096 -> bitmap_bit bm (view s) j = true) ->
     (forall id, has id -> view s' id = view s id) -> Q None s') ->
  wp (Bitmap_alloc bm 0) Q s.
Proof.
  intros Hok Hbm Hsize HSome HNone. unfold Bitmap_alloc. destruct (bm_range _ _ _ Hbm) as (_ & Hb & _).
  rewrite <-(Z2Nat.id (blocks bm)) by done. eapply wp_alloc_loop; [done..|lia|lia| |done|done]. intros j Hj. lia.
Qed.

Lemma wp_Bitmap_dealloc bm s h i Q :
  cache_ok has s h -> bitmap_ok bm has h -> (size h < BLOCK_CACHE_SIZE)%nat ->
  0 <= i < blocks bm * 4096 -> bitmap_bit bm (view s) i = true ->
  (forall s', cache_ok has s' h -> bit_changed bm has i false (view s) (view s') -> Q tt s') ->
  wp (Bitmap_dealloc bm 0 i) Q s.
Proof.
  intros Hok Hbm Hsize Hi Hbit HQ. unfold Bitmap_dealloc, decomposition, BLOCK_BITS, BLOCK_SZ.
  change (512 * 8) with 4096. destruct (bm_range _ _ _ Hbm) as (Hs0 & Hb0 & Hmax).
  set (b := i / 4096). set (r := i mod 4096). assert (Hib : i = b * 4096 + r /\ 0 <= r < 4096) by (subst b r; zdm).
  clearbody b r. destruct Hib as [-> Hr]. rewrite wrap64_small by lia. rewrite bitmap_bit_at in Hbit by done.
  destruct (bm_has _ _ _ Hbm (b + start_block_id bm)) as [Hid Hfree]; [unfold bitmap_block; lia|].
  pose proof (view_words s h _ Hok Hid) as Hw.
  apply (wp_modify_block has s h); [done..|]. intros s1 Hok1 Hv1. cbn [from_bytes array_layout].
  destruct (dealloc_in_block_Ok _ r Hw Hr Hbit) as (ws' & Hd & Hw' & Hbits).
  eapply wp_lift; [exact Hd|]. cbn [fst snd]. split_and!; [done|by apply words_ok_valid|].
  intros s3 Hok3 Hv3. apply HQ; [done|].
  eapply (bit_changed_block bm _ _ b r ws'); [by intros ? []%Hbm|lia|done|done| | |].
  - by rewrite Hv3, decide_True.
  - intros id' Hh' Hne. by rewrite Hv3, decide_False, Hv1.
  - intros j Hj. rewrite Hbits by done. destruct (j =? r); [apply andb_false_r|apply andb_true_r].
Qed.

(** [Bitmap::alloc] returns the first clear bit and sets it, changing no other bit
    and no block outside the bitmap; it returns [None] exactly when every bit is set,
    and then changes nothing.  It neither panics nor deadlocks when the bitmap's blocks
    are not in use and the cache has an entry to spare. *)
Theorem bitmap_alloc_correct bm s h :
  cache_ok has s h -> bitmap_ok bm has h -> (size h < BLOCK_CACHE_SIZE)%nat ->
  wp (Bitmap_alloc bm 0) (fun r s' => cache_ok has s' h /\
    match r with
    | Some i => 0 <= i < blocks bm * 4096 /\ bitmap_bit bm (view s) i = false /\
        (forall j, 0 <= j < i -> bitmap_bit bm (view s) j = true) /\
        bit_changed bm has i true (view s) (view s')
    | None => (forall j, 0 <= j < blocks bm * 4096 -> bitmap_bit bm (view s) j = true) /\
        forall id, has id -> view s' id = view s id
    end) s.
Proof. intros Hok Hbm Hsize. by eapply wp_Bitmap_alloc. Qed.

(** [Bitmap::dealloc] of a bit that is set clears that bit and changes nothing else,
    so that [alloc] straight after it returns that bit or a smaller one. *)
Theorem bitmap_dealloc_correct bm s h i :
  cache_ok has s h -> bitmap_ok bm has h -> (size h < BLOCK_CACHE_SIZE)%nat ->
  0 <= i < blocks bm * 4096 -> bitmap_bit bm (view s) i = true ->
  wp (Bitmap_dealloc bm 0 i ;; Bitmap_alloc bm 0) (fun r s' => cache_ok has s' h /\
    exists i' s1, r = Some i' /\ 0 <= i' <= i /\ cache_ok has s1 h /\
      bit_changed bm has i false (view s) (view s1) /\ bit_changed bm has i' true (view s1) (view s')) s.
Proof.
  intros Hok Hbm Hsize Hi Hbit. wp_step. eapply wp_Bitmap_dealloc; [done..|]. intros s1 Hok1 Hbc1.
  assert (Hclear : bitmap_bit bm (view s1) i = false) by (by rewrite (bc_bits _ _ _ _ _ _ Hbc1), Z.eqb_refl).
  eapply wp_Bitmap_alloc; [done..| |].
  - intros i' s2 Hi' Hok2 Hcl' Hbelow Hbc2. split; [done|]. exists i', s1. split_and!; try done; [lia|].
    destruct (decide (i < i')) as [Hlt|]; [|lia]. rewrite Hbelow in Hclear by lia. done.
  - intros s2 _ Hall _. by rewrite Hall in Hclear.
Qed.

End Spec.

(** ** A bitmap of one block in the image of twenty blocks *)

Definition demo_bitmap : Bitmap := Bitmap_new 1 1.

Lemma demo_bitmap_ok : bitmap_ok demo_bitmap demo_has ∅.
Proof.
  split; cbn; [lia|]. unfold bitmap_block, demo_has. cbn. intros id Hid. split; [lia|apply lookup_empty].
Qed.

Lemma bitmap_alloc_correct_witness :
  wp (Bitmap_alloc demo_bitmap 0) (fun r s' => r = Some 0 /\ bitmap_bit demo_bitmap (view s') 0 = true) demo_image.
Proof.
  eapply wp_mono; [|exact (bitmap_alloc_correct demo_has demo_bitmap demo_image ∅
    (proj1 demo_image_stands_for) demo_bitmap_ok no_holds)].
  assert (H0 : bitmap_bit demo_bitmap (view demo_image) 0 = false) by (vm_compute; reflexivity).
  intros [i|] s' [_ Hr].
  - destruct Hr as (Hi & _ & Hbelow & Hbc). destruct (decide (i = 0)) as [->|Hne].
    + split; [done|]. rewrite (bc_bits _ _ _ _ _ _ Hbc); [done|]. cbn. lia.
    + rewrite Hbelow in H0 by lia. done.
  - destruct Hr as [Hall _]. rewrite Hall in H0; [done|]. cbn. lia.
Defined.

(** The image in which the first bit is set. *)
Definition demo_image_bit : FsState Fuse.BlockFile :=
  mk_fs [Fuse.mk_file (replicate 512 0 ++ [1] ++ replicate (Z.to_nat 9727) 0)] [].

Lemma demo_image_bit_ok : cache_ok demo_has demo_image_bit ∅.
Proof.
  split.
  - eexists. split; [done|]. intros id Hid. unfold demo_has in Hid. split; [lia|]. cbn [Fuse.file].
    rewrite !length_app, !length_replicate. cbn [length]. split; [lia|].
    apply Forall_app_2; [by apply Forall_replicate|]. constructor; [done|by apply Forall_replicate].
  - cbn. lia.
  - apply NoDup_nil_2.
  - done.
  - intros id [? Hx]. by rewrite lookup_empty in Hx.
Qed.

Lemma bitmap_dealloc_correct_witness :
  wp (Bitmap_dealloc demo_bitmap 0 0 ;; Bitmap_alloc demo_bitmap 0) (fun r s' => r = Some 0) demo_image_bit.
Proof.
  eapply wp_mono; [|refine (bitmap_dealloc_correct demo_has demo_bitmap demo_image_bit ∅ 0
    demo_image_bit_ok demo_bitmap_ok no_holds _ _)].
  - intros r s' (_ & i' & s1 & -> & Hi & _). f_equal. lia.
  - cbn. lia.
  - vm_compute. reflexivity.
Defined.
