(* ===== verification/DiskLayout.v ===== *)
(** * On-disk structures (easy-fs/src/layout.rs)

    The super block, the inode with its direct and indirect blocks, and the directory
    entry.  Block numbers and sizes are [u32] and wrap; the [usize] arithmetic on values
    that come from them stays far below 2^64 and is written without wrap-around.

    [type_] is the byte of the enumeration and [padding] the three bytes after it, so
    that every inode of 128 bytes is a value of [DiskInode]. *)

From S2P Require Import Prelude Utf8 Codec BlockCache.

Abbreviation EFS_MAGIC := (0x3b800001) (only parsing).
Definition INODE_DIRECT_COUNT : Z := 28.
Abbreviation NAME_LENGTH_LIMIT := (27) (only parsing).
Definition INODE_INDIRECT1_COUNT : Z := BLOCK_SZ / 4.
Abbreviation INODE_INDIRECT2_COUNT := (INODE_INDIRECT1_COUNT * INODE_INDIRECT1_COUNT) (only parsing).
Abbreviation DIRECT_BOUND := (INODE_DIRECT_COUNT) (only parsing).
Definition INDIRECT1_BOUND : Z := DIRECT_BOUND + INODE_INDIRECT1_COUNT.

(** ** The super block *)

Record SuperBlock : Type := mk_super {
  magic : Z;
  sb_total_blocks : Z;
  inode_bitmap_blocks : Z;
  inode_area_blocks : Z;
  data_bitmap_blocks : Z;
  data_area_blocks : Z
}.

Definition SuperBlock_initialize (total inode_bitmap inode_area data_bitmap data_area : Z) : SuperBlock :=
  mk_super EFS_MAGIC total inode_bitmap inode_area data_bitmap data_area.
Definition SuperBlock_is_valid (b : SuperBlock) : bool := magic b =? EFS_MAGIC.

Definition super_words (b : SuperBlock) : list Z :=
  [magic b; sb_total_blocks b; inode_bitmap_blocks b; inode_area_blocks b; data_bitmap_blocks b; data_area_blocks b].
Definition super_of_words (ws : list Z) : SuperBlock :=
  let w i := nth i ws 0 in mk_super (w 0%nat) (w 1%nat) (w 2%nat) (w 3%nat) (w 4%nat) (w 5%nat).

#[export] Instance SuperBlock_layout : Layout SuperBlock := {
  size_of := 24%nat;
  from_bytes bs := super_of_words (words_dec 4 6 bs);
  to_bytes b := words_enc 4 (super_words b);
  valid_value b := Forall is_u32 (super_words b)
}.

(** ** Inodes *)

Inductive DiskInodeType : Type := File | Directory.
Definition type_byte (t : DiskInodeType) : Z :=
  match t with
  | File => 0
  | Directory => 1
  end.

Definition IndirectBlock : Type := array 4 128.
Definition DataBlock : Type := array 1 512.

Record DiskInode : Type := mk_inode {
  di_size : Z;
  direct : list Z;
  indirect1 : Z;
  indirect2 : Z;
  type_ : Z;
  padding : list Z
}.

Definition inode_words (d : DiskInode) : list Z := di_size d :: direct d ++ [indirect1 d; indirect2 d].

#[export] Instance DiskInode_layout : Layout DiskInode := {
  size_of := 128%nat;
  from_bytes bs :=
    let ws := words_dec 4 31 bs in
    mk_inode (nth 0 ws 0) (take 28 (drop 1 ws)) (nth 29 ws 0) (nth 30 ws 0) (nth 124 bs 0) (drop 125 bs);
  to_bytes d := words_enc 4 (inode_words d) ++ type_ d :: padding d;
  valid_value d := length (direct d) = 28%nat /\ Forall is_u32 (inode_words d) /\
    is_u8 (type_ d) /\ length (padding d) = 3%nat /\ Forall is_u8 (padding d)
}.

#[export] Instance SuperBlock_layout_spec : LayoutSpec SuperBlock.
Proof.
  split; cbn [size_of from_bytes to_bytes valid_value SuperBlock_layout].
  - intros b _. by rewrite length_words_enc.
  - intros b _. apply words_enc_u8.
  - intros b Hb. rewrite words_dec_enc_all; [by destruct b|done|exact Hb].
  - intros bs Hb Hl. pose proof (length_words_dec 4 6 bs) as Hw.
    pose proof (words_dec_range 4 6 bs Hb ltac:(lia)) as Hr. revert Hw Hr.
    generalize (words_dec 4 6 bs). intros ws Hw Hr. by do 7 (destruct ws as [|? ws]; try done).
  - intros bs Hb Hl. rewrite <-(words_enc_dec 4 6 bs) at 2 by done. reflexivity.
Qed.

(** The words of an inode: the size, 28 direct blocks and two indirect ones. *)
Lemma inode_words_split (ws : list Z) :
  length ws = 31%nat -> nth 0 ws 0 :: take 28 (drop 1 ws) ++ [nth 29 ws 0; nth 30 ws 0] = ws.
Proof.
  intros Hl. destruct ws as [|w ws]; [done|]. cbn [nth drop]. f_equal. cbn in Hl.
  rewrite <-(take_drop 28 ws) at 4. f_equal.
  rewrite (drop_S ws (nth 28 ws 0)) by (apply lookup_nth; lia).
  rewrite (drop_S ws (nth 29 ws 0)) by (apply lookup_nth; lia). by rewrite drop_ge by lia.
Qed.

#[export] Instance DiskInode_layout_spec : LayoutSpec DiskInode.
Proof.
  split; cbn [size_of from_bytes to_bytes valid_value DiskInode_layout].
  - intros d (Hd & _ & _ & Hp & _). rewrite length_app, length_words_enc. unfold inode_words. cbn [length].
    rewrite length_app, Hd, Hp. done.
  - intros d (_ & _ & Ht & _ & Hp). apply Forall_app. split; [apply words_enc_u8|by constructor].
  - intros d (Hd & Hw & Ht & Hp & _).
    assert (Hlw : length (inode_words d) = 31%nat) by (unfold inode_words; cbn [length]; by rewrite length_app, Hd).
    assert (Hle : length (words_enc 4 (inode_words d)) = 124%nat) by (by rewrite length_words_enc, Hlw).
    rewrite words_dec_app, words_dec_enc_all by (done || lia). rewrite app_nth2 by lia. rewrite Hle.
    rewrite drop_app_ge by lia. rewrite Hle.
    change (drop 1 (inode_words d)) with (direct d ++ [indirect1 d; indirect2 d]).
    rewrite take_app_length' by done. destruct d as [sz dir i1 i2 t pad]. unfold inode_words. cbn in *.
    rewrite !app_nth2 by lia. by rewrite Hd.
  - intros bs Hb Hl. set (ws := words_dec 4 31 bs). assert (Hlw : length ws = 31%nat) by apply length_words_dec.
    assert (Hr : Forall is_u32 ws) by (apply (words_dec_range 4 31 bs); [done|lia]).
    unfold inode_words. cbn [direct di_size indirect1 indirect2 type_ padding]. rewrite inode_words_split by done.
    split_and!; [rewrite length_take, length_drop; lia|done| |by rewrite length_drop, Hl|by apply Forall_drop].
    apply Forall_nth; [done|lia].
  - intros bs Hb Hl. unfold inode_words. cbn [direct di_size indirect1 indirect2 type_ padding].
    rewrite inode_words_split by apply length_words_dec.
    rewrite <-(take_drop 124 bs) at 1. rewrite words_dec_app by (rewrite length_take; lia).
    rewrite words_enc_dec; [|by apply Forall_take|rewrite length_take; lia].
    rewrite <-(drop_S bs) by (apply lookup_nth; lia). by rewrite take_drop.
Qed.

Definition set_size (v : Z) (d : DiskInode) : DiskInode :=
  mk_inode v (direct d) (indirect1 d) (indirect2 d) (type_ d) (padding d).
Definition set_direct (v : list Z) (d : DiskInode) : DiskInode :=
  mk_inode (di_size d) v (indirect1 d) (indirect2 d) (type_ d) (padding d).
Definition set_indirect1 (v : Z) (d : DiskInode) : DiskInode :=
  mk_inode (di_size d) (direct d) v (indirect2 d) (type_ d) (padding d).
Definition set_indirect2 (v : Z) (d : DiskInode) : DiskInode :=
  mk_inode (di_size d) (direct d) (indirect1 d) v (type_ d) (padding d).

(** [DiskInode::initialize] *)
Definition DiskInode_initialize (t : DiskInodeType) (d : DiskInode) : DiskInode :=
  mk_inode 0 (map (fun _ => 0) (direct d)) 0 0 (type_byte t) (padding d).
Definition is_dir (d : DiskInode) : bool := type_ d =? type_byte Directory.
Definition is_file (d : DiskInode) : bool := type_ d =? type_byte File.

(** [_data_blocks], [data_blocks], [total_blocks] and [blocks_num_needed] *)
Definition data_blocks_of (size : Z) : Z := wrap32 (wrap32 (size + BLOCK_SZ) - 1) / BLOCK_SZ.
Definition data_blocks (d : DiskInode) : Z := data_blocks_of (di_size d).
Definition total_blocks (size : Z) : Z :=
  let data_blocks := data_blocks_of size in
  let total := data_blocks in
  let total := if INODE_DIRECT_COUNT <? data_blocks then total + 1 else total in
  let total :=
    if INDIRECT1_BOUND <? data_blocks then
      total + 1 + (data_blocks - INDIRECT1_BOUND + INODE_INDIRECT1_COUNT - 1) / INODE_INDIRECT1_COUNT
    else total in
  wrap32 total.
Definition blocks_num_needed (d : DiskInode) (new_size : Z) : outcome Z :=
  if di_size d <=? new_size then Ok (wrap32 (total_blocks new_size - total_blocks (di_size d)))
  else Panic AssertFailed.

(** [while cur < bound { arr[cur] = new_blocks.next().unwrap(); cur += 1 }] *)
Fixpoint fill_slots (fuel : nat) (arr : list Z) (cur bound : Z) (nb : list Z) : outcome (list Z * Z * list Z) :=
  if cur <? bound then
    match fuel with
    | O => Panic OutOfFuel
    | S fuel' =>
        match next_unwrap nb with
        | Panic r => Panic r
        | Ok (b, nb') =>
            match set_index arr cur b with
            | Panic r => Panic r
            | Ok arr' => fill_slots fuel' arr' (wrap32 (cur + 1)) bound nb'
            end
        end
    end
  else Ok (arr, cur, nb).

(** [for j in js { v.push(arr[j]) }] *)
Fixpoint push_slots (arr : list Z) (js : list Z) (v : list Z) : outcome (list Z) :=
  match js with
  | [] => Ok v
  | j :: js' =>
      match index arr j with
      | Ok x => push_slots arr js' (vec_push v x)
      | Panic r => Panic r
      end
  end.

(** [while cur < bound { v.push(arr[cur]); arr[cur] = 0; cur += 1 }] *)
Fixpoint drain_slots (arr : list Z) (js : list Z) (v : list Z) : outcome (list Z * list Z) :=
  match js with
  | [] => Ok (arr, v)
  | j :: js' =>
      match index arr j with
      | Ok x => drain_slots (<[Z.to_nat j := 0]> arr) js' (vec_push v x)
      | Panic r => Panic r
      end
  end.

Section DiskInode.
Context {D : Type} `{BlockDevice D}.
Abbreviation FS := (M (FsState D)).

(** An element of the indirect block [id]. *)
Definition read_indirect (id : Z) (dev : nat) (i : Z) : FS Z :=
  read_cache id dev 0 (fun b : IndirectBlock => lift (index (elems b) i)).

(** [DiskInode::get_block_id] *)
Definition get_block_id (d : DiskInode) (inner_id : Z) (dev : nat) : FS Z :=
  if inner_id <? INODE_DIRECT_COUNT then lift (index (direct d) inner_id)
  else if inner_id <? INDIRECT1_BOUND then
    read_indirect (indirect1 d) dev (inner_id - INODE_DIRECT_COUNT)
  else
    let last := inner_id - INDIRECT1_BOUND in
    let* ind1 := read_indirect (indirect2 d) dev (last / INODE_INDIRECT1_COUNT) in
    read_indirect ind1 dev (last mod INODE_INDIRECT1_COUNT).

(** The loop of [increase_size] over the blocks of [indirect2], from [(a0, b0)]; the body
    runs once for each new data block. *)
Fixpoint fill_indirect2 (fuel : nat) (dev : nat) (ws : list Z) (a0 b0 a1 b1 : Z) (nb : list Z) : FS (list Z) :=
  if (a0 <? a1) || ((a0 =? a1) && (b0 <? b1)) then
    match fuel with
    | O => panic OutOfFuel
    | S fuel' =>
        let* (ws, nb) :=
          (if b0 =? 0 then
             let* (b, nb) := lift (next_unwrap nb) in
             let* ws := lift (set_index ws a0 b) in
             ret (ws, nb)
           else ret (ws, nb)) in
        let* ind1 := lift (index ws a0) in
        let* nb := modify_cache ind1 dev 0 (fun blk : IndirectBlock =>
          let* (b, nb) := lift (next_unwrap nb) in
          let* ws1 := lift (set_index (elems blk) b0 b) in
          ret (nb, Array ws1)) in
        if b0 + 1 =? INODE_INDIRECT1_COUNT then fill_indirect2 fuel' dev ws (a0 + 1) 0 a1 b1 nb
        else fill_indirect2 fuel' dev ws a0 (b0 + 1) a1 b1 nb
    end
  else ret ws.

(** [DiskInode::increase_size] from "alloc indirect2" on. *)
Definition grow_indirect2 (d : DiskInode) (current total : Z) (nb : list Z) (dev : nat) : FS DiskInode :=
  let* (d, nb) :=
    (if current =? INODE_INDIRECT1_COUNT then
       let* (b, nb) := lift (next_unwrap nb) in
       ret (set_indirect2 b d, nb)
     else ret (d, nb)) in
  let current := wrap32 (current - INODE_INDIRECT1_COUNT) in
  let total := wrap32 (total - INODE_INDIRECT1_COUNT) in
  let a0 := current / INODE_INDIRECT1_COUNT in
  let b0 := current mod INODE_INDIRECT1_COUNT in
  let a1 := total / INODE_INDIRECT1_COUNT in
  let b1 := total mod INODE_INDIRECT1_COUNT in
  (* fill indirect2 from (a0, b0) to (a1, b1) *)
  modify_cache (indirect2 d) dev 0 (fun blk : IndirectBlock =>
    let* ws := fill_indirect2 (Z.to_nat (total - current)) dev (elems blk) a0 b0 a1 b1 nb in
    ret (tt, Array ws)) ;;
  ret d.

(** [DiskInode::increase_size] from "alloc indirect1" on. *)
Definition grow_indirect1 (d : DiskInode) (current total : Z) (nb : list Z) (dev : nat) : FS DiskInode :=
  let* (d, nb) :=
    (if current =? INODE_DIRECT_COUNT then
       let* (b, nb) := lift (next_unwrap nb) in
       ret (set_indirect1 b d, nb)
     else ret (d, nb)) in
  let current := wrap32 (current - INODE_DIRECT_COUNT) in
  let total := wrap32 (total - INODE_DIRECT_COUNT) in
  (* fill indirect1 *)
  let bound := Z.min total INODE_INDIRECT1_COUNT in
  let* (current, nb) := modify_cache (indirect1 d) dev 0 (fun blk : IndirectBlock =>
    let* ((ws, current), nb) :=
      lift (fill_slots (Z.to_nat (bound - current)) (elems blk) current bound nb) in
    ret ((current, nb), Array ws)) in
  if INODE_INDIRECT1_COUNT <? total then grow_indirect2 d current total nb dev
  else ret d.

(** [DiskInode::increase_size] *)
Definition increase_size (d : DiskInode) (new_size : Z) (new_blocks : list Z) (dev : nat) : FS DiskInode :=
  let current := data_blocks d in
  let d := set_size new_size d in
  let total := data_blocks d in
  (* fill direct *)
  let bound := Z.min total INODE_DIRECT_COUNT in
  let* ((arr, current), nb) := lift (fill_slots (Z.to_nat (bound - current)) (direct d) current bound new_blocks) in
  let d := set_direct arr d in
  if INODE_DIRECT_COUNT <? total then grow_indirect1 d current total nb dev
  else ret d.

(** Pushing the sub-block [ind1] of [indirect2] and its first [n] entries. *)
Definition push_indirect1 (ind1 : Z) (dev : nat) (n : Z) (v : list Z) : FS (list Z) :=
  modify_cache ind1 dev 0 (fun blk : IndirectBlock =>
    let* v := lift (push_slots (elems blk) (seqZ 0 n) v) in
    ret (v, blk)).

(** The closure of [DiskInode::clear_size] over [indirect2]. *)
Definition push_indirect2 (ws : list Z) (dev : nat) (blocks : Z) (v : list Z) : FS (list Z) :=
  let a1 := blocks / INODE_INDIRECT1_COUNT in
  let b1 := blocks mod INODE_INDIRECT1_COUNT in
  (* full indirect1 blocks *)
  let* v := foldM (fun v i =>
    let* ind1 := lift (index ws i) in
    push_indirect1 ind1 dev INODE_INDIRECT1_COUNT (vec_push v ind1)) (seqZ 0 a1) v in
  (* last indirect1 block *)
  if 0 <? b1 then
    let* ind1 := lift (index ws a1) in
    push_indirect1 ind1 dev b1 (vec_push v ind1)
  else ret v.

(** [DiskInode::clear_size] from "indirect2 block" on. *)
Definition clear_indirect2 (d : DiskInode) (blocks : Z) (v : list Z) (dev : nat) : FS (list Z * DiskInode) :=
  let v := vec_push v (indirect2 d) in
  let blocks := blocks - INODE_INDIRECT1_COUNT in
  assert_ (blocks <=? INODE_INDIRECT2_COUNT) ;;
  let* v := modify_cache (indirect2 d) dev 0 (fun blk : IndirectBlock =>
    let* v := push_indirect2 (elems blk) dev blocks v in
    ret (v, blk)) in
  ret (v, set_indirect2 0 d).

(** [DiskInode::clear_size] from "indirect1 block" on. *)
Definition clear_indirect1 (d : DiskInode) (blocks : Z) (v : list Z) (dev : nat) : FS (list Z * DiskInode) :=
  let v := vec_push v (indirect1 d) in
  let blocks := blocks - INODE_DIRECT_COUNT in
  let* v := push_indirect1 (indirect1 d) dev (Z.min blocks INODE_INDIRECT1_COUNT) v in
  let d := set_indirect1 0 d in
  if INODE_INDIRECT1_COUNT <? blocks then clear_indirect2 d blocks v dev
  else ret (v, d).

(** [DiskInode::clear_size] *)
Definition clear_size (d : DiskInode) (dev : nat) : FS (list Z * DiskInode) :=
  let blocks := data_blocks d in
  let d := set_size 0 d in
  (* direct *)
  let* (arr, v) := lift (drain_slots (direct d) (seqZ 0 (Z.min blocks INODE_DIRECT_COUNT)) []) in
  let d := set_direct arr d in
  if INODE_DIRECT_COUNT <? blocks then clear_indirect1 d blocks v dev
  else ret (v, d).

(** The loop of [DiskInode::read_at]; [buf] is the buffer that is filled. *)
Fixpoint read_at_loop (fuel : nat) (d : DiskInode) (dev : nat) (start end_ start_block read_size : Z) (buf : list Z)
    : FS (Z * list Z) :=
  match fuel with
  | O => panic OutOfFuel
  | S fuel' =>
      let end_current_block := Z.min ((start / BLOCK_SZ + 1) * BLOCK_SZ) end_ in
      let block_read_size := end_current_block - start in
      let* _ := lift (slice buf read_size (read_size + block_read_size)) in
      let* id := get_block_id d (wrap32 start_block) dev in
      let* src := read_cache id dev 0 (fun b : DataBlock =>
        lift (slice (elems b) (start mod BLOCK_SZ) (start mod BLOCK_SZ + block_read_size))) in
      let buf := put_bytes (Z.to_nat read_size) src buf in
      let read_size := read_size + block_read_size in
      if end_current_block =? end_ then ret (read_size, buf)
      else read_at_loop fuel' d dev end_current_block end_ (start_block + 1) read_size buf
  end.

(** The loop visits each block from that of [start] to that of [end_ - 1]. *)
Definition blocks_between (start end_ : Z) : nat := Z.to_nat ((end_ - 1) / BLOCK_SZ - start / BLOCK_SZ + 1).

(** [DiskInode::read_at] *)
Definition read_at (d : DiskInode) (offset : Z) (buf : list Z) (dev : nat) : FS (Z * list Z) :=
  let start := offset in
  let end_ := Z.min (offset +% Z.of_nat (length buf)) (di_size d) in
  if end_ <=? start then ret (0, buf)
  else read_at_loop (blocks_between start end_) d dev start end_ (start / BLOCK_SZ) 0 buf.

(** The loop of [DiskInode::write_at]. *)
Fixpoint write_at_loop (fuel : nat) (d : DiskInode) (dev : nat) (start end_ start_block write_size : Z) (buf : list Z)
    : FS Z :=
  match fuel with
  | O => panic OutOfFuel
  | S fuel' =>
      let end_current_block := Z.min ((start / BLOCK_SZ + 1) * BLOCK_SZ) end_ in
      let block_write_size := end_current_block - start in
      let* id := get_block_id d (wrap32 start_block) dev in
      modify_cache id dev 0 (fun b : DataBlock =>
        let* src := lift (slice buf write_size (write_size + block_write_size)) in
        let* _ := lift (slice (elems b) (start mod BLOCK_SZ) (start mod BLOCK_SZ + block_write_size)) in
        ret (tt, Array (put_bytes (Z.to_nat (start mod BLOCK_SZ)) src (elems b)))) ;;
      let write_size := write_size + block_write_size in
      if end_current_block =? end_ then ret write_size
      else write_at_loop fuel' d dev end_current_block end_ (start_block + 1) write_size buf
  end.

(** [DiskInode::write_at]: the first round runs even when nothing is to be written. *)
Definition write_at (d : DiskInode) (offset : Z) (buf : list Z) (dev : nat) : FS Z :=
  let start := offset in
  let end_ := Z.min (offset +% Z.of_nat (length buf)) (di_size d) in
  assert_ (start <=? end_) ;;
  write_at_loop (Nat.max 1 (blocks_between start end_)) d dev start end_ (start / BLOCK_SZ) 0 buf.

End DiskInode.

(** ** Directory entries *)

Definition DIRENT_SZ : Z := 32.

Record DirEntry : Type := mk_dirent { name : list Z; inode_number : Z }.

Definition DirEntry_empty : DirEntry := mk_dirent (replicate 28 0) 0.

(** [DirEntry::new]: the slice of the name's length must fit. *)
Definition DirEntry_new (n : list Z) (ino : Z) : outcome DirEntry :=
  let bytes := replicate (Z.to_nat (NAME_LENGTH_LIMIT + 1)) 0 in
  match slice bytes 0 (Z.of_nat (length n)) with
  | Ok _ => Ok (mk_dirent (put_bytes 0 n bytes) ino)
  | Panic r => Panic r
  end.

(** [as_bytes], and what writing through [as_bytes_mut] makes of the entry. *)
Definition DirEntry_as_bytes (e : DirEntry) : list Z := name e ++ le_enc 4 (inode_number e).
Definition DirEntry_of_bytes (bs : list Z) : DirEntry := mk_dirent (take 28 bs) (le_dec (take 4 (drop 28 bs))).

(** [(0usize..).find(|i| self.name[*i] == 0)] *)
Fixpoint find_zero (l : list Z) (i : nat) : outcome nat :=
  match l with
  | [] => Panic OutOfRange
  | b :: l' => if b =? 0 then Ok i else find_zero l' (S i)
  end.

(** [DirEntry::name] *)
Definition DirEntry_name (e : DirEntry) : outcome (list Z) :=
  match find_zero (name e) 0 with
  | Panic r => Panic r
  | Ok len =>
      match from_utf8 (take len (name e)) with
      | Some _ => Ok (take len (name e))
      | None => Panic UnwrapNone
      end
  end.
