(* ===== verification/Efs.v ===== *)
(** * The file system on a device (easy-fs/src/efs.rs)

    Block 0 is the super block; then follow the inode bitmap, the inodes, the data bitmap
    and the data blocks.  [EasyFileSystem] only records where these areas are, so its
    methods take it as a value: what they change is the disk. *)

From S2P Require Import Prelude Codec BlockCache Bitmap DiskLayout.

Record EasyFileSystem : Type := mk_efs {
  efs_block_device : nat;
  inode_bitmap : Bitmap;
  data_bitmap : Bitmap;
  inode_area_start_block : Z;
  data_area_start_block : Z
}.

(** [get_disk_inode_pos] and [get_data_block_id] *)
Definition get_disk_inode_pos (e : EasyFileSystem) (inode_id : Z) : Z * Z :=
  let inode_size := Z.of_nat (size_of DiskInode) in
  let inodes_per_block := wrap32 (BLOCK_SZ / inode_size) in
  let block_id := wrap32 (inode_area_start_block e + inode_id / inodes_per_block) in
  (block_id, (inode_id mod inodes_per_block) * inode_size).
Definition get_data_block_id (e : EasyFileSystem) (data_block_id : Z) : Z :=
  wrap32 (data_area_start_block e + data_block_id).

Section Efs.
Context {D : Type} `{BlockDevice D}.
Abbreviation FS := (M (FsState D)).

Definition alloc_inode (e : EasyFileSystem) : FS Z :=
  let* r := Bitmap_alloc (inode_bitmap e) (efs_block_device e) in
  let* i := unwrap r in
  ret (wrap32 i).

Definition alloc_data (e : EasyFileSystem) : FS Z :=
  let* r := Bitmap_alloc (data_bitmap e) (efs_block_device e) in
  let* i := unwrap r in
  ret (wrap32 (wrap32 i + data_area_start_block e)).

(** [for byte in data_block.iter_mut() { *byte = 0 }] on a block. *)
Definition clear_block (id : Z) (dev : nat) : FS unit :=
  modify_cache id dev 0 (fun b : DataBlock => ret (tt, Array (map (fun _ => 0) (elems b)))).

Definition dealloc_data (e : EasyFileSystem) (block_id : Z) : FS unit :=
  clear_block block_id (efs_block_device e) ;;
  Bitmap_dealloc (data_bitmap e) (efs_block_device e) (wrap32 (block_id - data_area_start_block e)).

(** [EasyFileSystem::create] *)
Definition efs_create (dev : nat) (total inode_bitmap_blocks : Z) : FS EasyFileSystem :=
  let inode_bitmap := Bitmap_new 1 inode_bitmap_blocks in
  let inode_num := Bitmap_maximum inode_bitmap in
  let inode_area_blocks :=
    wrap32 ((inode_num *% Z.of_nat (size_of DiskInode) +% BLOCK_SZ -% 1) / BLOCK_SZ) in
  let inode_total_blocks := wrap32 (inode_bitmap_blocks + inode_area_blocks) in
  let data_total_blocks := wrap32 (wrap32 (total - 1) - inode_total_blocks) in
  let data_bitmap_blocks := wrap32 (data_total_blocks + 4096) / 4097 in
  let data_area_blocks := wrap32 (data_total_blocks - data_bitmap_blocks) in
  let data_bitmap :=
    Bitmap_new (wrap32 (wrap32 (1 + inode_bitmap_blocks) + inode_area_blocks)) data_bitmap_blocks in
  let efs := mk_efs dev inode_bitmap data_bitmap
    (wrap32 (1 + inode_bitmap_blocks))
    (wrap32 (wrap32 (1 + inode_total_blocks) + data_bitmap_blocks)) in
  (* clear all blocks *)
  for_each (seqZ 0 total) (fun i => clear_block i dev) ;;
  (* initialize SuperBlock *)
  modify_cache 0 dev 0 (fun _ : SuperBlock =>
    ret (tt, SuperBlock_initialize total inode_bitmap_blocks inode_area_blocks data_bitmap_blocks data_area_blocks)) ;;
  (* create a inode for root node "/" *)
  let* root := alloc_inode efs in
  assert_ (root =? 0) ;;
  let '(root_inode_block_id, root_inode_offset) := get_disk_inode_pos efs 0 in
  modify_cache root_inode_block_id dev root_inode_offset (fun d : DiskInode =>
    ret (tt, DiskInode_initialize Directory d)) ;;
  block_cache_sync_all ;;
  ret efs.

(** [EasyFileSystem::open] *)
Definition efs_open (dev : nat) : FS EasyFileSystem :=
  read_cache 0 dev 0 (fun super_block : SuperBlock =>
    assert_ (SuperBlock_is_valid super_block) ;;
    let inode_total_blocks := wrap32 (inode_bitmap_blocks super_block + inode_area_blocks super_block) in
    ret (mk_efs dev
      (Bitmap_new 1 (inode_bitmap_blocks super_block))
      (Bitmap_new (wrap32 (1 + inode_total_blocks)) (data_bitmap_blocks super_block))
      (wrap32 (1 + inode_bitmap_blocks super_block))
      (wrap32 (wrap32 (1 + inode_total_blocks) + data_bitmap_blocks super_block)))).

End Efs.
