(* ===== verification/Vfs.v ===== *)
(** * Files and the directory (easy-fs/src/vfs.rs) and the packer (easy-fs-fuse)

    An [Inode] is the position of a [DiskInode].  Every operation takes the lock of the
    file system first and none calls another, so the lock is always free; what can hang
    is the lock of a cached block, which the model of the cache has.  A name is the bytes
    of a string. *)

From S2P Require Import Prelude Utf8 Codec BlockCache BlockFile Bitmap DiskLayout Efs.

Record Inode : Type := Inode_new { ino_block_id : Z; ino_block_offset : Z; ino_fs : EasyFileSystem; ino_device : nat }.

Section Vfs.
Context {D : Type} `{BlockDevice D}.
Abbreviation FS := (M (FsState D)).

(** [EasyFileSystem::root_inode] *)
Definition root_inode (e : EasyFileSystem) : Inode :=
  let '(block_id, block_offset) := get_disk_inode_pos e 0 in
  Inode_new block_id block_offset e (efs_block_device e).

Definition read_disk_inode {V} (n : Inode) (f : DiskInode -> FS V) : FS V :=
  read_cache (ino_block_id n) (ino_device n) (ino_block_offset n) f.
Definition modify_disk_inode {V} (n : Inode) (f : DiskInode -> FS (V * DiskInode)) : FS V :=
  modify_cache (ino_block_id n) (ino_device n) (ino_block_offset n) f.

(** Reading the directory entry [i] into [dirent]. *)
Definition read_dirent (d : DiskInode) (dev : nat) (i : Z) (dirent : DirEntry) : FS DirEntry :=
  let* (n, bytes) := read_at d (DIRENT_SZ * i) (DirEntry_as_bytes dirent) dev in
  assert_ (n =? DIRENT_SZ) ;;
  ret (DirEntry_of_bytes bytes).

Fixpoint find_loop (nm : list Z) (d : DiskInode) (dev : nat) (ixs : list Z) (dirent : DirEntry) : FS (option Z) :=
  match ixs with
  | [] => ret None
  | i :: ixs' =>
      let* dirent := read_dirent d dev i dirent in
      let* n := lift (DirEntry_name dirent) in
      if bool_decide (n = nm) then ret (Some (inode_number dirent)) else find_loop nm d dev ixs' dirent
  end.
Definition find_inode_id (nm : list Z) (d : DiskInode) (dev : nat) : FS (option Z) :=
  assert_ (is_dir d) ;;
  find_loop nm d dev (seqZ 0 (di_size d / DIRENT_SZ)) DirEntry_empty.

(** The inode of a number. *)
Definition inode_at (n : Inode) (inode_id : Z) : Inode :=
  let '(block_id, block_offset) := get_disk_inode_pos (ino_fs n) inode_id in
  Inode_new block_id block_offset (ino_fs n) (ino_device n).

Definition Inode_find (n : Inode) (nm : list Z) : FS (option Inode) :=
  read_disk_inode n (fun d =>
    let* r := find_inode_id nm d (ino_device n) in
    ret (inode_at n <$> r)).

(** [Inode::increase_size] *)
Definition Inode_increase_size (n : Inode) (new_size : Z) (d : DiskInode) : FS DiskInode :=
  if new_size <? di_size d then ret d
  else
    let* blocks_needed := lift (blocks_num_needed d new_size) in
    let* v := foldM (fun v _ => let* b := alloc_data (ino_fs n) in ret (vec_push v b)) (seqZ 0 blocks_needed) [] in
    increase_size d new_size v (ino_device n).

Definition Inode_create (n : Inode) (nm : list Z) : FS (option Inode) :=
  let* found := modify_disk_inode n (fun root =>
    assert_ (is_dir root) ;;
    let* r := find_inode_id nm root (ino_device n) in
    ret (r, root)) in
  if is_some found then ret None
  else
    let* new_inode_id := alloc_inode (ino_fs n) in
    let '(new_block, new_offset) := get_disk_inode_pos (ino_fs n) new_inode_id in
    modify_cache new_block (ino_device n) new_offset (fun d : DiskInode => ret (tt, DiskInode_initialize File d)) ;;
    modify_disk_inode n (fun root =>
      let file_count := di_size root / DIRENT_SZ in
      let new_size := (file_count + 1) * DIRENT_SZ in
      let* root := Inode_increase_size n (wrap32 new_size) root in
      let* dirent := lift (DirEntry_new nm new_inode_id) in
      let* _ := write_at root (file_count * DIRENT_SZ) (DirEntry_as_bytes dirent) (ino_device n) in
      ret (tt, root)) ;;
    block_cache_sync_all ;;
    ret (Some (inode_at n new_inode_id)).

Definition Inode_ls (n : Inode) : FS (list (list Z)) :=
  read_disk_inode n (fun d =>
    foldM (fun v i =>
      let* dirent := read_dirent d (ino_device n) i DirEntry_empty in
      let* nm := lift (DirEntry_name dirent) in
      ret (vec_push v nm)) (seqZ 0 (di_size d / DIRENT_SZ)) []).

Definition Inode_read_at (n : Inode) (offset : Z) (buf : list Z) : FS (Z * list Z) :=
  read_disk_inode n (fun d => read_at d offset buf (ino_device n)).

Definition Inode_write_at (n : Inode) (offset : Z) (buf : list Z) : FS Z :=
  let* size := modify_disk_inode n (fun d =>
    let* d := Inode_increase_size n (wrap32 (offset + Z.of_nat (length buf))) d in
    let* r := write_at d offset buf (ino_device n) in
    ret (r, d)) in
  block_cache_sync_all ;;
  ret size.

Definition Inode_clear (n : Inode) : FS unit :=
  modify_disk_inode n (fun d =>
    let size := di_size d in
    let* (v, d) := clear_size d (ino_device n) in
    assert_ (Z.of_nat (length v) =? total_blocks size) ;;
    for_each v (dealloc_data (ino_fs n)) ;;
    ret (tt, d)) ;;
  block_cache_sync_all.

(** One application: [easy_fs_pack]'s loop body; [host] are the files of the target
    directory. *)
Definition pack_one (root_inode : Inode) (host : list Z -> option (list Z)) (app : list Z) : FS unit :=
  let* all_data := unwrap (host app) in
  let* r := Inode_create root_inode app in
  let* inode := unwrap r in
  let* _ := Inode_write_at inode 0 all_data in
  ret tt.

End Vfs.

(** ** Packing a directory into an image (easy-fs-fuse/src/main.rs) *)

(** [name_with_ext.drain(name_with_ext.find('.').unwrap()..)]: the name up to the dot. *)
Fixpoint before_dot (nm : list Z) : option (list Z) :=
  match nm with
  | [] => None
  | c :: nm' => if c =? 46 then Some [] else cons c <$> before_dot nm'
  end.

(** [easy_fs_pack] after the image was opened: [dir] are the names in the source directory,
    [host] the contents of the files of the target directory.  The result is the listing
    that is printed. *)
Definition pack_apps (dir : list (list Z)) (host : list Z -> option (list Z)) : M (FsState Fuse.BlockFile) (list (list Z)) :=
  let* efs := efs_create 0 Fuse.BLOCK_NUM 1 in
  let root := root_inode efs in
  let* apps := foldM (fun v nm => let* n := unwrap (before_dot nm) in ret (vec_push v n)) dir [] in
  for_each apps (pack_one root host) ;;
  Inode_ls root.

(** [easy_fs_pack] after the command line; [img] are the old contents of the image file. *)
Definition easy_fs_pack (dir : list (list Z)) (host : list Z -> option (list Z)) (img : list Z)
    : outcome (list (list Z) * FsState Fuse.BlockFile) :=
  pack_apps dir host (mk_fs [Fuse.open_image img] cache_manager_new).
