(* ===== verification/InodeSpec.v ===== *)
(** * Reading and writing the contents of an inode

    [block_of] is the block map of an inode, read off the disk that the cache stands for,
    and [file_byte] the byte at a position of the file.  [read_at] copies the bytes of the
    file, [write_at] replaces them and leaves every other block of the disk as it was. *)

From S2P Require Import Prelude Codec BlockCache BlockCacheSpec BlockFile DiskSpec DiskLayout.

(** ** The block map *)

Definition word_at (k : disk) (id i : Z) : Z := nth (Z.to_nat i) (words_dec 4 128 (k id)) 0.

(** The blocks of block numbers on the way to block [i] of the file, and block [i]. *)
Definition sub_indirect (k : disk) (d : DiskInode) (i : Z) : Z := word_at k (indirect2 d) ((i - 156) / 128).
Definition block_of (k : disk) (d : DiskInode) (i : Z) : Z :=
  if i <? 28 then nth (Z.to_nat i) (direct d) 0
  else if i <? 156 then word_at k (indirect1 d) (i - 28)
  else word_at k (sub_indirect k d i) ((i - 156) mod 128).

(** Block numbers of the inode that hold block numbers. *)
Definition is_indirect (k : disk) (d : DiskInode) (id : Z) : Prop :=
  (28 < data_blocks d /\ id = indirect1 d) \/ (156 < data_blocks d /\ id = indirect2 d) \/
  exists i, 156 <= i < data_blocks d /\ id = sub_indirect k d i.

Record inode_ok (has : Z -> Prop) (h : gmap Z hold) (k : disk) (d : DiskInode) : Prop := {
  io_size : 0 <= di_size d <= 16540 * 512;
  io_direct : length (direct d) = 28%nat;
  io_indirect id : is_indirect k d id -> has id /\ h !! id = None;
  io_data i : 0 <= i < data_blocks d -> has (block_of k d i) /\ h !! block_of k d i = None;
  (** no two blocks of the inode are the same *)
  io_inj i j : 0 <= i < data_blocks d -> 0 <= j < data_blocks d -> block_of k d i = block_of k d j -> i = j;
  io_apart i : 0 <= i < data_blocks d -> ~ is_indirect k d (block_of k d i)
}.

Lemma data_blocks_ceil size : 0 <= size <= 16540 * 512 -> data_blocks_of size = (size + 511) / 512.
Proof.
  intros Hs. unfold data_blocks_of, BLOCK_SZ. rewrite (wrap32_small (size + 512)), wrap32_small by lia.
  f_equal. lia.
Qed.

Lemma data_blocks_pos has h k d p :
  inode_ok has h k d -> 0 <= p < di_size d -> 0 <= p / 512 < data_blocks d.
Proof. intros Hd Hp. unfold data_blocks. rewrite data_blocks_ceil by apply Hd. zdm. Qed.

(** The byte at position [p], and the [n] bytes from [p]. *)
Definition file_byte (k : disk) (d : DiskInode) (p : Z) : Z :=
  nth (Z.to_nat (p mod 512)) (k (block_of k d (p / 512))) 0.
Definition file_bytes (k : disk) (d : DiskInode) (p n : Z) : list Z := map (file_byte k d) (seqZ p n).

Lemma length_file_bytes k d p n : length (file_bytes k d p n) = Z.to_nat n.
Proof. unfold file_bytes. by rewrite length_map, length_seqZ. Qed.

Lemma file_bytes_app k d p n m :
  0 <= n -> 0 <= m -> file_bytes k d p (n + m) = file_bytes k d p n ++ file_bytes k d (p + n) m.
Proof. intros Hn Hm. unfold file_bytes. by rewrite seqZ_app, map_app. Qed.

Lemma file_bytes_split k d p q r :
  p <= q <= r -> file_bytes k d p (r - p) = file_bytes k d p (q - p) ++ file_bytes k d q (r - q).
Proof.
  intros Hq. replace (r - p) with (q - p + (r - q)) by lia. rewrite file_bytes_app by lia.
  by replace (p + (q - p)) with q by lia.
Qed.

(** A part of one block. *)
Lemma file_bytes_block k d p n :
  0 <= p -> 0 <= n -> p mod 512 + n <= 512 -> length (k (block_of k d (p / 512))) = 512%nat ->
  file_bytes k d p n = take (Z.to_nat n) (drop (Z.to_nat (p mod 512)) (k (block_of k d (p / 512)))).
Proof.
  intros Hp Hn Hle Hlen. apply list_eq. intros i. unfold file_bytes.
  change (map ?f ?l) with (f <$> l). rewrite list_lookup_fmap.
  destruct (decide (Z.of_nat i < n)) as [Hi|Hi].
  - rewrite lookup_seqZ_lt by lia. rewrite lookup_take_lt, lookup_drop by lia. cbn. unfold file_byte.
    replace ((p + Z.of_nat i) / 512) with (p / 512) by zdm.
    replace (Z.to_nat ((p + Z.of_nat i) mod 512)) with (Z.to_nat (p mod 512) + i)%nat by zdm.
    symmetry. apply lookup_nth. rewrite Hlen. zdm.
  - rewrite lookup_seqZ_ge by lia. by rewrite lookup_take_ge by lia.
Qed.

(** The bytes depend only on the inode's blocks. *)
Lemma block_of_same k k' d i :
  (forall id, is_indirect k d id -> k' id = k id) -> 0 <= i < data_blocks d -> block_of k' d i = block_of k d i.
Proof.
  intros Hsame Hi. unfold block_of. destruct (Z.ltb_spec i 28); [done|]. destruct (Z.ltb_spec i 156).
  - unfold word_at. rewrite Hsame; [done|]. left. split; [lia|done].
  - assert (Hs : sub_indirect k' d i = sub_indirect k d i).
    { unfold sub_indirect, word_at. rewrite Hsame; [done|]. right. left. split; [lia|done]. }
    rewrite Hs. unfold word_at at 1 2. rewrite Hsame; [done|]. right. right. exists i. split; [lia|done].
Qed.

Lemma is_indirect_same k k' d id :
  (forall id, is_indirect k d id -> k' id = k id) -> is_indirect k' d id <-> is_indirect k d id.
Proof.
  intros Hsame. assert (Hs : forall i, 156 <= i < data_blocks d -> sub_indirect k' d i = sub_indirect k d i).
  { intros i Hi. unfold sub_indirect, word_at. rewrite Hsame; [done|]. right. left. split; [lia|done]. }
  unfold is_indirect. split; (intros [?|[?|(i & Hi & ->)]]; [by left|by right; left|]; right; right; exists i).
  - by rewrite Hs.
  - by rewrite Hs.
Qed.

Lemma inode_ok_same has h k k' d :
  inode_ok has h k d -> (forall id, is_indirect k d id -> k' id = k id) -> inode_ok has h k' d.
Proof.
  intros [Hsz Hdir Hind Hdat Hinj Hap] Hsame. split; try done.
  - intros id Hid. apply Hind. by apply (is_indirect_same k k').
  - intros i Hi. rewrite (block_of_same k k') by done. by apply Hdat.
  - intros i j Hi Hj. rewrite !(block_of_same k k') by done. by apply Hinj.
  - intros i Hi. rewrite (block_of_same k k') by done. rewrite (is_indirect_same k k') by done. by apply Hap.
Qed.

Lemma file_bytes_same k k' d p n :
  (forall q, p <= q < p + n -> file_byte k' d q = file_byte k d q) -> file_bytes k' d p n = file_bytes k d p n.
Proof.
  intros Hq. unfold file_bytes. apply map_ext_in. intros q Hin. apply Hq.
  apply list_elem_of_In, elem_of_seqZ in Hin. lia.
Qed.

(** ** Writing *)

(** The disk after the bytes from position [p] of the file became [src]. *)
Record file_written (has : Z -> Prop) (d : DiskInode) (p : Z) (src : list Z) (k k' : disk) : Prop := {
  fw_bytes q : 0 <= q < data_blocks d * 512 ->
    file_byte k' d q =
      if (p <=? q) && (q <? p + Z.of_nat (length src)) then nth (Z.to_nat (q - p)) src 0 else file_byte k d q;
  fw_frame id : has id -> (forall i, 0 <= i < data_blocks d -> id <> block_of k d i) -> k' id = k id
}.

Lemma file_written_indirect has h d p src k k' :
  inode_ok has h k d -> file_written has d p src k k' -> forall id, is_indirect k d id -> k' id = k id.
Proof.
  intros Hd Hw id Hid. apply (fw_frame _ _ _ _ _ _ Hw); [by apply Hd|].
  intros i Hi ->. by apply (io_apart _ _ _ _ Hd i Hi).
Qed.

Lemma file_written_app has h d p a b k k1 k2 :
  inode_ok has h k d -> file_written has d p a k k1 ->
  file_written has d (p + Z.of_nat (length a)) b k1 k2 -> file_written has d p (a ++ b) k k2.
Proof.
  intros Hd Hw1 Hw2. pose proof (file_written_indirect _ _ _ _ _ _ _ Hd Hw1) as Hind. split.
  - intros q Hq. rewrite (fw_bytes _ _ _ _ _ _ Hw2), (fw_bytes _ _ _ _ _ _ Hw1) by done.
    rewrite length_app, Nat2Z.inj_add.
    destruct (Z.leb_spec p q); destruct (Z.ltb_spec q (p + Z.of_nat (length a)));
      destruct (Z.leb_spec (p + Z.of_nat (length a)) q); try lia; cbn [andb].
    + rewrite (proj2 (Z.ltb_lt _ _)) by lia. symmetry. apply app_nth1. lia.
    + rewrite Z.add_assoc. destruct (Z.ltb_spec q (p + Z.of_nat (length a) + Z.of_nat (length b))); [|done].
      rewrite app_nth2 by lia. f_equal. lia.
    + done.
  - intros id Hid Hne. rewrite (fw_frame _ _ _ _ _ _ Hw2), (fw_frame _ _ _ _ _ _ Hw1); try done.
    intros i Hi. rewrite (block_of_same k k1) by done. by apply Hne.
Qed.

(** Replacing a part of one block. *)
Lemma nth_put_bytes off new bs i :
  (off + length new <= length bs)%nat ->
  nth i (put_bytes off new bs) 0 =
    if decide (off <= i < off + length new)%nat then nth (i - off) new 0 else nth i bs 0.
Proof.
  intros Hl. unfold put_bytes. rewrite !nth_lookup. case_decide as Hi.
  - rewrite lookup_app_r, lookup_app_l; rewrite ?length_take; [|lia..]. do 2 f_equal. lia.
  - destruct (decide (i < off)%nat).
    + rewrite lookup_app_l by (rewrite length_take; lia). by rewrite lookup_take_lt by lia.
    + rewrite lookup_app_r, lookup_app_r; rewrite ?length_take; [|lia..]. rewrite lookup_drop. do 2 f_equal. lia.
Qed.

Lemma file_written_block has h d p src k k' :
  inode_ok has h k d -> 0 <= p < di_size d -> p mod 512 + Z.of_nat (length src) <= 512 ->
  length (k (block_of k d (p / 512))) = 512%nat ->
  (forall j, has j -> k' j = if decide (j = block_of k d (p / 512)) then
     put_bytes (Z.to_nat (p mod 512)) src (k j) else k j) ->
  file_written has d p src k k'.
Proof.
  intros Hd Hp Hle Hlen Hk'. pose proof (data_blocks_pos _ _ _ _ p Hd Hp) as Hi.
  assert (Hind : forall id, is_indirect k d id -> k' id = k id).
  { intros id Hid. rewrite Hk' by (by apply Hd). rewrite decide_False; [done|].
    intros ->. by apply (io_apart _ _ _ _ Hd _ Hi). }
  split.
  - intros q Hq. assert (Hqi : 0 <= q / 512 < data_blocks d) by zdm. unfold file_byte.
    rewrite (block_of_same k k') by done. rewrite Hk' by (apply (io_data _ _ _ _ Hd _ Hqi)).
    case_decide as Hb.
    + apply (io_inj _ _ _ _ Hd) in Hb; [|done..]. rewrite Hb, nth_put_bytes by zdm.
      case_decide as Hr.
      * replace ((p <=? q) && (q <? p + Z.of_nat (length src))) with true; [f_equal; zdm|].
        symmetry. apply andb_true_iff. rewrite Z.leb_le, Z.ltb_lt. zdm.
      * replace ((p <=? q) && (q <? p + Z.of_nat (length src))) with false; [done|].
        symmetry. apply andb_false_iff. rewrite Z.leb_gt, Z.ltb_ge. zdm.
    + assert (Hne : q / 512 <> p / 512) by (intros He; by rewrite He in Hb).
      replace ((p <=? q) && (q <? p + Z.of_nat (length src))) with false; [done|].
      symmetry. apply andb_false_iff. rewrite Z.leb_gt, Z.ltb_ge. zdm.
  - intros id Hid Hne. rewrite Hk' by done. by rewrite decide_False by (by apply Hne).
Qed.

(** The number of bytes from [off] to the end of the buffer or of the file. *)
Definition transfer_len (d : DiskInode) (off : Z) (buf : list Z) : Z :=
  Z.max 0 (Z.min (off + Z.of_nat (length buf)) (di_size d) - off).

(** ** The rules *)

Section Rules.
Context {D : Type} `{BlockDeviceSpec D} (has : Z -> Prop).
Implicit Types s : FsState D.

Lemma wp_read_indirect s h id i Q :
  cache_ok has s h -> has id -> h !! id = None -> (size h < BLOCK_CACHE_SIZE)%nat -> 0 <= i < 128 ->
  (forall s', cache_ok has s' h -> (forall j, has j -> view s' j = view s j) -> Q (word_at (view s) id i) s') ->
  wp (read_indirect id 0 i) Q s.
Proof.
  intros Hok Hid Hfree Hsize Hi HQ. unfold read_indirect. apply (wp_read_block has s h); [done..|].
  intros s1 Hok1 Hv1. cbn [from_bytes array_layout elems]. eapply wp_lift.
  - apply index_Ok. rewrite length_words_dec. lia.
  - split; [done|]. intros s3 Hok3 Hv3. apply HQ; [done|]. intros j Hj. by rewrite Hv3, Hv1.
Qed.

Lemma wp_get_block_id s h d i Q :
  cache_ok has s h -> inode_ok has h (view s) d -> (size h < BLOCK_CACHE_SIZE)%nat -> 0 <= i < data_blocks d ->
  (forall s', cache_ok has s' h -> (forall j, has j -> view s' j = view s j) -> Q (block_of (view s) d i) s') ->
  wp (get_block_id d i 0) Q s.
Proof.
  intros Hok Hd Hsize Hi HQ. pose proof (io_size _ _ _ _ Hd) as Hsz.
  assert (Hdb : data_blocks d <= 16540) by (unfold data_blocks; rewrite data_blocks_ceil by done; zdm).
  assert (Hind := io_indirect _ _ _ _ Hd). unfold get_block_id.
  change INODE_DIRECT_COUNT with 28. change INDIRECT1_BOUND with 156. change INODE_INDIRECT1_COUNT with 128.
  unfold block_of in HQ. destruct (Z.ltb_spec i 28).
  { eapply wp_lift; [apply (index_Ok _ _ 0); rewrite (io_direct _ _ _ _ Hd); lia|]. by apply HQ. }
  destruct (Z.ltb_spec i 156).
  { destruct (Hind (indirect1 d)) as [Hh1 Hf1]; [left; split; [lia|done]|].
    apply (wp_read_indirect s h); [done..|lia|done]. }
  destruct (Hind (indirect2 d)) as [Hh2 Hf2]; [right; left; split; [lia|done]|].
  destruct (Hind (sub_indirect (view s) d i)) as [Hh3 Hf3]; [right; right; exists i; split; [lia|done]|].
  wp_step. apply (wp_read_indirect s h); [done..|zdm|]. intros s1 Hok1 Hv1.
  apply (wp_read_indirect s1 h); [done..|zdm|]. intros s2 Hok2 Hv2.
  unfold word_at at 1. rewrite Hv1 by done. apply HQ; [done|]. intros j Hj. by rewrite Hv2, Hv1.
Qed.

(** The bytes of the file stay the same when the disk does. *)
Lemma file_bytes_view h k k' d p n :
  inode_ok has h k d -> (forall j, has j -> k' j = k j) -> 0 <= p -> p + n <= di_size d ->
  file_bytes k' d p n = file_bytes k d p n.
Proof.
  intros Hd Hs Hp Hn. apply file_bytes_same. intros q Hq. unfold file_byte.
  assert (Hi := data_blocks_pos _ _ _ _ q Hd ltac:(lia)).
  rewrite (block_of_same k k') by (done || intros id []%Hd; by apply Hs).
  rewrite Hs; [done|]. apply (io_data _ _ _ _ Hd _ Hi).
Qed.

Lemma inode_ok_view h k k' d :
  inode_ok has h k d -> (forall j, has j -> k' j = k j) -> inode_ok has h k' d.
Proof. intros Hd Hs. eapply inode_ok_same; [done|]. intros id []%Hd. by apply Hs. Qed.

(** One round of [read_at]: a part of one block. *)
Lemma wp_read_part s h d p n Q :
  cache_ok has s h -> inode_ok has h (view s) d -> (size h < BLOCK_CACHE_SIZE)%nat ->
  0 <= p < di_size d -> 0 <= n -> p mod 512 + n <= 512 ->
  (forall s', cache_ok has s' h -> (forall j, has j -> view s' j = view s j) ->
     Q (file_bytes (view s) d p n) s') ->
  wp (let* id := get_block_id d (wrap32 (p / 512)) 0 in
      read_cache id 0 0 (fun b : DataBlock => lift (slice (elems b) (p mod 512) (p mod 512 + n)))) Q s.
Proof.
  intros Hok Hd Hsize Hp Hn Hle HQ. pose proof (data_blocks_pos _ _ _ _ p Hd Hp) as Hi.
  pose proof (io_size _ _ _ _ Hd) as Hsz. rewrite wrap32_small by zdm.
  wp_step. apply (wp_get_block_id s h); [done..|]. intros s1 Hok1 Hv1.
  destruct (io_data _ _ _ _ Hd _ Hi) as [Hid Hfree]. destruct (view_ok has s h _ Hok Hid) as [Hlen Hu8].
  apply (wp_read_block has s1 h); [done..|]. intros s2 Hok2 Hv2. cbn [from_bytes array_layout elems].
  rewrite Hv1, words_dec_1 by done. eapply wp_lift; [apply slice_Ok; rewrite ?Hlen; unfold BLOCK_SZ; zdm|].
  split; [done|]. intros s3 Hok3 Hv3. replace (p mod 512 + n - p mod 512) with n by lia.
  rewrite <-file_bytes_block by (done || lia). apply HQ; [done|]. intros j Hj. by rewrite Hv3, Hv2, Hv1.
Qed.

(** The end of a round. *)
Lemma block_end start end_ ecb :
  0 <= start < end_ -> ecb = Z.min ((start / 512 + 1) * 512) end_ ->
  start < ecb <= end_ /\ start mod 512 + (ecb - start) <= 512 /\ (ecb = end_ \/ ecb = (start / 512 + 1) * 512).
Proof. intros Hs ->. split_and!; zdm. Qed.

Lemma wp_read_at_loop d n : forall s h start end_ rs buf Q,
  cache_ok has s h -> inode_ok has h (view s) d -> (size h < BLOCK_CACHE_SIZE)%nat ->
  0 <= start < end_ -> end_ <= di_size d -> blocks_between start end_ = n ->
  0 <= rs -> rs + (end_ - start) <= Z.of_nat (length buf) ->
  (forall s', cache_ok has s' h -> (forall j, has j -> view s' j = view s j) ->
     Q (rs + (end_ - start), put_bytes (Z.to_nat rs) (file_bytes (view s) d start (end_ - start)) buf) s') ->
  wp (read_at_loop n d 0 start end_ (start / 512) rs buf) Q s.
Proof.
  induction n as [|n IH]; intros s h start end_ rs buf Q Hok Hd Hsize Hse Hend Hn Hrs Hbuf HQ.
  { unfold blocks_between, BLOCK_SZ in Hn. zdm. }
  cbn [read_at_loop]. unfold BLOCK_SZ. set (ecb := Z.min _ end_).
  destruct (block_end start end_ ecb) as (Hecb & Hpart & Hor); [done..|]. clearbody ecb. wp_step.
  eapply wp_lift; [apply slice_Ok; lia|]. apply wp_bind_assoc.
  apply wp_bind. apply (wp_read_part s h); [done..|lia|lia|done|]. intros s1 Hok1 Hv1.
  set (src := file_bytes (view s) d start (ecb - start)).
  assert (Hsrc : length src = Z.to_nat (ecb - start)) by apply length_file_bytes.
  destruct (Z.eqb_spec ecb end_) as [He|Hne].
  { apply wp_ret. unfold src. rewrite He. by apply HQ. }
  destruct Hor as [?|Hor]; [done|].
  replace (start / 512 + 1) with (ecb / 512) by zdm.
  apply (IH s1 h); [done|by eapply inode_ok_view|done|zdm|done| |zdm| |].
  - unfold blocks_between, BLOCK_SZ in *. zdm.
  - rewrite length_put_bytes by zdm. lia.
  - intros s' Hok' Hv'. replace (rs + (ecb - start) + (end_ - ecb)) with (rs + (end_ - start)) by lia.
    replace (Z.to_nat (rs + (ecb - start))) with (Z.to_nat rs + length src)%nat by zdm.
    rewrite (file_bytes_view h (view s)) by (done || zdm).
    rewrite put_bytes_app by (rewrite length_file_bytes; zdm).
    unfold src. rewrite <-file_bytes_split by lia. apply HQ; [done|]. intros j Hj. by rewrite Hv', Hv1.
Qed.

Lemma wp_read_at s h d off buf Q :
  cache_ok has s h -> inode_ok has h (view s) d -> (size h < BLOCK_CACHE_SIZE)%nat ->
  0 <= off -> off + Z.of_nat (length buf) < 2 ^ 64 ->
  let n := Z.max 0 (Z.min (off + Z.of_nat (length buf)) (di_size d) - off) in
  (forall s', cache_ok has s' h -> (forall j, has j -> view s' j = view s j) ->
     Q (n, file_bytes (view s) d off n ++ drop (Z.to_nat n) buf) s') ->
  wp (read_at d off buf 0) Q s.
Proof.
  intros Hok Hd Hsize Hoff Hlen n HQ. unfold read_at. rewrite wrap64_small by lia.
  destruct (Z.leb_spec (Z.min (off + Z.of_nat (length buf)) (di_size d)) off) as [Hle|Hlt].
  - apply wp_ret. replace n with 0 in HQ by lia. by apply HQ.
  - apply (wp_read_at_loop d _ s h); [done..|lia|lia|done|lia|lia|]. intros s' Hok' Hv'.
    replace n with (Z.min (off + Z.of_nat (length buf)) (di_size d) - off) in HQ by lia.
    rewrite Z.add_0_l. unfold put_bytes. cbn [Z.to_nat take app]. rewrite length_file_bytes. by apply HQ.
Qed.

(** One round of [write_at]. *)
Lemma wp_write_part s h d p n ws buf Q :
  cache_ok has s h -> inode_ok has h (view s) d -> (size h < BLOCK_CACHE_SIZE)%nat -> Forall is_u8 buf ->
  0 <= p < di_size d -> 0 <= n -> p mod 512 + n <= 512 -> 0 <= ws -> ws + n <= Z.of_nat (length buf) ->
  (forall s', cache_ok has s' h ->
     file_written has d p (take (Z.to_nat n) (drop (Z.to_nat ws) buf)) (view s) (view s') -> Q tt s') ->
  wp (let* id := get_block_id d (wrap32 (p / 512)) 0 in
      modify_cache id 0 0 (fun b : DataBlock =>
        let* src := lift (slice buf ws (ws + n)) in
        let* _ := lift (slice (elems b) (p mod 512) (p mod 512 + n)) in
        ret (tt, Array (put_bytes (Z.to_nat (p mod 512)) src (elems b))))) Q s.
Proof.
  intros Hok Hd Hsize Hbu8 Hp Hn Hle Hws Hbuf HQ. pose proof (data_blocks_pos _ _ _ _ p Hd Hp) as Hi.
  pose proof (io_size _ _ _ _ Hd) as Hsz. rewrite wrap32_small by zdm.
  wp_step. apply (wp_get_block_id s h); [done..|]. intros s1 Hok1 Hv1.
  destruct (io_data _ _ _ _ Hd _ Hi) as [Hid Hfree]. destruct (view_ok has s h _ Hok Hid) as [Hlen Hu8].
  apply (wp_modify_block has s1 h); [done..|]. intros s2 Hok2 Hv2. cbn [from_bytes array_layout elems].
  rewrite Hv1, words_dec_1 by done. wp_step. eapply wp_lift; [apply slice_Ok; lia|]. wp_step.
  eapply wp_lift; [apply slice_Ok; rewrite ?Hlen; unfold BLOCK_SZ; zdm|]. wp_step.
  replace (ws + n - ws) with n by lia. set (src := take (Z.to_nat n) (drop (Z.to_nat ws) buf)) in *.
  assert (Hsrc : length src = Z.to_nat n) by (unfold src; rewrite length_take, length_drop; lia).
  assert (Hnew : Forall is_u8 (put_bytes (Z.to_nat (p mod 512)) src (view s (block_of (view s) d (p / 512))))).
  { apply put_bytes_u8; [by apply Forall_take, Forall_drop|done]. }
  change (Z.to_nat BLOCK_SZ) with 512%nat in Hlen. split_and!; [done| |].
  - split; [cbn [snd elems]; by rewrite length_put_bytes by zdm|]. eapply Forall_impl; [exact Hnew|].
    unfold is_u8. cbn. lia.
  - cbn [snd to_bytes array_layout elems fst]. rewrite words_enc_1 by done. intros s3 Hok3 Hv3.
    apply HQ; [done|]. eapply file_written_block; [done..|zdm|done|]. intros j Hj. rewrite Hv3 by done.
    case_decide as He; [by rewrite He|]. by rewrite Hv2, Hv1.
Qed.

Lemma inode_ok_written h k k' d p src :
  inode_ok has h k d -> file_written has d p src k k' -> inode_ok has h k' d.
Proof. intros Hd Hw. eapply inode_ok_same; [done|]. by eapply file_written_indirect. Qed.

Lemma wp_write_at_loop d n : forall s h start end_ ws buf Q,
  cache_ok has s h -> inode_ok has h (view s) d -> (size h < BLOCK_CACHE_SIZE)%nat -> Forall is_u8 buf ->
  0 <= start < end_ -> end_ <= di_size d -> blocks_between start end_ = n ->
  0 <= ws -> ws + (end_ - start) <= Z.of_nat (length buf) ->
  (forall s', cache_ok has s' h ->
     file_written has d start (take (Z.to_nat (end_ - start)) (drop (Z.to_nat ws) buf)) (view s) (view s') ->
     Q (ws + (end_ - start)) s') ->
  wp (write_at_loop n d 0 start end_ (start / 512) ws buf) Q s.
Proof.
  induction n as [|n IH]; intros s h start end_ ws buf Q Hok Hd Hsize Hu8 Hse Hend Hn Hws Hbuf HQ.
  { unfold blocks_between, BLOCK_SZ in Hn. zdm. }
  cbn [write_at_loop]. unfold BLOCK_SZ. set (ecb := Z.min _ end_).
  destruct (block_end start end_ ecb) as (Hecb & Hpart & Hor); [done..|]. clearbody ecb.
  apply wp_bind_assoc, wp_bind. apply (wp_write_part s h); [done..|lia|lia|done|done|lia|].
  intros s1 Hok1 Hw1. destruct (Z.eqb_spec ecb end_) as [He|Hne].
  { apply wp_ret. rewrite He in *. by apply HQ. }
  destruct Hor as [?|Hor]; [done|]. replace (start / 512 + 1) with (ecb / 512) by zdm.
  apply (IH s1 h); [done|by eapply inode_ok_written|done|done|zdm|done| |lia|lia|].
  - unfold blocks_between, BLOCK_SZ in *. zdm.
  - intros s' Hok' Hw'. replace (ws + (ecb - start) + (end_ - ecb)) with (ws + (end_ - start)) by lia.
    apply HQ; [done|]. rewrite (take_drop_split buf _ (Z.to_nat (ecb - start))) by lia.
    eapply file_written_app; [done..|]. rewrite length_take, length_drop.
    replace (start + Z.of_nat _) with ecb by lia.
    replace (Z.to_nat (end_ - start) - Z.to_nat (ecb - start))%nat with (Z.to_nat (end_ - ecb)) by lia.
    by replace (Z.to_nat ws + Z.to_nat (ecb - start))%nat with (Z.to_nat (ws + (ecb - start))) by lia.
Qed.

Lemma wp_write_at s h d off buf Q :
  cache_ok has s h -> inode_ok has h (view s) d -> (size h < BLOCK_CACHE_SIZE)%nat ->
  Forall is_u8 buf -> buf <> [] -> 0 <= off < di_size d -> off + Z.of_nat (length buf) < 2 ^ 64 ->
  let n := Z.min (off + Z.of_nat (length buf)) (di_size d) - off in
  (forall s', cache_ok has s' h -> file_written has d off (take (Z.to_nat n) buf) (view s) (view s') -> Q n s') ->
  wp (write_at d off buf 0) Q s.
Proof.
  intros Hok Hd Hsize Hu8 Hne Hoff Hlen n HQ. unfold write_at. rewrite wrap64_small by lia.
  assert (0 < Z.of_nat (length buf)) by (destruct buf; cbn; [done|lia]).
  wp_step. apply wp_assert; [apply Z.leb_le; lia|].
  set (end_ := Z.min (off + Z.of_nat (length buf)) (di_size d)) in *.
  replace (Nat.max 1 (blocks_between off end_)) with (blocks_between off end_)
    by (unfold blocks_between, BLOCK_SZ; zdm).
  apply (wp_write_at_loop d _ s h); [done..|lia|lia|done|lia|lia|]. intros s' Hok' Hw'. by apply HQ.
Qed.

(** What was written is read back. *)
Lemma file_bytes_written d p src k k' :
  file_written has d p src k k' -> 0 <= p -> p + Z.of_nat (length src) <= data_blocks d * 512 ->
  file_bytes k' d p (Z.of_nat (length src)) = src.
Proof.
  intros Hw Hp Hle. apply list_eq. intros i. unfold file_bytes. change (map ?f ?l) with (f <$> l).
  rewrite list_lookup_fmap. destruct (decide (i < length src)%nat) as [Hi|Hi].
  - rewrite lookup_seqZ_lt by lia. cbn. rewrite (fw_bytes _ _ _ _ _ _ Hw) by lia.
    rewrite (proj2 (Z.leb_le _ _)), (proj2 (Z.ltb_lt _ _)) by lia. cbn [andb].
    rewrite (lookup_nth src i 0) by done. do 2 f_equal. lia.
  - rewrite lookup_seqZ_ge by lia. by rewrite lookup_ge_None_2 by lia.
Qed.

(** [DiskInode::read_at] returns the number of bytes between the offset and the end
    of the buffer or of the file, puts exactly these bytes of the file at the start of
    the buffer and leaves the rest of the buffer as it was; the disk does not change. *)
Theorem read_at_correct s h d off buf :
  cache_ok has s h -> inode_ok has h (view s) d -> (size h < BLOCK_CACHE_SIZE)%nat ->
  0 <= off -> off + Z.of_nat (length buf) < 2 ^ 64 ->
  wp (read_at d off buf 0) (fun r s' =>
    r = (transfer_len d off buf, file_bytes (view s) d off (transfer_len d off buf) ++
           drop (Z.to_nat (transfer_len d off buf)) buf) /\
    cache_ok has s' h /\ forall j, has j -> view s' j = view s j) s.
Proof. intros Hok Hd Hsize Hoff Hlen. by apply (wp_read_at s h). Qed.

(** [DiskInode::write_at] of a non-empty buffer inside the file writes as many bytes
    as fit before the end of the file: the bytes of the file at these positions are those
    of the buffer, every other byte of the file and every block that is not a data block
    of the file is unchanged, and reading the same range afterwards returns the bytes
    that were written. *)
Theorem write_at_correct s h d off buf :
  cache_ok has s h -> inode_ok has h (view s) d -> (size h < BLOCK_CACHE_SIZE)%nat ->
  Forall is_u8 buf -> buf <> [] -> 0 <= off < di_size d -> off + Z.of_nat (length buf) < 2 ^ 64 ->
  wp (let* w := write_at d off buf 0 in
      let* r := read_at d off (replicate (Z.to_nat (transfer_len d off buf)) 0) 0 in
      ret (w, r)) (fun r s' =>
    r = (transfer_len d off buf, (transfer_len d off buf, take (Z.to_nat (transfer_len d off buf)) buf)) /\ cache_ok has s' h /\ inode_ok has h (view s') d /\
    file_written has d off (take (Z.to_nat (transfer_len d off buf)) buf) (view s) (view s')) s.
Proof.
  intros Hok Hd Hsize Hu8 Hne Hoff Hlen. set (n := transfer_len d off buf).
  assert (Hn : 0 < n /\ n <= Z.of_nat (length buf) /\ off + n <= di_size d)
    by (unfold n, transfer_len; destruct buf; cbn in *; [done|lia]).
  assert (Hltake : Z.of_nat (length (take (Z.to_nat n) buf)) = n) by (rewrite length_take; lia).
  wp_step. apply (wp_write_at s h); [done..|]. replace (Z.min _ _ - off) with n by (unfold n, transfer_len in *; lia). intros s1 Hok1 Hw1.
  pose proof (inode_ok_written _ _ _ _ _ _ Hd Hw1) as Hd1.
  wp_step. apply (wp_read_at s1 h); [done..|lia|rewrite length_replicate; lia|]. intros s2 Hok2 Hv2. wp_step.
  rewrite length_replicate. replace (Z.max 0 _) with n by lia. rewrite drop_ge, app_nil_r by (rewrite length_replicate; lia).
  split_and!; [|done|by eapply inode_ok_view|].
  - do 2 f_equal. rewrite <-Hltake at 1. eapply file_bytes_written; [done|lia|].
    unfold data_blocks. rewrite data_blocks_ceil by apply Hd. rewrite Hltake. zdm.
  - destruct Hw1 as [Hb Hf]. split.
    + intros q Hq. rewrite <-Hb by done. unfold file_byte.
      assert (Hqi : 0 <= q / 512 < data_blocks d) by zdm.
      rewrite (block_of_same (view s1) (view s2)) by (done || intros id []%Hd1; by apply Hv2).
      by rewrite Hv2 by (apply (io_data _ _ _ _ Hd1 _ Hqi)).
    + intros id Hid Hnb. rewrite Hv2 by done. by apply Hf.
Qed.

End Rules.

(** ** An inode of three blocks in the image of twenty blocks *)

Definition demo_inode : DiskInode := mk_inode 1500 ([5; 3; 4] ++ replicate 25 0) 0 0 0 [0; 0; 0].

Lemma demo_inode_ok : inode_ok demo_has ∅ (view demo_image) demo_inode.
Proof.
  assert (Hdb : data_blocks demo_inode = 3) by reflexivity.
  assert (Hb : forall i, 0 <= i < 3 -> i = 0 \/ i = 1 \/ i = 2) by lia.
  assert (Hno : forall k id, ~ is_indirect k demo_inode id).
  { intros k id. unfold is_indirect. rewrite Hdb. intros [[? _]|[[? _]|(i & ? & _)]]; lia. }
  split; rewrite ?Hdb.
  - cbn. lia.
  - done.
  - intros id Hid. by apply Hno in Hid.
  - intros i Hi. split; [|apply lookup_empty]. unfold demo_has. destruct (Hb i Hi) as [->|[->| ->]]; vm_compute; by split.
  - intros i j Hi Hj. destruct (Hb i Hi) as [->|[->| ->]], (Hb j Hj) as [->|[->| ->]]; vm_compute; done.
  - intros i Hi. apply Hno.
Qed.

Lemma read_at_correct_witness :
  wp (read_at demo_inode 1490 (replicate 20 9) 0)
    (fun r s' => r = (10, replicate 10 0 ++ replicate 10 9)) demo_image.
Proof.
  eapply wp_mono; [|refine (read_at_correct demo_has demo_image ∅ demo_inode 1490 (replicate 20 9)
    (proj1 demo_image_stands_for) demo_inode_ok no_holds _ _)].
  - intros r s' (-> & _). vm_compute. reflexivity.
  - lia.
  - cbn. lia.
Defined.

Lemma write_at_correct_witness :
  wp (let* w := write_at demo_inode 510 [1; 2; 3; 4] 0 in
      let* r := read_at demo_inode 510 (replicate 4 0) 0 in
      ret (w, r))
    (fun r s' => r = (4, (4, [1; 2; 3; 4])) /\ file_byte (view s') demo_inode 512 = 3) demo_image.
Proof.
  eapply wp_mono; [|refine (write_at_correct demo_has demo_image ∅ demo_inode 510 [1; 2; 3; 4]
    (proj1 demo_image_stands_for) demo_inode_ok no_holds _ _ _ _)].
  - intros r s' (-> & _ & _ & Hw). split; [vm_compute; reflexivity|].
    rewrite (fw_bytes _ _ _ _ _ _ Hw); [vm_compute; reflexivity|].
    change (data_blocks demo_inode) with 3. lia.
  - repeat constructor; lia.
  - done.
  - cbn. lia.
  - cbn. lia.
Defined.
