(* ===== verification/InodeBlocks.v ===== *)
(** * The blocks an inode owns

    [owned] lists the blocks of an inode in the order in which [increase_size] takes them
    and [clear_size] returns them: the data blocks, each block of block numbers before the
    first block it leads to.  [inode_wf] says that they are usable and differ; the block
    map of [InodeSpec] reads off the same list. *)

From S2P Require Import Prelude Codec BlockCache BlockCacheSpec BlockFile DiskSpec DiskLayout InodeSpec.

(** ** The blocks below [indirect2] *)

(** Data block [j] below the words [ws] of [indirect2], after the block that holds its
    number if it is the first there. *)
Definition trail_at (ws : list Z) (k : disk) (j : Z) : list Z :=
  (if j mod 128 =? 0 then [nth (Z.to_nat (j / 128)) ws 0] else []) ++
  [word_at k (nth (Z.to_nat (j / 128)) ws 0) (j mod 128)].
Definition trail (ws : list Z) (k : disk) (n : Z) : list Z := concat (map (trail_at ws k) (seqZ 0 n)).

(** The number of blocks in a trail of [n] data blocks. *)
Definition trail_len (n : Z) : Z := n + (n + 127) / 128.

Lemma trail_len_succ c : 0 <= c -> trail_len (c + 1) - trail_len c = if c mod 128 =? 0 then 2 else 1.
Proof. intros Hc. unfold trail_len. destruct (Z.eqb_spec (c mod 128) 0); zdm. Qed.
Lemma trail_len_mono c t : 0 <= c <= t -> trail_len c <= trail_len t.
Proof. intros Hc. unfold trail_len. zdm. Qed.

Lemma trail_succ ws k n : 0 <= n -> trail ws k (n + 1) = trail ws k n ++ trail_at ws k n.
Proof.
  intros Hn. unfold trail. rewrite seqZ_app by lia. rewrite map_app, concat_app, Z.add_0_l.
  rewrite (seqZ_cons n 1) by lia. change (seqZ (Z.succ n) (Z.pred 1)) with (@nil Z). cbn [map concat].
  by rewrite app_nil_r.
Qed.

Lemma trail_split ws k n m :
  0 <= n <= m -> trail ws k m = trail ws k n ++ concat (map (trail_at ws k) (seqZ n (m - n))).
Proof.
  intros Hn. unfold trail. replace m with (n + (m - n)) at 1 by lia. rewrite seqZ_app by lia.
  by rewrite map_app, concat_app, Z.add_0_l.
Qed.

Lemma length_trail_at ws k j : length (trail_at ws k j) = if j mod 128 =? 0 then 2%nat else 1%nat.
Proof. unfold trail_at. by destruct (j mod 128 =? 0). Qed.

Lemma length_trail ws k n : 0 <= n -> Z.of_nat (length (trail ws k n)) = trail_len n.
Proof.
  intros Hn. pattern n. apply natlike_ind; [done| |done]. clear n Hn. intros n Hn IH.
  rewrite <-Z.add_1_r, trail_succ, length_app, length_trail_at, Nat2Z.inj_add, IH by done. unfold trail_len.
  destruct (Z.eqb_spec (n mod 128) 0); zdm.
Qed.

(** The words that lead to the first [n] data blocks are in the trail. *)
Lemma trail_word ws k n a : 0 <= a -> a * 128 < n -> nth (Z.to_nat a) ws 0 ∈ trail ws k n.
Proof.
  intros Ha Hn. rewrite (trail_split ws k (a * 128 + 1)) by lia. apply elem_of_app. left.
  rewrite trail_succ by lia. apply elem_of_app. right. unfold trail_at.
  replace ((a * 128) mod 128 =? 0) with true by (symmetry; apply Z.eqb_eq; zdm).
  replace (a * 128 / 128) with a by zdm. by left.
Qed.

Lemma trail_data ws k n j : 0 <= j < n -> word_at k (nth (Z.to_nat (j / 128)) ws 0) (j mod 128) ∈ trail ws k n.
Proof.
  intros Hj. rewrite (trail_split ws k (j + 1)) by lia. apply elem_of_app. left.
  rewrite trail_succ by lia. apply elem_of_app. right. unfold trail_at. apply elem_of_app. right. by left.
Qed.

(** The words of a trail without repetition differ. *)
Lemma trail_words_ne ws k n a b :
  NoDup (trail ws k n) -> 0 <= a < b -> b * 128 < n -> nth (Z.to_nat a) ws 0 <> nth (Z.to_nat b) ws 0.
Proof.
  intros Hnd Ha Hb He. rewrite (trail_split ws k (b * 128)) in Hnd by lia.
  apply NoDup_app in Hnd as (_ & Hd & _). apply (Hd (nth (Z.to_nat a) ws 0)); [apply trail_word; lia|].
  rewrite He. rewrite (seqZ_cons (b * 128)) by lia. cbn [map concat]. apply elem_of_app. left. unfold trail_at.
  replace ((b * 128) mod 128 =? 0) with true by (symmetry; apply Z.eqb_eq; zdm).
  replace (b * 128 / 128) with b by zdm. by left.
Qed.

Lemma trail_ext ws ws' k k' n :
  (forall j, 0 <= j < n -> trail_at ws' k' j = trail_at ws k j) -> trail ws' k' n = trail ws k n.
Proof.
  intros He. unfold trail. f_equal. apply map_ext_in. intros j Hj. apply He.
  apply list_elem_of_In, elem_of_seqZ in Hj. lia.
Qed.

(** The trail depends on the blocks of block numbers in it. *)
Lemma trail_view ws k k' n :
  (forall a, 0 <= a -> a * 128 < n -> k' (nth (Z.to_nat a) ws 0) = k (nth (Z.to_nat a) ws 0)) -> trail ws k' n = trail ws k n.
Proof.
  intros Hk. apply trail_ext. intros j Hj. unfold trail_at, word_at. by rewrite Hk by zdm.
Qed.

(** The position of data block [j] in the trail, and of block [a] of block numbers. *)
Lemma trail_lookup_data ws k n j :
  0 <= j < n ->
  trail ws k n !! Z.to_nat (trail_len (j + 1) - 1) = Some (word_at k (nth (Z.to_nat (j / 128)) ws 0) (j mod 128)).
Proof.
  intros Hj. pose proof (length_trail ws k j ltac:(lia)) as Hl. pose proof (length_trail ws k (j + 1) ltac:(lia)) as Hl1.
  pose proof (trail_len_succ j ltac:(lia)) as Hs. pose proof (trail_len_mono 0 j ltac:(lia)) as H0. change (trail_len 0) with 0 in H0.
  rewrite (trail_split ws k (j + 1)) by lia. rewrite lookup_app_l by (destruct (j mod 128 =? 0); lia).
  rewrite trail_succ in Hl1 |- * by lia. rewrite length_app, length_trail_at in Hl1. unfold trail_at.
  rewrite app_assoc. rewrite lookup_app_r by (rewrite length_app; destruct (j mod 128 =? 0); cbn [length]; lia).
  apply list_lookup_singleton_Some. split; [|done]. rewrite length_app. destruct (j mod 128 =? 0); cbn [length]; lia.
Qed.

Lemma trail_lookup_word ws k n a :
  0 <= a -> a * 128 < n -> trail ws k n !! Z.to_nat (a * 129) = Some (nth (Z.to_nat a) ws 0).
Proof.
  intros Ha Hn. pose proof (length_trail ws k (a * 128) ltac:(lia)) as Hl. unfold trail_len in Hl.
  rewrite (trail_split ws k (a * 128)) by lia. rewrite lookup_app_r by zdm.
  rewrite (seqZ_cons (a * 128)) by lia. cbn [map concat]. unfold trail_at at 1.
  replace ((a * 128) mod 128 =? 0) with true by (symmetry; apply Z.eqb_eq; zdm).
  replace (a * 128 / 128) with a by zdm.
  replace (Z.to_nat (a * 129) - length (trail ws k (a * 128)))%nat with 0%nat by zdm. done.
Qed.

(** ** The blocks of an inode *)

Definition words (k : disk) (id : Z) : list Z := words_dec 4 128 (k id).

(** The blocks from [indirect2] on for [n] data blocks there, those from [indirect1] on,
    and all of them. *)
Definition owned2 (k : disk) (d : DiskInode) (n : Z) : list Z :=
  if 0 <? n then indirect2 d :: trail (words k (indirect2 d)) k n else [].
Definition owned1 (k : disk) (d : DiskInode) (n : Z) : list Z :=
  if 0 <? n then indirect1 d :: take (Z.to_nat (Z.min n 128)) (words k (indirect1 d)) ++ owned2 k d (n - 128) else [].
Definition owned_upto (k : disk) (d : DiskInode) (n : Z) : list Z :=
  take (Z.to_nat (Z.min n 28)) (direct d) ++ owned1 k d (n - 28).
Definition owned (k : disk) (d : DiskInode) : list Z := owned_upto k d (data_blocks d).

Definition owned_len (n : Z) : Z :=
  n + (if 28 <? n then 1 else 0) + (if 156 <? n then 1 + (n - 156 + 127) / 128 else 0).

Lemma owned_len_mono c t : c <= t -> owned_len c <= owned_len t.
Proof.
  intros Hc. unfold owned_len. destruct (Z.ltb_spec 28 t), (Z.ltb_spec 156 t), (Z.ltb_spec 28 c), (Z.ltb_spec 156 c); zdm.
Qed.

Lemma length_words k id : length (words k id) = 128%nat.
Proof. apply length_words_dec. Qed.
#[export] Hint Rewrite length_words : lens.

Lemma length_owned2 k d n : Z.of_nat (length (owned2 k d n)) = if 0 <? n then 1 + trail_len n else 0.
Proof.
  unfold owned2. destruct (Z.ltb_spec 0 n); [|done]. cbn [length].
  rewrite Nat2Z.inj_succ, length_trail by lia. lia.
Qed.

Lemma length_owned1 k d n :
  Z.of_nat (length (owned1 k d n)) = if 0 <? n then 1 + Z.min n 128 + (if 128 <? n then 1 + trail_len (n - 128) else 0) else 0.
Proof.
  unfold owned1. destruct (Z.ltb_spec 0 n); [|done]. cbn [length].
  rewrite Nat2Z.inj_succ, length_app, length_take, length_words, Nat2Z.inj_add, length_owned2.
  destruct (Z.ltb_spec 0 (n - 128)), (Z.ltb_spec 128 n); lia.
Qed.

Lemma length_owned_upto k d n :
  length (direct d) = 28%nat -> 0 <= n -> Z.of_nat (length (owned_upto k d n)) = owned_len n.
Proof.
  intros Hd Hn. unfold owned_upto, owned_len. rewrite length_app, length_take, Hd, Nat2Z.inj_add, length_owned1.
  destruct (Z.ltb_spec 0 (n - 28)), (Z.ltb_spec 28 n), (Z.ltb_spec 128 (n - 28)), (Z.ltb_spec 156 n); try lia.
  unfold trail_len. replace (n - 28 - 128) with (n - 156) by lia. lia.
Qed.

(** [total_blocks] counts the owned blocks. *)
Lemma total_blocks_len size : 0 <= size <= 16540 * 512 -> total_blocks size = owned_len (data_blocks_of size).
Proof.
  intros Hs. unfold total_blocks. rewrite data_blocks_ceil by done. set (n := (size + 511) / 512).
  assert (Hn : 0 <= n <= 16540) by (subst n; zdm).
  change INODE_DIRECT_COUNT with 28. change INDIRECT1_BOUND with 156. change INODE_INDIRECT1_COUNT with 128.
  unfold owned_len. destruct (Z.ltb_spec 28 n), (Z.ltb_spec 156 n); rewrite wrap32_small; zdm.
Qed.

(** A block of block numbers and the first [b] numbers in it. *)
Lemma trail_block ws k a b :
  0 <= a -> 0 < b <= 128 ->
  trail ws k (a * 128 + b) =
    trail ws k (a * 128) ++ nth (Z.to_nat a) ws 0 :: take (Z.to_nat b) (words k (nth (Z.to_nat a) ws 0)).
Proof.
  intros Ha Hb. set (x := nth (Z.to_nat a) ws 0).
  assert (Hsucc : forall b, 0 <= b < 128 -> take (Z.to_nat (b + 1)) (words k x) = take (Z.to_nat b) (words k x) ++ [word_at k x b]).
  { intros c Hc. replace (Z.to_nat (c + 1)) with (S (Z.to_nat c)) by lia. apply take_S_r, lookup_nth.
    rewrite length_words_dec. lia. }
  replace b with (b - 1 + 1) by lia. assert (Hb1 : 0 <= b - 1) by lia. assert (Hb2 : b - 1 < 128) by lia. revert Hb2.
  clear Hb. pattern (b - 1). apply natlike_ind; [| |done]; clear b Hb1.
  - intros _. rewrite Z.add_assoc, Z.add_0_r, trail_succ, Hsucc by lia. f_equal. unfold trail_at.
    replace ((a * 128) mod 128 =? 0) with true by (symmetry; apply Z.eqb_eq; zdm).
    replace (a * 128 / 128) with a by zdm. replace ((a * 128) mod 128) with 0 by zdm. done.
  - intros b Hb IH Hb2. rewrite Z.add_assoc, trail_succ, <-Z.add_1_r, IH by lia.
    rewrite (Hsucc (b + 1)) by lia. rewrite <-app_assoc. do 2 f_equal. unfold trail_at.
    replace ((a * 128 + (b + 1)) mod 128 =? 0) with false by (symmetry; apply Z.eqb_neq; zdm).
    replace ((a * 128 + (b + 1)) / 128) with a by zdm. by replace ((a * 128 + (b + 1)) mod 128) with (b + 1) by zdm.
Qed.

(** The blocks of block numbers among them. *)
Definition number_block2 (k : disk) (d : DiskInode) (n id : Z) : Prop :=
  id = indirect2 d \/ exists a, 0 <= a /\ a * 128 < n /\ id = nth (Z.to_nat a) (words k (indirect2 d)) 0.
Definition number_block1 (k : disk) (d : DiskInode) (n id : Z) : Prop :=
  id = indirect1 d \/ (128 < n /\ number_block2 k d (n - 128) id).

Lemma number_block2_owned k d n id : 0 < n -> number_block2 k d n id -> id ∈ owned2 k d n.
Proof.
  intros Hn Hid. unfold owned2. rewrite (proj2 (Z.ltb_lt _ _)) by done.
  destruct Hid as [->|(a & Ha & Han & ->)]; [by left|]. right. by apply trail_word.
Qed.

Lemma owned2_nil k d n : n <= 0 -> owned2 k d n = [].
Proof. intros Hn. unfold owned2. by rewrite (proj2 (Z.ltb_ge _ _)). Qed.

Lemma owned1_nil k d n : n <= 0 -> owned1 k d n = [].
Proof. intros Hn. unfold owned1. by rewrite (proj2 (Z.ltb_ge _ _)). Qed.

Lemma owned2_view k k' d n : (forall id, number_block2 k d n id -> k' id = k id) -> owned2 k' d n = owned2 k d n.
Proof.
  intros Hk. unfold owned2. destruct (0 <? n); [|done]. f_equal. unfold words at 1.
  rewrite Hk by (by left). apply trail_view. intros a Ha Han. apply Hk. right. by exists a.
Qed.

Lemma number_block1_indirect k d id :
  28 < data_blocks d -> number_block1 k d (data_blocks d - 28) id -> is_indirect k d id.
Proof.
  intros Hn [->|[Hn' [->|(a & Ha & Han & ->)]]].
  - left. done.
  - right. left. split; [lia|done].
  - right. right. exists (156 + a * 128). split; [lia|]. unfold sub_indirect, word_at.
    by replace ((156 + a * 128 - 156) / 128) with a by zdm.
Qed.

(** ** Positions *)

Section Positions.
Context (k : disk) (d : DiskInode) (n : Z) (Hdir : length (direct d) = 28%nat).

Lemma owned_lookup_direct i : 0 <= i < Z.min n 28 -> owned_upto k d n !! Z.to_nat i = Some (nth (Z.to_nat i) (direct d) 0).
Proof.
  intros Hi. unfold owned_upto. rewrite lookup_app_l by (rewrite length_take; lia).
  rewrite lookup_take_lt by lia. apply lookup_nth. lia.
Qed.

Lemma owned_lookup1 m : 28 < n -> owned_upto k d n !! (28 + m)%nat = owned1 k d (n - 28) !! m.
Proof.
  intros Hn. unfold owned_upto. rewrite lookup_app_r by (rewrite length_take; lia).
  f_equal. rewrite length_take. lia.
Qed.

Lemma owned_lookup2 m : 156 < n -> owned_upto k d n !! (157 + m)%nat = owned2 k d (n - 156) !! m.
Proof.
  intros Hn. change (157 + m)%nat with (28 + S (128 + m))%nat. rewrite owned_lookup1 by lia.
  unfold owned1. rewrite (proj2 (Z.ltb_lt _ _)) by lia. change ((?x :: ?l) !! S ?m) with (l !! m).
  replace (n - 28 - 128) with (n - 156) by lia.
  rewrite lookup_app_r by (rewrite length_take, length_words; lia). f_equal. rewrite length_take, length_words. lia.
Qed.

Lemma owned_lookup_indirect1 : 28 < n -> owned_upto k d n !! 28%nat = Some (indirect1 d).
Proof.
  intros Hn. change 28%nat with (28 + 0)%nat. rewrite owned_lookup1 by done. unfold owned1.
  by rewrite (proj2 (Z.ltb_lt _ _)) by lia.
Qed.

Lemma owned_lookup_indirect2 : 156 < n -> owned_upto k d n !! 157%nat = Some (indirect2 d).
Proof.
  intros Hn. change 157%nat with (157 + 0)%nat. rewrite owned_lookup2 by done. unfold owned2.
  by rewrite (proj2 (Z.ltb_lt _ _)) by lia.
Qed.

Lemma owned_lookup_sub i :
  156 <= i < n -> owned_upto k d n !! Z.to_nat (158 + (i - 156) / 128 * 129) = Some (sub_indirect k d i).
Proof.
  intros Hi. replace (Z.to_nat _) with (157 + S (Z.to_nat ((i - 156) / 128 * 129)))%nat by zdm.
  rewrite owned_lookup2 by lia. unfold owned2. rewrite (proj2 (Z.ltb_lt _ _)) by lia. change ((?x :: ?l) !! S ?m) with (l !! m).
  rewrite trail_lookup_word by zdm. done.
Qed.

Lemma owned_lookup_data i :
  0 <= i < n -> owned_upto k d n !! Z.to_nat (owned_len (i + 1) - 1) = Some (block_of k d i).
Proof.
  intros Hi. unfold block_of, owned_len. destruct (Z.ltb_spec i 28).
  { rewrite !(proj2 (Z.ltb_ge _ _)) by lia. replace (i + 1 + 0 + 0 - 1) with i by lia. apply owned_lookup_direct. lia. }
  rewrite (proj2 (Z.ltb_lt 28 _)) by lia. destruct (Z.ltb_spec i 156).
  - rewrite (proj2 (Z.ltb_ge _ _)) by lia.
    replace (Z.to_nat _) with (28 + S (Z.to_nat (i - 28)))%nat by lia. rewrite owned_lookup1 by lia.
    unfold owned1. rewrite (proj2 (Z.ltb_lt _ _)) by lia. change ((?x :: ?l) !! S ?m) with (l !! m).
    rewrite lookup_app_l by (rewrite length_take, length_words; lia). rewrite lookup_take_lt by lia.
    apply lookup_nth. rewrite length_words_dec. lia.
  - rewrite (proj2 (Z.ltb_lt 156 _)) by lia.
    replace (Z.to_nat _) with (157 + S (Z.to_nat (trail_len (i - 156 + 1) - 1)))%nat by (unfold trail_len; zdm).
    rewrite owned_lookup2 by lia. unfold owned2. rewrite (proj2 (Z.ltb_lt _ _)) by lia. change ((?x :: ?l) !! S ?m) with (l !! m).
    rewrite trail_lookup_data by lia. done.
Qed.

Lemma owned_of_indirect id :
  (28 < n /\ id = indirect1 d) \/ (156 < n /\ id = indirect2 d) \/ (exists i, 156 <= i < n /\ id = sub_indirect k d i) ->
  exists q, owned_upto k d n !! q = Some id /\ forall i, 0 <= i -> q <> Z.to_nat (owned_len (i + 1) - 1).
Proof.
  intros [[Hn ->]|[[Hn ->]|(j & Hj & ->)]].
  - exists 28%nat. split; [by apply owned_lookup_indirect1|]. intros i Hi. unfold owned_len.
    destruct (Z.ltb_spec 28 (i + 1)), (Z.ltb_spec 156 (i + 1)); zdm.
  - exists 157%nat. split; [by apply owned_lookup_indirect2|]. intros i Hi. unfold owned_len.
    destruct (Z.ltb_spec 28 (i + 1)), (Z.ltb_spec 156 (i + 1)); zdm.
  - exists (Z.to_nat (158 + (j - 156) / 128 * 129)). split; [by apply owned_lookup_sub|]. intros i Hi. unfold owned_len.
    destruct (Z.ltb_spec 28 (i + 1)), (Z.ltb_spec 156 (i + 1)); zdm.
Qed.

End Positions.

(** ** Well-formed inodes *)

Record inode_wf (has : Z -> Prop) (h : gmap Z hold) (k : disk) (d : DiskInode) : Prop := {
  iw_size : 0 <= di_size d <= 16540 * 512;
  iw_valid : valid_value d;
  iw_nodup : NoDup (owned k d);
  iw_usable id : id ∈ owned k d -> has id /\ h !! id = None
}.

Lemma iw_direct has h k d : inode_wf has h k d -> length (direct d) = 28%nat.
Proof. intros Hd. apply Hd. Qed.

Lemma owned_len_inj i j : 0 <= i -> 0 <= j -> owned_len (i + 1) = owned_len (j + 1) -> i = j.
Proof.
  intros Hi Hj. unfold owned_len.
  destruct (Z.ltb_spec 28 (i + 1)), (Z.ltb_spec 156 (i + 1)), (Z.ltb_spec 28 (j + 1)), (Z.ltb_spec 156 (j + 1)); zdm.
Qed.

Lemma owned_len_pos i : 0 <= i -> 0 < owned_len (i + 1).
Proof. intros Hi. unfold owned_len. destruct (Z.ltb_spec 28 (i + 1)), (Z.ltb_spec 156 (i + 1)); zdm. Qed.

(** A well-formed inode is one that [read_at] and [write_at] can use. *)
Lemma inode_wf_ok has h k d : inode_wf has h k d -> inode_ok has h k d.
Proof.
  intros Hwf. pose proof (iw_direct _ _ _ _ Hwf) as Hd. destruct Hwf as [Hs _ Hnd Hu]. split; try done.
  - intros id Hid. apply Hu. destruct (owned_of_indirect k d (data_blocks d) Hd id Hid) as (q & Hq & _).
    by apply list_elem_of_lookup_2 in Hq.
  - intros i Hi. apply Hu. eapply list_elem_of_lookup_2, owned_lookup_data; done.
  - intros i j Hi Hj He. apply owned_len_inj; [lia..|].
    pose proof (owned_len_pos i ltac:(lia)). pose proof (owned_len_pos j ltac:(lia)).
    pose proof (owned_lookup_data k d _ Hd i Hi) as Hpi. pose proof (owned_lookup_data k d _ Hd j Hj) as Hpj.
    rewrite He in Hpi. pose proof (NoDup_lookup _ _ _ _ Hnd Hpi Hpj). lia.
  - intros i Hi Hid. destruct (owned_of_indirect k d (data_blocks d) Hd _ Hid) as (q & Hq & Hne).
    apply (Hne i); [lia|]. eapply NoDup_lookup; [exact Hnd|exact Hq|]. by apply owned_lookup_data.
Qed.

(** When the owned blocks only grow at the end, the block map stays. *)
Lemma block_of_prefix k k' d d' n n' nb i :
  length (direct d) = 28%nat -> length (direct d') = 28%nat ->
  owned_upto k' d' n' = owned_upto k d n ++ nb -> 0 <= i < n -> n <= n' -> block_of k' d' i = block_of k d i.
Proof.
  intros Hd Hd' He Hi Hn. pose proof (owned_lookup_data k d n Hd i Hi) as Hp.
  pose proof (owned_lookup_data k' d' n' Hd' i ltac:(lia)) as Hp'. rewrite He in Hp'.
  rewrite (lookup_app_l_Some _ _ _ _ Hp) in Hp'. congruence.
Qed.

(** The data blocks after the old ones are among the new blocks. *)
Lemma block_of_suffix k k' d d' n n' nb i :
  length (direct d) = 28%nat -> length (direct d') = 28%nat ->
  owned_upto k' d' n' = owned_upto k d n ++ nb -> 0 <= n <= i -> i < n' -> block_of k' d' i ∈ nb.
Proof.
  intros Hd Hd' He Hn Hi. pose proof (owned_lookup_data k' d' n' Hd' i ltac:(lia)) as Hp. rewrite He in Hp.
  pose proof (length_owned_upto k d n Hd ltac:(lia)) as Hl.
  assert (Hlen : owned_len n + 1 <= owned_len (i + 1)).
  { pose proof (owned_len_mono n i ltac:(lia)). unfold owned_len in *.
    destruct (Z.ltb_spec 28 (i + 1)), (Z.ltb_spec 156 (i + 1)), (Z.ltb_spec 28 i), (Z.ltb_spec 156 i); zdm. }
  rewrite lookup_app_r in Hp by lia. by apply list_elem_of_lookup_2 in Hp.
Qed.
