(* ===== verification/GrowSpec.v ===== *)
(** * Growing and clearing an inode

    [increase_size] appends the new blocks to those that the inode owns and keeps the
    file's bytes; [clear_size] returns the list of owned blocks. *)

From S2P Require Import Prelude Codec BlockCache BlockCacheSpec BlockFile DiskSpec DiskLayout InodeSpec InodeBlocks.

(** ** Filling a block of block numbers *)

Lemma insert_put_bytes (l : list Z) i v : (i < length l)%nat -> <[i := v]> l = put_bytes i [v] l.
Proof. intros Hi. rewrite insert_take_drop by done. unfold put_bytes. cbn [app length]. by rewrite Nat.add_1_r. Qed.

Lemma fill_slots_spec fuel : forall arr cur bound nb,
  0 <= cur -> bound <= Z.of_nat (length arr) -> Z.of_nat (length arr) < 2 ^ 31 ->
  fuel = Z.to_nat (bound - cur) -> (fuel <= length nb)%nat ->
  fill_slots fuel arr cur bound nb = Ok (put_bytes (Z.to_nat cur) (take fuel nb) arr, Z.max cur bound, drop fuel nb).
Proof.
  induction fuel as [|fuel IH]; intros arr cur bound nb Hc Hb Hlen Hf Hnb; cbn [fill_slots].
  - rewrite (proj2 (Z.ltb_ge _ _)) by lia. change (take 0 nb) with (@nil Z).
    unfold put_bytes. rewrite app_nil_l, Nat.add_0_r, take_drop.
    replace (Z.max cur bound) with cur by lia. done.
  - rewrite (proj2 (Z.ltb_lt _ _)) by lia. destruct nb as [|b nb]; cbn in Hnb; [lia|]. cbn [next_unwrap].
    unfold set_index. rewrite (proj2 (Z.ltb_lt _ _)) by lia. rewrite wrap32_small by lia.
    rewrite IH by (rewrite ?length_insert; lia). cbn [take drop].
    replace (Z.max (cur + 1) bound) with (Z.max cur bound) by lia. do 3 f_equal.
    rewrite insert_put_bytes by lia. replace (Z.to_nat (cur + 1)) with (Z.to_nat cur + length [b])%nat by (cbn; lia).
    rewrite put_bytes_app; [done|]. rewrite length_take. cbn [length]. lia.
Qed.

(** The slots of an array of [m] in use after slots up to [t] were filled from [nb]. *)
Lemma take_filled (arr nb : list Z) m c t :
  length arr = Z.to_nat m -> 0 <= m -> 0 <= c <= t -> (Z.to_nat (Z.min t m - c) <= length nb)%nat ->
  length (put_bytes (Z.to_nat c) (take (Z.to_nat (Z.min t m - c)) nb) arr) = Z.to_nat m /\
  take (Z.to_nat (Z.min t m)) (put_bytes (Z.to_nat c) (take (Z.to_nat (Z.min t m - c)) nb) arr) =
    take (Z.to_nat (Z.min c m)) arr ++ take (Z.to_nat (Z.min t m - c)) nb.
Proof.
  intros Ha Hm Hc Hn. unfold put_bytes. rewrite length_take_le by done.
  destruct (decide (c <= m)) as [Hcm|Hcm].
  - replace (Z.min c m) with c by lia. split.
    + rewrite !length_app, !length_take, length_drop. lia.
    + rewrite app_assoc, take_app_length'; [done|]. rewrite length_app, !length_take. lia.
  - replace (Z.to_nat (Z.min t m - c)) with 0%nat by lia. replace (Z.min t m) with m by lia.
    replace (Z.min c m) with m by lia. rewrite take_0, app_nil_l, Nat.add_0_r, take_drop, app_nil_r. done.
Qed.

(** ** Listing a block of block numbers *)

Lemma push_slots_spec arr m : forall c v,
  0 <= c -> (Z.to_nat c + m <= length arr)%nat ->
  forall n, n = Z.of_nat m -> push_slots arr (seqZ c n) v = Ok (v ++ take m (drop (Z.to_nat c) arr)).
Proof.
  induction m as [|m IH]; intros c v Hc Hl n ->.
  - change (seqZ c (Z.of_nat 0)) with (@nil Z). cbn. by rewrite app_nil_r.
  - rewrite seqZ_cons by lia. cbn [push_slots]. rewrite (index_Ok _ _ 0) by lia.
    rewrite IH by lia. unfold vec_push. rewrite <-app_assoc. do 2 f_equal.
    rewrite (drop_S arr (nth (Z.to_nat c) arr 0) (Z.to_nat c)) by (apply lookup_nth; lia). cbn [take app].
    do 3 f_equal. lia.
Qed.

Lemma drain_slots_spec m : forall arr c v,
  0 <= c -> (Z.to_nat c + m <= length arr)%nat ->
  forall n, n = Z.of_nat m ->
    drain_slots arr (seqZ c n) v = Ok (put_bytes (Z.to_nat c) (replicate m 0) arr, v ++ take m (drop (Z.to_nat c) arr)).
Proof.
  induction m as [|m IH]; intros arr c v Hc Hl n ->.
  - change (seqZ c (Z.of_nat 0)) with (@nil Z). cbn. rewrite app_nil_r. unfold put_bytes. cbn. by rewrite Nat.add_0_r, take_drop.
  - rewrite seqZ_cons by lia. cbn [drain_slots]. rewrite (index_Ok _ _ 0) by lia.
    rewrite IH by (rewrite ?length_insert; lia). unfold vec_push. rewrite <-app_assoc.
    replace (Z.to_nat (Z.succ c)) with (Z.to_nat c + length [0%Z])%nat by (cbn; lia).
    rewrite (insert_put_bytes arr), put_bytes_app by (rewrite ?length_replicate; cbn [length]; lia). f_equal.
    f_equal. f_equal. rewrite <-insert_put_bytes by lia. cbn [length]. rewrite drop_insert_lt by lia.
      rewrite (drop_S arr (nth (Z.to_nat c) arr 0) (Z.to_nat c)) by (apply lookup_nth; lia). cbn [take app]. do 3 f_equal. lia.
Qed.

Lemma nth_insert (l : list Z) i j v d :
  (i < length l)%nat -> nth j (<[i := v]> l) d = if decide (j = i) then v else nth j l d.
Proof.
  intros Hi. rewrite !nth_lookup. case_decide; subst; [by rewrite list_lookup_insert_eq|by rewrite list_lookup_insert_ne].
Qed.

(** The disk after word [b] of block [blk] became [y]. *)
Lemma word_at_put (k k' : disk) blk b y id i :
  0 <= b < 128 -> 0 <= i -> is_u32 y -> length (k blk) = 512%nat -> Forall is_u8 (k blk) ->
  k' blk = words_enc 4 (<[Z.to_nat b := y]> (words_dec 4 128 (k blk))) -> (id <> blk -> k' id = k id) ->
  word_at k' id i = if decide (id = blk /\ i = b) then y else word_at k id i.
Proof.
  intros Hb Hi Hy Hl Hu Hk Hother. unfold word_at. destruct (decide (id = blk)) as [->|Hne].
  - rewrite Hk, words_dec_enc_all.
    + rewrite nth_insert by (rewrite length_words_dec; lia).
      destruct (decide (i = b)) as [->|]; [by rewrite !decide_True|]. rewrite !decide_False by lia. done.
    + by rewrite length_insert, length_words_dec.
    + apply Forall_insert; [|exact Hy]. apply words_dec_range; [done|lia].
  - rewrite Hother, decide_False by tauto. done.
Qed.

(** One more data block: the trail so far stays, and the block is appended. *)
Lemma trail_step ws (k k' : disk) c y :
  0 <= c -> is_u32 y ->
  let blk := nth (Z.to_nat (c / 128)) ws 0 in
  length (k blk) = 512%nat -> Forall is_u8 (k blk) ->
  k' blk = words_enc 4 (<[Z.to_nat (c mod 128) := y]> (words_dec 4 128 (k blk))) ->
  (forall id, id ∈ trail ws k c -> id <> blk -> k' id = k id) ->
  (forall a, 0 <= a < c / 128 -> nth (Z.to_nat a) ws 0 <> blk) ->
  trail ws k' (c + 1) = trail ws k c ++ (if c mod 128 =? 0 then [blk] else []) ++ [y].
Proof.
  intros Hc Hy blk Hl Hu Hk Hother Hne. rewrite trail_succ by done. f_equal.
  - apply trail_ext. intros j Hj. unfold trail_at. f_equal. f_equal.
    assert (Hid : nth (Z.to_nat (j / 128)) ws 0 ∈ trail ws k c) by (apply trail_word; zdm).
    rewrite (word_at_put k k' blk (c mod 128) y) by (try done; try zdm; intros; by apply Hother).
    rewrite decide_False; [done|]. intros [He Hm]. destruct (decide (j / 128 = c / 128)) as [Hd|Hd]; [zdm|].
    by apply (Hne (j / 128)) in He; [|zdm].
  - unfold trail_at. fold blk. f_equal. f_equal.
    rewrite (word_at_put k k' blk (c mod 128) y) by (try done; zdm). by rewrite decide_True.
Qed.

(** The block of block numbers for data block [c]: a new one when [c] is the first there. *)
Lemma pick_indirect ws (k : disk) c nb :
  0 <= c < 16384 -> length ws = 128%nat -> Forall is_u32 ws -> Forall is_u32 nb -> NoDup (trail ws k c ++ nb) ->
  ((if (c mod 128 =? 0)%Z then 2 else 1) <= length nb)%nat ->
  exists ws1 y nb2,
    nb = (if c mod 128 =? 0 then [nth (Z.to_nat (c / 128)) ws1 0%Z] else []) ++ y :: nb2 /\
    (forall S (s : S) Q, Q (ws1, y :: nb2) s ->
       wp (if c mod 128 =? 0 then
             let* (b, nb) := lift (next_unwrap nb) in
             let* ws := lift (set_index ws (c / 128) b) in
             ret (ws, nb)
           else ret (ws, nb)) Q s) /\
    length ws1 = 128%nat /\ Forall is_u32 ws1 /\ trail ws1 k c = trail ws k c /\
    (forall a, 0 <= a -> a * 128 < c -> nth (Z.to_nat a) ws1 0 = nth (Z.to_nat a) ws 0) /\
    (forall a, 0 <= a < c / 128 -> nth (Z.to_nat a) ws1 0 <> nth (Z.to_nat (c / 128)) ws1 0) /\
    nth (Z.to_nat (c / 128)) ws1 0 ∈ trail ws k c ++ nb.
Proof.
  intros Hc Hl Hu Hnb Hnd Hlen. destruct (Z.eqb_spec (c mod 128) 0) as [H0|H0].
  - destruct nb as [|x [|y nb2]]; cbn in Hlen; try lia.
    assert (Hi : (Z.to_nat (c / 128) < length ws)%nat) by zdm.
    assert (Hold : forall a, 0 <= a < c / 128 -> nth (Z.to_nat a) (<[Z.to_nat (c / 128) := x]> ws) 0 = nth (Z.to_nat a) ws 0).
    { intros a Ha. rewrite nth_insert, decide_False by lia. done. }
    assert (Hblk : nth (Z.to_nat (c / 128)) (<[Z.to_nat (c / 128) := x]> ws) 0 = x).
    { rewrite nth_insert, decide_True by lia. done. }
    exists (<[Z.to_nat (c / 128) := x]> ws), y, nb2. rewrite Hblk. split_and!.
    + done.
    + intros S s Q HQ. cbn [next_unwrap]. wp_steps. apply wp_bind. eapply wp_lift.
      { unfold set_index. rewrite (proj2 (Z.ltb_lt _ _)) by zdm. reflexivity. } by wp_steps.
    + by rewrite length_insert.
    + apply Forall_insert; [done|]. by inversion Hnb.
    + apply trail_ext. intros j Hj. unfold trail_at. rewrite !Hold by zdm. done.
    + intros a Ha Hac. apply Hold. zdm.
    + intros a Ha. rewrite Hold by done. intros He. apply NoDup_app in Hnd as (_ & Hd & _).
      apply (Hd x); [rewrite <-He; apply trail_word; zdm|by left].
    + apply elem_of_app. right. by left.
  - destruct nb as [|y nb2]; cbn in Hlen; [lia|]. apply NoDup_app in Hnd as (Hnd & _ & _).
    exists ws, y, nb2. split_and!; try done.
    + intros a Ha. apply (trail_words_ne ws k c); [done|lia|zdm].
    + apply elem_of_app. left. apply trail_word; zdm.
Qed.

Lemma next_position c :
  0 <= c -> (if c mod 128 + 1 =? 128 then (c / 128 + 1, 0) else (c / 128, c mod 128 + 1)) = ((c + 1) / 128, (c + 1) mod 128).
Proof. intros Hc. destruct (Z.eqb_spec (c mod 128 + 1) 128); f_equal; zdm. Qed.

Lemma position_lt c t :
  0 <= c -> 0 <= t -> (c / 128 <? t / 128) || ((c / 128 =? t / 128) && (c mod 128 <? t mod 128)) = (c <? t).
Proof.
  intros Hc Ht. destruct (Z.ltb_spec c t), (Z.ltb_spec (c / 128) (t / 128)), (Z.eqb_spec (c / 128) (t / 128)),
    (Z.ltb_spec (c mod 128) (t mod 128)); cbn; try done; exfalso; zdm.
Qed.

Lemma data_blocks_mono a b : 0 <= a <= b -> b <= 16540 * 512 -> data_blocks_of a <= data_blocks_of b.
Proof. intros Ha Hb. rewrite !data_blocks_ceil by lia. zdm. Qed.

(** The number of new blocks does not wrap. *)
Lemma needed_blocks a b : 0 <= a <= b -> b <= 16540 * 512 -> 0 <= total_blocks b - total_blocks a < 2 ^ 32.
Proof.
  intros Ha Hb. rewrite !total_blocks_len by lia.
  pose proof (owned_len_mono _ _ (data_blocks_mono a b ltac:(lia) ltac:(lia))) as Hm. split; [lia|].
  rewrite !data_blocks_ceil in * by lia. unfold owned_len.
  destruct (Z.ltb_spec 28 ((a + 511) / 512)), (Z.ltb_spec 156 ((a + 511) / 512)),
    (Z.ltb_spec 28 ((b + 511) / 512)), (Z.ltb_spec 156 ((b + 511) / 512)); zdm.
Qed.

(** The inode with new block numbers. *)
Definition regrown (d : DiskInode) (new_size : Z) (arr : list Z) (x y : Z) : DiskInode :=
  set_indirect2 y (set_indirect1 x (set_direct arr (set_size new_size d))).

Lemma valid_parts d :
  valid_value d -> length (direct d) = 28%nat /\ Forall is_u32 (direct d) /\ is_u32 (indirect1 d) /\ is_u32 (indirect2 d).
Proof.
  intros (Hl & Hw & _). unfold inode_words in Hw. apply Forall_cons_1 in Hw as [_ [Hd Hw]%Forall_app].
  by apply Forall_cons_1 in Hw as [? [? _]%Forall_cons_1].
Qed.

Lemma regrown_valid d new_size arr x y :
  valid_value d -> is_u32 new_size -> length arr = 28%nat -> Forall is_u32 arr -> is_u32 x -> is_u32 y ->
  valid_value (regrown d new_size arr x y).
Proof.
  intros (_ & _ & Ht & Hp & Hpu) Hs Hl Ha Hx Hy. split_and!; try done. unfold inode_words. cbn.
  constructor; [done|]. apply Forall_app. split; [done|]. auto using Forall_cons_2, Forall_nil_2.
Qed.

Section Grow.
Context {D : Type} `{BlockDeviceSpec D} (has : Z -> Prop).
Implicit Types s : FsState D.

(** Changing a block of block numbers by a closure that touches nothing else. *)
Lemma wp_modify_words {V} s h id (f : IndirectBlock -> M (FsState D) (V * IndirectBlock)) v ws Q :
  cache_ok has s h -> h !! id = None -> (size h < BLOCK_CACHE_SIZE)%nat -> has id ->
  (forall s1 (R : V * IndirectBlock -> FsState D -> Prop),
     R (v, Array ws) s1 -> wp (f (Array (words_dec 4 128 (view s id)))) R s1) ->
  length ws = 128%nat -> Forall is_u32 ws ->
  (forall s', cache_ok has s' h ->
     (forall j, has j -> view s' j = if decide (j = id) then words_enc 4 ws else view s j) -> Q v s') ->
  wp (modify_cache id 0 0 f) Q s.
Proof.
  intros Hok Hf Hsize Hid Hrun Hl Hu HQ. apply (wp_modify_block has s h); [done..|].
  intros s1 Hok1 Hv1. cbn [from_bytes array_layout]. apply Hrun. split_and!; [done| |].
  - cbn [snd valid_value array_layout elems]. done.
  - intros s3 Hok3 Hv3. apply HQ; [done|]. intros j Hj. rewrite Hv3 by done. case_decide; [done|]. by apply Hv1.
Qed.

(** Storing the number of data block [c] in the block [blk] that leads to it. *)
Lemma wp_store_number s h ws c y nb Q :
  let blk := nth (Z.to_nat (c / 128)) ws 0 in
  cache_ok has s h -> (size h < BLOCK_CACHE_SIZE)%nat -> has blk -> h !! blk = None -> 0 <= c -> is_u32 y ->
  (forall id, id ∈ trail ws (view s) c -> has id) ->
  (forall a, 0 <= a < c / 128 -> nth (Z.to_nat a) ws 0 <> blk) ->
  (forall s', cache_ok has s' h ->
     trail ws (view s') (c + 1) = trail ws (view s) c ++ (if c mod 128 =? 0 then [blk] else []) ++ [y] ->
     (forall id, has id -> id <> blk -> view s' id = view s id) -> Q nb s') ->
  wp (modify_cache blk 0 0 (fun b : IndirectBlock =>
    let* (x, nb) := lift (next_unwrap (y :: nb)) in
    let* ws1 := lift (set_index (elems b) (c mod 128) x) in
    ret (nb, Array ws1))) Q s.
Proof.
  intros blk Hok Hsize Hblk Hfree Hc Hy Hhas Hne HQ. destruct (view_ok has s h blk Hok Hblk) as [Hl Hu].
  assert (Hlw : length (words_dec 4 128 (view s blk)) = 128%nat) by apply length_words_dec.
  apply (wp_modify_words s h blk _ nb (<[Z.to_nat (c mod 128) := y]> (words_dec 4 128 (view s blk)))); try done.
  - intros s1 R HR. cbn [next_unwrap elems]. wp_step. eapply wp_lift; [done|]. cbn beta iota. wp_step. eapply wp_lift.
    { unfold set_index. rewrite (proj2 (Z.ltb_lt _ _)) by (rewrite Hlw; zdm). reflexivity. } done.
  - by rewrite length_insert.
  - apply Forall_insert; [|done]. apply (words_dec_range 4 128 (view s blk)); [done|rewrite Hl; done].
  - intros s' Hok' Hv'. assert (Hv : forall id, has id -> id <> blk -> view s' id = view s id).
    { intros id Hid Hn. by rewrite Hv', decide_False. }
    apply HQ; [done| |done]. apply (trail_step ws (view s)); try done.
    + fold blk. by rewrite Hv', decide_True.
    + intros id Hid Hn. apply Hv; [by apply Hhas|done].
Qed.

(** The loop appends the new blocks to the trail. *)
Lemma wp_fill_indirect2 n : forall s h ws c t nb Q,
  n = Z.to_nat (t - c) -> cache_ok has s h -> (size h < BLOCK_CACHE_SIZE)%nat -> 0 <= c <= t -> t <= 16384 ->
  length ws = 128%nat -> Forall is_u32 ws -> Forall is_u32 nb -> NoDup (trail ws (view s) c ++ nb) ->
  (forall id, id ∈ trail ws (view s) c ++ nb -> has id /\ h !! id = None) ->
  trail_len t - trail_len c <= Z.of_nat (length nb) ->
  (forall ws' s', cache_ok has s' h -> length ws' = 128%nat -> Forall is_u32 ws' ->
     trail ws' (view s') t = trail ws (view s) c ++ take (Z.to_nat (trail_len t - trail_len c)) nb ->
     (forall a, 0 <= a -> a * 128 < c -> nth (Z.to_nat a) ws' 0 = nth (Z.to_nat a) ws 0) ->
     (forall id, has id -> (forall a, 0 <= a -> a * 128 < t -> id <> nth (Z.to_nat a) ws' 0) -> view s' id = view s id) ->
     Q ws' s') ->
  wp (fill_indirect2 n 0 ws (c / 128) (c mod 128) (t / 128) (t mod 128) nb) Q s.
Proof.
  induction n as [|n IH]; intros s h ws c t nb Q Hn Hok Hsize Hc Ht Hl Hu Hnu Hnd Hhas Hlen HQ; cbn [fill_indirect2];
    rewrite position_lt by lia.
  - rewrite (proj2 (Z.ltb_ge _ _)) by lia. assert (t = c) as -> by lia.
    apply HQ; try done. by rewrite Z.sub_diag, app_nil_r.
  - rewrite (proj2 (Z.ltb_lt _ _)) by lia.
    assert (Hs := trail_len_succ c ltac:(lia)). assert (Hm := trail_len_mono (c + 1) t ltac:(lia)).
    destruct (pick_indirect ws (view s) c nb) as (ws1 & y & nb2 & Hnb & Hpick & Hl1 & Hu1 & Ht1 & Hold & Hne & Hin);
      [lia|done..|destruct (c mod 128 =? 0); lia|].
    destruct (Hhas _ Hin) as [Hblk Hfree]. wp_step. apply Hpick. clear Hpick. cbn beta iota. wp_step.
    eapply wp_lift; [apply (index_Ok _ _ 0); rewrite Hl1; zdm|].
    rewrite Hnb in Hnd, Hhas, Hlen, Hnu, HQ. rewrite <-Ht1 in Hnd, Hhas, HQ.
    apply Forall_app in Hnu as [_ Hnu]. inversion Hnu as [|? ? Hy Hnu2]; subst.
    wp_step. apply (wp_store_number s h); try done; [lia|intros id Hid; apply Hhas, elem_of_app; by left|].
    intros s1 Hok1 Htr Hv1.
    set (hd := if c mod 128 =? 0 then [nth (Z.to_nat (c / 128)) ws1 0] else []) in *.
    assert (Hhd : Z.of_nat (length hd) + 1 = trail_len (c + 1) - trail_len c) by (rewrite Hs; subst hd; by destruct (_ =? _)).
    assert (Happ : trail ws1 (view s) c ++ hd ++ y :: nb2 = trail ws1 (view s1) (c + 1) ++ nb2).
    { rewrite Htr, <-!app_assoc. done. }
    rewrite Happ in Hnd, Hhas. rewrite length_app in Hlen. cbn [length] in Hlen.
    assert (Hrec : wp (fill_indirect2 n 0 ws1 ((c + 1) / 128) ((c + 1) mod 128) (t / 128) (t mod 128) nb2) Q s1).
    { apply (IH s1 h); try done; try lia. intros ws' s' Hok' Hl' Hu' Ht' Hw' Hf'. apply HQ; try done.
      - rewrite Ht', Htr, <-!app_assoc. f_equal. rewrite (take_app_ge hd) by lia. f_equal.
        replace (Z.to_nat (trail_len t - trail_len c) - length hd)%nat
          with (S (Z.to_nat (trail_len t - trail_len (c + 1)))) by lia. done.
      - intros a Ha Hac. rewrite Hw' by lia. by apply Hold.
      - intros id Hid Hno. rewrite Hf' by done. apply Hv1; [done|]. rewrite <-Hw' by zdm. apply Hno; zdm. }
    pose proof (next_position c ltac:(lia)) as Hp. change INODE_INDIRECT1_COUNT with 128.
    destruct (c mod 128 + 1 =? 128); injection Hp as -> ->; exact Hrec.
Qed.

(** The closure of [increase_size] over [indirect2], the block [x]. *)
Lemma wp_fill_from s h x c t nb Q :
  cache_ok has s h -> (S (size h) < BLOCK_CACHE_SIZE)%nat -> 0 <= c <= t -> t <= 16384 -> Forall is_u32 nb ->
  NoDup (x :: trail (words (view s) x) (view s) c ++ nb) ->
  (forall id, id ∈ x :: trail (words (view s) x) (view s) c ++ nb -> has id /\ h !! id = None) ->
  Z.of_nat (length nb) = trail_len t - trail_len c ->
  (forall s', cache_ok has s' h ->
     trail (words (view s') x) (view s') t = trail (words (view s) x) (view s) c ++ nb ->
     (forall id, has id -> id <> x -> (forall a, 0 <= a -> a * 128 < t -> id <> nth (Z.to_nat a) (words (view s') x) 0) ->
        view s' id = view s id) -> Q tt s') ->
  wp (modify_cache x 0 0 (fun blk : IndirectBlock =>
    let* ws := fill_indirect2 (Z.to_nat (t - c)) 0 (elems blk) (c / 128) (c mod 128) (t / 128) (t mod 128) nb in
    ret (tt, Array ws))) Q s.
Proof.
  intros Hok Hsize Hc Ht Hnu Hnd Hhas Hlen HQ. destruct (Hhas x) as [Hx Hfx]; [by left|].
  destruct (view_ok has s h x Hok Hx) as [Hl Hu].
  apply NoDup_cons in Hnd as [Hnx Hnd]. apply (wp_modify_block has s h); try done; [lia|]. intros s1 Hok1 Hv1.
  assert (Htr1 : trail (words (view s) x) (view s1) c = trail (words (view s) x) (view s) c).
  { apply trail_view. intros a Ha Hac. apply Hv1, Hhas. right. apply elem_of_app. left. by apply trail_word. }
  change (from_bytes (view s x)) with (Array (w := 4) (n := 128) (words (view s) x)).
  wp_step. cbn [elems]. apply (wp_fill_indirect2 _ s1 (<[x := Writing]> h)); try done.
  - rewrite map_size_insert_None by done. lia.
  - apply (words_dec_range 4 128 (view s x)); [done|by rewrite Hl].
  - by rewrite Htr1.
  - intros id Hid. rewrite Htr1 in Hid. rewrite lookup_insert_ne; [by apply Hhas; right|]. by intros ->.
  - lia.
  - intros ws' s2 Hok2 Hl2 Hu2 Htr2 _ Hf2. rewrite Htr1, take_ge in Htr2 by lia. wp_step.
    cbn [snd fst valid_value array_layout elems to_bytes]. split_and!; [done..|].
    intros s3 Hok3 Hv3.
    assert (Hw3 : words (view s3) x = ws').
    { unfold words. rewrite Hv3, decide_True by done. by rewrite words_dec_enc_all. }
    assert (Hne : forall a, 0 <= a -> a * 128 < t -> nth (Z.to_nat a) ws' 0 <> x).
    { intros a Ha Hat He. apply Hnx. rewrite <-Htr2, <-He. by apply trail_word. }
    apply HQ; [done| |].
    + rewrite Hw3, <-Htr2. apply trail_view. intros a Ha Hat.
      destruct (Hhas (nth (Z.to_nat a) ws' 0)) as [Ha' _]; [right; rewrite <-Htr2; by apply trail_word|].
      by rewrite Hv3, decide_False by auto.
    + intros id Hid Hnid Hna. rewrite Hw3 in Hna. rewrite Hv3, decide_False, Hf2 by done. by apply Hv1.
Qed.

(** The part of [increase_size] from [indirect2] on appends the blocks it takes. *)
Lemma wp_grow_indirect2 s h d c t nb Q :
  cache_ok has s h -> (S (size h) < BLOCK_CACHE_SIZE)%nat -> 128 <= c <= t -> 128 < t <= 16512 -> Forall is_u32 nb ->
  NoDup (owned2 (view s) d (c - 128) ++ nb) ->
  (forall id, id ∈ owned2 (view s) d (c - 128) ++ nb -> has id /\ h !! id = None) ->
  Z.of_nat (length (owned2 (view s) d (c - 128) ++ nb)) = 1 + trail_len (t - 128) -> is_u32 (indirect2 d) ->
  (forall x s', cache_ok has s' h -> is_u32 x ->
     owned2 (view s') (set_indirect2 x d) (t - 128) = owned2 (view s) d (c - 128) ++ nb ->
     (forall id, has id -> ~ number_block2 (view s') (set_indirect2 x d) (t - 128) id -> view s' id = view s id) ->
     Q (set_indirect2 x d) s') ->
  wp (grow_indirect2 d c t nb 0) Q s.
Proof.
  intros Hok Hsize Hc Ht Hnu Hnd Hhas Hlen Hi2 HQ. unfold grow_indirect2. change INODE_INDIRECT1_COUNT with 128.
  rewrite !(wrap32_small (_ - 128)) by lia.
  assert (exists x nb1, owned2 (view s) d (c - 128) ++ nb = x :: trail (words (view s) x) (view s) (c - 128) ++ nb1 /\
    is_u32 x /\ Forall is_u32 nb1 /\ forall R : DiskInode * list Z -> FsState D -> Prop, R (set_indirect2 x d, nb1) s ->
      wp (if c =? 128 then let* (b, nb) := lift (next_unwrap nb) in ret (set_indirect2 b d, nb) else ret (d, nb)) R s)
    as (x & nb1 & Hsplit & Hux & Hnu1 & Hpick).
  { unfold owned2 in *. destruct (Z.eqb_spec c 128) as [->|Hne].
    - change (128 - 128) with 0 in *. change (0 <? 0) with false in *. cbn [app] in *.
      destruct nb as [|x nb1]; [unfold trail_len in Hlen; cbn [length] in Hlen; zdm|].
      exists x, nb1. inversion Hnu; subst. split_and!; done.
    - exists (indirect2 d), nb. rewrite (proj2 (Z.ltb_lt _ _)) by lia. split_and!; try done. by destruct d. }
  rewrite Hsplit in Hnd, Hhas, Hlen, HQ. clear Hsplit. wp_step. apply Hpick. cbn beta iota. wp_step. cbn [indirect2 set_indirect2].
  replace (t - c) with (t - 128 - (c - 128)) by lia.
  cbn [length] in Hlen. rewrite length_app, Nat2Z.inj_succ, Nat2Z.inj_add, length_trail in Hlen by lia.
  replace (t - 128 - (c - 128)) with ((t - 128) - (c - 128)) by lia.
  apply (wp_fill_from s h); try done; try lia. intros s' Hok' Htr Hf. apply HQ; [done|done| |].
  - unfold owned2. cbn [indirect2 set_indirect2]. rewrite (proj2 (Z.ltb_lt _ _)) by lia. by rewrite Htr.
  - intros id Hid Hn. apply Hf; [done| |].
    + intros ->. apply Hn. by left.
    + intros a Ha Hat ->. apply Hn. right. by exists a.
Qed.

(** Filling the slots of [indirect1], the block [x]. *)
Lemma wp_fill_indirect1 s h x c t nb Q :
  cache_ok has s h -> (size h < BLOCK_CACHE_SIZE)%nat -> has x -> h !! x = None -> 0 <= c <= t -> t < 2 ^ 31 ->
  Forall is_u32 nb -> let n := Z.to_nat (Z.min t 128 - c) in (n <= length nb)%nat ->
  (forall s', cache_ok has s' h ->
     take (Z.to_nat (Z.min t 128)) (words (view s') x) = take (Z.to_nat (Z.min c 128)) (words (view s) x) ++ take n nb ->
     (forall id, has id -> id <> x -> view s' id = view s id) -> Q (Z.max c (Z.min t 128), drop n nb) s') ->
  wp (modify_cache x 0 0 (fun blk : IndirectBlock =>
    let* ((ws, current), nb) :=
      lift (fill_slots (Z.to_nat (Z.min t 128 - c)) (elems blk) c (Z.min t 128) nb) in
    ret ((current, nb), Array ws))) Q s.
Proof.
  intros Hok Hsize Hx Hfx Hc Ht Hnu n Hn HQ. destruct (view_ok has s h x Hok Hx) as [Hl Hu].
  assert (Hlw := length_words (view s) x).
  destruct (take_filled (words (view s) x) nb 128 c t) as [Hlen Htake]; [done|lia..|]. fold n in Hlen, Htake.
  assert (Hu' : Forall is_u32 (put_bytes (Z.to_nat c) (take n nb) (words (view s) x))).
  { assert (Hw : Forall is_u32 (words (view s) x)) by (apply (words_dec_range 4 128 (view s x)); [done|by rewrite Hl]).
    unfold put_bytes. rewrite !Forall_app. split_and!; auto using Forall_take, Forall_drop. }
  eapply (wp_modify_words s h x); try done.
  - intros s1 R HR. wp_step. eapply wp_lift; [apply fill_slots_spec; fold (words (view s) x); cbn [elems]; try done; lia|].
    exact HR.
  - intros s' Hok' Hv'. apply HQ; [done| |].
    + rewrite <-Htake. f_equal. unfold words at 1. rewrite Hv', decide_True by done. by rewrite words_dec_enc_all.
    + intros id Hid Hne. by rewrite Hv', decide_False.
Qed.

(** The choice of [indirect1]. *)
Lemma pick_indirect1 k d c t (nb : list Z) :
  28 <= c <= t -> 28 < t -> Forall is_u32 nb -> is_u32 (indirect1 d) ->
  Z.of_nat (length (owned1 k d (c - 28) ++ nb)) = Z.of_nat (length (owned1 k d (t - 28))) ->
  exists x nb1, owned1 k d (c - 28) ++ nb = x :: take (Z.to_nat (Z.min (c - 28) 128)) (words k x) ++ owned2 k d (c - 156) ++ nb1 /\
    is_u32 x /\ Forall is_u32 nb1 /\ forall (s : FsState D) (R : DiskInode * list Z -> FsState D -> Prop), R (set_indirect1 x d, nb1) s ->
      wp (if c =? 28 then let* (b, nb) := lift (next_unwrap nb) in ret (set_indirect1 b d, nb) else ret (d, nb)) R s.
Proof.
  intros Hc Ht Hnu Hi1 Hlen. destruct (Z.eqb_spec c 28) as [->|Hne].
  - rewrite owned2_nil by lia. destruct nb as [|x nb1].
    + rewrite app_nil_r, !length_owned1 in Hlen. change (0 <? 28 - 28) with false in Hlen.
      rewrite (proj2 (Z.ltb_lt 0 _)) in Hlen by lia. destruct (Z.ltb_spec 128 (t - 28)); unfold trail_len in Hlen; zdm.
    + exists x, nb1. inversion Hnu; subst. split_and!; done.
  - exists (indirect1 d), nb. unfold owned1. rewrite (proj2 (Z.ltb_lt 0 _)) by lia.
    replace (c - 28 - 128) with (c - 156) by lia. split_and!; [by rewrite <-app_comm_cons, <-app_assoc|done..|by destruct d].
Qed.

(** What is left after [indirect1], the block [x], was filled; [c] and [t] count from it. *)
Lemma wp_after_indirect1 s s1 h d x c t nb Q :
  let first := take (Z.to_nat (Z.min c 128)) (words (view s) x) in
  let rest := owned2 (view s) d (c - 128) in
  let n := Z.to_nat (Z.min t 128 - c) in
  cache_ok has s1 h -> (S (size h) < BLOCK_CACHE_SIZE)%nat -> 0 <= c <= t -> 0 < t <= 16512 -> Forall is_u32 nb ->
  x ∉ first ++ rest ++ nb -> NoDup (first ++ rest ++ nb) -> has x ->
  (forall id, id ∈ first ++ rest ++ nb -> has id /\ h !! id = None) ->
  Z.of_nat (length (rest ++ drop n nb)) = (if 128 <? t then 1 + trail_len (t - 128) else 0) -> is_u32 (indirect2 d) ->
  take (Z.to_nat (Z.min t 128)) (words (view s1) x) = first ++ take n nb ->
  (forall id, has id -> id <> x -> view s1 id = view s id) ->
  (forall y s', cache_ok has s' h -> is_u32 y ->
     owned1 (view s') (set_indirect2 y (set_indirect1 x d)) t = x :: first ++ rest ++ nb ->
     (forall id, has id -> ~ number_block1 (view s') (set_indirect2 y (set_indirect1 x d)) t id -> view s' id = view s id) ->
     Q (set_indirect2 y (set_indirect1 x d)) s') ->
  wp (if 128 <? t then grow_indirect2 (set_indirect1 x d) (Z.max c (Z.min t 128)) t (drop n nb) 0
      else ret (set_indirect1 x d)) Q s1.
Proof.
  intros first rest n Hok1 Hsize Hc Ht Hnu Hnx Hnd Hx Hhas Hlen Hi2 Htake Hv1 HQ.
  assert (Hmove : take n nb ++ rest ++ drop n nb = rest ++ nb).
  { subst rest n. destruct (decide (c <= 128)); [rewrite owned2_nil by lia; cbn [app]; apply take_drop|].
    by replace (Z.to_nat (Z.min t 128 - c)) with 0%nat by lia. }
  destruct (Z.ltb_spec 128 t) as [Ht1|Ht1].
  - assert (Hrest : owned2 (view s1) (set_indirect1 x d) (Z.max c (Z.min t 128) - 128) = rest).
    { subst rest. destruct (decide (c <= 128)); [by rewrite !owned2_nil by lia|].
      replace (Z.max c (Z.min t 128) - 128) with (c - 128) by lia.
      apply (owned2_view (view s) (view s1) (set_indirect1 x d)). intros id Hid.
      apply number_block2_owned in Hid; [|lia]. assert (Hin : id ∈ first ++ owned2 (view s) d (c - 128) ++ nb)
        by (rewrite !elem_of_app; auto). apply Hv1; [by apply Hhas|]. by intros ->. }
    assert (Hsub : forall id, id ∈ rest ++ drop n nb -> id ∈ first ++ rest ++ nb).
    { intros id Hid. rewrite <-Hmove. rewrite !elem_of_app in *. tauto. }
    apply (wp_grow_indirect2 s1 h); rewrite ?Hrest; try done; [lia|lia|by apply Forall_drop| |auto|].
    { apply NoDup_app in Hnd as (_ & _ & Hnd). rewrite <-Hmove in Hnd. by apply NoDup_app in Hnd as (_ & _ & ?). }
    intros y s' Hok' Hy Hown Hf. apply HQ; [done|done| |].
    + unfold owned1. rewrite (proj2 (Z.ltb_lt _ _)) by lia. change (indirect1 _) with x. f_equal. rewrite Hown.
      unfold words. rewrite Hf; [|done|]. { fold (words (view s1) x). rewrite Htake, <-app_assoc. by f_equal. }
      intros Hid. apply number_block2_owned in Hid; [|lia]. rewrite Hown in Hid. by apply Hnx, Hsub.
    + intros id Hid Hn. rewrite Hf; [|done|].
      * apply Hv1; [done|]. intros ->. apply Hn. by left.
      * intros Hn2. apply Hn. right. done.
  - rewrite length_app in Hlen. assert (Hr0 : rest = []) by (apply nil_length_inv; lia).
    assert (Hd0 : drop n nb = []) by (apply nil_length_inv; lia).
    rewrite Hr0, Hd0 in Hmove. rewrite !app_nil_r in Hmove.
    apply wp_ret. replace (set_indirect1 x d) with (set_indirect2 (indirect2 d) (set_indirect1 x d)) by (by destruct d).
    apply HQ; [done|done| |].
    + unfold owned1. rewrite (proj2 (Z.ltb_lt _ _)) by lia. change (indirect1 _) with x. f_equal.
      rewrite owned2_nil, app_nil_r by lia. by rewrite Htake, Hmove, Hr0.
    + intros id Hid Hn. apply Hv1; [done|]. intros ->. apply Hn. by left.
Qed.

(** The part of [increase_size] from [indirect1] on appends the blocks it takes. *)
Lemma wp_grow_indirect1 s h d c t nb Q :
  cache_ok has s h -> (S (size h) < BLOCK_CACHE_SIZE)%nat -> 28 <= c <= t -> 28 < t <= 16540 -> Forall is_u32 nb ->
  NoDup (owned1 (view s) d (c - 28) ++ nb) ->
  (forall id, id ∈ owned1 (view s) d (c - 28) ++ nb -> has id /\ h !! id = None) ->
  Z.of_nat (length (owned1 (view s) d (c - 28) ++ nb)) = Z.of_nat (length (owned1 (view s) d (t - 28))) ->
  is_u32 (indirect1 d) -> is_u32 (indirect2 d) ->
  (forall x y s', cache_ok has s' h -> is_u32 x -> is_u32 y ->
     owned1 (view s') (set_indirect2 y (set_indirect1 x d)) (t - 28) = owned1 (view s) d (c - 28) ++ nb ->
     (forall id, has id -> ~ number_block1 (view s') (set_indirect2 y (set_indirect1 x d)) (t - 28) id ->
        view s' id = view s id) -> Q (set_indirect2 y (set_indirect1 x d)) s') ->
  wp (grow_indirect1 d c t nb 0) Q s.
Proof.
  intros Hok Hsize Hc Ht Hnu Hnd Hhas Hlen Hi1 Hi2 HQ. unfold grow_indirect1.
  change INODE_INDIRECT1_COUNT with 128. change INODE_DIRECT_COUNT with 28. rewrite !(wrap32_small (_ - 28)) by lia.
  destruct (pick_indirect1 (view s) d c t nb) as (x & nb1 & Hsplit & Hux & Hnu1 & Hpick); [done|lia|done..|].
  rewrite Hsplit in Hnd, Hhas, Hlen, HQ. clear Hsplit. wp_step. apply Hpick. cbn beta iota. clear Hpick.
  replace (c - 156) with (c - 28 - 128) in * by lia.
  rewrite length_owned1, (proj2 (Z.ltb_lt 0 _)) in Hlen by lia. cbn [length] in Hlen.
  rewrite !length_app, length_take, length_words, Nat2Z.inj_succ, !Nat2Z.inj_add, length_owned2 in Hlen.
  set (n := Z.to_nat (Z.min (t - 28) 128 - (c - 28))).
  pose proof (trail_len_mono 0 (t - 28 - 128)) as Hpos. change (trail_len 0) with 0 in Hpos.
  assert (Hn : (n <= length nb1)%nat).
  { subst n. destruct (Z.ltb_spec 0 (c - 28 - 128)), (Z.ltb_spec 128 (t - 28)); lia. }
  destruct (Hhas x) as [Hx Hfx]; [by left|]. apply NoDup_cons in Hnd as [Hnx Hnd]. wp_step. cbn [indirect1 set_indirect1].
  apply (wp_fill_indirect1 s h); try done; [lia..|]. fold n. intros s1 Hok1 Htake Hv1. cbn beta iota.
  apply (wp_after_indirect1 s s1 h d x (c - 28) (t - 28) nb1); try done; [lia..|by intros id Hid; apply Hhas; right| |].
  - rewrite length_app, length_drop, Nat2Z.inj_add, length_owned2. fold n.
    destruct (Z.ltb_spec 0 (c - 28 - 128)), (Z.ltb_spec 128 (t - 28)); lia.
  - intros y s' Hok' Hy. by apply HQ.
Qed.

(** The inode [d] on the disk [k] has grown to [d'] on [k'] by the blocks [nb]. *)
Record inode_grown (h : gmap Z hold) (k : disk) (d : DiskInode) (new_size : Z) (nb : list Z) (k' : disk) (d' : DiskInode)
    : Prop := {
  ig_wf : inode_wf has h k' d';
  ig_size : di_size d' = new_size;
  ig_type : type_ d' = type_ d;
  ig_owned : owned k' d' = owned k d ++ nb;
  ig_bytes p : 0 <= p < data_blocks d * 512 -> file_byte k' d' p = file_byte k d p;
  ig_frame id : has id -> ~ is_indirect k' d' id -> k' id = k id
}.

(** The facts about contents follow from those about the list of blocks. *)
Lemma inode_grown_intro h k d nb k' d' :
  inode_wf has h k d -> valid_value d' -> di_size d <= di_size d' <= 16540 * 512 -> type_ d' = type_ d ->
  owned k' d' = owned k d ++ nb -> NoDup (owned k d ++ nb) -> (forall id, id ∈ nb -> has id /\ h !! id = None) ->
  (forall id, has id -> ~ is_indirect k' d' id -> k' id = k id) ->
  inode_grown h k d (di_size d') nb k' d'.
Proof.
  intros Hd Hv Hs Hty Hown Hnd Hnb Hf. pose proof (iw_size _ _ _ _ Hd) as Hsz.
  assert (Hwf : inode_wf has h k' d').
  { split; [lia|done|by rewrite Hown|]. intros id. rewrite Hown, elem_of_app. intros []; [by apply Hd|by apply Hnb]. }
  pose proof (inode_wf_ok _ _ _ _ Hwf) as Hok. split; try done.
  intros p Hp. assert (Hi : 0 <= p / 512 < data_blocks d) by zdm.
  assert (Hm : data_blocks d <= data_blocks d') by (apply data_blocks_mono; lia).
  assert (Hb : block_of k' d' (p / 512) = block_of k d (p / 512)).
  { eapply block_of_prefix; [by eapply iw_direct..|exact Hown|done|done]. }
  unfold file_byte. rewrite <-Hb. rewrite Hf; [done| |].
  - apply (io_data _ _ _ _ Hok). lia.
  - apply (io_apart _ _ _ _ Hok). lia.
Qed.

(** What is left after the direct slots, now [arr], were filled. *)
Lemma wp_after_direct s h d new_size arr c t nb Q :
  let n := Z.to_nat (Z.min t 28 - c) in
  cache_ok has s h -> (S (size h) < BLOCK_CACHE_SIZE)%nat -> valid_value d -> 0 <= c <= t -> t <= 16540 -> Forall is_u32 nb ->
  NoDup (owned_upto (view s) d c ++ nb) ->
  (forall id, id ∈ owned_upto (view s) d c ++ nb -> has id /\ h !! id = None) ->
  Z.of_nat (length nb) = owned_len t - owned_len c ->
  take (Z.to_nat (Z.min t 28)) arr = take (Z.to_nat (Z.min c 28)) (direct d) ++ take n nb ->
  (forall x y s', let d' := regrown d new_size arr x y in
     cache_ok has s' h -> is_u32 x -> is_u32 y -> owned_upto (view s') d' t = owned_upto (view s) d c ++ nb ->
     (forall id, has id -> (28 < t -> ~ number_block1 (view s') d' (t - 28) id) -> view s' id = view s id) -> Q d' s') ->
  let d1 := set_direct arr (set_size new_size d) in
  wp (if 28 <? t then grow_indirect1 d1 (Z.max c (Z.min t 28)) t (drop n nb) 0 else ret d1) Q s.
Proof.
  intros n Hok Hsize (Hdir & _ & Hi1 & Hi2)%valid_parts Hc Ht Hnu Hnd Hhas Hlen Htake HQ d1.
  set (rest := owned1 (view s) d (c - 28)).
  assert (Hmove : take n nb ++ rest ++ drop n nb = rest ++ nb).
  { subst rest n. destruct (decide (c <= 28)); [rewrite owned1_nil by lia; cbn [app]; apply take_drop|].
    by replace (Z.to_nat (Z.min t 28 - c)) with 0%nat by lia. }
  assert (Hall : owned_upto (view s) d c ++ nb = take (Z.to_nat (Z.min t 28)) arr ++ rest ++ drop n nb).
  { rewrite Htake, <-!app_assoc. rewrite Hmove. unfold owned_upto. by rewrite <-app_assoc. }
  rewrite Hall in Hnd, Hhas, HQ. apply NoDup_app in Hnd as (_ & _ & Hnd).
  destruct (Z.ltb_spec 28 t) as [Ht1|Ht1].
  - assert (Hrest : owned1 (view s) d1 (Z.max c (Z.min t 28) - 28) = rest).
    { subst rest. destruct (decide (c <= 28)); [by rewrite !owned1_nil by lia|].
      by replace (Z.max c (Z.min t 28) - 28) with (c - 28) by lia. }
    apply (wp_grow_indirect1 s h); rewrite ?Hrest; try done; try lia; [by apply Forall_drop| | |].
    + intros id Hid. apply Hhas, elem_of_app. by right.
    + pose proof (length_owned_upto (view s) d t Hdir ltac:(lia)) as Hlt.
      pose proof (length_owned_upto (view s) d c Hdir ltac:(lia)) as Hlc. unfold owned_upto in Hlt, Hlc.
      rewrite length_app, length_take in Hlt, Hlc. fold rest in Hlc. rewrite length_app, length_drop.
      change (owned1 (view s) d1 (t - 28)) with (owned1 (view s) d (t - 28)). subst n.
      assert (c <= 28 -> length rest = 0%nat) by (intros; subst rest; by rewrite owned1_nil by lia). lia.
    + intros x y s' Hok' Hx Hy Hown Hf. apply HQ; try done; [|auto].
      unfold owned_upto. by f_equal.
  - apply wp_ret. subst d1.
    replace (set_direct arr (set_size new_size d)) with (regrown d new_size arr (indirect1 d) (indirect2 d)) by (by destruct d).
    apply HQ; try done. unfold owned_upto. rewrite owned1_nil by lia.
    assert (Hz : drop n nb = []).
    { apply drop_ge. subst n. unfold owned_len in Hlen. destruct (Z.ltb_spec 28 t), (Z.ltb_spec 156 t), (Z.ltb_spec 28 c), (Z.ltb_spec 156 c); lia. }
    subst rest. by rewrite Hz, owned1_nil by lia.
Qed.

Lemma wp_increase_size s h d new_size nb Q :
  cache_ok has s h -> (S (size h) < BLOCK_CACHE_SIZE)%nat -> inode_wf has h (view s) d ->
  di_size d <= new_size <= 16540 * 512 -> Forall is_u32 nb -> NoDup (owned (view s) d ++ nb) ->
  (forall id, id ∈ nb -> has id /\ h !! id = None) ->
  Z.of_nat (length nb) = total_blocks new_size - total_blocks (di_size d) ->
  (forall d' s', cache_ok has s' h -> inode_grown h (view s) d new_size nb (view s') d' -> Q d' s') ->
  wp (increase_size d new_size nb 0) Q s.
Proof.
  intros Hok Hsize Hd Hs Hnu Hnd Hnb Hlen HQ. pose proof (iw_size _ _ _ _ Hd) as Hsz. pose proof (iw_direct _ _ _ _ Hd) as Hdir.
  rewrite !total_blocks_len in Hlen by lia. unfold increase_size.
  change (data_blocks (set_size new_size d)) with (data_blocks_of new_size). change INODE_DIRECT_COUNT with 28.
  pose proof (data_blocks_mono (di_size d) new_size ltac:(lia) ltac:(lia)) as Hm.
  assert (Ht : 0 <= data_blocks_of (di_size d) /\ data_blocks_of new_size <= 16540) by (rewrite !data_blocks_ceil by lia; zdm).
  change (data_blocks_of (di_size d)) with (data_blocks d) in *.
  assert (Hn : (Z.to_nat (Z.min (data_blocks_of new_size) 28 - data_blocks d) <= length nb)%nat).
  { unfold owned_len in Hlen. destruct (Z.ltb_spec 28 (data_blocks_of new_size)), (Z.ltb_spec 156 (data_blocks_of new_size)),
      (Z.ltb_spec 28 (data_blocks d)), (Z.ltb_spec 156 (data_blocks d)); zdm. }
  destruct (take_filled (direct d) nb 28 (data_blocks d) (data_blocks_of new_size)) as [Hl28 Htake]; [done|lia..|].
  wp_step. eapply wp_lift; [apply fill_slots_spec; cbn [direct set_size]; lia|]. cbn beta iota. cbn [direct set_size].
  apply (wp_after_direct s h d new_size); try done; [apply Hd|lia|lia| |].
  - intros id [Hid|Hid]%elem_of_app; [by apply Hd|by apply Hnb].
  - intros x y s' d' Hok' Hx Hy Hown Hf. apply HQ; [done|]. apply (inode_grown_intro h (view s) d nb (view s') d'); try done.
    + apply regrown_valid; try done; [apply Hd|unfold is_u32; lia|].
      destruct (valid_parts d (iw_valid _ _ _ _ Hd)) as (_ & Hw & _).
      unfold put_bytes. rewrite !Forall_app. split_and!; auto using Forall_take, Forall_drop.
    + intros id Hid Hni. apply Hf; [done|]. intros H28 Hnb1. apply Hni. by apply number_block1_indirect.
Qed.

(** ** Clearing *)

Lemma wp_push_indirect1 s h x n v Q :
  cache_ok has s h -> (size h < BLOCK_CACHE_SIZE)%nat -> has x -> h !! x = None -> 0 <= n <= 128 ->
  (forall s', cache_ok has s' h -> (forall id, has id -> view s' id = view s id) ->
     Q (v ++ take (Z.to_nat n) (words (view s) x)) s') ->
  wp (push_indirect1 x 0 n v) Q s.
Proof.
  intros Hok Hsize Hx Hfx Hn HQ. destruct (view_ok has s h x Hok Hx) as [Hl Hu].
  apply (wp_modify_words s h x _ (v ++ take (Z.to_nat n) (words (view s) x)) (words (view s) x)); try done.
  - intros s1 R HR. wp_step. eapply wp_lift; [|exact HR]. cbn [elems]. fold (words (view s) x).
    apply (push_slots_spec _ (Z.to_nat n) 0); [lia|by rewrite length_words; lia|lia].
  - apply (words_dec_range 4 128 (view s x)); [done|by rewrite Hl].
  - intros s' Hok' Hv'. apply HQ; [done|]. intros id Hid. rewrite Hv' by done. case_decide as He; [|done].
    subst id. by apply words_enc_dec.
Qed.

(** The closure over [indirect2] lists the trail. *)
Lemma wp_push_indirect2 s h ws n v Q :
  cache_ok has s h -> (size h < BLOCK_CACHE_SIZE)%nat -> 0 <= n <= 16384 -> length ws = 128%nat ->
  (forall a, 0 <= a -> a * 128 < n -> has (nth (Z.to_nat a) ws 0) /\ h !! nth (Z.to_nat a) ws 0 = None) ->
  (forall s', cache_ok has s' h -> (forall id, has id -> view s' id = view s id) -> Q (v ++ trail ws (view s) n) s') ->
  wp (push_indirect2 ws 0 n v) Q s.
Proof.
  intros Hok Hsize Hn Hl Hws HQ. unfold push_indirect2. change INODE_INDIRECT1_COUNT with 128.
  assert (Hone : forall s1 v1 a b R, cache_ok has s1 h -> (forall id, has id -> view s1 id = view s id) ->
    0 <= a -> 0 < b <= 128 -> a * 128 + b <= n -> v1 = v ++ trail ws (view s) (a * 128) ->
    (forall s', cache_ok has s' h -> (forall id, has id -> view s' id = view s id) ->
       R (v ++ trail ws (view s) (a * 128 + b)) s') ->
    wp (let* ind1 := lift (index ws a) in push_indirect1 ind1 0 b (vec_push v1 ind1)) R s1).
  { intros s1 v1 a b R Hok1 Hv1 Ha Hb Hab -> HR. destruct (Hws a) as [Hx Hfx]; [lia..|].
    wp_step. eapply wp_lift; [apply (index_Ok _ _ 0); lia|]. apply (wp_push_indirect1 s1 h); try done; [lia|].
    intros s' Hok' Hv'. unfold words. rewrite Hv1 by done. fold (words (view s) (nth (Z.to_nat a) ws 0)).
    unfold vec_push. rewrite <-!app_assoc. cbn [app]. rewrite <-trail_block by lia.
    apply HR; [done|]. intros id Hid. by rewrite Hv', Hv1. }
  wp_step. eapply wp_mono; [|apply (wp_foldM _ (fun dn v1 s1 => cache_ok has s1 h /\
    (forall id, has id -> view s1 id = view s id) /\ v1 = v ++ trail ws (view s) (Z.of_nat (length dn) * 128)))].
  - intros v1 s1 (Hok1 & Hv1 & ->). rewrite length_seqZ. replace (Z.of_nat (Z.to_nat (n / 128))) with (n / 128) by zdm.
    destruct (Z.ltb_spec 0 (n mod 128)) as [Hb|Hb].
    + apply Hone; try done; try zdm. intros s' Hok' Hv'. replace (n / 128 * 128 + n mod 128) with n by zdm. by apply HQ.
    + apply wp_ret. replace (n / 128 * 128) with n by zdm. by apply HQ.
  - split_and!; [done..|]. by rewrite app_nil_r.
  - intros dn x rest v1 s1 Hseq (Hok1 & Hv1 & ->). assert (Hlen := f_equal length Hseq).
    rewrite length_seqZ, length_app in Hlen. cbn [length] in Hlen.
    assert (x = Z.of_nat (length dn)) as ->.
    { pose proof (lookup_seqZ_lt 0 (n / 128) (length dn) ltac:(zdm)) as Hlk. rewrite Hseq, list_lookup_middle in Hlk by done.
      injection Hlk. lia. }
    apply Hone; try done; try zdm. intros s' Hok' Hv'. split_and!; [done..|]. rewrite length_app. cbn [length].
    do 3 f_equal. lia.
Qed.

(** Nothing is owned by an inode of size zero. *)
Lemma empty_inode_wf h k d : valid_value d -> di_size d = 0 -> owned k d = [] /\ inode_wf has h k d.
Proof.
  intros Hv Hs. assert (Hz : owned k d = []) by (unfold owned, data_blocks; by rewrite Hs).
  split; [done|]. split; [lia|done|rewrite Hz; apply NoDup_nil_2|]. intros id. rewrite Hz. by intros ?%not_elem_of_nil.
Qed.

Lemma wp_clear_indirect2 s h d n v Q :
  cache_ok has s h -> (S (size h) < BLOCK_CACHE_SIZE)%nat -> 128 < n <= 16512 ->
  NoDup (owned2 (view s) d (n - 128)) -> (forall id, id ∈ owned2 (view s) d (n - 128) -> has id /\ h !! id = None) ->
  (forall s', cache_ok has s' h -> (forall id, has id -> view s' id = view s id) ->
     Q (v ++ owned2 (view s) d (n - 128), set_indirect2 0 d) s') ->
  wp (clear_indirect2 d n v 0) Q s.
Proof.
  intros Hok Hsize Hn Hnd Hus HQ. unfold clear_indirect2. change INODE_INDIRECT1_COUNT with 128.
  unfold owned2 in *. rewrite (proj2 (Z.ltb_lt _ _)) in * by lia. set (x := indirect2 d) in *.
  change INODE_INDIRECT2_COUNT with 16384. rewrite (proj2 (Z.leb_le _ _)) by lia. wp_step. apply wp_ret. wp_step.
  destruct (Hus x) as [Hx Hfx]; [by left|]. destruct (view_ok has s h x Hok Hx) as [Hl Hu].
  apply NoDup_cons in Hnd as [Hnx _]. apply (wp_modify_block has s h); try done; [lia|]. intros s1 Hok1 Hv1.
  change (from_bytes (view s x)) with (Array (w := 4) (n := 128) (words (view s) x)). wp_step. cbn [elems].
  assert (Hw : forall a, 0 <= a -> a * 128 < n - 128 ->
    nth (Z.to_nat a) (words (view s) x) 0 ∈ trail (words (view s) x) (view s) (n - 128)) by (intros; by apply trail_word).
  apply (wp_push_indirect2 s1 (<[x := Writing]> h)); try done; [by rewrite map_size_insert_None|lia| |].
  - intros a Ha Han. rewrite lookup_insert_ne; [apply Hus; right; by apply Hw|]. intros He. apply Hnx. rewrite He at 1. by apply Hw.
  - intros s2 Hok2 Hv2. wp_step. cbn [snd fst valid_value array_layout elems to_bytes]. split_and!; [done|done| |].
    { apply (words_dec_range 4 128 (view s x)); [done|by rewrite Hl]. }
    intros s3 Hok3 Hv3. apply wp_ret. unfold vec_push. rewrite <-app_assoc. cbn [app].
    rewrite (trail_view _ (view s) (view s1)) by (intros; apply Hv1, Hus; right; by apply Hw).
    apply HQ; [done|]. intros id Hid. rewrite Hv3 by done. case_decide as He; [|by rewrite Hv2, Hv1].
    subst id. by apply words_enc_dec.
Qed.

Lemma wp_clear_indirect1 s h d n v Q :
  cache_ok has s h -> (S (size h) < BLOCK_CACHE_SIZE)%nat -> 28 < n <= 16540 ->
  NoDup (owned1 (view s) d (n - 28)) -> (forall id, id ∈ owned1 (view s) d (n - 28) -> has id /\ h !! id = None) ->
  (forall y s', cache_ok has s' h -> (forall id, has id -> view s' id = view s id) -> y = indirect2 d \/ y = 0 ->
     Q (v ++ owned1 (view s) d (n - 28), set_indirect2 y (set_indirect1 0 d)) s') ->
  wp (clear_indirect1 d n v 0) Q s.
Proof.
  intros Hok Hsize Hn Hnd Hus HQ. unfold clear_indirect1. change INODE_INDIRECT1_COUNT with 128. change INODE_DIRECT_COUNT with 28.
  unfold owned1 in *. rewrite (proj2 (Z.ltb_lt _ _)) in * by lia. destruct (Hus (indirect1 d)) as [Hx Hfx]; [by left|].
  wp_step. apply (wp_push_indirect1 s h); try done; [lia|lia|]. intros s1 Hok1 Hv1. unfold vec_push. rewrite <-app_assoc. cbn [app].
  apply NoDup_cons in Hnd as [_ (_ & _ & Hnd)%NoDup_app].
  destruct (Z.ltb_spec 128 (n - 28)) as [H128|H128].
  - assert (Hs1 : owned2 (view s1) (set_indirect1 0 d) (n - 28 - 128) = owned2 (view s) d (n - 28 - 128)).
    { apply (owned2_view (view s) (view s1) (set_indirect1 0 d)). intros id Hid%number_block2_owned; [|lia].
      apply Hv1, Hus. right. apply elem_of_app. by right. }
    apply (wp_clear_indirect2 s1 h); rewrite ?Hs1; try done; [lia| |].
    + intros id Hid. apply Hus. right. apply elem_of_app. by right.
    + intros s2 Hok2 Hv2. rewrite <-app_assoc. apply HQ; [done| |by right]. intros id Hid. by rewrite Hv2, Hv1.
  - apply wp_ret. rewrite owned2_nil, app_nil_r in HQ by lia.
    replace (set_indirect1 0 d) with (set_indirect2 (indirect2 d) (set_indirect1 0 d)) by (by destruct d).
    apply HQ; [done..|by left].
Qed.

Lemma wp_clear_size s h d Q :
  cache_ok has s h -> (S (size h) < BLOCK_CACHE_SIZE)%nat -> inode_wf has h (view s) d ->
  (forall d' s', cache_ok has s' h -> (forall id, has id -> view s' id = view s id) -> inode_wf has h (view s') d' ->
     di_size d' = 0 -> type_ d' = type_ d -> Q (owned (view s) d, d') s') ->
  wp (clear_size d 0) Q s.
Proof.
  intros Hok Hsize Hd HQ. pose proof (iw_size _ _ _ _ Hd) as Hsz.
  destruct (valid_parts d (iw_valid _ _ _ _ Hd)) as (Hdir & Hdu & Hi1 & Hi2).
  assert (Hc : 0 <= data_blocks d <= 16540) by (unfold data_blocks; rewrite data_blocks_ceil by lia; zdm).
  pose proof (iw_usable _ _ _ _ Hd) as Hus. pose proof (iw_nodup _ _ _ _ Hd) as Hnd. unfold owned, owned_upto in Hus, Hnd, HQ.
  unfold clear_size. change INODE_DIRECT_COUNT with 28. set (m := Z.to_nat (Z.min (data_blocks d) 28)) in *. wp_step.
  eapply wp_lift; [apply (drain_slots_spec m (direct d) 0); [lia|rewrite Hdir; lia|lia]|].
  cbn beta iota. cbn [app]. change (drop (Z.to_nat 0) (direct d)) with (direct d).
  set (arr := put_bytes (Z.to_nat 0) (replicate m 0) (direct d)).
  assert (Hend : forall s' x y, cache_ok has s' h -> (forall id, has id -> view s' id = view s id) -> is_u32 x -> is_u32 y ->
    Q (take m (direct d) ++ owned1 (view s) d (data_blocks d - 28), regrown d 0 arr x y) s').
  { intros s' x y Hok' Hv' Hx Hy. apply HQ; try done. apply empty_inode_wf; [|done].
    apply regrown_valid; try done; [apply Hd| |]; subst arr; unfold put_bytes.
    - rewrite !length_app, length_take, length_drop, length_replicate. lia.
    - rewrite !Forall_app. split_and!; auto using Forall_take, Forall_drop. by apply Forall_replicate. }
  apply NoDup_app in Hnd as (_ & _ & Hnd). destruct (Z.ltb_spec 28 (data_blocks d)) as [H28|H28].
  - apply (wp_clear_indirect1 s h); try done; [lia|intros id Hid; apply Hus, elem_of_app; by right|].
    intros y s' Hok' Hv' Hy. apply (Hend s' 0 y); try done. by destruct Hy as [->| ->].
  - rewrite owned1_nil, app_nil_r in Hend by lia. apply wp_ret.
    replace (set_direct arr (set_size 0 d)) with (regrown d 0 arr (indirect1 d) (indirect2 d)) by (by destruct d). by apply Hend.
Qed.

End Grow.

(** C22: [DiskInode::increase_size], given exactly the blocks that [blocks_num_needed] asks
    for, succeeds across the direct, single and double indirect ranges: the inode has the
    new size and is well formed, the blocks it owns are those it owned followed by the new
    ones in the order given, the old bytes of the file are unchanged, and no block but
    those of block numbers is written. *)
Theorem increase_size_correct {D : Type} `{BlockDeviceSpec D} has (s : FsState D) h d new_size nb :
  cache_ok has s h -> (S (size h) < BLOCK_CACHE_SIZE)%nat -> inode_wf has h (view s) d ->
  new_size <= 16540 * 512 -> Forall is_u32 nb -> NoDup (owned (view s) d ++ nb) ->
  (forall id, id ∈ nb -> has id /\ h !! id = None) ->
  blocks_num_needed d new_size = Ok (Z.of_nat (length nb)) ->
  wp (increase_size d new_size nb 0)
    (fun d' s' => cache_ok has s' h /\ inode_grown has h (view s) d new_size nb (view s') d') s.
Proof.
  intros Hok Hsize Hd Hs Hnu Hnd Hnb Hlen. pose proof (iw_size _ _ _ _ Hd) as Hsz. unfold blocks_num_needed in Hlen.
  destruct (Z.leb_spec (di_size d) new_size) as [Hle|]; [|done]. injection Hlen as Hlen.
  apply (wp_increase_size has s h); try done. rewrite <-Hlen. apply wrap32_small. apply needed_blocks; lia.
Qed.

(** [DiskInode::clear_size] returns exactly the blocks that the inode owned, data and
    block numbers, each once and as many as [total_blocks] says; it leaves an empty inode
    of the same type and changes no block of the disk. *)
Theorem clear_size_correct {D : Type} `{BlockDeviceSpec D} has (s : FsState D) h d :
  cache_ok has s h -> (S (size h) < BLOCK_CACHE_SIZE)%nat -> inode_wf has h (view s) d ->
  wp (clear_size d 0) (fun r s' => let '(v, d') := r in
    v = owned (view s) d /\ NoDup v /\ Z.of_nat (length v) = total_blocks (di_size d) /\
    di_size d' = 0 /\ type_ d' = type_ d /\ inode_wf has h (view s') d' /\ owned (view s') d' = [] /\
    cache_ok has s' h /\ (forall id, has id -> view s' id = view s id)) s.
Proof.
  intros Hok Hsize Hd. apply (wp_clear_size has s h); try done. intros d' s' Hok' Hv' Hd' Hs' Ht'.
  pose proof (iw_size _ _ _ _ Hd) as Hsz. split_and!; try done.
  - apply Hd.
  - rewrite total_blocks_len by done. apply length_owned_upto; [by eapply iw_direct|].
    unfold data_blocks. rewrite data_blocks_ceil by done. zdm.
  - by apply (empty_inode_wf has h (view s') d' (iw_valid _ _ _ _ Hd') Hs').
Qed.

(** ** A file that grows from three blocks to thirty *)

Definition grow_has (id : Z) : Prop := 0 <= id < 64.

Lemma demo_inode_wf (s : FsState Fuse.BlockFile) : inode_wf grow_has ∅ (view s) demo_inode.
Proof.
  assert (Ho : owned (view s) demo_inode = [5; 3; 4]) by reflexivity. split.
  - cbn. lia.
  - split_and!; cbn; try done; repeat constructor; done.
  - rewrite Ho. by apply (bool_decide_unpack (NoDup [5; 3; 4])).
  - intros id. rewrite Ho, !elem_of_cons, elem_of_nil. unfold grow_has. intros Hid. split; [lia|apply lookup_empty].
Qed.

Lemma increase_size_correct_witness :
  wp (increase_size demo_inode (30 * 512) (seqZ 6 28) 0) (fun d' s' =>
    owned (view s') d' = [5; 3; 4] ++ seqZ 6 28 /\ inode_wf grow_has ∅ (view s') d' /\ di_size d' = 15360) (blank_image 64).
Proof.
  eapply wp_mono; [|refine (increase_size_correct grow_has (blank_image 64) ∅ demo_inode (30 * 512) (seqZ 6 28)
    (blank_image_ok 64 _) _ (demo_inode_wf _) _ _ _ _ _)].
  - intros d' s' (_ & Hg). split_and!; [exact (ig_owned _ _ _ _ _ _ _ _ Hg)|by apply Hg|exact (ig_size _ _ _ _ _ _ _ _ Hg)].
  - lia.
  - rewrite map_size_empty. lia.
  - lia.
  - apply Forall_forall. intros x Hx%elem_of_seqZ. unfold is_u32. lia.
  - change (owned (view (blank_image 64)) demo_inode) with [5; 3; 4]. by apply (bool_decide_unpack (NoDup ([5; 3; 4] ++ seqZ 6 28))).
  - intros id Hid%elem_of_seqZ. unfold grow_has. split; [lia|apply lookup_empty].
  - reflexivity.
Defined.

Lemma clear_size_correct_witness :
  wp (clear_size demo_inode 0) (fun r s' => fst r = [5; 3; 4] /\ di_size (snd r) = 0) (blank_image 64).
Proof.
  eapply wp_mono; [|refine (clear_size_correct grow_has (blank_image 64) ∅ demo_inode (blank_image_ok 64 _) _ (demo_inode_wf _))].
  - intros [v d'] s' (-> & _ & _ & Hs & _). split; [reflexivity|exact Hs].
  - lia.
  - rewrite map_size_empty. lia.
Defined.
