(* ===== verification/UserLib.v ===== *)
(** * The user library (user/src/lib.rs, syscall.rs, console.rs, lang_items.rs)

    A user program is an interaction tree: it runs in user mode and meets the rest of the
    system only at [ecall], when it reads its memory after the kernel wrote there, and at
    the console buffer, a global of the library.  Loops such as the one of [wait] need
    not end.  A slice or string is its address and its bytes; what the kernel receives is
    the address and the length. *)

From S2P Require Import Prelude Utf8.
From ITree Require Import ITree.

(** The notations of the state monad, for interaction trees. *)
Declare Scope user_scope.
Delimit Scope user_scope with U.
Notation "'let*' x ':=' m 'in' k" := (ITree.bind m (fun x => k))
  (at level 100, x pattern, m at next level, right associativity,
   format "'let*'  x  ':='  m  'in' '//' k") : user_scope.
Notation "m ;; k" := (ITree.bind m (fun _ => k))
  (at level 100, right associativity) : user_scope.

Module User.

Record slice : Type := mk_slice { ptr : Z; bytes : list Z }.
Definition slice_len (s : slice) : Z := Z.of_nat (length (bytes s)).

(** An argument register: a number, or the address of bytes that the kernel may read. *)
Inductive arg : Type :=
| Num (z : Z)
| Ptr (s : slice).
Definition arg_word (a : arg) : Z :=
  match a with
  | Num z => z
  | Ptr s => ptr s
  end.

Inductive userE : Type -> Type :=
| Ecall (id : Z) (args : list arg) : userE Z
| LoadUsize (addr : Z) : userE Z
| LoadByte (addr : Z) : userE Z
| StoreByte (addr v : Z) : userE unit
| GetBuffer : userE (list Z)
| SetBuffer (b : list Z) : userE unit.

Abbreviation user := (itree userE).
Definition load_usize (a : Z) : user Z := ITree.trigger (LoadUsize a).
Definition load_byte (a : Z) : user Z := ITree.trigger (LoadByte a).
Definition store_byte (a v : Z) : user unit := ITree.trigger (StoreByte a v).
Definition get_buffer : user (list Z) := ITree.trigger GetBuffer.
Definition set_buffer (b : list Z) : user unit := ITree.trigger (SetBuffer b).

#[local] Open Scope user_scope.

(** ** System calls (syscall.rs) *)

(** The constants, by name. *)
Inductive SyscallId : Type :=
| SYSCALL_OPENAT
| SYSCALL_CLOSE
| SYSCALL_READ
| SYSCALL_WRITE
| SYSCALL_UNLINKAT
| SYSCALL_LINKAT
| SYSCALL_FSTAT
| SYSCALL_EXIT
| SYSCALL_SLEEP
| SYSCALL_YIELD
| SYSCALL_GETTIMEOFDAY
| SYSCALL_GETPID
| SYSCALL_GETTID
| SYSCALL_FORK
| SYSCALL_EXEC
| SYSCALL_WAITPID
| SYSCALL_SET_PRIORITY
| SYSCALL_MUNMAP
| SYSCALL_MMAP
| SYSCALL_SPAWN
| SYSCALL_MAIL_READ
| SYSCALL_MAIL_WRITE
| SYSCALL_DUP
| SYSCALL_PIPE
| SYSCALL_TASK_INFO
| SYSCALL_THREAD_CREATE
| SYSCALL_WAITTID
| SYSCALL_MUTEX_CREATE
| SYSCALL_MUTEX_LOCK
| SYSCALL_MUTEX_UNLOCK
| SYSCALL_SEMAPHORE_CREATE
| SYSCALL_SEMAPHORE_UP
| SYSCALL_ENABLE_DEADLOCK_DETECT
| SYSCALL_SEMAPHORE_DOWN
| SYSCALL_CONDVAR_CREATE
| SYSCALL_CONDVAR_SIGNAL
| SYSCALL_CONDVAR_WAIT.

Definition syscall_number (id : SyscallId) : Z :=
  match id with
  | SYSCALL_OPENAT => 56
  | SYSCALL_CLOSE => 57
  | SYSCALL_READ => 63
  | SYSCALL_WRITE => 64
  | SYSCALL_UNLINKAT => 35
  | SYSCALL_LINKAT => 37
  | SYSCALL_FSTAT => 80
  | SYSCALL_EXIT => 93
  | SYSCALL_SLEEP => 101
  | SYSCALL_YIELD => 124
  | SYSCALL_GETTIMEOFDAY => 169
  | SYSCALL_GETPID => 172
  | SYSCALL_GETTID => 178
  | SYSCALL_FORK => 220
  | SYSCALL_EXEC => 221
  | SYSCALL_WAITPID => 260
  | SYSCALL_SET_PRIORITY => 140
  | SYSCALL_MUNMAP => 215
  | SYSCALL_MMAP => 222
  | SYSCALL_SPAWN => 400
  | SYSCALL_MAIL_READ => 401
  | SYSCALL_MAIL_WRITE => 402
  | SYSCALL_DUP => 24
  | SYSCALL_PIPE => 59
  | SYSCALL_TASK_INFO => 410
  | SYSCALL_THREAD_CREATE => 460
  | SYSCALL_WAITTID => 462
  | SYSCALL_MUTEX_CREATE => 463
  | SYSCALL_MUTEX_LOCK => 464
  | SYSCALL_MUTEX_UNLOCK => 466
  | SYSCALL_SEMAPHORE_CREATE => 467
  | SYSCALL_SEMAPHORE_UP => 468
  | SYSCALL_ENABLE_DEADLOCK_DETECT => 469
  | SYSCALL_SEMAPHORE_DOWN => 470
  | SYSCALL_CONDVAR_CREATE => 471
  | SYSCALL_CONDVAR_SIGNAL => 472
  | SYSCALL_CONDVAR_WAIT => 473
  end.
Coercion syscall_number : SyscallId >-> Z.

(** [ecall] with the number in x17 and the arguments from x10 on; x10 is the result. *)
Definition syscall (id : Z) (args : list arg) : user Z :=
  let* r := ITree.trigger (Ecall id args) in
  Ret (as_isize r).
Definition syscall6 (id : Z) (args : list arg) : user Z :=
  let* r := ITree.trigger (Ecall id args) in
  Ret (as_isize r).

Definition sys_openat (dirfd : Z) (path : slice) (flags mode : Z) : user Z :=
  syscall6 SYSCALL_OPENAT [Num dirfd; Ptr path; Num flags; Num mode; Num 0; Num 0].
Definition sys_close (fd : Z) : user Z := syscall SYSCALL_CLOSE [Num fd; Num 0; Num 0].
Definition sys_read (fd : Z) (buffer : slice) : user Z :=
  syscall SYSCALL_READ [Num fd; Ptr buffer; Num (slice_len buffer)].
Definition sys_write (fd : Z) (buffer : slice) : user Z :=
  syscall SYSCALL_WRITE [Num fd; Ptr buffer; Num (slice_len buffer)].
Definition sys_linkat (old_dirfd : Z) (old_path : slice) (new_dirfd : Z) (new_path : slice) (flags : Z) : user Z :=
  syscall6 SYSCALL_LINKAT [Num old_dirfd; Ptr old_path; Num new_dirfd; Ptr new_path; Num flags; Num 0].
Definition sys_unlinkat (dirfd : Z) (path : slice) (flags : Z) : user Z :=
  syscall SYSCALL_UNLINKAT [Num dirfd; Ptr path; Num flags].
Definition sys_fstat (fd st : Z) : user Z := syscall SYSCALL_FSTAT [Num fd; Num st; Num 0].
Definition sys_mail_read (buffer : slice) : user Z :=
  syscall SYSCALL_MAIL_READ [Ptr buffer; Num (slice_len buffer); Num 0].
Definition sys_mail_write (pid : Z) (buffer : slice) : user Z :=
  syscall SYSCALL_MAIL_WRITE [Num pid; Ptr buffer; Num (slice_len buffer)].
Definition sys_sleep (sleep_ms : Z) : user Z := syscall SYSCALL_SLEEP [Num sleep_ms; Num 0; Num 0].
Definition sys_yield : user Z := syscall SYSCALL_YIELD [Num 0; Num 0; Num 0].
Definition sys_get_time (time tz : Z) : user Z := syscall SYSCALL_GETTIMEOFDAY [Num time; Num tz; Num 0].
Definition sys_getpid : user Z := syscall SYSCALL_GETPID [Num 0; Num 0; Num 0].
Definition sys_fork : user Z := syscall SYSCALL_FORK [Num 0; Num 0; Num 0].
Definition sys_exec (path : slice) (args : Z) : user Z := syscall SYSCALL_EXEC [Ptr path; Num args; Num 0].
Definition sys_waitpid (pid xstatus : Z) : user Z :=
  syscall SYSCALL_WAITPID [Num (as_usize pid); Num xstatus; Num 0].
Definition sys_set_priority (prio : Z) : user Z :=
  syscall SYSCALL_SET_PRIORITY [Num (as_usize prio); Num 0; Num 0].
Definition sys_mmap (start len prot : Z) : user Z := syscall SYSCALL_MMAP [Num start; Num len; Num prot].
Definition sys_munmap (start len : Z) : user Z := syscall SYSCALL_MUNMAP [Num start; Num len; Num 0].
Definition sys_spawn (path : slice) : user Z := syscall SYSCALL_SPAWN [Ptr path; Num 0; Num 0].
Definition sys_dup (fd : Z) : user Z := syscall SYSCALL_DUP [Num fd; Num 0; Num 0].
Definition sys_pipe (pipe : Z) : user Z := syscall SYSCALL_PIPE [Num pipe; Num 0; Num 0].
Definition sys_task_info (info : Z) : user Z := syscall SYSCALL_TASK_INFO [Num info; Num 0; Num 0].

(** The calls on threads, mutexes, semaphores and condition variables. *)
Inductive ThreadCall : Type :=
| sys_thread_create (entry arg : Z)
| sys_gettid
| sys_waittid (tid : Z)
| sys_mutex_create (blocking : bool)
| sys_mutex_lock (id : Z)
| sys_mutex_unlock (id : Z)
| sys_semaphore_create (res_count : Z)
| sys_semaphore_up (sem_id : Z)
| sys_enable_deadlock_detect (enabled : Z)
| sys_semaphore_down (sem_id : Z)
| sys_condvar_create (arg : Z)
| sys_condvar_signal (condvar_id : Z)
| sys_condvar_wait (condvar_id mutex_id : Z).

Definition thread_call (c : ThreadCall) : user Z :=
  match c with
  | sys_thread_create entry arg => syscall SYSCALL_THREAD_CREATE [Num entry; Num arg; Num 0]
  | sys_gettid => syscall SYSCALL_GETTID [Num 0; Num 0; Num 0]
  | sys_waittid tid => syscall SYSCALL_WAITTID [Num tid; Num 0; Num 0]
  | sys_mutex_create blocking => syscall SYSCALL_MUTEX_CREATE [Num (Z.b2z blocking); Num 0; Num 0]
  | sys_mutex_lock id => syscall SYSCALL_MUTEX_LOCK [Num id; Num 0; Num 0]
  | sys_mutex_unlock id => syscall SYSCALL_MUTEX_UNLOCK [Num id; Num 0; Num 0]
  | sys_semaphore_create res_count => syscall SYSCALL_SEMAPHORE_CREATE [Num res_count; Num 0; Num 0]
  | sys_semaphore_up sem_id => syscall SYSCALL_SEMAPHORE_UP [Num sem_id; Num 0; Num 0]
  | sys_enable_deadlock_detect enabled => syscall SYSCALL_ENABLE_DEADLOCK_DETECT [Num enabled; Num 0; Num 0]
  | sys_semaphore_down sem_id => syscall SYSCALL_SEMAPHORE_DOWN [Num sem_id; Num 0; Num 0]
  | sys_condvar_create arg => syscall SYSCALL_CONDVAR_CREATE [Num arg; Num 0; Num 0]
  | sys_condvar_signal condvar_id => syscall SYSCALL_CONDVAR_SIGNAL [Num condvar_id; Num 0; Num 0]
  | sys_condvar_wait condvar_id mutex_id => syscall SYSCALL_CONDVAR_WAIT [Num condvar_id; Num mutex_id; Num 0]
  end.

(** ** The console (console.rs) *)

Abbreviation STDIN := (0) (only parsing).
Abbreviation STDOUT := (1) (only parsing).
Abbreviation CONSOLE_BUFFER_SIZE := (256 * 10) (only parsing).

(** Functions of lib.rs that only pass their arguments on are abbreviations. *)
Abbreviation read := sys_read.
Abbreviation write := sys_write.

Section Console.
(** Where [make_contiguous] has the bytes of the deque. *)
Context (buffer_ptr : Z).

(** [ConsoleBuffer::flush]: the buffer is cleared whatever [write] returns. *)
Definition ConsoleBuffer_flush : user Z :=
  let* b := get_buffer in
  let* r := write STDOUT (mk_slice buffer_ptr b) in
  set_buffer [] ;;
  Ret r.

(** [write_str]: [false] is [Err(fmt::Error)]. *)
Fixpoint write_str (s : list Z) : user bool :=
  match s with
  | [] => Ret true
  | c :: s' =>
      let* b := get_buffer in
      let b := b ++ [c] in
      set_buffer b ;;
      if (c =? 10) || (Z.of_nat (length b) =? CONSOLE_BUFFER_SIZE) then
        let* r := ConsoleBuffer_flush in
        if r =? -1 then Ret false else write_str s'
      else write_str s'
  end.

(** [print]: the pieces that the formatting machinery writes, up to the first error,
    which is ignored. *)
Fixpoint print (pieces : list (list Z)) : user unit :=
  match pieces with
  | [] => Ret tt
  | s :: ps =>
      let* ok := write_str s in
      if ok then print ps else Ret tt
  end.

Definition flush : user unit := ConsoleBuffer_flush ;; Ret tt.

(** [getchar], with its array at [addr]. *)
Definition getchar (addr : Z) : user Z :=
  read STDIN (mk_slice addr [0]) ;;
  load_byte addr.

(** ** Leaving (lib.rs, lang_items.rs) *)

(** [exit] flushes and calls [sys_exit]; should that return, [sys_exit] panics, and the
    panic handler prints its message and calls [exit(-1)]. *)
Definition exit (panic_message : list (list Z)) (exit_code : Z) : user void :=
  ITree.iter (fun code =>
    flush ;;
    syscall SYSCALL_EXIT [Num (as_usize code); Num 0; Num 0] ;;
    print panic_message ;;
    Ret (inl (-1))) exit_code.

(** [close] *)
Definition close (fd : Z) : user Z :=
  (if fd =? STDOUT then flush else Ret tt) ;;
  sys_close fd.

End Console.

(** ** The rest of lib.rs *)

Abbreviation AT_FDCWD := (-100) (only parsing).
Inductive OpenFlags : Type :=
| RDONLY
| WRONLY
| RDWR
| CREATE
| TRUNC.

Definition open_flags_bits (f : OpenFlags) : Z :=
  match f with
  | RDONLY => 0
  | WRONLY => Z.shiftl 1 0
  | RDWR => Z.shiftl 1 1
  | CREATE => Z.shiftl 1 9
  | TRUNC => Z.shiftl 1 10
  end.

Definition open (path : slice) (flags : Z) : user Z :=
  sys_openat (as_usize AT_FDCWD) path flags (open_flags_bits RDWR).
Definition link (old_path new_path : slice) : user Z :=
  sys_linkat (as_usize AT_FDCWD) old_path (as_usize AT_FDCWD) new_path 0.
Definition unlink (path : slice) : user Z := sys_unlinkat (as_usize AT_FDCWD) path 0.
Abbreviation yield_ := sys_yield.

(** [get_time], with its [TimeVal] at [time]: seconds in the first word, microseconds in
    the second. *)
Definition get_time (time : Z) : user Z :=
  let* r := sys_get_time time 0 in
  if r =? 0 then
    let* sec := load_usize time in
    let* usec := load_usize (time +% 8) in
    Ret (as_isize (Z.land sec 0xffff *% 1000 +% usec / 1000))
  else Ret (-1).

(** [wait] and [waitpid]: the kernel answers -2 while the child runs. *)
Definition waitpid_loop (pid exit_code : Z) : user Z :=
  ITree.iter (fun _ : unit =>
    let* n := sys_waitpid pid exit_code in
    if n =? -2 then sys_yield ;; Ret (inl tt) else Ret (inr n)) tt.
Definition wait (exit_code : Z) : user Z := waitpid_loop (-1) exit_code.
Definition waitpid (pid exit_code : Z) : user Z := waitpid_loop (as_isize pid) exit_code.

(** [sleep], with the [TimeVal] of its calls of [get_time] at [time]. *)
Definition sleep (time period_ms : Z) : user unit :=
  let* start := get_time time in
  ITree.iter (fun _ : unit =>
    let* now := get_time time in
    if now <? as_isize (as_usize (start + as_isize period_ms)) then sys_yield ;; Ret (inl tt)
    else Ret (inr tt)) tt.

Definition waittid (tid : Z) : user Z :=
  ITree.iter (fun _ : unit =>
    let* n := thread_call (sys_waittid tid) in
    if n =? -2 then yield_ ;; Ret (inl tt) else Ret (inr n)) tt.

Definition sleep_blocking (sleep_ms : Z) : user unit := sys_sleep sleep_ms ;; Ret tt.
Abbreviation fstat := sys_fstat.
Abbreviation mail_read := sys_mail_read.
Abbreviation mail_write := sys_mail_write.
Abbreviation getpid := sys_getpid.
Abbreviation fork := sys_fork.
Abbreviation exec := sys_exec.
Abbreviation set_priority := sys_set_priority.
Abbreviation mmap := sys_mmap.
Abbreviation munmap := sys_munmap.
Abbreviation spawn := sys_spawn.
Abbreviation dup := sys_dup.
Abbreviation pipe := sys_pipe.
Abbreviation task_info := sys_task_info.
Abbreviation thread_create entry arg := (thread_call (sys_thread_create entry arg)).
Abbreviation gettid := (thread_call sys_gettid).
Abbreviation mutex_create := (thread_call (sys_mutex_create false)).
Abbreviation mutex_blocking_create := (thread_call (sys_mutex_create true)).
Abbreviation mutex_lock id := (thread_call (sys_mutex_lock id)).
Abbreviation mutex_unlock id := (thread_call (sys_mutex_unlock id) ;; Ret tt).
Abbreviation semaphore_create res_count := (thread_call (sys_semaphore_create res_count)).
Abbreviation semaphore_up sem_id := (thread_call (sys_semaphore_up sem_id) ;; Ret tt).
Abbreviation enable_deadlock_detect enabled := (thread_call (sys_enable_deadlock_detect (Z.b2z enabled))).
Abbreviation semaphore_down sem_id := (thread_call (sys_semaphore_down sem_id)).
Abbreviation condvar_create := (thread_call (sys_condvar_create 0)).
Abbreviation condvar_signal condvar_id := (thread_call (sys_condvar_signal condvar_id) ;; Ret tt).
Abbreviation condvar_wait condvar_id mutex_id := (thread_call (sys_condvar_wait condvar_id mutex_id) ;; Ret tt).

(** The bytes of a string up to its NUL. *)
Definition read_cstr (str_start : Z) : user (list Z) :=
  ITree.iter (fun acc : list Z =>
    let* b := load_byte (str_start +% Z.of_nat (length acc)) in
    if b =? 0 then Ret (inr acc) else Ret (inl (acc ++ [b]))) [].

(** The loop of [_start]: [None] if an argument is not UTF-8, on which it panics. *)
Fixpoint collect_args (argv : Z) (ixs : list Z) (v : list (list Z)) : user (option (list (list Z))) :=
  match ixs with
  | [] => Ret (Some v)
  | i :: ixs' =>
      let* str_start := load_usize (argv +% i *% 8) in
      let* str := read_cstr str_start in
      match from_utf8 str with
      | Some _ => collect_args argv ixs' (vec_push v str)
      | None => Ret None
      end
  end.

(** [_start], after it cleared its bss and set up its heap. *)
Definition start (buffer_ptr : Z) (panic_message : list (list Z)) (main : Z -> list (list Z) -> user Z)
    (argc argv : Z) : user void :=
  let* v := collect_args argv (seqZ 0 argc) [] in
  match v with
  | Some v =>
      let* code := main argc v in
      exit buffer_ptr panic_message code
  | None =>
      print buffer_ptr panic_message ;;
      exit buffer_ptr panic_message (-1)
  end.

End User.
