(* ===== verification/UserSpec.v ===== *)
(** * What the user library relies on and promises

    The kernel is an argument: a step that takes a system call to its answer.  [wait] and
    [waitpid] return the first answer that is not -2 and yield in between; printing
    passes every byte on, in order; the numbers and arguments of the system calls are
    those of the kernel's dispatcher. *)

From S2P Require Import Prelude FrameAllocator MemorySet Kernel Processor Syscall SchedulerSpec UserLib.
From ITree Require Import ITree ITreeFacts Events.State Events.StateFacts.
Import User.

#[local] Open Scope user_scope.

Section Run.
Context {K : Type} (kernel : K -> Z -> list arg -> K * Z) (load : K -> Z -> Z) (load8 : K -> Z -> Z) (store8 : K -> Z -> Z -> K).

(** The state of a program: the system outside it, and its console buffer. *)
Definition handle : userE ~> Monads.stateT (K * list Z) (itree void1) :=
  fun _ e '(k, b) =>
    match e with
    | Ecall id args => let '(k', r) := kernel k id args in Ret ((k', b), r)
    | LoadUsize a => Ret ((k, b), load k a)
    | LoadByte a => Ret ((k, b), load8 k a)
    | StoreByte a v => Ret ((store8 k a v, b), tt)
    | GetBuffer => Ret ((k, b), b)
    | SetBuffer b' => Ret ((k, b'), tt)
    end.

Definition run {A} (u : itree userE A) (k : K) (b : list Z) : itree void1 ((K * list Z) * A) :=
  interp_state handle u (k, b).

Lemma run_bind {A B} (u : itree userE A) (f : A -> itree userE B) k b :
  run (ITree.bind u f) k b ≈ ITree.bind (run u k b) (fun '((k', b'), a) => run (f a) k' b').
Proof.
  unfold run. rewrite interp_state_bind. apply eutt_eq_bind. by intros [[k' b'] a].
Qed.

Lemma run_ret {A} (a : A) k b : run (Ret a) k b ≈ Ret ((k, b), a).
Proof. unfold run. by rewrite interp_state_ret. Qed.

Lemma run_trigger {A} (e : userE A) k b : run (ITree.trigger e) k b ≈ handle _ e (k, b).
Proof. apply interp_state_trigger. Qed.

(** Running a part that is known to return. *)
Lemma run_step {A B} (u : itree userE A) (f : A -> itree userE B) k b k' b' a t :
  run u k b ≈ Ret ((k', b'), a) -> run (f a) k' b' ≈ t -> run (ITree.bind u f) k b ≈ t.
Proof. intros Hu Ht. rewrite run_bind, Hu, bind_ret_l. exact Ht. Qed.

Lemma run_syscall id args k b k' r :
  kernel k id args = (k', r) -> run (syscall id args) k b ≈ Ret ((k', b), as_isize r).
Proof.
  intros Hk. unfold syscall. eapply run_step; [|apply run_ret].
  rewrite run_trigger. cbn. by rewrite Hk.
Qed.

Lemma run_get_buffer k b : run get_buffer k b ≈ Ret ((k, b), b).
Proof. unfold get_buffer. by rewrite run_trigger. Qed.

Lemma run_set_buffer k b b' : run (set_buffer b') k b ≈ Ret ((k, b'), tt).
Proof. unfold set_buffer. by rewrite run_trigger. Qed.

(** ** Waiting for a child *)

(** The kernel answers -2 some number of times, is yielded to each time, and then gives
    the answer [v]. *)
Inductive answers (pid code : Z) : K -> K -> Z -> Prop :=
| answers_now k k' r :
    kernel k SYSCALL_WAITPID [Num (as_usize pid); Num code; Num 0] = (k', r) -> as_isize r <> -2 ->
    answers pid code k k' (as_isize r)
| answers_later k k1 k2 k3 r y v :
    kernel k SYSCALL_WAITPID [Num (as_usize pid); Num code; Num 0] = (k1, r) -> as_isize r = -2 ->
    kernel k1 SYSCALL_YIELD [Num 0; Num 0; Num 0] = (k2, y) ->
    answers pid code k2 k3 v -> answers pid code k k3 v.

Lemma run_waitpid_loop pid code k k' b v :
  answers pid code k k' v -> run (waitpid_loop pid code) k b ≈ Ret ((k', b), v).
Proof.
  induction 1 as [k k' r Hw Hne|k k1 k2 k3 r y v Hw He Hy _ IH]; unfold run, waitpid_loop; rewrite unfold_iter.
  - eapply run_step; [eapply run_step; [by apply run_syscall|]|].
    + rewrite (proj2 (Z.eqb_neq _ _)) by done. apply run_ret.
    + apply run_ret.
  - eapply run_step; [eapply run_step; [by apply run_syscall|]|].
    + rewrite (proj2 (Z.eqb_eq _ _)) by done. eapply run_step; [by apply run_syscall|apply run_ret].
    + cbn. unfold run. rewrite interp_state_tau, tau_eutt. exact IH.
Qed.

(** [wait] and [waitpid] return exactly when the kernel gives an answer other than
    -2: they call [sys_waitpid], yield to the kernel after each -2, and return the first
    other answer, leaving the console buffer alone. *)
Theorem wait_returns_answer pid code k k' b v :
  answers pid code k k' v ->
  run (waitpid_loop pid code) k b ≈ Ret ((k', b), v) /\
  (pid = -1 -> run (wait code) k b ≈ Ret ((k', b), v)) /\
  (0 <= pid < 2 ^ 63 -> run (waitpid pid code) k b ≈ Ret ((k', b), v)).
Proof.
  intros Ha. split_and!.
  - by apply run_waitpid_loop.
  - intros ->. by apply run_waitpid_loop.
  - intros Hpid. unfold waitpid, as_isize. rewrite (proj2 (Z.ltb_lt _ _)) by lia. by apply run_waitpid_loop.
Qed.

(** ** Printing *)

(** What the kernel has written to the console so far; it writes the whole of a buffer
    that fits and does not answer -1. *)
Context (written : K -> list Z) (buffer_ptr : Z).

Definition write_appends : Prop :=
  forall k bs, Z.of_nat (length bs) <= CONSOLE_BUFFER_SIZE -> exists k' r, kernel k SYSCALL_WRITE
    [Num STDOUT; Ptr (mk_slice buffer_ptr bs); Num (Z.of_nat (length bs))] = (k', r) /\
    as_isize r <> -1 /\ written k' = written k ++ bs.

(** Nothing in the buffer should have been flushed. *)
Definition buffer_ok (b : list Z) : Prop := (10 ∉ b) /\ Z.of_nat (length b) < CONSOLE_BUFFER_SIZE.

Context (Hwrites : write_appends).

Lemma run_flush k b :
  Z.of_nat (length b) <= CONSOLE_BUFFER_SIZE -> exists k' r, run (ConsoleBuffer_flush buffer_ptr) k b ≈ Ret ((k', []), r) /\ r <> -1 /\
    written k' = written k ++ b.
Proof.
  intros Hlen. destruct (Hwrites k b Hlen) as (k' & r & Hk & Hr & Hw). exists k', (as_isize r). split; [|done].
  unfold ConsoleBuffer_flush. eapply run_step; [apply run_get_buffer|].
  eapply run_step; [by apply run_syscall|]. eapply run_step; [apply run_set_buffer|]. apply run_ret.
Qed.

Lemma run_write_str s : forall k b, buffer_ok b ->
  exists k' b', run (write_str buffer_ptr s) k b ≈ Ret ((k', b'), true) /\ buffer_ok b' /\
    written k' ++ b' = written k ++ b ++ s.
Proof.
  induction s as [|c s IH]; intros k b Hb; cbn [write_str].
  { exists k, b. rewrite app_nil_r. split; [apply run_ret|done]. }
  destruct ((c =? 10) || (Z.of_nat (length (b ++ [c])) =? CONSOLE_BUFFER_SIZE)) eqn:Hc.
  - destruct (run_flush k (b ++ [c])) as (k1 & r & Hf & Hr & Hw); [destruct Hb; rewrite length_app; cbn; lia|].
    destruct (IH k1 []) as (k' & b' & Hs & Hb' & Hw').
    { split; [apply not_elem_of_nil|]. done. }
    exists k', b'. split; [|split; [done|]].
    + eapply run_step; [apply run_get_buffer|]. eapply run_step; [apply run_set_buffer|].
      rewrite Hc. eapply run_step; [exact Hf|]. by rewrite (proj2 (Z.eqb_neq _ _)) by done.
    + rewrite Hw', Hw. by rewrite <-!app_assoc.
  - apply orb_false_iff in Hc as [Hc Hl]. apply Z.eqb_neq in Hc, Hl.
    destruct (IH k (b ++ [c])) as (k' & b' & Hs & Hb' & Hw').
    { destruct Hb as [Hn Hlt]. split.
      - rewrite elem_of_app, list_elem_of_singleton. by intros [?|?].
      - rewrite length_app in *. cbn in *. lia. }
    exists k', b'. split; [|split; [done|]].
    + eapply run_step; [apply run_get_buffer|]. eapply run_step; [apply run_set_buffer|].
      rewrite (proj2 (Z.eqb_neq _ _)), (proj2 (Z.eqb_neq _ _)) by done. exact Hs.
    + rewrite Hw'. by rewrite <-!app_assoc.
Qed.

Lemma run_print ps : forall k b, buffer_ok b ->
  exists k' b', run (print buffer_ptr ps) k b ≈ Ret ((k', b'), tt) /\ buffer_ok b' /\
    written k' ++ b' = written k ++ b ++ concat ps.
Proof.
  induction ps as [|s ps IH]; intros k b Hb; cbn [print concat].
  { exists k, b. rewrite app_nil_r. split; [apply run_ret|done]. }
  destruct (run_write_str s k b Hb) as (k1 & b1 & Hs & Hb1 & Hw1).
  destruct (IH k1 b1 Hb1) as (k' & b' & Hp & Hb' & Hw'). exists k', b'. split; [|split; [done|]].
  - eapply run_step; [exact Hs|]. exact Hp.
  - rewrite Hw', app_assoc, Hw1. by rewrite <-!app_assoc.
Qed.

(** Printing loses, duplicates and reorders nothing: what was on the console followed
    by the buffer grows by exactly the bytes printed, however they are cut into pieces;
    the buffer never holds a newline or 2560 bytes afterwards, and after [flush] all of
    the text is on the console. *)
Theorem print_in_order ps k b :
  buffer_ok b ->
  exists k1 b1 k2,
    run (print buffer_ptr ps) k b ≈ Ret ((k1, b1), tt) /\ buffer_ok b1 /\
    written k1 ++ b1 = written k ++ b ++ concat ps /\
    run (print buffer_ptr ps ;; flush buffer_ptr) k b ≈ Ret ((k2, []), tt) /\
    written k2 = written k ++ b ++ concat ps.
Proof.
  intros Hb. destruct (run_print ps k b Hb) as (k1 & b1 & Hp & Hb1 & Hw1).
  destruct (run_flush k1 b1) as (k2 & r & Hf & _ & Hw2); [destruct Hb1; lia|]. exists k1, b1, k2. split_and!; [done..| |].
  - eapply run_step; [exact Hp|]. eapply run_step; [exact Hf|]. apply run_ret.
  - by rewrite Hw2.
Qed.

End Run.

(** A kernel that writes, and lets a child run for two rounds before it is found. *)
Record demo_sys : Type := mk_sys { out : list Z; rounds : nat }.
Definition demo_kernel_step (k : demo_sys) (id : Z) (args : list arg) : demo_sys * Z :=
  match args with
  | [Num 1; Ptr s; Num n] => if id =? SYSCALL_WRITE then (mk_sys (out k ++ bytes s) (rounds k), n) else (k, 0)
  | _ =>
      if id =? SYSCALL_WAITPID then
        match rounds k with
        | O => (k, 7)
        | S n => (mk_sys (out k) n, as_usize (-2))
        end
      else (k, 0)
  end.

Lemma wait_returns_answer_witness :
  run demo_kernel_step (fun _ _ => 0) (fun _ _ => 0) (fun k _ _ => k) (wait 4096) (mk_sys [] 2) [] ≈ Ret ((mk_sys [] 0, []), 7).
Proof.
  refine (proj1 (proj2 (wait_returns_answer demo_kernel_step (fun _ _ => 0) (fun _ _ => 0) (fun k _ _ => k) (-1) 4096
    (mk_sys [] 2) (mk_sys [] 0) [] 7 _)) eq_refl).
  eapply answers_later; [reflexivity|reflexivity|reflexivity|].
  eapply answers_later; [reflexivity|reflexivity|reflexivity|].
  apply (answers_now _ _ _ _ _ 7); [reflexivity|done].
Defined.

Lemma demo_kernel_writes : write_appends demo_kernel_step out 8192.
Proof.
  intros k bs Hlen. exists (mk_sys (out k ++ bs) (rounds k)), (Z.of_nat (length bs)). split_and!; [done| |done].
  unfold as_isize, CONSOLE_BUFFER_SIZE in *. case_match; lia.
Qed.

Lemma print_in_order_witness :
  exists k2, run demo_kernel_step (fun _ _ => 0) (fun _ _ => 0) (fun k _ _ => k)
    (print 8192 [[72; 105]; [10; 33]] ;; flush 8192) (mk_sys [] 0) [] ≈ Ret ((k2, []), tt) /\
    out k2 = [72; 105; 10; 33].
Proof.
  destruct (print_in_order demo_kernel_step (fun _ _ => 0) (fun _ _ => 0) (fun k _ _ => k) out 8192 demo_kernel_writes
    [[72; 105]; [10; 33]] (mk_sys [] 0) []) as (k1 & b1 & k2 & _ & _ & _ & Hr & Hw).
  - split; [apply not_elem_of_nil|done].
  - exists k2. split; [exact Hr|exact Hw].
Defined.

(** ** The interface to the kernel *)

Section Abi.
Context {T : Type} `{FrameAllocator T} (pf : Platform).

(** The dispatcher on the argument registers of an [ecall]. *)
Definition kernel_entry (id : Z) (args : list arg) : M (Kernel T) control :=
  match args with
  | a0 :: a1 :: a2 :: _ => Syscall.syscall pf id (arg_word a0) (arg_word a1) (arg_word a2)
  | _ => panic OutOfRange
  end.

(** The wrapper [u] is one [ecall], and it makes the kernel count the call and run [m]. *)
Definition enters (u : itree userE Z) (m : M (Kernel T) control) : Prop :=
  exists id args, u = User.syscall id args /\ forall k, kernel_entry id args k = (count_syscall id ;; m)%M k.

Lemma as_isize_usize z : - 2 ^ 63 <= z < 2 ^ 63 -> as_isize (as_usize z) = z.
Proof.
  intros Hz. unfold as_isize, as_usize, wrap64. case_match eqn:E; [apply Z.ltb_lt in E|apply Z.ltb_ge in E]; zdm.
Qed.

Lemma as_i32_usize z : - 2 ^ 31 <= z < 2 ^ 31 -> as_i32 (as_usize z) = z.
Proof.
  intros Hz. unfold as_i32, as_usize, wrap32, wrap64.
  case_match eqn:E; [apply Z.ltb_lt in E|apply Z.ltb_ge in E]; zdm.
Qed.

(** C34: The system-call numbers, argument order and conversions of the user library and
    of the kernel agree: each wrapper is one [ecall] on which the dispatcher runs the
    handler of that name on the same arguments; signed arguments arrive unchanged. *)
Theorem user_kernel_abi (fd start len prot addr tz pid prio : Z) (buf path : slice) :
  - 2 ^ 63 <= pid < 2 ^ 63 -> - 2 ^ 63 <= prio < 2 ^ 63 ->
  enters (User.sys_read fd buf) (Syscall.sys_read pf fd (ptr buf) (slice_len buf)) /\
  enters (User.sys_write fd buf) (Syscall.sys_write fd (ptr buf) (slice_len buf)) /\
  enters User.sys_yield Syscall.sys_yield /\
  enters User.sys_getpid Syscall.sys_getpid /\
  enters User.sys_fork (Syscall.sys_fork pf) /\
  enters (User.sys_exec path addr) (Syscall.sys_exec pf (ptr path)) /\
  enters (User.sys_waitpid pid addr) (Syscall.sys_waitpid pf pid addr) /\
  enters (User.sys_get_time addr tz) (Syscall.sys_get_time pf addr tz) /\
  enters (User.sys_mmap start len prot) (Syscall.sys_mmap start len prot) /\
  enters (User.sys_munmap start len) (Syscall.sys_munmap start len) /\
  enters (User.sys_set_priority prio) (Syscall.sys_set_priority prio) /\
  enters (User.sys_task_info addr) (Syscall.sys_task_info pf addr) /\
  enters (User.sys_spawn path) (Syscall.sys_spawn pf (ptr path)) /\
  (forall code k, - 2 ^ 31 <= code < 2 ^ 31 ->
     kernel_entry User.SYSCALL_EXIT [Num (as_usize code); Num 0; Num 0] k =
       (count_syscall SYSCALL_EXIT ;; Syscall.sys_exit code)%M k).
Proof.
  intros Hpid Hprio. split_and!; try (eexists _, _; split; [reflexivity|]; intros k; reflexivity).
  - eexists _, _. split; [reflexivity|]. intros k. cbn [kernel_entry arg_word].
    unfold Syscall.syscall. rewrite as_isize_usize by done. reflexivity.
  - eexists _, _. split; [reflexivity|]. intros k. cbn [kernel_entry arg_word].
    unfold Syscall.syscall. rewrite !as_isize_usize by done. reflexivity.
  - intros code k Hcode. cbn [kernel_entry arg_word]. unfold Syscall.syscall. rewrite as_i32_usize by done. reflexivity.
Qed.

End Abi.

Lemma user_kernel_abi_witness :
  enters (T := StackFrameAllocator) demo_platform (User.sys_waitpid (-1) 64) (Syscall.sys_waitpid demo_platform (-1) 64).
Proof.
  refine (proj1 (proj2 (proj2 (proj2 (proj2 (proj2 (proj2 (user_kernel_abi demo_platform 1 0 0 0 64 0 (-1) 16
    (mk_slice 0 []) (mk_slice 0 []) _ _)))))))); lia.
Defined.
