(* ===== verification/DirSpec.v ===== *)
(** * Directory entries, and two limits of the file layer

    A name of at most 27 bytes survives the way to the disk and back.  The two theorems
    after it are about inputs at the edge: names of 28 bytes, and writing nothing at the
    end of a file that fills its direct blocks. *)

From S2P Require Import Prelude Utf8 Codec BlockCache BlockCacheSpec BlockFile DiskSpec DiskLayout.

Lemma find_zero_spec l p n tail :
  (0 ∉ l) -> find_zero (l ++ 0 :: tail) p = Ok (p + length l)%nat /\ (n = length l -> find_zero l p = Panic OutOfRange).
Proof.
  revert p n. induction l as [|b l IH]; intros p n Hn; cbn [app find_zero length].
  - rewrite Nat.add_0_r. done.
  - apply not_elem_of_cons in Hn as [Hb Hn]. rewrite (proj2 (Z.eqb_neq b 0)) by done.
    destruct (IH (S p) (length l) Hn) as [H1 H2]. rewrite H1, H2 by done. split; [f_equal; lia|done].
Qed.

Lemma DirEntry_new_Ok n ino :
  (length n <= 28)%nat -> DirEntry_new n ino = Ok (mk_dirent (n ++ replicate (28 - length n) 0) ino).
Proof.
  intros Hl. unfold DirEntry_new. change (Z.to_nat (NAME_LENGTH_LIMIT + 1)) with 28%nat.
  rewrite slice_Ok by (rewrite ?length_replicate; lia). do 2 f_equal. unfold put_bytes. cbn [take app].
  by rewrite drop_replicate.
Qed.

Lemma DirEntry_bytes_roundtrip e :
  length (name e) = 28%nat -> is_u32 (inode_number e) ->
  length (DirEntry_as_bytes e) = Z.to_nat DIRENT_SZ /\ DirEntry_of_bytes (DirEntry_as_bytes e) = e.
Proof.
  intros Hl Hi. unfold DirEntry_of_bytes, DirEntry_as_bytes. rewrite length_app, length_le_enc, Hl. split; [done|].
  rewrite take_app_length' by done. rewrite drop_app_length' by done.
  rewrite (take_ge (le_enc 4 _)) by (rewrite length_le_enc; lia). rewrite le_dec_enc by exact Hi. by destruct e.
Qed.

(** The three kinds of names.  A name of at most 27 bytes (UTF-8, no NUL) written to a
    directory entry and read back from its 32 bytes gives the same name and inode number.
    A name of 28 bytes is accepted by [DirEntry::new], although the limit is 27, but leaves
    no room for the terminating NUL, and [name] panics on the entry.  A longer name makes
    [DirEntry::new] panic. *)
Theorem dirent_names n cs ino :
  (0 ∉ n) -> from_utf8 n = Some cs -> is_u32 ino ->
  if (length n <=? 28)%nat then
    exists e, DirEntry_new n ino = Ok e /\ length (DirEntry_as_bytes e) = Z.to_nat DIRENT_SZ /\
      DirEntry_of_bytes (DirEntry_as_bytes e) = e /\ inode_number e = ino /\
      DirEntry_name e = if (length n <=? 27)%nat then Ok n else Panic OutOfRange
  else DirEntry_new n ino = Panic OutOfRange.
Proof.
  intros Hn Hu Hi. destruct (Nat.leb_spec (length n) 28) as [Hle|Hgt].
  - eexists. split; [by apply DirEntry_new_Ok|].
    destruct (DirEntry_bytes_roundtrip (mk_dirent (n ++ replicate (28 - length n) 0) ino)) as [Hlen Hrt]; [|done|].
    { cbn [name]. rewrite length_app, length_replicate. lia. }
    split_and!; [done..|]. unfold DirEntry_name. cbn [name].
    destruct (Nat.leb_spec (length n) 27) as [Hle'|Hgt'].
    + replace (28 - length n)%nat with (S (27 - length n)) by lia. cbn [replicate].
      destruct (find_zero_spec n 0 0 (replicate (27 - length n) 0) Hn) as [-> _]. cbn [plus].
      by rewrite take_app_length, Hu.
    + replace (28 - length n)%nat with 0%nat by lia. cbn [replicate]. rewrite app_nil_r.
      destruct (find_zero_spec n 0 (length n) [] Hn) as [_ ->]; done.
  - unfold DirEntry_new, slice. rewrite length_replicate. change (Z.to_nat (NAME_LENGTH_LIMIT + 1)) with 28%nat.
    rewrite (proj2 (Z.leb_gt (Z.of_nat (length n)) _)) by lia. by rewrite andb_false_r.
Qed.

Lemma dirent_names_witness :
  exists e, DirEntry_new [97; 46; 98] 5 = Ok e /\ DirEntry_name (DirEntry_of_bytes (DirEntry_as_bytes e)) = Ok [97; 46; 98].
Proof.
  destruct (dirent_names [97; 46; 98] [97; 46; 98] 5) as (e & He & _ & Hrt & _ & Hn).
  - rewrite !not_elem_of_cons. split_and!; [lia..|apply not_elem_of_nil].
  - reflexivity.
  - done.
  - exists e. split; [exact He|]. rewrite Hrt. exact Hn.
Defined.

(** An image whose first block is the super block of a file system. *)
Definition demo_super : SuperBlock := SuperBlock_initialize 20 1 4 1 13.
Definition demo_formatted : FsState Fuse.BlockFile :=
  mk_fs [Fuse.mk_file (to_bytes demo_super ++ replicate (Z.to_nat 10216) 0)] [].

(** A file of 28 blocks: all direct, so that [indirect1] is still 0. *)
Definition demo_full : DiskInode := mk_inode (28 * 512) (replicate 28 5) 0 0 0 [0; 0; 0].

(** Writing an empty buffer at the end of a file of exactly 28 blocks panics: the
    first round of [write_at] runs although there is nothing to write, looks block 28 up
    through [indirect1], which is 0, takes the magic number of the super block for a
    block number and reads that block of the device.  One byte earlier the same write
    returns 0. *)
Theorem write_nothing_panics :
  write_at demo_full (28 * 512) [] 0 demo_formatted = Panic AssertFailed /\
  wp (write_at demo_full (28 * 512 - 1) [] 0) (fun n _ => n = 0) demo_formatted.
Proof. vm_compute. split; reflexivity. Qed.
