(* ===== verification/EfsSpec.v ===== *)
(** * Formatting a device

    [EasyFileSystem::create] clears the device, writes the super block, allocates inode 0
    and makes it an empty directory, and synchronises; [open] then finds the same areas. *)

From S2P Require Import Prelude Codec BlockCache BlockCacheSpec BlockFile DiskSpec.
From S2P Require Import Bitmap DiskLayout Efs.

(** The areas of a device of [total] blocks of which [n] hold the inode bitmap: each of
    these describes 4096 inodes, which take 1024 blocks. *)
Definition data_bitmap_size (total n : Z) : Z := (total - 1 - n * 1025 + 4096) / 4097.
Definition areas (total n : Z) : EasyFileSystem :=
  mk_efs 0 (Bitmap_new 1 n) (Bitmap_new (1 + n * 1025) (data_bitmap_size total n))
    (1 + n) (1 + n * 1025 + data_bitmap_size total n).
Definition super_of (total n : Z) : SuperBlock :=
  SuperBlock_initialize total n (n * 1024) (data_bitmap_size total n)
    (total - 1 - n * 1025 - data_bitmap_size total n).

(** Sizes for which the areas fit and no [u32] wraps. *)
Definition size_ok (total n : Z) : Prop := 1 <= n /\ 1 + n * 1025 < total < 2 ^ 31.

Definition zero_block : list Z := replicate 512 0.

(** The root inode of a new file system. *)
Definition empty_root : DiskInode := mk_inode 0 (replicate 28 0) 0 0 1 [0; 0; 0].

(** The disk of a new file system. *)
Record formatted (total n : Z) (k : disk) : Prop := {
  fm_super : from_bytes (sub_bytes 0 24 (k 0)) = super_of total n;
  fm_inodes i : 0 <= i < n * 4096 -> bitmap_bit (inode_bitmap (areas total n)) k i = (i =? 0);
  fm_root : from_bytes (sub_bytes 0 128 (k (1 + n))) = empty_root;
  fm_blank id : 1 + n < id < total -> k id = zero_block
}.

Lemma data_bitmap_small total n : size_ok total n -> 0 < data_bitmap_size total n <= total - 1 - n * 1025.
Proof. intros [Hn Ht]. unfold data_bitmap_size. zdm. Qed.

Lemma zero_bits j : block_bit (words_dec 8 64 zero_block) j = false.
Proof.
  assert (words_dec 8 64 zero_block = replicate 64 0) as -> by (vm_compute; reflexivity).
  unfold block_bit. destruct (replicate 64 0 !! Z.to_nat (j / 64)) as [w|] eqn:Hw; [|done].
  apply lookup_replicate in Hw as [-> _]. apply Z.bits_0.
Qed.

(** The areas that [create] computes. *)
Lemma create_areas total n :
  size_ok total n ->
  let inode_area_blocks :=
    wrap32 ((Bitmap_maximum (Bitmap_new 1 n) *% Z.of_nat (size_of DiskInode) +% BLOCK_SZ -% 1) / BLOCK_SZ) in
  inode_area_blocks = n * 1024 /\ wrap32 (n + n * 1024) = n * 1025 /\
  wrap32 (wrap32 (total - 1) - n * 1025) = total - 1 - n * 1025 /\
  wrap32 (total - 1 - n * 1025 + 4096) / 4097 = data_bitmap_size total n.
Proof.
  intros [Hn Ht]. cbn zeta. unfold Bitmap_maximum, BLOCK_BITS, BLOCK_SZ. cbn [blocks size_of DiskInode_layout].
  rewrite (wrap64_small (n * (512 * 8))) by lia. rewrite (wrap64_small (n * (512 * 8) * _)) by lia.
  rewrite (wrap64_small (n * (512 * 8) * _ + 512)) by lia. rewrite (wrap64_small (_ - 1)) by lia.
  rewrite !(wrap32_small (total - 1)) by lia. split_and!.
  - replace ((n * (512 * 8) * Z.of_nat 128 + 512 - 1) / 512) with (n * 1024) by zdm. apply wrap32_small. lia.
  - rewrite wrap32_small; lia.
  - apply wrap32_small. lia.
  - unfold data_bitmap_size. by rewrite wrap32_small by lia.
Qed.

Section Format.
Context {D : Type} `{BlockDeviceSpec D} (has : Z -> Prop).
Implicit Types s : FsState D.

Lemma wp_clear_block s h id Q :
  cache_ok has s h -> h !! id = None -> (size h < BLOCK_CACHE_SIZE)%nat -> has id ->
  (forall s', cache_ok has s' h -> (forall j, has j -> view s' j = if decide (j = id) then zero_block else view s j) ->
     Q tt s') ->
  wp (clear_block id 0) Q s.
Proof.
  intros Hok Hn Hsize Hid HQ. unfold clear_block. destruct (view_ok has s h id Hok Hid) as [Hl Hu8].
  apply (wp_modify_block has s h); [done..|]. intros s1 Hok1 Hv1. wp_step.
  cbn [from_bytes array_layout elems fst snd to_bytes]. rewrite words_dec_1 by done.
  assert (Hz : map (fun _ => 0) (view s id) = zero_block).
  { rewrite map_const, Hl. done. }
  rewrite Hz. split_and!; [done| |].
  - split; [done|]. apply Forall_replicate. done.
  - intros s3 Hok3 Hv3. apply HQ; [done|]. intros j Hj. rewrite Hv3 by done.
    case_decide; [|by apply Hv1]. rewrite words_enc_1; [done|]. by apply Forall_replicate.
Qed.

Lemma wp_clear_all s total Q :
  cache_ok has s ∅ -> (forall id, 0 <= id < total -> has id) -> 0 <= total ->
  (forall s', cache_ok has s' ∅ -> (forall id, 0 <= id < total -> view s' id = zero_block) -> Q tt s') ->
  wp (for_each (seqZ 0 total) (fun i => clear_block i 0)) Q s.
Proof.
  intros Hok Hhas Ht HQ. unfold for_each.
  eapply wp_mono; [|apply (wp_foldM _ (fun l _ s' => cache_ok has s' ∅ /\ forall id, id ∈ l -> view s' id = zero_block))].
  - cbn beta. intros [] s' [Hok' Hz]. apply HQ; [done|]. intros id Hid. apply Hz, elem_of_seqZ. lia.
  - split; [done|]. by intros id []%not_elem_of_nil.
  - intros l id rest [] s1 Hl [Hok1 Hz1].
    assert (Hin : forall j, j ∈ l ++ [id] -> 0 <= j < total).
    { intros j Hj. assert (Hj' : j ∈ seqZ 0 total).
      { rewrite Hl. change (id :: rest) with ([id] ++ rest). rewrite app_assoc. apply elem_of_app. by left. }
      apply elem_of_seqZ in Hj'. lia. }
    apply (wp_clear_block s1 ∅); [by auto with fs..|apply Hhas, Hin, elem_of_app; right; by left|].
    intros s2 Hok2 Hv2. split; [done|]. intros j Hj. rewrite Hv2 by (by apply Hhas, Hin).
    case_decide; [done|]. apply elem_of_app in Hj as [Hj|Hj%list_elem_of_singleton]; [by apply Hz1|done].
Qed.

(** Replacing a value at the start of a block. *)
Lemma wp_set_value {A} `{LayoutSpec A} s h id (f : A -> A) Q :
  cache_ok has s h -> h !! id = None -> (size h < BLOCK_CACHE_SIZE)%nat -> has id -> (size_of A <= 512)%nat ->
  valid_value (f (from_bytes (sub_bytes 0 (size_of A) (view s id)))) ->
  (forall s', cache_ok has s' h ->
     from_bytes (sub_bytes 0 (size_of A) (view s' id)) = f (from_bytes (sub_bytes 0 (size_of A) (view s id))) ->
     (forall j, has j -> j <> id -> view s' j = view s j) -> Q tt s') ->
  wp (modify_cache id 0 0 (fun a : A => ret (tt, f a))) Q s.
Proof.
  intros Hok Hn Hsize Hid HA Hval HQ.
  apply (wp_modify_cache has s h); [done..|unfold offset_ok, BLOCK_SZ; lia|]. intros s1 Hok1 Hv1. wp_step.
  cbn [fst snd]. split_and!; [done..|]. intros s3 Hok3 Hv3. apply HQ; [done| |].
  - rewrite Hv3, decide_True by done. destruct (view_ok has s1 _ id Hok1 Hid) as [Hl _].
    pose proof (length_to_bytes _ Hval) as Hlen. change (Z.to_nat 0) with 0%nat in *. rewrite <-Hlen at 1.
    rewrite sub_put_same; [by apply from_to_bytes|]. rewrite Hlen, Hl. exact HA.
  - intros j Hj Hne. by rewrite Hv3, decide_False, Hv1.
Qed.

Lemma super_valid total n : size_ok total n -> valid_value (super_of total n).
Proof.
  intros Hs. pose proof (data_bitmap_small _ _ Hs) as Hd. destruct Hs as [Hn Ht].
  cbn [valid_value SuperBlock_layout]. unfold super_words, super_of, SuperBlock_initialize, is_u32. cbn [magic
    sb_total_blocks inode_bitmap_blocks inode_area_blocks data_bitmap_blocks data_area_blocks].
  repeat constructor; lia.
Qed.

Lemma formatted_steps total n (k1 k2 k3 k4 : disk) :
  size_ok total n -> (forall id, 0 <= id < total -> has id) ->
  (forall id, 0 <= id < total -> k1 id = zero_block) ->
  from_bytes (sub_bytes 0 24 (k2 0)) = super_of total n -> (forall j, has j -> j <> 0 -> k2 j = k1 j) ->
  bit_changed (Bitmap_new 1 n) has 0 true k2 k3 ->
  from_bytes (sub_bytes 0 128 (k4 (1 + n))) = empty_root -> (forall j, has j -> j <> 1 + n -> k4 j = k3 j) ->
  formatted total n k4.
Proof.
  intros [Hn Ht] Hhas Hz Hsup Hk2 Hbc Hroot Hk4.
  assert (Hnot : forall id, id = 0 \/ n < id -> ~ bitmap_block (Bitmap_new 1 n) id).
  { unfold bitmap_block. cbn. lia. }
  split.
  - rewrite Hk4 by (lia || apply Hhas; lia). rewrite (bc_frame _ _ _ _ _ _ Hbc); [done|apply Hhas; lia|].
    apply Hnot. by left.
  - intros i Hi. cbn [inode_bitmap areas]. rewrite (bitmap_bit_same _ k3).
    + rewrite (bc_bits _ _ _ _ _ _ Hbc) by done. destruct (Z.eqb_spec i 0); [done|].
      unfold bitmap_bit. cbn [start_block_id]. rewrite Hk2, Hz by (try apply Hhas; zdm). apply zero_bits.
    + intros id Hid. unfold bitmap_block in Hid. cbn in Hid. apply Hk4; [apply Hhas; lia|lia].
    + done.
  - done.
  - intros id Hid. rewrite Hk4 by (lia || apply Hhas; lia).
    rewrite (bc_frame _ _ _ _ _ _ Hbc) by (apply Hhas || apply Hnot; lia). rewrite Hk2 by (lia || apply Hhas; lia).
    apply Hz. lia.
Qed.

Lemma wp_efs_create s total n Q :
  cache_ok has s ∅ -> (forall id, 0 <= id < total -> has id) -> size_ok total n ->
  (forall s', cache_ok has s' ∅ -> formatted total n (view s') ->
     (forall id, has id -> device_block s' id = Ok (view s' id)) -> Q (areas total n) s') ->
  wp (efs_create 0 total n) Q s.
Proof.
  intros Hok Hhas Hs HQ. pose proof (data_bitmap_small _ _ Hs) as Hd.
  destruct (create_areas _ _ Hs) as (Ha1 & Ha2 & Ha3 & Ha4). pose proof Hs as [Hn Ht].
  unfold efs_create. rewrite Ha1, Ha2, Ha3, Ha4, !(wrap32_small (1 + n)) by lia.
  rewrite (wrap32_small (1 + n + n * 1024)), !(wrap32_small (1 + n * 1025)) by lia.
  rewrite (wrap32_small (1 + n * 1025 + data_bitmap_size total n)) by lia.
  rewrite (wrap32_small (total - 1 - n * 1025 - data_bitmap_size total n)) by lia.
  replace (1 + n + n * 1024) with (1 + n * 1025) by lia. fold (super_of total n). fold (areas total n).
  wp_step. apply (wp_clear_all s); [done..|lia|]. intros s1 Hok1 Hz1.
  wp_step. apply (wp_set_value s1 ∅ 0 (fun _ => super_of total n));
    [by auto with fs..|apply Hhas; lia|cbn; lia|by apply super_valid|].
  intros s2 Hok2 Hsup Hv2. wp_step. unfold alloc_inode. wp_step. cbn [inode_bitmap efs_block_device areas].
  assert (Hclear : bitmap_bit (Bitmap_new 1 n) (view s2) 0 = false).
  { unfold bitmap_bit. cbn [start_block_id]. change (1 + 0 / 4096) with 1. rewrite Hv2, Hz1 by (lia || apply Hhas; lia). apply zero_bits. }
  apply (wp_Bitmap_alloc has _ s2 ∅); [done| |apply no_holds| |].
  { split; cbn; [lia|]. unfold bitmap_block. cbn. intros id Hid. split; [apply Hhas; lia|apply lookup_empty]. }
  2: { intros s' _ Hall _. rewrite Hall in Hclear; [done|]. cbn. lia. }
  intros i s3 Hi Hok3 _ Hbelow Hbc. destruct (decide (i = 0)) as [->|Hne]; [|rewrite Hbelow in Hclear; [done|lia]].
  wp_step. apply wp_ret. wp_step. wp_step. apply wp_assert; [done|]. unfold get_disk_inode_pos. cbn [areas inode_area_start_block].
  change (wrap32 (BLOCK_SZ / Z.of_nat (size_of DiskInode))) with 4.
  change (0 / 4) with 0. change (0 mod 4 * Z.of_nat (size_of DiskInode)) with 0.
  rewrite Z.add_0_r, wrap32_small by lia. wp_step.
  assert (Hroot : DiskInode_initialize Directory (from_bytes (sub_bytes 0 128 (view s3 (1 + n)))) = empty_root).
  { rewrite (bc_frame _ _ _ _ _ _ Hbc); [|apply Hhas; lia|unfold bitmap_block; cbn; lia].
    rewrite Hv2, Hz1 by (lia || apply Hhas; lia). vm_compute. reflexivity. }
  apply (wp_set_value s3 ∅ (1 + n) (DiskInode_initialize Directory));
    [by auto with fs..|apply Hhas; lia|cbn; lia| |].
  { cbn [size_of DiskInode_layout]. rewrite Hroot. repeat split; try done; cbn; repeat constructor; done. }
  intros s4 Hok4 Hr4 Hv4. wp_step. apply (wp_sync_all has s4); [done|]. intros s5 Hok5 Hv5 Hdev. wp_step.
  apply HQ; [done| |intros id Hid; by rewrite Hdev, Hv5].
  apply (formatted_steps total n (view s1) (view s2) (view s3)); [done..| |].
  - rewrite Hv5 by (apply Hhas; lia). cbn [size_of DiskInode_layout] in Hr4. by rewrite Hr4.
  - intros j Hj Hne. by rewrite Hv5, Hv4.
Qed.

Lemma wp_efs_open s total n Q :
  cache_ok has s ∅ -> has 0 -> size_ok total n -> from_bytes (sub_bytes 0 24 (view s 0)) = super_of total n ->
  (forall s', cache_ok has s' ∅ -> (forall id, has id -> view s' id = view s id) -> Q (areas total n) s') ->
  wp (efs_open 0) Q s.
Proof.
  intros Hok H0' Hs Hsup HQ. pose proof (data_bitmap_small _ _ Hs) as Hd. pose proof Hs as [Hn Ht]. unfold efs_open.
  apply (wp_read_cache has s ∅); [by auto with fs..|unfold offset_ok, BLOCK_SZ; cbn; lia|].
  intros s1 Hok1 Hv1. change (sub_bytes (Z.to_nat 0) (size_of SuperBlock)) with (sub_bytes 0 24). rewrite Hsup.
  wp_step. apply wp_assert; [done|]. wp_step. split; [done|].
  cbn [super_of SuperBlock_initialize inode_bitmap_blocks inode_area_blocks data_bitmap_blocks].
  rewrite (wrap32_small (n + n * 1024)), (wrap32_small (1 + n)) by lia.
  replace (n + n * 1024) with (n * 1025) by lia. rewrite (wrap32_small (1 + n * 1025)) by lia.
  rewrite wrap32_small by lia. intros s3 Hok3 Hv3. apply HQ; [done|]. intros id Hid. by rewrite Hv3, Hv1.
Qed.

(** The description depends on the blocks of the device. *)
Lemma formatted_same total n (k k' : disk) :
  size_ok total n -> (forall id, 0 <= id < total -> k' id = k id) -> formatted total n k -> formatted total n k'.
Proof.
  intros [Hn Ht] Hk [Hsup Hin Hro Hbl]. split.
  - by rewrite Hk by lia.
  - intros i Hi. rewrite <-Hin by done. apply bitmap_bit_same; [|done]. intros id Hid. apply Hk. unfold bitmap_block in Hid. cbn in Hid. lia.
  - by rewrite Hk by lia.
  - intros id Hid. rewrite Hk by lia. by apply Hbl.
Qed.

(** The machine is started again: the devices are what they were, and the cache is empty. *)
Definition restarted s : FsState D := mk_fs (devices s) cache_manager_new.

Lemma restarted_ok s : cache_ok has s ∅ -> cache_ok has (restarted s) ∅.
Proof.
  intros [Hd _ _ _ _]. split; [exact Hd|cbn; lia|apply NoDup_nil_2|done|]. intros id [? Hx]. by rewrite lookup_empty in Hx.
Qed.

(** C23: Formatting and mounting.  On a device of [total] blocks, [create] returns without
    panic the areas of the file system, and when it returns all it wrote is on the device:
    the super block describes the areas, inode 0 is the only allocated inode and is an empty
    directory, every block after the first block of inodes is clear, so that every data block
    is free.  [open], at once or after a restart that loses the cache, returns the same file
    system and finds the device formatted. *)
Theorem efs_create_open s total n :
  cache_ok has s ∅ -> (forall id, 0 <= id < total -> has id) -> size_ok total n ->
  wp (efs_create 0 total n) (fun e s1 =>
    e = areas total n /\ cache_ok has s1 ∅ /\ formatted total n (view s1) /\
    (forall id, has id -> device_block s1 id = Ok (view s1 id)) /\
    forall s2, s2 = s1 \/ s2 = restarted s1 ->
      wp (efs_open 0) (fun e' s3 => e' = e /\ cache_ok has s3 ∅ /\ formatted total n (view s3)) s2) s.
Proof.
  intros Hok Hhas Hs. pose proof Hs as [Hn Ht]. apply wp_efs_create; [done..|]. intros s1 Hok1 Hf1 Hdev1. split_and!; [done..|]. intros s2 Hs2.
  assert (Hv : forall id, 0 <= id < total -> view s2 id = view s1 id).
  { destruct Hs2 as [->| ->]; [done|]. intros id Hid. unfold view at 1. cbn [queue restarted find_cache cache_manager_new].
    change (device_block (restarted s1) id) with (device_block s1 id). by rewrite Hdev1 by (by apply Hhas). }
  assert (Hok2 : cache_ok has s2 ∅) by (destruct Hs2 as [->| ->]; [done|by apply restarted_ok]).
  apply (wp_efs_open s2 total n); [done|apply Hhas; lia|done|rewrite Hv by lia; apply Hf1|]. intros s3 Hok3 Hv3. split_and!; [done|done|].
  apply (formatted_same total n (view s1)); [done| |done]. intros id Hid. by rewrite Hv3, Hv by (by (apply Hhas || idtac)).
Qed.

End Format.

Lemma efs_create_open_witness :
  wp (efs_create 0 1100 1) (fun e s1 => e = areas 1100 1 /\ device_block s1 1099 = Ok zero_block /\
    wp (efs_open 0) (fun e' _ => e' = areas 1100 1) (restarted s1)) (blank_image 1100).
Proof.
  eapply wp_mono; [|refine (efs_create_open (fun id => 0 <= id < 1100) (blank_image 1100) 1100 1 _ _ _)].
  - intros e s1 (-> & _ & Hf & Hdev & Hopen). split; [done|]. split.
    + rewrite Hdev by lia. f_equal. apply (fm_blank _ _ _ Hf). lia.
    + eapply wp_mono; [|apply (Hopen (restarted s1)); by right]. by intros e' s3 [-> _].
  - apply blank_image_ok. lia.
  - done.
  - unfold size_ok. lia.
Defined.
