(* ===== verification/FsSpec.v ===== *)
(** * What a file system on a disk stands for

    [fs_rep] relates the disk to the finite map from inode numbers to files: each file has
    its inode in the inode area, its bytes in the blocks that the inode owns, and the two
    bitmaps mark exactly the inodes and the data blocks in use; free data blocks are clear.
    [fs_rep_update] is the one lemma about changing a file that writing, clearing and
    creating need. *)

From S2P Require Import Prelude Codec BlockCache BlockCacheSpec BlockFile DiskSpec.
From S2P Require Import Bitmap DiskLayout Efs EfsSpec InodeSpec InodeBlocks GrowSpec.

(** ** The blocks an inode owns depend on these blocks *)

Lemma number_block1_owned k d n id : 0 < n -> number_block1 k d n id -> id ∈ owned1 k d n.
Proof.
  intros Hn Hid. unfold owned1. rewrite (proj2 (Z.ltb_lt _ _)) by done.
  destruct Hid as [->|[Hn' Hid]]; [by left|]. right. apply elem_of_app. right. apply number_block2_owned; [lia|done].
Qed.

Lemma owned1_view k k' d n : (forall id, number_block1 k d n id -> k' id = k id) -> owned1 k' d n = owned1 k d n.
Proof.
  intros Hk. unfold owned1. destruct (0 <? n); [|done]. f_equal. unfold words. rewrite Hk by (by left). f_equal.
  destruct (decide (128 < n)); [|by rewrite !owned2_nil by lia]. apply owned2_view. intros id Hid. apply Hk. right. done.
Qed.

Lemma owned_same k k' d : (forall id, id ∈ owned k d -> k' id = k id) -> owned k' d = owned k d.
Proof.
  intros Hk. unfold owned, owned_upto in *. f_equal. destruct (decide (28 < data_blocks d)); [|by rewrite !owned1_nil by lia].
  apply owned1_view. intros id Hid. apply Hk, elem_of_app. right. apply number_block1_owned; [lia|done].
Qed.

(** They depend only on the blocks of block numbers. *)
Lemma owned_number_blocks k k' d :
  length (direct d) = 28%nat -> (forall id, is_indirect k d id -> k' id = k id) -> owned k' d = owned k d.
Proof.
  intros Hd Hk. unfold owned, owned_upto. f_equal. destruct (decide (28 < data_blocks d)); [|by rewrite !owned1_nil by lia].
  apply owned1_view. intros id Hid. by apply Hk, number_block1_indirect.
Qed.

Lemma inode_wf_same has h k k' d :
  inode_wf has h k d -> (forall id, id ∈ owned k d -> k' id = k id) -> inode_wf has h k' d.
Proof. intros [Hs Hv Hn Hu] Hk. split; [done..| |]; by rewrite (owned_same k k'). Qed.

Lemma inode_wf_held has has' h h' k d :
  inode_wf has h k d -> (forall id, has id -> h !! id = None -> has' id /\ h' !! id = None) -> inode_wf has' h' k d.
Proof. intros [Hs Hv Hn Hu] Hi. split; try done. intros id [Hid Hf]%Hu. by apply Hi. Qed.

Lemma block_of_owned k d i : length (direct d) = 28%nat -> 0 <= i < data_blocks d -> block_of k d i ∈ owned k d.
Proof. intros Hd Hi. eapply list_elem_of_lookup_2, owned_lookup_data; done. Qed.

Lemma file_byte_same has h k k' d p :
  inode_wf has h k d -> (forall id, id ∈ owned k d -> k' id = k id) -> 0 <= p < data_blocks d * 512 ->
  file_byte k' d p = file_byte k d p.
Proof.
  intros Hd Hk Hp. pose proof (iw_direct _ _ _ _ Hd) as Hdir. unfold file_byte.
  assert (Hb : block_of k' d (p / 512) = block_of k d (p / 512)).
  { apply block_of_same; [|zdm]. intros id Hid. apply Hk.
    destruct (owned_of_indirect k d (data_blocks d) Hdir id Hid) as (q & Hq & _). by apply list_elem_of_lookup_2 in Hq. }
  rewrite Hb, Hk; [done|]. apply block_of_owned; [done|zdm].
Qed.

Lemma nth_replicate_zero m p : nth p (replicate m 0) 0 = 0.
Proof.
  rewrite nth_lookup. destruct (replicate m 0 !! p) eqn:Hr; [|done]. by apply lookup_replicate in Hr as [-> _].
Qed.

(** ** Files *)

Record file : Type := mk_file { f_type : Z; f_data : list Z }.

(** The bytes of the blocks of a file, with zeros after its end. *)
Record file_rep (is_data : Z -> Prop) (k : disk) (d : DiskInode) (f : file) : Prop := {
  fl_wf : inode_wf is_data ∅ k d;
  fl_type : type_ d = f_type f;
  fl_size : di_size d = Z.of_nat (length (f_data f));
  fl_bytes p : 0 <= p < data_blocks d * 512 -> file_byte k d p = nth (Z.to_nat p) (f_data f) 0
}.

Lemma file_rep_same is_data k k' d f :
  file_rep is_data k d f -> (forall id, id ∈ owned k d -> k' id = k id) -> file_rep is_data k' d f.
Proof.
  intros [Hw Ht Hs Hb] Hk. split; [by eapply inode_wf_same|done|done|].
  intros p Hp. rewrite (file_byte_same _ _ k k' d p Hw Hk Hp). by apply Hb.
Qed.

(** What reading into [buf] at [off] returns. *)
Definition read_data (l : list Z) (off : Z) (buf : list Z) : Z * list Z :=
  let m := Nat.min (length buf) (length l - Z.to_nat off) in
  (Z.of_nat m, take m (drop (Z.to_nat off) l) ++ drop m buf).

Lemma file_rep_bytes is_data k d f off m :
  file_rep is_data k d f -> 0 <= off -> 0 <= m -> off + m <= di_size d \/ m = 0 ->
  file_bytes k d off m = take (Z.to_nat m) (drop (Z.to_nat off) (f_data f)).
Proof.
  intros [Hw _ Hs Hb] Hoff Hm Hle. apply list_eq. intros j. unfold file_bytes. change (map ?f ?l) with (f <$> l).
  rewrite list_lookup_fmap. destruct (decide (Z.of_nat j < m)) as [Hj|Hj].
  - rewrite lookup_seqZ_lt, lookup_take_lt, lookup_drop by lia. cbn. rewrite Hb.
    + rewrite (lookup_nth _ _ 0) by lia. do 2 f_equal. lia.
    + unfold data_blocks. rewrite data_blocks_ceil by apply Hw. zdm.
  - rewrite lookup_seqZ_ge by lia. by rewrite lookup_take_ge by lia.
Qed.

(** The contents after the bytes [buf] were written at [off], with zeros in between if the
    file was shorter. *)
Definition write_data (l : list Z) (off : Z) (buf : list Z) : list Z :=
  put_bytes (Z.to_nat off) buf (l ++ replicate (Z.to_nat off + length buf - length l) 0).

Lemma length_write_data l off buf : length (write_data l off buf) = Nat.max (length l) (Z.to_nat off + length buf).
Proof. unfold write_data. rewrite length_put_bytes; rewrite length_app, length_replicate; lia. Qed.

Lemma nth_app_zeros (l : list Z) m p : nth p (l ++ replicate m 0) 0 = nth p l 0.
Proof.
  rewrite !nth_lookup. destruct (decide (p < length l)%nat); [by rewrite lookup_app_l|].
  rewrite lookup_app_r, (lookup_ge_None_2 l) by lia. cbn. destruct (replicate m 0 !! _) eqn:Hr; [|done].
  by apply lookup_replicate in Hr as [-> _].
Qed.

Lemma nth_write_data l off buf p :
  0 <= off -> 0 <= p -> nth (Z.to_nat p) (write_data l off buf) 0 =
    if (off <=? p) && (p <? off + Z.of_nat (length buf)) then nth (Z.to_nat (p - off)) buf 0 else nth (Z.to_nat p) l 0.
Proof.
  intros Ho Hp. unfold write_data. rewrite nth_put_bytes by (rewrite length_app, length_replicate; lia). rewrite nth_app_zeros.
  destruct (Z.leb_spec off p), (Z.ltb_spec p (off + Z.of_nat (length buf))); cbn [andb]; case_decide; try lia; try done.
  f_equal. lia.
Qed.

(** ** The areas of the disk *)

Section Geometry.
Context (total n : Z).

Definition data_start : Z := 1 + n * 1025 + data_bitmap_size total n.
Definition is_data (id : Z) : Prop := data_start <= id < total.
Definition data_bit (k : disk) (id : Z) : bool := bitmap_bit (data_bitmap (areas total n)) k (id - data_start).
Definition inode_bit (k : disk) (i : Z) : bool := bitmap_bit (inode_bitmap (areas total n)) k i.

(** The place of inode [i]. *)
Definition is_inode (i : Z) : Prop := 0 <= i < n * 4096.
Definition slot_block (i : Z) : Z := 1 + n + i / 4.
Definition slot_off (i : Z) : Z := i mod 4 * 128.
Definition inode_of (k : disk) (i : Z) : DiskInode := from_bytes (sub_bytes (Z.to_nat (slot_off i)) 128 (k (slot_block i))).

(** The disk [k] holds the files [F]. *)
Record fs_rep (k : disk) (F : gmap Z file) : Prop := {
  fr_super : from_bytes (sub_bytes 0 24 (k 0)) = super_of total n;
  fr_inode i : is_inode i -> inode_bit k i = bool_decide (is_Some (F !! i));
  fr_file i f : F !! i = Some f -> is_inode i /\ file_rep is_data k (inode_of k i) f;
  fr_used id : is_data id -> data_bit k id = true <-> exists i, is_Some (F !! i) /\ id ∈ owned k (inode_of k i);
  fr_disjoint i j id : is_Some (F !! i) -> is_Some (F !! j) -> id ∈ owned k (inode_of k i) -> id ∈ owned k (inode_of k j) -> i = j;
  fr_free id : is_data id -> data_bit k id = false -> k id = zero_block
}.

Lemma fr_owned_data k F i id : fs_rep k F -> is_Some (F !! i) -> id ∈ owned k (inode_of k i) -> is_data id /\ data_bit k id = true.
Proof.
  intros HF Hi Hid. destruct Hi as [f Hf]. destruct (fr_file _ _ HF i f Hf) as [_ Hr].
  destruct (iw_usable _ _ _ _ (fl_wf _ _ _ _ Hr) id Hid) as [Hd _]. split; [done|].
  apply (fr_used _ _ HF id Hd). exists i. by split.
Qed.

(** The blocks that the file [i] owns. *)
Definition blocks_of (k : disk) (F : gmap Z file) (i : Z) : list Z :=
  match F !! i with
  | Some _ => owned k (inode_of k i)
  | None => []
  end.

(** File [i] is replaced by, or created as, [f]. *)
Record file_changed (k : disk) (F : gmap Z file) (i : Z) (f : file) (k' : disk) : Prop := {
  fc_super : k' 0 = k 0;
  fc_bits j : is_inode j -> inode_bit k' j = inode_bit k j || (j =? i);
  fc_file : is_inode i /\ file_rep is_data k' (inode_of k' i) f;
  fc_others j : is_inode j -> j <> i -> inode_of k' j = inode_of k j;
  fc_fresh id : id ∈ owned k' (inode_of k' i) -> id ∈ blocks_of k F i \/ data_bit k id = false;
  fc_used id : is_data id -> data_bit k' id = true <->
    id ∈ owned k' (inode_of k' i) \/ (data_bit k id = true /\ id ∉ blocks_of k F i);
  fc_freed id : id ∈ blocks_of k F i -> id ∉ owned k' (inode_of k' i) -> k' id = zero_block;
  fc_frame id : is_data id -> id ∉ blocks_of k F i -> id ∉ owned k' (inode_of k' i) -> k' id = k id
}.

Lemma fs_rep_other k F i f k' j :
  fs_rep k F -> file_changed k F i f k' -> is_Some (F !! j) -> j <> i ->
  inode_of k' j = inode_of k j /\ (forall id, id ∈ owned k (inode_of k j) ->
    k' id = k id /\ (id ∉ owned k' (inode_of k' i)) /\ (id ∉ blocks_of k F i)) /\
  owned k' (inode_of k' j) = owned k (inode_of k j).
Proof.
  intros HF Hc Hj Hne. pose proof Hj as [g Hg]. destruct (fr_file _ _ HF j g Hg) as [Hij _].
  pose proof (fc_others _ _ _ _ _ Hc j Hij Hne) as Hsame.
  assert (Hk : forall id, id ∈ owned k (inode_of k j) -> k' id = k id /\ (id ∉ owned k' (inode_of k' i)) /\ (id ∉ blocks_of k F i)).
  { intros id Hid. destruct (fr_owned_data _ _ _ _ HF Hj Hid) as [Hd Hb].
    assert (Hnold : id ∉ blocks_of k F i).
    { unfold blocks_of. destruct (F !! i) as [f0|] eqn:Hi; [|apply not_elem_of_nil]. intros Hid'.
      apply Hne. eapply (fr_disjoint _ _ HF j i id); eauto. }
    assert (Hnnew : id ∉ owned k' (inode_of k' i)).
    { intros [Hin|Hin]%(fc_fresh _ _ _ _ _ Hc); congruence. }
    split_and!; [by apply (fc_frame _ _ _ _ _ Hc)|done..]. }
  split_and!; [done..|]. rewrite Hsame. apply owned_same. intros id Hid. by apply Hk.
Qed.

Lemma fs_rep_update k F i f k' : fs_rep k F -> file_changed k F i f k' -> fs_rep k' (<[i := f]> F).
Proof.
  intros HF Hc. pose proof (fc_file _ _ _ _ _ Hc) as [Hi Hrep].
  assert (Hoth := fun j => fs_rep_other k F i f k' j HF Hc).
  assert (Hcase : forall j, is_Some (<[i := f]> F !! j) -> j <> i -> is_Some (F !! j)).
  { intros j Hj Hne. by rewrite lookup_insert_ne in Hj. }
  split.
  - rewrite (fc_super _ _ _ _ _ Hc). apply HF.
  - intros j Hj. rewrite (fc_bits _ _ _ _ _ Hc), (fr_inode _ _ HF) by done.
    destruct (Z.eqb_spec j i) as [->|Hne].
    + rewrite lookup_insert_eq, orb_true_r. by rewrite bool_decide_eq_true_2.
    + by rewrite lookup_insert_ne, orb_false_r.
  - intros j g. destruct (decide (j = i)) as [->|Hne]; [rewrite lookup_insert_eq; by intros [= <-]|].
    rewrite lookup_insert_ne by done. intros Hg. destruct (fr_file _ _ HF j g Hg) as [Hj Hr].
    destruct (Hoth j) as (Hsame & Hk & _); [by exists g|done|]. rewrite Hsame. split; [done|].
    eapply file_rep_same; [done|]. intros id Hid. by apply Hk.
  - intros id Hd. rewrite (fc_used _ _ _ _ _ Hc id Hd), (fr_used _ _ HF id Hd). split.
    + intros [Hin|[(j & Hj & Hid) Hn]]; [exists i; rewrite lookup_insert_eq; eauto|].
      exists j. destruct (decide (j = i)) as [->|Hne].
      * exfalso. apply Hn. unfold blocks_of. by destruct Hj as [f0 ->].
      * destruct (Hoth j Hj Hne) as (_ & _ & Ho). by rewrite lookup_insert_ne, Ho.
    + intros (j & Hj & Hid). destruct (decide (j = i)) as [->|Hne]; [by left|]. apply Hcase in Hj; [|done].
      destruct (Hoth j Hj Hne) as (_ & Hk & Ho). rewrite Ho in Hid. right. split; [by exists j|]. by apply Hk.
  - intros j1 j2 id H1 H2 Hid1 Hid2. destruct (decide (j1 = i)) as [->|Hn1], (decide (j2 = i)) as [->|Hn2]; [done|..].
    + destruct (Hoth j2) as (_ & Hk & Ho); [by apply Hcase|done|]. rewrite Ho in Hid2. by apply Hk in Hid2 as (_ & ? & _).
    + destruct (Hoth j1) as (_ & Hk & Ho); [by apply Hcase|done|]. rewrite Ho in Hid1. by apply Hk in Hid1 as (_ & ? & _).
    + destruct (Hoth j1) as (_ & _ & Ho1); [by apply Hcase|done|]. destruct (Hoth j2) as (_ & _ & Ho2); [by apply Hcase|done|].
      rewrite Ho1 in Hid1. rewrite Ho2 in Hid2. eapply (fr_disjoint _ _ HF); eauto.
  - intros id Hd Hb. assert (Hnu : ~ data_bit k' id = true) by (by rewrite Hb). rewrite (fc_used _ _ _ _ _ Hc id Hd) in Hnu.
    destruct (decide (id ∈ blocks_of k F i)) as [Hold|Hold]; [apply (fc_freed _ _ _ _ _ Hc); tauto|].
    rewrite (fc_frame _ _ _ _ _ Hc) by tauto. apply (fr_free _ _ HF); [done|]. apply not_true_iff_false. tauto.
Qed.

End Geometry.

(** ** The disk up to blocks that do not exist *)

Section View.
Context (total n : Z) (Hgeo : size_ok total n).

Lemma inode_bit_view k k' i :
  (forall id, 0 <= id < total -> k' id = k id) -> is_inode n i -> inode_bit total n k' i = inode_bit total n k i.
Proof.
  intros Hk Hi. pose proof Hgeo as [Hn Ht]. apply bitmap_bit_same; [|exact Hi]. unfold bitmap_block. cbn. intros id Hid.
  apply Hk. lia.
Qed.

Lemma inode_of_view k k' i :
  (forall id, 0 <= id < total -> k' id = k id) -> is_inode n i -> inode_of n k' i = inode_of n k i.
Proof.
  intros Hk Hi. pose proof Hgeo as [Hn Ht]. unfold inode_of. rewrite Hk; [done|]. unfold is_inode in Hi. unfold slot_block. zdm.
Qed.

Lemma data_bit_view k k' id :
  (forall id, 0 <= id < total -> k' id = k id) -> is_data total n id -> data_bit total n k' id = data_bit total n k id.
Proof.
  intros Hk [Hd Ht]. pose proof Hgeo as [Hn Htot]. pose proof (data_bitmap_small _ _ Hgeo). unfold data_start, data_bitmap_size in *.
  apply bitmap_bit_same; cbn; [|unfold data_start, data_bitmap_size; zdm]. unfold bitmap_block. cbn. unfold data_bitmap_size.
  intros b Hb. apply Hk. zdm.
Qed.

Lemma fs_rep_view k k' F : fs_rep total n k F -> (forall id, 0 <= id < total -> k' id = k id) -> fs_rep total n k' F.
Proof.
  intros HF Hk. pose proof Hgeo as [Hn Ht]. pose proof (data_bitmap_small _ _ Hgeo) as Hds.
  assert (Hdk : forall id, is_data total n id -> k' id = k id).
  { intros id [Hd Hd']. apply Hk. unfold data_start in Hd. lia. }
  assert (Hino : forall i, is_Some (F !! i) -> inode_of n k' i = inode_of n k i).
  { intros i [f Hf]. apply inode_of_view; [done|]. by apply HF in Hf as []. }
  assert (Hown : forall i, is_Some (F !! i) -> owned k' (inode_of n k' i) = owned k (inode_of n k i)).
  { intros i Hi. rewrite Hino by done. apply owned_same. intros id Hid. by apply Hdk, (fr_owned_data _ _ _ _ _ _ HF Hi). }
  split.
  - rewrite Hk by lia. apply HF.
  - intros i Hi. rewrite (inode_bit_view k) by done. by apply HF.
  - intros i f Hf. destruct (fr_file _ _ _ _ HF i f Hf) as [Hi Hr]. split; [done|]. rewrite Hino by (by exists f).
    eapply file_rep_same; [done|]. intros id Hid. by apply Hdk, (fr_owned_data _ _ _ _ i _ HF); [exists f|].
  - intros id Hd. rewrite (data_bit_view k), (fr_used _ _ _ _ HF) by done.
    split; intros (i & Hi & Hid); exists i; (rewrite Hown in * by done || rewrite Hown by done); done.
  - intros i j id Hi Hj. rewrite !Hown by done. by apply HF.
  - intros id Hd. rewrite (data_bit_view k), Hdk by done. by apply HF.
Qed.

End View.

(** ** Counting *)

(** The data blocks that the files need, and those that the device has. *)
Definition file_blocks (f : file) : Z := total_blocks (Z.of_nat (length (f_data f))).
Definition used_blocks (F : gmap Z file) : Z := map_fold (fun _ f acc => file_blocks f + acc) 0 F.
Definition capacity (total n : Z) : Z := total - data_start total n.

Lemma used_blocks_insert F i f :
  F !! i = None -> used_blocks (<[i := f]> F) = file_blocks f + used_blocks F.
Proof. intros Hi. unfold used_blocks. rewrite map_fold_insert_L; [done| |done]. intros. lia. Qed.

Lemma used_blocks_update F i f g :
  F !! i = Some f -> used_blocks (<[i := g]> F) = used_blocks F - file_blocks f + file_blocks g.
Proof.
  intros Hi. rewrite <-(insert_delete_id F i f Hi) at 2. rewrite <-(insert_delete_eq F i g).
  rewrite !used_blocks_insert by apply lookup_delete_eq. lia.
Qed.

Section Count.
Context (total n : Z) (Hgeo : size_ok total n).

(** The free data blocks. *)
Definition free_blocks (k : disk) : list Z :=
  filter (fun id => data_bit total n k id = false) (seqZ (data_start total n) (total - data_start total n)).

Lemma elem_of_free_blocks k id : id ∈ free_blocks k <-> is_data total n id /\ data_bit total n k id = false.
Proof. unfold free_blocks. rewrite list_elem_of_filter, elem_of_seqZ. unfold is_data. split; intros []; split; try done; lia. Qed.

Lemma NoDup_free_blocks k : NoDup (free_blocks k).
Proof. apply NoDup_filter, NoDup_seqZ. Qed.

Lemma length_bind_owned (k : disk) (l : list (Z * file)) :
  Forall (fun p => Z.of_nat (length (owned k (inode_of n k p.1))) = file_blocks p.2) l ->
  Z.of_nat (length (l ≫= fun p => owned k (inode_of n k p.1))) = foldr (fun p acc => file_blocks p.2 + acc) 0 l.
Proof.
  induction 1 as [|p l Hp _ IH]; [done|]. rewrite bind_cons, length_app, Nat2Z.inj_add, Hp, IH. done.
Qed.

Lemma file_rep_blocks is_data k d f : file_rep is_data k d f -> Z.of_nat (length (owned k d)) = file_blocks f.
Proof.
  intros [Hw _ Hs _]. unfold file_blocks. rewrite <-Hs, total_blocks_len by apply Hw.
  apply length_owned_upto; [by eapply iw_direct|]. unfold data_blocks. rewrite data_blocks_ceil by apply Hw.
  pose proof (iw_size _ _ _ _ Hw). zdm.
Qed.

(** Every data block is free or owned by one file. *)
Lemma free_count k F : fs_rep total n k F -> Z.of_nat (length (free_blocks k)) = capacity total n - used_blocks F.
Proof.
  intros HF. pose proof (data_bitmap_small _ _ Hgeo) as Hds.
  set (used := map_to_list F ≫= fun p => owned k (inode_of n k p.1)).
  assert (Hused : forall id, id ∈ used <-> exists i, is_Some (F !! i) /\ id ∈ owned k (inode_of n k i)).
  { intros id. unfold used. rewrite list_elem_of_bind. split.
    - intros ([i f] & Hid & Hin%elem_of_map_to_list). exists i. eauto.
    - intros (i & [f Hf] & Hid). exists (i, f). split; [done|]. by apply elem_of_map_to_list. }
  assert (Hperm : free_blocks k ++ used ≡ₚ seqZ (data_start total n) (total - data_start total n)).
  { apply NoDup_Permutation; [|apply NoDup_seqZ|].
    - apply NoDup_app. split_and!; [apply NoDup_free_blocks| |].
      + intros id [Hd Hb]%elem_of_free_blocks Hin%Hused. apply (fr_used _ _ _ _ HF id Hd) in Hin. congruence.
      + apply NoDup_bind.
        * intros [i f] [j g] id Hi%elem_of_map_to_list Hj%elem_of_map_to_list Hid Hjd. cbn in *.
          assert (i = j) as -> by (eapply (fr_disjoint _ _ _ _ HF); eauto). congruence.
        * intros [i f] Hi%elem_of_map_to_list. destruct (fr_file _ _ _ _ HF i f Hi) as [_ Hr]. apply Hr.
        * apply NoDup_map_to_list.
    - intros id. rewrite elem_of_app, elem_of_free_blocks, Hused, elem_of_seqZ. split.
      + intros [[[Hd Ht] _]|(i & Hi & Hid)]; [lia|]. destruct (fr_owned_data _ _ _ _ _ _ HF Hi Hid) as [[Hd Ht] _]. lia.
      + intros Hr. assert (Hd : is_data total n id) by (unfold is_data; lia).
        destruct (data_bit total n k id) eqn:Hb; [right|by left]. by apply (fr_used _ _ _ _ HF). }
  apply Permutation_length in Hperm. rewrite length_app, length_seqZ in Hperm.
  assert (Hlen : Z.of_nat (length used) = used_blocks F).
  { unfold used, used_blocks. rewrite map_fold_foldr, length_bind_owned.
    - generalize (map_to_list F). intros l. induction l as [|[i f] l IH]; [done|]. cbn. by rewrite IH.
    - apply Forall_forall. intros [i f] Hi%elem_of_map_to_list. eapply file_rep_blocks. by apply HF. }
  unfold capacity. unfold data_start in *. lia.
Qed.

End Count.

(** ** A new file system *)

Lemma data_bit_blank total n k id :
  size_ok total n -> (forall id, 1 + n < id < total -> k id = zero_block) -> is_data total n id -> data_bit total n k id = false.
Proof.
  intros Hs Hz [Hd Ht]. pose proof (data_bitmap_small _ _ Hs) as Hds. destruct Hs as [Hn Htot]. unfold data_start in Hd.
  unfold data_bit, bitmap_bit. cbn [data_bitmap areas start_block_id]. rewrite Hz; [apply zero_bits|].
  unfold data_start, data_bitmap_size in *. zdm.
Qed.

(** It holds the empty root directory. *)
Lemma formatted_rep total n k :
  size_ok total n -> formatted total n k -> fs_rep total n k {[0 := mk_file 1 []]}.
Proof.
  intros Hs [Hsup Hin Hroot Hz]. pose proof (data_bitmap_small _ _ Hs) as Hds. pose proof Hs as [Hn Ht].
  assert (Hino : inode_of n k 0 = empty_root).
  { unfold inode_of, slot_block, slot_off. change (0 / 4) with 0. rewrite Z.add_0_r. exact Hroot. }
  assert (Hvalid : valid_value empty_root) by (split_and!; try done; cbn; repeat constructor; done).
  destruct (empty_inode_wf (is_data total n) ∅ k empty_root Hvalid eq_refl) as [Hown Hwf]. split.
  - done.
  - intros i Hi. unfold inode_bit. rewrite Hin by exact Hi. destruct (Z.eqb_spec i 0) as [->|Hne].
    + rewrite lookup_singleton_eq. by rewrite bool_decide_eq_true_2.
    + rewrite lookup_singleton_ne by done. by rewrite bool_decide_eq_false_2 by (by intros []).
  - intros i f [<- <-]%lookup_singleton_Some. split; [unfold is_inode; lia|]. rewrite Hino. split; [done..|].
    intros p Hp. change (data_blocks empty_root) with 0 in Hp. lia.
  - intros id Hd. rewrite (data_bit_blank total n k id Hs Hz Hd). split; [done|].
    intros (i & [f [<- _]%lookup_singleton_Some] & Hid). rewrite Hino, Hown in Hid. by apply not_elem_of_nil in Hid.
  - intros i j id [f [<- _]%lookup_singleton_Some] [g [<- _]%lookup_singleton_Some] _ _. done.
  - intros id [Hd Hd'] _. apply Hz. unfold data_start in Hd. lia.
Qed.
