(* ===== verification/VfsSpec.v ===== *)
(** * The operations on files refine operations on a finite map

    For a disk that holds the files [F] (see [FsSpec]), [Inode_read_at] reads the bytes of
    the file, [Inode_write_at] replaces them, extending the file with zeros and taking free
    blocks for it, and [Inode_clear] empties the file and frees its blocks. *)

From S2P Require Import Prelude Codec BlockCache BlockCacheSpec BlockFile DiskSpec.
From S2P Require Import Bitmap DiskLayout Efs EfsSpec Vfs InodeSpec InodeBlocks GrowSpec FsSpec.

(** ** Inode slots *)

Lemma inode_slot_range total n i : size_ok total n -> is_inode n i -> 1 + n <= slot_block n i < 1 + n * 1025 /\ slot_block n i < total.
Proof. intros [Hn Ht] Hi. unfold is_inode in Hi. unfold slot_block. zdm. Qed.

Lemma slot_offset i : 0 <= slot_off i /\ slot_off i + 128 <= 512.
Proof. unfold slot_off. zdm. Qed.

(** Writing the inode [d] into slot [i]. *)
Lemma inode_of_put n (k k' : disk) i d :
  valid_value d -> length (k (slot_block n i)) = 512%nat ->
  k' (slot_block n i) = put_bytes (Z.to_nat (slot_off i)) (to_bytes d) (k (slot_block n i)) ->
  inode_of n k' i = d /\
  forall j, j <> i -> (slot_block n j <> slot_block n i -> k' (slot_block n j) = k (slot_block n j)) -> inode_of n k' j = inode_of n k j.
Proof.
  intros Hv Hl Hk. pose proof (length_to_bytes _ Hv) as Hlen. cbn [size_of DiskInode_layout] in Hlen.
  pose proof (slot_offset i) as Hoff. split.
  - unfold inode_of. rewrite Hk. rewrite <-Hlen at 1. rewrite sub_put_same by lia. by apply from_to_bytes.
  - intros j Hne Hother. unfold inode_of. destruct (decide (slot_block n j = slot_block n i)) as [He|He]; [|by rewrite Hother].
    rewrite He, Hk. f_equal. apply sub_put_other; [lia|]. rewrite Hlen.
    unfold slot_block, slot_off in *. zdm.
Qed.

Section Vfs.
Context {D : Type} `{BlockDeviceSpec D} (total n : Z) (Hgeo : size_ok total n).
Implicit Types s : FsState D.
Let has (id : Z) : Prop := 0 <= id < total.
Let efs : EasyFileSystem := areas total n.

(** Only blocks of the inode area are held. *)
Definition held_ok (h : gmap Z hold) : Prop := forall id, is_Some (h !! id) -> 1 + n <= id < 1 + n * 1025.

Lemma data_start_pos : 1 + n * 1025 < data_start total n <= total.
Proof. pose proof (data_bitmap_small _ _ Hgeo). unfold data_start. lia. Qed.

Lemma is_data_has h id : held_ok h -> is_data total n id -> has id /\ h !! id = None.
Proof.
  intros Hh [Hd Ht]. pose proof data_start_pos. destruct Hgeo. split; [unfold has; lia|].
  apply eq_None_not_Some. intros Hs%Hh. lia.
Qed.

Lemma data_bitmap_ok h : held_ok h -> bitmap_ok (data_bitmap efs) has h.
Proof.
  intros Hh. pose proof data_start_pos as Hd. pose proof Hgeo as [Hn Ht]. unfold data_start in Hd. split; cbn; [lia|].
  unfold bitmap_block. cbn. intros id Hid. split; [unfold has; lia|]. apply eq_None_not_Some. intros Hs%Hh. lia.
Qed.

Lemma inode_bitmap_ok h : held_ok h -> bitmap_ok (inode_bitmap efs) has h.
Proof.
  intros Hh. pose proof Hgeo as [Hn Ht]. split; cbn; [lia|].
  unfold bitmap_block. cbn. intros id Hid. split; [unfold has; lia|]. apply eq_None_not_Some. intros Hs%Hh. lia.
Qed.

(** ** Allocating data blocks *)

(** The blocks [nb] were marked in the data bitmap, and nothing else was written. *)
Record blocks_taken (nb : list Z) (k k' : disk) : Prop := {
  bt_bits id : is_data total n id -> data_bit total n k' id = data_bit total n k id || bool_decide (id ∈ nb);
  bt_frame id : has id -> ~ bitmap_block (data_bitmap efs) id -> k' id = k id
}.

Lemma data_bitmap_bits id : is_data total n id -> 0 <= id - data_start total n < blocks (data_bitmap efs) * 4096.
Proof.
  intros [Hd Ht]. split; [lia|]. cbn. unfold data_start in *. unfold data_bitmap_size in *. destruct Hgeo. zdm.
Qed.

Lemma wp_alloc_data s h Q :
  cache_ok has s h -> held_ok h -> (size h < BLOCK_CACHE_SIZE)%nat ->
  (exists id, is_data total n id /\ data_bit total n (view s) id = false) ->
  (forall id s', cache_ok has s' h -> is_data total n id -> data_bit total n (view s) id = false ->
     blocks_taken [id] (view s) (view s') -> Q id s') ->
  wp (alloc_data efs) Q s.
Proof.
  intros Hok Hh Hsize (id0 & Hid0 & Hb0) HQ. pose proof (data_bitmap_bits id0 Hid0) as Hr0.
  pose proof data_start_pos as Hds. pose proof Hgeo as [Hn Ht]. unfold alloc_data. wp_step.
  apply (wp_Bitmap_alloc has _ s h); [done|by apply data_bitmap_ok|done| |].
  2: { intros s' _ Hall _. unfold data_bit in Hb0. by rewrite Hall in Hb0. }
  intros i s' Hi Hok' Hclear Hbelow Hbc. wp_step. apply wp_ret. wp_step.
  assert (Hle : i <= id0 - data_start total n).
  { destruct (decide (i <= id0 - data_start total n)) as [|Hgt]; [done|]. unfold data_bit in Hb0. rewrite Hbelow in Hb0; [done|lia]. }
  destruct Hid0 as [Hd0 Ht0]. rewrite (wrap32_small i) by lia.
  change (data_area_start_block efs) with (data_start total n). rewrite wrap32_small by lia.
  assert (Hid : is_data total n (i + data_start total n)) by (unfold is_data; lia).
  assert (Hsub : i + data_start total n - data_start total n = i) by lia.
  apply HQ; [done|done|by unfold data_bit; rewrite Hsub|]. split; [|apply Hbc].
  intros id Hd. unfold data_bit. rewrite (bc_bits _ _ _ _ _ _ Hbc) by (by apply data_bitmap_bits).
  destruct (Z.eqb_spec (id - data_start total n) i) as [He|He].
  - rewrite bool_decide_eq_true_2, orb_true_r; [done|]. apply list_elem_of_singleton. lia.
  - rewrite bool_decide_eq_false_2, orb_false_r; [done|]. rewrite list_elem_of_singleton. lia.
Qed.

Lemma blocks_taken_app a b k1 k2 k3 : blocks_taken a k1 k2 -> blocks_taken b k2 k3 -> blocks_taken (a ++ b) k1 k3.
Proof.
  intros [Hb1 Hf1] [Hb2 Hf2]. split.
  - intros id Hd. rewrite Hb2, Hb1 by done. rewrite <-orb_assoc. f_equal.
    destruct (decide (id ∈ a)), (decide (id ∈ b)); repeat case_bool_decide; rewrite ?elem_of_app in *; tauto || done.
  - intros id Hid Hn. by rewrite Hf2, Hf1.
Qed.

(** Enough free blocks are taken one after the other. *)
Lemma wp_alloc_blocks s h m Q :
  cache_ok has s h -> held_ok h -> (size h < BLOCK_CACHE_SIZE)%nat -> 0 <= m <= Z.of_nat (length (free_blocks total n (view s))) ->
  (forall nb s', cache_ok has s' h -> Z.of_nat (length nb) = m -> NoDup nb ->
     (forall id, id ∈ nb -> is_data total n id /\ data_bit total n (view s) id = false) ->
     blocks_taken nb (view s) (view s') -> Q nb s') ->
  wp (foldM (fun v _ => let* b := alloc_data efs in ret (vec_push v b)) (seqZ 0 m) []) Q s.
Proof.
  intros Hok Hh Hsize Hm HQ.
  eapply wp_mono; [|apply (wp_foldM _ (fun dn nb s' => cache_ok has s' h /\ length nb = length dn /\ NoDup nb /\
    (forall id, id ∈ nb -> is_data total n id /\ data_bit total n (view s) id = false) /\ blocks_taken nb (view s) (view s')))].
  - intros nb s' (Hok' & Hl & Hnd & Hfree & Hbt). rewrite length_seqZ in Hl. apply HQ; try done. lia.
  - split_and!; [done|done|apply NoDup_nil_2|by intros id []%not_elem_of_nil|]. split; [|done].
    intros id Hd. rewrite bool_decide_eq_false_2, orb_false_r; [done|apply not_elem_of_nil].
  - intros dn x rest nb s1 Hseq (Hok1 & Hl & Hnd & Hfree & Hbt).
    assert (Hlen := f_equal length Hseq). rewrite length_seqZ, length_app in Hlen. cbn [length] in Hlen.
    assert (Hex : exists id, is_data total n id /\ data_bit total n (view s1) id = false).
    { destruct (free_blocks total n (view s1)) as [|id l] eqn:Hfb.
      - exfalso. assert (Hsub : free_blocks total n (view s) ⊆+ nb).
        { apply NoDup_submseteq; [apply NoDup_free_blocks|]. intros id [Hd Hb]%elem_of_free_blocks.
          destruct (decide (id ∈ nb)) as [|Hn]; [done|]. exfalso. apply (not_elem_of_nil id). rewrite <-Hfb.
          apply elem_of_free_blocks. split; [done|]. rewrite (bt_bits _ _ _ Hbt), Hb by done. by apply bool_decide_eq_false_2. }
        apply submseteq_length in Hsub. lia.
      - exists id. apply elem_of_free_blocks. rewrite Hfb. by left. }
    wp_step. apply (wp_alloc_data s1 h); [done..|]. intros id s2 Hok2 Hd Hb Hbt2. wp_step.
    rewrite (bt_bits _ _ _ Hbt) in Hb by done. apply orb_false_iff in Hb as [Hb Hn%bool_decide_eq_false_1].
    split_and!; [done|unfold vec_push; rewrite !length_app; cbn; lia|by apply NoDup_vec_push| |by eapply blocks_taken_app].
    intros id' [Hin| ->]%elem_of_vec_push; [by apply Hfree|done].
Qed.

(** ** Growing a file *)

(** The inode [d] became [d'] with the new blocks [nb], which were free. *)
Record extended (k : disk) (d : DiskInode) (new_size : Z) (nb : list Z) (k' : disk) (d' : DiskInode) : Prop := {
  ex_wf : inode_wf (is_data total n) ∅ k' d';
  ex_size : di_size d' = Z.max (di_size d) new_size;
  ex_type : type_ d' = type_ d;
  ex_owned : owned k' d' = owned k d ++ nb;
  ex_fresh id : id ∈ nb -> is_data total n id /\ data_bit total n k id = false;
  ex_bits id : is_data total n id -> data_bit total n k' id = data_bit total n k id || bool_decide (id ∈ nb);
  ex_bytes p : 0 <= p < data_blocks d * 512 -> file_byte k' d' p = file_byte k d p;
  ex_frame id : has id -> ~ bitmap_block (data_bitmap efs) id -> ~ is_indirect k' d' id -> k' id = k id
}.

Lemma is_data_not_bitmap id : is_data total n id -> ~ bitmap_block (data_bitmap efs) id.
Proof. intros [Hd _] Hb. unfold bitmap_block in Hb. cbn in Hb. unfold data_start in Hd. lia. Qed.

Lemma is_indirect_owned k d id : length (direct d) = 28%nat -> is_indirect k d id -> id ∈ owned k d.
Proof.
  intros Hd Hid. destruct (owned_of_indirect k d (data_blocks d) Hd id Hid) as (q & Hq & _).
  by apply list_elem_of_lookup_2 in Hq.
Qed.

(** Allocation and growth together. *)
Lemma extended_intro h k k1 k' d d' new_size nb :
  held_ok h -> inode_wf (is_data total n) ∅ k d -> di_size d <= new_size ->
  (forall id, id ∈ nb -> is_data total n id /\ data_bit total n k id = false) ->
  blocks_taken nb k k1 -> inode_grown has h k1 d new_size nb k' d' -> extended k d new_size nb k' d'.
Proof.
  intros Hh Hd Hs Hfresh Hbt Hg. pose proof (ig_wf _ _ _ _ _ _ _ _ Hg) as Hw.
  assert (Hsame : forall id, id ∈ owned k d -> k1 id = k id).
  { intros id [Hid _]%(iw_usable _ _ _ _ Hd). apply (bt_frame _ _ _ Hbt); [by apply (is_data_has h)|by apply is_data_not_bitmap]. }
  assert (Hown : owned k' d' = owned k d ++ nb).
  { rewrite (ig_owned _ _ _ _ _ _ _ _ Hg). f_equal. by apply owned_same. }
  assert (Hdata : forall id, id ∈ owned k' d' -> is_data total n id).
  { intros id. rewrite Hown, elem_of_app. intros [Hid|Hid]; [by apply Hd in Hid as []|by apply Hfresh]. }
  assert (Hframe : forall id, has id -> ~ is_indirect k' d' id -> k' id = k1 id) by apply Hg.
  split.
  - destruct Hw as [? ? ? _]. split; try done. intros id Hid. split; [by apply Hdata|apply lookup_empty].
  - rewrite (ig_size _ _ _ _ _ _ _ _ Hg). lia.
  - apply Hg.
  - done.
  - done.
  - intros id Hid. rewrite <-(bt_bits _ _ _ Hbt) by done. unfold data_bit. apply bitmap_bit_same; [|by apply data_bitmap_bits].
    intros b Hb. apply Hframe.
    + by apply (data_bitmap_ok ∅); [intros ? []%lookup_empty_is_Some|].
    + intros Hi%is_indirect_owned; [|by eapply iw_direct]. by apply Hdata, is_data_not_bitmap in Hi.
  - intros p Hp. rewrite (ig_bytes _ _ _ _ _ _ _ _ Hg) by done. by eapply file_byte_same.
  - intros id Hid Hb Hi. rewrite Hframe by done. by apply (bt_frame _ _ _ Hbt).
Qed.

(** The handle of inode [i]. *)
Definition ino (i : Z) : Inode := Inode_new (slot_block n i) (slot_off i) efs 0.

Lemma wp_Inode_increase_size s h i new_size d Q :
  cache_ok has s h -> held_ok h -> (S (size h) < BLOCK_CACHE_SIZE)%nat -> inode_wf (is_data total n) ∅ (view s) d ->
  (forall id, id ∈ owned (view s) d -> data_bit total n (view s) id = true) -> 0 <= new_size <= 16540 * 512 ->
  total_blocks new_size - total_blocks (di_size d) <= Z.of_nat (length (free_blocks total n (view s))) ->
  (forall nb d' s', cache_ok has s' h -> extended (view s) d new_size nb (view s') d' -> Q d' s') ->
  wp (Inode_increase_size (ino i) new_size d) Q s.
Proof.
  intros Hok Hh Hsize Hd Hused Hs Hfree HQ. pose proof (iw_size _ _ _ _ Hd) as Hsz. unfold Inode_increase_size.
  destruct (Z.ltb_spec new_size (di_size d)) as [Hlt|Hge].
  - apply wp_ret, (HQ []); [done|]. split; try done; [lia|by rewrite app_nil_r|by intros id []%not_elem_of_nil|].
    intros id _. rewrite bool_decide_eq_false_2, orb_false_r; [done|apply not_elem_of_nil].
  - pose proof (needed_blocks (di_size d) new_size ltac:(lia) ltac:(lia)) as Hneed.
    wp_step. eapply wp_lift.
    { unfold blocks_num_needed. rewrite (proj2 (Z.leb_le _ _)) by done. reflexivity. }
    rewrite wrap32_small by lia. wp_step. apply (wp_alloc_blocks s h); [done..|lia|lia|].
    intros nb s1 Hok1 Hlen Hnd Hfresh Hbt. change (ino_device (ino i)) with 0%nat.
    assert (Hhas : forall id, is_data total n id -> (∅ : gmap Z hold) !! id = None -> has id /\ h !! id = None)
      by (intros; by apply is_data_has).
    assert (Hsame : forall id, id ∈ owned (view s) d -> view s1 id = view s id).
    { intros id [Hid _]%(iw_usable _ _ _ _ Hd). apply (bt_frame _ _ _ Hbt); [by apply (is_data_has h)|by apply is_data_not_bitmap]. }
    apply (wp_increase_size has s1 h); try done.
    + eapply inode_wf_held; [eapply inode_wf_same; [exact Hd|done]|done].
    + lia.
    + apply Forall_forall. intros id [[Hid Hid'] _]%Hfresh. pose proof data_start_pos. destruct Hgeo. unfold is_u32. lia.
    + rewrite (owned_same (view s)) by done. apply NoDup_app. split_and!; [apply Hd| |done].
      intros id Hid [_ Hb]%Hfresh. by rewrite Hused in Hb.
    + intros id [Hid _]%Hfresh. by apply is_data_has.
    + intros d' s' Hok' Hg. apply (HQ nb); [done|]. by eapply extended_intro.
Qed.

(** ** Changing a file through its inode *)

(** What the closure of [modify_disk_inode] did to the disk when the inode of file [i] is
    to become [d'] and the file [f]; the slot of the inode is written afterwards. *)
Record file_step (k : disk) (F : gmap Z file) (i : Z) (d' : DiskInode) (f : file) (k' : disk) : Prop := {
  st_file : file_rep (is_data total n) k' d' f;
  st_super : k' 0 = k 0;
  st_bits j : is_inode n j -> inode_bit total n k' j = inode_bit total n k j || (j =? i);
  st_area id : 1 + n <= id < 1 + n * 1025 -> k' id = k id;
  st_fresh id : id ∈ owned k' d' -> id ∈ blocks_of n k F i \/ data_bit total n k id = false;
  st_used id : is_data total n id -> data_bit total n k' id = true <->
    id ∈ owned k' d' \/ (data_bit total n k id = true /\ id ∉ blocks_of n k F i);
  st_freed id : id ∈ blocks_of n k F i -> id ∉ owned k' d' -> k' id = zero_block;
  st_frame id : is_data total n id -> id ∉ blocks_of n k F i -> id ∉ owned k' d' -> k' id = k id
}.

Lemma slot_not_data i : is_inode n i -> ~ is_data total n (slot_block n i) /\ has (slot_block n i).
Proof.
  intros Hi. pose proof (inode_slot_range _ _ _ Hgeo Hi) as [Hs Ht]. pose proof data_start_pos. pose proof Hgeo as [Hn _].
  split; [intros [Hd _]; lia|unfold has; lia].
Qed.

(** Writing the inode completes the change. *)
Lemma slot_written k F i d' f k1 k3 :
  fs_rep total n k F -> is_inode n i -> file_step k F i d' f k1 -> length (k1 (slot_block n i)) = 512%nat ->
  k3 (slot_block n i) = put_bytes (Z.to_nat (slot_off i)) (to_bytes d') (k1 (slot_block n i)) ->
  (forall id, has id -> id <> slot_block n i -> k3 id = k1 id) ->
  file_changed total n k F i f k3.
Proof.
  intros HF Hi Hst Hlen Hslot Hother. pose proof (inode_slot_range _ _ _ Hgeo Hi) as [Hsr _]. pose proof Hgeo as [Hn Ht].
  destruct (slot_not_data i Hi) as [Hnd _]. pose proof data_start_pos as Hds.
  destruct (inode_of_put n k1 k3 i d') as [Hput Hputs];
    [apply (iw_valid _ _ _ _ (fl_wf _ _ _ _ (st_file _ _ _ _ _ _ Hst)))|done|done|].
  assert (Hdk : forall id, is_data total n id -> k3 id = k1 id).
  { intros id Hd. apply Hother; [by apply (is_data_has ∅); [intros ? []%lookup_empty_is_Some|]|]. by intros ->. }
  assert (Hown : owned k3 d' = owned k1 d').
  { apply owned_same. intros id Hid. apply Hdk. by apply (st_file _ _ _ _ _ _ Hst) in Hid as []. }
  assert (Hbit : forall id, is_data total n id -> data_bit total n k3 id = data_bit total n k1 id).
  { intros id Hd. apply bitmap_bit_same; [|by apply data_bitmap_bits]. intros b Hb.
    apply Hother; [by apply (data_bitmap_ok ∅); [intros ? []%lookup_empty_is_Some|]|].
    unfold bitmap_block in Hb. cbn in Hb. lia. }
  split; rewrite ?Hput, ?Hown; try apply Hst.
  - rewrite Hother by (unfold has; lia). apply Hst.
  - intros j Hj. rewrite <-(st_bits _ _ _ _ _ _ Hst) by done. apply bitmap_bit_same; [|exact Hj]. unfold bitmap_block. cbn.
    intros id Hid. apply Hother; [unfold has|]; lia.
  - split; [done|]. eapply file_rep_same; [apply Hst|]. intros id Hid. apply Hdk. by apply (st_file _ _ _ _ _ _ Hst) in Hid as [].
  - intros j Hj Hne. rewrite Hputs; [|done|].
    + unfold inode_of. rewrite (st_area _ _ _ _ _ _ Hst); [done|]. apply (inode_slot_range total); done.
    + intros Hne'. apply Hother; [|done]. by apply slot_not_data.
  - intros id Hd. rewrite Hbit by done. by apply Hst.
  - intros id Hold Hnew. rewrite Hdk; [by apply (st_freed _ _ _ _ _ _ Hst)|].
    unfold blocks_of in Hold. destruct (F !! i) eqn:Hf; [|by apply not_elem_of_nil in Hold].
    by apply (fr_owned_data _ _ _ _ i _ HF).
  - intros id Hd Hold Hnew. rewrite Hdk by done. by apply (st_frame _ _ _ _ _ _ Hst).
Qed.

(** Holding the block of an inode. *)
Definition hold_slot (i : Z) (m : hold) : gmap Z hold := <[slot_block n i := m]> ∅.

Lemma held_slot i m : is_inode n i -> held_ok (hold_slot i m) /\ size (hold_slot i m) = 1%nat.
Proof.
  intros Hi. pose proof (inode_slot_range _ _ _ Hgeo Hi) as [Hs _]. unfold hold_slot. split.
  - intros id [x Hx]. apply lookup_insert_Some in Hx as [[<- _]|[_ Hx]]; [done|]. by rewrite lookup_empty in Hx.
  - by rewrite map_size_insert_None, map_size_empty by apply lookup_empty.
Qed.

Lemma slot_offset_ok i : offset_ok (A := DiskInode) (slot_off i).
Proof. pose proof (slot_offset i). unfold offset_ok, BLOCK_SZ. cbn [size_of DiskInode_layout]. lia. Qed.

Lemma wp_read_inode {V} s F i f (g : DiskInode -> M (FsState D) V) Q :
  cache_ok has s ∅ -> fs_rep total n (view s) F -> F !! i = Some f ->
  (forall s1, cache_ok has s1 (hold_slot i Reading) -> fs_rep total n (view s1) F ->
     wp (g (inode_of n (view s1) i)) (fun r s2 => cache_ok has s2 (hold_slot i Reading) /\
       (forall id, has id -> view s2 id = view s1 id) /\
       forall s3, cache_ok has s3 ∅ -> fs_rep total n (view s3) F -> Q r s3) s1) ->
  wp (read_disk_inode (ino i) g) Q s.
Proof.
  intros Hok HF Hf Hg. destruct (fr_file _ _ _ _ HF i f Hf) as [Hi _]. destruct (slot_not_data i Hi) as [_ Hhas].
  unfold read_disk_inode. cbn [ino ino_block_id ino_block_offset ino_device].
  apply (wp_read_cache has s ∅); [done|apply lookup_empty|apply no_holds|done|apply slot_offset_ok|].
  intros s1 Hok1 Hv1. pose proof (fs_rep_view _ _ Hgeo _ _ _ HF Hv1) as HF1.
  change (from_bytes _) with (inode_of n (view s) i). rewrite <-(inode_of_view total n Hgeo _ (view s1)) by done.
  eapply wp_mono; [|by apply Hg]. intros r s2 (Hok2 & Hv2 & HQ). split; [done|]. intros s3 Hok3 Hv3. apply HQ; [done|].
  apply (fs_rep_view _ _ Hgeo (view s1)); [done|]. intros id Hid. by rewrite Hv3, Hv2.
Qed.

Lemma wp_modify_inode {V} s F i f (g : DiskInode -> M (FsState D) (V * DiskInode)) Q :
  cache_ok has s ∅ -> fs_rep total n (view s) F -> F !! i = Some f ->
  (forall s1, cache_ok has s1 (hold_slot i Writing) -> fs_rep total n (view s1) F ->
     wp (g (inode_of n (view s1) i)) (fun r s2 => cache_ok has s2 (hold_slot i Writing) /\
       exists f', file_step (view s1) F i (snd r) f' (view s2) /\
       forall s3, cache_ok has s3 ∅ -> fs_rep total n (view s3) (<[i := f']> F) -> Q (fst r) s3) s1) ->
  wp (modify_disk_inode (ino i) g) Q s.
Proof.
  intros Hok HF Hf Hg. destruct (fr_file _ _ _ _ HF i f Hf) as [Hi _]. destruct (slot_not_data i Hi) as [_ Hhas].
  unfold modify_disk_inode. cbn [ino ino_block_id ino_block_offset ino_device].
  apply (wp_modify_cache has s ∅); [done|apply lookup_empty|apply no_holds|done|apply slot_offset_ok|].
  intros s1 Hok1 Hv1. pose proof (fs_rep_view _ _ Hgeo _ _ _ HF Hv1) as HF1.
  change (from_bytes _) with (inode_of n (view s) i). rewrite <-(inode_of_view total n Hgeo _ (view s1)) by done.
  eapply wp_mono; [|by apply Hg]. intros r s2 (Hok2 & f' & Hst & HQ).
  destruct (view_ok has s2 _ _ Hok2 Hhas) as [Hlen _]. split_and!; [done| |].
  - apply (iw_valid _ _ _ _ (fl_wf _ _ _ _ (st_file _ _ _ _ _ _ Hst))).
  - intros s3 Hok3 Hv3. apply HQ; [done|]. eapply fs_rep_update; [exact HF1|].
    eapply slot_written; [done|done|done|exact Hlen| |].
    + by rewrite Hv3, decide_True.
    + intros id Hid Hne. by rewrite Hv3, decide_False.
Qed.

(** ** Writing *)

(** The blocks that a file gains read as zeros. *)
Lemma extended_bytes k F i f new_size nb k' d' p :
  fs_rep total n k F -> F !! i = Some f -> extended k (inode_of n k i) new_size nb k' d' -> 0 <= p < data_blocks d' * 512 ->
  file_byte k' d' p = nth (Z.to_nat p) (f_data f) 0.
Proof.
  intros HF Hf He Hp. destruct (fr_file _ _ _ _ HF i f Hf) as [_ [Hw _ Hs Hb]]. set (d := inode_of n k i) in *.
  pose proof (iw_size _ _ _ _ Hw) as Hsz. pose proof (ex_wf _ _ _ _ _ _ He) as Hw'.
  destruct (decide (p < data_blocks d * 512)) as [Hlt|Hge]; [rewrite (ex_bytes _ _ _ _ _ _ He), Hb by lia; done|].
  assert (Hin : block_of k' d' (p / 512) ∈ nb).
  { eapply (block_of_suffix k k' d d' (data_blocks d) (data_blocks d')); [by eapply iw_direct..|apply He| |zdm].
    unfold data_blocks in *. rewrite data_blocks_ceil in * by done. zdm. }
  destruct (ex_fresh _ _ _ _ _ _ He _ Hin) as [Hd Hfree].
  rewrite (nth_overflow (f_data f)).
  - unfold file_byte. rewrite (ex_frame _ _ _ _ _ _ He).
    + rewrite (fr_free _ _ _ _ HF) by done. unfold zero_block. apply nth_replicate_zero.
    + by apply (is_data_has ∅); [intros ? []%lookup_empty_is_Some|].
    + by apply is_data_not_bitmap.
    + apply (io_apart _ _ _ _ (inode_wf_ok _ _ _ _ Hw')). zdm.
  - unfold data_blocks in Hge. rewrite data_blocks_ceil in Hge by done. zdm.
Qed.

(** Blocks outside the data area and its bitmap. *)
Lemma outside_data id : has id -> id < 1 + n * 1025 -> ~ is_data total n id /\ ~ bitmap_block (data_bitmap efs) id.
Proof.
  intros Hh Hid. pose proof data_start_pos. split; [intros [? _]; lia|]. unfold bitmap_block. cbn. lia.
Qed.

(** A step that writes nothing in front of the data bitmap. *)
Lemma file_step_intro k F i d' f k' :
  fs_rep total n k F -> is_Some (F !! i) -> is_inode n i -> file_rep (is_data total n) k' d' f ->
  (forall id, has id -> ~ is_data total n id -> ~ bitmap_block (data_bitmap efs) id -> k' id = k id) ->
  (forall id, id ∈ owned k' d' -> id ∈ blocks_of n k F i \/ data_bit total n k id = false) ->
  (forall id, is_data total n id -> data_bit total n k' id = true <->
    id ∈ owned k' d' \/ (data_bit total n k id = true /\ id ∉ blocks_of n k F i)) ->
  (forall id, id ∈ blocks_of n k F i -> id ∉ owned k' d' -> k' id = zero_block) ->
  (forall id, is_data total n id -> id ∉ blocks_of n k F i -> id ∉ owned k' d' -> k' id = k id) ->
  file_step k F i d' f k'.
Proof.
  intros HF HFi Hi Hr Hout Hfresh Hused Hfreed Hframe. pose proof Hgeo as [Hn Ht].
  assert (Hlow : forall id, 0 <= id < 1 + n * 1025 -> k' id = k id).
  { intros id Hid. assert (Hh : has id) by (unfold has; lia). destruct (outside_data id Hh); [lia|]. by apply Hout. }
  split; try done.
  - apply Hlow. lia.
  - intros j Hj. assert (Hsame : inode_bit total n k' j = inode_bit total n k j).
    { apply bitmap_bit_same; [|exact Hj]. unfold bitmap_block. cbn. intros id Hid. apply Hlow. lia. }
    rewrite Hsame. destruct (Z.eqb_spec j i) as [->|]; [|by rewrite orb_false_r].
    rewrite (fr_inode _ _ _ _ HF) by done. by rewrite bool_decide_eq_true_2.
  - intros id Hid. apply Hlow. lia.
Qed.

(** Growing and then writing inside the new size. *)
Lemma file_step_write k F i f off buf nb k1 d' k2 :
  fs_rep total n k F -> F !! i = Some f -> 0 <= off ->
  extended k (inode_of n k i) (off + Z.of_nat (length buf)) nb k1 d' -> file_written has d' off buf k1 k2 ->
  file_step k F i d' (mk_file (f_type f) (write_data (f_data f) off buf)) k2.
Proof.
  intros HF Hf Hoff He Hw. destruct (fr_file _ _ _ _ HF i f Hf) as [Hi Hr]. pose proof (ex_wf _ _ _ _ _ _ He) as Hwf1.
  assert (HFi : is_Some (F !! i)) by eauto.
  assert (Hheld : held_ok ∅) by (intros ? []%lookup_empty_is_Some).
  assert (Hwfh : inode_wf has ∅ k1 d') by (eapply inode_wf_held; [exact Hwf1|intros; by apply is_data_has]).
  pose proof (inode_wf_ok _ _ _ _ Hwfh) as Hok1. pose proof (iw_direct _ _ _ _ Hwf1) as Hdir.
  pose proof (file_written_indirect _ _ _ _ _ _ _ Hok1 Hw) as Hind.
  assert (Hframe2 : forall id, has id -> (id ∉ owned k1 d') -> k2 id = k1 id).
  { intros id Hid Hno. apply (fw_frame _ _ _ _ _ _ Hw); [done|]. intros j Hj ->. by apply Hno, block_of_owned. }
  assert (Hown : owned k2 d' = owned k1 d').
  { eapply owned_number_blocks; [exact Hdir|exact Hind]. }
  assert (Hb : blocks_of n k F i = owned k (inode_of n k i)) by (unfold blocks_of; by rewrite Hf).
  assert (Hdbit : forall id, is_data total n id -> data_bit total n k2 id = data_bit total n k1 id).
  { intros id Hd. apply bitmap_bit_same; [|by apply data_bitmap_bits]. intros b Hbb. apply Hframe2.
    - by apply (data_bitmap_ok ∅).
    - intros [Hbd _]%(iw_usable _ _ _ _ Hwf1). by apply is_data_not_bitmap in Hbd. }
  assert (Hfr : forall id, has id -> ~ bitmap_block (data_bitmap efs) id -> id ∉ owned k1 d' -> k2 id = k id).
  { intros id Hid Hnb Hno. rewrite Hframe2 by done. apply (ex_frame _ _ _ _ _ _ He); [done..|]. intros Hx. by apply Hno, is_indirect_owned. }
  apply file_step_intro; try done; rewrite ?Hown, ?Hb.
  - split; cbn [f_type f_data].
    + destruct Hwf1 as [? ? Hnd Hus]. split; [done..| |]; rewrite Hown; done.
    + rewrite (ex_type _ _ _ _ _ _ He). apply Hr.
    + rewrite (ex_size _ _ _ _ _ _ He), length_write_data, (fl_size _ _ _ _ Hr). lia.
    + intros p Hp. rewrite (fw_bytes _ _ _ _ _ _ Hw), nth_write_data by lia.
      by rewrite (extended_bytes k F i f (off + Z.of_nat (length buf)) nb k1 d') by done.
  - intros id Hid Hnd Hnb. apply Hfr; [done..|]. by intros [? _]%(iw_usable _ _ _ _ Hwf1).
  - intros id. rewrite (ex_owned _ _ _ _ _ _ He), elem_of_app. intros [?|?]; [by left|right; by apply (ex_fresh _ _ _ _ _ _ He)].
  - intros id Hd. rewrite Hdbit, (ex_bits _ _ _ _ _ _ He), (ex_owned _ _ _ _ _ _ He), elem_of_app, orb_true_iff, bool_decide_eq_true by done.
    pose proof (fr_owned_data _ _ _ _ _ id HF HFi). destruct (decide (id ∈ owned k (inode_of n k i))); tauto.
  - intros id Hold Hnew. exfalso. apply Hnew. rewrite (ex_owned _ _ _ _ _ _ He). apply elem_of_app. by left.
  - intros id Hd Hold Hnew. apply Hfr; [by apply (is_data_has ∅)|by apply is_data_not_bitmap|done].
Qed.

Lemma file_rep_ok h k d f : held_ok h -> file_rep (is_data total n) k d f -> inode_wf has h k d.
Proof. intros Hh Hr. eapply inode_wf_held; [apply Hr|]. intros; by apply is_data_has. Qed.

Lemma wp_Inode_write_at s F i f off buf Q :
  cache_ok has s ∅ -> fs_rep total n (view s) F -> F !! i = Some f -> Forall is_u8 buf -> buf <> [] ->
  0 <= off -> off + Z.of_nat (length buf) <= 16540 * 512 ->
  let f' := mk_file (f_type f) (write_data (f_data f) off buf) in
  used_blocks (<[i := f']> F) <= capacity total n ->
  (forall s', cache_ok has s' ∅ -> fs_rep total n (view s') (<[i := f']> F) ->
     (forall id, has id -> device_block s' id = Ok (view s' id)) -> Q (Z.of_nat (length buf)) s') ->
  wp (Inode_write_at (ino i) off buf) Q s.
Proof.
  intros Hok HF Hf Hu8 Hne Hoff Hmax f' Hcap HQ. assert (Hpos : 0 < Z.of_nat (length buf)) by (destruct buf; cbn; [done|lia]).
  unfold Inode_write_at. wp_step. apply (wp_modify_inode s F i f); [done..|]. intros s1 Hok1 HF1.
  destruct (fr_file _ _ _ _ HF1 i f Hf) as [Hi Hr]. destruct (held_slot i Writing Hi) as [Hh Hsize].
  assert (Hlim : (S (size (hold_slot i Writing)) < BLOCK_CACHE_SIZE)%nat) by (rewrite Hsize; lia).
  rewrite wrap32_small by lia. wp_step. apply (wp_Inode_increase_size s1 (hold_slot i Writing)); [done..|apply Hr| |lia| |].
  { intros id Hid. by eapply fr_owned_data; [done|eauto|]. }
  { rewrite (free_count _ _ Hgeo _ _ HF1), (fl_size _ _ _ _ Hr). rewrite (used_blocks_update F i f) in Hcap by done.
    unfold f' in Hcap. unfold file_blocks in Hcap. cbn [f_data] in Hcap. rewrite length_write_data in Hcap.
    destruct (decide (off + Z.of_nat (length buf) <= Z.of_nat (length (f_data f)))) as [Hle|Hgt].
    - pose proof (needed_blocks (off + Z.of_nat (length buf)) (Z.of_nat (length (f_data f))) ltac:(lia)) as Hnn.
      pose proof (iw_size _ _ _ _ (fl_wf _ _ _ _ Hr)) as Hsz. rewrite (fl_size _ _ _ _ Hr) in Hsz.
      replace (Z.of_nat (Nat.max _ _)) with (Z.of_nat (length (f_data f))) in Hcap by lia. lia.
    - replace (Z.of_nat (Nat.max _ _)) with (off + Z.of_nat (length buf)) in Hcap by lia. lia. }
  intros nb d' s2 Hok2 He. pose proof (ex_size _ _ _ _ _ _ He) as Hsize'. change (ino_device (ino i)) with 0%nat.
  assert (Hwf : inode_wf has (hold_slot i Writing) (view s2) d') by (eapply inode_wf_held; [apply He|intros; by apply is_data_has]).
  pose proof (inode_wf_ok _ _ _ _ Hwf) as Hiok.
  wp_step. apply (wp_write_at has s2 (hold_slot i Writing)); [done..|lia|done|done|lia|lia|]. intros s3 Hok3 Hw.
  rewrite Z.min_l in Hw by lia. rewrite Z.min_l by lia. replace (off + Z.of_nat (length buf) - off) with (Z.of_nat (length buf)) in * by lia.
  rewrite take_ge in Hw by lia. wp_step. split; [done|]. exists f'. split; [by eapply file_step_write|].
  intros s4 Hok4 HF4. wp_step. apply (wp_sync_all has s4); [done|]. intros s5 Hok5 Hv5 Hdev. wp_step.
  apply HQ; [done|by eapply fs_rep_view|]. intros id Hid. by rewrite Hdev, Hv5.
Qed.

Lemma wp_Inode_read_at s F i f off buf Q :
  cache_ok has s ∅ -> fs_rep total n (view s) F -> F !! i = Some f -> 0 <= off -> off + Z.of_nat (length buf) < 2 ^ 64 ->
  (forall s', cache_ok has s' ∅ -> fs_rep total n (view s') F -> Q (read_data (f_data f) off buf) s') ->
  wp (Inode_read_at (ino i) off buf) Q s.
Proof.
  intros Hok HF Hf Hoff Hlen HQ. unfold Inode_read_at. apply (wp_read_inode s F i f); [done..|]. intros s1 Hok1 HF1.
  destruct (fr_file _ _ _ _ HF1 i f Hf) as [Hi Hr]. destruct (held_slot i Reading Hi) as [Hh Hsize].
  apply (wp_read_at has s1 (hold_slot i Reading)); [done|by apply inode_wf_ok, (file_rep_ok _ _ _ f)| |done|done|].
  { rewrite Hsize. lia. }
  intros s2 Hok2 Hv2. split; [done|]. split; [done|]. intros s3 Hok3 HF3.
  rewrite (file_rep_bytes _ _ _ f) by (done || lia). rewrite (fl_size _ _ _ _ Hr).
  set (m := Z.max 0 _). replace (Z.to_nat m) with (Nat.min (length buf) (length (f_data f) - Z.to_nat off)) by lia.
  replace m with (Z.of_nat (Nat.min (length buf) (length (f_data f) - Z.to_nat off))) by lia. by apply HQ.
Qed.

(** ** Clearing *)

(** The blocks [fr] were cleared and unmarked. *)
Record blocks_freed (fr : list Z) (k k' : disk) : Prop := {
  bf_bits id : is_data total n id -> data_bit total n k' id = data_bit total n k id && negb (bool_decide (id ∈ fr));
  bf_zero id : id ∈ fr -> k' id = zero_block;
  bf_frame id : has id -> ~ bitmap_block (data_bitmap efs) id -> id ∉ fr -> k' id = k id
}.

Lemma wp_dealloc_data s h id Q :
  cache_ok has s h -> held_ok h -> (size h < BLOCK_CACHE_SIZE)%nat -> is_data total n id -> data_bit total n (view s) id = true ->
  (forall s', cache_ok has s' h -> blocks_freed [id] (view s) (view s') -> Q tt s') ->
  wp (dealloc_data efs id) Q s.
Proof.
  intros Hok Hh Hsize Hid Hb HQ. destruct (is_data_has h id Hh Hid) as [Hhas Hfree]. pose proof data_start_pos as Hds.
  pose proof Hgeo as [Hn Ht]. unfold dealloc_data. wp_step. change (efs_block_device efs) with 0%nat.
  apply (wp_clear_block has s h); [done..|]. intros s1 Hok1 Hv1.
  change (data_area_start_block efs) with (data_start total n). pose proof Hid as [Hd1 Hd2]. rewrite wrap32_small by lia.
  assert (Hsame : forall j, is_data total n j -> data_bit total n (view s1) j = data_bit total n (view s) j).
  { intros j Hj. apply bitmap_bit_same; [|by apply data_bitmap_bits]. intros b Hbb. rewrite Hv1, decide_False; [done| |].
    - intros ->. by apply is_data_not_bitmap in Hid.
    - by apply (data_bitmap_ok h). }
  apply (wp_Bitmap_dealloc has _ s1 h); [done|by apply data_bitmap_ok|done|by apply data_bitmap_bits| |].
  { rewrite <-Hb. by apply Hsame. }
  intros s2 Hok2 Hbc. assert (Hnb := is_data_not_bitmap id Hid). apply HQ; [done|]. split.
  - intros j Hj. unfold data_bit at 1. rewrite (bc_bits _ _ _ _ _ _ Hbc) by (by apply data_bitmap_bits).
    destruct (Z.eqb_spec (j - data_start total n) (id - data_start total n)) as [He|He].
    + rewrite bool_decide_eq_true_2 by (apply list_elem_of_singleton; lia). by rewrite andb_false_r.
    + rewrite bool_decide_eq_false_2 by (rewrite list_elem_of_singleton; lia). rewrite andb_true_r. by apply Hsame.
  - intros j ->%list_elem_of_singleton. rewrite (bc_frame _ _ _ _ _ _ Hbc) by done. by rewrite Hv1, decide_True.
  - intros j Hj Hjb Hne. rewrite (bc_frame _ _ _ _ _ _ Hbc) by done. rewrite Hv1, decide_False; [done| |done].
    intros ->. apply Hne. by left.
Qed.

Lemma blocks_freed_app a b k1 k2 k3 :
  (forall id, id ∈ b -> (id ∉ a) /\ is_data total n id) -> (forall id, id ∈ a -> is_data total n id) ->
  blocks_freed a k1 k2 -> blocks_freed b k2 k3 -> blocks_freed (a ++ b) k1 k3.
Proof.
  intros Hb Ha [Hb1 Hz1 Hf1] [Hb2 Hz2 Hf2]. split.
  - intros id Hd. rewrite Hb2, Hb1 by done. rewrite <-andb_assoc. f_equal.
    destruct (decide (id ∈ a)), (decide (id ∈ b)); repeat case_bool_decide; rewrite ?elem_of_app in *; tauto || done.
  - intros id. rewrite elem_of_app. intros [Hin|Hin]; [|by apply Hz2]. rewrite Hf2.
    + by apply Hz1.
    + by apply (is_data_has ∅); [intros ? []%lookup_empty_is_Some|apply Ha].
    + by apply is_data_not_bitmap, Ha.
    + intros Hinb. by apply Hb in Hinb as [? _].
  - intros id Hid Hn Hno. rewrite elem_of_app in Hno. rewrite Hf2, Hf1 by tauto. done.
Qed.

Lemma wp_dealloc_all s h v Q :
  cache_ok has s h -> held_ok h -> (size h < BLOCK_CACHE_SIZE)%nat -> NoDup v ->
  (forall id, id ∈ v -> is_data total n id /\ data_bit total n (view s) id = true) ->
  (forall s', cache_ok has s' h -> blocks_freed v (view s) (view s') -> Q tt s') ->
  wp (for_each v (dealloc_data efs)) Q s.
Proof.
  intros Hok Hh Hsize Hnd Hv HQ. unfold for_each.
  eapply wp_mono; [|apply (wp_foldM _ (fun dn _ s' => cache_ok has s' h /\ blocks_freed dn (view s) (view s')))].
  - intros [] s' [Hok' Hbf]. by apply HQ.
  - split; [done|]. split; [|by intros id []%not_elem_of_nil|done].
    intros id _. rewrite bool_decide_eq_false_2 by apply not_elem_of_nil. by rewrite andb_true_r.
  - intros dn id rest [] s1 -> [Hok1 Hbf]. apply NoDup_app in Hnd as (_ & Hdis & _).
    assert (Hin : (id ∉ dn)) by (intros Hid; apply (Hdis id Hid); by left).
    destruct (Hv id) as [Hd Hb]; [apply elem_of_app; right; by left|].
    apply (wp_dealloc_data s1 h); [done..| |].
    { rewrite (bf_bits _ _ _ Hbf), Hb by done. by rewrite bool_decide_eq_false_2. }
    intros s2 Hok2 Hbf2. split; [done|]. eapply blocks_freed_app; [| |done|done].
    + by intros j ->%list_elem_of_singleton.
    + intros j Hj. apply Hv, elem_of_app. by left.
Qed.

(** The step of a file that lost all its blocks. *)
Lemma file_step_clear k F i f d' k1 k' :
  fs_rep total n k F -> F !! i = Some f -> valid_value d' -> di_size d' = 0 -> type_ d' = f_type f ->
  (forall id, has id -> k1 id = k id) -> blocks_freed (owned k (inode_of n k i)) k1 k' ->
  file_step k F i d' (mk_file (f_type f) []) k'.
Proof.
  intros HF Hf Hv Hs Ht Hk1 Hbf. destruct (fr_file _ _ _ _ HF i f Hf) as [Hi Hr]. assert (HFi : is_Some (F !! i)) by eauto.
  assert (Hheld : held_ok ∅) by (intros ? []%lookup_empty_is_Some).
  destruct (empty_inode_wf (is_data total n) ∅ k' d' Hv Hs) as [Hown Hwf].
  assert (Hb : blocks_of n k F i = owned k (inode_of n k i)) by (unfold blocks_of; by rewrite Hf).
  assert (Hold := fun id => fr_owned_data _ _ _ _ i id HF HFi).
  apply file_step_intro; try done; rewrite ?Hown, ?Hb.
  - split; [done|done|by rewrite Hs|]. intros p Hp. exfalso. unfold data_blocks in Hp. rewrite Hs in Hp. change (data_blocks_of 0) with 0 in Hp. lia.
  - intros id Hid Hnd Hnb. rewrite (bf_frame _ _ _ Hbf); [by apply Hk1|done|done|]. by intros [? _]%Hold.
  - by intros id []%not_elem_of_nil.
  - intros id Hd. rewrite (bf_bits _ _ _ Hbf), (data_bit_view total n Hgeo k) by done.
    rewrite andb_true_iff, negb_true_iff, bool_decide_eq_false. rewrite elem_of_nil. tauto.
  - intros id Hin _. by apply (bf_zero _ _ _ Hbf).
  - intros id Hd Hno _. rewrite (bf_frame _ _ _ Hbf); [apply Hk1; by apply (is_data_has ∅)|by apply (is_data_has ∅)| |done].
    by apply is_data_not_bitmap.
Qed.

Lemma wp_Inode_clear s F i f Q :
  cache_ok has s ∅ -> fs_rep total n (view s) F -> F !! i = Some f ->
  (forall s', cache_ok has s' ∅ -> fs_rep total n (view s') (<[i := mk_file (f_type f) []]> F) ->
     (forall id, has id -> device_block s' id = Ok (view s' id)) -> Q tt s') ->
  wp (Inode_clear (ino i)) Q s.
Proof.
  intros Hok HF Hf HQ. unfold Inode_clear. wp_step. apply (wp_modify_inode s F i f); [done..|]. intros s1 Hok1 HF1.
  destruct (fr_file _ _ _ _ HF1 i f Hf) as [Hi Hr]. destruct (held_slot i Writing Hi) as [Hh Hsize].
  assert (Hlim : (S (size (hold_slot i Writing)) < BLOCK_CACHE_SIZE)%nat) by (rewrite Hsize; lia).
  wp_step. change (ino_device (ino i)) with 0%nat.
  apply (wp_clear_size has s1 (hold_slot i Writing)); [done|done|by apply (file_rep_ok _ _ _ f)|].
  intros d' s2 Hok2 Hv2 Hwf Hs0 Hty. cbn beta iota.
  assert (Hown := fun id => fr_owned_data _ _ _ _ i id HF1 ltac:(eauto)).
  wp_step. apply wp_assert.
  { apply Z.eqb_eq. rewrite (fl_size _ _ _ _ Hr). by eapply file_rep_blocks. }
  wp_step. apply (wp_dealloc_all s2 (hold_slot i Writing)); [done|done|lia|apply Hr| |].
  { intros id [Hd Hb]%Hown. split; [done|]. rewrite <-Hb. by apply data_bit_view. }
  intros s3 Hok3 Hbf. wp_step. split; [done|]. exists (mk_file (f_type f) []). split.
  - apply (file_step_clear (view s1) F i f d' (view s2)); try done; [apply (iw_valid _ _ _ _ Hwf)|].
    rewrite Hty. apply Hr.
  - intros s4 Hok4 HF4. apply (wp_sync_all has s4); [done|]. intros s5 Hok5 Hv5 Hdev.
    apply HQ; [done|by eapply fs_rep_view|]. intros id Hid. by rewrite Hdev, Hv5.
Qed.

End Vfs.

(** C12: Writing a file refines writing a byte string in a finite map.  On a disk that holds
    the files [F], [Inode::write_at] of a non-empty buffer at any offset, with enough free
    blocks for the new length, writes the whole buffer: afterwards the disk holds [F] with
    exactly this file changed, extended with zeros if the offset was beyond its end; all
    bitmaps, the other files and the super block are as the map says, everything is on the
    device, and [Inode::read_at] of the range returns the buffer. *)
Theorem Inode_write_at_correct {D : Type} `{BlockDeviceSpec D} total n (s : FsState D) F i f off buf :
  size_ok total n -> cache_ok (fun id => 0 <= id < total) s ∅ -> fs_rep total n (view s) F -> F !! i = Some f ->
  Forall is_u8 buf -> buf <> [] -> 0 <= off -> off + Z.of_nat (length buf) <= 16540 * 512 ->
  used_blocks (<[i := mk_file (f_type f) (write_data (f_data f) off buf)]> F) <= capacity total n ->
  wp (let* w := Inode_write_at (ino total n i) off buf in
      let* s1 := get in
      let* r := Inode_read_at (ino total n i) off (replicate (length buf) 0) in
      ret (w, s1, r)) (fun r s' =>
    let '(w, s1, (len, bs)) := r in
    w = Z.of_nat (length buf) /\ len = w /\ bs = buf /\ cache_ok (fun id => 0 <= id < total) s' ∅ /\
    fs_rep total n (view s') (<[i := mk_file (f_type f) (write_data (f_data f) off buf)]> F) /\
    forall id, 0 <= id < total -> device_block s1 id = Ok (view s1 id)) s.
Proof.
  intros Hgeo Hok HF Hf Hu8 Hne Hoff Hmax Hcap. wp_step. apply (wp_Inode_write_at total n Hgeo s F i f); [done..|].
  intros s1 Hok1 HF1 Hdev. wp_step. wp_step. apply wp_bind.
  apply (wp_Inode_read_at total n Hgeo s1 _ i (mk_file (f_type f) (write_data (f_data f) off buf)) off _ _ Hok1 HF1);
    [by rewrite lookup_insert_eq|done|rewrite length_replicate; lia|].
  intros s2 Hok2 HF2. wp_step. unfold read_data. cbn [f_data]. rewrite length_replicate, length_write_data, Nat.min_l by lia.
  rewrite (drop_ge (replicate _ _)), app_nil_r by (rewrite length_replicate; lia). split_and!; try done.
  unfold write_data, put_bytes. rewrite drop_app_length' by (rewrite length_take, length_app, length_replicate; lia). by rewrite take_app_length.
Qed.

(** [Inode::clear] empties the file and gives back exactly the blocks it owned: the
    disk holds the same files with this one empty, the number of free data blocks grows by
    the file's blocks, and everything is on the device. *)
Theorem Inode_clear_correct {D : Type} `{BlockDeviceSpec D} total n (s : FsState D) F i f :
  size_ok total n -> cache_ok (fun id => 0 <= id < total) s ∅ -> fs_rep total n (view s) F -> F !! i = Some f ->
  wp (Inode_clear (ino total n i)) (fun _ s' => cache_ok (fun id => 0 <= id < total) s' ∅ /\
    fs_rep total n (view s') (<[i := mk_file (f_type f) []]> F) /\
    Z.of_nat (length (free_blocks total n (view s'))) = Z.of_nat (length (free_blocks total n (view s))) + file_blocks f /\
    forall id, 0 <= id < total -> device_block s' id = Ok (view s' id)) s.
Proof.
  intros Hgeo Hok HF Hf. apply (wp_Inode_clear total n Hgeo s F i f); [done..|]. intros s' Hok' HF' Hdev.
  split_and!; [done..| |done]. rewrite (free_count _ _ Hgeo _ _ HF'), (free_count _ _ Hgeo _ _ HF), (used_blocks_update F i f) by done.
  change (file_blocks (mk_file (f_type f) [])) with 0. lia.
Qed.

(** ** On a new file system *)

Lemma Inode_write_at_correct_witness :
  wp (let* _ := efs_create 0 1100 1 in
      let* w := Inode_write_at (ino 1100 1 0) 700 [1; 2; 3] in
      let* s1 := get in
      let* r := Inode_read_at (ino 1100 1 0) 700 (replicate 3 0) in
      ret (w, s1, r)) (fun r s' => fst (fst r) = 3 /\ snd r = (3, [1; 2; 3])) (blank_image 1100).
Proof.
  assert (Hs : size_ok 1100 1) by (unfold size_ok; lia). wp_step.
  apply (wp_efs_create (fun id => 0 <= id < 1100) (blank_image 1100)); [apply blank_image_ok; lia|done|done|].
  intros s1 Hok1 Hf _. eapply wp_mono; [|refine (Inode_write_at_correct 1100 1 s1 {[0 := mk_file 1 []]} 0 (mk_file 1 []) 700 [1; 2; 3]
    Hs Hok1 (formatted_rep _ _ _ Hs Hf) _ _ _ _ _ _)].
  - intros [[w s2] [len bs]] s3 (-> & -> & -> & _). done.
  - apply lookup_singleton_eq.
  - repeat (constructor; [done|]). constructor.
  - done.
  - done.
  - cbn. lia.
  - by vm_compute.
Defined.

Lemma Inode_clear_correct_witness :
  wp (let* _ := efs_create 0 1100 1 in Inode_clear (ino 1100 1 0))
    (fun _ s' => fs_rep 1100 1 (view s') (<[0 := mk_file 1 []]> {[0 := mk_file 1 []]})) (blank_image 1100).
Proof.
  assert (Hs : size_ok 1100 1) by (unfold size_ok; lia). wp_step.
  apply (wp_efs_create (fun id => 0 <= id < 1100) (blank_image 1100)); [apply blank_image_ok; lia|done|done|].
  intros s1 Hok1 Hf _. eapply wp_mono; [|refine (Inode_clear_correct 1100 1 s1 {[0 := mk_file 1 []]} 0 (mk_file 1 [])
    Hs Hok1 (formatted_rep _ _ _ Hs Hf) _)].
  - intros [] s2 (_ & HF & _). exact HF.
  - apply lookup_singleton_eq.
Defined.
