(* ===== verification/RootSpec.v ===== *)
(** * The root directory

    The contents of the root directory are its entries, 32 bytes each.  [find] returns the
    inode of the first entry with the name, [ls] the names in order, and [create] adds an
    empty file and an entry for it, unless the name is there already. *)

From S2P Require Import Prelude Utf8 Codec BlockCache BlockCacheSpec BlockFile DiskSpec.
From S2P Require Import Bitmap DiskLayout Efs EfsSpec Vfs InodeSpec InodeBlocks GrowSpec FsSpec DirSpec VfsSpec.

(** ** Directories as lists of entries *)

(** Names that survive in an entry, see [DirSpec]. *)
Definition valid_name (nm : list Z) : Prop :=
  (0 ∉ nm) /\ (length nm <= 27)%nat /\ Forall is_u8 nm /\ is_Some (from_utf8 nm).

Definition dirent_of (e : list Z * Z) : DirEntry := mk_dirent (e.1 ++ replicate (28 - length e.1) 0) e.2.
Definition dir_data (es : list (list Z * Z)) : list Z := concat (map (fun e => DirEntry_as_bytes (dirent_of e)) es).
Definition valid_dir (es : list (list Z * Z)) : Prop := Forall (fun e => valid_name e.1 /\ is_u32 e.2) es.

Fixpoint dir_lookup (nm : list Z) (es : list (list Z * Z)) : option Z :=
  match es with
  | [] => None
  | e :: es' => if bool_decide (e.1 = nm) then Some e.2 else dir_lookup nm es'
  end.

Lemma dirent_of_props e :
  valid_name e.1 -> is_u32 e.2 ->
  length (DirEntry_as_bytes (dirent_of e)) = 32%nat /\ DirEntry_of_bytes (DirEntry_as_bytes (dirent_of e)) = dirent_of e /\
  DirEntry_name (dirent_of e) = Ok e.1 /\ DirEntry_new e.1 e.2 = Ok (dirent_of e) /\ Forall is_u8 (DirEntry_as_bytes (dirent_of e)).
Proof.
  intros (H0 & Hl & Hu & [cs Hc]) Hi. destruct (DirEntry_bytes_roundtrip (dirent_of e)) as [Hlen Hrt]; [|done|].
  { cbn. rewrite length_app, length_replicate. lia. }
  split_and!; [done|done| |apply DirEntry_new_Ok; lia|].
  - unfold DirEntry_name, dirent_of. cbn [name]. replace (28 - length e.1)%nat with (S (27 - length e.1)) by lia. cbn [replicate].
    destruct (find_zero_spec e.1 0 0 (replicate (27 - length e.1) 0) H0) as [-> _]. cbn [plus]. by rewrite take_app_length, Hc.
  - unfold DirEntry_as_bytes, dirent_of. cbn [name]. rewrite !Forall_app. split_and!; [done|by apply Forall_replicate|].
    apply le_enc_u8.
Qed.

Lemma length_dir_data es : valid_dir es -> length (dir_data es) = (32 * length es)%nat.
Proof.
  induction 1 as [|e es [Hn Hi] _ IH]; [done|]. unfold dir_data. cbn [map concat length]. rewrite length_app.
  destruct (dirent_of_props e Hn Hi) as [-> _]. unfold dir_data in IH. rewrite IH. lia.
Qed.

(** The room an entry takes does not depend on the inode number. *)
Lemma dir_blocks es nm i j ty :
  valid_dir es -> valid_name nm -> is_u32 i -> is_u32 j ->
  file_blocks (mk_file ty (dir_data (es ++ [(nm, i)]))) = file_blocks (mk_file ty (dir_data (es ++ [(nm, j)]))).
Proof.
  intros Hv Hn Hi Hj. unfold file_blocks. cbn [f_data].
  rewrite !length_dir_data, !length_app by (apply Forall_app; split; [done|by constructor]). done.
Qed.

Lemma dir_data_app es es' : dir_data (es ++ es') = dir_data es ++ dir_data es'.
Proof. unfold dir_data. by rewrite map_app, concat_app. Qed.

(** The bytes of entry [j]. *)
Lemma dir_data_entry es j e :
  valid_dir es -> es !! j = Some e -> take 32 (drop (32 * j) (dir_data es)) = DirEntry_as_bytes (dirent_of e).
Proof.
  intros Hv Hj. pose proof (list_elem_of_split_length es j e Hj) as (l1 & l2 & -> & ->).
  apply Forall_app in Hv as [Hv1 Hv2]. inversion Hv2 as [|? ? [Hn Hi] _]; subst.
  rewrite dir_data_app. rewrite drop_app_length' by (by rewrite length_dir_data).
  unfold dir_data at 1. cbn [map concat]. apply take_app_length'. symmetry. by apply dirent_of_props.
Qed.

Lemma write_data_append l buf : write_data l (Z.of_nat (length l)) buf = l ++ buf.
Proof.
  unfold write_data. rewrite Nat2Z.id. replace (length l + length buf - length l)%nat with (length buf) by lia.
  unfold put_bytes. rewrite take_app_length. rewrite drop_ge by (rewrite length_app, length_replicate; lia). by rewrite app_nil_r.
Qed.

Section Root.
Context {D : Type} `{BlockDeviceSpec D} (total n : Z) (Hgeo : size_ok total n).
Implicit Types s : FsState D.
Let has (id : Z) : Prop := 0 <= id < total.
Let efs : EasyFileSystem := areas total n.

(** ** Reading entries *)

Lemma wp_read_dirent s h is_data' d ty es j e dirent Q :
  cache_ok has s h -> (size h < BLOCK_CACHE_SIZE)%nat -> inode_wf has h (view s) d ->
  file_rep is_data' (view s) d (mk_file ty (dir_data es)) -> valid_dir es -> es !! j = Some e -> length (name dirent) = 28%nat ->
  (forall s', cache_ok has s' h -> (forall id, has id -> view s' id = view s id) -> Q (dirent_of e) s') ->
  wp (read_dirent d 0 (Z.of_nat j) dirent) Q s.
Proof.
  intros Hok Hsize Hwf Hr Hv Hj Hname HQ. pose proof (fl_size _ _ _ _ Hr) as Hs. cbn [f_data] in Hs. rewrite length_dir_data in Hs by done.
  pose proof (lookup_lt_Some _ _ _ Hj) as Hlt. pose proof (iw_size _ _ _ _ Hwf) as Hsz.
  assert (Hlen : length (DirEntry_as_bytes dirent) = 32%nat) by (unfold DirEntry_as_bytes; by rewrite length_app, length_le_enc, Hname).
  destruct (proj1 (Forall_lookup _ _) Hv j e Hj) as [Hn Hi].
  unfold read_dirent. wp_step. unfold DIRENT_SZ. apply (wp_read_at has s h); [done|by apply inode_wf_ok|done|lia|rewrite Hlen; lia|].
  rewrite Hlen. replace (Z.max 0 _) with 32 by lia. intros s' Hok' Hv'. cbn beta iota. wp_step. apply wp_assert; [done|]. wp_step.
  rewrite (file_rep_bytes is_data' (view s) d _ _ _ Hr) by lia. cbn [f_data]. rewrite (drop_ge (DirEntry_as_bytes dirent)), app_nil_r by lia.
  replace (Z.to_nat (32 * Z.of_nat j)) with (32 * j)%nat by lia. change (Z.to_nat 32) with 32%nat.
  rewrite (dir_data_entry es j e) by done. destruct (dirent_of_props e Hn Hi) as (_ & -> & _). by apply HQ.
Qed.

Lemma name_dirent_of e : (length e.1 <= 28)%nat -> length (name (dirent_of e)) = 28%nat.
Proof. intros Hl. cbn. rewrite length_app, length_replicate. lia. Qed.

Lemma wp_find_loop nm is_data' d ty es m : forall s h c dirent Q,
  cache_ok has s h -> (size h < BLOCK_CACHE_SIZE)%nat -> inode_wf has h (view s) d ->
  file_rep is_data' (view s) d (mk_file ty (dir_data es)) -> valid_dir es -> (c + m = length es)%nat -> length (name dirent) = 28%nat ->
  (forall s', cache_ok has s' h -> (forall id, has id -> view s' id = view s id) -> Q (dir_lookup nm (drop c es)) s') ->
  wp (find_loop nm d 0 (seqZ (Z.of_nat c) (Z.of_nat m)) dirent) Q s.
Proof.
  induction m as [|m IH]; intros s h c dirent Q Hok Hsize Hwf Hr Hv Hc Hname HQ.
  - rewrite drop_ge in HQ by lia. by apply HQ.
  - rewrite seqZ_cons by lia. cbn [find_loop]. destruct (lookup_lt_is_Some_2 es c ltac:(lia)) as [e He].
    destruct (proj1 (Forall_lookup _ _) Hv c e He) as [Hn Hi].
    wp_step. apply (wp_read_dirent s h is_data' d ty es c e); [done..|]. intros s1 Hok1 Hv1.
    destruct (dirent_of_props e Hn Hi) as (_ & _ & Hnm & _ & _). wp_step. eapply wp_lift; [exact Hnm|].
    rewrite (drop_S es e c He) in HQ. cbn [dir_lookup] in HQ. case_bool_decide; [by apply HQ|].
    replace (Z.succ (Z.of_nat c)) with (Z.of_nat (S c)) by lia. replace (Z.pred (Z.of_nat (S m))) with (Z.of_nat m) by lia.
    assert (Hsame : forall id, id ∈ owned (view s) d -> view s1 id = view s id) by (intros id [? _]%Hwf; by apply Hv1).
    apply (IH s1 h); try done; [by eapply inode_wf_same|by eapply file_rep_same|lia|apply name_dirent_of; destruct Hn; lia|].
    intros s' Hok' Hv'. apply HQ; [done|]. intros id Hid. by rewrite Hv', Hv1.
Qed.

Lemma wp_find_inode_id nm s h is_data' d es Q :
  cache_ok has s h -> (size h < BLOCK_CACHE_SIZE)%nat -> inode_wf has h (view s) d ->
  file_rep is_data' (view s) d (mk_file 1 (dir_data es)) -> valid_dir es ->
  (forall s', cache_ok has s' h -> (forall id, has id -> view s' id = view s id) -> Q (dir_lookup nm es) s') ->
  wp (find_inode_id nm d 0) Q s.
Proof.
  intros Hok Hsize Hwf Hr Hv HQ. unfold find_inode_id. wp_step. apply wp_assert.
  { unfold is_dir. rewrite (fl_type _ _ _ _ Hr). done. }
  rewrite (fl_size _ _ _ _ Hr). cbn [f_data]. rewrite length_dir_data by done. unfold DIRENT_SZ.
  replace (Z.of_nat (32 * length es) / 32) with (Z.of_nat (length es)) by zdm.
  apply (wp_find_loop nm is_data' d 1 es (length es) s h 0); try done.
Qed.

(** ** The root directory in the map of files *)

Record root_dir (F : gmap Z file) (es : list (list Z * Z)) : Prop := {
  rd_root : F !! 0 = Some (mk_file 1 (dir_data es));
  rd_valid : valid_dir es;
  rd_files nm i : (nm, i) ∈ es -> is_Some (F !! i)
}.

Lemma root_is_inode : is_inode n 0.
Proof. destruct Hgeo. unfold is_inode. lia. Qed.

Lemma inode_pos i : is_inode n i -> get_disk_inode_pos efs i = (slot_block n i, slot_off i).
Proof.
  intros Hi. pose proof Hgeo as [Hn Ht]. pose proof (inode_slot_range _ _ _ Hgeo Hi) as [Hs _]. unfold get_disk_inode_pos.
  change (wrap32 (BLOCK_SZ / Z.of_nat (size_of DiskInode))) with 4. change (inode_area_start_block efs) with (1 + n).
  rewrite wrap32_small by (unfold slot_block in Hs; lia). done.
Qed.

Lemma inode_at_ino i j : is_inode n i -> inode_at (ino total n j) i = ino total n i.
Proof. intros Hi. unfold inode_at. change (ino_fs (ino total n j)) with efs. by rewrite inode_pos. Qed.

Lemma dir_lookup_elem nm es i : dir_lookup nm es = Some i -> (nm, i) ∈ es.
Proof.
  induction es as [|[m j] es IH]; [done|]. cbn [dir_lookup fst snd]. case_bool_decide as He.
  - intros [= <-]. rewrite He. by left.
  - intros Hi. right. by apply IH.
Qed.

Lemma root_view s F es h :
  fs_rep total n (view s) F -> root_dir F es -> held_ok n h ->
  is_inode n 0 /\ file_rep (is_data total n) (view s) (inode_of n (view s) 0) (mk_file 1 (dir_data es)) /\
  inode_wf has h (view s) (inode_of n (view s) 0).
Proof.
  intros HF Hroot Hh. destruct (fr_file _ _ _ _ HF 0 _ (rd_root _ _ Hroot)) as [Hi Hr]. split_and!; [done..|].
  by apply (file_rep_ok total n Hgeo h _ _ _ Hh Hr).
Qed.

Lemma wp_Inode_find s F es nm Q :
  cache_ok has s ∅ -> fs_rep total n (view s) F -> root_dir F es ->
  (forall s', cache_ok has s' ∅ -> fs_rep total n (view s') F -> Q (ino total n <$> dir_lookup nm es) s') ->
  wp (Inode_find (ino total n 0) nm) Q s.
Proof.
  intros Hok HF Hroot HQ. unfold Inode_find. apply (wp_read_inode total n Hgeo s F 0 _ _ _ Hok HF (rd_root _ _ Hroot)).
  intros s1 Hok1 HF1. destruct (held_slot total n Hgeo 0 Reading) as [Hh Hsize]; [apply root_is_inode|].
  destruct (root_view s1 F es _ HF1 Hroot Hh) as (Hi & Hr & Hwf).
  wp_step. apply (wp_find_inode_id nm s1 (hold_slot n 0 Reading) (is_data total n) _ es); try done.
  { rewrite Hsize. lia. }
  { apply Hroot. }
  intros s2 Hok2 Hv2. wp_step. split_and!; [done..|]. intros s3 Hok3 HF3.
  replace (inode_at (ino total n 0) <$> dir_lookup nm es) with (ino total n <$> dir_lookup nm es); [by apply HQ|].
  destruct (dir_lookup nm es) as [i|] eqn:Hl; [|done].
  change (Some (ino total n i) = Some (inode_at (ino total n 0) i)). rewrite inode_at_ino; [done|].
  apply dir_lookup_elem in Hl. destruct (rd_files _ _ Hroot nm i Hl) as [f Hf]. by apply HF in Hf as [].
Qed.

Lemma wp_Inode_ls s F es Q :
  cache_ok has s ∅ -> fs_rep total n (view s) F -> root_dir F es ->
  (forall s', cache_ok has s' ∅ -> fs_rep total n (view s') F -> Q (map fst es) s') ->
  wp (Inode_ls (ino total n 0)) Q s.
Proof.
  intros Hok HF Hroot HQ. unfold Inode_ls. apply (wp_read_inode total n Hgeo s F 0 _ _ _ Hok HF (rd_root _ _ Hroot)).
  intros s1 Hok1 HF1. destruct (held_slot total n Hgeo 0 Reading) as [Hh Hsize]; [apply root_is_inode|].
  destruct (root_view s1 F es _ HF1 Hroot Hh) as (Hi & Hr & Hwf). pose proof (rd_valid _ _ Hroot) as Hv.
  rewrite (fl_size _ _ _ _ Hr). cbn [f_data]. rewrite length_dir_data by done. unfold DIRENT_SZ.
  replace (Z.of_nat (32 * length es) / 32) with (Z.of_nat (length es)) by zdm. set (d := inode_of n (view s1) 0) in *.
  eapply wp_mono; [|apply (wp_foldM _ (fun dn v s' => cache_ok has s' (hold_slot n 0 Reading) /\
    (forall id, has id -> view s' id = view s1 id) /\ v = map fst (take (length dn) es)))].
  - intros v s2 (Hok2 & Hv2 & ->). rewrite length_seqZ, take_ge by lia. split_and!; [done..|]. by apply HQ.
  - done.
  - intros dn x rest v s2 Hseq (Hok2 & Hv2 & ->). assert (Hlen := f_equal length Hseq).
    rewrite length_seqZ, length_app in Hlen. cbn [length] in Hlen.
    assert (x = Z.of_nat (length dn)) as ->.
    { pose proof (lookup_seqZ_lt 0 (Z.of_nat (length es)) (length dn) ltac:(lia)) as Hlk. rewrite Hseq, list_lookup_middle in Hlk by done.
      injection Hlk. lia. }
    destruct (lookup_lt_is_Some_2 es (length dn) ltac:(lia)) as [e He]. destruct (proj1 (Forall_lookup _ _) Hv _ e He) as [Hn Hi32].
    assert (Hsame : forall id, id ∈ owned (view s1) d -> view s2 id = view s1 id) by (intros id [? _]%Hwf; by apply Hv2).
    wp_step. apply (wp_read_dirent s2 (hold_slot n 0 Reading) (is_data total n) d 1 es (length dn) e);
      [done|rewrite Hsize; lia|by eapply inode_wf_same|by eapply file_rep_same|done|done|done|].
    intros s3 Hok3 Hv3. destruct (dirent_of_props e Hn Hi32) as (_ & _ & Hnm & _ & _). wp_step. eapply wp_lift; [exact Hnm|]. wp_step.
    split_and!; [done|intros id Hid; by rewrite Hv3, Hv2|]. unfold vec_push. rewrite length_app. cbn [length].
    rewrite Nat.add_1_r, (take_S_r _ _ e He), map_app. done.
Qed.

(** ** Creating a file *)

Context (Hsmall : n * 4096 <= 2 ^ 32).

(** Inode [i] was marked, and nothing else was written. *)
Record inode_taken (i : Z) (k k' : disk) : Prop := {
  it_bits j : is_inode n j -> inode_bit total n k' j = inode_bit total n k j || (j =? i);
  it_frame id : has id -> ~ bitmap_block (inode_bitmap efs) id -> k' id = k id
}.

Lemma wp_alloc_inode s h Q :
  cache_ok has s h -> held_ok n h -> (size h < BLOCK_CACHE_SIZE)%nat ->
  (exists j, is_inode n j /\ inode_bit total n (view s) j = false) ->
  (forall i s', cache_ok has s' h -> is_inode n i -> inode_bit total n (view s) i = false ->
     (forall j, 0 <= j < i -> inode_bit total n (view s) j = true) -> inode_taken i (view s) (view s') -> Q i s') ->
  wp (alloc_inode efs) Q s.
Proof.
  intros Hok Hh Hsize (j & Hj & Hb) HQ. unfold alloc_inode. wp_step.
  apply (wp_Bitmap_alloc has _ s h); [done|by apply inode_bitmap_ok|done| |].
  - intros i s' Hi Hok' Hclear Hbelow Hbc. wp_step. apply wp_ret. wp_step. change (blocks (inode_bitmap efs)) with n in Hi.
    rewrite wrap32_small by lia. apply HQ; try done. split; [|apply Hbc].
    intros j' Hj'. unfold inode_bit. rewrite (bc_bits _ _ _ _ _ _ Hbc) by exact Hj'. destruct (j' =? i); [by rewrite orb_true_r|by rewrite orb_false_r].
  - intros s' _ Hall _. unfold inode_bit in Hb. rewrite Hall in Hb by exact Hj. done.
Qed.

Lemma initialize_valid d : valid_value d -> valid_value (DiskInode_initialize File d).
Proof.
  intros (Hl & _ & _ & Hp & Hpu). split_and!; cbn; rewrite ?length_map; try done.
  unfold inode_words. cbn [di_size direct indirect1 indirect2 DiskInode_initialize]. constructor; [done|].
  apply Forall_app. split; [|by repeat constructor]. apply Forall_forall. intros x (y & -> & _)%list_elem_of_fmap. done.
Qed.

(** The new inode is marked and will be written. *)
Lemma file_step_create k F i d k' :
  fs_rep total n k F -> F !! i = None -> valid_value d -> inode_taken i k k' ->
  file_step total n k F i (DiskInode_initialize File d) (mk_file 0 []) k'.
Proof.
  intros HF Hi Hv Hit. pose proof Hgeo as [Hn Ht]. pose proof (data_start_pos total n Hgeo) as Hds.
  assert (Hlow : forall id, has id -> id = 0 \/ 1 + n <= id -> k' id = k id).
  { intros id Hid Hor. apply (it_frame _ _ _ Hit); [done|]. unfold bitmap_block. cbn. lia. }
  destruct (empty_inode_wf (is_data total n) ∅ k' (DiskInode_initialize File d)) as [Hown Hwf]; [by apply initialize_valid|done|].
  assert (Hb : blocks_of n k F i = []) by (unfold blocks_of; by rewrite Hi).
  split; rewrite ?Hown, ?Hb.
  - split; [done..|]. intros p Hp. exfalso. change (data_blocks (DiskInode_initialize File d)) with 0 in Hp. lia.
  - apply Hlow; [unfold has; lia|by left].
  - apply Hit.
  - intros id Hid. apply Hlow; [unfold has|]; lia.
  - by intros id []%not_elem_of_nil.
  - intros id Hd. assert (data_bit total n k' id = data_bit total n k id) as ->.
    { apply bitmap_bit_same; [|by apply data_bitmap_bits]. unfold bitmap_block. cbn. unfold data_start in Hds.
      intros b Hbb. apply Hlow; [unfold has|]; lia. }
    rewrite elem_of_nil. pose proof (not_elem_of_nil id). tauto.
  - by intros id []%not_elem_of_nil.
  - intros id [Hd Hd'] _ _. apply Hlow; [unfold has|]; lia.
Qed.

Lemma wp_init_inode s s0 F i Q :
  fs_rep total n (view s) F -> cache_ok has s0 ∅ -> F !! i = None -> is_inode n i -> inode_taken i (view s) (view s0) ->
  (forall s', cache_ok has s' ∅ -> fs_rep total n (view s') (<[i := mk_file 0 []]> F) -> Q tt s') ->
  wp (modify_cache (slot_block n i) 0 (slot_off i) (fun d : DiskInode => ret (tt, DiskInode_initialize File d))) Q s0.
Proof.
  intros HF Hok Hi Hino Hit HQ. destruct (slot_not_data total n Hgeo i Hino) as [_ Hhas].
  destruct (view_ok has s0 _ _ Hok Hhas) as [Hlen Hu8].
  apply (wp_modify_cache has s0 ∅); [done|apply lookup_empty|apply no_holds|done|apply slot_offset_ok|].
  intros s1 Hok1 Hv1. wp_step. change (from_bytes _) with (inode_of n (view s0) i).
  assert (Hval : valid_value (inode_of n (view s0) i)).
  { pose proof (slot_offset i). apply from_bytes_valid; unfold sub_bytes; [by apply Forall_take, Forall_drop|].
    rewrite length_take, length_drop, Hlen. unfold BLOCK_SZ. cbn [size_of DiskInode_layout]. lia. }
  split_and!; [done|by apply initialize_valid|]. cbn [fst snd]. intros s3 Hok3 Hv3. apply HQ; [done|].
  eapply fs_rep_update; [exact HF|]. eapply (slot_written total n Hgeo _ _ _ _ _ (view s0));
    [done|done|by apply file_step_create|exact Hlen| |].
  - rewrite Hv3, decide_True by done. by rewrite Hv1.
  - intros id Hid Hne. by rewrite Hv3, decide_False, Hv1.
Qed.

(** The closure that appends an entry to the directory. *)
Lemma wp_add_entry s F es nm i Q :
  cache_ok has s ∅ -> fs_rep total n (view s) F -> root_dir F es -> valid_name nm -> is_u32 i ->
  let root' := mk_file 1 (dir_data (es ++ [(nm, i)])) in
  Z.of_nat (length es) < 264640 -> used_blocks (<[0 := root']> F) <= capacity total n ->
  (forall s', cache_ok has s' ∅ -> fs_rep total n (view s') (<[0 := root']> F) -> Q tt s') ->
  wp (modify_disk_inode (ino total n 0) (fun root =>
      let file_count := di_size root / DIRENT_SZ in
      let new_size := (file_count + 1) * DIRENT_SZ in
      let* root := Inode_increase_size (ino total n 0) (wrap32 new_size) root in
      let* dirent := lift (DirEntry_new nm i) in
      let* _ := write_at root (file_count * DIRENT_SZ) (DirEntry_as_bytes dirent) 0 in
      ret (tt, root))) Q s.
Proof.
  intros Hok HF Hroot Hnm Hi root' Hmax Hcap HQ. apply (wp_modify_inode total n Hgeo s F 0 _ _ _ Hok HF (rd_root _ _ Hroot)).
  intros s1 Hok1 HF1. destruct (held_slot total n Hgeo 0 Writing root_is_inode) as [Hh Hsize].
  assert (Hlim : (S (size (hold_slot n 0 Writing)) < BLOCK_CACHE_SIZE)%nat) by (rewrite Hsize; lia).
  destruct (root_view s1 F es _ HF1 Hroot Hh) as (_ & Hr & Hwf). pose proof (rd_valid _ _ Hroot) as Hv.
  pose proof (length_dir_data es Hv) as Hld. destruct (dirent_of_props (nm, i) Hnm Hi) as (Hlen & _ & _ & Hnew & Hu8).
  rewrite (fl_size _ _ _ _ Hr). cbn [f_data]. rewrite Hld. unfold DIRENT_SZ. cbn zeta.
  replace (Z.of_nat (32 * length es) / 32) with (Z.of_nat (length es)) by zdm. rewrite wrap32_small by lia.
  replace ((Z.of_nat (length es) + 1) * 32) with (Z.of_nat (length (dir_data es)) + Z.of_nat (length (DirEntry_as_bytes (dirent_of (nm, i))))) by lia.
  assert (Hdata : write_data (dir_data es) (Z.of_nat (length (dir_data es))) (DirEntry_as_bytes (dirent_of (nm, i))) = dir_data (es ++ [(nm, i)])).
  { rewrite write_data_append, dir_data_app. f_equal. unfold dir_data. cbn. by rewrite app_nil_r. }
  wp_step. apply (wp_Inode_increase_size total n Hgeo s1 (hold_slot n 0 Writing)); [done..|apply Hr| |lia| |].
  { intros id Hid. eapply fr_owned_data; [exact HF1| |exact Hid]. rewrite (rd_root _ _ Hroot). eauto. }
  { rewrite (free_count _ _ Hgeo _ _ HF1), (fl_size _ _ _ _ Hr). rewrite (used_blocks_update F 0 _ _ (rd_root _ _ Hroot)) in Hcap.
    unfold root', file_blocks in Hcap. cbn [f_data] in Hcap |- *. rewrite <-Hdata, length_write_data in Hcap.
    replace (Z.of_nat (Nat.max _ _)) with (Z.of_nat (length (dir_data es)) + Z.of_nat (length (DirEntry_as_bytes (dirent_of (nm, i))))) in Hcap by lia.
    lia. }
  intros nb d' s2 Hok2 He. pose proof (ex_size _ _ _ _ _ _ _ _ He) as Hsize'. rewrite (fl_size _ _ _ _ Hr) in Hsize'. cbn [f_data] in Hsize'.
  wp_step. eapply wp_lift; [exact Hnew|]. wp_step.
  assert (Hwf' : inode_wf has (hold_slot n 0 Writing) (view s2) d')
    by (eapply inode_wf_held; [apply (ex_wf _ _ _ _ _ _ _ _ He)|intros; by apply (is_data_has total n Hgeo)]).
  replace (Z.of_nat (length es) * 32) with (Z.of_nat (length (dir_data es))) by lia.
  apply (wp_write_at has s2 (hold_slot n 0 Writing)); [done|by apply inode_wf_ok|lia|done|by intros He0; rewrite He0 in Hlen|lia|lia|].
  rewrite Z.min_l by lia. rewrite Z.add_simpl_l, Nat2Z.id, take_ge by done. intros s3 Hok3 Hw. wp_step. split; [done|].
  exists root'. split; [|done]. cbn [snd]. unfold root'. rewrite <-Hdata.
  apply (file_step_write total n Hgeo (view s1) F 0 _ _ _ nb (view s2) d' (view s3) HF1 (rd_root _ _ Hroot)); [lia|done|done].
Qed.

(** A closure that leaves the inode as it was. *)
Lemma file_step_same k F i f k' :
  fs_rep total n k F -> F !! i = Some f -> (forall id, has id -> k' id = k id) -> file_step total n k F i (inode_of n k i) f k'.
Proof.
  intros HF Hf Hk. destruct (fr_file _ _ _ _ HF i f Hf) as [Hi Hr]. assert (HFi : is_Some (F !! i)) by eauto.
  assert (Hheld : held_ok n ∅) by (intros ? []%lookup_empty_is_Some).
  assert (Hd : forall id, is_data total n id -> k' id = k id) by (intros id Hid; by apply Hk, (is_data_has total n Hgeo ∅)).
  assert (Hold := fun id => fr_owned_data _ _ _ _ i id HF HFi).
  assert (Hown : owned k' (inode_of n k i) = owned k (inode_of n k i)) by (apply owned_same; intros id [? _]%Hold; by apply Hd).
  assert (Hb : blocks_of n k F i = owned k (inode_of n k i)) by (unfold blocks_of; rewrite Hf; reflexivity).
  apply (file_step_intro total n Hgeo); rewrite ?Hown, ?Hb; [exact HF|exact HFi|exact Hi|..].
  - eapply file_rep_same; [done|]. intros id [? _]%Hold. by apply Hd.
  - intros id ? _ _. by apply Hk.
  - intros id Hid. by left.
  - intros id Hid. rewrite (data_bit_view total n Hgeo k) by done. pose proof (Hold id). destruct (decide (id ∈ owned k (inode_of n k i))); tauto.
  - intros id Hin Hnot. by destruct (Hnot Hin).
  - intros id Hid _ _. by apply Hd.
Qed.

Lemma root_dir_create F es nm i :
  root_dir F es -> valid_name nm -> is_u32 i -> F !! i = None ->
  root_dir (<[0 := mk_file 1 (dir_data (es ++ [(nm, i)]))]> (<[i := mk_file 0 []]> F)) (es ++ [(nm, i)]).
Proof.
  intros Hroot Hnm Hi HFi. split; [by rewrite lookup_insert_eq|apply Forall_app; split; [apply Hroot|by constructor]|].
  intros m j. rewrite elem_of_app, list_elem_of_singleton. rewrite !lookup_insert_is_Some.
  intros [Hin|[= -> ->]]; [destruct (decide (0 = j)); [by left|right]|].
  - split; [done|]. destruct (decide (i = j)); [by left|right]. split; [done|]. by apply (rd_files _ _ Hroot m).
  - destruct (decide (0 = i)); [by left|right]. split; [done|by left].
Qed.

Lemma wp_Inode_create s F es nm Q :
  cache_ok has s ∅ -> fs_rep total n (view s) F -> root_dir F es ->
  (is_Some (dir_lookup nm es) -> forall s', cache_ok has s' ∅ -> fs_rep total n (view s') F -> Q None s') ->
  (dir_lookup nm es = None ->
     valid_name nm /\ Z.of_nat (length es) < 264640 /\ (exists j, is_inode n j /\ F !! j = None) /\
     used_blocks F - file_blocks (mk_file 1 (dir_data es)) + file_blocks (mk_file 1 (dir_data (es ++ [(nm, 0)]))) <= capacity total n) ->
  (forall i s', is_inode n i -> F !! i = None -> (forall j, 0 <= j < i -> is_Some (F !! j)) -> dir_lookup nm es = None ->
     cache_ok has s' ∅ ->
     fs_rep total n (view s') (<[0 := mk_file 1 (dir_data (es ++ [(nm, i)]))]> (<[i := mk_file 0 []]> F)) ->
     (forall id, has id -> device_block s' id = Ok (view s' id)) -> Q (Some (ino total n i)) s') ->
  wp (Inode_create (ino total n 0) nm) Q s.
Proof.
  intros Hok HF Hroot HQsome Hpre HQ. unfold Inode_create. wp_step.
  apply (wp_modify_inode total n Hgeo s F 0 _ _ _ Hok HF (rd_root _ _ Hroot)). intros s1 Hok1 HF1.
  destruct (held_slot total n Hgeo 0 Writing root_is_inode) as [Hh Hsize]. destruct (root_view s1 F es _ HF1 Hroot Hh) as (_ & Hr & Hwf).
  wp_step. apply wp_assert; [unfold is_dir; by rewrite (fl_type _ _ _ _ Hr)|]. wp_step.
  apply (wp_find_inode_id nm s1 (hold_slot n 0 Writing) (is_data total n) _ es);
    [done|rewrite Hsize; lia|done|done|apply Hroot|].
  intros s2 Hok2 Hv2. wp_step. split; [done|]. exists (mk_file 1 (dir_data es)). split; [apply file_step_same; [done|apply Hroot|done]|].
  cbn [fst snd]. rewrite (insert_id F) by apply Hroot. intros s3 Hok3 HF3.
  destruct (dir_lookup nm es) as [i0|] eqn:Hl; cbn [is_some]; [apply wp_ret; eauto|].
  destruct (Hpre eq_refl) as (Hnm & Hmax & (j & Hj & HFj) & Hcap).
  wp_step. change (ino_fs (ino total n 0)) with efs. apply (wp_alloc_inode s3 ∅); [done|by intros ? []%lookup_empty_is_Some|apply no_holds| |].
  { exists j. split; [done|]. rewrite (fr_inode _ _ _ _ HF3) by done. rewrite HFj. by apply bool_decide_eq_false_2; intros []. }
  intros i s4 Hok4 Hi Hclear Hbelow Hit. rewrite (fr_inode _ _ _ _ HF3) in Hclear by done.
  apply bool_decide_eq_false_1, eq_None_not_Some in Hclear. rewrite inode_pos by done.
  assert (Hi32 : is_u32 i) by (unfold is_inode in Hi; unfold is_u32; lia).
  wp_step. change (ino_device (ino total n 0)) with 0%nat. apply (wp_init_inode s3 s4 F i); [done..|]. intros s5 Hok5 HF5.
  wp_step. assert (Hne : i <> 0) by (intros ->; by rewrite (rd_root _ _ Hroot) in Hclear).
  apply (wp_add_entry s5 (<[i := mk_file 0 []]> F) es nm i); [done|done| |done|done|done| |].
  { split; [by rewrite lookup_insert_ne, (rd_root _ _ Hroot)|apply Hroot|]. intros m j' Hin. rewrite lookup_insert_is_Some.
    destruct (decide (i = j')); [by left|right]. split; [done|]. by apply (rd_files _ _ Hroot m). }
  { rewrite (used_blocks_update _ 0 (mk_file 1 (dir_data es))) by (by rewrite lookup_insert_ne, (rd_root _ _ Hroot)).
    rewrite used_blocks_insert by done. change (file_blocks (mk_file 0 [])) with 0.
    rewrite (dir_blocks es nm i 0 1) by (done || apply Hroot). lia. }
  intros s6 Hok6 HF6. wp_step. apply (wp_sync_all has s6); [done|]. intros s7 Hok7 Hv7 Hdev. wp_step. rewrite inode_at_ino by done.
  apply HQ; try done; [|by eapply fs_rep_view|intros id Hid; by rewrite Hdev, Hv7].
  intros j' Hj'. specialize (Hbelow j' Hj'). unfold is_inode in Hi. rewrite (fr_inode _ _ _ _ HF3) in Hbelow by (unfold is_inode; lia).
  by apply bool_decide_eq_true_1 in Hbelow.
Qed.

End Root.

Lemma dir_lookup_snoc nm es i : dir_lookup nm es = None -> dir_lookup nm (es ++ [(nm, i)]) = Some i.
Proof.
  induction es as [|[m j] es IH]; cbn [dir_lookup app fst snd]; [by rewrite bool_decide_eq_true_2|].
  case_bool_decide; [done|exact IH].
Qed.

(** C21: Creating, finding and listing agree.  If the root directory has the name, [create]
    returns [None] and the files stay as they are.  Otherwise it returns a new empty file
    at the least unused inode number, the directory has one more entry, and no other file
    changes.  Either way, [find] afterwards returns the file of that name, and [ls] the
    names in the order of their creation. *)
Theorem Inode_create_correct {D : Type} `{BlockDeviceSpec D} total n (s : FsState D) F es nm :
  size_ok total n -> n * 4096 <= 2 ^ 32 -> cache_ok (fun id => 0 <= id < total) s ∅ ->
  fs_rep total n (view s) F -> root_dir F es -> valid_name nm -> Z.of_nat (length es) < 264640 ->
  (exists j, is_inode n j /\ F !! j = None) ->
  used_blocks F - file_blocks (mk_file 1 (dir_data es)) + file_blocks (mk_file 1 (dir_data (es ++ [(nm, 0)]))) <= capacity total n ->
  wp (let* r := Inode_create (ino total n 0) nm in
      let* found := Inode_find (ino total n 0) nm in
      let* names := Inode_ls (ino total n 0) in
      ret (r, found, names)) (fun res s' => cache_ok (fun id => 0 <= id < total) s' ∅ /\
    match dir_lookup nm es with
    | Some i => res = (None, Some (ino total n i), map fst es) /\ fs_rep total n (view s') F
    | None => exists i, res = (Some (ino total n i), Some (ino total n i), map fst es ++ [nm]) /\
        F !! i = None /\ (forall j, 0 <= j < i -> is_Some (F !! j)) /\
        let F' := <[0 := mk_file 1 (dir_data (es ++ [(nm, i)]))]> (<[i := mk_file 0 []]> F) in
        fs_rep total n (view s') F' /\ root_dir F' (es ++ [(nm, i)])
    end) s.
Proof.
  intros Hgeo Hsmall Hok HF Hroot Hnm Hmax Hj Hcap. wp_step. apply (wp_Inode_create total n Hgeo Hsmall s F es); [done..| |done|].
  - intros [i Hl] s1 Hok1 HF1. rewrite Hl. wp_step. apply (wp_Inode_find total n Hgeo s1 F es); [done..|]. intros s2 Hok2 HF2.
    wp_step. apply (wp_Inode_ls total n Hgeo s2 F es); [done..|]. intros s3 Hok3 HF3. wp_step. by rewrite Hl.
  - intros i s1 Hi HFi Hbelow Hl Hok1 HF1 _. rewrite Hl.
    assert (Hi32 : is_u32 i) by (unfold is_inode in Hi; unfold is_u32; lia).
    pose proof (root_dir_create F es nm i Hroot Hnm Hi32 HFi) as Hroot1.
    wp_step. apply (wp_Inode_find total n Hgeo s1 _ _ nm _ Hok1 HF1 Hroot1). intros s2 Hok2 HF2.
    wp_step. apply (wp_Inode_ls total n Hgeo s2 _ _ _ Hok2 HF2 Hroot1). intros s3 Hok3 HF3. wp_step. split; [done|].
    exists i. rewrite dir_lookup_snoc, map_app by done. split_and!; done.
Qed.

Lemma Inode_create_correct_witness :
  wp (let* _ := efs_create 0 1100 1 in
      let* r := Inode_create (ino 1100 1 0) [97] in
      let* found := Inode_find (ino 1100 1 0) [97] in
      let* names := Inode_ls (ino 1100 1 0) in
      ret (r, found, names)) (fun res _ => snd res = [[97]] /\ is_Some (snd (fst res))) (blank_image 1100).
Proof.
  assert (Hs : size_ok 1100 1) by (unfold size_ok; lia). wp_step.
  apply (wp_efs_create (fun id => 0 <= id < 1100) (blank_image 1100)); [apply blank_image_ok; lia|done|done|].
  intros s1 Hok1 Hf _. eapply wp_mono; [|refine (Inode_create_correct 1100 1 s1 {[0 := mk_file 1 []]} [] [97]
    Hs _ Hok1 (formatted_rep _ _ _ Hs Hf) _ _ _ _ _)].
  - intros res s2 (_ & i & -> & _). cbn. eauto.
  - lia.
  - split; [apply lookup_singleton_eq|constructor|by intros nm i []%not_elem_of_nil].
  - split_and!; [|cbn; lia|repeat (constructor; [done|]); constructor|by eexists].
    apply not_elem_of_cons. split; [lia|apply not_elem_of_nil].
  - cbn. lia.
  - exists 1. split; [unfold is_inode; lia|]. by rewrite lookup_singleton_ne.
  - by vm_compute.
Defined.
