(* ===== verification/PackSpec.v ===== *)
(** * Packing applications into an image

    [easy_fs_pack] puts each application into the root directory of a new file system; the
    files can then be found by name and read back. *)

From S2P Require Import Prelude Utf8 Codec BlockCache BlockCacheSpec BlockFile DiskSpec.
From S2P Require Import Bitmap DiskLayout Efs EfsSpec Vfs InodeSpec InodeBlocks GrowSpec FsSpec DirSpec VfsSpec RootSpec.

(** ** The image with some applications *)

(** The entries of the applications [l] and the files: file [j] has inode [j + 1]. *)
Fixpoint entries_from (j : Z) (l : list (list Z * list Z)) : list (list Z * Z) :=
  match l with
  | [] => []
  | a :: l' => (a.1, j) :: entries_from (j + 1) l'
  end.

Definition app_blocks (l : list (list Z * list Z)) : Z :=
  total_blocks (32 * Z.of_nat (length l)) + foldr (fun a acc => total_blocks (Z.of_nat (length a.2)) + acc) 0 l.

Record packed (l : list (list Z * list Z)) (F : gmap Z file) : Prop := {
  pk_root : root_dir F (entries_from 1 l);
  pk_files j a : l !! j = Some a -> F !! (Z.of_nat j + 1) = Some (mk_file 0 a.2);
  pk_none i : Z.of_nat (length l) < i -> F !! i = None;
  pk_used : used_blocks F = app_blocks l
}.

Lemma entries_from_app l l' : forall j, entries_from j (l ++ l') = entries_from j l ++ entries_from (j + Z.of_nat (length l)) l'.
Proof.
  induction l as [|a l IH]; intros j; cbn [entries_from app length]; [by rewrite Z.add_0_r|].
  rewrite IH. do 3 f_equal. lia.
Qed.

Lemma length_entries l : forall j, length (entries_from j l) = length l.
Proof. induction l as [|a l IH]; intros j; cbn; [done|]. by rewrite IH. Qed.

Lemma map_fst_entries l : forall j, map fst (entries_from j l) = map fst l.
Proof. induction l as [|a l IH]; intros j; cbn; [done|]. by rewrite IH. Qed.

Lemma dir_lookup_None nm l : forall j, (nm ∉ map fst l) -> dir_lookup nm (entries_from j l) = None.
Proof.
  induction l as [|a l IH]; intros j Hn; cbn [entries_from dir_lookup map fst snd] in *; [done|].
  apply not_elem_of_cons in Hn as [Hne Hn]. rewrite bool_decide_eq_false_2 by congruence. by apply IH.
Qed.

Lemma dir_lookup_Some l a m : forall j,
  NoDup (map fst l) -> l !! m = Some a -> dir_lookup a.1 (entries_from j l) = Some (j + Z.of_nat m).
Proof.
  revert m. induction l as [|b l IH]; intros m j Hnd Hm; [done|]. cbn [entries_from dir_lookup map fst snd] in *.
  apply NoDup_cons in Hnd as [Hb Hnd]. destruct m as [|m]; cbn in Hm.
  - injection Hm as ->. rewrite bool_decide_eq_true_2 by done. f_equal. lia.
  - rewrite bool_decide_eq_false_2.
    + rewrite (IH m) by done. f_equal. lia.
    + intros He. apply Hb. rewrite He. apply list_elem_of_fmap. exists a. split; [done|]. by eapply list_elem_of_lookup_2.
Qed.

Definition valid_app (a : list Z * list Z) : Prop :=
  valid_name a.1 /\ Forall is_u8 a.2 /\ a.2 <> [] /\ Z.of_nat (length a.2) <= 16540 * 512.

Lemma total_blocks_nonneg sz : 0 <= total_blocks sz.
Proof. unfold total_blocks, wrap32. apply Z.mod_pos_bound. lia. Qed.

Lemma total_blocks_mono a b : 0 <= a <= b -> b <= 16540 * 512 -> total_blocks a <= total_blocks b.
Proof. intros Ha Hb. pose proof (needed_blocks a b Ha Hb). lia. Qed.

Lemma app_blocks_prefix l l' : Z.of_nat (length (l ++ l')) < 264640 -> app_blocks l <= app_blocks (l ++ l').
Proof.
  intros Hl. unfold app_blocks. rewrite length_app in *. apply Z.add_le_mono; [apply total_blocks_mono; lia|].
  rewrite foldr_app. assert (Hg : forall b, 0 <= b -> foldr (fun a acc => total_blocks (Z.of_nat (length a.2)) + acc) 0 l <=
    foldr (fun a acc => total_blocks (Z.of_nat (length (a : list Z * list Z).2)) + acc) b l).
  { clear Hl. intros b Hb. induction l as [|a l IH]; cbn; [done|]. lia. }
  apply Hg. clear. induction l' as [|a l IH]; cbn; [done|]. pose proof (total_blocks_nonneg (Z.of_nat (length a.2))). lia.
Qed.

Lemma app_blocks_snoc l a :
  app_blocks (l ++ [a]) = app_blocks l - total_blocks (32 * Z.of_nat (length l)) + total_blocks (32 * (Z.of_nat (length l) + 1)) +
    total_blocks (Z.of_nat (length a.2)).
Proof.
  unfold app_blocks. rewrite length_app, foldr_app. cbn [length foldr].
  replace (32 * Z.of_nat (length l + 1)) with (32 * (Z.of_nat (length l) + 1)) by lia.
  assert (Hg : forall b, foldr (fun a acc => total_blocks (Z.of_nat (length a.2)) + acc) b l =
    b + foldr (fun a acc => total_blocks (Z.of_nat (length (a : list Z * list Z).2)) + acc) 0 l).
  { intros b. induction l as [|c l IH]; cbn; [lia|]. rewrite IH. lia. }
  rewrite Hg. lia.
Qed.

Lemma write_data_empty buf : write_data [] 0 buf = buf.
Proof. apply (write_data_append []). Qed.

Section Pack.
Context {D : Type} `{BlockDeviceSpec D} (total : Z) (Hgeo : size_ok total 1).
Implicit Types s : FsState D.
Let has (id : Z) : Prop := 0 <= id < total.

Lemma packed_empty : packed [] {[0 := mk_file 1 []]}.
Proof.
  split.
  - split; [by rewrite lookup_singleton_eq|constructor|by intros nm i []%not_elem_of_nil].
  - done.
  - intros i Hi. apply lookup_singleton_ne. cbn in Hi. lia.
  - done.
Qed.

(** The next application gets the next inode. *)
Lemma packed_next l F i :
  packed l F -> is_inode 1 i -> F !! i = None -> (forall j, 0 <= j < i -> is_Some (F !! j)) -> i = Z.of_nat (length l) + 1.
Proof.
  intros [Hroot Hfiles Hnone _] Hi HF Hbelow. destruct (decide (i <= Z.of_nat (length l))) as [Hle|Hgt].
  - exfalso. unfold is_inode in Hi. destruct (decide (i = 0)) as [->|Hne]; [by rewrite (rd_root _ _ Hroot) in HF|].
    destruct (lookup_lt_is_Some_2 l (Z.to_nat (i - 1)) ltac:(lia)) as [a Ha]. apply Hfiles in Ha.
    replace (Z.of_nat (Z.to_nat (i - 1)) + 1) with i in Ha by lia. congruence.
  - destruct (decide (i = Z.of_nat (length l) + 1)) as [|Hne]; [done|].
    destruct (Hbelow (Z.of_nat (length l) + 1)) as [f Hf]; [lia|]. rewrite Hnone in Hf by lia. done.
Qed.

Lemma packed_snoc l F a :
  packed l F -> valid_app a -> Z.of_nat (length l) < 4095 ->
  let i := Z.of_nat (length l) + 1 in
  packed (l ++ [a])
    (<[i := mk_file 0 a.2]> (<[0 := mk_file 1 (dir_data (entries_from 1 l ++ [(a.1, i)]))]> (<[i := mk_file 0 []]> F))).
Proof.
  intros Hp (Hnm & Hu8 & _ & _) Hlen i. pose proof (pk_root _ _ Hp) as Hroot. assert (HFi : F !! i = None) by (apply Hp; lia).
  assert (Hi : is_u32 i) by (unfold is_u32; lia). pose proof (rd_valid _ _ Hroot) as Hvd.
  assert (Hes : entries_from 1 (l ++ [a]) = entries_from 1 l ++ [(a.1, i)]).
  { rewrite entries_from_app. cbn [entries_from]. by rewrite (Z.add_comm 1). }
  assert (Hne : i <> 0) by lia. pose proof (root_dir_create F _ a.1 i Hroot Hnm Hi HFi) as Hrd. split.
  - rewrite Hes. destruct Hrd as [Hr Hv Hf]. split; [by rewrite lookup_insert_ne|done|].
    intros nm j Hj. rewrite lookup_insert_is_Some. destruct (decide (i = j)); [by left|right]. split; [done|]. by apply (Hf nm).
  - intros j b Hj. apply lookup_app_Some in Hj as [Hj|[Hle Hj]].
    + pose proof (lookup_lt_Some _ _ _ Hj). rewrite !lookup_insert_ne by lia. by apply Hp.
    + apply list_lookup_singleton_Some in Hj as [Hj <-]. replace (Z.of_nat j + 1) with i by lia. by rewrite lookup_insert_eq.
  - intros j Hj. rewrite length_app in Hj. cbn in Hj. rewrite !lookup_insert_ne by lia. apply Hp. lia.
  - rewrite (used_blocks_update _ i (mk_file 0 [])) by (rewrite lookup_insert_ne by done; by rewrite lookup_insert_eq).
    rewrite (used_blocks_update _ 0 (mk_file 1 (dir_data (entries_from 1 l)))) by (rewrite lookup_insert_ne by done; apply Hroot).
    rewrite used_blocks_insert, (pk_used _ _ Hp), app_blocks_snoc by done. unfold file_blocks. cbn [f_data].
    change (total_blocks (Z.of_nat (length []))) with 0.
    assert (Hvd' : valid_dir (entries_from 1 l ++ [(a.1, i)])) by (apply Forall_app; split; [done|by constructor]).
    rewrite !length_dir_data, length_app, length_entries by done. cbn [length].
    replace (Z.of_nat (32 * length l)) with (32 * Z.of_nat (length l)) by lia.
    replace (Z.of_nat (32 * (length l + 1))) with (32 * (Z.of_nat (length l) + 1)) by lia. lia.
Qed.

(** One round of the packer. *)
Lemma wp_pack_one s F l a host Q :
  cache_ok has s ∅ -> fs_rep total 1 (view s) F -> packed l F -> valid_app a -> host a.1 = Some a.2 -> (a.1 ∉ map fst l) ->
  Z.of_nat (length l) < 4095 -> app_blocks (l ++ [a]) <= capacity total 1 ->
  (forall s' F', cache_ok has s' ∅ -> fs_rep total 1 (view s') F' -> packed (l ++ [a]) F' -> Q tt s') ->
  wp (pack_one (ino total 1 0) host a.1) Q s.
Proof.
  intros Hok HF Hp Ha Hhost Hnew Hlen Hcap HQ. pose proof (pk_root _ _ Hp) as Hroot. pose proof Ha as (Hnm & Hu8 & Hne & Hmax).
  pose proof (packed_snoc l F a Hp Ha Hlen) as Hp'. cbn zeta in Hp'. set (i := Z.of_nat (length l) + 1) in *.
  assert (Hu32 : is_u32 i /\ is_u32 0) by (unfold is_u32; lia). destruct Hu32 as [Hi32 H032].
  pose proof (pk_used _ _ Hp') as Hused.
  rewrite (used_blocks_update _ i (mk_file 0 [])) in Hused by (rewrite lookup_insert_ne by lia; by rewrite lookup_insert_eq).
  change (file_blocks (mk_file 0 [])) with 0 in Hused. assert (Hdata := total_blocks_nonneg (Z.of_nat (length a.2))).
  unfold pack_one. rewrite Hhost. wp_step. apply wp_ret. wp_step.
  apply (wp_Inode_create total 1 Hgeo ltac:(lia) s F (entries_from 1 l)); [done|done|done| | |].
  { intros Hs. rewrite dir_lookup_None in Hs by done. by destruct Hs. }
  { intros _. rewrite length_entries. split_and!; [done|lia| |].
    - exists i. split; [unfold is_inode; lia|]. apply Hp. lia.
    - rewrite (dir_blocks _ a.1 0 i) by (done || apply Hroot).
      rewrite (used_blocks_update _ 0 (mk_file 1 (dir_data (entries_from 1 l)))) in Hused by (rewrite lookup_insert_ne by lia; apply Hroot).
      rewrite used_blocks_insert in Hused by (apply Hp; lia). unfold file_blocks in Hused at 4. cbn [f_data] in Hused.
      change (file_blocks (mk_file 0 [])) with 0 in Hused. lia. }
  intros i' s1 Hi' HFi' Hbelow _ Hok1 HF1 _. assert (i' = i) as -> by (by apply (packed_next l F)).
  wp_step. apply wp_ret. wp_step.
  apply (wp_Inode_write_at total 1 Hgeo s1 _ i (mk_file 0 []) 0 a.2 _ Hok1 HF1); [|done|done|lia|lia| |].
  { rewrite lookup_insert_ne by lia. by rewrite lookup_insert_eq. }
  { cbn [f_type f_data]. rewrite write_data_empty. rewrite (pk_used _ _ Hp'). done. }
  cbn [f_type f_data]. rewrite write_data_empty. intros s2 Hok2 HF2 _. wp_step. by eapply HQ.
Qed.

End Pack.

(** ** The theorems *)

Lemma root_inode_ino total n : size_ok total n -> root_inode (areas total n) = ino total n 0.
Proof.
  intros Hs. unfold root_inode. rewrite (inode_pos total n Hs) by (by apply (root_is_inode total)). done.
Qed.

Lemma wp_match {S A} (m : M S A) (Q : A -> S -> Prop) s :
  wp m Q s -> match m s with Ok (a, s') => Q a s' | Panic _ => False end.
Proof. done. Qed.

(** What the packer leaves in the state: the applications, ready to be opened. *)
Definition read_app (app : list Z) (len : nat) : M (FsState Fuse.BlockFile) (Z * list Z) :=
  let* efs := efs_open 0 in
  let* r := Inode_find (root_inode efs) app in
  let* inode := unwrap r in
  Inode_read_at inode 0 (replicate len 0).

Lemma open_image_ok img :
  Forall is_u8 img -> cache_ok (fun id => 0 <= id < Fuse.BLOCK_NUM) (mk_fs [Fuse.open_image img] cache_manager_new) ∅.
Proof.
  intros Hu. assert (Hlen : length (Fuse.File_set_len img (Fuse.BLOCK_NUM *% Fuse.BLOCK_SZ)) = Z.to_nat (Fuse.BLOCK_NUM * 512)).
  { unfold Fuse.File_set_len. rewrite length_app, length_take, length_replicate.
    replace (Fuse.BLOCK_NUM *% Fuse.BLOCK_SZ) with (Fuse.BLOCK_NUM * 512) by (unfold Fuse.BLOCK_NUM, Fuse.BLOCK_SZ; by rewrite wrap64_small by lia).
    unfold Fuse.BLOCK_NUM. lia. }
  split.
  - exists (Fuse.open_image img). split; [done|]. intros id Hid. unfold Fuse.BLOCK_NUM in Hid. split; [lia|].
    unfold Fuse.open_image. cbn [Fuse.file]. rewrite Hlen. unfold Fuse.BLOCK_NUM. split; [lia|].
    apply Forall_app. split; [by apply Forall_take|]. apply Forall_replicate. unfold is_u8. lia.
  - cbn. lia.
  - apply NoDup_nil_2.
  - done.
  - intros id [? Hx]. by rewrite lookup_empty in Hx.
Qed.

Lemma wp_before_dots (dir apps : list (list Z)) (s : FsState Fuse.BlockFile) (Q : list (list Z) -> FsState Fuse.BlockFile -> Prop) :
  map before_dot dir = map Some apps -> Q apps s ->
  wp (foldM (fun v nm => let* n := unwrap (before_dot nm) in ret (vec_push v n)) dir []) Q s.
Proof.
  intros Hd HQ. assert (Hg : forall v, Q (v ++ apps) s -> wp (foldM (fun v nm => let* n := unwrap (before_dot nm) in ret (vec_push v n)) dir v) Q s).
  { clear HQ. revert apps Hd. induction dir as [|nm dir IH]; intros [|a apps] Hd v HQ; try done; cbn [map foldM] in *.
    - by rewrite app_nil_r in HQ.
    - injection Hd as Ha Hd. wp_step. rewrite Ha. wp_step. apply wp_ret. wp_step. apply (IH apps); [done|].
      unfold vec_push. by rewrite <-app_assoc. }
  by apply Hg.
Qed.

Lemma wp_pack_all total (Hgeo : size_ok total 1) (s : FsState Fuse.BlockFile) F host l apps Q :
  let has (id : Z) := 0 <= id < total in
  cache_ok has s ∅ -> fs_rep total 1 (view s) F -> packed l F ->
  NoDup (map fst (l ++ apps)) -> Forall valid_app apps -> (forall a, a ∈ apps -> host a.1 = Some a.2) ->
  Z.of_nat (length (l ++ apps)) < 4096 -> app_blocks (l ++ apps) <= capacity total 1 ->
  (forall s' F', cache_ok has s' ∅ -> fs_rep total 1 (view s') F' -> packed (l ++ apps) F' -> Q tt s') ->
  wp (for_each (map fst apps) (pack_one (ino total 1 0) host)) Q s.
Proof.
  intros has Hok HF Hp Hnd Hv Hh Hlen Hcap HQ. unfold for_each. revert s F l Hok HF Hp Hnd Hlen Hcap HQ.
  induction Hv as [|a apps Ha _ IH]; intros s F l Hok HF Hp Hnd Hlen Hcap HQ.
  - rewrite app_nil_r in HQ. cbn. apply wp_ret. by eapply HQ.
  - cbn [map foldM]. assert (Happ : l ++ a :: apps = (l ++ [a]) ++ apps) by (by rewrite <-app_assoc). rewrite Happ in *.
    wp_step. apply (wp_pack_one total Hgeo s F l a host); try done.
    + apply Hh. by left.
    + rewrite <-app_assoc, map_app in Hnd. apply NoDup_app in Hnd as (_ & Hd & _). intros Hin. apply (Hd _ Hin). by left.
    + rewrite !length_app in Hlen. cbn in Hlen. lia.
    + pose proof (app_blocks_prefix (l ++ [a]) apps ltac:(lia)). lia.
    + intros s' F' Hok' HF' Hp'. apply (IH (fun b Hb => Hh b ltac:(by right)) s' F' (l ++ [a])); done.
Qed.

(** C20: Packing and reading back.  For applications with distinct names of at most 27
    bytes and non-empty contents that fit the image, [easy_fs_pack] runs without panic from
    any previous contents of the image file, lists the names in the order of the source
    directory, and leaves a file system in which each application can be opened by its
    name and read back byte for byte. *)
Theorem easy_fs_pack_correct dir apps host img :
  Forall is_u8 img -> map before_dot dir = map Some (map fst apps) -> NoDup (map fst apps) -> Forall valid_app apps ->
  (forall a, a ∈ apps -> host a.1 = Some a.2) -> Z.of_nat (length apps) < 4096 -> app_blocks apps <= 130014 ->
  match easy_fs_pack dir host img with
  | Ok (names, s') => names = map fst apps /\
      forall a, a ∈ apps -> wp (read_app a.1 (length a.2)) (fun r _ => r = (Z.of_nat (length a.2), a.2)) s'
  | Panic _ => False
  end.
Proof.
  intros Himg Hdir Hnd Hv Hh Hlen Hcap. assert (Hgeo : size_ok Fuse.BLOCK_NUM 1) by (unfold size_ok, Fuse.BLOCK_NUM; lia).
  pose proof (open_image_ok img Himg) as Hok. unfold easy_fs_pack. generalize (mk_fs [Fuse.open_image img] cache_manager_new), Hok.
  clear Himg Hok. intros s0 Hok. apply wp_match. unfold pack_apps. wp_step. apply (wp_efs_create (fun id => 0 <= id < Fuse.BLOCK_NUM) s0 Fuse.BLOCK_NUM 1); [exact Hok|done|done|]. intros s1 Hok1 Hf _.
  rewrite root_inode_ino by done. pose proof (formatted_rep _ _ _ Hgeo Hf) as HF1. wp_step. apply (wp_before_dots dir (map fst apps)); [done|].
  wp_step. apply (wp_pack_all Fuse.BLOCK_NUM Hgeo s1 _ host [] apps _ Hok1 HF1 packed_empty); [done|done|done|done|exact Hcap|].
  intros s2 F Hok2 HF2 Hp. cbn [app] in Hp. pose proof (pk_root _ _ Hp) as Hroot.
  apply (wp_Inode_ls Fuse.BLOCK_NUM 1 Hgeo s2 F _ _ Hok2 HF2 Hroot). intros s3 Hok3 HF3. split; [apply map_fst_entries|].
  intros a (m & Hm)%list_elem_of_lookup_1. pose proof (proj1 (Forall_lookup _ _) Hv m a Hm) as (_ & _ & _ & Hmax).
  unfold read_app. wp_step. apply (wp_efs_open (fun id => 0 <= id < Fuse.BLOCK_NUM) s3 Fuse.BLOCK_NUM 1 _ Hok3); [unfold Fuse.BLOCK_NUM; lia|done|apply HF3|].
  intros s4 Hok4 Hv4. pose proof (fs_rep_view _ _ Hgeo _ _ _ HF3 Hv4) as HF4. rewrite root_inode_ino by done. wp_step.
  apply (wp_Inode_find Fuse.BLOCK_NUM 1 Hgeo s4 F _ a.1 _ Hok4 HF4 Hroot). intros s5 Hok5 HF5.
  rewrite (dir_lookup_Some apps a m 1 Hnd Hm). cbn [fmap option_fmap option_map]. wp_step. apply wp_ret.
  apply (wp_Inode_read_at Fuse.BLOCK_NUM 1 Hgeo s5 F (1 + Z.of_nat m) (mk_file 0 a.2) 0 _ _ Hok5 HF5).
  - rewrite (Z.add_comm 1). by apply Hp.
  - done.
  - rewrite length_replicate. lia.
  - intros s6 _ _. unfold read_data. cbn [f_data]. rewrite length_replicate, Nat.sub_0_r, Nat.min_id.
    change (drop (Z.to_nat 0) a.2) with a.2. rewrite take_ge, drop_ge, app_nil_r by (rewrite ?length_replicate; lia). done.
Qed.

(** ** Witnesses *)

Lemma easy_fs_pack_correct_witness :
  match easy_fs_pack [[97; 46; 114; 115]] (fun _ => Some [7; 8]) [] with
  | Ok (names, s') => names = [[97]] /\ wp (read_app [97] 2) (fun r _ => r = (2, [7; 8])) s'
  | Panic _ => False
  end.
Proof.
  pose proof (easy_fs_pack_correct [[97; 46; 114; 115]] [([97], [7; 8])] (fun _ => Some [7; 8]) []) as Hp.
  destruct (easy_fs_pack [[97; 46; 114; 115]] (fun _ => Some [7; 8]) []) as [[names s']|r].
  - destruct Hp as [Hn Hr].
    + constructor.
    + reflexivity.
    + apply NoDup_singleton.
    + constructor; [|constructor]. split_and!; [|repeat (constructor; [done|]); constructor|done|cbn; lia].
      split_and!; [|cbn; lia|repeat (constructor; [done|]); constructor|by eexists].
      apply not_elem_of_cons. split; [lia|apply not_elem_of_nil].
    + intros a ->%list_elem_of_singleton. reflexivity.
    + cbn. lia.
    + by vm_compute.
    + split; [exact Hn|]. apply (Hr ([97], [7; 8])). by left.
  - apply Hp; try done.
    + apply NoDup_singleton.
    + constructor; [|constructor]. split_and!; [|repeat (constructor; [done|]); constructor|done|cbn; lia].
      split_and!; [|cbn; lia|repeat (constructor; [done|]); constructor|by eexists].
      apply not_elem_of_cons. split; [lia|apply not_elem_of_nil].
    + intros a ->%list_elem_of_singleton. reflexivity.
Defined.
