(* ===== verification/RiscvAddr.v ===== *)
(** * Addresses of the riscv crate (ci-user/riscv/src/addr)

    The address types of the paging modes Sv32, Sv39 and Sv48 and of their hypervisor
    variants, with the traits they implement as classes.  The crate is built for
    riscv64: [usize] has 64 bits, and the conversions between [usize] and [u64] are the
    identity.  The bit operations come from the [bit_field] crate, a parameter of the
    model; its documented behaviour is the class [BitFieldSpec]. *)

From S2P Require Import Prelude Config Address.

(** ** Fallible pure code *)

Definition obind {A B} (o : outcome A) (k : A -> outcome B) : outcome B :=
  match o with
  | Ok a => k a
  | Panic r => Panic r
  end.
Notation "'let!' x ':=' o 'in' k" := (obind o (fun x => k))
  (at level 100, x pattern, o at next level, right associativity,
   format "'let!'  x  ':='  o  'in' '//' k") : monad_scope.

(** [assert!(b)] *)
Definition oassert (b : bool) : outcome unit := if b then Ok tt else Panic AssertFailed.

(** ** The [bit_field] crate *)

(** [x.get_bit(i)], [x.get_bits(a..b)], [x.set_bit(i, v)] and [x.set_bits(a..b, v)]; the
    last two return the new value.  The indexes of every call are constants within the
    width; [set_bits] panics on a value that does not fit its range. *)
Class BitField : Type := {
  get_bit : Z -> Z -> bool;
  get_bits : Z -> Z -> Z -> Z;
  set_bit : Z -> Z -> bool -> Z;
  set_bits : Z -> Z -> Z -> Z -> outcome Z
}.

Class BitFieldSpec `{BitField} : Prop := {
  get_bit_spec x i : is_usize x -> 0 <= i < 64 -> get_bit x i = Z.testbit x i;
  get_bits_spec x a b : is_usize x -> 0 <= a < b -> b <= 64 -> get_bits x a b = (x / 2 ^ a) mod 2 ^ (b - a);
  set_bit_spec x i v j : is_usize x -> 0 <= i < 64 -> 0 <= j ->
    Z.testbit (set_bit x i v) j = if decide (j = i) then v else Z.testbit x j;
  set_bit_usize x i v : is_usize x -> 0 <= i < 64 -> is_usize (set_bit x i v);
  set_bits_spec x a b v : is_usize x -> 0 <= a < b -> b <= 64 ->
    set_bits x a b v =
      if decide (0 <= v < 2 ^ (b - a)) then Ok (x mod 2 ^ a + v * 2 ^ a + (x / 2 ^ b) * 2 ^ b) else Panic AssertFailed
}.

(** ** The traits (addr/mod.rs) *)

Class Address (A : Type) : Type := {
  addr_new : Z -> outcome A;
  page_number : A -> Z;
  page_offset : A -> Z;
  to_4k_aligned : A -> A;
  addr_as_usize : A -> outcome Z
}.

Class AddressX32 (A : Type) : Type := {
  new_u32 : Z -> A;
  as_u32 : A -> Z
}.

Class AddressX64 (A : Type) : Type := {
  new_u64 : Z -> outcome A;
  as_u64 : A -> Z
}.

Class AddressL2 (A : Type) : Type := {
  l2_p2_index : A -> Z;
  l2_p1_index : A -> Z;
  l2_from_indices : Z -> Z -> Z -> outcome A
}.

Class AddressL3 (A : Type) : Type := {
  l3_p3_index : A -> Z;
  l3_p2_index : A -> Z;
  l3_p1_index : A -> Z;
  l3_from_indices : Z -> Z -> Z -> Z -> outcome A
}.

Class AddressL4 (A : Type) : Type := {
  l4_p4_index : A -> Z;
  l4_p3_index : A -> Z;
  l4_p2_index : A -> Z;
  l4_p1_index : A -> Z;
  l4_from_indices : Z -> Z -> Z -> Z -> Z -> outcome A
}.

(** ** The address types *)

Record VirtAddrSv32 : Type := mk_VirtAddrSv32 { va32 : Z }.
Record PhysAddrSv32 : Type := mk_PhysAddrSv32 { pa32 : Z }.
Record VirtAddrSv39 : Type := mk_VirtAddrSv39 { va39 : Z }.
Record PhysAddrSv39 : Type := mk_PhysAddrSv39 { pa39 : Z }.
Record VirtAddrSv48 : Type := mk_VirtAddrSv48 { va48 : Z }.
Record PhysAddrSv48 : Type := mk_PhysAddrSv48 { pa48 : Z }.
Record GPAddrSv32X4 : Type := mk_GPAddrSv32X4 { ga32 : Z }.
Record GPAddrSv39X4 : Type := mk_GPAddrSv39X4 { ga39 : Z }.
Record GPAddrSv48X4 : Type := mk_GPAddrSv48X4 { ga48 : Z }.

(** [(x >> 12) << 12] on a [u64]; on a [u32] nothing is shifted out either. *)
Definition align_4k (x : Z) : Z := Z.shiftr x 12 <<% 12.

Section Addresses.
Context `{BitField}.

(** [addr.get_bits(w..64)] is the sign extension of bit [w - 1]. *)
Definition assert_sext (w addr : Z) : outcome unit :=
  if get_bit addr (w - 1) then oassert (get_bits addr w 64 =? Z.shiftl 1 (64 - w) - 1)
  else oassert (get_bits addr w 64 =? 0).
Definition sign_extend (w addr : Z) : outcome Z :=
  if get_bit addr (w - 1) then set_bits addr w 64 (Z.shiftl 1 (64 - w) - 1)
  else set_bits addr w 64 0.

(** addr/sv32.rs *)

#[export] Instance VirtAddrSv32_Address : Address VirtAddrSv32 := {|
  addr_new addr := if addr <? 2 ^ 32 then Ok (mk_VirtAddrSv32 addr) else Panic UnwrapNone;
  addr_as_usize a := Ok (va32 a);
  page_number a := get_bits (va32 a) 12 32;
  page_offset a := get_bits (va32 a) 0 12;
  to_4k_aligned a := mk_VirtAddrSv32 (align_4k (va32 a))
|}.

#[export] Instance VirtAddrSv32_L2 : AddressL2 VirtAddrSv32 := {|
  l2_p2_index a := get_bits (va32 a) 22 32;
  l2_p1_index a := get_bits (va32 a) 12 22;
  l2_from_indices p2_index p1_index offset :=
    let! _ := oassert (get_bits p2_index 10 64 =? 0) in
    let! _ := oassert (get_bits p1_index 10 64 =? 0) in
    let! _ := oassert (get_bits offset 12 64 =? 0) in
    addr_new (Z.lor (Z.lor (p2_index <<% 22) (p1_index <<% 12)) offset)
|}.

#[export] Instance VirtAddrSv32_X32 : AddressX32 VirtAddrSv32 := {|
  new_u32 := mk_VirtAddrSv32;
  as_u32 := va32
|}.

#[export] Instance PhysAddrSv32_X64 : AddressX64 PhysAddrSv32 := {|
  new_u64 addr := let! _ := oassert (get_bits addr 34 64 =? 0) in Ok (mk_PhysAddrSv32 addr);
  as_u64 := pa32
|}.

#[export] Instance PhysAddrSv32_Address : Address PhysAddrSv32 := {|
  addr_new addr := new_u64 addr;
  addr_as_usize a := let! _ := oassert (get_bits (pa32 a) 32 34 =? 0) in Ok (pa32 a);
  page_number a := get_bits (pa32 a) 12 34;
  page_offset a := get_bits (pa32 a) 0 12;
  to_4k_aligned a := mk_PhysAddrSv32 (align_4k (pa32 a))
|}.

(** addr/sv39.rs *)

#[export] Instance VirtAddrSv39_X64 : AddressX64 VirtAddrSv39 := {|
  new_u64 addr := let! _ := assert_sext 39 addr in Ok (mk_VirtAddrSv39 addr);
  as_u64 := va39
|}.

#[export] Instance VirtAddrSv39_Address : Address VirtAddrSv39 := {|
  addr_new addr := new_u64 addr;
  addr_as_usize a := Ok (va39 a);
  page_number a := get_bits (va39 a) 12 39;
  page_offset a := get_bits (va39 a) 0 12;
  to_4k_aligned a := mk_VirtAddrSv39 (align_4k (va39 a))
|}.

#[export] Instance VirtAddrSv39_L3 : AddressL3 VirtAddrSv39 := {|
  l3_p3_index a := get_bits (va39 a) 30 39;
  l3_p2_index a := get_bits (va39 a) 21 30;
  l3_p1_index a := get_bits (va39 a) 12 21;
  l3_from_indices p3_index p2_index p1_index offset :=
    let! _ := oassert (get_bits p3_index 11 64 =? 0) in
    let! _ := oassert (get_bits p2_index 9 64 =? 0) in
    let! _ := oassert (get_bits p1_index 9 64 =? 0) in
    let! _ := oassert (get_bits offset 12 64 =? 0) in
    let addr := Z.lor (Z.lor (Z.lor (((p3_index <<% 12) <<% 9) <<% 9) ((p2_index <<% 12) <<% 9)) (p1_index <<% 12)) offset in
    let! addr := sign_extend 39 addr in
    new_u64 addr
|}.

#[export] Instance PhysAddrSv39_X64 : AddressX64 PhysAddrSv39 := {|
  new_u64 addr := let! _ := oassert (get_bits addr 56 64 =? 0) in Ok (mk_PhysAddrSv39 addr);
  as_u64 := pa39
|}.

#[export] Instance PhysAddrSv39_Address : Address PhysAddrSv39 := {|
  addr_new addr := new_u64 addr;
  addr_as_usize a := Ok (pa39 a);
  page_number a := get_bits (pa39 a) 12 56;
  page_offset a := get_bits (pa39 a) 0 12;
  to_4k_aligned a := mk_PhysAddrSv39 (align_4k (pa39 a))
|}.

(** addr/sv48.rs *)

#[export] Instance VirtAddrSv48_X64 : AddressX64 VirtAddrSv48 := {|
  new_u64 addr := let! _ := assert_sext 48 addr in Ok (mk_VirtAddrSv48 addr);
  as_u64 := va48
|}.

#[export] Instance VirtAddrSv48_Address : Address VirtAddrSv48 := {|
  addr_new addr := new_u64 addr;
  addr_as_usize a := Ok (va48 a);
  page_number a := get_bits (va48 a) 12 48;
  page_offset a := get_bits (va48 a) 0 12;
  to_4k_aligned a := mk_VirtAddrSv48 (align_4k (va48 a))
|}.

#[export] Instance VirtAddrSv48_L4 : AddressL4 VirtAddrSv48 := {|
  l4_p4_index a := get_bits (va48 a) 39 48;
  l4_p3_index a := get_bits (va48 a) 30 39;
  l4_p2_index a := get_bits (va48 a) 21 30;
  l4_p1_index a := get_bits (va48 a) 12 21;
  l4_from_indices p4_index p3_index p2_index p1_index offset :=
    let! _ := oassert (get_bits p4_index 9 64 =? 0) in
    let! _ := oassert (get_bits p3_index 9 64 =? 0) in
    let! _ := oassert (get_bits p2_index 9 64 =? 0) in
    let! _ := oassert (get_bits p1_index 9 64 =? 0) in
    let! _ := oassert (get_bits offset 12 64 =? 0) in
    let addr := Z.lor (Z.lor (Z.lor (Z.lor ((((p4_index <<% 12) <<% 9) <<% 9) <<% 9) (((p3_index <<% 12) <<% 9) <<% 9))
      ((p2_index <<% 12) <<% 9)) (p1_index <<% 12)) offset in
    let! addr := sign_extend 48 addr in
    new_u64 addr
|}.

#[export] Instance PhysAddrSv48_X64 : AddressX64 PhysAddrSv48 := {|
  new_u64 addr := let! _ := oassert (get_bits addr 56 64 =? 0) in Ok (mk_PhysAddrSv48 addr);
  as_u64 := pa48
|}.

#[export] Instance PhysAddrSv48_Address : Address PhysAddrSv48 := {|
  addr_new addr := new_u64 addr;
  addr_as_usize a := Ok (pa48 a);
  page_number a := get_bits (pa48 a) 12 56;
  page_offset a := get_bits (pa48 a) 0 12;
  to_4k_aligned a := mk_PhysAddrSv48 (align_4k (pa48 a))
|}.

(** addr/gpax4.rs: guest physical addresses, with a root table four times as large *)

#[export] Instance GPAddrSv32X4_X64 : AddressX64 GPAddrSv32X4 := {|
  new_u64 addr := let! _ := oassert (get_bits addr 34 64 =? 0) in Ok (mk_GPAddrSv32X4 addr);
  as_u64 := ga32
|}.

#[export] Instance GPAddrSv32X4_Address : Address GPAddrSv32X4 := {|
  addr_new addr := new_u64 addr;
  addr_as_usize a := Ok (ga32 a);
  page_number a := get_bits (ga32 a) 12 34;
  page_offset a := get_bits (ga32 a) 0 12;
  to_4k_aligned a := mk_GPAddrSv32X4 (align_4k (ga32 a))
|}.

#[export] Instance GPAddrSv32X4_L2 : AddressL2 GPAddrSv32X4 := {|
  l2_p2_index a := get_bits (ga32 a) 22 34;
  l2_p1_index a := get_bits (ga32 a) 12 22;
  l2_from_indices p2_index p1_index offset :=
    let! _ := oassert (get_bits p2_index 12 64 =? 0) in
    let! _ := oassert (get_bits p1_index 10 64 =? 0) in
    let! _ := oassert (get_bits offset 12 64 =? 0) in
    new_u64 (Z.lor (Z.lor (p2_index <<% 22) (p1_index <<% 12)) offset)
|}.

#[export] Instance GPAddrSv39X4_X64 : AddressX64 GPAddrSv39X4 := {|
  new_u64 addr := let! _ := oassert (get_bits addr 41 64 =? 0) in Ok (mk_GPAddrSv39X4 addr);
  as_u64 := ga39
|}.

#[export] Instance GPAddrSv39X4_Address : Address GPAddrSv39X4 := {|
  addr_new addr := Ok (mk_GPAddrSv39X4 addr);
  addr_as_usize a := Ok (ga39 a);
  page_number a := get_bits (ga39 a) 12 41;
  page_offset a := get_bits (ga39 a) 0 12;
  to_4k_aligned a := mk_GPAddrSv39X4 (align_4k (ga39 a))
|}.

#[export] Instance GPAddrSv39X4_L3 : AddressL3 GPAddrSv39X4 := {|
  l3_p3_index a := get_bits (ga39 a) 30 41;
  l3_p2_index a := get_bits (ga39 a) 21 30;
  l3_p1_index a := get_bits (ga39 a) 12 21;
  l3_from_indices p3_index p2_index p1_index offset :=
    let! _ := oassert (get_bits p3_index 11 64 =? 0) in
    let! _ := oassert (get_bits p2_index 9 64 =? 0) in
    let! _ := oassert (get_bits p1_index 9 64 =? 0) in
    let! _ := oassert (get_bits offset 12 64 =? 0) in
    new_u64 (Z.lor (Z.lor (Z.lor (((p3_index <<% 12) <<% 9) <<% 9) ((p2_index <<% 12) <<% 9)) (p1_index <<% 12)) offset)
|}.

#[export] Instance GPAddrSv48X4_X64 : AddressX64 GPAddrSv48X4 := {|
  new_u64 addr := let! _ := oassert (get_bits addr 50 64 =? 0) in Ok (mk_GPAddrSv48X4 addr);
  as_u64 := ga48
|}.

#[export] Instance GPAddrSv48X4_Address : Address GPAddrSv48X4 := {|
  addr_new addr := Ok (mk_GPAddrSv48X4 addr);
  addr_as_usize a := Ok (ga48 a);
  page_number a := get_bits (ga48 a) 12 50;
  page_offset a := get_bits (ga48 a) 0 12;
  to_4k_aligned a := mk_GPAddrSv48X4 (align_4k (ga48 a))
|}.

#[export] Instance GPAddrSv48X4_L4 : AddressL4 GPAddrSv48X4 := {|
  l4_p4_index a := get_bits (ga48 a) 39 50;
  l4_p3_index a := get_bits (ga48 a) 30 39;
  l4_p2_index a := get_bits (ga48 a) 21 30;
  l4_p1_index a := get_bits (ga48 a) 12 21;
  l4_from_indices p4_index p3_index p2_index p1_index offset :=
    let! _ := oassert (get_bits p4_index 11 64 =? 0) in
    let! _ := oassert (get_bits p3_index 9 64 =? 0) in
    let! _ := oassert (get_bits p2_index 9 64 =? 0) in
    let! _ := oassert (get_bits p1_index 9 64 =? 0) in
    let! _ := oassert (get_bits offset 12 64 =? 0) in
    new_u64 (Z.lor (Z.lor (Z.lor (Z.lor ((((p4_index <<% 12) <<% 9) <<% 9) <<% 9) (((p3_index <<% 12) <<% 9) <<% 9))
      ((p2_index <<% 12) <<% 9)) (p1_index <<% 12)) offset)
|}.

End Addresses.

(** ** Pages and frames (addr/page.rs) *)

(** [PageWith<T>] is an aligned virtual address and [FrameWith<T>] an aligned physical
    one; the index methods of [PageWithL2], [PageWithL3] and [PageWithL4] are those of
    the address. *)
Record PageWith (A : Type) : Type := mk_page { page_addr : A }.
Arguments mk_page {A}.
Arguments page_addr {A}.
Record FrameWith (A : Type) : Type := mk_frame { frame_addr : A }.
Arguments mk_frame {A}.
Arguments frame_addr {A}.

Section Pages.
Context {A : Type} `{Address A}.

Definition page_of_addr (addr : A) : PageWith A := mk_page (to_4k_aligned addr).
Definition page_of_vpn (vpn : Z) : outcome (PageWith A) :=
  let! a := addr_new (vpn <<% 12) in
  Ok (mk_page a).

Definition frame_of_addr (addr : A) : FrameWith A := mk_frame (to_4k_aligned addr).
Definition frame_number (f : FrameWith A) : Z := page_number (frame_addr f).

Definition frame_of_ppn `{AddressX64 A} (ppn : Z) : outcome (FrameWith A) :=
  let! a := new_u64 (ppn <<% 12) in
  Ok (mk_frame a).

(** [as_kernel_mut]: where the kernel finds the frame. *)
Definition as_kernel_mut `{AddressX64 A} (f : FrameWith A) (linear_offset : Z) : Z :=
  as_u64 (frame_addr f) +% linear_offset.

Definition page_from_indices_l2 `{AddressL2 A} (p2 p1 : Z) : outcome (PageWith A) :=
  let! a := l2_from_indices p2 p1 0 in
  Ok (page_of_addr a).
Definition page_from_indices_l3 `{AddressL3 A} (p3 p2 p1 : Z) : outcome (PageWith A) :=
  let! a := l3_from_indices p3 p2 p1 0 in
  Ok (page_of_addr a).
Definition page_from_indices_l4 `{AddressL4 A} (p4 p3 p2 p1 : Z) : outcome (PageWith A) :=
  let! a := l4_from_indices p4 p3 p2 p1 0 in
  Ok (page_of_addr a).

End Pages.
