(* ===== verification/RiscvAddrSpec.v ===== *)
(** * What the addresses of the riscv crate promise

    Splitting an address into page-table indexes and an offset and putting it together
    again are inverse to each other in every paging mode; Sv39 addresses are split the way
    the kernel of os5 splits them. *)

From S2P Require Import Prelude Config Address RiscvAddr.

(** ** Shifts and sums *)

Lemma shl_small x n k : 0 <= n -> 0 <= k -> 0 <= x < 2 ^ k -> k + n <= 64 -> x <<% n = x * 2 ^ n.
Proof.
  intros Hn Hk Hx Hle. rewrite shiftl_mul by done. apply wrap64_small. split; [nia|].
  apply Z.lt_le_trans with (2 ^ k * 2 ^ n); [apply Z.mul_lt_mono_pos_r; lia|]. rewrite <-Z.pow_add_r by lia. by apply Z.pow_le_mono_r.
Qed.

Lemma lor_digit k n x y : 0 <= n -> 0 <= y < 2 ^ n -> x = k * 2 ^ n -> Z.lor x y = x + y.
Proof. intros Hn Hy ->. by apply lor_add_disjoint. Qed.

(** The sums that the [from_page_table_indices] build with [|]. *)
Lemma join_l2 p2 p1 o :
  0 <= p2 < 2 ^ 12 -> 0 <= p1 < 2 ^ 10 -> 0 <= o < 2 ^ 12 ->
  Z.lor (Z.lor (p2 <<% 22) (p1 <<% 12)) o = p2 * 2 ^ 22 + p1 * 2 ^ 12 + o.
Proof.
  intros. rewrite (shl_small p2 22 12), (shl_small p1 12 10) by lia.
  rewrite (lor_digit p2 22 (p2 * _)), (lor_digit (p2 * 2 ^ 10 + p1) 12) by lia. done.
Qed.

Lemma join_l3 p3 p2 p1 o :
  0 <= p3 < 2 ^ 11 -> 0 <= p2 < 2 ^ 9 -> 0 <= p1 < 2 ^ 9 -> 0 <= o < 2 ^ 12 ->
  Z.lor (Z.lor (Z.lor (((p3 <<% 12) <<% 9) <<% 9) ((p2 <<% 12) <<% 9)) (p1 <<% 12)) o =
    p3 * 2 ^ 30 + p2 * 2 ^ 21 + p1 * 2 ^ 12 + o.
Proof.
  intros. rewrite (shl_small p3 12 11), (shl_small (p3 * _) 9 23), (shl_small (p3 * _ * _) 9 32) by lia.
  rewrite (shl_small p2 12 9), (shl_small (p2 * _) 9 21), (shl_small p1 12 9) by lia.
  rewrite (lor_digit p3 30 (p3 * _ * _ * _)), (lor_digit (p3 * 2 ^ 9 + p2) 21 (_ + p2 * _ * _)), (lor_digit ((p3 * 2 ^ 9 + p2) * 2 ^ 9 + p1) 12) by lia. lia.
Qed.

Lemma join_l4 p4 p3 p2 p1 o :
  0 <= p4 < 2 ^ 11 -> 0 <= p3 < 2 ^ 9 -> 0 <= p2 < 2 ^ 9 -> 0 <= p1 < 2 ^ 9 -> 0 <= o < 2 ^ 12 ->
  Z.lor (Z.lor (Z.lor (Z.lor ((((p4 <<% 12) <<% 9) <<% 9) <<% 9) (((p3 <<% 12) <<% 9) <<% 9))
    ((p2 <<% 12) <<% 9)) (p1 <<% 12)) o = p4 * 2 ^ 39 + p3 * 2 ^ 30 + p2 * 2 ^ 21 + p1 * 2 ^ 12 + o.
Proof.
  intros. rewrite (shl_small p4 12 11), (shl_small (p4 * _) 9 23), (shl_small (p4 * _ * _) 9 32), (shl_small (p4 * _ * _ * _) 9 41) by lia.
  rewrite (shl_small p3 12 9), (shl_small (p3 * _) 9 21), (shl_small (p3 * _ * _) 9 30) by lia.
  rewrite (shl_small p2 12 9), (shl_small (p2 * _) 9 21), (shl_small p1 12 9) by lia.
  rewrite (lor_digit p4 39 (p4 * _ * _ * _ * _)), (lor_digit (p4 * 2 ^ 9 + p3) 30 (_ + p3 * _ * _ * _)), (lor_digit ((p4 * 2 ^ 9 + p3) * 2 ^ 9 + p2) 21 (_ + p2 * _ * _)), (lor_digit (((p4 * 2 ^ 9 + p3) * 2 ^ 9 + p2) * 2 ^ 9 + p1) 12) by lia. lia.
Qed.

(** ** Digits *)

Lemma digit_at a w h d l x : 0 <= a -> 0 <= w -> 0 <= d < 2 ^ w -> 0 <= l < 2 ^ a -> x = (h * 2 ^ w + d) * 2 ^ a + l -> (x / 2 ^ a) mod 2 ^ w = d.
Proof.
  intros Ha Hw Hd Hl ->. rewrite Z.div_add_l by (apply Z.pow_nonzero; lia). rewrite (Z.div_small l) by done.
  rewrite Z.add_0_r, Z.add_comm, Z.mod_add by (apply Z.pow_nonzero; lia). by apply Z.mod_small.
Qed.

(** A field within the low [n] bits only depends on them. *)
Lemma field_mod x a w n : 0 <= a -> 0 <= w -> a + w <= n -> ((x mod 2 ^ n) / 2 ^ a) mod 2 ^ w = (x / 2 ^ a) mod 2 ^ w.
Proof.
  intros Ha Hw Hn. replace n with (a + (w + (n - a - w))) by lia. rewrite Z.pow_add_r, Z.rem_mul_r by (lia || (apply Z.pow_nonzero; lia)).
  rewrite (Z.add_comm (x mod _)), Z.mul_comm, Z.div_add_l by (apply Z.pow_nonzero; lia).
  rewrite (Z.div_small (x mod _)), Z.add_0_r by (apply Z.mod_pos_bound, Z.pow_pos_nonneg; lia).
  rewrite Z.pow_add_r, Z.rem_mul_r by (lia || (apply Z.pow_nonzero; lia)). rewrite Z.add_mod, Z.mul_comm, Z.mod_mul, Z.add_0_r by (apply Z.pow_nonzero; lia).
  by rewrite !Z.mod_mod by (apply Z.pow_nonzero; lia).
Qed.

Lemma mod_split x a w : 0 <= a -> 0 <= w -> x mod 2 ^ (a + w) = (x / 2 ^ a) mod 2 ^ w * 2 ^ a + x mod 2 ^ a.
Proof. intros Ha Hw. rewrite Z.pow_add_r, Z.rem_mul_r by (lia || (apply Z.pow_nonzero; lia)). lia. Qed.

(** ** Round trips *)

(** [split] takes an address apart into indexes of the given widths and an offset, and
    [join] puts it together. *)
Definition fits (l widths : list Z) : Prop := Forall2 (fun i w => 0 <= i < 2 ^ w) l widths.
Definition round_trips {A} (valid : A -> Prop) (widths : list Z) (split : A -> list Z) (join : list Z -> outcome A) : Prop :=
  (forall a, valid a -> fits (split a) widths /\ join (split a) = Ok a) /\
  (forall l, fits l widths -> exists a, join l = Ok a /\ valid a /\ split a = l).

(** The digits of [x] of the given widths, most significant first, and the number that
    has given digits. *)
Definition total (ws : list Z) : Z := foldr Z.add 0 ws.
Fixpoint digits (ws : list Z) (x : Z) : list Z :=
  match ws with
  | [] => []
  | w :: ws' => (x / 2 ^ total ws') mod 2 ^ w :: digits ws' x
  end.
Fixpoint undigits (ws l : list Z) : Z :=
  match ws, l with
  | w :: ws', i :: l' => i * 2 ^ total ws' + undigits ws' l'
  | _, _ => 0
  end.

Lemma total_nonneg ws : Forall (Z.le 0) ws -> 0 <= total ws.
Proof. induction 1; cbn; [done|]. unfold total in *. lia. Qed.

Lemma digits_fit ws x : Forall (Z.le 0) ws -> fits (digits ws x) ws.
Proof. induction 1 as [|w ws Hw _ IH]; [constructor|]. constructor; [|done]. apply Z.mod_pos_bound. by apply Z.pow_pos_nonneg. Qed.

Lemma undigits_digits ws x : Forall (Z.le 0) ws -> undigits ws (digits ws x) = x mod 2 ^ total ws.
Proof.
  induction 1 as [|w ws Hw Hws IH]; [symmetry; apply Z.mod_1_r|]. pose proof (total_nonneg ws Hws). cbn [undigits digits]. rewrite IH.
  change (total (w :: ws)) with (w + total ws). rewrite (Z.add_comm w), mod_split by done. done.
Qed.

Lemma undigits_bound ws l : Forall (Z.le 0) ws -> fits l ws -> 0 <= undigits ws l < 2 ^ total ws.
Proof.
  intros Hws Hl. revert Hws. induction Hl as [|i w l ws Hi Hl IH]; intros Hws; [cbn; lia|]. apply Forall_cons in Hws as [Hw Hws].
  specialize (IH Hws). pose proof (total_nonneg ws Hws). cbn [undigits]. change (total (w :: ws)) with (w + total ws). rewrite Z.pow_add_r by done. nia.
Qed.

Lemma digits_mod ws x n : Forall (Z.le 0) ws -> total ws <= n -> digits ws (x mod 2 ^ n) = digits ws x.
Proof.
  induction 1 as [|w ws Hw Hws IH]; [done|]. change (total (w :: ws)) with (w + total ws). intros Hn. pose proof (total_nonneg ws Hws).
  cbn [digits]. by rewrite IH, field_mod by lia.
Qed.

Lemma digits_undigits ws l : Forall (Z.le 0) ws -> fits l ws -> digits ws (undigits ws l) = l.
Proof.
  intros Hws Hl. revert Hws. induction Hl as [|i w l ws Hi Hl IH]; intros Hws; [done|]. apply Forall_cons in Hws as [Hw Hws].
  pose proof (total_nonneg ws Hws). pose proof (undigits_bound ws l Hws Hl). cbn [undigits digits]. f_equal.
  - apply (digit_at _ _ 0 i (undigits ws l)); lia.
  - rewrite <-(digits_mod ws _ (total ws)) by (done || lia). rewrite Z.add_comm, Z.mod_add by (by apply Z.pow_nonzero).
    rewrite Z.mod_small by done. by apply IH.
Qed.

(** An address type whose bits are digits, extended to 64 bits by [ext]. *)
Lemma round_trips_of {A} (bits : A -> Z) (mk : Z -> A) (ext : Z -> Z) (valid : Z -> Prop) ws split join :
  (forall a, mk (bits a) = a) -> (forall x, bits (mk x) = x) -> Forall (Z.le 0) ws ->
  (forall x, valid x -> ext (x mod 2 ^ total ws) = x) ->
  (forall y, 0 <= y < 2 ^ total ws -> valid (ext y) /\ ext y mod 2 ^ total ws = y) ->
  (forall a, valid (bits a) -> split a = digits ws (bits a)) ->
  (forall l, fits l ws -> join l = Ok (mk (ext (undigits ws l)))) ->
  round_trips (fun a => valid (bits a)) ws split join.
Proof.
  intros Hmk Hbits Hws Hext Hval Hsplit Hjoin. split.
  - intros a Ha. rewrite Hsplit by done. split; [by apply digits_fit|]. rewrite Hjoin by (by apply digits_fit). by rewrite undigits_digits, Hext, Hmk.
  - intros l Hl. destruct (Hval (undigits ws l)) as [Hv Hm]; [by apply undigits_bound|]. exists (mk (ext (undigits ws l))). rewrite Hbits.
    split_and!; [by apply Hjoin|done|]. rewrite Hsplit by (by rewrite Hbits). rewrite Hbits, <-(digits_mod ws _ (total ws)), Hm by done.
    by apply digits_undigits.
Qed.

Section Spec.
Context `{BitFieldSpec}.

Definition split_l2 {A} `{Address A, AddressL2 A} (a : A) : list Z := [l2_p2_index a; l2_p1_index a; page_offset a].
Definition join_l2_of {A} `{AddressL2 A} (l : list Z) : outcome A :=
  match l with [p2; p1; o] => l2_from_indices p2 p1 o | _ => Panic Explicit end.
Definition split_l3 {A} `{Address A, AddressL3 A} (a : A) : list Z := [l3_p3_index a; l3_p2_index a; l3_p1_index a; page_offset a].
Definition join_l3_of {A} `{AddressL3 A} (l : list Z) : outcome A :=
  match l with [p3; p2; p1; o] => l3_from_indices p3 p2 p1 o | _ => Panic Explicit end.
Definition split_l4 {A} `{Address A, AddressL4 A} (a : A) : list Z :=
  [l4_p4_index a; l4_p3_index a; l4_p2_index a; l4_p1_index a; page_offset a].
Definition join_l4_of {A} `{AddressL4 A} (l : list Z) : outcome A :=
  match l with [p4; p3; p2; p1; o] => l4_from_indices p4 p3 p2 p1 o | _ => Panic Explicit end.

Lemma high_bits_zero x w : 0 < w < 64 -> 0 <= x < 2 ^ w -> oassert (get_bits x w 64 =? 0) = Ok tt.
Proof.
  intros Hw Hx. assert (Hle : 2 ^ w <= 2 ^ 64) by (apply Z.pow_le_mono_r; lia).
  rewrite get_bits_spec by (unfold is_usize; lia). by rewrite Z.div_small, Z.mod_0_l by (lia || (apply Z.pow_nonzero; lia)).
Qed.

(** [x] is a sign-extended number of [w] bits. *)
Definition canonical (w x : Z) : Prop := 0 <= x < 2 ^ (w - 1) \/ 2 ^ 64 - 2 ^ (w - 1) <= x < 2 ^ 64.

(** The low [w] bits of a canonical address determine it. *)
Definition canonical_of (w x : Z) : Z := if decide (x < 2 ^ (w - 1)) then x else x + (2 ^ 64 - 2 ^ w).

Lemma sign_bit x n : 0 <= n -> 0 <= x < 2 ^ (n + 1) -> Z.testbit x n = bool_decide (2 ^ n <= x).
Proof.
  intros Hn Hx. rewrite Z.pow_add_r in Hx by lia. rewrite Z.testbit_odd, shiftr_div by done. case_bool_decide as Hb.
  - replace (x / 2 ^ n) with 1; [done|]. apply (Z.div_unique x (2 ^ n) 1 (x - 2 ^ n)); lia.
  - by rewrite Z.div_small by lia.
Qed.

Lemma sign_extend_ok w x : w = 39 \/ w = 48 -> 0 <= x < 2 ^ w -> sign_extend w x = Ok (canonical_of w x).
Proof.
  intros Hw Hx. unfold sign_extend, canonical_of. rewrite get_bit_spec by (unfold is_usize; destruct Hw; subst; lia).
  rewrite sign_bit by (replace (w - 1 + 1) with w by lia; destruct Hw; lia).
  rewrite !set_bits_spec by (unfold is_usize; destruct Hw; subst; lia).
  assert (Hmod : x mod 2 ^ w = x) by (by apply Z.mod_small). assert (Hdiv : x / 2 ^ 64 = 0) by (apply Z.div_small; destruct Hw; subst; lia).
  rewrite Hmod, Hdiv. assert (Hones : 0 <= Z.shiftl 1 (64 - w) - 1 < 2 ^ (64 - w)) by (by destruct Hw; subst).
  assert (Hzero : 0 <= 0 < 2 ^ (64 - w)) by (by destruct Hw; subst). rewrite !decide_True by done.
  case_bool_decide; case_decide; try lia; f_equal; destruct Hw; subst; change (Z.shiftl 1 (64 - 39)) with (2 ^ 25); change (Z.shiftl 1 (64 - 48)) with (2 ^ 16); lia.
Qed.

Lemma assert_sext_ok w x : w = 39 \/ w = 48 -> canonical w x -> assert_sext w x = Ok tt.
Proof.
  intros Hw Hx. assert (Hu : is_usize x) by (unfold canonical, is_usize in *; destruct Hw; subst; lia).
  unfold assert_sext. rewrite get_bit_spec by (destruct Hw; subst; done || lia). rewrite get_bits_spec by (destruct Hw; subst; done || lia).
  rewrite Z.testbit_odd, shiftr_div by (destruct Hw; lia).
  destruct Hx as [Hx|Hx].
  - rewrite (Z.div_small x (2 ^ (w - 1))) by done. cbn [Z.odd]. rewrite (Z.div_small x) by (destruct Hw; subst; lia). by destruct Hw; subst.
  - destruct Hw as [-> | ->].
    + replace (x / 2 ^ (39 - 1)) with (2 ^ 26 - 1) by (apply (Z.div_unique _ _ _ (x - (2 ^ 26 - 1) * 2 ^ 38)); lia).
      replace (x / 2 ^ 39) with (2 ^ 25 - 1) by (apply (Z.div_unique _ _ _ (x - (2 ^ 25 - 1) * 2 ^ 39)); lia). done.
    + replace (x / 2 ^ (48 - 1)) with (2 ^ 17 - 1) by (apply (Z.div_unique _ _ _ (x - (2 ^ 17 - 1) * 2 ^ 47)); lia).
      replace (x / 2 ^ 48) with (2 ^ 16 - 1) by (apply (Z.div_unique _ _ _ (x - (2 ^ 16 - 1) * 2 ^ 48)); lia). done.
Qed.

Lemma canonical_of_ok w x : w = 39 \/ w = 48 -> 0 <= x < 2 ^ w -> canonical w (canonical_of w x) /\ canonical_of w x mod 2 ^ w = x.
Proof.
  intros Hw Hx. unfold canonical, canonical_of. case_decide; destruct Hw as [-> | ->]; (split; [lia|]).
  1,2: by apply Z.mod_small.
  - replace (x + (2 ^ 64 - 2 ^ 39)) with (x + (2 ^ 25 - 1) * 2 ^ 39) by lia. rewrite Z.mod_add by done. by apply Z.mod_small.
  - replace (x + (2 ^ 64 - 2 ^ 48)) with (x + (2 ^ 16 - 1) * 2 ^ 48) by lia. rewrite Z.mod_add by done. by apply Z.mod_small.
Qed.

Lemma canonical_mod w x : w = 39 \/ w = 48 -> canonical w x -> canonical_of w (x mod 2 ^ w) = x.
Proof.
  intros Hw Hx. unfold canonical_of. destruct Hx as [Hx|Hx].
  - rewrite Z.mod_small by (destruct Hw; subst; lia). by rewrite decide_True by lia.
  - destruct Hw as [-> | ->].
    + replace (x mod 2 ^ 39) with (x - (2 ^ 25 - 1) * 2 ^ 39) by (apply (Z.mod_unique _ _ (2 ^ 25 - 1)); lia). rewrite decide_False by lia. lia.
    + replace (x mod 2 ^ 48) with (x - (2 ^ 16 - 1) * 2 ^ 48) by (apply (Z.mod_unique _ _ (2 ^ 16 - 1)); lia). rewrite decide_False by lia. lia.
Qed.

Lemma get_field x a b w : is_usize x -> 0 <= a < b -> b <= 64 -> b - a = w -> get_bits x a b = (x / 2 ^ a) mod 2 ^ w.
Proof. intros ??? <-. by apply get_bits_spec. Qed.

Lemma get_offset x : is_usize x -> get_bits x 0 12 = x mod 2 ^ 12.
Proof. intros. rewrite (get_field _ _ _ 12) by (done || lia). change (2 ^ 0) with 1. by rewrite Z.div_1_r. Qed.

Lemma fits_2 l a b c : fits l [a; b; c] -> exists i j k, l = [i; j; k] /\ 0 <= i < 2 ^ a /\ 0 <= j < 2 ^ b /\ 0 <= k < 2 ^ c.
Proof.
  intros (i & l1 & Hi & (j & l2 & Hj & (k & l3 & Hk & ->%Forall2_nil_inv_r & ->)%Forall2_cons_inv_r & ->)%Forall2_cons_inv_r & ->)%Forall2_cons_inv_r.
  by exists i, j, k.
Qed.

Lemma fits_3 l a b c d : fits l [a; b; c; d] ->
  exists h i j k, l = [h; i; j; k] /\ 0 <= h < 2 ^ a /\ 0 <= i < 2 ^ b /\ 0 <= j < 2 ^ c /\ 0 <= k < 2 ^ d.
Proof. intros (h & l1 & Hh & (i & j & k & -> & ? & ? & ?)%fits_2 & ->)%Forall2_cons_inv_r. by exists h, i, j, k. Qed.

Lemma fits_4 l a b c d e : fits l [a; b; c; d; e] ->
  exists g h i j k, l = [g; h; i; j; k] /\ 0 <= g < 2 ^ a /\ 0 <= h < 2 ^ b /\ 0 <= i < 2 ^ c /\ 0 <= j < 2 ^ d /\ 0 <= k < 2 ^ e.
Proof. intros (g & l1 & Hg & (h & i & j & k & -> & ? & ? & ? & ?)%fits_3 & ->)%Forall2_cons_inv_r. by exists g, h, i, j, k. Qed.

(** Guest physical addresses are extended by zeros. *)
Lemma zero_extended n : forall y, 0 <= y < 2 ^ n -> (0 <= y < 2 ^ n) /\ y mod 2 ^ n = y.
Proof. intros y Hy. split; [done|by apply Z.mod_small]. Qed.

Ltac fields :=
  unfold split_l2, split_l3, split_l4;
  cbn [l2_p2_index l2_p1_index l3_p3_index l3_p2_index l3_p1_index l4_p4_index l4_p3_index l4_p2_index l4_p1_index page_offset
       VirtAddrSv32_L2 VirtAddrSv32_Address GPAddrSv32X4_L2 GPAddrSv32X4_Address VirtAddrSv39_L3 VirtAddrSv39_Address
       GPAddrSv39X4_L3 GPAddrSv39X4_Address VirtAddrSv48_L4 VirtAddrSv48_Address GPAddrSv48X4_L4 GPAddrSv48X4_Address];
  rewrite get_offset by (unfold is_usize in *; lia).

Lemma zero_extend_mod n : forall x, 0 <= x < 2 ^ n -> x mod 2 ^ n = x.
Proof. intros x Hx. by apply Z.mod_small. Qed.

Lemma sv32_round_trips : round_trips (fun a => 0 <= va32 a < 2 ^ 32) [10; 10; 12] split_l2 join_l2_of.
Proof.
  apply (round_trips_of va32 mk_VirtAddrSv32 (fun x => x) (fun x => 0 <= x < 2 ^ 32));
    [by intros []|done|by rewrite !Forall_cons|apply zero_extend_mod|apply zero_extended| |].
  - intros a Ha. fields. rewrite !(get_field _ _ _ 10) by (unfold is_usize; lia). cbn. by rewrite Z.div_1_r.
  - intros l (p2 & p1 & o & -> & H2 & H1 & Ho)%fits_2. cbn [join_l2_of l2_from_indices VirtAddrSv32_L2]. rewrite !high_bits_zero by lia. cbn [obind].
    rewrite join_l2 by lia. cbn [addr_new VirtAddrSv32_Address]. rewrite (proj2 (Z.ltb_lt _ _)) by lia. do 2 f_equal. cbn. lia.
Qed.

Lemma sv32x4_round_trips : round_trips (fun a => 0 <= ga32 a < 2 ^ 34) [12; 10; 12] split_l2 join_l2_of.
Proof.
  apply (round_trips_of ga32 mk_GPAddrSv32X4 (fun x => x) (fun x => 0 <= x < 2 ^ 34));
    [by intros []|done|by rewrite !Forall_cons|apply zero_extend_mod|apply zero_extended| |].
  - intros a Ha. fields. rewrite (get_field _ 22 34 12), (get_field _ 12 22 10) by (unfold is_usize; lia). cbn. by rewrite Z.div_1_r.
  - intros l (p2 & p1 & o & -> & H2 & H1 & Ho)%fits_2. cbn [join_l2_of l2_from_indices GPAddrSv32X4_L2]. rewrite !high_bits_zero by lia. cbn [obind].
    rewrite join_l2 by lia. cbn [new_u64 GPAddrSv32X4_X64]. rewrite high_bits_zero by lia. cbn [obind]. do 2 f_equal. cbn. lia.
Qed.

Lemma sv39x4_round_trips : round_trips (fun a => 0 <= ga39 a < 2 ^ 41) [11; 9; 9; 12] split_l3 join_l3_of.
Proof.
  apply (round_trips_of ga39 mk_GPAddrSv39X4 (fun x => x) (fun x => 0 <= x < 2 ^ 41));
    [by intros []|done|by rewrite !Forall_cons|apply zero_extend_mod|apply zero_extended| |].
  - intros a Ha. fields. rewrite (get_field _ 30 41 11), !(get_field _ _ _ 9) by (unfold is_usize; lia). cbn. by rewrite Z.div_1_r.
  - intros l (p3 & p2 & p1 & o & -> & H3 & H2 & H1 & Ho)%fits_3. cbn [join_l3_of l3_from_indices GPAddrSv39X4_L3]. rewrite !high_bits_zero by lia. cbn [obind].
    rewrite join_l3 by lia. cbn [new_u64 GPAddrSv39X4_X64]. rewrite high_bits_zero by lia. cbn [obind]. do 2 f_equal. cbn. lia.
Qed.

Lemma sv48x4_round_trips : round_trips (fun a => 0 <= ga48 a < 2 ^ 50) [11; 9; 9; 9; 12] split_l4 join_l4_of.
Proof.
  apply (round_trips_of ga48 mk_GPAddrSv48X4 (fun x => x) (fun x => 0 <= x < 2 ^ 50));
    [by intros []|done|by rewrite !Forall_cons|apply zero_extend_mod|apply zero_extended| |].
  - intros a Ha. fields. rewrite (get_field _ 39 50 11), !(get_field _ _ _ 9) by (unfold is_usize; lia). cbn. by rewrite Z.div_1_r.
  - intros l (p4 & p3 & p2 & p1 & o & -> & H4 & H3 & H2 & H1 & Ho)%fits_4. cbn [join_l4_of l4_from_indices GPAddrSv48X4_L4]. rewrite !high_bits_zero by lia. cbn [obind].
    rewrite join_l4 by lia. cbn [new_u64 GPAddrSv48X4_X64]. rewrite high_bits_zero by lia. cbn [obind]. do 2 f_equal. cbn. lia.
Qed.

Lemma canonical_usize w x : w = 39 \/ w = 48 -> canonical w x -> is_usize x.
Proof. unfold canonical, is_usize. intros [-> | ->]; lia. Qed.

Lemma sv39_round_trips : round_trips (fun a => canonical 39 (va39 a)) [9; 9; 9; 12] split_l3 join_l3_of.
Proof.
  apply (round_trips_of va39 mk_VirtAddrSv39 (canonical_of 39) (canonical 39));
    [by intros []|done|by rewrite !Forall_cons|intros x; apply canonical_mod; by left|intros y; apply canonical_of_ok; by left| |].
  - intros a Ha%canonical_usize; [|by left]. fields. rewrite !(get_field _ _ _ 9) by (done || lia). cbn. by rewrite Z.div_1_r.
  - intros l (p3 & p2 & p1 & o & -> & H3 & H2 & H1 & Ho)%fits_3. cbn [join_l3_of l3_from_indices VirtAddrSv39_L3]. rewrite !high_bits_zero by lia. cbn [obind].
    rewrite join_l3 by lia. rewrite sign_extend_ok by (auto || lia). cbn [obind new_u64 VirtAddrSv39_X64]. rewrite assert_sext_ok; [|auto|apply canonical_of_ok; [auto|lia]].
    cbn [obind]. do 3 f_equal. cbn. lia.
Qed.

Lemma sv48_round_trips : round_trips (fun a => canonical 48 (va48 a)) [9; 9; 9; 9; 12] split_l4 join_l4_of.
Proof.
  apply (round_trips_of va48 mk_VirtAddrSv48 (canonical_of 48) (canonical 48));
    [by intros []|done|by rewrite !Forall_cons|intros x; apply canonical_mod; by right|intros y; apply canonical_of_ok; by right| |].
  - intros a Ha%canonical_usize; [|by right]. fields. rewrite !(get_field _ _ _ 9) by (done || lia). cbn. by rewrite Z.div_1_r.
  - intros l (p4 & p3 & p2 & p1 & o & -> & H4 & H3 & H2 & H1 & Ho)%fits_4. cbn [join_l4_of l4_from_indices VirtAddrSv48_L4]. rewrite !high_bits_zero by lia. cbn [obind].
    rewrite join_l4 by lia. rewrite sign_extend_ok by (auto || lia). cbn [obind new_u64 VirtAddrSv48_X64]. rewrite assert_sext_ok; [|auto|apply canonical_of_ok; [auto|lia]].
    cbn [obind]. do 3 f_equal. cbn. lia.
Qed.

(** Bits above the sign bit do not matter to the extension. *)
Lemma sign_extend_low x : is_usize x -> sign_extend 39 x = sign_extend 39 (x mod 2 ^ 39).
Proof.
  intros Hx. pose proof (Z.mod_pos_bound x (2 ^ 39)) as Hm. assert (Hx' : is_usize (x mod 2 ^ 39)) by (unfold is_usize in *; lia).
  unfold sign_extend. rewrite !get_bit_spec by (done || lia). rewrite !set_bits_spec by (done || lia). rewrite Z.mod_pow2_bits_low by lia.
  rewrite Z.mod_mod by done. unfold is_usize in *. by rewrite !(Z.div_small _ (2 ^ 64)) by lia.
Qed.

Lemma sv39_index_lost l : fits l [11; 9; 9; 12] -> join_l3_of (A := VirtAddrSv39) l = join_l3_of (alter (fun p3 => p3 mod 2 ^ 9) 0%nat l).
Proof.
  intros (p3 & p2 & p1 & o & -> & H3 & H2 & H1 & Ho)%fits_3. pose proof (Z.mod_pos_bound p3 (2 ^ 9)) as Hm.
  cbn [alter list_alter join_l3_of l3_from_indices VirtAddrSv39_L3]. rewrite !high_bits_zero by lia. cbn [obind]. rewrite !join_l3 by lia.
  rewrite (sign_extend_low (p3 * 2 ^ 30 + _ + _ + _)) by (unfold is_usize; lia). do 2 f_equal. symmetry. apply (Z.mod_unique _ _ (p3 / 2 ^ 9)); [lia|].
  pose proof (Z.div_mod p3 (2 ^ 9)). lia.
Qed.
End Spec.

(** ** A model of the [bit_field] crate *)

Definition bit_field_ops : BitField := {|
  get_bit := Z.testbit;
  get_bits x a b := (x / 2 ^ a) mod 2 ^ (b - a);
  set_bit x i v := if v then Z.setbit x i else Z.clearbit x i;
  set_bits x a b v := if decide (0 <= v < 2 ^ (b - a)) then Ok (x mod 2 ^ a + v * 2 ^ a + (x / 2 ^ b) * 2 ^ b) else Panic AssertFailed
|}.

Lemma setbit_usize x i : is_usize x -> 0 <= i < 64 -> is_usize (Z.setbit x i).
Proof.
  unfold is_usize. intros Hx Hi. rewrite <-(Z.mod_small x (2 ^ 64)) by lia. unfold Z.setbit. rewrite Z.shiftl_1_l.
  rewrite <-Z.land_ones by done. replace (2 ^ i) with (Z.land (2 ^ i) (Z.ones 64)).
  - rewrite <-Z.land_lor_distr_l, Z.land_ones by done. by apply Z.mod_pos_bound.
  - rewrite Z.land_ones by done. apply Z.mod_small. split; [apply Z.pow_nonneg; lia|apply Z.pow_lt_mono_r; lia].
Qed.

Lemma clearbit_usize x i : is_usize x -> 0 <= i -> is_usize (Z.clearbit x i).
Proof.
  unfold is_usize. intros Hx Hi. rewrite <-(Z.mod_small x (2 ^ 64)) by lia. unfold Z.clearbit. rewrite <-Z.land_ones, Z.ldiff_land by done.
  rewrite <-Z.land_assoc, (Z.land_comm (Z.ones 64)), Z.land_assoc, Z.land_ones by done. by apply Z.mod_pos_bound.
Qed.

Lemma bit_field_ops_spec : @BitFieldSpec bit_field_ops.
Proof.
  split; cbn; [done|done| | |done].
  - intros x i v j Hx Hi Hj. destruct v.
    + rewrite Z.setbit_eqb by lia. by destruct (Z.eqb_spec i j), (decide (j = i)); subst.
    + rewrite Z.clearbit_eqb. by destruct (Z.eqb_spec i j), (decide (j = i)); subst; cbn; rewrite ?andb_false_r, ?andb_true_r.
  - intros x i [] Hx Hi; [by apply setbit_usize|]. apply clearbit_usize; [done|lia].
Qed.

(** ** The contract *)

(** C33: In each of the six kinds of virtual addresses (Sv32, Sv39 and Sv48, for the host and
    for guests), splitting a valid address into its page-table indexes and offset gives
    numbers of the right widths, [from_page_table_indices] accepts them and gives the
    address back; and every tuple of numbers of these widths is accepted, gives a valid
    address, and is what splitting it gives.  Sv39 also accepts top-level indexes of 10
    and 11 bits, and drops their high bits. *)
Theorem address_round_trips `{BitFieldSpec} :
  round_trips (fun a : VirtAddrSv32 => 0 <= va32 a < 2 ^ 32) [10; 10; 12] split_l2 join_l2_of /\
  round_trips (fun a : VirtAddrSv39 => canonical 39 (va39 a)) [9; 9; 9; 12] split_l3 join_l3_of /\
  round_trips (fun a : VirtAddrSv48 => canonical 48 (va48 a)) [9; 9; 9; 9; 12] split_l4 join_l4_of /\
  round_trips (fun a : GPAddrSv32X4 => 0 <= ga32 a < 2 ^ 34) [12; 10; 12] split_l2 join_l2_of /\
  round_trips (fun a : GPAddrSv39X4 => 0 <= ga39 a < 2 ^ 41) [11; 9; 9; 12] split_l3 join_l3_of /\
  round_trips (fun a : GPAddrSv48X4 => 0 <= ga48 a < 2 ^ 50) [11; 9; 9; 9; 12] split_l4 join_l4_of /\
  (forall l, fits l [11; 9; 9; 12] -> join_l3_of (A := VirtAddrSv39) l = join_l3_of (alter (fun p3 => p3 mod 2 ^ 9) 0%nat l)).
Proof. split_and!; [apply sv32_round_trips|apply sv39_round_trips|apply sv48_round_trips|apply sv32x4_round_trips|apply sv39x4_round_trips|apply sv48x4_round_trips|apply sv39_index_lost]. Qed.

(** The address 0xffff_ffff_8020_0123 of a kernel in the upper half. *)
Lemma address_round_trips_witness :
  let _ := bit_field_ops in
  let a := mk_VirtAddrSv39 0xffffffff80200123 in
  split_l3 a = [510; 1; 0; 0x123] /\ join_l3_of (split_l3 a) = Ok a.
Proof.
  split; [by vm_compute|].
  apply (proj1 (proj1 (proj2 (@address_round_trips bit_field_ops bit_field_ops_spec)))). right. by vm_compute.
Defined.
