(* ===== verification/RiscvPaging.v ===== *)
(** * Page tables of the riscv crate (ci-user/riscv/src/paging)

    Entries of 32 and 64 bits, and the two-, three- and four-level tables
    [Rv32PageTableWith], [Rv39PageTableWith] and [Rv48PageTableWith] with the trait
    [Mapper].  A reference to a table or to an entry is its address in the memory of the
    kernel, where the frame at physical address [p] is found at [p + linear_offset].  The
    allocator of frames is the caller's; a flush promise is the address it would flush. *)

From S2P Require Import Prelude Config PhysMem RiscvAddr.

(** ** Entries (paging/page_table.rs) *)

(** [PageTableFlags], a [bitflags] struct over [usize]. *)
Inductive PageTableFlags : Type :=
| F_VALID
| F_READABLE
| F_WRITABLE
| F_EXECUTABLE
| F_USER
| F_GLOBAL
| F_ACCESSED
| F_DIRTY
| F_RESERVED1
| F_RESERVED2.

Definition flag_bits (f : PageTableFlags) : Z :=
  match f with
  | F_VALID => Z.shiftl 1 0
  | F_READABLE => Z.shiftl 1 1
  | F_WRITABLE => Z.shiftl 1 2
  | F_EXECUTABLE => Z.shiftl 1 3
  | F_USER => Z.shiftl 1 4
  | F_GLOBAL => Z.shiftl 1 5
  | F_ACCESSED => Z.shiftl 1 6
  | F_DIRTY => Z.shiftl 1 7
  | F_RESERVED1 => Z.shiftl 1 8
  | F_RESERVED2 => Z.shiftl 1 9
  end.
Coercion flag_bits : PageTableFlags >-> Z.
Definition F_ALL : Z := Z.shiftl 1 10 - 1.

(** The trait [PTE] and the arrays of [PTEIterableSlice]: what differs between
    [PageTableEntryX32] and [PageTableEntryX64] is the width of the entry and the number
    of entries in a table. *)
Class PTE : Type := {
  entry_bytes : Z;
  entry_count : Z;
  entry_cast : Z -> Z;
  entry_load : mem -> Z -> Z;
  entry_store : mem -> Z -> Z -> mem
}.

Definition PageTableEntryX32 : PTE := {|
  entry_bytes := 4;
  entry_count := Z.shiftl 1 10;
  entry_cast := wrap32;
  entry_load := load32;
  entry_store := store32
|}.

Definition PageTableEntryX64 : PTE := {|
  entry_bytes := 8;
  entry_count := Z.shiftl 1 9;
  entry_cast := wrap64;
  entry_load := load64;
  entry_store := store64
|}.

Definition is_unused (e : Z) : bool := e =? 0.
Definition entry_flags (e : Z) : Z := Z.land e F_ALL.
Definition entry_ppn (e : Z) : Z := Z.shiftr e 10.

Section Entry.
Context `{PTE} {P : Type} `{Address P, AddressX64 P}.

Definition entry_addr (e : Z) : outcome P := new_u64 (entry_ppn e <<% 12).
Definition entry_frame (e : Z) : outcome (FrameWith P) :=
  let! a := entry_addr e in
  Ok (frame_of_addr a).

(** The value that [set] stores. *)
Definition entry_set (frame : FrameWith P) (flags : Z) : Z :=
  let flags := Z.lor flags (Z.lor F_ACCESSED F_DIRTY) in
  entry_cast (Z.lor (frame_number frame <<% 10) flags).

End Entry.

(** ** Errors (paging/mapper.rs) *)

Inductive result (A E : Type) : Type :=
| Good (a : A)
| Err (e : E).
Arguments Good {A E} a.
Arguments Err {A E} e.

(** [m?] *)
Definition try_bind {S A B E} (m : M S (result A E)) (k : A -> M S (result B E)) : M S (result B E) :=
  let* r := m in
  match r with
  | Good a => k a
  | Err e => ret (Err e)
  end.
Notation "'let?' x ':=' m 'in' k" := (try_bind m (fun x => k))
  (at level 100, x pattern, m at next level, right associativity,
   format "'let?'  x  ':='  m  'in' '//' k") : monad_scope.

Inductive MapToError : Type :=
| FrameAllocationFailed
| ParentEntryHugePage
| PageAlreadyMapped.

Inductive UnmapError (P : Type) : Type :=
| UnmapParentEntryHugePage
| UnmapPageNotMapped
| InvalidFrameAddress (p : P).
Arguments UnmapParentEntryHugePage {P}.
Arguments UnmapPageNotMapped {P}.
Arguments InvalidFrameAddress {P} p.

Inductive FlagUpdateError : Type :=
| FlagPageNotMapped.

(** [FrameAllocatorFor<P>] (paging/frame_alloc.rs) *)
Class FrameAllocatorFor (T P : Type) : Type := {
  alloc : T -> option (FrameWith P) * T
}.

(** [MapperFlushable::new], the same for [MapperFlush], [MapperFlushGPA] and
    [MapperFlushGPT]: the address to flush. *)
Definition flush_new {V} `{Address V} (page : PageWith V) : outcome Z := addr_as_usize (page_addr page).

(** ** Tables *)

(** The memory of the kernel and the state of the allocator. *)
Record PagingState (T : Type) : Type := mk_paging { kmem : mem; falloc : T }.
Arguments mk_paging {T}.
Arguments kmem {T}.
Arguments falloc {T}.

Section Tables.
Context `{PTE} {P T V : Type} `{Address P, AddressX64 P, FrameAllocatorFor T P, Address V}.

(** [table[index]]: the address of the entry. *)
Definition table_index (table idx : Z) : M (PagingState T) Z :=
  if idx <? entry_count then ret (table + entry_bytes * idx) else panic OutOfRange.

Definition read_entry (entry : Z) : M (PagingState T) Z := gets (fun s => entry_load (kmem s) entry).
Definition write_entry (entry bits : Z) : M (PagingState T) unit :=
  modify (fun s => mk_paging (entry_store (kmem s) entry bits) (falloc s)).

(** [PageTableWith::zero] *)
Definition zero (table : Z) : M (PagingState T) unit :=
  for_each (seqZ 0 entry_count) (fun i => write_entry (table + entry_bytes * i) 0).

Definition frame_alloc_for : M (PagingState T) (option (FrameWith P)) :=
  fun s => let '(o, t) := alloc (falloc s) in Ok (o, mk_paging (kmem s) t).

(** The table below entry [idx] of [table], created if the entry is unused. *)
Definition table_or_create (linear_offset table idx : Z) : M (PagingState T) (result Z MapToError) :=
  let* entry := table_index table idx in
  let* bits := read_entry entry in
  if is_unused bits then
    let* o := frame_alloc_for in
    match o with
    | None => ret (Err FrameAllocationFailed)
    | Some frame =>
        write_entry entry (entry_set frame F_VALID) ;;
        let below := as_kernel_mut frame linear_offset in
        zero below ;;
        ret (Good below)
    end
  else
    let* frame := lift (entry_frame bits) in
    ret (Good (as_kernel_mut frame linear_offset)).

(** The table below entry [idx] of [table], or the given error if the entry is unused. *)
Definition table_below {E} (e : E) (linear_offset table idx : Z) : M (PagingState T) (result Z E) :=
  let* entry := table_index table idx in
  let* bits := read_entry entry in
  if is_unused bits then ret (Err e)
  else
    let* frame := lift (entry_frame bits) in
    ret (Good (as_kernel_mut frame linear_offset)).

(** The ends of [map_to], [unmap] and [ref_entry], in the last table. *)
Definition map_in (table idx : Z) (frame : FrameWith P) (flags : Z) (page : PageWith V) : M (PagingState T) (result Z MapToError) :=
  let* entry := table_index table idx in
  let* bits := read_entry entry in
  if negb (is_unused bits) then ret (Err PageAlreadyMapped)
  else
    write_entry entry (entry_set frame flags) ;;
    let* flush := lift (flush_new page) in
    ret (Good flush).

Definition unmap_in (table idx : Z) (page : PageWith V) : M (PagingState T) (result (FrameWith P * Z) (UnmapError P)) :=
  let* entry := table_index table idx in
  let* bits := read_entry entry in
  if Z.land (entry_flags bits) F_VALID =? F_VALID then
    let* frame := lift (entry_frame bits) in
    write_entry entry 0 ;;
    let* flush := lift (flush_new page) in
    ret (Good (frame, flush))
  else ret (Err UnmapPageNotMapped).

End Tables.

(** ** The trait [Mapper] (paging/mapper.rs) *)

Class Mapper (T P V PT : Type) : Type := {
  map_to : PT -> PageWith V -> FrameWith P -> Z -> M (PagingState T) (result Z MapToError);
  unmap : PT -> PageWith V -> M (PagingState T) (result (FrameWith P * Z) (UnmapError P));
  ref_entry : PT -> PageWith V -> M (PagingState T) (result Z FlagUpdateError)
}.

Section Mapper.
Context `{PTE} {T P V PT : Type} `{Address P, AddressX64 P, Address V, Mapper T P V PT}.

Definition update_flags (pt : PT) (page : PageWith V) (flags : Z) : M (PagingState T) (result Z FlagUpdateError) :=
  let? entry := ref_entry pt page in
  let* bits := read_entry entry in
  let* frame := lift (entry_frame (P := P) bits) in
  write_entry entry (entry_set frame flags) ;;
  let* flush := lift (flush_new page) in
  ret (Good flush).

Definition translate_page (pt : PT) (page : PageWith V) : M (PagingState T) (option (FrameWith P)) :=
  let* r := ref_entry pt page in
  match r with
  | Good entry =>
      let* bits := read_entry entry in
      if is_unused bits then ret None
      else
        let* frame := lift (entry_frame bits) in
        ret (Some frame)
  | Err _ => ret None
  end.

Definition identity_map (pt : PT) (frame : FrameWith P) (flags : Z) : M (PagingState T) (result Z MapToError) :=
  let* x := lift (addr_as_usize (frame_addr frame)) in
  let* a := lift (addr_new x) in
  map_to pt (page_of_addr a) frame flags.

End Mapper.

(** ** Tables of two, three and four levels (paging/multi_level.rs) *)

Record Rv32PageTableWith : Type := mk_rv32 { rv32_root : Z; rv32_offset : Z }.
Record Rv39PageTableWith : Type := mk_rv39 { rv39_root : Z; rv39_offset : Z }.
Record Rv48PageTableWith : Type := mk_rv48 { rv48_root : Z; rv48_offset : Z }.

Section Levels.
Context `{BitField} {T V : Type} `{Address V}.

Section Rv32.
Context `{AddressL2 V, FrameAllocatorFor T PhysAddrSv32}.
#[local] Existing Instance PageTableEntryX32.

Definition rv32_create_p1 (pt : Rv32PageTableWith) (p2_index : Z) : M (PagingState T) (result Z MapToError) :=
  table_or_create (P := PhysAddrSv32) (rv32_offset pt) (rv32_root pt) p2_index.

Definition rv32_map_to (pt : Rv32PageTableWith) (page : PageWith V) (frame : FrameWith PhysAddrSv32) (flags : Z)
    : M (PagingState T) (result Z MapToError) :=
  let? p1_table := rv32_create_p1 pt (l2_p2_index (page_addr page)) in
  map_in p1_table (l2_p1_index (page_addr page)) frame flags page.

Definition rv32_unmap (pt : Rv32PageTableWith) (page : PageWith V)
    : M (PagingState T) (result (FrameWith PhysAddrSv32 * Z) (UnmapError PhysAddrSv32)) :=
  let? p1_table := table_below (P := PhysAddrSv32) UnmapPageNotMapped (rv32_offset pt) (rv32_root pt) (l2_p2_index (page_addr page)) in
  unmap_in p1_table (l2_p1_index (page_addr page)) page.

Definition rv32_ref_entry (pt : Rv32PageTableWith) (page : PageWith V) : M (PagingState T) (result Z FlagUpdateError) :=
  let? p1_table := table_below (P := PhysAddrSv32) FlagPageNotMapped (rv32_offset pt) (rv32_root pt) (l2_p2_index (page_addr page)) in
  let* entry := table_index p1_table (l2_p1_index (page_addr page)) in
  ret (Good entry).

#[export] Instance Rv32PageTable_Mapper : Mapper T PhysAddrSv32 V Rv32PageTableWith := {|
  map_to := rv32_map_to;
  unmap := rv32_unmap;
  ref_entry := rv32_ref_entry
|}.
End Rv32.

Section Rv39.
Context `{AddressL3 V, FrameAllocatorFor T PhysAddrSv39}.
#[local] Existing Instance PageTableEntryX64.

Definition rv39_create_p1 (pt : Rv39PageTableWith) (p3_index p2_index : Z) : M (PagingState T) (result Z MapToError) :=
  let? p2_table := table_or_create (P := PhysAddrSv39) (rv39_offset pt) (rv39_root pt) p3_index in
  table_or_create (P := PhysAddrSv39) (rv39_offset pt) p2_table p2_index.

Definition rv39_map_to (pt : Rv39PageTableWith) (page : PageWith V) (frame : FrameWith PhysAddrSv39) (flags : Z)
    : M (PagingState T) (result Z MapToError) :=
  let? p1_table := rv39_create_p1 pt (l3_p3_index (page_addr page)) (l3_p2_index (page_addr page)) in
  map_in p1_table (l3_p1_index (page_addr page)) frame flags page.

Definition rv39_unmap (pt : Rv39PageTableWith) (page : PageWith V)
    : M (PagingState T) (result (FrameWith PhysAddrSv39 * Z) (UnmapError PhysAddrSv39)) :=
  let? p2_table := table_below (P := PhysAddrSv39) UnmapPageNotMapped (rv39_offset pt) (rv39_root pt) (l3_p3_index (page_addr page)) in
  let? p1_table := table_below (P := PhysAddrSv39) UnmapPageNotMapped (rv39_offset pt) p2_table (l3_p2_index (page_addr page)) in
  unmap_in p1_table (l3_p1_index (page_addr page)) page.

Definition rv39_ref_entry (pt : Rv39PageTableWith) (page : PageWith V) : M (PagingState T) (result Z FlagUpdateError) :=
  let? p2_table := table_below (P := PhysAddrSv39) FlagPageNotMapped (rv39_offset pt) (rv39_root pt) (l3_p3_index (page_addr page)) in
  let? p1_table := table_below (P := PhysAddrSv39) FlagPageNotMapped (rv39_offset pt) p2_table (l3_p2_index (page_addr page)) in
  let* entry := table_index p1_table (l3_p1_index (page_addr page)) in
  ret (Good entry).

#[export] Instance Rv39PageTable_Mapper : Mapper T PhysAddrSv39 V Rv39PageTableWith := {|
  map_to := rv39_map_to;
  unmap := rv39_unmap;
  ref_entry := rv39_ref_entry
|}.
End Rv39.

Section Rv48.
Context `{AddressL4 V, FrameAllocatorFor T PhysAddrSv48}.
#[local] Existing Instance PageTableEntryX64.

Definition rv48_create_p1 (pt : Rv48PageTableWith) (p4_index p3_index p2_index : Z) : M (PagingState T) (result Z MapToError) :=
  let? p3_table := table_or_create (P := PhysAddrSv48) (rv48_offset pt) (rv48_root pt) p4_index in
  let? p2_table := table_or_create (P := PhysAddrSv48) (rv48_offset pt) p3_table p3_index in
  table_or_create (P := PhysAddrSv48) (rv48_offset pt) p2_table p2_index.

Definition rv48_map_to (pt : Rv48PageTableWith) (page : PageWith V) (frame : FrameWith PhysAddrSv48) (flags : Z)
    : M (PagingState T) (result Z MapToError) :=
  let? p1_table := rv48_create_p1 pt (l4_p4_index (page_addr page)) (l4_p3_index (page_addr page)) (l4_p2_index (page_addr page)) in
  map_in p1_table (l4_p1_index (page_addr page)) frame flags page.

Definition rv48_unmap (pt : Rv48PageTableWith) (page : PageWith V)
    : M (PagingState T) (result (FrameWith PhysAddrSv48 * Z) (UnmapError PhysAddrSv48)) :=
  let? p3_table := table_below (P := PhysAddrSv48) UnmapPageNotMapped (rv48_offset pt) (rv48_root pt) (l4_p4_index (page_addr page)) in
  let? p2_table := table_below (P := PhysAddrSv48) UnmapPageNotMapped (rv48_offset pt) p3_table (l4_p3_index (page_addr page)) in
  let? p1_table := table_below (P := PhysAddrSv48) UnmapPageNotMapped (rv48_offset pt) p2_table (l4_p2_index (page_addr page)) in
  unmap_in p1_table (l4_p1_index (page_addr page)) page.

Definition rv48_ref_entry (pt : Rv48PageTableWith) (page : PageWith V) : M (PagingState T) (result Z FlagUpdateError) :=
  let? p3_table := table_below (P := PhysAddrSv48) FlagPageNotMapped (rv48_offset pt) (rv48_root pt) (l4_p4_index (page_addr page)) in
  let? p2_table := table_below (P := PhysAddrSv48) FlagPageNotMapped (rv48_offset pt) p3_table (l4_p3_index (page_addr page)) in
  let? p1_table := table_below (P := PhysAddrSv48) FlagPageNotMapped (rv48_offset pt) p2_table (l4_p2_index (page_addr page)) in
  let* entry := table_index p1_table (l4_p1_index (page_addr page)) in
  ret (Good entry).

#[export] Instance Rv48PageTable_Mapper : Mapper T PhysAddrSv48 V Rv48PageTableWith := {|
  map_to := rv48_map_to;
  unmap := rv48_unmap;
  ref_entry := rv48_ref_entry
|}.
End Rv48.

End Levels.
