(* ===== verification/RiscvPagingSpec.v ===== *)
(** * What the page tables of the riscv crate promise

    [map_to], [unmap] and [ref_entry] of the two-, three- and four-level tables implement
    one interface: insertion into, deletion from and access to a finite map from pages to
    entries.  They are proved once, for a tree of any depth, and the three table types are
    instances. *)

From S2P Require Import Prelude Config Address PhysMem RiscvAddr RiscvAddrSpec RiscvPaging.

(** ** Interfaces *)

(** Reading and writing entries. *)
Class PTESpec `{PTE} : Prop := {
  entry_table : entry_bytes * entry_count = PAGE_SIZE;
  entry_bytes_pos : 0 < entry_bytes;
  entry_load_store m a v : 0 <= v < 2 ^ (8 * entry_bytes) -> entry_load (entry_store m a v) a = v;
  entry_load_ext m m' a : (forall x, a <= x < a + entry_bytes -> m' x = m x) -> entry_load m' a = entry_load m a;
  entry_store_out m a v x : ~ (a <= x < a + entry_bytes) -> entry_store m a v x = m x;
  entry_cast_small v : 0 <= v < 2 ^ (8 * entry_bytes) -> entry_cast v = v
}.

(** Physical addresses of [width] bits: the frame with a given number. *)
Class PhysAddrSpec (P : Type) `{Address P, AddressX64 P} (width : Z) : Type := {
  frame_no : Z -> FrameWith P;
  width_range : 12 < width <= 56;
  frame_no_new n : 0 <= n < 2 ^ (width - 12) -> exists a, new_u64 (n <<% 12) = Ok a /\ frame_of_addr a = frame_no n;
  frame_no_number n : 0 <= n < 2 ^ (width - 12) -> frame_number (frame_no n) = n;
  frame_no_addr n : 0 <= n < 2 ^ (width - 12) -> as_u64 (frame_addr (frame_no n)) = n * PAGE_SIZE
}.

(** An allocator hands out each of its frames once. *)
Class FrameAllocatorForSpec (T P : Type) (width : Z) `{PhysAddrSpec P width, FrameAllocatorFor T P} : Type := {
  available : T -> gset Z;
  available_frames t n : n ∈ available t -> 0 <= n < 2 ^ (width - 12);
  alloc_spec t : match alloc t with
    | (Some f, t') => exists n, f = frame_no n /\ n ∈ available t /\ available t' = available t ∖ {[n]}
    | (None, t') => t' = t /\ available t = ∅
    end
}.

Lemma load32_store32_eq m a v : 0 <= v < 2 ^ 32 -> load32 (store32 m a v) a = v.
Proof.
  intros Hv. unfold load32, store32. repeat (case_span; [|lia]). rewrite !Z.add_simpl_l, Z.sub_diag.
  rewrite <-(Z.mod_small v (2 ^ 32)) at 5 by done.
  join_at v 0 0 8 H0. join_at v 1 8 16 H1. join_at v 2 16 24 H2. join_at v 3 24 32 H3.
  change (v mod 2 ^ 0) with (v mod 1) in H0. rewrite Z.mod_1_r in H0. lia.
Qed.

Lemma PageTableEntryX32_spec : @PTESpec PageTableEntryX32.
Proof.
  split; cbn; [done|done| | | |apply wrap32_small].
  - apply load32_store32_eq.
  - intros m m' a Hm. unfold load32. by rewrite !Hm by lia.
  - intros m a v x Hx. by apply store32_out.
Qed.

Lemma PageTableEntryX64_spec : @PTESpec PageTableEntryX64.
Proof.
  split; cbn; [done|done| | | |apply wrap64_small].
  - apply load64_store64_eq.
  - intros m m' a Hm. unfold load64. by rewrite !Hm by lia.
  - intros m a v x Hx. by apply store64_out.
Qed.

Section PhysSpecs.
Context `{BitFieldSpec}.

(** [align_4k] of a multiple of the page size. *)
Lemma align_4k_page n : 0 <= n < 2 ^ 44 -> align_4k (n * PAGE_SIZE) = n * PAGE_SIZE.
Proof.
  intros Hn. unfold align_4k, PAGE_SIZE. rewrite shiftr_div by done. change (2 ^ 12) with 4096. rewrite Z.div_mul by done.
  rewrite (shl_small n 12 44) by lia. done.
Qed.

Lemma page_bits n w : 0 <= n < 2 ^ w -> 0 < w <= 44 -> get_bits (n * PAGE_SIZE) 12 (w + 12) = n.
Proof.
  intros Hn Hw. assert (Hle : 2 ^ w <= 2 ^ 44) by (apply Z.pow_le_mono_r; lia).
  rewrite (get_field _ _ _ w) by (unfold is_usize, PAGE_SIZE; lia). unfold PAGE_SIZE. change (2 ^ 12) with 4096. rewrite Z.div_mul by done. by apply Z.mod_small.
Qed.

#[export] Program Instance PhysAddrSv32_spec : PhysAddrSpec PhysAddrSv32 34 := {| frame_no n := mk_frame (mk_PhysAddrSv32 (n * PAGE_SIZE)) |}.
Next Obligation. done. Qed.
Next Obligation.
  intros n Hn. change (34 - 12) with 22 in Hn. exists (mk_PhysAddrSv32 (n * PAGE_SIZE)). rewrite (shl_small n 12 22) by lia. change (2 ^ 12) with PAGE_SIZE. cbn [new_u64 PhysAddrSv32_X64].
  rewrite high_bits_zero by (unfold PAGE_SIZE; lia). split; [done|]. unfold frame_of_addr. cbn. by rewrite align_4k_page by lia.
Qed.
Next Obligation. intros n Hn. change (34 - 12) with 22 in Hn. apply (page_bits n 22); lia. Qed.
Next Obligation. done. Qed.

#[export] Program Instance PhysAddrSv39_spec : PhysAddrSpec PhysAddrSv39 56 := {| frame_no n := mk_frame (mk_PhysAddrSv39 (n * PAGE_SIZE)) |}.
Next Obligation. done. Qed.
Next Obligation.
  intros n Hn. change (56 - 12) with 44 in Hn. exists (mk_PhysAddrSv39 (n * PAGE_SIZE)). rewrite (shl_small n 12 44) by lia. change (2 ^ 12) with PAGE_SIZE. cbn [new_u64 PhysAddrSv39_X64].
  rewrite high_bits_zero by (unfold PAGE_SIZE; lia). split; [done|]. unfold frame_of_addr. cbn. by rewrite align_4k_page by lia.
Qed.
Next Obligation. intros n Hn. change (56 - 12) with 44 in Hn. apply (page_bits n 44); lia. Qed.
Next Obligation. done. Qed.

#[export] Program Instance PhysAddrSv48_spec : PhysAddrSpec PhysAddrSv48 56 := {| frame_no n := mk_frame (mk_PhysAddrSv48 (n * PAGE_SIZE)) |}.
Next Obligation. done. Qed.
Next Obligation.
  intros n Hn. change (56 - 12) with 44 in Hn. exists (mk_PhysAddrSv48 (n * PAGE_SIZE)). rewrite (shl_small n 12 44) by lia. change (2 ^ 12) with PAGE_SIZE. cbn [new_u64 PhysAddrSv48_X64].
  rewrite high_bits_zero by (unfold PAGE_SIZE; lia). split; [done|]. unfold frame_of_addr. cbn. by rewrite align_4k_page by lia.
Qed.
Next Obligation. intros n Hn. change (56 - 12) with 44 in Hn. apply (page_bits n 44); lia. Qed.
Next Obligation. done. Qed.

End PhysSpecs.

(** ** Values of entries *)

(** The entry for frame [n]. *)
Definition entry_for (n flags : Z) : Z := n * 2 ^ 10 + Z.lor flags (Z.lor F_ACCESSED F_DIRTY).

Lemma entry_flags_range flags : 0 <= flags < 2 ^ 10 -> 0 < Z.lor flags (Z.lor F_ACCESSED F_DIRTY) < 2 ^ 10.
Proof.
  intros Hf. change (Z.lor F_ACCESSED F_DIRTY) with 192. assert (Hnn : 0 <= Z.lor flags 192) by (apply Z.lor_nonneg; lia).
  assert (Hne : Z.lor flags 192 <> 0) by (intros [_ ?]%Z.lor_eq_0_iff; done). split; [lia|].
  apply Z.log2_lt_pow2; [lia|]. rewrite Z.log2_lor by lia. apply Z.max_lub_lt; [|done].
  destruct (decide (flags = 0)) as [->|]; [done|]. apply Z.log2_lt_pow2; lia.
Qed.

Lemma entry_for_ppn n flags : 0 <= flags < 2 ^ 10 -> entry_ppn (entry_for n flags) = n.
Proof.
  intros Hf. unfold entry_ppn, entry_for. rewrite shiftr_div by done. pose proof (entry_flags_range flags Hf).
  rewrite Z.div_add_l by done. rewrite Z.div_small by lia. lia.
Qed.

Lemma entry_for_bit0 n flags : 0 <= flags < 2 ^ 10 -> Z.testbit (entry_for n flags) 0 = Z.testbit flags 0.
Proof.
  intros Hf. unfold entry_for. rewrite Z.bit0_odd, Z.odd_add, Z.odd_mul. change (Z.odd (2 ^ 10)) with false. rewrite andb_false_r, xorb_false_l.
  rewrite <-Z.bit0_odd, Z.lor_spec. change (Z.testbit (Z.lor F_ACCESSED F_DIRTY) 0) with false. by rewrite orb_false_r.
Qed.

Lemma entry_valid e : (Z.land (entry_flags e) F_VALID =? F_VALID) = Z.testbit e 0.
Proof.
  unfold entry_flags. rewrite <-Z.land_assoc. change (Z.land F_ALL F_VALID) with (Z.ones 1). rewrite Z.land_ones by done.
  rewrite Z.bit0_odd, Zmod_odd. change (flag_bits F_VALID) with 1. by destruct (Z.odd e).
Qed.

(** [m?] *)
Lemma wp_try {S A B E} (m : M S (result A E)) (k : A -> M S (result B E)) (Q : result B E -> S -> Prop) s :
  wp m (fun r s' => match r with Good a => wp (k a) Q s' | Err e => Q (Err e) s' end) s -> wp (try_bind m k) Q s.
Proof. intros Hm. apply wp_bind. eapply wp_mono; [|done]. by intros [a|e] s' HQ; [|apply wp_ret]. Qed.

(** ** Trees of tables *)

Section Tree.
Context `{PTESpec} {P T : Type} {width : Z} `{FrameAllocatorForSpec T P width}.
Context (off : Z) (Hoff : 0 <= off) (Hwrap : off + 2 ^ width <= 2 ^ 64) (Hfit : width - 2 <= 8 * entry_bytes).
Implicit Types (m : mem) (s : PagingState T).

(** Where the kernel finds the frame [n], and entry [i] of a table. *)
Definition ptr (n : Z) : Z := n * PAGE_SIZE + off.
Definition slot (table i : Z) : Z := table + entry_bytes * i.
Definition slot_load m (table i : Z) : Z := entry_load m (slot table i).

Definition is_no (n : Z) : Prop := 0 <= n < 2 ^ (width - 12).
Definition is_idx (i : Z) : Prop := 0 <= i < entry_count.

(** The table reached from [table] along used entries. *)
Fixpoint walk m (table : Z) (path : list Z) : option Z :=
  match path with
  | [] => Some table
  | i :: rest =>
      let e := slot_load m table i in
      if is_unused e then None else walk m (ptr (entry_ppn e)) rest
  end.

Definition in_tree (d : nat) (path : list Z) : Prop := (length path <= d)%nat /\ Forall is_idx path.

(** Two tables are the same or do not overlap. *)
Definition apart (p q : Z) : Prop := p + PAGE_SIZE <= q \/ q + PAGE_SIZE <= p.

(** A tree with [d] levels above the last: its tables are among [ts], each is reached by
    one path, and the used entries name frames; those above the last level are valid. *)
Record tree_wf m (root : Z) (d : nat) (ts : list Z) : Prop := {
  tw_apart p q : p ∈ ts -> q ∈ ts -> p = q \/ apart p q;
  tw_owned path p : in_tree d path -> walk m root path = Some p -> p ∈ ts;
  tw_inj path1 path2 p : in_tree d path1 -> in_tree d path2 ->
    walk m root path1 = Some p -> walk m root path2 = Some p -> path1 = path2;
  tw_entry path p i : in_tree d path -> walk m root path = Some p -> is_idx i -> is_no (entry_ppn (slot_load m p i));
  tw_valid path p i : in_tree d (path ++ [i]) -> walk m root path = Some p ->
    slot_load m p i <> 0 -> Z.testbit (slot_load m p i) 0 = true
}.

(** The finite map that the tree stands for: the entry of a page, 0 if there is none. *)
Definition view m (root : Z) (path : list Z) (i : Z) : Z :=
  match walk m root path with
  | Some p => slot_load m p i
  | None => 0
  end.

Lemma in_tree_app d path1 path2 : in_tree d (path1 ++ path2) -> in_tree d path1.
Proof. clear Hoff Hwrap Hfit. intros [Hl Hf]. rewrite length_app in Hl. apply Forall_app in Hf as [? _]. split; [lia|done]. Qed.

Lemma in_tree_idx d path1 i path2 : in_tree d (path1 ++ i :: path2) -> is_idx i.
Proof. intros [_ Hf]. by apply Forall_app in Hf as [_ [? _]%Forall_cons]. Qed.

Lemma tree_walk_app m p path1 path2 : walk m p (path1 ++ path2) = walk m p path1 ≫= fun q => walk m q path2.
Proof. revert p. induction path1 as [|i path1 IH]; intros p; [done|]; cbn [app walk]. by destruct (is_unused _). Qed.

Lemma tree_walk_ext m m' p path :
  (forall path1 i path2 q, path = path1 ++ i :: path2 -> walk m p path1 = Some q -> slot_load m' q i = slot_load m q i) ->
  walk m' p path = walk m p path.
Proof.
  revert p. induction path as [|i path IH]; intros p Hext; [done|]; cbn [walk]. rewrite (Hext [] i path p) by done.
  destruct (is_unused (slot_load m p i)) eqn:E; [done|]. apply IH. intros path1 j path2 q -> Hw. apply (Hext (i :: path1) j path2); [done|]. cbn [walk]. by rewrite E.
Qed.

Lemma slot_bounds p i : is_idx i -> p <= slot p i /\ slot p i + entry_bytes <= p + PAGE_SIZE.
Proof. intros [? ?]. unfold slot. pose proof entry_table. pose proof entry_bytes_pos. nia. Qed.

Lemma slot_apart p i q j : is_idx i -> is_idx j -> p = q \/ apart p q -> (p, i) <> (q, j) ->
  slot p i + entry_bytes <= slot q j \/ slot q j + entry_bytes <= slot p i.
Proof.
  intros Hi Hj Ha Hne. pose proof (slot_bounds p i Hi). pose proof (slot_bounds q j Hj). pose proof entry_bytes_pos.
  destruct Ha as [->|[?|?]]; [|lia..]. assert (i <> j) by congruence. unfold slot. nia.
Qed.

Lemma slot_load_store_ne m p i q j v : is_idx i -> is_idx j -> p = q \/ apart p q -> (p, i) <> (q, j) ->
  slot_load (entry_store m (slot p i) v) q j = slot_load m q j.
Proof.
  intros Hi Hj Ha Hne. apply entry_load_ext. intros x Hx. apply entry_store_out. destruct (slot_apart p i q j Hi Hj Ha Hne); lia.
Qed.

Lemma slot_load_ext m m' q j : is_idx j -> (forall x, q <= x < q + PAGE_SIZE -> m' x = m x) -> slot_load m' q j = slot_load m q j.
Proof. intros Hj Hm. apply entry_load_ext. intros x Hx. apply Hm. pose proof (slot_bounds q j Hj). lia. Qed.

Lemma ptr_apart n n' : n <> n' -> apart (ptr n) (ptr n').
Proof. unfold apart, ptr, PAGE_SIZE. lia. Qed.

(** ** Entries *)

Lemma entry_for_bound n flags : is_no n -> 0 <= flags < 2 ^ 10 -> 0 < entry_for n flags < 2 ^ (8 * entry_bytes).
Proof.
  intros [Hn1 Hn2] Hf. pose proof (entry_flags_range flags Hf) as Hr. unfold entry_for. split; [lia|].
  apply Z.lt_le_trans with (2 ^ (width - 2)); [|apply Z.pow_le_mono_r; [done|exact Hfit]].
  replace (width - 2) with ((width - 12) + 10) by lia. pose proof width_range. rewrite Z.pow_add_r by lia. nia.
Qed.

Lemma entry_set_for n flags : is_no n -> 0 <= flags < 2 ^ 10 -> entry_set (frame_no n) flags = entry_for n flags.
Proof.
  intros Hn Hf. pose proof (entry_for_bound n flags Hn Hf) as Hb. unfold entry_set. rewrite frame_no_number by done.
  pose proof width_range. assert (Hle : 2 ^ (width - 12) <= 2 ^ 44) by (apply Z.pow_le_mono_r; lia). unfold is_no in Hn.
  rewrite (shl_small n 10 44) by lia. pose proof (entry_flags_range flags Hf).
  rewrite lor_add_disjoint by lia. apply entry_cast_small. fold (entry_for n flags). lia.
Qed.

(** [frame] of an entry that names a frame. *)
Lemma entry_frame_no e : is_no (entry_ppn e) -> entry_frame e = Ok (frame_no (entry_ppn e)).
Proof. intros Hn. destruct (frame_no_new _ Hn) as (a & Ha & Hf). unfold entry_frame, entry_addr. rewrite Ha. cbn [obind]. by rewrite Hf. Qed.

Lemma as_kernel_no n : is_no n -> as_kernel_mut (frame_no n) off = ptr n.
Proof.
  intros Hn. unfold as_kernel_mut. rewrite frame_no_addr by done. unfold is_no in Hn. pose proof width_range. apply wrap64_small.
  assert (2 ^ width = 2 ^ (width - 12) * 2 ^ 12) by (rewrite <-Z.pow_add_r by lia; f_equal; lia). unfold ptr, PAGE_SIZE. lia.
Qed.

(** ** Running on a tree *)

Record paging_ok s (root : Z) (d : nat) (ts : list Z) : Prop := {
  po_tree : tree_wf (kmem s) root d ts;
  po_free n p : n ∈ available (falloc s) -> p ∈ ts -> apart (ptr n) p
}.

(** From [s] to [s'] the tree may have got tables that were free frames, and nothing but
    its tables was written. *)
Record grows s (ts : list Z) s' (ts' : list Z) : Prop := {
  gr_avail : available (falloc s') ⊆ available (falloc s);
  gr_old : ts ⊆ ts';
  gr_new p : p ∈ ts' -> p ∈ ts \/ exists n, p = ptr n /\ n ∈ available (falloc s) ∖ available (falloc s');
  gr_mem x : (forall p, p ∈ ts' -> ~ (p <= x < p + PAGE_SIZE)) -> kmem s' x = kmem s x
}.

(** The tree stands for the same map. *)
Definition same_view m m' (root : Z) (d : nat) : Prop :=
  forall path i, in_tree d path -> length path = d -> is_idx i -> view m' root path i = view m root path i.

Lemma tree_grows_refl s ts : grows s ts s ts.
Proof. clear Hoff Hwrap Hfit. split; set_solver. Qed.

Lemma tree_grows_trans s1 ts1 s2 ts2 s3 ts3 : grows s1 ts1 s2 ts2 -> grows s2 ts2 s3 ts3 -> grows s1 ts1 s3 ts3.
Proof.
  clear Hoff Hwrap Hfit. intros [A1 O1 N1 M1] [A2 O2 N2 M2]. split; [set_solver..| |].
  - intros p Hp. destruct (N2 p Hp) as [Hp1|(n & -> & Hn)]; [destruct (N1 p Hp1) as [?|(n & -> & Hn)]; [by left|]|]; right; exists n; (split; [done|set_solver]).
  - intros x Hx. rewrite M2 by done. apply M1. intros p Hp. apply Hx. set_solver.
Qed.

Lemma wp_table_index table i (Q : Z -> PagingState T -> Prop) s : is_idx i -> Q (slot table i) s -> wp (table_index table i) Q s.
Proof. intros [_ Hi] HQ. unfold table_index. by destruct (Z.ltb_spec i entry_count); [apply wp_ret|lia]. Qed.

Lemma entry_count_pos : 0 < entry_count.
Proof. pose proof entry_table. pose proof entry_bytes_pos. unfold PAGE_SIZE in *. nia. Qed.

Lemma wp_zero table s : wp (zero table) (fun _ s' => falloc s' = falloc s /\ (forall i, is_idx i -> slot_load (kmem s') table i = 0) /\
  (forall x, ~ (table <= x < table + PAGE_SIZE) -> kmem s' x = kmem s x)) s.
Proof.
  set (I := fun (l : list Z) (_ : unit) s' => falloc s' = falloc s /\ (forall i, i ∈ l -> slot_load (kmem s') table i = 0) /\
    (forall x, ~ (table <= x < table + PAGE_SIZE) -> kmem s' x = kmem s x)).
  eapply wp_mono; [|apply (wp_foldM _ I)].
  - intros [] s' (Hf & Hz & Hm). split; [done|]. split; [|done]. intros i Hi. apply Hz, elem_of_seqZ. unfold is_idx in Hi. lia.
  - split; [done|]. split; [set_solver|done].
  - intros done i rest [] s' Hl (Hf & Hz & Hm). assert (Hin : forall j, j ∈ done ++ [i] -> is_idx j).
    { intros j Hj. assert (Hj' : j ∈ seqZ 0 entry_count) by (rewrite Hl; set_solver). apply elem_of_seqZ in Hj'. unfold is_idx. lia. }
    apply wp_modify. unfold I. cbn [kmem falloc]. fold (slot table i). assert (Hii : is_idx i) by set_solver. split; [done|]. split.
    + intros j Hj. destruct (decide (j = i)) as [->|]; [apply entry_load_store; pose proof entry_bytes_pos; lia|].
      rewrite slot_load_store_ne by (auto || congruence). apply Hz. set_solver.
    + intros x Hx. rewrite entry_store_out; [by apply Hm|]. pose proof (slot_bounds table i Hii). lia.
Qed.

(** Only the last tables changed: the tree has the same paths. *)
Lemma walk_upper m m' root d path :
  (forall path1 q i, in_tree d (path1 ++ [i]) -> walk m root path1 = Some q -> slot_load m' q i = slot_load m q i) ->
  in_tree d path -> walk m' root path = walk m root path.
Proof.
  intros Hsame Hin. apply tree_walk_ext. intros path1 i path2 q -> Hq. apply (Hsame path1 q i); [|done].
  apply (in_tree_app _ _ path2). by rewrite <-app_assoc.
Qed.

(** Writing an entry of a last table. *)
Lemma leaf_store m root d ts path i p e :
  tree_wf m root d ts -> in_tree d path -> length path = d -> is_idx i -> walk m root path = Some p ->
  0 <= e < 2 ^ (8 * entry_bytes) -> is_no (entry_ppn e) ->
  let m' := entry_store m (slot p i) e in
  tree_wf m' root d ts /\
  (forall path' j, in_tree d path' -> length path' = d -> is_idx j ->
    view m' root path' j = if decide (path' = path /\ j = i) then e else view m root path' j).
Proof.
  intros [Ha Ho Hj He Hv] Hin Hd Hi Hp Hb Hn m'.
  assert (Hne : forall path1 q j, in_tree d path1 -> walk m root path1 = Some q -> is_idx j -> (path1, j) <> (path, i) -> slot_load m' q j = slot_load m q j).
  { intros path1 q j Hin1 Hq Hjj Hd1. apply slot_load_store_ne; [done|done|by apply Ha; [apply (Ho path)|apply (Ho path1)]|].
    intros [= <- <-]. apply Hd1. f_equal. by apply (Hj path1 path p). }
  assert (Hup : forall path1 q j, in_tree d (path1 ++ [j]) -> walk m root path1 = Some q -> slot_load m' q j = slot_load m q j).
  { intros path1 q j Hin1 Hq. apply (Hne path1); [by eapply in_tree_app|done|by eapply in_tree_idx|].
    intros [= -> _]. destruct Hin1 as [Hlen _]. rewrite length_app in Hlen. cbn in Hlen. lia. }
  assert (Hw : forall path1, in_tree d path1 -> walk m' root path1 = walk m root path1) by (intros; by eapply walk_upper).
  assert (Hnew : slot_load m' p i = e) by (by apply entry_load_store).
  split; [split|].
  - done.
  - intros path1 q Hin1. rewrite Hw by done. by apply Ho.
  - intros path1 path2 q Hin1 Hin2. rewrite !Hw by done. by apply Hj.
  - intros path1 q j Hin1. rewrite Hw by done. intros Hq Hjj. destruct (decide ((path1, j) = (path, i))) as [[= -> ->]|Hd1].
    + assert (q = p) as -> by congruence. by rewrite Hnew.
    + rewrite (Hne path1) by done. by apply (He path1).
  - intros path1 q j Hin1. rewrite Hw by (by eapply in_tree_app). intros Hq. rewrite (Hup path1) by done. by apply (Hv path1).
  - intros path' j Hin' Hd' Hjj. unfold view. rewrite Hw by done. destruct (decide (path' = path /\ j = i)) as [[-> ->]|Hd1].
    + by rewrite Hp.
    + destruct (walk m root path') as [q|] eqn:Hq; [|done]. apply (Hne path'); [done..|]. intros [= -> ->]. by apply Hd1.
Qed.

(** Linking the empty table of frame [n] at entry [i] of the table at [path]. *)
Section Link.
Context (m m' : mem) (root : Z) (d : nat) (ts : list Z) (path : list Z) (p i n flags : Z).
Context (Hwf : tree_wf m root d ts) (Hin : in_tree d (path ++ [i])) (Hp : walk m root path = Some p).
Context (Hn : is_no n) (Hflags : 0 <= flags < 2 ^ 10) (Hbit : Z.testbit flags 0 = true).
Context (Hfree : forall q, q ∈ ts -> apart (ptr n) q).
Context (Hunused : slot_load m p i = 0) (Hset : slot_load m' p i = entry_for n flags).
Context (Hzero : forall j, is_idx j -> slot_load m' (ptr n) j = 0).
Context (Hkeep : forall q j, q ∈ ts -> is_idx j -> (q, j) <> (p, i) -> slot_load m' q j = slot_load m q j).

Lemma link_tree_path : in_tree d path.
Proof. by eapply in_tree_app. Qed.

Lemma link_below m0 rest : walk m0 root path = Some p -> walk m0 root (path ++ i :: rest) = walk m0 p (i :: rest).
Proof. intros Hp0. by rewrite tree_walk_app, Hp0. Qed.

Lemma link_walk_ne path' : in_tree d path' -> (forall rest, path' <> path ++ i :: rest) -> walk m' root path' = walk m root path'.
Proof.
  intros Hin' Hne. apply tree_walk_ext. intros path1 j path2 q -> Hq. assert (Hin1 : in_tree d path1) by (by eapply in_tree_app).
  apply Hkeep; [by apply (tw_owned _ _ _ _ Hwf path1)|by eapply in_tree_idx|]. intros [= -> ->].
  apply (Hne path2). f_equal. by apply (tw_inj _ _ _ _ Hwf path1 path p); [|apply link_tree_path|..].
Qed.

Lemma link_walk path' : in_tree d path' ->
  walk m' root path' = if decide (path' = path ++ [i]) then Some (ptr n) else walk m root path'.
Proof.
  intros Hin'. assert (Hp' : walk m' root path = Some p).
  { rewrite link_walk_ne; [done|apply link_tree_path|]. intros rest Hr%(f_equal length). rewrite length_app in Hr. cbn in Hr. lia. }
  destruct (decide ((path ++ [i]) `prefix_of` path')) as [[rest Hr]|Hne].
  - rewrite <-app_assoc in Hr. cbn in Hr. subst path'. rewrite !link_below by done. cbn [walk]. rewrite Hset, Hunused. cbn.
    assert (Hu : is_unused (entry_for n flags) = false) by (pose proof (entry_for_bound n flags Hn Hflags); apply Z.eqb_neq; lia).
    rewrite Hu, entry_for_ppn by done. destruct rest as [|j rest]; [by rewrite decide_True|].
    rewrite decide_False by (intros [= Hj]%(inj (app path))). cbn [walk]. rewrite Hzero; [done|].
    apply (in_tree_idx d (path ++ [i]) j rest). by rewrite <-app_assoc.
  - rewrite link_walk_ne by (done || (intros rest ->; apply Hne; exists rest; by rewrite <-app_assoc)).
    rewrite decide_False; [done|]. by intros ->.
Qed.

Lemma link_old path' q : in_tree d path' -> walk m root path' = Some q -> q <> ptr n.
Proof.
  intros Hin' Hq ->. pose proof (Hfree (ptr n) (tw_owned _ _ _ _ Hwf _ _ Hin' Hq)) as [?|?]; unfold PAGE_SIZE in *; lia.
Qed.

Lemma link_wf : tree_wf m' root d (ptr n :: ts).
Proof.
  assert (Hw : forall path' q, in_tree d path' -> walk m' root path' = Some q ->
    (path' = path ++ [i] /\ q = ptr n) \/ (walk m root path' = Some q /\ q ∈ ts)).
  { intros path' q Hin'. rewrite link_walk by done. case_decide; [by intros [= <-]; left|]. intros Hq. right. split; [done|]. by apply (tw_owned _ _ _ _ Hwf path'). }
  split.
  - intros q r [->|Hq]%elem_of_cons [->|Hr]%elem_of_cons; [by left|by right; apply Hfree|right|by apply (tw_apart _ _ _ _ Hwf)]. destruct (Hfree q Hq); [by right|by left].
  - intros path' q Hin' Hq. destruct (Hw _ _ Hin' Hq) as [[_ ->]|[_ ?]]; set_solver.
  - intros path1 path2 q Hin1 Hin2 Hq1 Hq2. destruct (Hw _ _ Hin1 Hq1) as [[-> ->]|[Hw1 _]], (Hw _ _ Hin2 Hq2) as [[-> Hq]|[Hw2 _]]; subst.
    + done.
    + by destruct (link_old _ _ Hin2 Hw2).
    + by destruct (link_old _ _ Hin1 Hw1).
    + by apply (tw_inj _ _ _ _ Hwf path1 path2 q).
  - intros path' q j Hin' Hq Hj. destruct (Hw _ _ Hin' Hq) as [[-> ->]|[Hw' Hts]].
    + rewrite Hzero by done. unfold is_no, entry_ppn. cbn. split; [done|]. apply Z.pow_pos_nonneg; [done|]. pose proof width_range. lia.
    + destruct (decide ((q, j) = (p, i))) as [[= -> ->]|Hne]; [by rewrite Hset, entry_for_ppn|].
      rewrite Hkeep by done. by apply (tw_entry _ _ _ _ Hwf path').
  - intros path' q j Hin' Hq. destruct (Hw _ _ (in_tree_app _ _ _ Hin') Hq) as [[-> ->]|[Hw' Hts]].
    + intros Hj. destruct Hj. apply Hzero. by eapply in_tree_idx.
    + destruct (decide ((q, j) = (p, i))) as [[= -> ->]|Hne]; [by rewrite Hset, entry_for_bit0|].
      rewrite Hkeep by (done || by eapply in_tree_idx). by apply (tw_valid _ _ _ _ Hwf path').
Qed.

Lemma link_view : same_view m m' root d.
Proof.
  intros path' j Hin' Hd Hj. unfold view. rewrite link_walk by done. case_decide as Hpath.
  - subst path'. rewrite Hzero, link_below by done. cbn [walk]. by rewrite Hunused.
  - destruct (walk m root path') as [q|] eqn:Hq; [|done]. apply Hkeep; [by apply (tw_owned _ _ _ _ Hwf path')|done|].
    intros [= -> ->]. assert (path' = path) as -> by (by apply (tw_inj _ _ _ _ Hwf _ _ p); [|apply link_tree_path|..]).
    destruct Hin as [Hlen _]. rewrite length_app in Hlen. cbn in Hlen. lia.
Qed.

End Link.

Lemma link_ok s s' root d ts path p i n :
  paging_ok s root d ts -> in_tree d (path ++ [i]) -> walk (kmem s) root path = Some p -> slot_load (kmem s) p i = 0 ->
  n ∈ available (falloc s) -> available (falloc s') = available (falloc s) ∖ {[n]} ->
  (forall j, is_idx j -> slot_load (kmem s') (ptr n) j = 0) ->
  (forall x, ~ (ptr n <= x < ptr n + PAGE_SIZE) -> kmem s' x = entry_store (kmem s) (slot p i) (entry_for n F_VALID) x) ->
  paging_ok s' root d (ptr n :: ts) /\ grows s ts s' (ptr n :: ts) /\ same_view (kmem s) (kmem s') root d /\
  walk (kmem s') root (path ++ [i]) = Some (ptr n).
Proof.
  intros [Hwf Hfree] Hin Hp Hu Hn Ht Hz Hm. assert (Hno : is_no n) by (by eapply available_frames).
  assert (Hi : is_idx i) by (by eapply in_tree_idx). assert (Hpts : p ∈ ts) by (by eapply tw_owned; [|eapply in_tree_app|]).
  assert (Hfar : forall q j, q ∈ ts -> is_idx j -> slot_load (kmem s') q j = slot_load (entry_store (kmem s) (slot p i) (entry_for n F_VALID)) q j).
  { intros q j Hq Hj. apply slot_load_ext; [done|]. intros x Hx. apply Hm. destruct (Hfree n q Hn Hq); lia. }
  assert (Hset : slot_load (kmem s') p i = entry_for n F_VALID).
  { rewrite Hfar by done. apply entry_load_store. pose proof (entry_for_bound n F_VALID Hno). assert (0 <= F_VALID < 2 ^ 10) by done. lia. }
  assert (Hkeep : forall q j, q ∈ ts -> is_idx j -> (q, j) <> (p, i) -> slot_load (kmem s') q j = slot_load (kmem s) q j).
  { intros q j Hq Hj Hne. rewrite Hfar by done. apply slot_load_store_ne; [done..|by apply (tw_apart _ _ _ _ Hwf)|congruence]. }
  assert (Hfl : 0 <= F_VALID < 2 ^ 10) by done.
  split; [split|split; [split|split]].
  - by eapply link_wf; eauto.
  - intros k q Hk [->|Hq]%elem_of_cons; [apply ptr_apart; set_solver|]. apply Hfree; [set_solver|done].
  - set_solver.
  - set_solver.
  - intros q [->|Hq]%elem_of_cons; [right; exists n; split; [done|set_solver]|by left].
  - intros x Hx. rewrite Hm by (apply Hx; set_solver). apply entry_store_out. pose proof (slot_bounds p i Hi). specialize (Hx p). set_solver by lia.
  - by eapply link_view; eauto.
  - erewrite link_walk; eauto. by rewrite decide_True.
Qed.

Lemma wp_table_or_create s root d ts path p i :
  paging_ok s root d ts -> in_tree d (path ++ [i]) -> walk (kmem s) root path = Some p ->
  wp (table_or_create off p i) (fun r s' => exists ts', paging_ok s' root d ts' /\ grows s ts s' ts' /\ same_view (kmem s) (kmem s') root d /\
    match r with
    | Good q => walk (kmem s') root (path ++ [i]) = Some q
    | Err e => e = FrameAllocationFailed /\ available (falloc s') = ∅ /\ walk (kmem s') root (path ++ [i]) = None
    end) s.
Proof.
  intros Hok Hin Hp. pose proof Hok as [Hwf Hfree]. assert (Hi : is_idx i) by (by eapply in_tree_idx). assert (Hpath : in_tree d path) by (by eapply in_tree_app).
  unfold table_or_create. apply wp_bind, wp_table_index; [done|]. apply wp_bind, wp_gets. fold (slot_load (kmem s) p i). cbn beta.
  destruct (is_unused (slot_load (kmem s) p i)) eqn:Hu.
  - apply Z.eqb_eq in Hu. apply wp_bind. unfold frame_alloc_for, wp at 1. pose proof (alloc_spec (falloc s)) as Ha. destruct (alloc (falloc s)) as [[f|] t].
    + destruct Ha as (n & -> & Hn & Ht). assert (Hno : is_no n) by (by eapply available_frames). apply wp_bind, wp_modify. apply wp_bind.
      eapply wp_mono; [|apply wp_zero]. cbn [kmem falloc]. intros [] s' (Hf & Hz & Hm). rewrite as_kernel_no in * by done. rewrite entry_set_for in Hm by done.
      apply wp_ret. exists (ptr n :: ts). apply link_ok with p; [done..| |done|done]. by rewrite Hf.
    + destruct Ha as [-> Hnone]. apply wp_ret. exists ts. split; [by split|]. split; [split; set_solver|]. split; [done|]. split_and!; [done..|]. cbn [kmem]. rewrite tree_walk_app, Hp. cbn. by rewrite Hu.
  - assert (Hno : is_no (entry_ppn (slot_load (kmem s) p i))) by (by eapply tw_entry).
    apply wp_bind. eapply wp_lift; [by apply entry_frame_no|]. rewrite as_kernel_no by done. apply wp_ret. exists ts. split; [done|]. split; [apply tree_grows_refl|]. split; [done|].
    rewrite tree_walk_app, Hp. cbn. by rewrite Hu.
Qed.

(** ** Walks along a whole path *)

Fixpoint create_path (table : Z) (path : list Z) : M (PagingState T) (result Z MapToError) :=
  match path with
  | [] => ret (Good table)
  | i :: rest => let? t := table_or_create off table i in create_path t rest
  end.

Fixpoint find_path {E} (e : E) (table : Z) (path : list Z) : M (PagingState T) (result Z E) :=
  match path with
  | [] => ret (Good table)
  | i :: rest => let? t := table_below e off table i in find_path e t rest
  end.

Lemma wp_create_path s root d ts path0 p path :
  paging_ok s root d ts -> in_tree d (path0 ++ path) -> walk (kmem s) root path0 = Some p ->
  wp (create_path p path) (fun r s' => exists ts', paging_ok s' root d ts' /\ grows s ts s' ts' /\ same_view (kmem s) (kmem s') root d /\
    match r with
    | Good q => walk (kmem s') root (path0 ++ path) = Some q
    | Err e => e = FrameAllocationFailed /\ available (falloc s') = ∅ /\ walk (kmem s') root (path0 ++ path) = None
    end) s.
Proof.
  revert s ts path0 p. induction path as [|i path IH]; intros s ts path0 p Hok Hin Hp; cbn [create_path].
  - apply wp_ret. exists ts. rewrite app_nil_r. split; [done|]. split; [apply tree_grows_refl|done].
  - assert (Hassoc : path0 ++ i :: path = (path0 ++ [i]) ++ path) by (by rewrite <-app_assoc). rewrite Hassoc in Hin.
    apply wp_try. eapply wp_mono; [|apply wp_table_or_create; [done|by eapply in_tree_app|done]].
    intros [q|e] s1 (ts1 & Hok1 & Hg1 & Hv1 & Hr).
    + eapply wp_mono; [|apply (IH s1 ts1 (path0 ++ [i]) q Hok1 Hin Hr)]. intros r s2 (ts2 & Hok2 & Hg2 & Hv2 & Hr2).
      exists ts2. rewrite Hassoc. split; [done|]. split; [by eapply tree_grows_trans|]. split; [|done]. intros path' j Hin' Hd Hj. by rewrite Hv2, Hv1.
    + exists ts1. destruct Hr as (-> & Ha & Hnone). split_and!; try done. by rewrite Hassoc, tree_walk_app, Hnone.
Qed.

Lemma wp_find_path {E} (e : E) s root d ts path0 p path :
  tree_wf (kmem s) root d ts -> in_tree d (path0 ++ path) -> walk (kmem s) root path0 = Some p ->
  wp (find_path e p path) (fun r s' => s' = s /\ r = match walk (kmem s) root (path0 ++ path) with Some q => Good q | None => Err e end) s.
Proof.
  intros Hwf. revert path0 p. induction path as [|i path IH]; intros path0 p Hin Hp; cbn [find_path].
  - apply wp_ret. by rewrite app_nil_r, Hp.
  - assert (Hi : is_idx i) by (by eapply in_tree_idx). apply wp_try. unfold table_below. apply wp_bind, wp_table_index; [done|].
    apply wp_bind, wp_gets. fold (slot_load (kmem s) p i). destruct (is_unused _) eqn:Hu.
    + apply wp_ret. rewrite tree_walk_app, Hp. cbn. by rewrite Hu.
    + assert (Hno : is_no (entry_ppn (slot_load (kmem s) p i))) by (by eapply tw_entry; [|eapply in_tree_app|..]).
      apply wp_bind. eapply wp_lift; [by apply entry_frame_no|]. rewrite as_kernel_no by done. apply wp_ret.
      replace (path0 ++ i :: path) with ((path0 ++ [i]) ++ path) in * by (by rewrite <-app_assoc). apply IH; [done|]. rewrite tree_walk_app, Hp. cbn. by rewrite Hu.
Qed.

(** ** The operations in the last table *)

Context {V : Type} `{Address V}.

(** The map with one entry replaced. *)
Definition view_set m m' (root : Z) (d : nat) (path : list Z) (i e : Z) : Prop :=
  forall path' j, in_tree d path' -> length path' = d -> is_idx j ->
    view m' root path' j = if decide (path' = path /\ j = i) then e else view m root path' j.

Lemma wp_write_leaf s root d ts path p i e :
  paging_ok s root d ts -> in_tree d path -> length path = d -> is_idx i -> walk (kmem s) root path = Some p ->
  0 <= e < 2 ^ (8 * entry_bytes) -> is_no (entry_ppn e) ->
  wp (write_entry (slot p i) e) (fun _ s' => paging_ok s' root d ts /\ grows s ts s' ts /\ falloc s' = falloc s /\ view_set (kmem s) (kmem s') root d path i e) s.
Proof.
  intros [Hwf Hfree] Hin Hd Hi Hp He Hn. destruct (leaf_store _ _ _ _ _ _ _ _ Hwf Hin Hd Hi Hp He Hn) as [Hwf' Hview].
  apply wp_modify. cbn [kmem falloc]. split; [by split|]. split; [|done]. split; cbn [kmem falloc]; [done|done|by left|].
  intros x Hx. apply entry_store_out. pose proof (slot_bounds p i Hi). pose proof (Hx p (tw_owned _ _ _ _ Hwf _ _ Hin Hp)). lia.
Qed.

Lemma wp_map_in s root d ts path p i n flags (page : PageWith V) f :
  paging_ok s root d ts -> in_tree d path -> length path = d -> is_idx i -> walk (kmem s) root path = Some p ->
  is_no n -> 0 <= flags < 2 ^ 10 -> flush_new page = Ok f ->
  wp (map_in p i (frame_no n) flags page) (fun r s' => paging_ok s' root d ts /\ grows s ts s' ts /\ falloc s' = falloc s /\
    if view (kmem s) root path i =? 0 then r = Good f /\ view_set (kmem s) (kmem s') root d path i (entry_for n flags)
    else r = Err PageAlreadyMapped /\ s' = s) s.
Proof.
  intros Hok Hin Hd Hi Hp Hn Hf Hfl. unfold map_in, view. rewrite Hp. apply wp_bind, wp_table_index; [done|].
  apply wp_bind, wp_gets. fold (slot_load (kmem s) p i). unfold is_unused. destruct (_ =? 0); cbn [negb].
  - apply wp_bind. rewrite entry_set_for by done. eapply wp_mono; [|apply wp_write_leaf; [done..| |by rewrite entry_for_ppn]].
    + intros [] s' (Hok' & Hg & Hfa & Hv). apply wp_bind. by apply wp_lift with f, wp_ret.
    + pose proof (entry_for_bound n flags Hn Hf). lia.
  - apply wp_ret. split; [done|]. by split; [apply tree_grows_refl|].
Qed.

Lemma wp_unmap_in s root d ts path p i (page : PageWith V) f :
  paging_ok s root d ts -> in_tree d path -> length path = d -> is_idx i -> walk (kmem s) root path = Some p -> flush_new page = Ok f ->
  let e := view (kmem s) root path i in
  wp (unmap_in p i page) (fun r s' => paging_ok s' root d ts /\ grows s ts s' ts /\ falloc s' = falloc s /\
    if Z.testbit e 0 then r = Good (frame_no (entry_ppn e), f) /\ view_set (kmem s) (kmem s') root d path i 0
    else r = Err UnmapPageNotMapped /\ s' = s) s.
Proof.
  intros Hok Hin Hd Hi Hp Hfl e. unfold e, unmap_in, view. rewrite Hp. apply wp_bind, wp_table_index; [done|].
  apply wp_bind, wp_gets. fold (slot_load (kmem s) p i). rewrite entry_valid. destruct (Z.testbit _ 0).
  - assert (Hno : is_no (entry_ppn (slot_load (kmem s) p i))) by (by eapply tw_entry; [apply Hok|..]).
    apply wp_bind. eapply wp_lift; [by apply entry_frame_no|]. apply wp_bind. eapply wp_mono; [|apply wp_write_leaf; [done..| |]].
    + intros [] s' (Hok' & Hg & Hfa & Hv). apply wp_bind. by apply wp_lift with f, wp_ret.
    + pose proof entry_bytes_pos. lia.
    + pose proof width_range. unfold is_no, entry_ppn. cbn. split; [done|]. apply Z.pow_pos_nonneg; lia.
  - apply wp_ret. split; [done|]. by split; [apply tree_grows_refl|].
Qed.

(** ** The operations of a tree *)

Section Operations.
Context (s : PagingState T) (root : Z) (d : nat) (ts path : list Z) (i : Z) (page : PageWith V) (f : Z).
Context (Hok : paging_ok s root d ts) (Hin : in_tree d path) (Hd : length path = d) (Hi : is_idx i) (Hflush : flush_new page = Ok f).

Lemma view_set_trans m1 m2 m3 e : same_view m1 m2 root d -> view_set m2 m3 root d path i e -> view_set m1 m3 root d path i e.
Proof. intros Hs Hv path' j Hin' Hd' Hj. rewrite Hv by done. by case_decide; [|apply Hs]. Qed.

Lemma wp_tree_map n flags : is_no n -> 0 <= flags < 2 ^ 10 ->
  wp (let? t := create_path root path in map_in t i (frame_no n) flags page) (fun r s' => exists ts', paging_ok s' root d ts' /\ grows s ts s' ts' /\
    match r with
    | Good f' => f' = f /\ view (kmem s) root path i = 0 /\ view_set (kmem s) (kmem s') root d path i (entry_for n flags)
    | Err PageAlreadyMapped => view (kmem s) root path i <> 0 /\ same_view (kmem s) (kmem s') root d
    | Err FrameAllocationFailed => view (kmem s) root path i = 0 /\ available (falloc s') = ∅ /\ same_view (kmem s) (kmem s') root d
    | Err ParentEntryHugePage => False
    end) s.
Proof.
  intros Hn Hf. apply wp_try. eapply wp_mono; [|by apply (wp_create_path s root d ts [] root path)].
  intros [q|e] s1 (ts1 & Hok1 & Hg1 & Hv1 & Hr); cbn [app] in Hr; pose proof (Hv1 path i Hin Hd Hi) as Hview.
  - eapply wp_mono; [|by apply (wp_map_in s1 root d ts1 path q i n flags page f)]. cbn. rewrite Hview.
    intros r s' (Hok' & Hg' & _ & Hcase). exists ts1. split; [done|]. split; [by eapply tree_grows_trans|].
    destruct (Z.eqb_spec (view (kmem s) root path i) 0) as [Hz|Hz]; destruct Hcase as [-> Hcase].
    + split_and!; [done..|]. by eapply view_set_trans.
    + by rewrite Hcase.
  - destruct Hr as (-> & Ha & Hnone). exists ts1. rewrite <-Hview. unfold view. by rewrite Hnone.
Qed.

Lemma wp_tree_unmap :
  let e := view (kmem s) root path i in
  wp (let? t := find_path UnmapPageNotMapped root path in unmap_in t i page) (fun r s' => paging_ok s' root d ts /\ grows s ts s' ts /\ falloc s' = falloc s /\
    if Z.testbit e 0 then r = Good (frame_no (entry_ppn e), f) /\ view_set (kmem s) (kmem s') root d path i 0
    else r = Err UnmapPageNotMapped /\ s' = s) s.
Proof.
  intros e. apply wp_try. eapply wp_mono; [|by apply (wp_find_path _ s root d ts [] root path); [apply Hok|..]].
  intros r s1 [-> ->]. cbn [app]. destruct (walk (kmem s) root path) as [q|] eqn:Hq; [by apply wp_unmap_in|].
  assert (e = 0) as -> by (unfold e, view; by rewrite Hq). cbn. split_and!; [done|apply tree_grows_refl|done..].
Qed.

Lemma wp_tree_ref :
  wp (let? t := find_path FlagPageNotMapped root path in let* entry := table_index t i in ret (Good entry)) (fun r s' => s' = s /\
    match r with
    | Good a => entry_load (kmem s) a = view (kmem s) root path i /\
        forall e, 0 <= e < 2 ^ (8 * entry_bytes) -> is_no (entry_ppn e) ->
          wp (write_entry a e) (fun _ s' => paging_ok s' root d ts /\ grows s ts s' ts /\ falloc s' = falloc s /\ view_set (kmem s) (kmem s') root d path i e) s
    | Err FlagPageNotMapped => view (kmem s) root path i = 0
    end) s.
Proof.
  apply wp_try. eapply wp_mono; [|by apply (wp_find_path _ s root d ts [] root path); [apply Hok|..]].
  intros r s1 [-> ->]. cbn [app]. unfold view at 1 3. destruct (walk (kmem s) root path) as [q|] eqn:Hq; [|done].
  apply wp_bind, wp_table_index; [done|]. apply wp_ret. split_and!; [done..|]. intros e He Hno. by apply wp_write_leaf.
Qed.

End Operations.

(** A root with no used entry is a tree that maps nothing. *)
Lemma tree_new s root d :
  (forall i, is_idx i -> slot_load (kmem s) root i = 0) -> (forall n, n ∈ available (falloc s) -> apart (ptr n) root) ->
  paging_ok s root d [root] /\ forall path i, in_tree d path -> is_idx i -> view (kmem s) root path i = 0.
Proof.
  intros Hz Hfree. assert (Hw : forall path p, in_tree d path -> walk (kmem s) root path = Some p -> path = [] /\ p = root).
  { intros [|i path] p [_ Hf] Hp; [by injection Hp as ->|]. apply Forall_cons in Hf as [Hi _]. cbn [walk] in Hp. by rewrite Hz in Hp. }
  split; [split; [split|]|].
  - intros p q ->%list_elem_of_singleton ->%list_elem_of_singleton. by left.
  - intros path p Hin Hp. destruct (Hw _ _ Hin Hp) as [_ ->]. by apply list_elem_of_singleton.
  - intros path1 path2 p Hin1 Hin2 Hp1 Hp2. destruct (Hw _ _ Hin1 Hp1) as [-> _], (Hw _ _ Hin2 Hp2) as [-> _]. done.
  - intros path p i Hin Hp Hi. destruct (Hw _ _ Hin Hp) as [_ ->]. rewrite Hz by done. unfold is_no. cbn. split; [done|].
    apply Z.pow_pos_nonneg; [done|]. pose proof width_range. lia.
  - intros path p i Hin Hp. destruct (Hw _ _ (in_tree_app _ _ _ Hin) Hp) as [_ ->]. rewrite Hz by (by eapply in_tree_idx). done.
  - intros n p Hn ->%list_elem_of_singleton. by apply Hfree.
  - intros path i Hin Hi. unfold view. destruct (walk _ _ _) as [p|] eqn:Hp; [|done]. destruct (Hw _ _ Hin Hp) as [_ ->]. by apply Hz.
Qed.

End Tree.
