(* ===== verification/RiscvMapperSpec.v ===== *)
(** * What [Mapper] promises

    The trait [Mapper] of the riscv crate as an interface with laws, its provided methods
    proved against the laws, and the refinement: any run of [map_to], [unmap],
    [translate_page] and [update_flags] answers like a finite map from pages to frames and
    flags.  The two-, three- and four-level tables are instances of the interface. *)

From S2P Require Import Prelude Config Address PhysMem RiscvAddr RiscvAddrSpec RiscvPaging RiscvPagingSpec.

Section Interface.
Context `{PTESpec} {T P V PT : Type} {width : Z} `{FrameAllocatorForSpec T P width, Address V, !Mapper T P V PT}.

(** [mapper_ok pt s ts]: [pt] is a table whose tables in memory are [ts]; [entry_at] is
    the entry of a page, 0 if it has none. *)
Class MapperSpec : Type := {
  page_ok : PageWith V -> Prop;
  offset_of : PT -> Z;
  mapper_ok : PT -> PagingState T -> list Z -> Prop;
  entry_at : PT -> PagingState T -> PageWith V -> Z;
  entries_same pt s s' : Prop := forall page, page_ok page -> entry_at pt s' page = entry_at pt s page;
  entry_becomes pt s s' page e : Prop :=
    entry_at pt s' page = e /\ forall page', page_ok page' -> page' <> page -> entry_at pt s' page' = entry_at pt s page';
  page_flush page : page_ok page -> exists f, flush_new page = Ok f;
  entry_at_no pt s ts page : mapper_ok pt s ts -> page_ok page -> is_no (width := width) (entry_ppn (entry_at pt s page));
  map_to_spec pt s ts page n flags :
    mapper_ok pt s ts -> page_ok page -> is_no (width := width) n -> 0 <= flags < 2 ^ 10 ->
    wp (map_to pt page (frame_no n) flags) (fun r s' => exists ts', mapper_ok pt s' ts' /\ grows (offset_of pt) s ts s' ts' /\
      match r with
      | Good f => flush_new page = Ok f /\ entry_at pt s page = 0 /\ entry_becomes pt s s' page (entry_for n flags)
      | Err PageAlreadyMapped => entry_at pt s page <> 0 /\ entries_same pt s s'
      | Err FrameAllocationFailed => entry_at pt s page = 0 /\ available (falloc s') = ∅ /\ entries_same pt s s'
      | Err ParentEntryHugePage => False
      end) s;
  unmap_spec pt s ts page :
    mapper_ok pt s ts -> page_ok page ->
    let e := entry_at pt s page in
    wp (unmap pt page) (fun r s' => mapper_ok pt s' ts /\ grows (offset_of pt) s ts s' ts /\
      if Z.testbit e 0 then exists f, flush_new page = Ok f /\ r = Good (frame_no (entry_ppn e), f) /\ entry_becomes pt s s' page 0
      else r = Err UnmapPageNotMapped /\ s' = s) s;
  ref_entry_spec pt s ts page :
    mapper_ok pt s ts -> page_ok page ->
    wp (ref_entry pt page) (fun r s' => s' = s /\
      match r with
      | Good a => entry_load (kmem s) a = entry_at pt s page /\
          forall e, 0 <= e < 2 ^ (8 * entry_bytes) -> is_no (width := width) (entry_ppn e) ->
            wp (write_entry a e) (fun _ s' => mapper_ok pt s' ts /\ grows (offset_of pt) s ts s' ts /\ entry_becomes pt s s' page e) s
      | Err FlagPageNotMapped => entry_at pt s page = 0
      end) s
}.

End Interface.
Arguments MapperSpec {_} T P V PT width {_ _ _ _ _ _ _}.

(** ** A map from pages to frames and flags *)

Section Client.
Context `{PTESpec} {T P V PT : Type} {width : Z} `{FrameAllocatorForSpec T P width, Address V, !Mapper T P V PT, !MapperSpec T P V PT width}.
Context (Hfit : width - 2 <= 8 * entry_bytes).

(** [update_flags] and [translate_page] *)
Lemma wp_update_flags pt s ts page flags :
  mapper_ok pt s ts -> page_ok page -> 0 <= flags < 2 ^ 10 ->
  wp (update_flags (T := T) (P := P) pt page flags) (fun r s' => mapper_ok pt s' ts /\ grows (offset_of pt) s ts s' ts /\
    match r with
    | Good f => flush_new page = Ok f /\ entry_becomes pt s s' page (entry_for (entry_ppn (entry_at pt s page)) flags)
    | Err FlagPageNotMapped => entry_at pt s page = 0 /\ s' = s
    end) s.
Proof.
  intros Hok Hpage Hf. pose proof (entry_at_no pt s ts page Hok Hpage) as Hno. destruct (page_flush page Hpage) as [f Hfl].
  apply wp_try. eapply wp_mono; [|by apply (ref_entry_spec pt s ts page)]. intros [a|[]] s1 [-> Hr].
  - destruct Hr as [Ha Hw]. apply wp_bind, wp_gets. rewrite Ha. apply wp_bind. eapply wp_lift; [by apply entry_frame_no|].
    rewrite entry_set_for by done. apply wp_bind. pose proof (entry_for_bound (width := width) Hfit _ flags Hno Hf).
    eapply wp_mono; [|apply Hw; [lia|by rewrite entry_for_ppn]]. intros [] s' (Hok' & Hg & He). apply wp_bind. by apply wp_lift with f, wp_ret.
  - split_and!; [done|apply tree_grows_refl|done..].
Qed.

Lemma wp_translate_page pt s ts page :
  mapper_ok pt s ts -> page_ok page ->
  wp (translate_page (T := T) (P := P) pt page) (fun r s' => s' = s /\
    r = if entry_at pt s page =? 0 then None else Some (frame_no (entry_ppn (entry_at pt s page)))) s.
Proof.
  intros Hok Hpage. pose proof (entry_at_no pt s ts page Hok Hpage) as Hno.
  apply wp_bind. eapply wp_mono; [|by apply (ref_entry_spec pt s ts page)]. intros [a|[]] s1 [-> Hr].
  - destruct Hr as [Ha _]. apply wp_bind, wp_gets. rewrite Ha. unfold is_unused. destruct (_ =? 0); [by apply wp_ret|].
    apply wp_bind. eapply wp_lift; [by apply entry_frame_no|]. by apply wp_ret.
  - apply wp_ret. by rewrite Hr.
Qed.

(** A mapping gives some pages a frame number and flags. *)
Definition mapping : Type := PageWith V -> option (Z * Z).
Definition mapping_of (e : Z) : option (Z * Z) := if e =? 0 then None else Some (entry_ppn e, entry_flags e).
Definition mapping_at (pt : PT) (s : PagingState T) : mapping := fun page => mapping_of (entry_at pt s page).
Definition mapping_same (g g' : mapping) : Prop := forall page, page_ok page -> g' page = g page.
Definition mapping_set (g : mapping) (page : PageWith V) (v : option (Z * Z)) (g' : mapping) : Prop :=
  g' page = v /\ forall page', page_ok page' -> page' <> page -> g' page' = g page'.

(** The flags that a mapping made with [flags] has. *)
Definition with_ad (flags : Z) : Z := Z.lor flags (Z.lor F_ACCESSED F_DIRTY).

Inductive request : Type :=
| MapTo (page : PageWith V) (n flags : Z)
| Unmap (page : PageWith V)
| Translate (page : PageWith V)
| UpdateFlags (page : PageWith V) (flags : Z).

Inductive reply : Type :=
| Mapped (r : result Z MapToError)
| Unmapped (r : result (FrameWith P * Z) (UnmapError P))
| Translated (r : option (FrameWith P))
| Updated (r : result Z FlagUpdateError).

Definition serve (pt : PT) (q : request) : M (PagingState T) reply :=
  match q with
  | MapTo page n flags => let* r := map_to pt page (frame_no n) flags in ret (Mapped r)
  | Unmap page => let* r := unmap pt page in ret (Unmapped r)
  | Translate page => let* r := translate_page pt page in ret (Translated r)
  | UpdateFlags page flags => let* r := update_flags (P := P) pt page flags in ret (Updated r)
  end.

Definition request_ok (q : request) : Prop :=
  match q with
  | MapTo page n flags => page_ok page /\ is_no (width := width) n /\ 0 <= flags < 2 ^ 10
  | Unmap page | Translate page => page_ok page
  | UpdateFlags page flags => page_ok page /\ 0 <= flags < 2 ^ 10
  end.

(** A request that a client may make: on a valid page; and the flags that are updated are
    those of an existing mapping, as [update_flags] says of itself. *)
Definition legal (pt : PT) (s : PagingState T) (q : request) : Prop :=
  request_ok q /\
  match q with
  | UpdateFlags page _ => is_Some (mapping_at pt s page)
  | _ => True
  end.

(** What a client does with a table: requests one after the other, each legal when it is
    made, and their answers. *)
Inductive runs (pt : PT) : PagingState T -> list request -> list reply -> PagingState T -> Prop :=
| runs_nil s : runs pt s [] [] s
| runs_cons s q r s1 qs rs s2 : legal pt s q -> serve pt q s = Ok (r, s1) -> runs pt s1 qs rs s2 -> runs pt s (q :: qs) (r :: rs) s2.

(** What a request may answer, and how the mapping changes.  [map_to] fails on a page
    that is mapped, and for want of a frame only if none is left. *)
Inductive answers (left : gset Z) (g g' : mapping) : request -> reply -> Prop :=
| ans_map page n flags f : g page = None -> flush_new page = Ok f -> mapping_set g page (Some (n, with_ad flags)) g' ->
    answers left g g' (MapTo page n flags) (Mapped (Good f))
| ans_map_again page n flags : is_Some (g page) -> mapping_same g g' ->
    answers left g g' (MapTo page n flags) (Mapped (Err PageAlreadyMapped))
| ans_map_full page n flags : g page = None -> left = ∅ -> mapping_same g g' ->
    answers left g g' (MapTo page n flags) (Mapped (Err FrameAllocationFailed))
| ans_unmap page n fl f : g page = Some (n, fl) -> Z.testbit fl 0 = true -> flush_new page = Ok f -> mapping_set g page None g' ->
    answers left g g' (Unmap page) (Unmapped (Good (frame_no n, f)))
| ans_unmap_not page : (forall n fl, g page = Some (n, fl) -> Z.testbit fl 0 = false) -> mapping_same g g' ->
    answers left g g' (Unmap page) (Unmapped (Err UnmapPageNotMapped))
| ans_translate page : mapping_same g g' -> answers left g g' (Translate page) (Translated ((fun v => frame_no v.1) <$> g page))
| ans_update page flags n fl f : g page = Some (n, fl) -> flush_new page = Ok f -> mapping_set g page (Some (n, with_ad flags)) g' ->
    answers left g g' (UpdateFlags page flags) (Updated (Good f)).

(** The same for a run; the frames that are left only become fewer. *)
Inductive answers_all (left : gset Z) (g : mapping) : list request -> list reply -> gset Z -> mapping -> Prop :=
| aa_nil : answers_all left g [] [] left g
| aa_cons q r left1 g1 qs rs left2 g2 : left1 ⊆ left -> answers left1 g g1 q r -> answers_all left1 g1 qs rs left2 g2 ->
    answers_all left g (q :: qs) (r :: rs) left2 g2.

Lemma entry_for_flags n flags : 0 <= flags < 2 ^ 10 -> entry_flags (entry_for n flags) = with_ad flags.
Proof.
  intros Hf. unfold entry_flags, entry_for. change F_ALL with (Z.ones 10). rewrite Z.land_ones by done.
  rewrite Z.add_comm, Z.mod_add by done. unfold with_ad. apply Z.mod_small. pose proof (entry_flags_range flags Hf). lia.
Qed.

Lemma mapping_of_entry n flags : is_no (width := width) n -> 0 <= flags < 2 ^ 10 -> mapping_of (entry_for n flags) = Some (n, with_ad flags).
Proof.
  intros Hn Hf. unfold mapping_of. pose proof (entry_for_bound (width := width) Hfit n flags Hn Hf). rewrite (proj2 (Z.eqb_neq _ _)) by lia.
  by rewrite entry_for_ppn, entry_for_flags by done.
Qed.

Lemma entry_flags_bit0 e : Z.testbit (entry_flags e) 0 = Z.testbit e 0.
Proof. unfold entry_flags. rewrite Z.land_spec. change (Z.testbit F_ALL 0) with true. apply andb_true_r. Qed.

Lemma mapping_of_unused e : mapping_of e = None <-> e = 0.
Proof. unfold mapping_of. by destruct (Z.eqb_spec e 0). Qed.

Lemma mapping_of_used e : e <> 0 -> mapping_of e = Some (entry_ppn e, entry_flags e).
Proof. unfold mapping_of. by destruct (Z.eqb_spec e 0). Qed.

Lemma becomes_set pt s s' page e v : mapping_of e = v -> entry_becomes pt s s' page e -> mapping_set (mapping_at pt s) page v (mapping_at pt s').
Proof. intros <- [He Hrest]. unfold mapping_at. split; [by rewrite He|]. intros page' Hp Hne. by rewrite Hrest. Qed.

Lemma entries_mapping_same pt s s' : entries_same pt s s' -> mapping_same (mapping_at pt s) (mapping_at pt s').
Proof. intros Hs page Hpage. unfold mapping_at. by rewrite Hs. Qed.

Lemma mapping_same_refl g : mapping_same g g.
Proof. done. Qed.

Lemma wp_serve pt s ts q : mapper_ok pt s ts -> legal pt s q ->
  wp (serve pt q) (fun r s' => exists ts', mapper_ok pt s' ts' /\ grows (offset_of pt) s ts s' ts' /\
    answers (available (falloc s')) (mapping_at pt s) (mapping_at pt s') q r) s.
Proof.
  intros Hok [Hq Hup]. revert Hq. destruct q as [page n flags|page|page|page flags]; cbn [serve request_ok].
  - intros (Hpage & Hn & Hf). apply wp_bind. eapply wp_mono; [|by apply (map_to_spec pt s ts)].
    intros r s' (ts' & Hok' & Hg & Hr). apply wp_ret. exists ts'. split_and!; [done..|]. destruct r as [f|[| |]].
    + destruct Hr as (Hfl & Hz & He). constructor; [by apply mapping_of_unused|done|]. by apply becomes_set with (entry_for n flags); [apply mapping_of_entry|].
    + destruct Hr as (Hz & Ha & Hs). constructor; [by apply mapping_of_unused|done|by apply entries_mapping_same].
    + done.
    + destruct Hr as [Hz Hs]. constructor; [|by apply entries_mapping_same]. unfold mapping_at. by rewrite mapping_of_used.
  - intros Hpage. apply wp_bind. eapply wp_mono; [|by apply (unmap_spec pt s ts)]. intros r s' (Hok' & Hg & Hr). apply wp_ret. exists ts.
    split_and!; [done..|]. destruct (Z.testbit _ 0) eqn:Hb.
    + destruct Hr as (f & Hfl & -> & He). apply ans_unmap with (entry_flags (entry_at pt s page)); [|by rewrite entry_flags_bit0|done|by apply becomes_set with 0].
      apply mapping_of_used. intros Hz. by rewrite Hz in Hb.
    + destruct Hr as [-> ->]. constructor; [|apply mapping_same_refl]. unfold mapping_at, mapping_of. intros n fl. destruct (_ =? 0); [done|]. intros [= _ <-]. by rewrite entry_flags_bit0.
  - intros Hpage. apply wp_bind. eapply wp_mono; [|by apply (wp_translate_page pt s ts)]. intros r s' [-> ->]. apply wp_ret. exists ts.
    split_and!; [done|apply tree_grows_refl|]. assert (Heq : (fun v : Z * Z => frame_no v.1) <$> mapping_at pt s page = (if entry_at pt s page =? 0 then None else Some (frame_no (entry_ppn (entry_at pt s page))))).
    { unfold mapping_at, mapping_of. by destruct (_ =? 0). }
    rewrite <-Heq. constructor. apply mapping_same_refl.
  - intros [Hpage Hf]. apply wp_bind. eapply wp_mono; [|by apply (wp_update_flags pt s ts)]. intros r s' (Hok' & Hg & Hr). apply wp_ret. exists ts.
    split_and!; [done..|]. pose proof (entry_at_no pt s ts page Hok Hpage) as Hno.
    assert (Hz : entry_at pt s page <> 0) by (intros Hz; apply mapping_of_unused in Hz; unfold mapping_at in Hup; rewrite Hz in Hup; by destruct Hup).
    destruct r as [f|[]]; [|by destruct Hr]. destruct Hr as [Hfl He].
    apply (becomes_set _ _ _ _ _ (Some (entry_ppn (entry_at pt s page), with_ad flags))) in He; [|by apply mapping_of_entry].
    by eapply ans_update; [apply mapping_of_used|..].
Qed.

(** [update_flags] of a page that is not mapped: it fails, or it maps the page to frame 0. *)
Lemma update_flags_unmapped pt s ts page flags :
  mapper_ok pt s ts -> page_ok page -> 0 <= flags < 2 ^ 10 -> mapping_at pt s page = None ->
  wp (update_flags (T := T) (P := P) pt page flags) (fun r s' =>
    match r with
    | Good _ => mapping_set (mapping_at pt s) page (Some (0, with_ad flags)) (mapping_at pt s')
    | Err _ => s' = s
    end) s.
Proof.
  intros Hok Hpage Hf Hnone. pose proof (entry_at_no pt s ts page Hok Hpage) as Hno. apply mapping_of_unused in Hnone.
  eapply wp_mono; [|by apply (wp_update_flags pt s ts)]. intros [f|[]] s' (_ & _ & Hr); [|by destruct Hr].
  destruct Hr as [_ He]. rewrite Hnone in He, Hno. apply (becomes_set _ _ _ _ _ (Some (0, with_ad flags))) in He; [done|by apply mapping_of_entry].
Qed.

(** The refinement: in every run the answers are those of the mapping, only the tables are
    written, and new tables come from the allocator; and after every run each legal request
    is answered, without panic. *)
Definition refines_mapping : Prop := forall pt s ts qs rs s', mapper_ok pt s ts -> runs pt s qs rs s' ->
  (exists ts', mapper_ok pt s' ts' /\ grows (offset_of pt) s ts s' ts' /\
    answers_all (available (falloc s)) (mapping_at pt s) qs rs (available (falloc s')) (mapping_at pt s')) /\
  (forall q, legal pt s' q -> exists r s'', serve pt q s' = Ok (r, s'')).

Lemma mapper_refines : refines_mapping.
Proof.
  intros pt s ts qs rs s' Hok Hrun. revert ts Hok. induction Hrun as [s|s q r s1 qs rs s2 Hq Hr _ IH]; intros ts Hok.
  - split; [exists ts; split_and!; [done|apply tree_grows_refl|constructor]|]. intros q Hq.
    destruct (proj1 (wp_Ok _ _ _) (wp_serve pt s ts q Hok Hq)) as (r & s'' & Hr & _). by exists r, s''.
  - pose proof (wp_serve pt s ts q Hok Hq) as Hw. unfold wp in Hw. rewrite Hr in Hw. destruct Hw as (ts1 & Hok1 & Hg1 & Ha).
    destruct (IH ts1 Hok1) as [(ts2 & Hok2 & Hg2 & Haa) Hnext]. split; [|exact Hnext]. exists ts2.
    split_and!; [done|by eapply tree_grows_trans|]. econstructor; [|done|done]. apply Hg1.
Qed.

End Client.

(** ** Trees as mappers *)

Lemma try_assoc {S A B C E} (m : M S (result A E)) (k : A -> M S (result B E)) (l : B -> M S (result C E)) s :
  try_bind (try_bind m k) l s = try_bind m (fun a => try_bind (k a) l) s.
Proof. unfold try_bind, bind. by destruct (m s) as [[[a|e] s']|]. Qed.

Lemma try_ext {S A B E} (m : M S (result A E)) (k k' : A -> M S (result B E)) s :
  (forall a s, k a s = k' a s) -> try_bind m k s = try_bind m k' s.
Proof. intros Hk. unfold try_bind, bind. by destruct (m s) as [[[a|e] s']|]. Qed.

(** Pages with keys: the indexes of the tables above the last one, and of the entry. *)
Class PageKeys (V : Type) `{Address V, PTE} (d : nat) : Type := {
  key_ok : PageWith V -> Prop;
  key_path : PageWith V -> list Z;
  key_index : PageWith V -> Z;
  key_in page : key_ok page -> in_tree d (key_path page) /\ length (key_path page) = d /\ is_idx (key_index page);
  key_inj page page' : key_ok page -> key_ok page' -> key_path page' = key_path page -> key_index page' = key_index page -> page' = page;
  key_flush page : key_ok page -> exists f, flush_new page = Ok f
}.

Section TreeMapper.
Context `{PTESpec} {T P V PT : Type} {width : Z} `{FrameAllocatorForSpec T P width, Address V, !Mapper T P V PT}.
Context {d : nat} `{!PageKeys V d} (Hfit : width - 2 <= 8 * entry_bytes).

(** [pt] is a tree with [d] levels above the last: its operations are a walk along the
    path of the page and an operation in the last table. *)
Class TreeMapper : Type := {
  tm_root : PT -> Z;
  tm_offset : PT -> Z;
  tm_map pt page (frame : FrameWith P) flags s :
    map_to pt page frame flags s = (let? t := create_path (P := P) (tm_offset pt) (tm_root pt) (key_path page) in map_in t (key_index page) frame flags page) s;
  tm_unmap pt page s :
    unmap pt page s = (let? t := find_path (P := P) (tm_offset pt) UnmapPageNotMapped (tm_root pt) (key_path page) in unmap_in t (key_index page) page) s;
  tm_ref pt page s :
    ref_entry pt page s = (let? t := find_path (P := P) (tm_offset pt) FlagPageNotMapped (tm_root pt) (key_path page) in
      let* entry := table_index t (key_index page) in ret (Good entry)) s
}.

Context `{!TreeMapper}.

(** The tree of [pt] is in memory, which is mapped at an offset that does not wrap. *)
Definition tree_ok (pt : PT) (s : PagingState T) (ts : list Z) : Prop :=
  0 <= tm_offset pt /\ tm_offset pt + 2 ^ width <= 2 ^ 64 /\ paging_ok (tm_offset pt) s (tm_root pt) d ts.
Definition tree_entry (pt : PT) (s : PagingState T) (page : PageWith V) : Z :=
  view (tm_offset pt) (kmem s) (tm_root pt) (key_path page) (key_index page).

Lemma tree_becomes pt s s' page e : key_ok page ->
  view_set (tm_offset pt) (kmem s) (kmem s') (tm_root pt) d (key_path page) (key_index page) e ->
  tree_entry pt s' page = e /\ forall page', key_ok page' -> page' <> page -> tree_entry pt s' page' = tree_entry pt s page'.
Proof.
  intros Hpage Hv. unfold tree_entry. destruct (key_in page Hpage) as (Hin & Hd & Hi). split; [rewrite Hv by done; by rewrite decide_True|].
  intros page' Hpage' Hne. destruct (key_in page' Hpage') as (Hin' & Hd' & Hi'). rewrite Hv by done. rewrite decide_False; [done|].
  intros [Hp Hx]. by apply Hne, key_inj.
Qed.

Lemma tree_same pt s s' : same_view (tm_offset pt) (kmem s) (kmem s') (tm_root pt) d ->
  forall page, key_ok page -> tree_entry pt s' page = tree_entry pt s page.
Proof. intros Hs page (Hin & Hd & Hi)%key_in. by apply Hs. Qed.

Lemma wp_pointwise {S A} (m m' : M S A) (Q : A -> S -> Prop) s : m s = m' s -> wp m' Q s -> wp m Q s.
Proof. unfold wp. by intros ->. Qed.

Program Definition tree_mapper_spec : MapperSpec T P V PT width := {|
  page_ok := key_ok;
  offset_of := tm_offset;
  mapper_ok := tree_ok;
  entry_at := tree_entry
|}.
Next Obligation. intros page. apply key_flush. Qed.
Next Obligation.
  intros pt s ts page (_ & _ & [Hwf _]) (Hin & Hd & Hi)%key_in. unfold tree_entry, view. destruct (walk _ _ _ _) as [q|] eqn:Hq; [by eapply tw_entry|].
  unfold is_no, entry_ppn. cbn. split; [done|]. apply Z.pow_pos_nonneg; [done|]. pose proof width_range. lia.
Qed.
Next Obligation.
  intros pt s ts page n flags (Hlo & H64 & Hok) Hpage Hn Hf. destruct (key_in page Hpage) as (Hin & Hd & Hi). destruct (key_flush page Hpage) as [f Hfl].
  eapply wp_pointwise; [apply tm_map|]. eapply wp_mono; [|by apply (wp_tree_map (tm_offset pt) Hlo H64 Hfit s (tm_root pt) d ts (key_path page) (key_index page) page f)].
  intros r s' (ts' & Hok' & Hg & Hr). exists ts'. split; [done|]. split; [done|]. destruct r as [f'|[| |]].
  - destruct Hr as (-> & Hz & Hv). split; [done|]. split; [done|]. by apply tree_becomes.
  - destruct Hr as (Hz & Ha & Hs). split; [done|]. split; [done|]. by apply tree_same.
  - done.
  - destruct Hr as (Hz & Hs). split; [done|]. by apply tree_same.
Qed.
Next Obligation.
  intros pt s ts page (Hlo & H64 & Hok) Hpage e. destruct (key_in page Hpage) as (Hin & Hd & Hi). destruct (key_flush page Hpage) as [f Hfl].
  eapply wp_pointwise; [apply tm_unmap|]. eapply wp_mono; [|by apply (wp_tree_unmap (tm_offset pt) Hlo H64 s (tm_root pt) d ts (key_path page) (key_index page) page f)].
  intros r s' (Hok' & Hg & _ & Hr). split; [done|]. split; [done|]. fold (tree_entry pt s page) in Hr. fold e in Hr. destruct (Z.testbit e 0); [|done].
  destruct Hr as [-> Hv]. exists f. split; [done|]. split; [done|]. by apply tree_becomes.
Qed.
Next Obligation.
  intros pt s ts page (Hlo & H64 & Hok) Hpage. destruct (key_in page Hpage) as (Hin & Hd & Hi).
  eapply wp_pointwise; [apply tm_ref|]. eapply wp_mono; [|by apply (wp_tree_ref (tm_offset pt) Hlo H64 s (tm_root pt) d ts (key_path page) (key_index page))].
  intros [a|[]] s' [-> Hr]; (split; [done|]); [|done]. destruct Hr as [Ha Hw]. split; [done|]. intros e He Hno. eapply wp_mono; [|by apply Hw].
  intros [] s' (Hok' & Hg & _ & Hv). split; [done|]. split; [done|]. by apply tree_becomes.
Qed.

End TreeMapper.
