(* ===== verification/RiscvTablesSpec.v ===== *)
(** * The page tables of Sv32, Sv39 and Sv48 are mappers

    [Rv32PageTable], [Rv39PageTable] and [Rv48PageTable] discharge the interface of
    [Mapper]; a table for guest physical addresses does not: its root has too few
    entries. *)

From S2P Require Import Prelude Config Address PhysMem RiscvAddr RiscvAddrSpec RiscvPaging RiscvPagingSpec RiscvMapperSpec.

(** ** Keys of pages *)

Lemma split_inj {A} (valid : A -> Prop) ws split join a b : round_trips valid ws split join -> valid a -> valid b -> split a = split b -> a = b.
Proof. intros [Hab _] Ha Hb Heq. destruct (Hab a Ha) as [_ Hja], (Hab b Hb) as [_ Hjb]. rewrite Heq in Hja. congruence. Qed.

Lemma page_inj {A} (p q : PageWith A) : page_addr p = page_addr q -> p = q.
Proof. destruct p, q. by intros [= ->]. Qed.

Section Keys.
Context `{BitFieldSpec}.

Section Sv32.
#[local] Existing Instance PageTableEntryX32.
#[export] Program Instance Sv32_keys : PageKeys VirtAddrSv32 1 := {|
  key_ok page := 0 <= va32 (page_addr page) < 2 ^ 32 /\ page_offset (page_addr page) = 0;
  key_path page := [l2_p2_index (page_addr page)];
  key_index page := l2_p1_index (page_addr page)
|}.
Next Obligation.
  intros page [Hok Hoff]. destruct (proj1 sv32_round_trips _ Hok) as [[H2 [H1 _]%Forall2_cons]%Forall2_cons _].
  split_and!; [split; [done|by rewrite !Forall_cons]|done|done].
Qed.
Next Obligation.
  intros page page' [Hok Hoff] [Hok' Hoff'] Hp Hi. apply page_inj, (split_inj _ _ _ _ _ _ sv32_round_trips); [done..|].
  unfold split_l2. congruence.
Qed.
Next Obligation. intros page _. by eexists. Qed.
End Sv32.

Section X64.
#[local] Existing Instance PageTableEntryX64.
#[export] Program Instance Sv39_keys : PageKeys VirtAddrSv39 2 := {|
  key_ok page := canonical 39 (va39 (page_addr page)) /\ page_offset (page_addr page) = 0;
  key_path page := [l3_p3_index (page_addr page); l3_p2_index (page_addr page)];
  key_index page := l3_p1_index (page_addr page)
|}.
Next Obligation.
  intros page [Hok Hoff]. destruct (proj1 sv39_round_trips _ Hok) as [[H3 [H2 [H1 _]%Forall2_cons]%Forall2_cons]%Forall2_cons _].
  split_and!; [split; [done|by rewrite !Forall_cons]|done|done].
Qed.
Next Obligation.
  intros page page' [Hok Hoff] [Hok' Hoff'] Hp Hi. apply page_inj, (split_inj _ _ _ _ _ _ sv39_round_trips); [done..|].
  unfold split_l3. congruence.
Qed.
Next Obligation. intros page _. by eexists. Qed.

#[export] Program Instance Sv48_keys : PageKeys VirtAddrSv48 3 := {|
  key_ok page := canonical 48 (va48 (page_addr page)) /\ page_offset (page_addr page) = 0;
  key_path page := [l4_p4_index (page_addr page); l4_p3_index (page_addr page); l4_p2_index (page_addr page)];
  key_index page := l4_p1_index (page_addr page)
|}.
Next Obligation.
  intros page [Hok Hoff]. destruct (proj1 sv48_round_trips _ Hok) as [[H4 [H3 [H2 [H1 _]%Forall2_cons]%Forall2_cons]%Forall2_cons]%Forall2_cons _].
  split_and!; [split; [done|by rewrite !Forall_cons]|done|done].
Qed.
Next Obligation.
  intros page page' [Hok Hoff] [Hok' Hoff'] Hp Hi. apply page_inj, (split_inj _ _ _ _ _ _ sv48_round_trips); [done..|].
  unfold split_l4. congruence.
Qed.
Next Obligation. intros page _. by eexists. Qed.
End X64.

End Keys.

(** ** The three tables *)

Ltac tree_mapper :=
  intros; cbn [map_to unmap ref_entry Rv32PageTable_Mapper Rv39PageTable_Mapper Rv48PageTable_Mapper];
  unfold rv32_map_to, rv32_create_p1, rv32_unmap, rv32_ref_entry, rv39_map_to, rv39_create_p1, rv39_unmap, rv39_ref_entry,
    rv48_map_to, rv48_create_p1, rv48_unmap, rv48_ref_entry; cbn [create_path find_path key_path key_index Sv32_keys Sv39_keys Sv48_keys];
  repeat (rewrite !try_assoc; apply try_ext; intros); done.

Section Tables.
Context `{BitFieldSpec} {T : Type}.

Section Rv32.
#[local] Existing Instances PageTableEntryX32 PageTableEntryX32_spec.
Context `{!FrameAllocatorFor T PhysAddrSv32, !FrameAllocatorForSpec T PhysAddrSv32 34}.

#[export] Program Instance Rv32PageTable_tree : TreeMapper (T := T) (P := PhysAddrSv32) (V := VirtAddrSv32) (PT := Rv32PageTableWith) := {|
  tm_root := rv32_root;
  tm_offset := rv32_offset
|}.
Next Obligation. tree_mapper. Qed.
Next Obligation. tree_mapper. Qed.
Next Obligation. tree_mapper. Qed.

Lemma rv32_fits : 34 - 2 <= 8 * entry_bytes.
Proof. done. Qed.
#[export] Instance Rv32PageTable_spec : MapperSpec T PhysAddrSv32 VirtAddrSv32 Rv32PageTableWith 34 := tree_mapper_spec rv32_fits.
End Rv32.

Section Rv39.
#[local] Existing Instances PageTableEntryX64 PageTableEntryX64_spec.
Context `{!FrameAllocatorFor T PhysAddrSv39, !FrameAllocatorForSpec T PhysAddrSv39 56}.

#[export] Program Instance Rv39PageTable_tree : TreeMapper (T := T) (P := PhysAddrSv39) (V := VirtAddrSv39) (PT := Rv39PageTableWith) := {|
  tm_root := rv39_root;
  tm_offset := rv39_offset
|}.
Next Obligation. tree_mapper. Qed.
Next Obligation. tree_mapper. Qed.
Next Obligation. tree_mapper. Qed.

Lemma rv39_fits : 56 - 2 <= 8 * entry_bytes.
Proof. done. Qed.
#[export] Instance Rv39PageTable_spec : MapperSpec T PhysAddrSv39 VirtAddrSv39 Rv39PageTableWith 56 := tree_mapper_spec rv39_fits.
End Rv39.

Section Rv48.
#[local] Existing Instances PageTableEntryX64 PageTableEntryX64_spec.
Context `{!FrameAllocatorFor T PhysAddrSv48, !FrameAllocatorForSpec T PhysAddrSv48 56}.

#[export] Program Instance Rv48PageTable_tree : TreeMapper (T := T) (P := PhysAddrSv48) (V := VirtAddrSv48) (PT := Rv48PageTableWith) := {|
  tm_root := rv48_root;
  tm_offset := rv48_offset
|}.
Next Obligation. tree_mapper. Qed.
Next Obligation. tree_mapper. Qed.
Next Obligation. tree_mapper. Qed.

#[export] Instance Rv48PageTable_spec : MapperSpec T PhysAddrSv48 VirtAddrSv48 Rv48PageTableWith 56 := tree_mapper_spec rv39_fits.
End Rv48.

End Tables.

(** ** An allocator: the frames from a given number up to 100 *)

Section Bump.
Context `{PhysAddrSpec}.

Definition bump_alloc : FrameAllocatorFor nat P := {|
  alloc n := if decide (n < 100)%nat then (Some (frame_no (Z.of_nat n)), S n) else (None, n)
|}.

Program Definition bump_alloc_spec (Hw : 20 <= width) : @FrameAllocatorForSpec nat P width _ _ _ bump_alloc := {|
  available n := list_to_set (seqZ (Z.of_nat n) (100 - Z.of_nat n))
|}.
Next Obligation.
  intros Hw t n [? ?]%elem_of_list_to_set%elem_of_seqZ. assert (2 ^ 8 <= 2 ^ (width - 12)) by (apply Z.pow_le_mono_r; lia). lia.
Qed.
Next Obligation.
  intros Hw t. cbn. case_decide as Ht.
  - exists (Z.of_nat t). split; [done|]. split; [apply elem_of_list_to_set, elem_of_seqZ; lia|].
    apply set_eq. intros n. rewrite elem_of_difference, !elem_of_list_to_set, !elem_of_seqZ, elem_of_singleton. lia.
  - split; [done|]. apply set_eq. intros n. rewrite elem_of_list_to_set, elem_of_seqZ, elem_of_empty. lia.
Qed.

End Bump.

(** ** The contract *)

(** C14: The page tables of Sv32, Sv39 and Sv48 refine a finite map from pages to frames and
    flags.  A client makes requests on valid pages, each when the one before has returned:
    [map_to], [unmap], [translate_page], and [update_flags] of a page that is mapped then.
    No request panics, and each answers what the map says; [map_to] fails for want of a
    frame only when the allocator is empty, new tables are frames that the allocator gave
    out, and no byte outside the tables is written. *)
Theorem page_tables_refine `{BitFieldSpec} {T : Type}
    `{!FrameAllocatorFor T PhysAddrSv32, !FrameAllocatorForSpec T PhysAddrSv32 34}
    `{!FrameAllocatorFor T PhysAddrSv39, !FrameAllocatorForSpec T PhysAddrSv39 56}
    `{!FrameAllocatorFor T PhysAddrSv48, !FrameAllocatorForSpec T PhysAddrSv48 56} :
  refines_mapping (H := PageTableEntryX32) (T := T) (P := PhysAddrSv32) (V := VirtAddrSv32) (PT := Rv32PageTableWith) /\
  refines_mapping (H := PageTableEntryX64) (T := T) (P := PhysAddrSv39) (V := VirtAddrSv39) (PT := Rv39PageTableWith) /\
  refines_mapping (H := PageTableEntryX64) (T := T) (P := PhysAddrSv48) (V := VirtAddrSv48) (PT := Rv48PageTableWith).
Proof.
  split; [|split].
  - exact (mapper_refines (H0 := PageTableEntryX32_spec) rv32_fits).
  - exact (mapper_refines (H0 := PageTableEntryX64_spec) rv39_fits).
  - exact (mapper_refines (H0 := PageTableEntryX64_spec) rv39_fits).
Qed.

Lemma table_index_out `{PTE} {T} table i (s : PagingState T) : entry_count <= i -> table_index table i s = Panic OutOfRange.
Proof. intros Hi. unfold table_index. by rewrite (proj2 (Z.ltb_ge _ _)). Qed.

Ltac index_panics :=
  cbn [map_to unmap ref_entry Rv32PageTable_Mapper Rv39PageTable_Mapper Rv48PageTable_Mapper];
  unfold rv32_map_to, rv32_create_p1, rv32_unmap, rv32_ref_entry, rv39_map_to, rv39_create_p1, rv39_unmap, rv39_ref_entry,
    rv48_map_to, rv48_create_p1, rv48_unmap, rv48_ref_entry, table_or_create, table_below, try_bind, bind;
  by rewrite table_index_out.

(** The tables for guest physical addresses have roots with as many entries as those of
    the host, a quarter of what the addresses need: every operation on a page whose top
    index is above the root panics. *)
Theorem guest_roots_too_small `{BitField} {T : Type}
    `{!FrameAllocatorFor T PhysAddrSv32, !FrameAllocatorFor T PhysAddrSv39, !FrameAllocatorFor T PhysAddrSv48} (s : PagingState T) :
  (forall (pt : Rv32PageTableWith) (page : PageWith GPAddrSv32X4) frame flags, 1024 <= l2_p2_index (page_addr page) ->
    map_to pt page frame flags s = Panic OutOfRange /\ unmap pt page s = Panic OutOfRange /\ ref_entry pt page s = Panic OutOfRange) /\
  (forall (pt : Rv39PageTableWith) (page : PageWith GPAddrSv39X4) frame flags, 512 <= l3_p3_index (page_addr page) ->
    map_to pt page frame flags s = Panic OutOfRange /\ unmap pt page s = Panic OutOfRange /\ ref_entry pt page s = Panic OutOfRange) /\
  (forall (pt : Rv48PageTableWith) (page : PageWith GPAddrSv48X4) frame flags, 512 <= l4_p4_index (page_addr page) ->
    map_to pt page frame flags s = Panic OutOfRange /\ unmap pt page s = Panic OutOfRange /\ ref_entry pt page s = Panic OutOfRange).
Proof. split_and!; intros pt page frame flags Hi; split_and!; index_panics. Qed.

(** A three-level table whose root, in frame 1, is empty. *)
Module Demo.
#[local] Existing Instances bit_field_ops bit_field_ops_spec PageTableEntryX64 PageTableEntryX64_spec.
#[local] Instance demo_alloc32 : FrameAllocatorFor nat PhysAddrSv32 := bump_alloc (width := 34).
#[local] Instance demo_alloc32_spec : FrameAllocatorForSpec nat PhysAddrSv32 34 := bump_alloc_spec (width := 34) ltac:(lia).
#[local] Instance demo_alloc39 : FrameAllocatorFor nat PhysAddrSv39 := bump_alloc (width := 56).
#[local] Instance demo_alloc39_spec : FrameAllocatorForSpec nat PhysAddrSv39 56 := bump_alloc_spec (width := 56) ltac:(lia).
#[local] Instance demo_alloc48 : FrameAllocatorFor nat PhysAddrSv48 := bump_alloc (width := 56).
#[local] Instance demo_alloc48_spec : FrameAllocatorForSpec nat PhysAddrSv48 56 := bump_alloc_spec (width := 56) ltac:(lia).

Definition demo_state : PagingState nat := mk_paging (fun _ => 0) 2%nat.
Definition demo_table : Rv39PageTableWith := mk_rv39 4096 0.
Definition demo_page (i : Z) : PageWith VirtAddrSv39 := mk_page (mk_VirtAddrSv39 (0xffffffff80200000 + i * 4096)).

Lemma demo_ok : mapper_ok demo_table demo_state [4096].
Proof.
  split; [done|]. split; [done|]. apply tree_new; [done|]. intros n Hn%elem_of_list_to_set%elem_of_seqZ. right. unfold ptr, PAGE_SIZE. cbn in *. lia.
Qed.

(** Two pages of one last table: the first is mapped to frame 7, translated and unmapped. *)
Definition demo_requests : list (request (V := VirtAddrSv39)) :=
  [MapTo (demo_page 0) 7 15; Translate (demo_page 0); MapTo (demo_page 0) 8 15; Unmap (demo_page 0); Translate (demo_page 0)].

Lemma demo_requests_ok : Forall request_ok demo_requests.
Proof.
  assert (Hpage : page_ok (demo_page 0)) by (by split; [right|vm_compute]). unfold demo_requests. by rewrite !Forall_cons.
Qed.

(** The answers of requests that are made whether they are legal or not. *)
Fixpoint demo_serve (qs : list (request (V := VirtAddrSv39))) (s : PagingState nat) : outcome (list (reply (P := PhysAddrSv39)) * PagingState nat) :=
  match qs with
  | [] => Ok ([], s)
  | q :: qs' =>
      match serve demo_table q s with
      | Ok (r, s1) => match demo_serve qs' s1 with Ok (rs, s2) => Ok (r :: rs, s2) | Panic e => Panic e end
      | Panic e => Panic e
      end
  end.
Definition demo_replies (qs : list (request (V := VirtAddrSv39))) : option (list (reply (P := PhysAddrSv39))) :=
  match demo_serve qs demo_state with
  | Ok (rs, _) => Some rs
  | Panic _ => None
  end.

Definition no_update (q : request (V := VirtAddrSv39)) : bool := match q with UpdateFlags _ _ => false | _ => true end.

Lemma demo_serve_runs qs : forall s rs s',
  Forall request_ok qs -> forallb no_update qs = true -> demo_serve qs s = Ok (rs, s') -> runs demo_table s qs rs s'.
Proof.
  induction qs as [|q qs IH]; intros s rs s' Hq Hn Hs; cbn [demo_serve] in Hs; [injection Hs as <- <-; constructor|].
  apply Forall_cons in Hq as [Hq Hqs]. cbn in Hn. apply andb_true_iff in Hn as [Hn Hns].
  destruct (serve demo_table q s) as [[r s1]|] eqn:Hr; [|done]. destruct (demo_serve qs s1) as [[rs' s2]|] eqn:Hrs; [|done]. injection Hs as <- <-.
  econstructor; [|exact Hr|by apply IH]. split; [done|]. by destruct q.
Qed.

Lemma demo_answers : exists rs s', demo_serve demo_requests demo_state = Ok (rs, s') /\
  rs = [Mapped (Good 0xffffffff80200000); Translated (Some (mk_frame (mk_PhysAddrSv39 (7 * 4096)))); Mapped (Err PageAlreadyMapped);
    Unmapped (Good (mk_frame (mk_PhysAddrSv39 (7 * 4096)), 0xffffffff80200000)); Translated None].
Proof.
  assert (Hrep : demo_replies demo_requests = Some [Mapped (Good 0xffffffff80200000); Translated (Some (mk_frame (mk_PhysAddrSv39 (7 * 4096))));
    Mapped (Err PageAlreadyMapped); Unmapped (Good (mk_frame (mk_PhysAddrSv39 (7 * 4096)), 0xffffffff80200000)); Translated None]) by (vm_compute; reflexivity).
  revert Hrep. unfold demo_replies. generalize (demo_serve demo_requests demo_state). intros [[rs s']|e]; [|discriminate].
  intros [= Hrs]. exists rs, s'. split; [reflexivity|exact Hrs].
Qed.

Lemma page_tables_refine_witness :
  exists rs s' ts', runs demo_table demo_state demo_requests rs s' /\ mapper_ok demo_table s' ts' /\
    answers_all (available (P := PhysAddrSv39) 2%nat) (mapping_at demo_table demo_state) demo_requests rs (available (P := PhysAddrSv39) (falloc s')) (mapping_at demo_table s') /\
    rs = [Mapped (Good 0xffffffff80200000); Translated (Some (mk_frame (mk_PhysAddrSv39 (7 * 4096)))); Mapped (Err PageAlreadyMapped);
      Unmapped (Good (mk_frame (mk_PhysAddrSv39 (7 * 4096)), 0xffffffff80200000)); Translated None].
Proof.
  destruct demo_answers as (rs & s' & Hs & Hrs).
  pose proof (demo_serve_runs demo_requests demo_state rs s' demo_requests_ok eq_refl Hs) as Hruns.
  destruct (proj1 (proj2 (page_tables_refine (T := nat))) demo_table demo_state [4096] demo_requests rs s' demo_ok Hruns) as [(ts' & Hok & _ & Ha) _].
  exists rs, s', ts'. split; [exact Hruns|]. split; [exact Hok|]. split; [exact Ha|]. exact Hrs.
Defined.

(** [update_flags] of a page that is not mapped, in a last table that exists: the page is
    mapped to frame 0. *)
Lemma update_flags_maps_frame_0 :
  demo_replies [MapTo (demo_page 0) 7 15; Translate (demo_page 1); UpdateFlags (demo_page 1) 15; Translate (demo_page 1)] =
    Some [Mapped (Good 0xffffffff80200000); Translated None; Updated (Good 0xffffffff80201000); Translated (Some (mk_frame (mk_PhysAddrSv39 0)))].
Proof. by vm_compute. Qed.

(** The guest page at 512 GiB. *)
Lemma guest_roots_too_small_witness :
  let page := mk_page (mk_GPAddrSv39X4 (2 ^ 39)) in
  l3_p3_index (page_addr page) = 512 /\ map_to demo_table page (mk_frame (mk_PhysAddrSv39 0)) 15 demo_state = Panic OutOfRange.
Proof.
  split; [by vm_compute|].
  apply (proj1 (proj2 (guest_roots_too_small demo_state)) demo_table (mk_page (mk_GPAddrSv39X4 (2 ^ 39)))). by vm_compute.
Defined.

End Demo.
