(* ===== verification/RiscvCsr.v ===== *)
(** * Registers of the riscv crate: accessors (ci-user/riscv/src/register)

    A register module is a copy of the register in a struct with methods on its bits, and
    functions that change the register itself.  The macros and the generated files give
    every method one of a few shapes, the constructors of [accessor]; [get_fn], [set_fn]
    and [csr_fn] are their bodies.  The hart that executes the instructions is a parameter
    of the model; [HartSpec] is what the instructions do to the bits of a register. *)

From stdpp Require Import strings.
From S2P Require Import Prelude Config Address RiscvAddr.
#[local] Open Scope Z_scope.

(** ** The hart *)

(** [csrrs rd, csr, x0], [csrrw x0, csr, rs], [csrrs x0, csr, rs] and [csrrc x0, csr, rs]. *)
Class Hart (H : Type) : Type := {
  csr_read : H -> Z -> Z;
  csrrw : Z -> Z -> H -> H;
  csrrs : Z -> Z -> H -> H;
  csrrc : Z -> Z -> H -> H
}.

(** Which bits of a register can be written: they hold what was written last.  Nothing is
    said of the others, which can be constant or depend on other bits, as [sd] of mstatus
    and sstatus does, a summary of [fs] and [xs]. *)
Class HartSpec (H : Type) `{Hart H} : Type := {
  writable : Z -> Z -> bool;
  csr_usize h c : is_usize (csr_read h c);
  csrrw_bit h c v i : is_usize v -> 0 <= i < 64 -> writable c i = true ->
    Z.testbit (csr_read (csrrw c v h) c) i = Z.testbit v i;
  csrrs_bit h c v i : is_usize v -> 0 <= i < 64 -> writable c i = true ->
    Z.testbit (csr_read (csrrs c v h) c) i = Z.testbit (csr_read h c) i || Z.testbit v i;
  csrrc_bit h c v i : is_usize v -> 0 <= i < 64 -> writable c i = true ->
    Z.testbit (csr_read (csrrc c v h) c) i = Z.testbit (csr_read h c) i && negb (Z.testbit v i)
}.

(** ** Accessors *)

(** The variants of an enum with their discriminants. *)
Definition variants : Type := list (Z * string).

(** A field is the name of the method, without [set_] and [clear_]. *)
Inductive accessor : Type :=
| GetBit (f : string) (i : Z)
| GetBits (f : string) (lo hi : Z)
| GetEnum (f : string) (lo hi : Z) (vs : variants)
| GetBitEnum (f : string) (i : Z) (on off : string)
| SetBit (f : string) (i : Z)
| SetBits (f : string) (lo hi : Z)
| SetEnum (f : string) (lo hi : Z) (vs : variants)
| SetBitEnum (f : string) (i : Z) (on off : string)
| CsrSet (f : string) (bits : Z)
| CsrClear (f : string) (bits : Z)
| CsrBitEnum (f : string) (bits : Z) (on off : string)
| CsrEnum (f : string) (lo hi : Z) (vs : variants).

(** [set_clear_csr!] *)
Definition set_clear_csr (f : string) (bits : Z) : list accessor := [CsrSet f bits; CsrClear f bits].

(** The values that methods take and return. *)
Inductive value : Type :=
| VBool (b : bool)
| VNum (n : Z)
| VVariant (v : string).

Fixpoint variant_of (vs : variants) (x : Z) : option string :=
  match vs with
  | [] => None
  | (d, v) :: rest => if d =? x then Some v else variant_of rest x
  end.
Fixpoint discriminant (vs : variants) (name : string) : option Z :=
  match vs with
  | [] => None
  | (d, v) :: rest => if String.eqb v name then Some d else discriminant rest name
  end.

Section Methods.
Context `{BitField}.

(** The methods [fn f(&self)]; an enum is found by a [match] whose last arm is
    [unreachable!()]. *)
Definition get_fn (a : accessor) (bits : Z) : outcome value :=
  match a with
  | GetBit _ i => Ok (VBool (get_bit bits i))
  | GetBits _ lo hi => Ok (VNum (get_bits bits lo hi))
  | GetEnum _ lo hi vs =>
      match variant_of vs (get_bits bits lo hi) with
      | Some v => Ok (VVariant v)
      | None => Panic Explicit
      end
  | GetBitEnum _ i on off => Ok (VVariant (if get_bit bits i then on else off))
  | _ => Panic Explicit
  end.

(** The methods [fn set_f(&mut self, val)]: the new bits. *)
Definition set_fn (a : accessor) (val : value) (bits : Z) : outcome Z :=
  match a, val with
  | SetBit _ i, VBool b => Ok (set_bit bits i b)
  | SetBits _ lo hi, VNum n => set_bits bits lo hi n
  | SetEnum _ lo hi vs, VVariant v =>
      match discriminant vs v with
      | Some d => set_bits bits lo hi d
      | None => Panic Explicit
      end
  | SetBitEnum _ i on _, VVariant v => Ok (set_bit bits i (String.eqb v on))
  | _, _ => Panic Explicit
  end.

(** The functions [set_f] and [clear_f] on register [csr] itself. *)
Definition csr_fn {H} `{Hart H} (csr : Z) (a : accessor) (val : value) (h : H) : outcome H :=
  match a, val with
  | CsrSet _ bits, VBool true => Ok (csrrs csr bits h)
  | CsrClear _ bits, VBool false => Ok (csrrc csr bits h)
  | CsrBitEnum _ bits on _, VVariant v => Ok (if String.eqb v on then csrrs csr bits h else csrrc csr bits h)
  | CsrEnum _ lo hi vs, VVariant v =>
      match discriminant vs v with
      | Some d =>
          let! bits := set_bits (csr_read h csr) lo hi d in
          Ok (csrrw csr bits h)
      | None => Panic Explicit
      end
  | _, _ => Panic Explicit
  end.

End Methods.

(** A register module: the number of the register and its methods. *)
Record register : Type := mk_register { reg_name : string; csr : Z; methods : list accessor }.

(** ** Trap causes (register/mcause.rs, register/scause.rs) *)

(** [Interrupt::from] and [Exception::from] are the tables of the register; a number that
    is in neither is [Unknown]. *)
Inductive Trap : Type :=
| Interrupt (i : string)
| Exception (e : string).

Definition is_interrupt `{BitField} (bits : Z) : bool := get_bit bits 63.
Definition code (bits : Z) : Z := Z.land bits (Z.lnot (Z.shiftl 1 63)).
Definition cause `{BitField} (interrupts exceptions : variants) (bits : Z) : Trap :=
  if is_interrupt bits then Interrupt (default "Unknown"%string (variant_of interrupts (code bits)))
  else Exception (default "Unknown"%string (variant_of exceptions (code bits))).

(** ** Trap vectors (register/mtvec.rs, register/stvec.rs, register/utvec.rs) *)

Inductive TrapMode : Type :=
| Direct
| Vectored.

Definition tvec_address (bits : Z) : Z := bits -% Z.land bits 3.
Definition tvec_trap_mode (bits : Z) : option TrapMode :=
  let mode := Z.land bits 3 in
  if mode =? 0 then Some Direct
  else if mode =? 1 then Some Vectored
  else None.
Definition tvec_bits (addr : Z) (mode : TrapMode) : Z := addr +% match mode with Direct => 0 | Vectored => 1 end.

(** ** Address translation (register/satp.rs) *)

(** The value that [satp::set] writes. *)
Definition satp_bits `{BitField} (mode asid ppn : Z) : outcome Z :=
  let bits := 0 in
  let! bits := set_bits bits 60 64 mode in
  let! bits := set_bits bits 44 60 asid in
  let! bits := set_bits bits 0 44 ppn in
  Ok bits.

(** ** Floating point (register/fcsr.rs) *)

Section Fcsr.
Context `{BitField}.

Definition rounding_modes : variants :=
  [(0, "RoundToNearestEven"); (1, "RoundTowardsZero"); (2, "RoundDown"); (3, "RoundUp"); (4, "RoundToNearestMaxMagnitude")]%string.
Definition fflags (bits : Z) : Z := get_bits bits 0 5.
Definition frm (bits : Z) : string := default "Invalid"%string (variant_of rounding_modes (get_bits bits 5 8)).

(** [fcsr::read] takes the low 32 bits. *)
Definition fcsr_read {H} `{Hart H} (h : H) : Z := wrap32 (csr_read h 0x003).
Definition set_rounding_mode {H} `{Hart H} (mode : Z) (h : H) : H :=
  let old := fcsr_read h in
  let bits := Z.lor (wrap32 (Z.shiftl mode 5)) (fflags old) in
  csrrw 0x003 bits h.
Definition clear_flags {H} `{Hart H} (h : H) : H := csrrc 0x003 31 h.
Definition clear_flag {H} `{Hart H} (flag : Z) (h : H) : H := csrrc 0x003 flag h.

End Fcsr.
