(* ===== verification/RiscvRegisters.v ===== *)
(** * Registers of the riscv crate: the tables (ci-user/riscv/src/register)

    One definition per register module, with the methods in the order of the file. *)

From stdpp Require Import strings.
From S2P Require Import Prelude Config Address RiscvAddr RiscvCsr.
#[local] Open Scope string_scope.
#[local] Open Scope Z_scope.
#[local] Open Scope list_scope.

(** ** Status, interrupts and delegation *)

Definition mstatus_methods : list accessor := (
  [GetBit "uie" 0;
   GetBit "sie" 1;
   GetBit "mie" 3;
   GetBit "upie" 4;
   GetBit "spie" 5;
   GetBit "mpie" 7;
   GetBitEnum "spp" 8 "Supervisor" "User";
   GetEnum "mpp" 11 13 [(0, "User"); (1, "Supervisor"); (3, "Machine")];
   SetBit "mpie" 7;
   SetBit "mie" 3;
   SetEnum "mpp" 11 13 [(3, "Machine"); (1, "Supervisor"); (0, "User")];
   GetEnum "fs" 13 15 [(0, "Off"); (1, "Initial"); (2, "Clean"); (3, "Dirty")]]).
Definition Mstatus : register := mk_register "mstatus" 0x300 (
  mstatus_methods ++
  [GetEnum "xs" 15 17 [(0, "AllOff"); (1, "NoneDirtyOrClean"); (2, "NoneDirtySomeClean"); (3, "SomeDirty")];
   GetBit "sd" 63] ++
  set_clear_csr "uie" (Z.shiftl 1 0) ++
  set_clear_csr "sie" (Z.shiftl 1 1) ++
  set_clear_csr "mie" (Z.shiftl 1 3) ++
  [CsrSet "upie" (Z.shiftl 1 4);
   CsrSet "spie" (Z.shiftl 1 5);
   CsrSet "mpie" (Z.shiftl 1 7);
   CsrBitEnum "spp" (Z.shiftl 1 8) "Supervisor" "User";
   CsrEnum "mpp" 11 13 [(3, "Machine"); (1, "Supervisor"); (0, "User")];
   CsrEnum "fs" 13 15 [(0, "Off"); (1, "Initial"); (2, "Clean"); (3, "Dirty")]]).

Definition sstatus_methods : list accessor := (
  [GetBit "uie" 0;
   GetBit "sie" 1;
   GetBit "upie" 4;
   GetBit "spie" 5;
   GetBitEnum "spp" 8 "Supervisor" "User";
   GetEnum "fs" 13 15 [(0, "Off"); (1, "Initial"); (2, "Clean"); (3, "Dirty")];
   GetEnum "xs" 15 17 [(0, "Off"); (1, "Initial"); (2, "Clean"); (3, "Dirty")];
   GetBit "sum" 18;
   GetBit "mxr" 19;
   GetBit "sd" 63;
   SetBit "spie" 5;
   SetBit "sie" 1;
   SetBitEnum "spp" 8 "Supervisor" "User"] ++
  set_clear_csr "uie" (Z.shiftl 1 0) ++
  set_clear_csr "sie" (Z.shiftl 1 1) ++
  [CsrSet "upie" (Z.shiftl 1 4);
   CsrSet "spie" (Z.shiftl 1 5)] ++
  set_clear_csr "mxr" (Z.shiftl 1 19) ++
  set_clear_csr "sum" (Z.shiftl 1 18)).
Definition Sstatus : register := mk_register "sstatus" 0x100 (
  sstatus_methods ++
  [CsrBitEnum "spp" (Z.shiftl 1 8) "Supervisor" "User";
   CsrEnum "fs" 13 15 [(0, "Off"); (1, "Initial"); (2, "Clean"); (3, "Dirty")]]).

Definition Ustatus : register := mk_register "ustatus" 0x0 (
  [GetBit "uie" 0;
   GetBit "upie" 4] ++
  set_clear_csr "uie" (Z.shiftl 1 0) ++
  [CsrSet "upie" (Z.shiftl 1 4)]).

Definition Mie : register := mk_register "mie" 0x304 (
  [GetBit "usoft" 0;
   GetBit "ssoft" 1;
   GetBit "msoft" 3;
   GetBit "utimer" 4;
   GetBit "stimer" 5;
   GetBit "mtimer" 7;
   GetBit "uext" 8;
   GetBit "sext" 9;
   GetBit "mext" 11] ++
  set_clear_csr "usoft" (Z.shiftl 1 0) ++
  set_clear_csr "ssoft" (Z.shiftl 1 1) ++
  set_clear_csr "msoft" (Z.shiftl 1 3) ++
  set_clear_csr "utimer" (Z.shiftl 1 4) ++
  set_clear_csr "stimer" (Z.shiftl 1 5) ++
  set_clear_csr "mtimer" (Z.shiftl 1 7) ++
  set_clear_csr "uext" (Z.shiftl 1 8) ++
  set_clear_csr "sext" (Z.shiftl 1 9) ++
  set_clear_csr "mext" (Z.shiftl 1 11)).

Definition Mip : register := mk_register "mip" 0x344 (
  [GetBit "usoft" 0;
   GetBit "ssoft" 1;
   GetBit "msoft" 3;
   GetBit "utimer" 4;
   GetBit "stimer" 5;
   GetBit "mtimer" 7;
   GetBit "uext" 8;
   GetBit "sext" 9;
   GetBit "mext" 11] ++
  set_clear_csr "usoft" (Z.shiftl 1 0) ++
  set_clear_csr "ssoft" (Z.shiftl 1 1) ++
  set_clear_csr "msoft" (Z.shiftl 1 3) ++
  set_clear_csr "utimer" (Z.shiftl 1 4) ++
  set_clear_csr "stimer" (Z.shiftl 1 5) ++
  set_clear_csr "mtimer" (Z.shiftl 1 7) ++
  set_clear_csr "uext" (Z.shiftl 1 8) ++
  set_clear_csr "sext" (Z.shiftl 1 9)).

Definition Sie : register := mk_register "sie" 0x104 (
  [GetBit "usoft" 0;
   GetBit "ssoft" 1;
   GetBit "utimer" 4;
   GetBit "stimer" 5;
   GetBit "uext" 8;
   GetBit "sext" 9] ++
  set_clear_csr "usoft" (Z.shiftl 1 0) ++
  set_clear_csr "ssoft" (Z.shiftl 1 1) ++
  set_clear_csr "utimer" (Z.shiftl 1 4) ++
  set_clear_csr "stimer" (Z.shiftl 1 5) ++
  set_clear_csr "uext" (Z.shiftl 1 8) ++
  set_clear_csr "sext" (Z.shiftl 1 9)).

Definition Sip : register := mk_register "sip" 0x144 (
  [GetBit "usoft" 0;
   GetBit "ssoft" 1;
   GetBit "utimer" 4;
   GetBit "stimer" 5;
   GetBit "uext" 8;
   GetBit "sext" 9]).

Definition Uie : register := mk_register "uie" 0x4 (
  [GetBit "usoft" 0;
   GetBit "utimer" 4;
   GetBit "uext" 8] ++
  set_clear_csr "usoft" (Z.shiftl 1 0) ++
  set_clear_csr "utimer" (Z.shiftl 1 4) ++
  set_clear_csr "uext" (Z.shiftl 1 8)).

Definition Uip : register := mk_register "uip" 0x44 (
  [GetBit "usoft" 0;
   GetBit "utimer" 4;
   GetBit "uext" 8]).

Definition Medeleg : register := mk_register "medeleg" 0x302 (
  [GetBit "instruction_misaligned" 0;
   GetBit "instruction_fault" 1;
   GetBit "illegal_instruction" 2;
   GetBit "breakpoint" 3;
   GetBit "load_misaligned" 4;
   GetBit "load_fault" 5;
   GetBit "store_misaligned" 6;
   GetBit "store_fault" 7;
   GetBit "user_env_call" 8;
   GetBit "supervisor_env_call" 9;
   GetBit "machine_env_call" 11;
   GetBit "instruction_page_fault" 12;
   GetBit "load_page_fault" 13;
   GetBit "store_page_fault" 15] ++
  set_clear_csr "instruction_misaligned" (Z.shiftl 1 0) ++
  set_clear_csr "instruction_fault" (Z.shiftl 1 1) ++
  set_clear_csr "illegal_instruction" (Z.shiftl 1 2) ++
  set_clear_csr "breakpoint" (Z.shiftl 1 3) ++
  set_clear_csr "load_misaligned" (Z.shiftl 1 4) ++
  set_clear_csr "load_fault" (Z.shiftl 1 5) ++
  set_clear_csr "store_misaligned" (Z.shiftl 1 6) ++
  set_clear_csr "store_fault" (Z.shiftl 1 7) ++
  set_clear_csr "user_env_call" (Z.shiftl 1 8) ++
  set_clear_csr "supervisor_env_call" (Z.shiftl 1 9) ++
  set_clear_csr "machine_env_call" (Z.shiftl 1 11) ++
  set_clear_csr "instruction_page_fault" (Z.shiftl 1 12) ++
  set_clear_csr "load_page_fault" (Z.shiftl 1 13) ++
  set_clear_csr "store_page_fault" (Z.shiftl 1 15)).

Definition Mideleg : register := mk_register "mideleg" 0x303 (
  [GetBit "usoft" 0;
   GetBit "ssoft" 1;
   GetBit "utimer" 4;
   GetBit "stimer" 5;
   GetBit "uext" 8;
   GetBit "sext" 9] ++
  set_clear_csr "usoft" (Z.shiftl 1 0) ++
  set_clear_csr "ssoft" (Z.shiftl 1 1) ++
  set_clear_csr "utimer" (Z.shiftl 1 4) ++
  set_clear_csr "stimer" (Z.shiftl 1 5) ++
  set_clear_csr "uext" (Z.shiftl 1 8) ++
  set_clear_csr "sext" (Z.shiftl 1 9)).

(** ** Hypervisor registers *)

Definition Hstatus : register := mk_register "hstatus" 1536 (
  [GetEnum "vsxl" 32 34 [(1, "Vsxl32"); (2, "Vsxl64"); (3, "Vsxl128")];
   SetEnum "vsxl" 32 34 [(1, "Vsxl32"); (2, "Vsxl64"); (3, "Vsxl128")];
   GetBit "vtsr" 22;
   SetBit "vtsr" 22;
   GetBit "vtw" 21;
   SetBit "vtw" 21;
   GetBit "vtvm" 20;
   SetBit "vtvm" 20;
   GetBits "vgein" 12 18;
   SetBits "vgein" 12 18;
   GetBit "hu" 9;
   SetBit "hu" 9;
   GetBit "spvp" 8;
   SetBit "spvp" 8;
   GetBit "spv" 7;
   SetBit "spv" 7;
   GetBit "gva" 6;
   SetBit "gva" 6;
   GetBit "vsbe" 5;
   SetBit "vsbe" 5] ++
  set_clear_csr "vtsr" (Z.shiftl 1 22) ++
  set_clear_csr "vtw" (Z.shiftl 1 21) ++
  set_clear_csr "vtvm" (Z.shiftl 1 20) ++
  set_clear_csr "hu" (Z.shiftl 1 9) ++
  set_clear_csr "spvp" (Z.shiftl 1 8) ++
  set_clear_csr "spv" (Z.shiftl 1 7) ++
  set_clear_csr "gva" (Z.shiftl 1 6) ++
  set_clear_csr "vsbe" (Z.shiftl 1 5)).

Definition hedeleg_methods : list accessor := (
  [GetBit "ex0" 0;
   SetBit "ex0" 0;
   GetBit "ex1" 1;
   SetBit "ex1" 1;
   GetBit "ex2" 2;
   SetBit "ex2" 2;
   GetBit "ex3" 3;
   SetBit "ex3" 3;
   GetBit "ex4" 4;
   SetBit "ex4" 4;
   GetBit "ex5" 5;
   SetBit "ex5" 5;
   GetBit "ex6" 6;
   SetBit "ex6" 6;
   GetBit "ex7" 7;
   SetBit "ex7" 7;
   GetBit "ex8" 8;
   SetBit "ex8" 8;
   GetBit "ex12" 12;
   SetBit "ex12" 12;
   GetBit "ex13" 13;
   SetBit "ex13" 13;
   GetBit "ex15" 15;
   SetBit "ex15" 15] ++
  set_clear_csr "ex0" (Z.shiftl 1 0) ++
  set_clear_csr "ex1" (Z.shiftl 1 1) ++
  set_clear_csr "ex2" (Z.shiftl 1 2) ++
  set_clear_csr "ex3" (Z.shiftl 1 3)).
Definition Hedeleg : register := mk_register "hedeleg" 1538 (
  hedeleg_methods ++
  set_clear_csr "ex4" (Z.shiftl 1 4) ++
  set_clear_csr "ex5" (Z.shiftl 1 5) ++
  set_clear_csr "ex6" (Z.shiftl 1 6) ++
  set_clear_csr "ex7" (Z.shiftl 1 7) ++
  set_clear_csr "ex8" (Z.shiftl 1 8) ++
  set_clear_csr "ex12" (Z.shiftl 1 12) ++
  set_clear_csr "ex13" (Z.shiftl 1 13) ++
  set_clear_csr "ex15" (Z.shiftl 1 15)).

Definition Hideleg : register := mk_register "hideleg" 1539 (
  [GetBit "sip" 2;
   SetBit "sip" 2;
   GetBit "tip" 6;
   SetBit "tip" 6;
   GetBit "eip" 10;
   SetBit "eip" 10] ++
  set_clear_csr "sip" (Z.shiftl 1 2) ++
  set_clear_csr "tip" (Z.shiftl 1 6) ++
  set_clear_csr "eip" (Z.shiftl 1 10)).

Definition Hie : register := mk_register "hie" 1540 (
  [GetBit "vssie" 2;
   SetBit "vssie" 2;
   GetBit "vstie" 6;
   SetBit "vstie" 6;
   GetBit "vseie" 10;
   SetBit "vseie" 10;
   GetBit "sgeie" 12;
   SetBit "sgeie" 12] ++
  set_clear_csr "vssie" (Z.shiftl 1 2) ++
  set_clear_csr "vstie" (Z.shiftl 1 6) ++
  set_clear_csr "vseie" (Z.shiftl 1 10) ++
  set_clear_csr "sgeie" (Z.shiftl 1 12)).

Definition Hip : register := mk_register "hip" 1604 (
  [GetBit "vssip" 2;
   SetBit "vssip" 2;
   GetBit "vstip" 6;
   SetBit "vstip" 6;
   GetBit "vseip" 10;
   SetBit "vseip" 10;
   GetBit "sgeip" 12;
   SetBit "sgeip" 12] ++
  set_clear_csr "vssip" (Z.shiftl 1 2) ++
  set_clear_csr "vstip" (Z.shiftl 1 6) ++
  set_clear_csr "vseip" (Z.shiftl 1 10) ++
  set_clear_csr "sgeip" (Z.shiftl 1 12)).

Definition Hvip : register := mk_register "hvip" 1605 (
  [GetBit "vssip" 2;
   SetBit "vssip" 2;
   GetBit "vstip" 6;
   SetBit "vstip" 6;
   GetBit "vseip" 10;
   SetBit "vseip" 10] ++
  set_clear_csr "vssip" (Z.shiftl 1 2) ++
  set_clear_csr "vstip" (Z.shiftl 1 6) ++
  set_clear_csr "vseip" (Z.shiftl 1 10)).

Definition Hgatp : register := mk_register "hgatp" 1664 (
  [GetEnum "mode" 60 64 [(0, "Bare"); (8, "Sv39x4"); (9, "Sv48x4")];
   SetEnum "mode" 60 64 [(0, "Bare"); (8, "Sv39x4"); (9, "Sv48x4")];
   GetBits "vmid" 44 58;
   SetBits "vmid" 44 58;
   GetBits "ppn" 0 44;
   SetBits "ppn" 0 44]).

Definition hcounteren_methods1 : list accessor := (
  [GetBit "cy" 0;
   SetBit "cy" 0;
   GetBit "tm" 1;
   SetBit "tm" 1;
   GetBit "ir" 2;
   SetBit "ir" 2;
   GetBit "hpm3" 3;
   SetBit "hpm3" 3;
   GetBit "hpm4" 4;
   SetBit "hpm4" 4;
   GetBit "hpm5" 5;
   SetBit "hpm5" 5;
   GetBit "hpm6" 6;
   SetBit "hpm6" 6;
   GetBit "hpm7" 7;
   SetBit "hpm7" 7;
   GetBit "hpm8" 8;
   SetBit "hpm8" 8;
   GetBit "hpm9" 9;
   SetBit "hpm9" 9;
   GetBit "hpm10" 10;
   SetBit "hpm10" 10;
   GetBit "hpm11" 11;
   SetBit "hpm11" 11;
   GetBit "hpm12" 12;
   SetBit "hpm12" 12;
   GetBit "hpm13" 13;
   SetBit "hpm13" 13]).
Definition hcounteren_methods2 : list accessor := (
  [GetBit "hpm14" 14;
   SetBit "hpm14" 14;
   GetBit "hpm15" 15;
   SetBit "hpm15" 15;
   GetBit "hpm16" 16;
   SetBit "hpm16" 16;
   GetBit "hpm17" 17;
   SetBit "hpm17" 17;
   GetBit "hpm18" 18;
   SetBit "hpm18" 18;
   GetBit "hpm19" 19;
   SetBit "hpm19" 19;
   GetBit "hpm20" 20;
   SetBit "hpm20" 20;
   GetBit "hpm21" 21;
   SetBit "hpm21" 21;
   GetBit "hpm22" 22;
   SetBit "hpm22" 22;
   GetBit "hpm23" 23;
   SetBit "hpm23" 23;
   GetBit "hpm24" 24;
   SetBit "hpm24" 24;
   GetBit "hpm25" 25;
   SetBit "hpm25" 25;
   GetBit "hpm26" 26;
   SetBit "hpm26" 26;
   GetBit "hpm27" 27;
   SetBit "hpm27" 27;
   GetBit "hpm28" 28;
   SetBit "hpm28" 28;
   GetBit "hpm29" 29;
   SetBit "hpm29" 29;
   GetBit "hpm30" 30]).
Definition Hcounteren : register := mk_register "hcounteren" 3602 (
  hcounteren_methods1 ++
  hcounteren_methods2 ++
  [SetBit "hpm30" 30;
   GetBit "hpm31" 31;
   SetBit "hpm31" 31] ++
  set_clear_csr "cy" (Z.shiftl 1 0) ++
  set_clear_csr "tm" (Z.shiftl 1 1) ++
  set_clear_csr "ir" (Z.shiftl 1 2) ++
  set_clear_csr "hpm3" (Z.shiftl 1 3) ++
  set_clear_csr "hpm4" (Z.shiftl 1 4) ++
  set_clear_csr "hpm5" (Z.shiftl 1 5) ++
  set_clear_csr "hpm6" (Z.shiftl 1 6) ++
  set_clear_csr "hpm7" (Z.shiftl 1 7) ++
  set_clear_csr "hpm8" (Z.shiftl 1 8) ++
  set_clear_csr "hpm9" (Z.shiftl 1 9) ++
  set_clear_csr "hpm10" (Z.shiftl 1 10) ++
  set_clear_csr "hpm11" (Z.shiftl 1 11) ++
  set_clear_csr "hpm12" (Z.shiftl 1 12) ++
  set_clear_csr "hpm13" (Z.shiftl 1 13) ++
  set_clear_csr "hpm14" (Z.shiftl 1 14) ++
  set_clear_csr "hpm15" (Z.shiftl 1 15) ++
  set_clear_csr "hpm16" (Z.shiftl 1 16) ++
  set_clear_csr "hpm17" (Z.shiftl 1 17) ++
  set_clear_csr "hpm18" (Z.shiftl 1 18) ++
  set_clear_csr "hpm19" (Z.shiftl 1 19) ++
  set_clear_csr "hpm20" (Z.shiftl 1 20) ++
  set_clear_csr "hpm21" (Z.shiftl 1 21) ++
  set_clear_csr "hpm22" (Z.shiftl 1 22) ++
  set_clear_csr "hpm23" (Z.shiftl 1 23) ++
  set_clear_csr "hpm24" (Z.shiftl 1 24) ++
  set_clear_csr "hpm25" (Z.shiftl 1 25) ++
  set_clear_csr "hpm26" (Z.shiftl 1 26) ++
  set_clear_csr "hpm27" (Z.shiftl 1 27) ++
  set_clear_csr "hpm28" (Z.shiftl 1 28) ++
  set_clear_csr "hpm29" (Z.shiftl 1 29) ++
  set_clear_csr "hpm30" (Z.shiftl 1 30) ++
  set_clear_csr "hpm31" (Z.shiftl 1 31)).

Definition Vsstatus : register := mk_register "vsstatus" 512 (
  [GetBits "sd" 60 64;
   SetBits "sd" 60 64;
   GetEnum "uxl" 32 34 [(1, "Uxl32"); (2, "Uxl64"); (3, "Uxl128")];
   SetEnum "uxl" 32 34 [(1, "Uxl32"); (2, "Uxl64"); (3, "Uxl128")];
   GetBit "mxr" 19;
   SetBit "mxr" 19;
   GetBit "sum" 18;
   SetBit "sum" 18;
   GetBits "xs" 15 17;
   SetBits "xs" 15 17;
   GetBits "fs" 13 15;
   SetBits "fs" 13 15;
   GetBit "spp" 8;
   SetBit "spp" 8;
   GetBit "ube" 6;
   SetBit "ube" 6;
   GetBit "spie" 5;
   SetBit "spie" 5;
   GetBit "sie" 1;
   SetBit "sie" 1] ++
  set_clear_csr "mxr" (Z.shiftl 1 19) ++
  set_clear_csr "sum" (Z.shiftl 1 18) ++
  set_clear_csr "spp" (Z.shiftl 1 8) ++
  set_clear_csr "ube" (Z.shiftl 1 6) ++
  set_clear_csr "spie" (Z.shiftl 1 5) ++
  set_clear_csr "sie" (Z.shiftl 1 1)).

Definition Vsatp : register := mk_register "vsatp" 640 (
  [GetEnum "mode" 60 64 [(0, "Bare"); (8, "Sv39x4"); (9, "Sv48x4")];
   SetEnum "mode" 60 64 [(0, "Bare"); (8, "Sv39x4"); (9, "Sv48x4")];
   GetBits "asid" 44 60;
   SetBits "asid" 44 60;
   GetBits "ppn" 0 44;
   SetBits "ppn" 0 44]).

Definition Vscause : register := mk_register "vscause" 578 (
  [GetBit "interrupt" 63;
   SetBit "interrupt" 63;
   GetBits "code" 0 63;
   SetBits "code" 0 63] ++
  set_clear_csr "interrupt" (Z.shiftl 1 63)).

Definition Vsie : register := mk_register "vsie" 516 (
  [GetBit "ssie" 1;
   SetBit "ssie" 1;
   GetBit "stie" 5;
   SetBit "stie" 5;
   GetBit "seie" 9;
   SetBit "seie" 9] ++
  set_clear_csr "ssie" (Z.shiftl 1 1) ++
  set_clear_csr "stie" (Z.shiftl 1 5) ++
  set_clear_csr "seie" (Z.shiftl 1 9)).

Definition Vsip : register := mk_register "vsip" 580 (
  [GetBit "ssip" 1;
   SetBit "ssip" 1;
   GetBit "stip" 5;
   SetBit "stip" 5;
   GetBit "seip" 9;
   SetBit "seip" 9] ++
  set_clear_csr "ssip" (Z.shiftl 1 1) ++
  set_clear_csr "stip" (Z.shiftl 1 5) ++
  set_clear_csr "seip" (Z.shiftl 1 9)).

Definition Vstvec : register := mk_register "vstvec" 517 (
  [GetBits "base" 2 64;
   SetBits "base" 2 64;
   GetBits "mode" 0 2;
   SetBits "mode" 0 2]).

(** ** Address translation *)

Definition Satp : register := mk_register "satp" 0x180
  [GetEnum "mode" 60 64 [(0, "Bare"); (8, "Sv39"); (9, "Sv48"); (10, "Sv57"); (11, "Sv64")];
   GetBits "asid" 44 60;
   GetBits "ppn" 0 44].

(** ** Trap causes *)

Definition mcause_interrupts : variants :=
  [(0, "UserSoft");
   (1, "SupervisorSoft");
   (3, "MachineSoft");
   (4, "UserTimer");
   (5, "SupervisorTimer");
   (7, "MachineTimer");
   (8, "UserExternal");
   (9, "SupervisorExternal");
   (11, "MachineExternal")].
Definition mcause_exceptions : variants :=
  [(0, "InstructionMisaligned");
   (1, "InstructionFault");
   (2, "IllegalInstruction");
   (3, "Breakpoint");
   (4, "LoadMisaligned");
   (5, "LoadFault");
   (6, "StoreMisaligned");
   (7, "StoreFault");
   (8, "UserEnvCall");
   (9, "SupervisorEnvCall");
   (11, "MachineEnvCall");
   (12, "InstructionPageFault");
   (13, "LoadPageFault");
   (15, "StorePageFault")].

Definition scause_interrupts : variants :=
  [(0, "UserSoft");
   (1, "SupervisorSoft");
   (2, "VirtualSupervisorSoft");
   (4, "UserTimer");
   (5, "SupervisorTimer");
   (6, "VirtualSupervisorTimer");
   (8, "UserExternal");
   (9, "SupervisorExternal");
   (10, "VirtualSupervisorExternal")].
Definition scause_exceptions : variants :=
  [(0, "InstructionMisaligned");
   (1, "InstructionFault");
   (2, "IllegalInstruction");
   (3, "Breakpoint");
   (5, "LoadFault");
   (6, "StoreMisaligned");
   (7, "StoreFault");
   (8, "UserEnvCall");
   (10, "VirtualSupervisorEnvCall");
   (12, "InstructionPageFault");
   (13, "LoadPageFault");
   (15, "StorePageFault");
   (20, "InstructionGuestPageFault");
   (21, "LoadGuestPageFault");
   (22, "VirtualInstruction");
   (23, "StoreGuestPageFault")].

(** ** Registers without methods of their own, and those whose methods are in [RiscvCsr] *)

Definition plain_registers : list register :=
  (uncurry (fun name csr => mk_register name csr []) <$>
  [("mcause", 0x342);
   ("scause", 0x142);
   ("ucause", 0x042);
   ("fcsr", 0x003);
   ("mtvec", 0x305);
   ("stvec", 0x105);
   ("utvec", 0x005);
   ("misa", 0x301);
   ("mvendorid", 0xF11);
   ("marchid", 0xF11);
   ("mimpid", 0xF11);
   ("mhartid", 0xf14);
   ("mepc", 0x341);
   ("mscratch", 0x340);
   ("mtval", 0x343);
   ("sepc", 0x141);
   ("sscratch", 0x140);
   ("stval", 0x143);
   ("uepc", 0x041);
   ("uscratch", 0x040);
   ("utval", 0x043);
   ("time", 0xC01);
   ("mcycle", 0xB00);
   ("minstret", 0xB02);
   ("hgeie", 1543);
   ("hgeip", 3602);
   ("htimedelta", 1541);
   ("htimedeltah", 1557);
   ("htinst", 1610);
   ("htval", 1603);
   ("vsepc", 577);
   ("vsscratch", 576);
   ("vstval", 579);
   ("pmpcfg0", 0x3A0);
   ("pmpcfg2", 0x3A2)]).

Definition hpmcounters : list register :=
  (uncurry (fun name csr => mk_register name csr []) <$>
  [("hpmcounter3", 0xC03); ("hpmcounter4", 0xC04); ("hpmcounter5", 0xC05); ("hpmcounter6", 0xC06); ("hpmcounter7", 0xC07); ("hpmcounter8", 0xC08); ("hpmcounter9", 0xC09); ("hpmcounter10", 0xC0A); ("hpmcounter11", 0xC0B); ("hpmcounter12", 0xC0C); ("hpmcounter13", 0xC0D); ("hpmcounter14", 0xC0E); ("hpmcounter15", 0xC0F); ("hpmcounter16", 0xC10); ("hpmcounter17", 0xC11); ("hpmcounter18", 0xC12); ("hpmcounter19", 0xC13); ("hpmcounter20", 0xC14); ("hpmcounter21", 0xC15); ("hpmcounter22", 0xC16); ("hpmcounter23", 0xC17); ("hpmcounter24", 0xC18); ("hpmcounter25", 0xC19); ("hpmcounter26", 0xC1A); ("hpmcounter27", 0xC1B); ("hpmcounter28", 0xC1C); ("hpmcounter29", 0xC1D); ("hpmcounter30", 0xC1E); ("hpmcounter31", 0xC1F)]).
Definition mhpmcounters : list register :=
  (uncurry (fun name csr => mk_register name csr []) <$>
  [("mhpmcounter3", 0xB03); ("mhpmcounter4", 0xB04); ("mhpmcounter5", 0xB05); ("mhpmcounter6", 0xB06); ("mhpmcounter7", 0xB07); ("mhpmcounter8", 0xB08); ("mhpmcounter9", 0xB09); ("mhpmcounter10", 0xB0A); ("mhpmcounter11", 0xB0B); ("mhpmcounter12", 0xB0C); ("mhpmcounter13", 0xB0D); ("mhpmcounter14", 0xB0E); ("mhpmcounter15", 0xB0F); ("mhpmcounter16", 0xB10); ("mhpmcounter17", 0xB11); ("mhpmcounter18", 0xB12); ("mhpmcounter19", 0xB13); ("mhpmcounter20", 0xB14); ("mhpmcounter21", 0xB15); ("mhpmcounter22", 0xB16); ("mhpmcounter23", 0xB17); ("mhpmcounter24", 0xB18); ("mhpmcounter25", 0xB19); ("mhpmcounter26", 0xB1A); ("mhpmcounter27", 0xB1B); ("mhpmcounter28", 0xB1C); ("mhpmcounter29", 0xB1D); ("mhpmcounter30", 0xB1E); ("mhpmcounter31", 0xB1F)]).
Definition mhpmevents : list register :=
  (uncurry (fun name csr => mk_register name csr []) <$>
  [("mhpmevent3", 0x323); ("mhpmevent4", 0x324); ("mhpmevent5", 0x325); ("mhpmevent6", 0x326); ("mhpmevent7", 0x327); ("mhpmevent8", 0x328); ("mhpmevent9", 0x329); ("mhpmevent10", 0x32A); ("mhpmevent11", 0x32B); ("mhpmevent12", 0x32C); ("mhpmevent13", 0x32D); ("mhpmevent14", 0x32E); ("mhpmevent15", 0x32F); ("mhpmevent16", 0x330); ("mhpmevent17", 0x331); ("mhpmevent18", 0x332); ("mhpmevent19", 0x333); ("mhpmevent20", 0x334); ("mhpmevent21", 0x335); ("mhpmevent22", 0x336); ("mhpmevent23", 0x337); ("mhpmevent24", 0x338); ("mhpmevent25", 0x339); ("mhpmevent26", 0x33A); ("mhpmevent27", 0x33B); ("mhpmevent28", 0x33C); ("mhpmevent29", 0x33D); ("mhpmevent30", 0x33E); ("mhpmevent31", 0x33F)]).
Definition pmpaddrs : list register :=
  (uncurry (fun name csr => mk_register name csr []) <$>
  [("pmpaddr0", 0x3B0); ("pmpaddr1", 0x3B1); ("pmpaddr2", 0x3B2); ("pmpaddr3", 0x3B3); ("pmpaddr4", 0x3B4); ("pmpaddr5", 0x3B5); ("pmpaddr6", 0x3B6); ("pmpaddr7", 0x3B7); ("pmpaddr8", 0x3B8); ("pmpaddr9", 0x3B9); ("pmpaddr10", 0x3BA); ("pmpaddr11", 0x3BB); ("pmpaddr12", 0x3BC); ("pmpaddr13", 0x3BD); ("pmpaddr14", 0x3BE); ("pmpaddr15", 0x3BF)]).

(** Every register of the crate on riscv64. *)
Definition registers : list register :=
  [Mstatus; Sstatus; Ustatus; Mie; Mip; Sie; Sip; Uie;
   Uip; Medeleg; Mideleg; Hstatus; Hedeleg; Hideleg; Hie; Hip;
   Hvip; Hgatp; Hcounteren; Vsstatus; Vsatp; Vscause; Vsie; Vsip;
   Vstvec; Satp] ++
  plain_registers ++ hpmcounters ++ mhpmcounters ++ mhpmevents ++ pmpaddrs.
