(* ===== verification/RiscvCsrSpec.v ===== *)
(** * What the register accessors promise

    For every register of the crate and every field: what a setter stores is what the
    getter returns, and no other field changes, on the copy of the register and on the
    register itself.  The numbers of the registers are distinct but for two mistakes. *)

From stdpp Require Import strings.
From S2P Require Import Prelude Config Address RiscvAddr RiscvAddrSpec RiscvCsr RiscvRegisters.
#[local] Open Scope Z_scope.

(** ** Fields *)

(** The name and the bits [lo..hi] that an accessor is about. *)
Definition field_of (a : accessor) : string * (Z * Z) :=
  match a with
  | GetBit f i | SetBit f i | GetBitEnum f i _ _ | SetBitEnum f i _ _ => (f, (i, i + 1))
  | GetBits f lo hi | SetBits f lo hi | GetEnum f lo hi _ | SetEnum f lo hi _ | CsrEnum f lo hi _ => (f, (lo, hi))
  | CsrSet f bits | CsrClear f bits | CsrBitEnum f bits _ _ => (f, (Z.log2 bits, Z.log2 bits + 1))
  end.
Abbreviation field_name a := (field_of a).1.
Abbreviation field_lo a := (field_of a).2.1.
Abbreviation field_hi a := (field_of a).2.2.

Definition is_getter (a : accessor) : bool :=
  match a with GetBit _ _ | GetBits _ _ _ | GetEnum _ _ _ _ | GetBitEnum _ _ _ _ => true | _ => false end.
Definition is_setter (a : accessor) : bool :=
  match a with SetBit _ _ | SetBits _ _ _ | SetEnum _ _ _ _ | SetBitEnum _ _ _ _ => true | _ => false end.
Definition is_csr_fn (a : accessor) : bool :=
  match a with CsrSet _ _ | CsrClear _ _ | CsrBitEnum _ _ _ _ | CsrEnum _ _ _ _ => true | _ => false end.

(** The number in bits [lo..hi]. *)
Definition field (bits lo hi : Z) : Z := (bits / 2 ^ lo) mod 2 ^ (hi - lo).

(** The value of the field that a getter makes of the number, and the number that a
    setter makes of a value. *)
Definition decode (a : accessor) (n : Z) : outcome value :=
  match a with
  | GetBit _ _ => Ok (VBool (Z.odd n))
  | GetBits _ _ _ => Ok (VNum n)
  | GetEnum _ _ _ vs => match variant_of vs n with Some v => Ok (VVariant v) | None => Panic Explicit end
  | GetBitEnum _ _ on off => Ok (VVariant (if Z.odd n then on else off))
  | _ => Panic Explicit
  end.
Definition encode (a : accessor) (v : value) : option Z :=
  match a, v with
  | SetBit _ _, VBool b => Some (Z.b2z b)
  | SetBits _ lo hi, VNum n => if decide (0 <= n < 2 ^ (hi - lo)) then Some n else None
  | (SetEnum _ _ _ vs | CsrEnum _ _ _ vs), VVariant v => discriminant vs v
  | (SetBitEnum _ _ on off | CsrBitEnum _ _ on off), VVariant v =>
      if String.eqb v on then Some 1 else if String.eqb v off then Some 0 else None
  | CsrSet _ _, VBool true => Some 1
  | CsrClear _ _, VBool false => Some 0
  | _, _ => None
  end.

(** ** Checks on the tables *)

Definition fit (vs : variants) (lo hi : Z) : bool := forallb (fun v => (0 <=? v.1) && (v.1 <? 2 ^ (hi - lo))) vs.
Definition accessor_ok (a : accessor) : bool :=
  (0 <=? field_lo a) && (field_lo a <? field_hi a) && (field_hi a <=? 64) &&
  match a with
  | GetEnum _ lo hi vs | SetEnum _ lo hi vs | CsrEnum _ lo hi vs => fit vs lo hi
  | CsrSet _ bits | CsrClear _ bits | CsrBitEnum _ bits _ _ => bits =? 2 ^ Z.log2 bits
  | _ => true
  end.

(** The getter reads back what the setter stores. *)
Definition compatible (g s : accessor) : bool :=
  match g, s with
  | GetBit _ _, (SetBit _ _ | CsrSet _ _ | CsrClear _ _) => true
  | GetBits _ _ _, SetBits _ _ _ => true
  | GetEnum _ _ _ vs, (SetEnum _ _ _ vs' | CsrEnum _ _ _ vs') =>
      forallb (fun v => match variant_of vs v.1 with Some n => String.eqb n v.2 | None => false end) vs'
  | GetBitEnum _ _ on off, (SetBitEnum _ _ on' off' | CsrBitEnum _ _ on' off') => String.eqb on on' && String.eqb off off' && negb (String.eqb on off)
  | _, _ => false
  end.

(** Accessors of one field are about the same bits, those of two fields about disjoint
    bits. *)
Definition pair_ok (a b : accessor) : bool :=
  if String.eqb (field_name a) (field_name b) then
    (field_lo a =? field_lo b) && (field_hi a =? field_hi b) &&
    (if is_getter a && negb (is_getter b) then compatible a b else true)
  else (field_hi a <=? field_lo b) || (field_hi b <=? field_lo a).
Definition register_ok (r : register) : bool :=
  forallb accessor_ok (methods r) && forallb (fun a => forallb (pair_ok a) (methods r)) (methods r).

Lemma registers_ok : forallb register_ok registers = true.
Proof. by vm_compute. Qed.

(** ** Bits of fields *)

Lemma field_bit x lo hi k : 0 <= lo <= hi -> 0 <= k -> Z.testbit (field x lo hi) k = (k <? hi - lo) && Z.testbit x (k + lo).
Proof.
  intros Hlo Hk. unfold field. destruct (Z.ltb_spec k (hi - lo)) as [Hlt|Hge]; cbn [andb].
  - rewrite Z.mod_pow2_bits_low by done. apply Z.div_pow2_bits; lia.
  - apply Z.mod_pow2_bits_high. lia.
Qed.

Lemma field_range x lo hi : lo <= hi -> 0 <= field x lo hi < 2 ^ (hi - lo).
Proof. intros. apply Z.mod_pos_bound, Z.pow_pos_nonneg; lia. Qed.

(** [x'] is [x] with [n] in the field [lo..hi]. *)
Definition written (x x' lo hi n : Z) : Prop :=
  is_usize x' /\ forall j, 0 <= j < 64 -> Z.testbit x' j = if decide (lo <= j < hi) then Z.testbit n (j - lo) else Z.testbit x j.

Lemma written_same x x' lo hi n : 0 <= lo -> lo < hi <= 64 -> 0 <= n < 2 ^ (hi - lo) -> written x x' lo hi n -> field x' lo hi = n.
Proof.
  intros Hlo Hhi Hn [_ Hw]. apply Z.bits_inj'. intros k Hk. rewrite field_bit by lia. destruct (Z.ltb_spec k (hi - lo)) as [Hlt|Hge]; cbn [andb].
  - rewrite Hw, decide_True by lia. f_equal. lia.
  - symmetry. rewrite <-(Z.mod_small n (2 ^ (hi - lo))) by done. apply Z.mod_pow2_bits_high. lia.
Qed.

Lemma written_other x x' lo hi n lo' hi' : 0 <= lo' -> lo' < hi' <= 64 -> hi <= lo' \/ hi' <= lo -> written x x' lo hi n -> field x' lo' hi' = field x lo' hi'.
Proof.
  intros Hlo' Hhi' Hdis [_ Hw]. apply Z.bits_inj'. intros k Hk. rewrite !field_bit by lia. destruct (Z.ltb_spec k (hi' - lo')); [|done].
  cbn [andb]. rewrite Hw, decide_False by lia. done.
Qed.

Lemma testbit_above x j : is_usize x -> 64 <= j -> Z.testbit x j = false.
Proof. unfold is_usize. intros Hx Hj. rewrite <-(Z.mod_small x (2 ^ 64)) by done. apply Z.mod_pow2_bits_high. lia. Qed.

Lemma bits_usize x : 0 <= x -> (forall j, 64 <= j -> Z.testbit x j = false) -> is_usize x.
Proof.
  intros Hx Hj. replace x with (x mod 2 ^ 64); [by apply Z.mod_pos_bound|]. apply Z.bits_inj'. intros k Hk.
  destruct (Z.lt_ge_cases k 64); [by apply Z.mod_pow2_bits_low|]. rewrite Hj by done. by apply Z.mod_pow2_bits_high.
Qed.

Lemma set_bits_value x a b v : 0 <= x -> 0 <= a < b -> 0 <= v < 2 ^ (b - a) ->
  x mod 2 ^ a + v * 2 ^ a + x / 2 ^ b * 2 ^ b = Z.lor ((x / 2 ^ b * 2 ^ (b - a) + v) * 2 ^ a) (x mod 2 ^ a).
Proof.
  intros Hx Hab Hv. rewrite lor_add_disjoint by (lia || (apply Z.mod_pos_bound, Z.pow_pos_nonneg; lia)).
  replace (2 ^ b) with (2 ^ (b - a) * 2 ^ a) at 2 by (rewrite <-Z.pow_add_r by lia; f_equal; lia). lia.
Qed.

Lemma bits_written x a b v : is_usize x -> 0 <= a < b -> b <= 64 -> 0 <= v < 2 ^ (b - a) ->
  written x (x mod 2 ^ a + v * 2 ^ a + x / 2 ^ b * 2 ^ b) a b v.
Proof.
  intros Hx Hab Hb Hv. unfold is_usize in Hx. rewrite set_bits_value by lia.
  assert (Hpos : 0 <= x / 2 ^ b) by (apply Z.div_pos; [lia|apply Z.pow_pos_nonneg; lia]).
  assert (Hbit : forall j, 0 <= j -> Z.testbit (Z.lor ((x / 2 ^ b * 2 ^ (b - a) + v) * 2 ^ a) (x mod 2 ^ a)) j =
    if decide (a <= j < b) then Z.testbit v (j - a) else Z.testbit x j).
  { intros j Hj. rewrite Z.lor_spec. destruct (Z.lt_ge_cases j a) as [Hja|Hja].
    - rewrite Z.mul_pow2_bits_low, Z.mod_pow2_bits_low by done. by rewrite decide_False by lia.
    - rewrite (Z.mod_pow2_bits_high x) by lia. rewrite orb_false_r, Z.mul_pow2_bits by lia. rewrite <-lor_add_disjoint by lia. rewrite Z.lor_spec.
      destruct (Z.lt_ge_cases j b) as [Hjb|Hjb].
      + rewrite Z.mul_pow2_bits_low by lia. by rewrite decide_True by lia.
      + rewrite Z.mul_pow2_bits by lia. rewrite <-(Z.mod_small v (2 ^ (b - a))), Z.mod_pow2_bits_high, orb_false_r by lia.
        rewrite Z.div_pow2_bits by lia. rewrite decide_False by lia. f_equal. lia. }
  split; [|intros j Hj; apply Hbit; lia]. apply bits_usize; [apply Z.lor_nonneg; split; [|apply Z.mod_pos_bound, Z.pow_pos_nonneg; lia]; assert (0 <= 2 ^ a) by (apply Z.pow_nonneg; lia); assert (0 <= 2 ^ (b - a)) by (apply Z.pow_nonneg; lia); nia|].
  intros j Hj. rewrite Hbit by lia. rewrite decide_False by lia. by apply testbit_above.
Qed.

(** ** Accessors *)

Section Accessors.
Context `{BitFieldSpec}.

Lemma accessor_ok_range a : accessor_ok a = true -> 0 <= field_lo a /\ field_lo a < field_hi a <= 64.
Proof. unfold accessor_ok. rewrite !andb_true_iff, !Z.leb_le, Z.ltb_lt. lia. Qed.

Lemma accessor_ok_body a : accessor_ok a = true ->
  match a with
  | GetEnum _ lo hi vs | SetEnum _ lo hi vs | CsrEnum _ lo hi vs => fit vs lo hi = true
  | CsrSet _ bits | CsrClear _ bits | CsrBitEnum _ bits _ _ => bits = 2 ^ Z.log2 bits
  | _ => True
  end.
Proof. unfold accessor_ok. rewrite andb_true_iff. intros [_ Hb]. destruct a; try done; by apply Z.eqb_eq. Qed.

Lemma odd_field x i : 0 <= i -> Z.odd (field x i (i + 1)) = Z.testbit x i.
Proof. intros Hi. rewrite <-Z.bit0_odd, field_bit by lia. rewrite Z.add_simpl_l. done. Qed.

Lemma get_decode g x : accessor_ok g = true -> is_getter g = true -> is_usize x -> get_fn g x = decode g (field x (field_lo g) (field_hi g)).
Proof.
  intros Hok%accessor_ok_range Hg Hx. destruct g; try done; cbn in *.
  - by rewrite get_bit_spec, odd_field by (done || lia).
  - by rewrite get_bits_spec by (done || lia).
  - by rewrite get_bits_spec by (done || lia).
  - by rewrite get_bit_spec, odd_field by (done || lia).
Qed.

Lemma fit_discriminant vs lo hi v d : fit vs lo hi = true -> discriminant vs v = Some d -> 0 <= d < 2 ^ (hi - lo).
Proof.
  induction vs as [|[d' v'] vs IH]; [done|]. cbn. rewrite !andb_true_iff, Z.leb_le, Z.ltb_lt. intros [Hd Hvs]. destruct (String.eqb v' v); [by intros [= <-]|by apply IH].
Qed.

Lemma encode_range s v n : accessor_ok s = true -> encode s v = Some n -> 0 <= n < 2 ^ (field_hi s - field_lo s).
Proof.
  intros Hok. pose proof (accessor_ok_range s Hok) as Hr. apply accessor_ok_body in Hok. destruct s, v; cbn in *; try done.
  all: rewrite ?Z.add_simpl_l; try (by apply fit_discriminant).
  - intros [= <-]. by destruct b.
  - case_decide; by intros [= <-].
  - destruct (String.eqb v on), (String.eqb v off); by intros [= <-].
  - destruct b; by intros [= <-].
  - destruct b; by intros [= <-].
  - destruct (String.eqb v on), (String.eqb v off); by intros [= <-].
Qed.

Lemma b2z_bit b i j : j = i -> Z.testbit (Z.b2z b) (j - i) = b.
Proof. intros ->. rewrite Z.sub_diag. by destruct b. Qed.

Lemma set_bit_written x i b : is_usize x -> 0 <= i < 64 -> written x (set_bit x i b) i (i + 1) (Z.b2z b).
Proof.
  intros Hx Hi. split; [by apply set_bit_usize|]. intros j Hj. rewrite set_bit_spec by (done || lia).
  do 2 case_decide; try lia; [|done]. by rewrite b2z_bit.
Qed.

Lemma set_bits_written x lo hi n : is_usize x -> 0 <= lo < hi -> hi <= 64 -> 0 <= n < 2 ^ (hi - lo) ->
  exists x', set_bits x lo hi n = Ok x' /\ written x x' lo hi n.
Proof. intros Hx Hlo Hhi Hn. rewrite set_bits_spec, decide_True by done. eexists. split; [done|]. by apply bits_written. Qed.

(** What is stored in a field of one bit. *)
Lemma encode_bit on off v n : (if String.eqb v on then Some 1 else if String.eqb v off then Some 0 else None) = Some n -> n = Z.b2z (String.eqb v on).
Proof. destruct (String.eqb v on), (String.eqb v off); by intros [= <-]. Qed.

Lemma set_written s v n x : accessor_ok s = true -> is_setter s = true -> encode s v = Some n -> is_usize x ->
  exists x', set_fn s v x = Ok x' /\ written x x' (field_lo s) (field_hi s) n.
Proof.
  intros Hok Hs Hn Hx. pose proof (accessor_ok_range s Hok) as Hr. pose proof (encode_range s v n Hok Hn) as Hnr.
  destruct s, v; try done; cbn [set_fn encode field_of fst snd] in *.
  - injection Hn as <-. eexists. split; [done|]. apply set_bit_written; [done|lia].
  - case_decide; [|done]. injection Hn as <-. apply set_bits_written; (done || lia).
  - rewrite Hn. apply set_bits_written; (done || lia).
  - apply encode_bit in Hn as ->. eexists. split; [done|]. apply set_bit_written; [done|lia].
Qed.

(** A register after a write, as far as bits can be written: those of the field have the new
    value, and the others the one they had. *)
Definition csr_written {K : Type} `{HartSpec K} (c : Z) (h h' : K) (lo hi n : Z) : Prop :=
  forall j, 0 <= j < 64 -> writable c j = true -> Z.testbit (csr_read h' c) j =
    if decide (lo <= j < hi) then Z.testbit n (j - lo) else Z.testbit (csr_read h c) j.

Lemma mask_bit i j : 0 <= i -> Z.testbit (2 ^ i) j = bool_decide (j = i).
Proof. intros Hi. case_bool_decide as Hj; [subst; by apply Z.pow2_bits_true|]. apply Z.pow2_bits_false. congruence. Qed.

Lemma mask_usize i : 0 <= i < 64 -> is_usize (2 ^ i).
Proof. intros Hi. split; [apply Z.pow_nonneg; lia|apply Z.pow_lt_mono_r; lia]. Qed.

Lemma csr_set_written {K : Type} `{HartSpec K} c i b (h : K) : 0 <= i < 64 ->
  csr_written c h (if b : bool then csrrs c (2 ^ i) h else csrrc c (2 ^ i) h) i (i + 1) (Z.b2z b).
Proof.
  intros Hi j Hj Hwr. destruct b; [rewrite csrrs_bit by (done || by apply mask_usize)|rewrite csrrc_bit by (done || by apply mask_usize)];
    rewrite mask_bit by lia; repeat first [case_bool_decide|case_decide]; try lia; try done; subst; rewrite ?Z.sub_diag; cbn;
    rewrite ?orb_true_r, ?orb_false_r, ?andb_false_r, ?andb_true_r; done.
Qed.

Lemma csr_fn_written {K : Type} `{HartSpec K} c s v n (h : K) : accessor_ok s = true -> is_csr_fn s = true -> encode s v = Some n ->
  exists h', csr_fn c s v h = Ok h' /\ csr_written c h h' (field_lo s) (field_hi s) n.
Proof.
  intros Hok Hs Hn. pose proof (accessor_ok_range s Hok) as Hr. pose proof (encode_range s v n Hok Hn) as Hnr. apply accessor_ok_body in Hok.
  destruct s, v; try done; cbn [csr_fn encode field_of fst snd] in *.
  - destruct b; [|done]. injection Hn as <-. revert Hok Hr Hnr. generalize (Z.log2 bits). intros i -> Hi _. eexists. split; [done|]. apply (csr_set_written c i true). lia.
  - destruct b; [done|]. injection Hn as <-. revert Hok Hr Hnr. generalize (Z.log2 bits). intros i -> Hi _. eexists. split; [done|]. apply (csr_set_written c i false). lia.
  - apply encode_bit in Hn as ->. revert Hok Hr Hnr. generalize (Z.log2 bits). intros i -> Hi _. eexists. split; [done|]. apply csr_set_written. lia.
  - rewrite Hn. destruct (set_bits_written (csr_read h c) lo hi n) as (x' & -> & [Hu Hw]); [apply csr_usize|lia..|]. cbn [obind].
    eexists. split; [done|]. intros j Hj Hwr. by rewrite csrrw_bit, Hw by done.
Qed.

Lemma discriminant_elem vs v d : discriminant vs v = Some d -> (d, v) ∈ vs.
Proof.
  induction vs as [|[d' v'] vs IH]; [done|]. cbn. destruct (String.eqb_spec v' v) as [->|]; [intros [= ->]; by left|]. intros Hd. right. by apply IH.
Qed.

Lemma compatible_decode g s v n : compatible g s = true -> encode s v = Some n -> decode g n = Ok v.
Proof.
  assert (Henum : forall vs vs' w, forallb (fun v => match variant_of vs v.1 with Some n => String.eqb n v.2 | None => false end) vs' = true ->
    discriminant vs' w = Some n -> match variant_of vs n with Some v => Ok (VVariant v) | None => Panic Explicit end = Ok (VVariant w)).
  { intros vs vs' w Hall Hd%discriminant_elem%list_elem_of_In. rewrite forallb_forall in Hall. specialize (Hall _ Hd). cbn in Hall.
    destruct (variant_of vs n) as [u|]; [|done]. by apply String.eqb_eq in Hall as ->. }
  assert (Hbit : forall on off on' off' w, String.eqb on on' && String.eqb off off' && negb (String.eqb on off) = true ->
    (if String.eqb w on' then Some 1 else if String.eqb w off' then Some 0 else None) = Some n -> Ok (VVariant (if Z.odd n then on else off)) = Ok (VVariant w)).
  { intros on off on' off' w. rewrite !andb_true_iff, !String.eqb_eq. intros [[-> ->] _].
    destruct (String.eqb_spec w on'), (String.eqb_spec w off'); intros [= <-]; cbn; congruence. }
  destruct g, s, v; try done; cbn [compatible encode decode]; try by apply Henum; try by eapply Hbit.
  - intros _ [= <-]. by destruct b.
  - destruct b; by intros _ [= <-].
  - destruct b; by intros _ [= <-].
  - intros _. case_decide; by intros [= <-].
  - by apply Hbit.
  - by apply Hbit.
Qed.

(** What [pair_ok] says of a getter and a setter. *)
Lemma pair_ok_same g s : pair_ok g s = true -> is_getter g = true -> is_getter s = false -> field_name g = field_name s ->
  field_lo g = field_lo s /\ field_hi g = field_hi s /\ compatible g s = true.
Proof.
  unfold pair_ok. intros Hp Hg Hs Hname. rewrite Hg, Hs, (proj2 (String.eqb_eq _ _) Hname), !andb_true_iff, !Z.eqb_eq in Hp. by destruct Hp as [[? ?] ?].
Qed.

Lemma pair_ok_other g s : pair_ok g s = true -> field_name g <> field_name s -> field_hi s <= field_lo g \/ field_hi g <= field_lo s.
Proof.
  unfold pair_ok. intros Hp Hname. apply String.eqb_neq in Hname. rewrite Hname, orb_true_iff, !Z.leb_le in Hp. lia.
Qed.

(** Reading a field after a write. *)
Lemma get_written g s v n x x' :
  accessor_ok g = true -> accessor_ok s = true -> pair_ok g s = true -> is_getter g = true -> is_getter s = false -> encode s v = Some n ->
  is_usize x -> written x x' (field_lo s) (field_hi s) n ->
  get_fn g x' = if decide (field_name g = field_name s) then Ok v else get_fn g x.
Proof.
  intros Hg Hs Hp Hget Hset Hn Hx Hw. pose proof (accessor_ok_range g Hg) as Hrg. pose proof (accessor_ok_range s Hs) as Hrs.
  rewrite !get_decode by (done || apply Hw). case_decide as Hname.
  - destruct (pair_ok_same g s Hp Hget Hset Hname) as (-> & -> & Hc). rewrite (written_same x x' _ _ n) by (done || lia || by apply encode_range with v).
    by apply compatible_decode with s.
  - f_equal. apply (written_other x x' (field_lo s) (field_hi s) n); [lia|lia|by apply pair_ok_other|done].
Qed.

(** What a getter returns depends on the bits of its field. *)
Lemma get_fn_bits g x x' : accessor_ok g = true -> is_getter g = true -> is_usize x -> is_usize x' ->
  (forall j, field_lo g <= j < field_hi g -> Z.testbit x' j = Z.testbit x j) -> get_fn g x' = get_fn g x.
Proof.
  intros Hg Hget Hx Hx' Hj. pose proof (accessor_ok_range g Hg) as Hr. rewrite !get_decode by done. f_equal. apply Z.bits_inj'. intros k Hk.
  rewrite !field_bit by lia. destruct (Z.ltb_spec k (field_hi g - field_lo g)); [|done]. cbn [andb]. apply Hj. lia.
Qed.

(** The bits of a field can be written. *)
Definition field_writable {K : Type} `{HartSpec K} (c : Z) (a : accessor) : Prop :=
  forall j, field_lo a <= j < field_hi a -> writable c j = true.

Lemma get_csr_written {K : Type} `{HartSpec K} c g s v n (h h' : K) :
  accessor_ok g = true -> accessor_ok s = true -> pair_ok g s = true -> is_getter g = true -> is_getter s = false -> encode s v = Some n ->
  field_writable c g -> csr_written c h h' (field_lo s) (field_hi s) n ->
  get_fn g (csr_read h' c) = if decide (field_name g = field_name s) then Ok v else get_fn g (csr_read h c).
Proof.
  intros Hg Hs Hp Hget Hset Hn Hwr Hw. pose proof (accessor_ok_range g Hg) as Hrg. pose proof (accessor_ok_range s Hs) as Hrs.
  pose proof (bits_written (csr_read h c) (field_lo s) (field_hi s) n (csr_usize h c) ltac:(lia) ltac:(lia) (encode_range s v n Hs Hn)) as Hx.
  revert Hx. generalize (csr_read h c mod 2 ^ field_lo s + n * 2 ^ field_lo s + csr_read h c / 2 ^ field_hi s * 2 ^ field_hi s). intros x' Hx.
  rewrite <-(get_written g s v n (csr_read h c) x') by (done || apply csr_usize). destruct Hx as [Hu Hx].
  apply get_fn_bits; [done|done|done|apply csr_usize|]. intros j Hj. rewrite Hw, Hx by (lia || by apply Hwr). done.
Qed.

(** Every field of every register is read back as it was set. *)
Definition field_laws (r : register) (g s : accessor) (v : value) : Prop :=
  let after (x : Z) := if decide (field_name g = field_name s) then Ok v else get_fn g x in
  (is_setter s = true -> forall x, is_usize x -> exists x', set_fn s v x = Ok x' /\ is_usize x' /\ get_fn g x' = after x) /\
  (is_csr_fn s = true -> forall (K : Type) `(HartSpec K) (h : K), field_writable (csr r) g ->
    exists h', csr_fn (csr r) s v h = Ok h' /\ get_fn g (csr_read h' (csr r)) = after (csr_read h (csr r))).

Lemma register_laws r g s v : r ∈ registers -> g ∈ methods r -> s ∈ methods r -> is_getter g = true -> is_Some (encode s v) -> field_laws r g s v.
Proof.
  intros Hr%list_elem_of_In Hg%list_elem_of_In Hs%list_elem_of_In Hget [n Hn]. pose proof registers_ok as Hall. rewrite forallb_forall in Hall. specialize (Hall r Hr).
  apply andb_true_iff in Hall as [Hacc Hpairs]. rewrite forallb_forall in Hacc, Hpairs. specialize (Hpairs g Hg). rewrite forallb_forall in Hpairs.
  pose proof (Hacc g Hg) as Hag. pose proof (Hacc s Hs) as Has. pose proof (Hpairs s Hs) as Hp.
  assert (Hset : is_getter s = false) by (by destruct s). split.
  - intros Hst x Hx. destruct (set_written s v n x Has Hst Hn Hx) as (x' & He & Hw). exists x'. split; [done|]. split; [apply Hw|]. by apply get_written with n.
  - intros Hst K HK1 HK2 h Hwr. destruct (csr_fn_written (csr r) s v n h Has Hst Hn) as (h' & He & Hw). exists h'. split; [done|].
    by apply get_csr_written with n.
Qed.

End Accessors.

(** ** Trap causes, trap vectors, satp and fcsr *)

Section Values.
Context `{BitFieldSpec}.

Lemma code_mod bits : is_usize bits -> code bits = bits mod 2 ^ 63.
Proof.
  intros Hb. unfold code. rewrite <-(Z.land_ones bits 63) by done. apply Z.bits_inj'. intros j Hj. rewrite !Z.land_spec, Z.lnot_spec by done.
  rewrite Z.shiftl_1_l, Z.pow2_bits_eqb, Z.testbit_ones_nonneg by done. destruct (Z.lt_ge_cases j 64) as [Hlt|Hge].
  - destruct (Z.eqb_spec 63 j), (Z.ltb_spec j 63); (done || lia).
  - by rewrite testbit_above.
Qed.

Lemma cause_cases bits : is_usize bits ->
  (is_interrupt bits = true /\ bits = 2 ^ 63 + code bits \/ is_interrupt bits = false /\ bits = code bits) /\ 0 <= code bits < 2 ^ 63.
Proof.
  intros Hb. rewrite code_mod by done. unfold is_interrupt. rewrite get_bit_spec by done. unfold is_usize in Hb. rewrite sign_bit by done.
  split; [|by apply Z.mod_pos_bound]. case_bool_decide.
  - left. split; [done|]. rewrite <-(Z.mod_unique bits (2 ^ 63) 1 (bits - 2 ^ 63)); lia.
  - right. split; [done|]. by rewrite Z.mod_small by lia.
Qed.

Lemma variant_of_elem vs d v : NoDup vs.*1 -> variant_of vs d = Some v <-> (d, v) ∈ vs.
Proof.
  induction vs as [|[d' v'] vs IH]; [cbn; split; [done|by intros ?%not_elem_of_nil]|]. cbn. intros [Hnin Hnd]%NoDup_cons. rewrite elem_of_cons, <-IH by done.
  destruct (Z.eqb_spec d' d) as [->|Hne].
  - split; [intros [= ->]; by left|]. intros [[= ->]|Hv]; [done|]. apply IH in Hv; [|done]. destruct Hnin. apply list_elem_of_fmap. by exists (d, v).
  - split; [by right|]. intros [[= -> ->]|Hv]; [done|done].
Qed.

Lemma default_known vs d v : v <> "Unknown"%string -> default "Unknown"%string (variant_of vs d) = v <-> variant_of vs d = Some v.
Proof. intros Hv. destruct (variant_of vs d); cbn; [naive_solver|]. split; [by intros <-|done]. Qed.

(** A register whose tables have no code twice and no code above 63 bits. *)
Lemma cause_known ints excs bits v :
  NoDup ints.*1 -> NoDup excs.*1 -> fit ints 0 63 = true -> fit excs 0 63 = true -> is_usize bits -> v <> "Unknown"%string ->
  (cause ints excs bits = Interrupt v <-> exists d, (d, v) ∈ ints /\ bits = 2 ^ 63 + d) /\
  (cause ints excs bits = Exception v <-> exists d, (d, v) ∈ excs /\ bits = d).
Proof.
  intros Hi He Hfi Hfe Hb Hv. destruct (cause_cases bits Hb) as [Hcase Hcode]. unfold cause.
  assert (Hbound : forall vs d, fit vs 0 63 = true -> (d, v) ∈ vs -> 0 <= d < 2 ^ 63).
  { intros vs d Hf Hd%list_elem_of_In. unfold fit in Hf. rewrite forallb_forall in Hf. specialize (Hf _ Hd). cbn in Hf. rewrite andb_true_iff, Z.leb_le, Z.ltb_lt in Hf. done. }
  destruct Hcase as [[-> Hc]|[-> Hc]]; (split; [split|split]).
  - intros [= Hd]. apply default_known, variant_of_elem in Hd; [|done..]. eauto.
  - intros (d & Hd & ->). f_equal. apply default_known; [done|]. apply variant_of_elem; [done|]. replace (code (2 ^ 63 + d)) with d by lia. done.
  - done.
  - intros (d & Hd & ->). pose proof (Hbound _ _ Hfe Hd). lia.
  - done.
  - intros (d & Hd & ->). pose proof (Hbound _ _ Hfi Hd). lia.
  - intros [= Hd]. apply default_known, variant_of_elem in Hd; [|done..]. eauto.
  - intros (d & Hd & ->). f_equal. apply default_known; [done|]. apply variant_of_elem; [done|]. by rewrite <-Hc.
Qed.

Lemma land_3 x : Z.land x 3 = x mod 4.
Proof. change 3 with (Z.ones 2). by rewrite Z.land_ones. Qed.

Lemma tvec_round_trip addr mode : is_usize addr -> addr mod 4 = 0 ->
  tvec_address (tvec_bits addr mode) = addr /\ tvec_trap_mode (tvec_bits addr mode) = Some mode.
Proof.
  unfold is_usize. intros Ha Hal. assert (Hlt : addr + 3 < 2 ^ 64) by (pose proof (Z.div_mod addr 4); lia).
  assert (Hbits : tvec_bits addr mode = addr + match mode with Direct => 0 | Vectored => 1 end) by (unfold tvec_bits; destruct mode; apply wrap64_small; lia).
  assert (Hland : Z.land (tvec_bits addr mode) 3 = match mode with Direct => 0 | Vectored => 1 end).
  { rewrite land_3, Hbits, Z.add_mod, Hal by done. by destruct mode. }
  unfold tvec_address, tvec_trap_mode. rewrite Hland, Hbits. split; [rewrite wrap64_small; destruct mode; lia|by destruct mode].
Qed.

Lemma satp_value mode asid ppn : 0 <= mode < 2 ^ 4 -> 0 <= asid < 2 ^ 16 -> 0 <= ppn < 2 ^ 44 ->
  satp_bits mode asid ppn = Ok (mode * 2 ^ 60 + asid * 2 ^ 44 + ppn).
Proof.
  intros Hm Ha Hp. unfold satp_bits. rewrite set_bits_spec by done. rewrite decide_True by done. cbn [obind].
  replace (0 mod 2 ^ 60 + mode * 2 ^ 60 + 0 / 2 ^ 64 * 2 ^ 64) with (mode * 2 ^ 60) by (rewrite Z.mod_0_l, Z.div_0_l by done; lia).
  rewrite set_bits_spec by (unfold is_usize; lia). rewrite decide_True by done. cbn [obind].
  replace (mode * 2 ^ 60 mod 2 ^ 44) with 0 by (symmetry; apply Z.mod_divide; [done|]; exists (mode * 2 ^ 16); lia). rewrite Z.div_mul by done.
  rewrite set_bits_spec by (unfold is_usize; lia). rewrite decide_True by done. cbn [obind]. f_equal.
  replace ((0 + asid * 2 ^ 44 + mode * 2 ^ 60) / 2 ^ 44) with (mode * 2 ^ 16 + asid) by (apply (Z.div_unique _ _ _ 0); lia).
  change (2 ^ 0) with 1. rewrite Z.mod_1_r. lia.
Qed.

Lemma wrap32_field x lo hi : 0 <= lo <= hi -> hi <= 32 -> field (wrap32 x) lo hi = field x lo hi.
Proof. intros Hlo Hhi. unfold field, wrap32. apply field_mod; lia. Qed.

Lemma wrap32_usize x : is_usize (wrap32 x).
Proof. pose proof (Z.mod_pos_bound x (2 ^ 32)). unfold is_usize, wrap32. lia. Qed.

Lemma fcsr_round_trip {K : Type} `{HartSpec K} mode (h : K) : 0 <= mode < 2 ^ 3 -> (forall j, 0 <= j < 8 -> writable 3 j = true) ->
  let h' := set_rounding_mode mode h in
  frm (fcsr_read h') = default "Invalid"%string (variant_of rounding_modes mode) /\ fflags (fcsr_read h') = fflags (fcsr_read h).
Proof.
  intros Hm Hwr h'. assert (Hf : forall x, fflags (wrap32 x) = field (wrap32 x) 0 5) by (intros x; unfold fflags; by rewrite get_bits_spec by (done || apply wrap32_usize)).
  set (fl := fflags (fcsr_read h)) in *. assert (Hfl : 0 <= fl < 2 ^ 5) by (unfold fl, fcsr_read; rewrite Hf; by apply field_range).
  assert (Hbits : Z.lor (wrap32 (Z.shiftl mode 5)) fl = mode * 2 ^ 5 + fl).
  { rewrite shiftl_mul, wrap32_small by lia. by apply lor_add_disjoint. }
  assert (Hread : forall lo hi, 0 <= lo < hi -> hi <= 8 -> field (fcsr_read h') lo hi = field (mode * 2 ^ 5 + fl) lo hi).
  { intros lo hi Hlo Hhi. unfold fcsr_read. rewrite wrap32_field by lia. apply Z.bits_inj'. intros k Hk. rewrite !field_bit by lia.
    destruct (Z.ltb_spec k (hi - lo)); [|done]. cbn [andb]. unfold h', set_rounding_mode. fold fl. rewrite Hbits.
    by rewrite csrrw_bit by (unfold is_usize; (lia || apply Hwr; lia)). }
  unfold frm, fcsr_read. rewrite Hf, get_bits_spec by (done || apply wrap32_usize). fold (field (wrap32 (csr_read h' 3)) 5 8). fold (fcsr_read h'). rewrite !Hread by lia.
  unfold field. split.
  - rewrite Z.div_add_l, (Z.div_small fl), Z.add_0_r, Z.mod_small by (done || lia). done.
  - change (2 ^ 0) with 1. rewrite Z.div_1_r, Z.add_comm, Z.mod_add by done. by apply Z.mod_small.
Qed.

End Values.

(** ** The contract *)

(** Pairs of registers with one number. *)
Fixpoint collisions (rs : list register) : list (string * string) :=
  match rs with
  | [] => []
  | r :: rest => ((fun q => (reg_name r, reg_name q)) <$> filter (fun q => csr q = csr r) rest) ++ collisions rest
  end.


(** The registers with methods of their own.  [cause] of mcause and scause is the interrupt
    or the exception with the given code and [Unknown] for the other codes; a trap vector
    that is aligned is read back with its mode; satp gives back mode, address space and
    page number; and setting the rounding mode leaves the exception flags alone. *)
Theorem register_values_read_back `{BitFieldSpec} :
  (forall ints excs bits v, (ints, excs) ∈ [(mcause_interrupts, mcause_exceptions); (scause_interrupts, scause_exceptions)] ->
    is_usize bits -> v <> "Unknown"%string ->
    (cause ints excs bits = Interrupt v <-> exists d, (d, v) ∈ ints /\ bits = 2 ^ 63 + d) /\
    (cause ints excs bits = Exception v <-> exists d, (d, v) ∈ excs /\ bits = d)) /\
  (forall addr mode, is_usize addr -> addr mod 4 = 0 ->
    tvec_address (tvec_bits addr mode) = addr /\ tvec_trap_mode (tvec_bits addr mode) = Some mode) /\
  (forall mode asid ppn, 0 <= mode < 2 ^ 4 -> 0 <= asid < 2 ^ 16 -> 0 <= ppn < 2 ^ 44 ->
    exists bits, satp_bits mode asid ppn = Ok bits /\ get_bits bits 60 64 = mode /\ get_bits bits 44 60 = asid /\ get_bits bits 0 44 = ppn) /\
  (forall (K : Type) `(HartSpec K) mode (h : K), 0 <= mode < 2 ^ 3 -> (forall j, 0 <= j < 8 -> writable 3 j = true) ->
    let h' := set_rounding_mode mode h in
    frm (fcsr_read h') = default "Invalid"%string (variant_of rounding_modes mode) /\ fflags (fcsr_read h') = fflags (fcsr_read h)).
Proof.
  split; [|split; [apply tvec_round_trip|split]].
  - intros ints excs bits v Ht Hb Hv. apply cause_known; try done.
    all: apply elem_of_cons in Ht as [[= -> ->]|[[= -> ->]|?%not_elem_of_nil]%elem_of_cons]; try done.
    all: apply (bool_decide_unpack _); by vm_compute.
  - intros mode asid ppn Hm Ha Hp. eexists. split; [by apply satp_value|].
    rewrite !get_bits_spec by (unfold is_usize; lia). split_and!.
    + apply (digit_at 60 4 0 mode (asid * 2 ^ 44 + ppn)); lia.
    + apply (digit_at 44 16 mode asid ppn); lia.
    + apply (digit_at 0 44 (mode * 2 ^ 16 + asid) ppn 0); lia.
  - intros K HK1 HK2 mode h Hm Hwr. by apply fcsr_round_trip.
Qed.

(** ** A hart whose [sd] is a summary *)

(** Registers are 64 bits; in mstatus and sstatus the top bit is read as whether [fs] or
    [xs] is dirty. *)
Module SummaryHart.
Definition hart : Type := Z -> Z.
Definition has_sd (c : Z) : bool := (c =? 0x300) || (c =? 0x100).
Definition dirty (x : Z) : bool := (x / 2 ^ 13 mod 4 =? 3) || (x / 2 ^ 15 mod 4 =? 3).
Definition read (h : hart) (c : Z) : Z := if has_sd c then h c mod 2 ^ 63 + (if dirty (h c) then 2 ^ 63 else 0) else wrap64 (h c).
Definition put (c v : Z) (h : hart) : hart := fun d => if d =? c then v else h d.

#[global] Instance hart_ops : Hart hart := {|
  csr_read := read;
  csrrw := put;
  csrrs c v h := put c (Z.lor (read h c) v) h;
  csrrc c v h := put c (Z.ldiff (read h c) v) h
|}.

Lemma read_usize h c : is_usize (read h c).
Proof.
  unfold read, is_usize. destruct (has_sd c); [|apply wrap64_range]. pose proof (Z.mod_pos_bound (h c) (2 ^ 63)). destruct (dirty (h c)); lia.
Qed.

Lemma read_put h c v i : 0 <= i < 64 -> negb (has_sd c && (i =? 63)) = true -> Z.testbit (read (put c v h) c) i = Z.testbit v i.
Proof.
  intros Hi Hw. unfold read, put. rewrite Z.eqb_refl. destruct (has_sd c).
  - cbn [andb] in Hw. apply negb_true_iff, Z.eqb_neq in Hw. rewrite <-(Z.mod_pow2_bits_low _ 63 i) by lia. rewrite <-(Z.mod_pow2_bits_low v 63 i) by lia. f_equal.
    destruct (dirty v); [rewrite <-(Z.mul_1_l (2 ^ 63)) at 2; rewrite Z.mod_add by done|rewrite Z.add_0_r]; by apply Z.mod_mod.
  - unfold wrap64. apply Z.mod_pow2_bits_low. lia.
Qed.

#[global] Program Instance hart_spec : HartSpec hart := {| writable c i := negb (has_sd c && (i =? 63)) |}.
Next Obligation. apply read_usize. Qed.
Next Obligation. intros h c v i _ Hi Hw. by apply read_put. Qed.
Next Obligation. intros h c v i _ Hi Hw. cbn. rewrite read_put by done. apply Z.lor_spec. Qed.
Next Obligation. intros h c v i _ Hi Hw. cbn. rewrite read_put by done. rewrite Z.ldiff_spec. by destruct (Z.testbit v i). Qed.

(** The floating-point unit is off. *)
Definition start : hart := fun _ => 0.
End SummaryHart.


(** The timer interrupt of the supervisor. *)
Lemma register_values_read_back_witness :
  @cause bit_field_ops scause_interrupts scause_exceptions (2 ^ 63 + 5) = Interrupt "SupervisorTimer".
Proof.
  apply (proj1 (@register_values_read_back bit_field_ops bit_field_ops_spec) scause_interrupts scause_exceptions); [set_solver|done|done|].
  exists 5. split; [|done]. set_solver.
Defined.
