(* ===== verification/RiscvOs5.v ===== *)
(** * The riscv crate and the kernel agree on Sv39

    The crate's [Rv39PageTable] and the page tables of os5 read one tree of tables in the
    same way: they split a virtual address into the same indexes and find the same entry. *)

From S2P Require Import Prelude Config Address PhysMem PageTable PageTableSpec RiscvAddr RiscvAddrSpec RiscvPaging RiscvPagingSpec RiscvMapperSpec RiscvTablesSpec RiscvCsr RiscvCsrSpec.

Section Agree.
Context `{BitFieldSpec} {T : Type} `{!FrameAllocatorFor T PhysAddrSv39, !FrameAllocatorForSpec T PhysAddrSv39 56}.
#[local] Existing Instances PageTableEntryX64 PageTableEntryX64_spec.

(** The indexes of a canonical address. *)
Lemma sv39_indexes (a : VirtAddrSv39) : canonical 39 (va39 a) ->
  indexes (VirtAddr_floor (va39 a)) = [l3_p3_index a; l3_p2_index a; l3_p1_index a] /\ VirtAddr_page_offset (va39 a) = page_offset a.
Proof.
  intros Ha%canonical_usize; [|by left]. cbn [l3_p3_index l3_p2_index l3_p1_index page_offset VirtAddrSv39_L3 VirtAddrSv39_Address].
  rewrite get_offset, !(get_field _ _ _ 9) by (done || lia). rewrite VirtAddr_page_offset_mod. split; [|done].
  rewrite indexes_eq. unfold VirtAddr_floor, PAGE_SIZE. rewrite !shiftr_div, !Z.div_div by lia. done.
Qed.

Lemma pte_is_valid_bit e : pte_is_valid e = Z.testbit e 0.
Proof. by rewrite pte_is_valid_odd, Z.bit0_odd. Qed.

Lemma pte_ppn_entry e : is_no (width := 56) (entry_ppn e) -> pte_ppn e = entry_ppn e.
Proof. unfold pte_ppn, entry_ppn, is_no. intros Hn. change ((1 <<% 44) - 1) with (Z.ones 44). rewrite Z.land_ones by done. by apply Z.mod_small. Qed.

Lemma slot_pte n i : is_no (width := 56) n -> slot (ptr 0 n) i = pte_addr n i.
Proof.
  unfold is_no. change (56 - 12) with 44. intros Hn. unfold slot, ptr, pte_addr, PAGE_SIZE. rewrite page_base_small by lia.
  cbn [entry_bytes PageTableEntryX64]. lia.
Qed.

Lemma slot_load_pte m n i : is_no (width := 56) n -> slot_load m (ptr 0 n) i = pte_load m n i.
Proof. intros Hn. unfold slot_load, pte_load. by rewrite slot_pte. Qed.

(** The two walks reach the same tables. *)
Lemma walk_agrees m root d ts path0 n path :
  tree_wf (width := 56) 0 m root d ts -> in_tree d (path0 ++ path) -> is_no (width := 56) n ->
  RiscvPagingSpec.walk 0 m root path0 = Some (ptr 0 n) ->
  RiscvPagingSpec.walk 0 m root (path0 ++ path) = ptr 0 <$> PageTableSpec.walk m n path /\
  forall q, PageTableSpec.walk m n path = Some q -> is_no (width := 56) q.
Proof.
  intros Hwf. revert path0 n. induction path as [|i path IH]; intros path0 n Hin Hn Hp.
  - rewrite app_nil_r. split; [done|]. by intros q [= <-].
  - assert (Hassoc : path0 ++ i :: path = (path0 ++ [i]) ++ path) by (by rewrite <-app_assoc).
    rewrite Hassoc in *. assert (Hin0 : in_tree d path0) by (by do 2 eapply in_tree_app).
    assert (Hi : is_idx i) by (by eapply in_tree_idx, in_tree_app).
    pose proof (tw_entry _ _ _ _ _ Hwf path0 _ i Hin0 Hp Hi) as Hno. pose proof (tw_valid _ _ _ _ _ Hwf path0 _ i (in_tree_app _ _ _ Hin) Hp) as Hval.
    assert (Hstep : RiscvPagingSpec.walk 0 m root (path0 ++ [i]) = (if pte_is_valid (pte_load m n i) then Some (ptr 0 (pte_ppn (pte_load m n i))) else None)).
    { rewrite tree_walk_app, Hp. cbn [mbind option_bind RiscvPagingSpec.walk]. rewrite slot_load_pte in * by done. rewrite pte_is_valid_bit, pte_ppn_entry by done.
      unfold is_unused. destruct (Z.eqb_spec (pte_load m n i) 0) as [->|Hne]; [done|]. by rewrite Hval. }
    rewrite slot_load_pte in Hno by done. cbn [PageTableSpec.walk]. destruct (pte_is_valid (pte_load m n i)).
    + apply IH; [done| |done]. by rewrite pte_ppn_entry.
    + split; [|done]. by rewrite tree_walk_app, Hstep.
Qed.

(** The two look-ups of an entry. *)
Lemma ref_entry_agrees root s ts (page : PageWith VirtAddrSv39) :
  let pt := mk_rv39 (root * PAGE_SIZE) 0 in
  is_no (width := 56) root -> mapper_ok pt s ts -> page_ok page ->
  ref_entry pt page s = Ok (match find_pte (kmem s) (mk_pt root []) (VirtAddr_floor (va39 (page_addr page))) with
    | Some a => Good a
    | None => Err FlagPageNotMapped
    end, s).
Proof.
  intros pt Hroot Hok Hpage. pose proof Hpage as [Hcan Hoff]. destruct Hok as (Hlo & H64 & [Hwf _]). destruct (key_in page Hpage) as (Hin & _ & Hi).
  destruct (sv39_indexes _ Hcan) as [Hidx _]. assert (Hr : rv39_root pt = ptr 0 root) by (cbn; unfold ptr; lia).
  destruct (walk_agrees (kmem s) (rv39_root pt) 2 ts [] root (key_path page) Hwf Hin Hroot) as [Hw Hq]; [by rewrite Hr|].
  rewrite (find_pte_walk _ _ _ _ _ _ Hidx). cbn [root_ppn app] in *. change [l3_p3_index (page_addr page); l3_p2_index (page_addr page)] with (key_path page).
  apply wp_eq. eapply wp_pointwise; [apply (tm_ref (TreeMapper := Rv39PageTable_tree) pt page)|]. apply wp_try.
  eapply wp_mono; [|apply (wp_find_path 0 Hlo H64 FlagPageNotMapped s (rv39_root pt) 2 ts [] (rv39_root pt) (key_path page) Hwf Hin eq_refl)].
  intros r s' [-> ->]. cbn [app]. rewrite Hw. destruct (PageTableSpec.walk (kmem s) root (key_path page)) as [q|]; cbn [fmap option_fmap option_map]; [|done].
  apply wp_bind, (wp_table_index (width := 56)); [done|]. apply wp_ret. rewrite <-(slot_pte q) by (by apply Hq). done.
Qed.

(** What os5 finds for a page in a tree of the crate. *)
Lemma translate_agrees root s ts (page : PageWith VirtAddrSv39) :
  let pt := mk_rv39 (root * PAGE_SIZE) 0 in
  let vpn := VirtAddr_floor (va39 (page_addr page)) in
  is_no (width := 56) root -> mapper_ok pt s ts -> page_ok page ->
  entry_at pt s page = default 0 (translate (kmem s) (mk_pt root []) vpn) /\
  forall e, translate (kmem s) (mk_pt root []) vpn = Some e -> is_no (width := 56) (entry_ppn e).
Proof.
  intros pt vpn Hroot Hok Hpage. pose proof (entry_at_no pt s ts page Hok Hpage) as Hno. pose proof Hpage as [Hcan Hoff].
  destruct Hok as (_ & _ & [Hwf _]). destruct (key_in page Hpage) as (Hin & _ & _). destruct (sv39_indexes _ Hcan) as [Hidx _].
  destruct (walk_agrees (kmem s) (rv39_root pt) 2 ts [] root (key_path page) Hwf Hin Hroot) as [Hw Hq].
  { cbn. unfold ptr. f_equal. lia. }
  fold vpn in Hidx. rewrite (translate_walk _ _ _ _ _ _ Hidx). cbn [root_ppn app] in *.
  assert (He : entry_at pt s page = match PageTableSpec.walk (kmem s) root (key_path page) with Some p => pte_load (kmem s) p (key_index page) | None => 0 end).
  { cbn [entry_at Rv39PageTable_spec tree_mapper_spec]. unfold tree_entry, view. cbn [tm_offset tm_root Rv39PageTable_tree]. change (rv39_offset pt) with 0.
    rewrite Hw. destruct (PageTableSpec.walk (kmem s) root (key_path page)) as [q|] eqn:E; cbn; [|done]. by apply slot_load_pte, Hq. }
  rewrite He in *. change [l3_p3_index (page_addr page); l3_p2_index (page_addr page)] with (key_path page).
  destruct (PageTableSpec.walk _ _ _); (split; [done|]); [|done]. by intros e [= <-].
Qed.

Lemma satp_is_token root : is_no (width := 56) root -> satp_bits 8 0 root = Ok (PageTable_token (mk_pt root [])).
Proof.
  unfold is_no. change (56 - 12) with 44. intros Hr. rewrite satp_value by done. unfold PageTable_token. cbn [root_ppn]. f_equal.
  change (8 <<% 60) with (8 * 2 ^ 60). rewrite lor_add_disjoint by lia. lia.
Qed.

(** C31: On a tree of Sv39 tables the crate and the kernel of os5 walk alike.  os5 splits the
    address of a page into the crate's three indexes; [ref_entry] finds the entry that os5's
    [find_pte] finds, and fails when it finds none; [translate_page] returns the frame of the
    entry that os5's [translate] reads, unless the entry is zero; [unmap], which like os5
    tests the valid bit, succeeds exactly on the pages that os5 takes for mapped, returns the
    frame that os5 has for the page, and leaves the page unmapped for os5.  The value of satp
    that the crate writes for the tree in mode Sv39 is the token of os5.  (An entry that is
    not zero and not valid is a frame for [translate_page], and no mapping for os5.) *)
Theorem rv39_agrees_with_os5 root s ts (page : PageWith VirtAddrSv39) :
  let pt := mk_rv39 (root * PAGE_SIZE) 0 in
  let a := page_addr page in
  let vpn := VirtAddr_floor (va39 a) in
  is_no (width := 56) root -> mapper_ok pt s ts -> page_ok page ->
  indexes vpn = [l3_p3_index a; l3_p2_index a; l3_p1_index a] /\
  ref_entry pt page s = Ok (match find_pte (kmem s) (mk_pt root []) vpn with Some e => Good e | None => Err FlagPageNotMapped end, s) /\
  translate_page pt page s = Ok (match translate (kmem s) (mk_pt root []) vpn with
    | Some e => if e =? 0 then None else Some (frame_no (pte_ppn e))
    | None => None
    end, s) /\
  wp (unmap pt page) (fun r s' =>
    match PageTableSpec.mapping (kmem s) (mk_pt root []) vpn with
    | Some e => (exists f, r = Good (frame_no (pte_ppn e), f)) /\ PageTableSpec.mapping (kmem s') (mk_pt root []) vpn = None
    | None => r = Err UnmapPageNotMapped /\ s' = s
    end) s /\
  satp_bits 8 0 root = Ok (PageTable_token (mk_pt root [])).
Proof.
  intros pt a vpn Hroot Hok Hpage. destruct (translate_agrees root s ts page Hroot Hok Hpage) as [He Hno]. fold pt a vpn in He, Hno.
  split; [apply sv39_indexes, Hpage|]. split; [by apply (ref_entry_agrees root s ts)|].
  split; [|split; [|by apply satp_is_token]].
  - pose proof (wp_translate_page pt s ts page Hok Hpage) as Hwp. rewrite He in *. apply wp_eq. eapply wp_mono; [|exact Hwp].
    intros r s' [-> ->]. split; [|done]. destruct (translate (kmem s) (mk_pt root []) vpn) as [e|]; [|done]. cbn. by rewrite pte_ppn_entry by (by apply Hno).
  - eapply wp_mono; [|by apply (unmap_spec pt s ts)]. intros r s' (Hok' & _ & Hr). cbn zeta in Hr. rewrite He in Hr. unfold PageTableSpec.mapping at 1.
    destruct (translate (kmem s) (mk_pt root []) vpn) as [e|] eqn:Ht; [|done]. rewrite pte_is_valid_bit.
    change (default 0 (Some e)) with e in Hr. destruct (Z.testbit e 0); [|done].
    destruct Hr as (f & _ & -> & Hbecomes & _). split; [exists f; by rewrite pte_ppn_entry by (by apply Hno)|].
    destruct (translate_agrees root s' ts page Hroot Hok' Hpage) as [He' _]. fold pt a vpn in He'. rewrite Hbecomes in He'. unfold PageTableSpec.mapping.
    destruct (translate (kmem s') (mk_pt root []) vpn) as [e'|]; [|done]. cbn in He'. by subst.
Qed.

End Agree.

(** The table of [Demo] with a page mapped to frame 7: os5 reads the same entry. *)
Module Demo39.
Import Demo.
#[local] Existing Instances bit_field_ops bit_field_ops_spec PageTableEntryX64 PageTableEntryX64_spec demo_alloc39 demo_alloc39_spec.

Definition demo_mapped : PagingState nat := snd (result_of (Mapped (Err PageAlreadyMapped), demo_state) (serve demo_table (MapTo (demo_page 0) 7 15) demo_state)).

Lemma demo_page_ok : page_ok (demo_page 0).
Proof. by split; [right|vm_compute]. Qed.

Lemma demo39_mapped_ok : exists ts, mapper_ok demo_table demo_mapped ts.
Proof.
  apply (wp_result_of (serve demo_table (MapTo (demo_page 0) 7 15)) (fun _ s' => exists ts, mapper_ok demo_table s' ts)).
  eapply wp_mono; [|apply (wp_serve rv39_fits demo_table demo_state [4096] (MapTo (demo_page 0) 7 15) demo_ok)]; [by intros rs s' (ts & Hok & _); exists ts|].
  split; [|done]. split; [apply demo_page_ok|done].
Qed.

Lemma rv39_agrees_with_os5_witness :
  let vpn := VirtAddr_floor (va39 (page_addr (demo_page 0))) in
  translate (kmem demo_mapped) (mk_pt 1 []) vpn = Some (entry_for 7 15) /\
  translate_page demo_table (demo_page 0) demo_mapped = Ok (match translate (kmem demo_mapped) (mk_pt 1 []) vpn with
    | Some e => if e =? 0 then None else Some (frame_no (pte_ppn e))
    | None => None
    end, demo_mapped).
Proof.
  split; [by vm_compute|]. destruct demo39_mapped_ok as [ts Hok].
  assert (Hroot : is_no (width := 56) 1) by (by split).
  exact (proj1 (proj2 (proj2 (rv39_agrees_with_os5 1 demo_mapped ts (demo_page 0) Hroot Hok demo_page_ok)))).
Defined.
End Demo39.
