(* ===== verification/TestPrograms.v ===== *)
(** * Test programs of the user library (user/src/bin)

    The programs that exercise [mmap], [munmap] and [set_priority] on the kernel, as
    interaction trees over the library.  Each is the part of [main] that makes its checks;
    what follows is a line of output and the result 0.  Bytes of memory are read and
    written at their addresses. *)

From S2P Require Import Prelude Config Address PhysMem FrameAllocator PageTable PageTableSpec MemorySet MemorySetSpec ForkSpec SpaceSpec ElfSpec.
From S2P Require Import Kernel Task Processor Syscall KernelSpec SchedulerSpec MmapSpec LifecycleSpec KernelStackSpec KernelInv ProcessSpec UserMemSpec.
From S2P Require Import SysForkSpec WaitSpec ExitSpec ScheduleSpec HandlerSpec SystemSpec Boot Machine.
From S2P Require Import UserLib UserSpec.
From ITree Require Import ITree ITreeFacts.
Import User.
#[local] Open Scope user_scope.

Module Tests.

Section Tests.
(** Where the console buffer is, and what the panic handler prints. *)
Context (buffer_ptr : Z) (panic_message : list (list Z)).

(** [panic!]: the handler of lang_items.rs prints the message and calls [exit(-1)]. *)
Definition panic {A} : user A :=
  print buffer_ptr panic_message ;;
  let* v := exit buffer_ptr panic_message (-1) in
  match v : void with end.

(** [assert!] and [assert_eq!] *)
Definition assert (b : bool) : user unit := if b then Ret tt else panic.

(** [for x in l { f(x) }] *)
Fixpoint for_in (l : list Z) (f : Z -> user unit) : user unit :=
  match l with
  | [] => Ret tt
  | x :: l' => f x ;; for_in l' f
  end.

Definition ch4_mmap0 : user unit :=
  let start := 0x10000000 in
  let len := 4096 in
  let prot := 3 in
  let* r := mmap start len prot in
  assert (0 =? r) ;;
  for_in (seqZ start len) (fun i => store_byte i (wrap8 i)) ;;
  for_in (seqZ start len) (fun i => let* v := load_byte i in assert (v =? wrap8 i)).

Definition ch4_mmap1 : user unit :=
  let start := 0x10000000 in
  let len := 4096 in
  let prot := 1 in
  let* r := mmap start len prot in
  assert (0 =? r) ;;
  store_byte start (wrap8 start).

Definition ch4_mmap2 : user unit :=
  let start := 0x10000000 in
  let len := 4096 in
  let prot := 2 in
  let* r := mmap start len prot in
  assert (0 =? r) ;;
  let* v := load_byte start in
  assert (negb (v =? 0)).

Definition ch4_mmap3 : user unit :=
  let start := 0x10000000 in
  let len := 4096 in
  let prot := 3 in
  let* r := mmap start len prot in
  assert (0 =? r) ;;
  let* r := mmap (start - len) (len + 1) prot in
  assert (r =? -1) ;;
  let* r := mmap (start + len + 1) len prot in
  assert (r =? -1) ;;
  let* r := mmap (start + len) len 0 in
  assert (r =? -1) ;;
  let* r := mmap (start + len) len (Z.lor prot 8) in
  assert (r =? -1).

Definition ch4_unmap2 : user unit :=
  let start := 0x10000000 in
  let len := 4096 in
  let prot := 3 in
  let* r := mmap start len prot in
  assert (0 =? r) ;;
  let* r := munmap start (len + 1) in
  assert (r =? -1) ;;
  let* r := munmap (start + 1) (len - 1) in
  assert (r =? -1).

Definition ch5_setprio : user unit :=
  let* r := set_priority 10 in
  assert (r =? 10) ;;
  let* r := set_priority (2 ^ 63 - 1) in
  assert (r =? 2 ^ 63 - 1) ;;
  let* r := set_priority 0 in
  assert (r =? -1) ;;
  let* r := set_priority 1 in
  assert (r =? -1) ;;
  let* r := set_priority (-10) in
  assert (r =? -1).

End Tests.
End Tests.

(** * The test programs pass on the kernel

    [exec] runs a program of the user library as the running process of the kernel: system
    calls go to the dispatcher, bytes are read and written through the page table, with the
    permissions that the hardware checks.  The programs of [TestPrograms] make all their
    checks in every state of the kernel that satisfies its invariant and has the pages they
    use free and frames for them; those that touch memory without permission end in the
    page fault they expect. *)

Import Tests.

(** How a program ends: it returns, or accesses memory that it may not. *)
Inductive fault : Type :=
| LoadFault (va : Z)
| StoreFault (va : Z).

Inductive ending (A : Type) : Type :=
| Returned (a : A)
| Faulted (f : fault).
Arguments Returned {A} a.
Arguments Faulted {A} f.

Section Exec.
Context {T : Type} `{FrameAllocator T} (pf : Platform).

(** ** Access to memory *)

(** The physical address of a byte, if the entry of its page has the flag and is open to
    user mode. *)
Definition user_addr (k : Kernel T) (t : TaskControlBlock) (flag : PTEFlags) (va : Z) : option Z :=
  match mapping (phys (mm k)) (page_table (space_of t)) (VirtAddr_floor va) with
  | Some bits =>
      if negb (Z.land (pte_flags bits) flag =? 0) && pte_user bits
      then Some (page_base (pte_ppn bits) + va mod PAGE_SIZE) else None
  | None => None
  end.

(** ** Running a program *)

Inductive exec {A} : itree userE A -> Kernel T -> Kernel T -> ending A -> Prop :=
| exec_ret u k a : observe u = RetF a -> exec u k k (Returned a)
| exec_tau u u' k k' r : observe u = TauF u' -> exec u' k k' r -> exec u k k' r
| exec_ecall u id zs f k k1 v k' r :
    observe u = VisF (Ecall id (Num <$> zs)) f -> kernel_entry pf id (Num <$> zs) k = Ok (Return v, k1) ->
    exec (f (as_usize v)) k1 k' r -> exec u k k' r
| exec_load u a f k c t p k' r :
    observe u = VisF (LoadByte a) f -> running k c t -> user_addr k t PTE_R a = Some p ->
    exec (f (load8 (phys (mm k)) p)) k k' r -> exec u k k' r
| exec_load_fault u a f k c t :
    observe u = VisF (LoadByte a) f -> running k c t -> user_addr k t PTE_R a = None -> exec u k k (Faulted (LoadFault a))
| exec_store u a v f k c t p k' r :
    observe u = VisF (StoreByte a v) f -> running k c t -> user_addr k t PTE_W a = Some p ->
    exec (f tt) (set_mm (set_phys (store8 (phys (mm k)) p v) (mm k)) k) k' r -> exec u k k' r
| exec_store_fault u a v f k c t :
    observe u = VisF (StoreByte a v) f -> running k c t -> user_addr k t PTE_W a = None -> exec u k k (Faulted (StoreFault a)).

Lemma exec_observe {A} (u u' : itree userE A) k k' r : observe u' = observe u -> exec u k k' r -> exec u' k k' r.
Proof.
  intros Ho Hu. destruct Hu as [u k a Hr|u v k k' r Hr Hu|u id zs g k k1 v k' r Hr Hk Hu|u a g k c t p k' r Hr Hrun Hp Hu|u a g k c t Hr Hrun Hp|
    u a v g k c t p k' r Hr Hrun Hp Hu|u a v g k c t Hr Hrun Hp]; rewrite <-Ho in Hr.
  - by apply exec_ret.
  - by eapply exec_tau.
  - by eapply exec_ecall.
  - by eapply exec_load.
  - by eapply exec_load_fault.
  - by eapply exec_store.
  - by eapply exec_store_fault.
Qed.

(** A fault ends the program; a result goes to what follows. *)
Definition then_ {A B} (f : A -> itree userE B) (k' : Kernel T) (r : ending A) (k2 : Kernel T) (r2 : ending B) : Prop :=
  match r with
  | Returned a => exec (f a) k' k2 r2
  | Faulted e => k2 = k' /\ r2 = Faulted e
  end.

Lemma exec_bind {A B} (u : itree userE A) (f : A -> itree userE B) k k' r k2 r2 :
  exec u k k' r -> then_ f k' r k2 r2 -> exec (ITree.bind u f) k k2 r2.
Proof.
  induction 1 as [u k a Ho|u u' k k' r Ho _ IH|u id zs g k k1 v k' r Ho Hk _ IH|u a g k c t p k' r Ho Hrun Hp _ IH|u a g k c t Ho Hrun Hp|
    u a v g k c t p k' r Ho Hrun Hp _ IH|u a v g k c t Ho Hrun Hp]; intros Hf;
    pose proof (observe_bind u f) as Hb; rewrite Ho in Hb.
  - by eapply exec_observe.
  - eapply exec_tau; [exact Hb|]. by apply IH.
  - eapply exec_ecall; [exact Hb|exact Hk|]. by apply IH.
  - eapply exec_load; [exact Hb|exact Hrun|exact Hp|]. by apply IH.
  - destruct Hf as [-> ->]. by eapply exec_load_fault.
  - eapply exec_store; [exact Hb|exact Hrun|exact Hp|]. by apply IH.
  - destruct Hf as [-> ->]. by eapply exec_store_fault.
Qed.

Lemma exec_Ret {A} (a : A) k : exec (Ret a) k k (Returned a).
Proof. by apply exec_ret. Qed.

Lemma exec_then {A B} (u : itree userE A) (f : A -> itree userE B) k k1 a k2 r2 :
  exec u k k1 (Returned a) -> exec (f a) k1 k2 r2 -> exec (ITree.bind u f) k k2 r2.
Proof. intros Hu Hf. by eapply exec_bind. Qed.

(** A call whose arguments are numbers. *)
Lemma exec_call id zs k k1 v :
  kernel_entry pf id (Num <$> zs) k = Ok (Return v, k1) ->
  exec (User.syscall id (Num <$> zs)) k k1 (Returned (as_isize (as_usize v))).
Proof. intros Hk. eapply exec_then; [|apply exec_Ret]. eapply exec_ecall; [done|exact Hk|]. apply exec_Ret. Qed.

Lemma exec_assert bp msg b k : b = true -> exec (assert bp msg b) k k (Returned tt).
Proof. intros ->. apply exec_Ret. Qed.

Lemma exec_load_byte a k c t p : running k c t -> user_addr k t PTE_R a = Some p -> exec (load_byte a) k k (Returned (load8 (phys (mm k)) p)).
Proof. intros Hrun Hp. eapply exec_load; [done|done|done|]. apply exec_Ret. Qed.

Lemma exec_store_byte a v k c t p : running k c t -> user_addr k t PTE_W a = Some p ->
  exec (store_byte a v) k (set_mm (set_phys (store8 (phys (mm k)) p v) (mm k)) k) (Returned tt).
Proof. intros Hrun Hp. eapply exec_store; [done|done|done|]. apply exec_Ret. Qed.

End Exec.

(** ** The calls of the programs *)

Section Calls.
Context {T : Type} `{FrameAllocatorSpec T} (pf : Platform).

(** A call is counted first, which changes neither memory nor the address space. *)
Lemma wp_counted (m : M (Kernel T) control) k c t id Q :
  kernel_ok pf k -> running k c t ->
  (forall k1 t1, kernel_ok pf k1 -> running k1 c t1 -> mm k1 = mm k -> space_of t1 = space_of t -> wp m Q k1) ->
  wp (count_syscall id ;; m)%M Q k.
Proof.
  intros Hk Hrun Hm. apply wp_bind. eapply (wp_count_syscall pf); [done..|]. intros t1 Hkeep k1 Hk1 Hrun1 Hok1.
  eapply Hm; [done..| |]; [by rewrite Hk1|]. by destruct Hkeep.
Qed.

Definition page_of (k : Kernel T) (t : TaskControlBlock) (p : Z) : option Z := mapping (phys (mm k)) (page_table (space_of t)) p.

Lemma one_page start : 0 <= start -> start + PAGE_SIZE <= 2 ^ 64 - PAGE_SIZE -> start mod PAGE_SIZE = 0 ->
  range_items (va_range start (start + PAGE_SIZE)) = [start / PAGE_SIZE].
Proof.
  intros Hs He Ha. rewrite range_ok_items by (apply va_range_ok; unfold PAGE_SIZE in *; lia). unfold va_range. cbn [range_l range_r].
  assert ((start + PAGE_SIZE + PAGE_SIZE - 1) / PAGE_SIZE - start / PAGE_SIZE = 1) as -> by (unfold PAGE_SIZE in *; zdm). done.
Qed.

(** [mmap] of one page that is free. *)
Lemma call_mmap_page k c t start port :
  kernel_ok pf k -> running k c t -> 0 <= start -> start + PAGE_SIZE <= 2 ^ 64 - PAGE_SIZE -> start mod PAGE_SIZE = 0 -> 1 <= port <= 7 ->
  page_of k t (start / PAGE_SIZE) = None -> (3 <= size (free_frames (mm k)))%nat ->
  exists k' t' f, kernel_entry pf User.SYSCALL_MMAP (Num <$> [start; PAGE_SIZE; port]) k = Ok (Return 0, k') /\
    kernel_ok pf k' /\ running k' c t' /\ page_of k' t' (start / PAGE_SIZE) = Some (pte_new f (2 * port + 17)) /\ is_frame f /\
    forall v, v mod 2 ^ 27 <> (start / PAGE_SIZE) mod 2 ^ 27 -> page_of k' t' v = page_of k t v.
Proof.
  intros Hk Hrun Hs He Hal Hp Hnone Hsize. pose proof (one_page start Hs He Hal) as Hpages.
  assert (wp (count_syscall User.SYSCALL_MMAP ;; Syscall.sys_mmap start PAGE_SIZE port)%M (fun r k' => r = Return 0 /\ exists t' f,
    kernel_ok pf k' /\ running k' c t' /\ page_of k' t' (start / PAGE_SIZE) = Some (pte_new f (2 * port + 17)) /\ is_frame f /\
    forall v, v mod 2 ^ 27 <> (start / PAGE_SIZE) mod 2 ^ 27 -> page_of k' t' v = page_of k t v) k) as Hw.
  { eapply wp_counted; [done..|]. intros k1 t1 Hk1 Hrun1 Hmm Hsp. unfold page_of in *. rewrite <-Hmm, <-Hsp in *.
    pose proof (kernel_ok_ms _ _ _ _ Hk1 (run_task _ _ _ Hrun1)) as Hms.
    eapply wp_mono; [|apply wp_conj; [apply (mmap_maps k1 c t1 start PAGE_SIZE port)|apply (mmap_handled pf k1 c t1 start PAGE_SIZE port)]];
      try done; rewrite ?Hpages; try (unfold PAGE_SIZE; lia); [|by intros p ->%list_elem_of_singleton|cbn [length]; lia|].
    - intros r k' ((-> & ms & s & -> & Hok & Hmap & Hother & _) & Hk' & _). split; [done|].
      destruct (Hmap _ (list_elem_of_here _ _)) as (f & Hf & Hfree & _). exists (with_inner (set_memory_set ms) t1), f.
      destruct Hrun1 as [Hcur Hc Hb]. split_and!; [done|by split; [|apply alter_task_lookup|]|done| |].
      + eapply free_is_frame; [|exact Hfree]. apply (pt_ok_inv _ _ (mo_pt _ _ Hms)).
      + intros v Hv. apply Hother. intros (p & ->%list_elem_of_singleton & Heq). done.
    - split; [lia|]. right. rewrite Hpages. cbn [length]. unfold PAGE_SIZE in *. lia. }
  apply wp_Ok in Hw as (r & k' & Hr & -> & t' & f & Hrest). exists k', t', f. split; [exact Hr|exact Hrest].
Qed.

(** Calls that are refused. *)
Lemma call_refused (m : M (Kernel T) control) id zs k c t :
  kernel_ok pf k -> running k c t -> (forall k, kernel_entry pf id (Num <$> zs) k = (count_syscall id ;; m)%M k) ->
  (forall k1 t1, running k1 c t1 -> mm k1 = mm k -> space_of t1 = space_of t -> m k1 = Ok (Return (-1), k1)) ->
  exists k' t', kernel_entry pf id (Num <$> zs) k = Ok (Return (-1), k') /\ kernel_ok pf k' /\ running k' c t' /\
    forall v, page_of k' t' v = page_of k t v.
Proof.
  intros Hk Hrun He Hm.
  assert (wp (count_syscall id ;; m)%M (fun r k' => r = Return (-1) /\ exists t', kernel_ok pf k' /\ running k' c t' /\
    forall v, page_of k' t' v = page_of k t v) k) as Hw.
  { eapply wp_counted; [done..|]. intros k1 t1 Hk1 Hrun1 Hmm Hsp. eapply wp_of_Ok; [by apply (Hm k1 t1)|]. split; [done|].
    exists t1. split_and!; [done..|]. intros v. unfold page_of. by rewrite Hmm, Hsp. }
  apply wp_Ok in Hw as (r & k' & Hr & -> & t' & Hrest). exists k', t'. split; [by rewrite He|exact Hrest].
Qed.

Context (Hld : trampoline_ok (linker pf)).

(** A byte written by user code changes no mapping. *)
Lemma user_write_ok k c t va p v :
  kernel_ok pf k -> running k c t -> 0 <= va -> user_addr k t PTE_W va = Some p ->
  let k' := set_mm (set_phys (store8 (phys (mm k)) p v) (mm k)) k in
  kernel_ok pf k' /\ running k' c t /\ forall q, page_of k' t q = page_of k t q.
Proof.
  intros Hk Hrun Hva Hp k'. pose proof Hrun as [Hcur Hc Hb]. pose proof (kernel_ok_ms _ _ _ _ Hk Hc) as Hms.
  assert (user_reach (phys (mm k)) (space_of t) p) as Hr.
  { unfold user_addr in Hp. destruct (mapping _ _ _) as [bits|] eqn:Hm; [|done]. destruct (_ && _) eqn:Hf; [|done].
    apply andb_true_iff in Hf as [_ Hu]. injection Hp as <-. by exists va, bits. }
  pose proof (to_space _ _ _ (ko_tasks _ _ Hk c t Hc) (running_live _ _ _ _ Hk Hrun)) as Hus.
  pose proof (user_reach_own pf Hld _ _ _ _ Hms Hus Hr) as Hown. pose proof (kernel_space_task k c t Hc) as Hin.
  assert (forall x, store8 (phys (mm k)) p v x <> phys (mm k) x -> x = p) as Hst.
  { intros x Hx. unfold store8 in Hx. by destruct (Z.eqb_spec x p). }
  split_and!.
  - apply kernel_ok_write; [done|]. intros x Hx. exists (space_of t). by rewrite (Hst x Hx).
  - by split.
  - intros q. apply mapping_agree; [apply (mo_pt _ _ Hms)|]. intros x Hx. destruct (decide (store8 (phys (mm k)) p v x = phys (mm k) x)) as [|Hne]; [done|].
    exfalso. rewrite (Hst x Hne) in Hx. by eapply (data_frame_no_table _ _ (space_of t)), Hx; [apply (ko_spaces _ _ Hk)|..].
Qed.

(** The page at [vpn] is mapped to frame [f] with the flags that [mmap] gives it for [port]. *)
Lemma user_addr_mapped k t f port va (flag : PTEFlags) : is_frame f -> 1 <= port <= 7 ->
  page_of k t (va / PAGE_SIZE) = Some (pte_new f (2 * port + 17)) ->
  user_addr k t flag va = if Z.land (2 * port + 17) flag =? 0 then None else Some (page_base f + va mod PAGE_SIZE).
Proof.
  intros Hf Hp Hm. unfold user_addr, page_of in *. unfold VirtAddr_floor. rewrite Hm. unfold is_frame in Hf.
  assert (is_u8 (2 * port + 17)) as Hu by (unfold is_u8; lia). unfold pte_user. rewrite pte_flags_new, pte_ppn_new by (done || lia).
  assert (Z.land (2 * port + 17) PTE_U = 16) as ->.
  { assert (Hc : port = 1 \/ port = 2 \/ port = 3 \/ port = 4 \/ port = 5 \/ port = 6 \/ port = 7) by lia.
    by destruct Hc as [->|[->|[->|[->|[->|[->| ->]]]]]]. }
  by destruct (Z.land _ flag =? 0).
Qed.

(** ** The programs *)

Context (buffer_ptr : Z) (panic_message : list (list Z)).
Abbreviation exec := (exec pf).
Abbreviation check := (assert buffer_ptr panic_message).

(** A page that the process may read and write. *)
Record writable (k : Kernel T) (c : Z) (t : TaskControlBlock) (vpn f : Z) : Prop := {
  w_ok : kernel_ok pf k;
  w_run : running k c t;
  w_frame : is_frame f;
  w_page : page_of k t vpn = Some (pte_new f (2 * 3 + 17))
}.

Lemma writable_addr k c t vpn f va flag : writable k c t vpn f -> va / PAGE_SIZE = vpn -> (flag = PTE_R \/ flag = PTE_W) ->
  user_addr k t flag va = Some (page_base f + va mod PAGE_SIZE).
Proof. intros [_ _ Hf Hp] <- Hflag. rewrite (user_addr_mapped k t f 3) by done. by destruct Hflag as [-> | ->]. Qed.

(** The bytes of addresses [l] of the page are their low eight bits. *)
Definition filled (k : Kernel T) (f : Z) (l : list Z) : Prop :=
  forall va, va ∈ l -> phys (mm k) (page_base f + va mod PAGE_SIZE) = wrap8 va.

Lemma exec_fill l : forall k c t vpn f done,
  writable k c t vpn f -> filled k f done -> (forall va, va ∈ done ++ l -> 0 <= va /\ va / PAGE_SIZE = vpn) ->
  exists k', exec (for_in l (fun i => store_byte i (wrap8 i))) k k' (Returned tt) /\ writable k' c t vpn f /\ filled k' f (done ++ l).
Proof.
  induction l as [|va l IH]; intros k c t vpn f done Hw Hf Hl; cbn [for_in].
  { exists k. rewrite app_nil_r. split; [apply exec_Ret|done]. }
  destruct (Hl va ltac:(set_solver)) as [Hnn Hv].
  assert (user_addr k t PTE_W va = Some (page_base f + va mod PAGE_SIZE)) as Ha by (eapply writable_addr; [done..|by right]).
  destruct (user_write_ok k c t va _ (wrap8 va) (w_ok _ _ _ _ _ Hw) (w_run _ _ _ _ _ Hw) Hnn Ha) as (Hk1 & Hrun1 & Hpg1).
  set (k1 := set_mm _ _) in *. destruct (IH k1 c t vpn f (done ++ [va])) as (k' & He & Hw' & Hf').
  - split; [done|done|exact (w_frame _ _ _ _ _ Hw)|]. rewrite Hpg1. exact (w_page _ _ _ _ _ Hw).
  - intros x Hx. cbn. unfold store8. destruct (Z.eqb_spec (page_base f + x mod PAGE_SIZE) (page_base f + va mod PAGE_SIZE)) as [Heq|Hne].
    + f_equal. destruct (Hl x ltac:(set_solver)) as [_ Hx']. unfold PAGE_SIZE in *. zdm.
    + apply elem_of_app in Hx as [Hx|Hx%list_elem_of_singleton]; [by apply Hf|by subst].
  - rewrite <-app_assoc. done.
  - exists k'. rewrite <-app_assoc in Hf'. split; [|done]. eapply exec_then; [|exact He]. eapply exec_store_byte; [exact (w_run _ _ _ _ _ Hw)|exact Ha].
Qed.

Lemma exec_check_filled l k c t vpn f :
  writable k c t vpn f -> filled k f l -> (forall va, va ∈ l -> va / PAGE_SIZE = vpn) ->
  exec (for_in l (fun i => let* v := load_byte i in check (v =? wrap8 i))) k k (Returned tt).
Proof.
  intros Hw. induction l as [|va l IH]; intros Hf Hl; cbn [for_in]; [apply exec_Ret|].
  eapply exec_then; [|apply IH].
  - eapply exec_then; [eapply exec_load_byte; [exact (w_run _ _ _ _ _ Hw)|eapply writable_addr; [exact Hw|apply Hl; set_solver|by left]]|].
    apply exec_assert. unfold load8. rewrite Hf by set_solver. apply Z.eqb_refl.
  - intros x Hx. apply Hf. set_solver.
  - intros x Hx. apply Hl. set_solver.
Qed.

(** The state in which the programs start: the pages from 0x10000000 are free. *)
Record fresh (k : Kernel T) (c : Z) (t : TaskControlBlock) : Prop := {
  fr_ok : kernel_ok pf k;
  fr_run : running k c t;
  fr_free p : p ∈ [0x10000; 0x10001] -> page_of k t p = None;
  fr_size : (3 <= size (free_frames (mm k)))%nat
}.

(** The first call of each program, and its check. *)
Lemma exec_first k c t port (u : itree userE unit) r :
  fresh k c t -> 1 <= port <= 7 ->
  (forall k' t' f, kernel_ok pf k' -> running k' c t' -> is_frame f -> page_of k' t' 0x10000 = Some (pte_new f (2 * port + 17)) ->
    page_of k' t' 0x10001 = None -> exists k2, exec u k' k2 r /\ kernel_ok pf k2) ->
  exists k2, exec (let* r := mmap 0x10000000 4096 port in check (0 =? r) ;; u) k k2 r /\ kernel_ok pf k2.
Proof.
  intros [Hk Hrun Hfree Hsize] Hp Hu. destruct (call_mmap_page k c t 0x10000000 port) as (k' & t' & f & He & Hk' & Hrun' & Hpg & Hf & Ho);
    [done|done|lia|unfold PAGE_SIZE; lia|done|done|apply Hfree; set_solver|done|].
  destruct (Hu k' t' f) as (k2 & He2 & Hk2); [done|done|done|exact Hpg| |].
  - rewrite Ho; [apply Hfree; set_solver|done].
  - exists k2. split; [|done]. eapply exec_then; [exact (exec_call pf _ _ _ _ _ He)|]. eapply exec_then; [by apply exec_assert|done].
Qed.

Lemma mmap0_passes k c t : fresh k c t -> exists k', exec (ch4_mmap0 buffer_ptr panic_message) k k' (Returned tt) /\ kernel_ok pf k'.
Proof.
  intros Hfr. unfold ch4_mmap0. cbv zeta. apply (exec_first k c t 3); [done|lia|]. intros k' t' f Hk' Hrun' Hf Hpg _.
  assert (forall va, va ∈ seqZ 0x10000000 4096 -> 0 <= va /\ va / PAGE_SIZE = 0x10000) as Hl.
  { intros va Hva%elem_of_seqZ. unfold PAGE_SIZE. zdm. }
  destruct (exec_fill (seqZ 0x10000000 4096) k' c t' 0x10000 f []) as (k2 & He2 & Hw2 & Hf2); [done|by intros va Hva%elem_of_nil|exact Hl|].
  exists k2. split; [|exact (w_ok _ _ _ _ _ Hw2)]. eapply exec_then; [exact He2|]. eapply exec_check_filled; [exact Hw2|exact Hf2|]. intros va Hva. by apply Hl.
Qed.

Lemma mmap1_faults k c t : fresh k c t ->
  exists k', exec (ch4_mmap1 buffer_ptr panic_message) k k' (Faulted (StoreFault 0x10000000)) /\ kernel_ok pf k'.
Proof.
  intros Hfr. unfold ch4_mmap1. cbv zeta. apply (exec_first k c t 1); [done|lia|]. intros k' t' f Hk' Hrun' Hf Hpg _.
  exists k'. split; [|done]. eapply exec_store_fault; [done|exact Hrun'|]. by rewrite (user_addr_mapped k' t' f 1).
Qed.

Lemma mmap2_faults k c t : fresh k c t ->
  exists k', exec (ch4_mmap2 buffer_ptr panic_message) k k' (Faulted (LoadFault 0x10000000)) /\ kernel_ok pf k'.
Proof.
  intros Hfr. unfold ch4_mmap2. cbv zeta. apply (exec_first k c t 2); [done|lia|]. intros k' t' f Hk' Hrun' Hf Hpg _.
  exists k'. split; [|done]. eapply exec_bind; [eapply exec_load_fault; [done|exact Hrun'|by rewrite (user_addr_mapped k' t' f 2)]|done].
Qed.

(** A call that returns -1 leaves the pages as they are. *)
Lemma exec_mmap_refused k c t start len port (g : Z -> itree userE unit) r :
  kernel_ok pf k -> running k c t -> 0 <= start -> 0 <= len -> start + len <= 2 ^ 64 - PAGE_SIZE -> 0 <= port < 2 ^ 64 ->
  start mod PAGE_SIZE <> 0 \/ port = 0 \/ 8 <= port \/ (exists p, p ∈ range_items (va_range start (start + len)) /\ is_Some (page_of k t p)) ->
  (forall k' t', kernel_ok pf k' -> running k' c t' -> (forall v, page_of k' t' v = page_of k t v) -> exists k2, exec (g (-1)) k' k2 r /\ kernel_ok pf k2) ->
  exists k2, exec (ITree.bind (mmap start len port) g) k k2 r /\ kernel_ok pf k2.
Proof.
  intros Hk Hrun Hs Hl He Hp Hbad Hg. destruct (call_refused (Syscall.sys_mmap start len port) User.SYSCALL_MMAP [start; len; port] k c t) as (k' & t' & Hc & Hk' & Hrun' & Hpg);
    [done|done|done| |].
  - intros k1 t1 Hrun1 Hmm Hsp. apply (mmap_refused k1 c t1); [done..|]. unfold page_of, space_of in *. by rewrite Hmm, Hsp.
  - destruct (Hg k' t' Hk' Hrun' Hpg) as (k2 & He2 & Hk2). exists k2. split; [|done]. eapply exec_then; [exact (exec_call pf _ _ _ _ _ Hc)|exact He2].
Qed.

Lemma exec_munmap_refused k c t start len (g : Z -> itree userE unit) r :
  kernel_ok pf k -> running k c t -> 0 <= start -> 0 <= len -> start + len <= 2 ^ 64 - PAGE_SIZE ->
  start mod PAGE_SIZE <> 0 \/ (exists p, p ∈ range_items (va_range start (start + len)) /\ page_of k t p = None) ->
  (forall k' t', kernel_ok pf k' -> running k' c t' -> (forall v, page_of k' t' v = page_of k t v) -> exists k2, exec (g (-1)) k' k2 r /\ kernel_ok pf k2) ->
  exists k2, exec (ITree.bind (munmap start len) g) k k2 r /\ kernel_ok pf k2.
Proof.
  intros Hk Hrun Hs Hl He Hbad Hg. destruct (call_refused (Syscall.sys_munmap start len) User.SYSCALL_MUNMAP [start; len; 0] k c t) as (k' & t' & Hc & Hk' & Hrun' & Hpg);
    [done|done|done| |].
  - intros k1 t1 Hrun1 Hmm Hsp. apply (munmap_refused k1 c t1); [done..|]. unfold page_of, space_of in *. by rewrite Hmm, Hsp.
  - destruct (Hg k' t' Hk' Hrun' Hpg) as (k2 & He2 & Hk2). exists k2. split; [|done]. eapply exec_then; [exact (exec_call pf _ _ _ _ _ Hc)|exact He2].
Qed.

(** A check that holds, and what follows. *)
Lemma exec_check b (u : itree userE unit) k r :
  b = true -> (exists k2, exec u k k2 r /\ kernel_ok pf k2) -> exists k2, exec (check b ;; u) k k2 r /\ kernel_ok pf k2.
Proof. intros -> (k2 & He & Hk). exists k2. split; [|done]. eapply exec_then; [by apply exec_assert|exact He]. Qed.

Lemma exec_last_check b k : b = true -> kernel_ok pf k -> exists k2, exec (check b) k k2 (Returned tt) /\ kernel_ok pf k2.
Proof. intros -> Hk. exists k. split; [by apply exec_assert|done]. Qed.

Lemma page_in p start len : 0 <= start -> 0 <= len <= 2 ^ 38 -> start + len <= 2 ^ 64 - PAGE_SIZE ->
  start / PAGE_SIZE <= p < (start + len + PAGE_SIZE - 1) / PAGE_SIZE -> p ∈ range_items (va_range start (start + len)).
Proof. intros Hs Hl He Hp. rewrite range_ok_items by (by apply va_range_ok). apply elem_of_seqZ. unfold va_range. cbn [range_l range_r]. lia. Qed.

Lemma mmap3_passes k c t : fresh k c t -> exists k', exec (ch4_mmap3 buffer_ptr panic_message) k k' (Returned tt) /\ kernel_ok pf k'.
Proof.
  intros Hfr. unfold ch4_mmap3. cbv zeta. apply (exec_first k c t 3); [done|lia|]. intros k1 t1 f Hk1 Hrun1 _ Hpg _.
  eapply (exec_mmap_refused k1 c t1); [done|done|lia|lia|unfold PAGE_SIZE; lia|lia| |].
  { right. right. right. exists 0x10000. split; [by apply page_in; vm_compute|]. by rewrite Hpg. }
  intros k2 t2 Hk2 Hrun2 _. apply exec_check; [done|]. eapply (exec_mmap_refused k2 c t2); [done|done|lia|lia|unfold PAGE_SIZE; lia|lia|by left|].
  intros k3 t3 Hk3 Hrun3 _. apply exec_check; [done|]. eapply (exec_mmap_refused k3 c t3); [done|done|lia|lia|unfold PAGE_SIZE; lia|lia|right; by left|].
  intros k4 t4 Hk4 Hrun4 _. apply exec_check; [done|]. eapply (exec_mmap_refused k4 c t4); [done|done|lia|lia|unfold PAGE_SIZE; lia|done|right; right; by left|].
  intros k5 t5 Hk5 Hrun5 _. by apply exec_last_check.
Qed.

Lemma unmap2_passes k c t : fresh k c t -> exists k', exec (ch4_unmap2 buffer_ptr panic_message) k k' (Returned tt) /\ kernel_ok pf k'.
Proof.
  intros Hfr. unfold ch4_unmap2. cbv zeta. apply (exec_first k c t 3); [done|lia|]. intros k1 t1 f Hk1 Hrun1 _ _ Hpg.
  eapply (exec_munmap_refused k1 c t1); [done|done|lia|lia|unfold PAGE_SIZE; lia| |].
  { right. exists 0x10001. split; [by apply page_in; vm_compute|done]. }
  intros k2 t2 Hk2 Hrun2 _. apply exec_check; [done|]. eapply (exec_munmap_refused k2 c t2); [done|done|lia|lia|unfold PAGE_SIZE; lia|by left|].
  intros k3 t3 Hk3 Hrun3 _. by apply exec_last_check.
Qed.

(** [set_priority] returns the priority that it sets, or -1. *)
Lemma set_priority_result (k : Kernel T) c t prio : running k c t ->
  wp (Syscall.sys_set_priority prio) (fun r _ => r = Return (if prio <? 2 then -1 else prio)) k.
Proof.
  intros [Hcur Hc Hb]. unfold Syscall.sys_set_priority. destruct (prio <? 2); [by wp_step|]. wp_step. eapply wp_current_task; [done..|].
  wp_step. eapply wp_unwrap; [done|]. wp_step. apply wp_with_cell; [cell_free|]. eapply wp_update_inner; [exact Hc|]. by wp_step.
Qed.

Lemma exec_set_priority k c t prio (g : Z -> itree userE unit) r :
  kernel_ok pf k -> running k c t -> - 2 ^ 63 <= prio < 2 ^ 63 ->
  (forall k' t', kernel_ok pf k' -> running k' c t' -> exists k2, exec (g (if prio <? 2 then -1 else prio)) k' k2 r /\ kernel_ok pf k2) ->
  exists k2, exec (ITree.bind (User.set_priority prio) g) k k2 r /\ kernel_ok pf k2.
Proof.
  intros Hk Hrun Hp Hg.
  assert (wp (count_syscall User.SYSCALL_SET_PRIORITY ;; Syscall.sys_set_priority prio)%M
    (fun r k' => r = Return (if prio <? 2 then -1 else prio) /\ handled pf c r k') k) as Hw.
  { eapply wp_counted; [done..|]. intros k1 t1 Hk1 Hrun1 _ _. apply wp_conj; [by eapply set_priority_result|]. by eapply set_priority_handled; [..|lia]. }
  apply wp_Ok in Hw as (v & k' & Hv & -> & Hk' & Hc'). destruct (kernel_running pf k' c Hk' Hc') as [t' Hrun'].
  destruct (Hg k' t' Hk' Hrun') as (k2 & He2 & Hk2). exists k2. split; [|done].
  eapply exec_then; [apply (exec_call pf User.SYSCALL_SET_PRIORITY [as_usize prio; 0; 0] k k' (if prio <? 2 then -1 else prio))|].
  - rewrite <-Hv. cbn [fmap list_fmap kernel_entry arg_word]. unfold Syscall.syscall. rewrite as_isize_usize by done. reflexivity.
  - rewrite as_isize_usize; [exact He2|]. destruct (prio <? 2); lia.
Qed.

Lemma setprio_passes k c t : kernel_ok pf k -> running k c t ->
  exists k', exec (ch5_setprio buffer_ptr panic_message) k k' (Returned tt) /\ kernel_ok pf k'.
Proof.
  intros Hk Hrun. unfold ch5_setprio. eapply (exec_set_priority k c t); [done|done|lia|]. intros k1 t1 Hk1 Hrun1. apply exec_check; [done|].
  eapply (exec_set_priority k1 c t1); [done|done|lia|]. intros k2 t2 Hk2 Hrun2. apply exec_check; [done|].
  eapply (exec_set_priority k2 c t2); [done|done|lia|]. intros k3 t3 Hk3 Hrun3. apply exec_check; [done|].
  eapply (exec_set_priority k3 c t3); [done|done|lia|]. intros k4 t4 Hk4 Hrun4. apply exec_check; [done|].
  eapply (exec_set_priority k4 c t4); [done|done|lia|]. intros k5 t5 Hk5 Hrun5. by apply exec_last_check.
Qed.

(** C25: The programs that test memory mapping and priorities pass on the kernel, run by any
    process of any state that satisfies the invariant, has the pages they use free and
    three frames to spare.  ch4_mmap0 maps a page, fills it and reads it back; ch4_mmap1 and
    ch4_mmap2 end in the page fault they are to cause; ch4_mmap3, ch4_unmap2 and ch5_setprio
    find that calls with wrong arguments return -1; and the invariant holds at the end. *)
Theorem test_programs_pass k c t :
  fresh k c t ->
  (exists k', exec (ch4_mmap0 buffer_ptr panic_message) k k' (Returned tt) /\ kernel_ok pf k') /\
  (exists k', exec (ch4_mmap1 buffer_ptr panic_message) k k' (Faulted (StoreFault 0x10000000)) /\ kernel_ok pf k') /\
  (exists k', exec (ch4_mmap2 buffer_ptr panic_message) k k' (Faulted (LoadFault 0x10000000)) /\ kernel_ok pf k') /\
  (exists k', exec (ch4_mmap3 buffer_ptr panic_message) k k' (Returned tt) /\ kernel_ok pf k') /\
  (exists k', exec (ch4_unmap2 buffer_ptr panic_message) k k' (Returned tt) /\ kernel_ok pf k') /\
  (exists k', exec (ch5_setprio buffer_ptr panic_message) k k' (Returned tt) /\ kernel_ok pf k').
Proof.
  intros Hfr. split_and!; [by eapply mmap0_passes|by eapply mmap1_faults|by eapply mmap2_faults|by eapply mmap3_passes|by eapply unmap2_passes|].
  eapply setprio_passes; [apply (fr_ok _ _ _ Hfr)|apply (fr_run _ _ _ Hfr)].
Qed.

End Calls.

(** The first process of the booted machine runs ch4_mmap0. *)
Lemma test_programs_pass_witness :
  wp (rust_main machine 1) (fun _ k => exists k', exec machine (ch4_mmap0 8192 []) k k' (Returned tt) /\ kernel_ok machine k') (before_boot machine_memory).
Proof.
  apply wp_machine. intros r k t _ Hup. pose proof (machine_frames k t Hup) as Hfr. pose proof (machine_space k t Hup) as Hsp. destruct Hup as [Hk Hrun _].
  refine (proj1 (test_programs_pass machine machine_trampoline 8192 [] k 0 t _)). split; [done|done| |lia].
  intros p Hp. pose proof (to_space _ _ _ (ko_tasks _ _ Hk 0 t (run_task _ _ _ Hrun)) (running_live _ _ _ _ Hk Hrun)) as [_ _ _ Ho].
  unfold space_of in Hsp. apply Ho. rewrite Hsp. intros (q & Hq & He). apply elem_of_cons in Hp as [->|[->|[]%elem_of_nil]%elem_of_cons];
    repeat (apply elem_of_cons in Hq as [->|Hq]; [by vm_compute in He|]); by apply elem_of_nil in Hq.
Defined.
