(* ===== verification/Coroutine.v ===== *)
(** * Coroutines

    The two programs ch8b_stackful_coroutine.rs and ch8b_stackless_coroutine.rs run functions
    that print lines and give the processor up now and then.  Such a function is a
    [coroutine]; [round_robin] is the order in which a fair scheduler prints the lines of
    several of them. *)

From S2P Require Import Prelude.
From stdpp Require Import strings.

(** What a function does from here on: it prints lines, and returns or yields. *)
Inductive coroutine : Type :=
| CoReturn (lines : list string)
| CoYield (lines : list string) (rest : coroutine).

(** The lines it prints before it returns or yields. *)
Definition segment (c : coroutine) : list string :=
  match c with
  | CoReturn lines => lines
  | CoYield lines _ => lines
  end.

(** What is left of it then. *)
Definition advance (c : coroutine) : option coroutine :=
  match c with
  | CoReturn _ => None
  | CoYield _ rest => Some rest
  end.

Fixpoint segments (c : coroutine) : list (list string) :=
  match c with
  | CoReturn lines => [lines]
  | CoYield lines rest => lines :: segments rest
  end.

Definition longest (cs : list coroutine) : nat := max_list ((fun c => length (segments c)) <$> cs).

(** Round [r] prints segment [r] of each coroutine that has one. *)
Definition round (r : nat) (cs : list coroutine) : list string :=
  c ← cs; default [] (segments c !! r).
Definition round_robin (cs : list coroutine) : list string :=
  r ← seq 0 (longest cs); round r cs.

(** ** Slots: a coroutine, or nothing once it returned *)

Abbreviation slots := (list (option coroutine)).
Definition slot_segment (o : option coroutine) : list string := from_option segment [] o.
Definition live (o : option coroutine) : bool := match o with Some _ => true | None => false end.

(** [n] rounds over the slots. *)
Fixpoint rounds (n : nat) (cs : slots) : list string :=
  match n with
  | O => []
  | S n => (cs ≫= slot_segment) ++ rounds n (mbind advance <$> cs)
  end.

Lemma segments_nonempty c : segments c <> [].
Proof. by destruct c. Qed.

Lemma segments_advance c : segments c = segment c :: from_option segments [] (advance c).
Proof. by destruct c. Qed.

Definition slot_segments (o : option coroutine) : list (list string) := from_option segments [] o.

Lemma slot_segments_advance o : slot_segments (o ≫= advance) = tail (slot_segments o).
Proof. destruct o as [c|]; [|done]. by destruct c. Qed.

Lemma rounds_segments n : forall cs,
  rounds n cs = r ← seq 0 n; o ← cs; default [] (slot_segments o !! r).
Proof.
  induction n as [|n IH]; intros cs; [done|]. cbn [rounds seq mbind list_bind]. f_equal.
  - induction cs as [|o cs IHc]; [done|]. cbn [mbind list_bind]. rewrite IHc. f_equal.
    destruct o as [c|]; [|done]. by destruct c.
  - rewrite IH, <-fmap_S_seq. clear. rewrite list_fmap_bind. apply list_bind_ext; [|done]. intros r. cbn [compose].
    induction cs as [|o cs IHc]; [done|]. cbn [mbind list_bind fmap list_fmap]. rewrite IHc. f_equal.
    rewrite slot_segments_advance. by destruct (slot_segments o).
Qed.

Lemma round_robin_rounds cs : round_robin cs = rounds (longest cs) (Some <$> cs).
Proof.
  unfold round_robin. rewrite rounds_segments. apply list_bind_ext; [|done]. intros r. unfold round. by rewrite list_fmap_bind.
Qed.

(** The number of rounds until nothing is live, and the number of resumptions. *)
Definition slots_longest (cs : slots) : nat := max_list ((fun o => length (slot_segments o)) <$> cs).
Definition slots_total (cs : slots) : nat := sum_list ((fun o => length (slot_segments o)) <$> cs).

Lemma slots_longest_Some cs : slots_longest (Some <$> cs) = longest cs.
Proof. unfold slots_longest, longest. by rewrite <-list_fmap_compose. Qed.

Lemma slots_longest_0 cs : slots_longest cs = 0%nat <-> forall o, o ∈ cs -> o = None.
Proof.
  unfold slots_longest. induction cs as [|o cs IH]; cbn; [split; [intros _ o Ho; by apply elem_of_nil in Ho|done]|].
  destruct o as [c|]; cbn.
  - destruct (segments c) eqn:Hs; [by apply segments_nonempty in Hs|]. cbn. split; [lia|]. intros Hn. by specialize (Hn (Some c) ltac:(left)).
  - rewrite IH. split; intros Hn.
    + intros o [->|Ho]%elem_of_cons; [done|]. by apply Hn.
    + intros o Ho. apply Hn. by right.
Qed.

Lemma slots_longest_cons o cs : slots_longest (o :: cs) = Nat.max (length (slot_segments o)) (slots_longest cs).
Proof. done. Qed.

Lemma slots_total_cons o cs : slots_total (o :: cs) = (length (slot_segments o) + slots_total cs)%nat.
Proof. done. Qed.

Lemma slots_longest_advance cs : slots_longest (mbind advance <$> cs) = pred (slots_longest cs).
Proof.
  induction cs as [|o cs IH]; [done|]. rewrite fmap_cons, !slots_longest_cons, IH, slot_segments_advance.
  destruct (slot_segments o); cbn [tail length]; lia.
Qed.

(** Empty slots at the end make no difference. *)
Definition total_segments (cs : list coroutine) : nat := sum_list ((fun c => length (segments c)) <$> cs).

Lemma padded_rounds n cs k : rounds n ((Some <$> cs) ++ replicate k None) = rounds n (Some <$> cs).
Proof.
  rewrite !rounds_segments. apply list_bind_ext; [|done]. intros r. rewrite bind_app.
  assert (forall k, (replicate k None ≫= fun o => default [] (slot_segments o !! r)) = []) as ->; [|apply app_nil_r].
  induction k0; done.
Qed.

Lemma padded_longest cs k : slots_longest ((Some <$> cs) ++ replicate k None) = longest cs.
Proof.
  induction cs as [|c cs IH]; [by induction k|]. rewrite fmap_cons, <-app_comm_cons, slots_longest_cons, IH. done.
Qed.

Lemma padded_total cs k : slots_total ((Some <$> cs) ++ replicate k None) = total_segments cs.
Proof.
  induction cs as [|c cs IH]; [by induction k|]. rewrite fmap_cons, <-app_comm_cons, slots_total_cons, IH. done.
Qed.
