(* ===== verification/Stackful.v ===== *)
(** * Green threads (ci-user/user/src/bin/ch8b_stackful_coroutine.rs)

    A runtime of five tasks with stacks of their own.  Task 0 is the program itself, which
    runs the others in turn from [run]; [switch] saves the registers of one task and loads
    those of another.  The functions that tasks run are coroutines: between two calls of
    [yield_task] they print lines and may change the saved registers at will.  What a task
    that gave the processor up will do when [switch] returns to it is kept on its stack.
    The stacks come from the heap of the program, which is too small for five of them. *)

From S2P Require Import Prelude Coroutine.
From stdpp Require Import strings pretty.
#[local] Open Scope Z_scope.
#[local] Open Scope list_scope.
#[local] Open Scope monad_scope.

Module Stackful.

Abbreviation DEFAULT_STACK_SIZE := 4096 (only parsing).
Abbreviation MAX_TASKS := 5%nat (only parsing).

Inductive State : Type :=
| Available
| Running
| Ready.
#[export] Instance State_eq_dec : EqDecision State.
Proof. solve_decision. Defined.

Record TaskContext : Type := mk_ctx {
  x1 : Z; x2 : Z; x8 : Z; x9 : Z; x18 : Z; x19 : Z; x20 : Z; x21 : Z;
  x22 : Z; x23 : Z; x24 : Z; x25 : Z; x26 : Z; x27 : Z; nx1 : Z
}.
#[export] Instance TaskContext_eq_dec : EqDecision TaskContext.
Proof. solve_decision. Defined.

(** The stack is the address of its 4096 bytes. *)
Record Task : Type := mk_task { id : Z; stack : Z; ctx : TaskContext; state : State }.
Record Runtime : Type := mk_runtime { tasks : list Task; current : nat }.

Definition TaskContext_default : TaskContext := mk_ctx 0 0 0 0 0 0 0 0 0 0 0 0 0 0 0.
Definition set_ctx (c : TaskContext) (t : Task) : Task := mk_task (id t) (stack t) c (state t).
Definition set_state (st : State) (t : Task) : Task := mk_task (id t) (stack t) (ctx t) st.

(** The registers that [switch] saves, and the program counter. *)
Record Regs : Type := mk_regs { saved : TaskContext; pc : Z }.

(** The body of [switch]: what it stores to the old context, and the registers when it
    jumps.  [nx1] of the registers is not a register and left at 0. *)
Definition switch_save (r : Regs) : TaskContext :=
  let c := saved r in
  mk_ctx (x1 c) (x2 c) (x8 c) (x9 c) (x18 c) (x19 c) (x20 c) (x21 c) (x22 c) (x23 c) (x24 c) (x25 c) (x26 c) (x27 c) (x1 c).
Definition switch_load (c : TaskContext) : Regs :=
  mk_regs (mk_ctx (x1 c) (x2 c) (x8 c) (x9 c) (x18 c) (x19 c) (x20 c) (x21 c) (x22 c) (x23 c) (x24 c) (x25 c) (x26 c) (x27 c) 0) (nx1 c).

(** What follows the call of [switch] in a task: the loop of [run]; the rest of a function
    that called [yield_task], and the address it returns to; or the end of [guard]. *)
Inductive frame : Type :=
| InRun
| InTask (rest : coroutine) (ret_addr : Z)
| InGuard.

(** [frames] are the stacks: for each task, the registers that its code relies on when
    [switch] returns, and what follows. *)
Record Machine : Type := mk_machine {
  rt : Runtime;
  regs : Regs;
  frames : list (TaskContext * frame);
  output : list string
}.

Definition set_rt (r : Runtime) (m : Machine) : Machine := mk_machine r (regs m) (frames m) (output m).
Definition println (lines : list string) : M Machine unit :=
  modify (fun m => mk_machine (rt m) (regs m) (frames m) (output m ++ lines)).
Definition update_task (i : nat) (f : Task -> Task) : M Machine unit :=
  let* m := get in
  match tasks (rt m) !! i with
  | Some t => modify (set_rt (mk_runtime (<[i := f t]> (tasks (rt m))) (current (rt m))))
  | None => panic OutOfRange
  end.

(** ** The heap *)

(** The size of the heap, HEAP_SPACE of the user library. *)
Abbreviation USER_HEAP_SIZE := 16384 (only parsing).

Section Heap.
(** The allocator, with a size and an alignment as arguments, and [size_of::<Task>()]. *)
Context {H : Type} (alloc : H -> Z -> Z -> option (Z * H)) (task_size : Z).

(** Without memory, [handle_alloc_error] panics. *)
Definition heap_alloc (size align : Z) : M H Z :=
  let* h := get in
  match alloc h size align with
  | Some (a, h') => modify (fun _ => h') ;; ret a
  | None => panic Explicit
  end.

Definition Task_new (id : nat) : M H Task :=
  let* s := heap_alloc DEFAULT_STACK_SIZE 1 in
  ret (mk_task (Z.of_nat id) s TaskContext_default Available).

(** Besides the stacks there are the array of the base task, that of the tasks collected,
    and the one that [append] needs for all; those given back at the end are not followed. *)
Definition Runtime_new : M H Runtime :=
  let* s := heap_alloc DEFAULT_STACK_SIZE 1 in
  let base_task := mk_task 0 s TaskContext_default Running in
  let* _ := heap_alloc task_size 8 in
  let* _ := heap_alloc (Z.of_nat (MAX_TASKS - 1) * task_size) 8 in
  let* available_tasks := foldM (fun v i => let* t := Task_new i in ret (vec_push v t)) (seq 1 (MAX_TASKS - 1)) [] in
  let* _ := heap_alloc (Z.of_nat MAX_TASKS * task_size) 8 in
  ret (mk_runtime (base_task :: available_tasks) 0).

End Heap.

Section Stackful.
(** The addresses of [guard] and of the instruction after the call of [switch]; the functions
    by address; and the registers that a function has in use when it yields. *)
Context (guard_addr yield_ret : Z) (code : Z -> option coroutine) (work : coroutine -> TaskContext -> TaskContext).

(** The search of [t_yield] for a task that is ready. *)
Fixpoint find_ready (fuel : nat) (r : Runtime) (pos : nat) : outcome (option nat) :=
  match fuel with
  | O => Panic OutOfFuel
  | S fuel' =>
      match tasks r !! pos with
      | None => Panic OutOfRange
      | Some t =>
          if decide (state t = Ready) then Ok (Some pos)
          else
            let pos := (pos + 1)%nat in
            let pos := if decide (pos = length (tasks r)) then O else pos in
            if decide (pos = current r) then Ok None else find_ready fuel' r pos
      end
  end.

(** The call of [switch] in [t_yield], with [fr] on the stack. *)
Definition switch (old_pos pos : nat) (fr : frame) : M Machine unit :=
  let* m := get in
  match tasks (rt m) !! pos with
  | None => panic OutOfRange
  | Some new =>
      let c := saved (regs m) in
      let r := mk_regs (mk_ctx yield_ret (x2 c) (x8 c) (x9 c) (x18 c) (x19 c) (x20 c) (x21 c) (x22 c) (x23 c) (x24 c) (x25 c) (x26 c) (x27 c) 0) (pc (regs m)) in
      update_task old_pos (set_ctx (switch_save r)) ;;
      modify (fun m => mk_machine (rt m) (switch_load (ctx new)) (<[old_pos := (saved r, fr)]> (frames m)) (output m))
  end.

(** [t_yield]: [true] is that another task has the processor now, [false] that the call
    returned [false]. *)
Definition t_yield (fr : frame) : M Machine bool :=
  let* r := gets rt in
  let* found := lift (find_ready (length (tasks r)) r (current r)) in
  match found with
  | None => ret false
  | Some pos =>
      let* cur := lift (index (tasks r) (Z.of_nat (current r))) in
      (if decide (state cur = Available) then ret tt else update_task (current r) (set_state Ready)) ;;
      update_task pos (set_state Running) ;;
      let old_pos := current r in
      modify (fun m => set_rt (mk_runtime (tasks (rt m)) pos) m) ;;
      switch old_pos pos fr ;;
      ret true
  end.

(** [guard] and [t_return].  A function returns to [guard] by a jump that leaves the return
    address alone, so that [guard] would return to itself. *)
Definition t_return : M Machine bool :=
  let* r := gets rt in
  if decide (current r = O) then ret false
  else
    update_task (current r) (set_state Available) ;;
    t_yield InGuard.
Definition guard : M Machine bool :=
  let* switched := t_return in
  if switched then ret false else panic Deadlock.

(** A function from where it is to its next [yield_task] that gives the processor away;
    [true] would be the end of the program. *)
Fixpoint run_task (c : coroutine) (ret_addr : Z) : M Machine bool :=
  match c with
  | CoYield lines rest =>
      println lines ;;
      modify (fun m => mk_machine (rt m) (mk_regs (work c (saved (regs m))) (pc (regs m))) (frames m) (output m)) ;;
      let* switched := t_yield (InTask rest ret_addr) in
      if switched then ret false else run_task rest ret_addr
  | CoReturn lines =>
      println lines ;;
      if decide (ret_addr = guard_addr) then guard else panic Explicit
  end.

(** The loop of [run] from its next call of [t_yield] on, until that switches. *)
Definition run_base : M Machine bool :=
  let* switched := t_yield InRun in
  if switched then ret false
  else
    println ["All tasks finished!"%string] ;;
    ret true.

(** A stack that [spawn] prepared: eight-byte aligned, with 32 bytes below its end. *)
Definition sp_ok (t : Task) (sp : Z) : bool :=
  (stack t <=? sp) && (sp + 32 <=? stack t + DEFAULT_STACK_SIZE) && (sp mod 8 =? 0).

(** The processor goes on at its program counter: after [switch], with the registers the
    task relies on, or at the start of a function. *)
Definition resume : M Machine bool :=
  let* m := get in
  let cur := current (rt m) in
  if decide (pc (regs m) = yield_ret) then
    match frames m !! cur with
    | None => panic OutOfRange
    | Some (r, fr) =>
        assert_ (bool_decide (saved (regs m) = r)) ;;
        match fr with
        | InRun => run_base
        | InTask rest ret_addr => run_task rest ret_addr
        | InGuard => guard
        end
    end
  else
    match code (pc (regs m)), tasks (rt m) !! cur with
    | Some body, Some t =>
        assert_ (sp_ok t (x2 (saved (regs m)))) ;;
        run_task body (x1 (saved (regs m)))
    | _, _ => panic Explicit
    end.

Fixpoint run_loop (fuel : nat) : M Machine unit :=
  match fuel with
  | O => panic OutOfFuel
  | S fuel' =>
      let* finished := resume in
      if finished then ret tt else run_loop fuel'
  end.

Definition run (fuel : nat) : M Machine unit :=
  let* finished := run_base in
  if finished then ret tt else run_loop fuel.

(** [spawn] of the function at [f]. *)
Definition spawn (f : Z) : M Machine unit :=
  let* m := get in
  match list_find (fun t => state t = Available) (tasks (rt m)) with
  | None => panic UnwrapNone
  | Some (i, available) =>
      let s_ptr := stack available +% DEFAULT_STACK_SIZE in
      let s_ptr := Z.land s_ptr (wrap64 (Z.lnot 7)) in
      let c := ctx available in
      let c := mk_ctx guard_addr (s_ptr -% 32) (x8 c) (x9 c) (x18 c) (x19 c) (x20 c) (x21 c) (x22 c) (x23 c) (x24 c) (x25 c) (x26 c) (x27 c) f in
      update_task i (fun t => set_state Ready (set_ctx c t))
  end.

(** [main], with the heap and the addresses of its closures. *)
Definition main {H : Type} (alloc : H -> Z -> Z -> option (Z * H)) (task_size : Z) (h : H) (closures : list Z) (fuel : nat) : M Machine unit :=
  println ["stackful_coroutine begin..."; "TASK  0(Runtime) STARTING"]%string ;;
  let* r := lift (match Runtime_new alloc task_size h with Ok (r, _) => Ok r | Panic e => Panic e end) in
  modify (set_rt r) ;;
  for_each closures spawn ;;
  run fuel ;;
  println ["stackful_coroutine PASSED"%string].

End Stackful.

(** The loop of a closure of [main] from counter [i] on, after the lines [pre]. *)
Fixpoint count (name : string) (pre : list string) (i : N) (n : nat) : coroutine :=
  match n with
  | O => CoReturn (pre ++ ["TASK " +:+ name +:+ " FINISHED"]%string)
  | S n' => CoYield (pre ++ ["task: " +:+ name +:+ " counter: " +:+ pretty i]%string) (count name [] (i + 1) n')
  end.

Definition closures : list coroutine :=
  [count "1" ["TASK  1 STARTING"] 0 4; count "2" ["TASK 2 STARTING"] 0 8;
   count "3" ["TASK 3 STARTING"] 0 12; count "4" ["TASK 4 STARTING"] 0 16]%string.

End Stackful.

(** * The green threads run in turn and end

    The state of the runtime stands for a list of slots, each with the rest of a coroutine
    or empty.  [calling] is that the running task is about to call [t_yield], [loaded] that
    [switch] has just jumped to a task.  A round resumes each slot that is not empty once, in
    order, and ends at task 0; when no slot is left [run] returns.  Of the program itself, with
    its heap, it is shown that it has no memory for its stacks. *)

Import Stackful.

(** ** The search for a ready task *)

Lemma find_ready_skip r k : forall pos fuel,
  (pos + k < length (tasks r))%nat ->
  (forall j t, (pos <= j < pos + k)%nat -> tasks r !! j = Some t -> state t <> Ready) ->
  (forall j, (pos < j <= pos + k)%nat -> j <> current r) ->
  find_ready (k + fuel) r pos = find_ready fuel r (pos + k).
Proof.
  induction k as [|k IH]; intros pos fuel Hlen Hst Hcur; [by rewrite Nat.add_0_r|]. cbn [Nat.add find_ready].
  destruct (lookup_lt_is_Some_2 (tasks r) pos ltac:(lia)) as [t Ht]. rewrite Ht.
  rewrite decide_False by (eapply (Hst pos); [lia|done]). cbv zeta.
  rewrite (decide_False (P := (pos + 1)%nat = length (tasks r))) by lia. rewrite decide_False by (apply Hcur; lia).
  rewrite IH; [f_equal; lia|lia| |].
  - intros j tj Hj. apply Hst. lia.
  - intros j Hj. apply Hcur. lia.
Qed.

Lemma find_ready_found r pos t fuel : tasks r !! pos = Some t -> state t = Ready -> find_ready (S fuel) r pos = Ok (Some pos).
Proof. intros Ht Hst. cbn [find_ready]. by rewrite Ht, decide_True. Qed.

(** A ready task above the current one, with none in between. *)
Lemma find_ready_above r pos t :
  (current r < pos)%nat -> tasks r !! pos = Some t -> state t = Ready ->
  (forall j u, (current r <= j < pos)%nat -> tasks r !! j = Some u -> state u <> Ready) ->
  find_ready (length (tasks r)) r (current r) = Ok (Some pos).
Proof.
  intros Hlt Ht Hst Hno. pose proof (lookup_lt_Some _ _ _ Ht) as Hlen.
  replace (length (tasks r)) with ((pos - current r) + S (length (tasks r) - (pos - current r) - 1))%nat by lia.
  rewrite find_ready_skip.
  - replace (current r + (pos - current r))%nat with pos by lia. by eapply find_ready_found.
  - lia.
  - intros j u Hj. apply Hno. lia.
  - intros j Hj. lia.
Qed.

(** None from the current one to the end: the search goes on at task 0. *)
Lemma find_ready_wrap r :
  (current r < length (tasks r))%nat ->
  (forall j u, (current r <= j)%nat -> tasks r !! j = Some u -> state u <> Ready) ->
  find_ready (length (tasks r)) r (current r) =
    if decide (current r = O) then Ok None else find_ready (current r) r 0.
Proof.
  intros Hlt Hno. replace (length (tasks r)) with ((length (tasks r) - current r - 1) + S (current r))%nat at 1 by lia.
  rewrite find_ready_skip; [|lia|intros j u Hj; apply Hno; lia|intros j Hj; lia].
  replace (current r + (length (tasks r) - current r - 1))%nat with (pred (length (tasks r))) by lia. cbn [find_ready].
  destruct (lookup_lt_is_Some_2 (tasks r) (pred (length (tasks r))) ltac:(lia)) as [t Ht]. rewrite Ht.
  assert (current r <= pred (length (tasks r)))%nat as Hle by lia. rewrite decide_False by (exact (Hno _ _ Hle Ht)). cbv zeta.
  rewrite (decide_True (P := (pred (length (tasks r)) + 1)%nat = length (tasks r))) by lia.
  destruct (decide (current r = O)) as [H0|H0]; [by rewrite decide_True by done|by rewrite decide_False by done].
Qed.

(** ** The state *)

Section Spec.
Context (guard_addr yield_ret : Z) (code : Z -> option coroutine) (work : coroutine -> TaskContext -> TaskContext).
Context (Hcode : code yield_ret = None).

Abbreviation t_yield := (t_yield yield_ret).
Abbreviation run_task := (run_task guard_addr yield_ret work).
Abbreviation run_base := (run_base yield_ret).
Abbreviation resume := (resume guard_addr yield_ret code work).
Abbreviation run_loop := (run_loop guard_addr yield_ret code work).

Definition contents (cs : slots) : list (option frame) :=
  Some InRun :: (fmap (M := option) (fun c => InTask c guard_addr) <$> cs).

(** Resuming task [t], with [f] on its stack, goes on with [fr]. *)
Definition resumable (t : Task) (f : TaskContext * frame) (fr : frame) : Prop :=
  (exists c, fr = InTask c guard_addr /\ code (nx1 (ctx t)) = Some c /\ x1 (ctx t) = guard_addr /\ sp_ok t (x2 (ctx t)) = true) \/
  (nx1 (ctx t) = yield_ret /\ f = (saved (switch_load (ctx t)), fr)).

Definition slot_ok (pos i : nat) (t : Task) (f : TaskContext * frame) (o : option frame) : Prop :=
  match o with
  | None => state t = Available
  | Some fr => state t = (if decide (i = pos) then Running else Ready) /\ resumable t f fr
  end.

Record loaded (m : Machine) (pos : nat) (cs : slots) : Prop := {
  l_tasks : length (tasks (rt m)) = S (length cs);
  l_frames : length (frames m) = S (length cs);
  l_current : current (rt m) = pos;
  l_regs : exists t, tasks (rt m) !! pos = Some t /\ regs m = switch_load (ctx t);
  l_slots : forall i o t f, contents cs !! i = Some o -> tasks (rt m) !! i = Some t -> frames m !! i = Some f -> slot_ok pos i t f o
}.

Record calling (m : Machine) (cur : nat) (cs : slots) (fr : frame) : Prop := {
  c_tasks : length (tasks (rt m)) = S (length cs);
  c_frames : length (frames m) = S (length cs);
  c_current : current (rt m) = cur;
  c_lt : (cur <= length cs)%nat;
  c_slots : forall i o t f, contents cs !! i = Some o -> tasks (rt m) !! i = Some t -> frames m !! i = Some f -> i <> cur -> slot_ok cur i t f o;
  c_self : forall o t, contents cs !! cur = Some o -> tasks (rt m) !! cur = Some t ->
    match o with
    | None => state t = Available
    | Some fr' => state t = Running /\ fr' = fr
    end
}.

Lemma contents_length cs : length (contents cs) = S (length cs).
Proof. cbn. by rewrite length_fmap. Qed.

Lemma contents_slot cs i : contents cs !! S i = fmap (M := option) (fun c => InTask c guard_addr) <$> cs !! i.
Proof. unfold contents. rewrite lookup_cons. apply list_lookup_fmap. Qed.

(** [t_yield] when the search finds [pos]. *)
Lemma t_yield_switches m pos fr tc tp :
  find_ready (length (tasks (rt m))) (rt m) (current (rt m)) = Ok (Some pos) -> pos <> current (rt m) ->
  tasks (rt m) !! current (rt m) = Some tc -> tasks (rt m) !! pos = Some tp ->
  exists c r, nx1 c = yield_ret /\ r = saved (switch_load c) /\
  t_yield fr m = Ok (true, mk_machine
    (mk_runtime (<[current (rt m) := set_ctx c (set_state (if decide (state tc = Available) then Available else Ready) tc)]> (<[pos := set_state Running tp]> (tasks (rt m)))) pos)
    (switch_load (ctx tp)) (<[current (rt m) := (r, fr)]> (frames m)) (output m)).
Proof.
  intros Hf Hne Hc Hp. destruct m as [[ts cur] rg fs out]. cbn [rt tasks current frames output regs] in *.
  set (c := saved rg). exists (switch_save (mk_regs (mk_ctx yield_ret (x2 c) (x8 c) (x9 c) (x18 c) (x19 c) (x20 c) (x21 c) (x22 c) (x23 c) (x24 c) (x25 c) (x26 c) (x27 c) 0) 0)).
  eexists. split; [done|]. split; [reflexivity|].
  unfold Stackful.t_yield, bind, gets, lift. cbn [rt tasks current]. rewrite Hf. unfold index. rewrite Nat2Z.id, Hc.
  pose proof (lookup_lt_Some _ _ _ Hc) as Hlc. pose proof (lookup_lt_Some _ _ _ Hp) as Hlp.
  unfold switch, update_task, bind, get, modify, ret, set_rt. cbn [rt tasks current regs frames output].
  case_decide as Hst; cbn [rt tasks current regs frames output].
  - rewrite Hp. cbn [rt tasks current regs frames output]. rewrite list_lookup_insert_eq by done. cbn [rt tasks current regs frames output].
    rewrite list_lookup_insert_ne by done. rewrite Hc. cbn. repeat f_equal. destruct tc; cbn in *; by subst.
  - rewrite Hc. cbn [rt tasks current regs frames output]. rewrite list_lookup_insert_ne by done. rewrite Hp. cbn [rt tasks current regs frames output].
    rewrite list_lookup_insert_eq by (by rewrite length_insert). cbn [rt tasks current regs frames output].
    rewrite list_lookup_insert_ne by done. rewrite list_lookup_insert_eq by done. cbn.
    rewrite (list_insert_insert_ne ts pos cur), list_insert_insert_eq by done. done.
Qed.

Lemma l_lookup m cs i : length (tasks (rt m)) = S (length cs) -> length (frames m) = S (length cs) -> (i <= length cs)%nat ->
  exists t f o, tasks (rt m) !! i = Some t /\ frames m !! i = Some f /\ contents cs !! i = Some o.
Proof.
  intros Ht Hf Hi. destruct (lookup_lt_is_Some_2 (tasks (rt m)) i ltac:(lia)) as [t Hti].
  destruct (lookup_lt_is_Some_2 (frames m) i ltac:(lia)) as [f Hfi].
  destruct (lookup_lt_is_Some_2 (contents cs) i ltac:(rewrite contents_length; lia)) as [o Ho]. by exists t, f, o.
Qed.

(** [t_yield] hands the processor to [pos] and leaves the caller to be resumed. *)
Lemma wp_t_yield m cur cs fr pos fr' :
  calling m cur cs fr -> pos <> cur -> contents cs !! pos = Some (Some fr') ->
  find_ready (length (tasks (rt m))) (rt m) (current (rt m)) = Ok (Some pos) ->
  wp (t_yield fr) (fun b m' => b = true /\ loaded m' pos cs /\ output m' = output m) m.
Proof.
  intros Hm Hne Hpos Hf. assert (pos <= length cs)%nat as Hle by (apply lookup_lt_Some in Hpos; rewrite contents_length in Hpos; lia).
  destruct Hm as [Hlt Hlf Hcur Hlc Hslots Hself].
  destruct (l_lookup m cs cur Hlt Hlf Hlc) as (tc & fc & oc & Htc & Hfc & Hoc).
  destruct (l_lookup m cs pos Hlt Hlf Hle) as (tp & fp & op & Htp & Hfp & Hop).
  rewrite <-Hcur in Htc, Hne. destruct (t_yield_switches m pos fr tc tp Hf Hne Htc Htp) as (c & r & Hnx & Hr & Heq).
  rewrite Hcur in *. eapply wp_of_Ok; [exact Heq|]. split; [done|]. split; [|done]. split; cbn [rt tasks current frames regs].
  - by rewrite !length_insert.
  - by rewrite length_insert.
  - done.
  - exists (set_state Running tp). rewrite list_lookup_insert_ne by done. by rewrite list_lookup_insert_eq by lia.
  - intros i o t f Ho Ht Hfi. destruct (decide (i = cur)) as [->|Hic].
    + specialize (Hself _ _ Ho Htc). rewrite list_lookup_insert_eq in Ht by (rewrite length_insert; lia).
      rewrite list_lookup_insert_eq in Hfi by lia. injection Ht as <-. injection Hfi as <-. destruct o as [fro|]; cbn.
      * destruct Hself as [Hst ->]. rewrite Hst, (decide_False (P := Running = Available)), decide_False by congruence. split; [done|]. right. split; [exact Hnx|by rewrite Hr].
      * by rewrite Hself.
    + rewrite list_lookup_insert_ne in Ht by done. rewrite list_lookup_insert_ne in Hfi by done. destruct (decide (i = pos)) as [->|Hip].
      * rewrite list_lookup_insert_eq in Ht by lia. injection Ht as <-. rewrite Hpos in Ho. injection Ho as <-.
        specialize (Hslots _ _ _ _ Hpos Htp Hfi Hic) as [_ Hres].
        cbn. rewrite decide_True by done. split; [done|]. exact Hres.
      * rewrite list_lookup_insert_ne in Ht by done. specialize (Hslots _ _ _ _ Ho Ht Hfi Hic). destruct o; [|done].
        cbn in *. rewrite decide_False in Hslots by done. by rewrite decide_False by done.
Qed.

(** ** Whose turn it is *)

(** The first live slot of [todo], whose first has number [i]. *)
Fixpoint first_live (i : nat) (todo : slots) : option nat :=
  match todo with
  | [] => None
  | Some _ :: _ => Some i
  | None :: todo' => first_live (S i) todo'
  end.

Lemma first_live_Some i todo j : first_live i todo = Some j ->
  exists c, (i <= j)%nat /\ todo !! (j - i)%nat = Some (Some c) /\ forall k, (i <= k < j)%nat -> todo !! (k - i)%nat = Some None.
Proof.
  revert i. induction todo as [|[c|] todo IH]; intros i Hf; cbn in Hf; [done| |].
  - injection Hf as <-. exists c. rewrite Nat.sub_diag. split; [done|]. split; [done|]. lia.
  - destruct (IH _ Hf) as (c & Hle & Hc & Hk). exists c. split; [lia|].
    replace (j - i)%nat with (S (j - S i)) by lia. split; [done|]. intros k Hr. destruct (decide (k = i)) as [->|Hne]; [by rewrite Nat.sub_diag|].
    replace (k - i)%nat with (S (k - S i)) by lia. apply Hk. lia.
Qed.

Lemma first_live_None i todo : first_live i todo = None -> forall k o, todo !! k = Some o -> o = None.
Proof.
  revert i. induction todo as [|[c|] todo IH]; intros i Hf k o Hk; cbn in Hf; [done|done|].
  destruct k; [by injection Hk as <-|]. by eapply IH.
Qed.

(** After the tasks of [done], the next is the first live one of [todo], or task 0. *)
Definition next (done todo : slots) : nat := default O (first_live (S (length done)) todo).

Lemma calling_not_ready m done todo fr : calling m (length done) (done ++ todo) fr ->
  forall j u, tasks (rt m) !! j = Some u -> (j = length done \/ exists i, j = (length done + S i)%nat /\ todo !! i = Some None) -> state u <> Ready.
Proof.
  intros Hm j u Hu Hj. pose proof (lookup_lt_Some _ _ _ Hu) as Hlt. rewrite (c_tasks _ _ _ _ Hm) in Hlt.
  destruct (l_lookup m (done ++ todo) j (c_tasks _ _ _ _ Hm) (c_frames _ _ _ _ Hm) ltac:(lia)) as (t & f & o & Ht & Hf & Ho).
  rewrite Hu in Ht. injection Ht as <-. destruct Hj as [->|(i & -> & Hi)].
  - pose proof (c_self _ _ _ _ Hm _ _ Ho Hu) as Hs. destruct o; [destruct Hs as [-> _]|rewrite Hs]; done.
  - pose proof (c_slots _ _ _ _ Hm _ _ _ _ Ho Hu Hf ltac:(lia)) as Hs. rewrite Nat.add_succ_r, contents_slot, lookup_app_r in Ho by lia.
    replace (length done + i - length done)%nat with i in Ho by lia. rewrite Hi in Ho. injection Ho as <-. cbn in Hs. by rewrite Hs.
Qed.

Lemma yield_to_next m done todo fr :
  calling m (length done) (done ++ todo) fr -> (next done todo <> O \/ length done <> O) ->
  wp (t_yield fr) (fun b m' => b = true /\ loaded m' (next done todo) (done ++ todo) /\ output m' = output m) m.
Proof.
  intros Hm Hor. pose proof (calling_not_ready _ _ _ _ Hm) as Hno. pose proof (c_current _ _ _ _ Hm) as Hcur. unfold next in *.
  assert (forall j u fr', contents (done ++ todo) !! j = Some (Some fr') -> tasks (rt m) !! j = Some u -> j <> length done -> state u = Ready) as Hready.
  { intros j u fr' Ho Hu Hne. destruct (lookup_lt_is_Some_2 (frames m) j) as [f Hf].
    { rewrite (c_frames _ _ _ _ Hm), <-(c_tasks _ _ _ _ Hm). by eapply lookup_lt_Some. }
    pose proof (c_slots _ _ _ _ Hm _ _ _ _ Ho Hu Hf Hne) as [Hs _]. by rewrite decide_False in Hs by done. }
  destruct (first_live (S (length done)) todo) as [j|] eqn:Hl; cbn [from_option Datatypes.id] in *.
  - apply first_live_Some in Hl as (c & Hle & Hc & Hk).
    assert (contents (done ++ todo) !! j = Some (Some (InTask c guard_addr))) as Ho.
    { destruct j; [lia|]. rewrite contents_slot, lookup_app_r by lia. replace (j - length done)%nat with (S j - S (length done))%nat by lia. by rewrite Hc. }
    destruct (lookup_lt_is_Some_2 (tasks (rt m)) j) as [t Ht].
    { rewrite (c_tasks _ _ _ _ Hm). apply lookup_lt_Some in Ho. by rewrite contents_length in Ho. }
    eapply wp_t_yield; [exact Hm|lia|exact Ho|]. eapply find_ready_above; [lia|exact Ht|exact (Hready _ _ _ Ho Ht ltac:(lia))|].
    intros k u Hr Hu. eapply Hno; [exact Hu|]. rewrite Hcur in Hr. destruct (decide (k = length done)) as [->|]; [by left|]. right.
    exists (k - S (length done))%nat. split; [lia|]. apply Hk. lia.
  - destruct Hor as [|Hor]; [done|]. destruct (lookup_lt_is_Some_2 (tasks (rt m)) 0) as [t Ht]; [rewrite (c_tasks _ _ _ _ Hm); lia|].
    eapply wp_t_yield; [exact Hm|lia|done|]. rewrite find_ready_wrap, decide_False.
    + rewrite Hcur. destruct (length done) as [|n] eqn:Hn; [done|]. eapply find_ready_found; [exact Ht|]. exact (Hready O t InRun eq_refl Ht ltac:(lia)).
    + by rewrite Hcur.
    + rewrite Hcur, (c_tasks _ _ _ _ Hm), length_app. lia.
    + intros k u Hr Hu. eapply Hno; [exact Hu|]. rewrite Hcur in Hr. destruct (decide (k = length done)) as [->|]; [by left|]. right.
      exists (k - S (length done))%nat. split; [lia|]. apply lookup_lt_Some in Hu as Hlt. rewrite (c_tasks _ _ _ _ Hm), length_app in Hlt.
      destruct (lookup_lt_is_Some_2 todo (k - S (length done))) as [o Ho]; [lia|]. rewrite Ho. f_equal. by eapply first_live_None.
Qed.

(** No slot is live: [t_yield] returns [false] to task 0. *)
Lemma yield_to_none m todo fr :
  calling m 0 todo fr -> next [] todo = O -> wp (t_yield fr) (fun b m' => b = false /\ m' = m) m.
Proof.
  intros Hm Hn. pose proof (calling_not_ready m [] todo fr Hm) as Hno. pose proof (c_current _ _ _ _ Hm) as Hcur.
  unfold next in Hn. destruct (first_live 1 todo) as [j|] eqn:Hl.
  { cbn [length] in Hn. rewrite Hl in Hn. apply first_live_Some in Hl as (c & Hle & _). cbn in Hn. lia. }
  apply (wp_of_Ok _ _ _ false m); [|done]. unfold Stackful.t_yield, bind, gets, lift. rewrite find_ready_wrap, decide_True.
  - done.
  - exact Hcur.
  - rewrite Hcur, (c_tasks _ _ _ _ Hm). lia.
  - intros k u _ Hu. eapply Hno; [exact Hu|]. destruct k as [|k]; [by left|]. right. exists k. split; [done|].
    apply lookup_lt_Some in Hu. rewrite (c_tasks _ _ _ _ Hm) in Hu. destruct (lookup_lt_is_Some_2 todo k) as [o Ho]; [lia|].
    rewrite Ho. f_equal. by eapply first_live_None.
Qed.

(** ** Resuming *)

Lemma calling_ext m m' cur cs fr : rt m' = rt m -> frames m' = frames m -> calling m cur cs fr -> calling m' cur cs fr.
Proof. intros Hr Hf []. split; rewrite ?Hr, ?Hf; done. Qed.

(** A resumed task has changed its own entry to [t'] and yields, its slot left with [o]. *)
Lemma loaded_calling m m' done o0 o todo fr t' :
  loaded m (S (length done)) (done ++ o0 :: todo) ->
  rt m' = mk_runtime (<[S (length done) := t']> (tasks (rt m))) (current (rt m)) -> frames m' = frames m ->
  match o with None => state t' = Available | Some c => state t' = Running /\ fr = InTask c guard_addr end ->
  calling m' (S (length done)) (done ++ o :: todo) fr.
Proof.
  intros [Ht Hf Hc Hr Hs] Hrt Hfr Hst. rewrite length_app in Ht, Hf. cbn [length] in Ht, Hf.
  split; rewrite ?Hrt, ?Hfr, ?length_app; cbn [tasks current length]; [by rewrite length_insert|done|done|lia| |].
  - intros j oj tj fj Ho Htj Hfj Hne. rewrite list_lookup_insert_ne in Htj by congruence. apply (Hs j); [|done..].
    destruct j as [|j]; [done|]. rewrite contents_slot in *. destruct (decide (j < length done)%nat).
    + by rewrite lookup_app_l in * by done.
    + rewrite lookup_app_r in * by lia. by replace (j - length done)%nat with (S (j - length done - 1))%nat in * by lia.
  - intros oi ti Ho Hti. rewrite list_lookup_insert_eq in Hti by lia. injection Hti as <-. rewrite contents_slot, list_lookup_middle in Ho by done.
    injection Ho as <-. destruct o; cbn; [|done]. by destruct Hst as [-> ->].
Qed.

Lemma loaded_running m i cs c : loaded m (S i) cs -> cs !! i = Some (Some c) ->
  exists t f, tasks (rt m) !! S i = Some t /\ frames m !! S i = Some f /\ state t = Running /\ resumable t f (InTask c guard_addr).
Proof.
  intros Hl Hi. destruct (l_lookup m cs (S i) (l_tasks _ _ _ Hl) (l_frames _ _ _ Hl)) as (t & f & o & Ht & Hf & Ho).
  { by apply lookup_lt_Some in Hi. }
  exists t, f. pose proof (l_slots _ _ _ Hl _ _ _ _ Ho Ht Hf) as Hs. rewrite contents_slot, Hi in Ho. injection Ho as <-.
  cbn in Hs. by rewrite decide_True in Hs by done.
Qed.

(** The caller yields, its slot left with [o]. *)
Lemma wp_yield_from m done todo fr o :
  calling m (S (length done)) (done ++ o :: todo) fr ->
  wp (t_yield fr) (fun b m' => b = true /\ loaded m' (next (done ++ [o]) todo) (done ++ o :: todo) /\ output m' = output m) m.
Proof.
  intros Hm. pose proof (yield_to_next m (done ++ [o]) todo fr) as Hy. rewrite length_app, Nat.add_1_r, <-app_assoc in Hy.
  apply Hy; [exact Hm|]. by right.
Qed.

(** A function runs to its next yield, or to its end. *)
Lemma wp_run_task m done c todo :
  loaded m (S (length done)) (done ++ Some c :: todo) ->
  wp (run_task c guard_addr) (fun b m' => b = false /\
    loaded m' (next (done ++ [advance c]) todo) (done ++ advance c :: todo) /\ output m' = output m ++ segment c) m.
Proof.
  intros Hl. destruct (loaded_running m (length done) _ c Hl) as (t & f & Ht & Hf & Hst & _); [by rewrite list_lookup_middle|].
  destruct c as [lines|lines rest]; cbn [Stackful.run_task segment advance]; apply wp_bind, wp_modify.
  - rewrite decide_True by done. unfold guard, t_return. apply wp_bind, wp_bind, wp_gets. cbn [rt].
    rewrite (l_current _ _ _ Hl), decide_False by done. apply wp_bind. unfold update_task. apply wp_bind, wp_get. cbn [rt]. rewrite Ht. apply wp_modify.
    eapply wp_mono; [|eapply wp_yield_from, (loaded_calling m _ _ _ None); [exact Hl|by rewrite (l_current _ _ _ Hl)|done..]].
    intros b m' (-> & Hm' & Hout). by apply wp_ret.
  - apply wp_bind, wp_modify, wp_bind.
    eapply wp_mono; [|eapply wp_yield_from, (loaded_calling m _ _ _ (Some rest)); [exact Hl| |done..]].
    + intros b m' (-> & Hm' & Hout). by apply wp_ret.
    + cbn [rt]. rewrite list_insert_id by exact Ht. by destruct (rt m).
Qed.

Lemma loaded_regs m pos cs t : loaded m pos cs -> tasks (rt m) !! pos = Some t -> regs m = switch_load (ctx t).
Proof. intros Hl Ht. destruct (l_regs _ _ _ Hl) as (t' & Ht' & Hr). congruence. Qed.

(** The processor goes on with the coroutine of the task. *)
Lemma wp_resume_task m i cs c Q :
  loaded m (S i) cs -> cs !! i = Some (Some c) -> wp (run_task c guard_addr) Q m -> wp resume Q m.
Proof.
  intros Hl Hi HQ. destruct (loaded_running m i cs c Hl Hi) as (t & f & Ht & Hf & _ & Hres).
  unfold Stackful.resume. apply wp_bind, wp_get. rewrite (loaded_regs _ _ _ _ Hl Ht), (l_current _ _ _ Hl), Ht, Hf.
  destruct Hres as [(c' & [= <-] & Hc & Hx & Hsp)|[Hnx ->]]; cbn [switch_load pc].
  - rewrite decide_False by congruence. rewrite Hc. apply wp_bind, wp_assert; [exact Hsp|]. unfold switch_load. cbn [saved x1]. by rewrite Hx.
  - rewrite decide_True by done. apply wp_bind, wp_assert; [|done]. by apply bool_decide_true.
Qed.

Lemma loaded_base m cs : loaded m 0 cs -> calling m 0 cs InRun.
Proof.
  intros [Ht Hf Hc Hr Hs]. split; [done..|lia| |].
  - intros i o t f Ho Hti Hfi _. by apply Hs.
  - intros o t Ho Ht0. destruct (lookup_lt_is_Some_2 (frames m) 0) as [f Hf0]; [lia|].
    specialize (Hs _ _ _ _ Ho Ht0 Hf0). injection Ho as <-. cbn in Hs. destruct Hs as [Hs _]. by rewrite decide_True in Hs.
Qed.

Lemma resume_base m cs : loaded m 0 cs -> resume m = run_base m.
Proof.
  intros Hl. destruct (l_lookup m cs 0 (l_tasks _ _ _ Hl) (l_frames _ _ _ Hl)) as (t & f & o & Ht & Hf & Ho); [lia|].
  pose proof (l_slots _ _ _ Hl _ _ _ _ Ho Ht Hf) as Hs. injection Ho as <-. destruct Hs as [_ Hres].
  unfold Stackful.resume, bind at 1, get. rewrite (loaded_regs _ _ _ _ Hl Ht), (l_current _ _ _ Hl), Ht, Hf.
  destruct Hres as [(c' & Hc & _)|[Hnx ->]]; [done|]. cbn [switch_load pc]. rewrite decide_True by done.
  by rewrite bool_decide_true by done.
Qed.

(** ** Rounds *)

(** [n] resumptions that do not end the program. *)
Inductive steps : nat -> Machine -> Machine -> Prop :=
| steps_refl m : steps 0 m m
| steps_cons n m m' m'' : resume m = Ok (false, m') -> steps n m' m'' -> steps (S n) m m''.

Lemma steps_app n1 n2 m m' m'' : steps n1 m m' -> steps n2 m' m'' -> steps (n1 + n2) m m''.
Proof. induction 1; [done|]. intros Hn. eapply steps_cons; [done|]. by apply IHsteps. Qed.

Lemma run_loop_steps n m m' fuel : steps n m m' -> run_loop (n + fuel) m = run_loop fuel m'.
Proof. induction 1 as [|n m m1 m' Hr _ IH]; [done|]. cbn [Nat.add Stackful.run_loop]. unfold bind at 1. by rewrite Hr. Qed.

(** The rest of a round: the live tasks of [todo] in order, and then task 0. *)
Lemma round_steps todo : forall m done, loaded m (next done todo) (done ++ todo) ->
  exists m', steps (length (filter live todo)) m m' /\ loaded m' 0 (done ++ (mbind advance <$> todo)) /\
    output m' = output m ++ (todo ≫= slot_segment).
Proof.
  induction todo as [|o todo IH]; intros m done Hl.
  { exists m. split; [constructor|]. split; [done|]. by rewrite app_nil_r. }
  destruct o as [c|].
  - change (next done (Some c :: todo)) with (S (length done)) in Hl.
    pose proof (wp_run_task m done c todo Hl) as Hw. apply (wp_resume_task m (length done) (done ++ Some c :: todo) c _ Hl) in Hw; [|by rewrite list_lookup_middle].
    apply wp_Ok in Hw as (b & m1 & Hr & -> & Hl1 & Ho1).
    destruct (IH m1 (done ++ [advance c])) as (m' & Hs & Hl' & Ho'); [by rewrite <-app_assoc|].
    exists m'. split; [by eapply steps_cons|]. rewrite <-app_assoc in Hl'. split; [exact Hl'|].
    rewrite Ho', Ho1. cbn [mbind list_bind slot_segment from_option]. by rewrite <-app_assoc.
  - destruct (IH m (done ++ [None])) as (m' & Hs & Hl' & Ho').
    { unfold next in *. rewrite <-app_assoc, length_app, Nat.add_1_r. exact Hl. }
    exists m'. split; [exact Hs|]. rewrite <-app_assoc in Hl'. by split.
Qed.

Abbreviation run := (run guard_addr yield_ret code work).

(** Task 0 runs a round and is where it was. *)
Lemma run_round m cs :
  calling m 0 cs InRun -> next [] cs <> O ->
  exists m', calling m' 0 (mbind advance <$> cs) InRun /\ output m' = output m ++ (cs ≫= slot_segment) /\
    forall fuel, run (length (filter live cs) + S fuel) m = run fuel m'.
Proof.
  intros Hm Hn. pose proof (yield_to_next m [] cs InRun Hm (or_introl Hn)) as Hy. apply wp_Ok in Hy as (b & m1 & Hy & -> & Hl1 & Ho1).
  destruct (round_steps cs m1 [] Hl1) as (m' & Hs & Hl' & Ho'). exists m'. split; [by apply loaded_base|]. split; [by rewrite Ho', Ho1|].
  intros fuel. unfold Stackful.run at 1, Stackful.run_base, bind. rewrite Hy. cbn [ret].
  rewrite (run_loop_steps _ _ _ _ Hs). cbn [Stackful.run_loop]. unfold bind at 1. by rewrite (resume_base _ _ Hl').
Qed.

Lemma slots_total_advance cs : slots_total cs = (length (filter live cs) + slots_total (mbind advance <$> cs))%nat.
Proof.
  induction cs as [|o cs IH]; [done|]. rewrite fmap_cons, !slots_total_cons, IH, slot_segments_advance, filter_cons.
  destruct o as [c|]; cbn [live]; [|done]. rewrite decide_True by done. destruct c; cbn [slot_segments from_option segments length tail]; lia.
Qed.

(** All rounds: enough fuel is one resumption for each segment and one for each round. *)
Lemma run_rounds k : forall m cs, slots_longest cs = k -> calling m 0 cs InRun ->
  exists m', calling m' 0 (replicate (length cs) None) InRun /\ output m' = output m ++ rounds k cs ++ ["All tasks finished!"%string] /\
    forall fuel, (slots_total cs + k <= fuel)%nat -> run fuel m = Ok (tt, m').
Proof.
  induction k as [|k IH]; intros m cs Hk Hm.
  - pose proof (proj1 (slots_longest_0 cs) Hk) as Hnone. assert (cs = replicate (length cs) None) as Hcs.
    { symmetry. apply replicate_as_Forall. split; [done|]. apply Forall_forall. intros o Ho. symmetry. by apply Hnone. }
    assert (next [] cs = O) as Hn.
    { unfold next. destruct (first_live 1 cs) as [j|] eqn:Hl; cbn [length]; rewrite Hl; [|done].
      apply first_live_Some in Hl as (c & _ & Hc & _). by apply list_elem_of_lookup_2, Hnone in Hc. }
    pose proof (yield_to_none m cs InRun Hm Hn) as Hy. apply wp_Ok in Hy as (b & m1 & Hy & -> & ->).
    exists (mk_machine (rt m) (regs m) (frames m) (output m ++ ["All tasks finished!"%string])). split; [|split; [done|]].
    + rewrite <-Hcs. eapply calling_ext; [..|exact Hm]; done.
    + intros fuel _. unfold Stackful.run, Stackful.run_base, bind. by rewrite Hy.
  - assert (next [] cs <> O) as Hn.
    { unfold next. destruct (first_live 1 cs) as [j|] eqn:Hl; cbn [length]; rewrite Hl; cbn.
      - apply first_live_Some in Hl as (c & Hle & _). lia.
      - assert (slots_longest cs = O); [|lia]. apply slots_longest_0. intros o Ho. apply list_elem_of_lookup in Ho as [i Hi]. by eapply first_live_None. }
    destruct (run_round m cs Hm Hn) as (m1 & Hm1 & Ho1 & Hr1).
    destruct (IH m1 (mbind advance <$> cs)) as (m' & Hm' & Ho' & Hr'); [rewrite slots_longest_advance; lia|done|].
    rewrite length_fmap in Hm'. exists m'. split; [done|]. split; [rewrite Ho', Ho1; cbn [rounds]; by rewrite <-!app_assoc|].
    intros fuel Hf. rewrite slots_total_advance in Hf.
    replace fuel with (length (filter live cs) + S (fuel - length (filter live cs) - 1))%nat by lia. rewrite Hr1. apply Hr'. lia.
Qed.

(** ** Spawning *)

Abbreviation spawn := (spawn guard_addr).

Lemma land_lnot_7 x : 0 <= x < 2 ^ 64 -> Z.land x (wrap64 (Z.lnot 7)) = x / 8 * 8.
Proof.
  intros Hx. change 8 with (2 ^ 3). rewrite <-shiftr_div, <-shiftl_mul by done. change (wrap64 (Z.lnot 7)) with (Z.shiftl (Z.ones 61) 3).
  apply Z.bits_inj'. intros j Hj. rewrite Z.land_spec, !Z.shiftl_spec by done. destruct (Z.ltb_spec j 3).
  - by rewrite !(Z.testbit_neg_r _ (j - 3)), andb_false_r by lia.
  - rewrite Z.shiftr_spec, Z.testbit_ones by lia. replace (j - 3 + 3) with j by lia. destruct (Z.ltb_spec j 64).
    + rewrite (proj2 (Z.leb_le _ _)), (proj2 (Z.ltb_lt _ _)) by lia. apply andb_true_r.
    + rewrite <-(Z.mod_small x (2 ^ 64)) by lia. by rewrite Z.mod_pow2_bits_high by lia.
Qed.

Lemma spawn_sp s : 0 <= s -> s + DEFAULT_STACK_SIZE < 2 ^ 64 ->
  let sp := Z.land (s +% DEFAULT_STACK_SIZE) (wrap64 (Z.lnot 7)) -% 32 in
  s <= sp /\ sp + 32 <= s + DEFAULT_STACK_SIZE /\ sp mod 8 = 0.
Proof.
  intros H0 H1. cbv zeta. rewrite (wrap64_small (s + 4096)), land_lnot_7, wrap64_small by zdm. zdm.
Qed.

(** The entry of the free task [t] once [f] is spawned in it. *)
Definition spawned (t : Task) (f : Z) : Task :=
  let sp := Z.land (stack t +% DEFAULT_STACK_SIZE) (wrap64 (Z.lnot 7)) -% 32 in
  let c := ctx t in
  mk_task (id t) (stack t) (mk_ctx guard_addr sp (x8 c) (x9 c) (x18 c) (x19 c) (x20 c) (x21 c) (x22 c) (x23 c) (x24 c) (x25 c) (x26 c) (x27 c) f) Ready.

(** A task that is free: its stack is memory. *)
Definition free_task (t : Task) : Prop := state t = Available /\ 0 <= stack t /\ stack t + DEFAULT_STACK_SIZE < 2 ^ 64.

(** Task 0 runs, and the others are free. *)
Definition idle (r : Runtime) : Prop :=
  current r = O /\ exists base free, tasks r = base :: free /\ state base = Running /\ Forall free_task free.

Lemma spawn_one m base sp t free f :
  rt m = mk_runtime (base :: sp ++ t :: free) 0 -> state base = Running -> Forall (fun u => state u = Ready) sp -> state t = Available ->
  spawn f m = Ok (tt, set_rt (mk_runtime (base :: (sp ++ [spawned t f]) ++ free) 0) m).
Proof.
  intros Hm Hb Hsp Ht. unfold Stackful.spawn, bind at 1, get. rewrite Hm. cbn [tasks].
  assert (list_find (fun u => state u = Available) (base :: sp ++ t :: free) = Some (S (length sp), t)) as ->.
  { apply list_find_Some. split_and!; [by rewrite lookup_cons, list_lookup_middle|done|]. intros [|j] y Hj Hlt.
    - injection Hj as <-. by rewrite Hb.
    - rewrite lookup_cons, lookup_app_l in Hj by lia. rewrite (Forall_lookup_1 _ _ _ _ Hsp Hj). done. }
  unfold update_task, bind, get, modify. rewrite Hm. cbn [tasks current]. rewrite lookup_cons, list_lookup_middle by done.
  assert (forall u, <[S (length sp) := u]> (base :: sp ++ t :: free) = base :: (sp ++ [u]) ++ free) as Hins.
  { intros u. change (<[S (length sp) := u]> (base :: sp ++ t :: free)) with (base :: <[length sp := u]> (sp ++ t :: free)).
    by rewrite insert_app_r_alt, Nat.sub_diag, <-app_assoc by done. }
  by rewrite Hins.
Qed.

Lemma spawn_all fs : forall m base sp free,
  rt m = mk_runtime (base :: sp ++ free) 0 -> state base = Running -> Forall (fun u => state u = Ready) sp -> Forall free_task free ->
  (length fs <= length free)%nat ->
  for_each fs spawn m = Ok (tt, set_rt (mk_runtime (base :: sp ++ zip_with spawned free fs ++ drop (length fs) free) 0) m).
Proof.
  unfold for_each. induction fs as [|f fs IH]; intros m base sp free Hm Hb Hsp Hfree Hl; cbn [foldM].
  - rewrite zip_with_nil_r. cbn [length app]. rewrite drop_0. unfold ret, set_rt. rewrite <-Hm. by destruct m.
  - destruct free as [|t free]; [cbn in Hl; lia|]. apply Forall_cons in Hfree as [[Ht _] Hfree]. unfold bind at 1. rewrite (spawn_one m base sp t free f Hm Hb Hsp Ht).
    rewrite (IH _ base (sp ++ [spawned t f]) free); [|done|done| |done|cbn in Hl; lia].
    + cbn [set_rt zip_with app drop length]. by rewrite <-app_assoc.
    + apply Forall_app. split; [done|]. by repeat constructor.
Qed.

Lemma spawned_sp_ok t f : free_task t -> sp_ok (spawned t f) (x2 (ctx (spawned t f))) = true.
Proof.
  intros (_ & H0 & H1). destruct (spawn_sp _ H0 H1) as (Ha & Hb & Hc). unfold sp_ok, spawned. cbn [stack ctx x2].
  rewrite (proj2 (Z.leb_le _ _) Ha), (proj2 (Z.leb_le _ _) Hb). by apply Z.eqb_eq.
Qed.

Lemma spawned_calling m base free fs cs :
  (length fs <= length free)%nat -> Forall2 (fun f c => code f = Some c) fs cs -> length (frames m) = S (length free) ->
  state base = Running -> Forall free_task free ->
  rt m = mk_runtime (base :: zip_with spawned free fs ++ drop (length fs) free) 0 ->
  calling m 0 ((Some <$> cs) ++ replicate (length free - length fs) None) InRun.
Proof.
  intros Hl Hcs Hfr Hb Hfree Hrt. pose proof (Forall2_length _ _ _ Hcs) as Hlen.
  split; rewrite ?Hrt, ?Hfr, ?length_app, ?length_fmap, ?length_replicate, <-?Hlen; cbn [tasks current length].
  - rewrite length_app, length_zip_with, length_drop. lia.
  - lia.
  - done.
  - lia.
  - intros i o t f Ho Ht _ Hi. destruct i as [|i]; [done|]. rewrite lookup_cons in Ht. rewrite contents_slot in Ho.
    destruct (decide (i < length fs)%nat) as [Hlt|Hge].
    + rewrite lookup_app_l in Ht by (rewrite length_zip_with; lia). rewrite lookup_app_l, list_lookup_fmap in Ho by (rewrite length_fmap; lia).
      apply lookup_zip_with_Some in Ht as (t0 & f0 & -> & Ht0 & Hf0). destruct (Forall2_lookup_l _ _ _ _ _ Hcs Hf0) as (c & Hc & Hcode').
      rewrite Hc in Ho. injection Ho as <-. split; [done|]. left. exists c. split_and!; [done|done|done|]. apply spawned_sp_ok. by eapply Forall_lookup_1.
    + rewrite lookup_app_r, lookup_drop in Ht by (rewrite length_zip_with; lia). rewrite lookup_app_r in Ho by (rewrite length_fmap; lia).
      apply fmap_Some in Ho as (o' & Ho & ->). apply lookup_replicate in Ho as [-> _]. by apply (Forall_lookup_1 _ _ _ _ Hfree Ht).
  - intros o t Ho Ht. injection Ho as <-. by injection Ht as <-.
Qed.

Lemma calling_free m n : calling m 0 (replicate n None) InRun -> state <$> tasks (rt m) = Running :: replicate n Available.
Proof.
  intros Hm. apply list_eq_same_length with (n := S n); [cbn; by rewrite length_replicate|rewrite length_fmap, (c_tasks _ _ _ _ Hm); by rewrite length_replicate|].
  intros i x y Hi Hx Hy. apply list_lookup_fmap_Some in Hx as (t & -> & Ht).
  destruct (l_lookup m (replicate n None) i (c_tasks _ _ _ _ Hm) (c_frames _ _ _ _ Hm)) as (t' & f & o & Ht' & Hf & Ho); [rewrite length_replicate; lia|].
  rewrite Ht in Ht'. injection Ht' as <-. destruct i as [|i].
  - pose proof (c_self _ _ _ _ Hm _ _ Ho Ht) as Hs. injection Ho as <-. injection Hy as <-. apply Hs.
  - pose proof (c_slots _ _ _ _ Hm _ _ _ _ Ho Ht Hf ltac:(done)) as Hs. rewrite contents_slot in Ho.
    rewrite lookup_cons in Hy. apply lookup_replicate in Hy as [-> Hlt]. rewrite lookup_replicate_2 in Ho by done. injection Ho as <-. exact Hs.
Qed.

(** C26: The green threads end.  On a runtime of any number of tasks in which all but task 0 are
    free, [spawn] takes a free task for each of up to so many functions, and [run] returns if
    there is fuel for one resumption for each part of a function between yields and one for
    each round.  What is printed is the round-robin interleaving of the functions and the line
    of [run]; every task is resumed with the registers it had when it yielded (another
    resumption panics), and in the end all tasks but task 0 are free again. *)
Theorem stackful_ends m fs cs fuel :
  idle (rt m) -> (length fs < length (tasks (rt m)))%nat -> length (frames m) = length (tasks (rt m)) ->
  Forall2 (fun f c => code f = Some c) fs cs -> (total_segments cs + longest cs <= fuel)%nat ->
  wp (for_each fs spawn ;; run fuel) (fun _ m' =>
    output m' = output m ++ round_robin cs ++ ["All tasks finished!"%string] /\
    state <$> tasks (rt m') = Running :: replicate (length (tasks (rt m)) - 1) Available) m.
Proof.
  intros (Hcur & base & free & Hts & Hb & Hfree) Hl Hfr Hcs Hfuel. rewrite Hts in *. cbn [length] in *. pose proof (Forall2_length _ _ _ Hcs) as Hlen.
  apply wp_bind. eapply wp_of_Ok; [apply (spawn_all fs m base [] free); [|done|done|done|lia]; cbn; rewrite <-Hts, <-Hcur; by destruct (rt m)|].
  set (m1 := set_rt _ _).
  destruct (run_rounds (longest cs) m1 ((Some <$> cs) ++ replicate (length free - length fs) None)) as (m2 & Hm2 & Ho2 & Hr2).
  { apply padded_longest. }
  { by eapply (spawned_calling m1 base free fs cs); [lia|..]. }
  rewrite padded_total in Hr2. eapply wp_of_Ok; [exact (Hr2 fuel Hfuel)|]. split.
  - by rewrite Ho2, padded_rounds, <-round_robin_rounds.
  - apply calling_free in Hm2. rewrite Hm2, length_app, length_fmap, length_replicate. do 2 f_equal. lia.
Qed.

End Spec.

(** ** The program has no memory for its stacks *)

Definition block (a n : Z) : gset Z := list_to_set (seqZ a n).

Lemma size_block a n : 0 <= n -> Z.of_nat (size (block a n)) = n.
Proof. intros. unfold block. rewrite size_list_to_set by apply NoDup_seqZ. rewrite length_seqZ. lia. Qed.

Lemma in_block x a n : x ∈ block a n <-> a <= x < a + n.
Proof. unfold block. rewrite elem_of_list_to_set, elem_of_seqZ. lia. Qed.

#[local] Opaque block.

(** What the program relies on of the allocator: a block that it gives out is in the memory it
    was initialised with, and apart from all that is in use. *)
Class UserHeap {H : Type} (alloc : H -> Z -> Z -> option (Z * H)) : Type := {
  heap_space : Z;
  in_use : H -> gset Z;
  alloc_block h size align a h' : alloc h size align = Some (a, h') ->
    block a size ⊆ block heap_space USER_HEAP_SIZE /\ block a size ## in_use h /\ in_use h ∪ block a size ⊆ in_use h'
}.

Section Memory.
Context {H : Type} (alloc : H -> Z -> Z -> option (Z * H)) `{!UserHeap alloc} (task_size : Z) (Hsize : 0 <= task_size).

(** At least [n] bytes of the heap are in use. *)
Definition used (n : Z) (h : H) : Prop :=
  exists X : gset Z, X ⊆ in_use h /\ X ⊆ block heap_space USER_HEAP_SIZE /\ n <= Z.of_nat (size X).

Lemma used_bound n h : used n h -> n <= USER_HEAP_SIZE.
Proof.
  intros (X & _ & Hsub & Hn). apply subseteq_size in Hsub. pose proof (size_block heap_space USER_HEAP_SIZE ltac:(lia)). lia.
Qed.

(** [p] panics for want of memory, or uses [k] bytes more. *)
Definition uses {A} (p : M H A) (k : Z) : Prop :=
  forall n h, used n h -> match p h with Ok (_, h') => used (n + k) h' | Panic r => r = Explicit end.

Lemma uses_alloc size align : 0 <= size -> uses (heap_alloc alloc size align) size.
Proof.
  intros Hs n h (X & HX & Hsub & Hn). unfold heap_alloc, bind, get, modify, ret. destruct (alloc h size align) as [[a h']|] eqn:Ha; [|done].
  destruct (alloc_block _ _ _ _ _ Ha) as (Hin & Hdisj & Huse). exists (X ∪ block a size).
  generalize (block a size), (size_block a size Hs), Hin, Hdisj, Huse. generalize (block heap_space USER_HEAP_SIZE), Hsub. clear -HX Hn.
  intros S Hsub B HB Hin Hdisj Huse. split; [set_solver|]. split; [set_solver|]. rewrite size_union by set_solver. lia.
Qed.

Lemma uses_ret {A} (a : A) : uses (ret a) 0.
Proof. intros n h Hn. cbn. by rewrite Z.add_0_r. Qed.

Lemma uses_bind {A B} (p : M H A) (f : A -> M H B) j k : uses p j -> (forall a, uses (f a) k) -> uses (bind p f) (j + k).
Proof.
  intros Hp Hf n h Hn. specialize (Hp n h Hn). unfold bind. destruct (p h) as [[a h']|r]; [|done]. rewrite Z.add_assoc. by apply Hf.
Qed.

Lemma uses_Task_new i : uses (Task_new alloc i) DEFAULT_STACK_SIZE.
Proof. change DEFAULT_STACK_SIZE with (4096 + 0). apply uses_bind; [by apply uses_alloc|]. intros a. apply uses_ret. Qed.

Lemma uses_tasks l : forall v, uses (foldM (fun v i => let* t := Task_new alloc i in ret (vec_push v t)) l v) (DEFAULT_STACK_SIZE * Z.of_nat (length l)).
Proof.
  induction l as [|i l IH]; intros v; cbn [foldM length]; [apply uses_ret|].
  replace (4096 * Z.of_nat (S (length l))) with ((4096 + 0) + 4096 * Z.of_nat (length l)) by lia. apply uses_bind; [|done].
  apply uses_bind; [apply uses_Task_new|]. intros t. apply uses_ret.
Qed.

Lemma Runtime_new_panics h : Runtime_new alloc task_size h = Panic Explicit.
Proof.
  assert (uses (Runtime_new alloc task_size) (4096 + (task_size + (4 * task_size + (4096 * 4 + (5 * task_size + 0)))))) as Hu.
  { apply uses_bind; [by apply uses_alloc|]. intros s. apply uses_bind; [by apply uses_alloc|]. intros _. apply uses_bind; [apply uses_alloc; cbn; lia|].
    intros _. apply uses_bind; [apply (uses_tasks (seq 1 4))|]. intros v. apply uses_bind; [apply uses_alloc; cbn; lia|]. intros _. apply uses_ret. }
  specialize (Hu 0 h). destruct (Runtime_new alloc task_size h) as [[r h']|r].
  - assert (used 0 h) as H0 by (exists ∅; split; [apply empty_subseteq|split; [apply empty_subseteq|lia]]). apply Hu, used_bound in H0. lia.
  - f_equal. apply Hu. exists ∅. split; [apply empty_subseteq|split; [apply empty_subseteq|lia]].
Qed.

(** The program as it is panics in [Runtime::new], whatever else is on the heap: the five
    stacks alone are 20480 bytes. *)
Theorem main_out_of_memory guard_addr yield_ret code work h fs fuel m :
  main guard_addr yield_ret code work alloc task_size h fs fuel m = Panic Explicit.
Proof. unfold main, bind at 1, println, modify. unfold bind at 1, lift. by rewrite Runtime_new_panics. Qed.

End Memory.

(** An allocator that gives out its memory from below; three tasks with their stacks on such a
    heap, and two functions of the program. *)
Module Demo.
Definition base : Z := 65536.
Definition bump (used size align : Z) : option (Z * Z) :=
  let a := (used + align - 1) / align * align in
  if (0 <? align) && (0 <=? used) && (0 <=? size) && (a + size <=? USER_HEAP_SIZE) then Some (base + a, a + size) else None.

#[global, refine] Instance bump_heap : UserHeap bump := {| heap_space := base; in_use used := block base used |}.
Proof.
  intros h size align a h'. unfold bump. set (c := (h + align - 1) / align * align).
  destruct (_ && _) eqn:Hc; [|done]. intros [= <- <-]. assert (0 < align /\ 0 <= h /\ 0 <= size /\ c + size <= USER_HEAP_SIZE) as (Ha & Hh & Hs & Hle) by lia.
  assert (h <= c) as Hhc. { subst c. pose proof (Z.div_mod (h + align - 1) align ltac:(lia)). pose proof (Z.mod_pos_bound (h + align - 1) align Ha). lia. }
  split; [|split].
  - intros x. rewrite !in_block. lia.
  - intros x. rewrite !in_block. lia.
  - intros x. rewrite elem_of_union, !in_block. lia.
Defined.

Definition three_tasks : Runtime :=
  mk_runtime [mk_task 0 base TaskContext_default Running; mk_task 1 (base + 4096) TaskContext_default Available;
    mk_task 2 (base + 8192) TaskContext_default Available] 0.
Definition code (a : Z) : option coroutine := if a <? 100 then None else closures !! Z.to_nat (a - 100).
Definition start : Machine := mk_machine three_tasks (mk_regs TaskContext_default 0) (replicate 3 (TaskContext_default, InRun)) [].
End Demo.

Lemma main_out_of_memory_bump fuel m :
  main 1 2 Demo.code (fun _ c => c) Demo.bump 160 0 [100; 101; 102; 103] fuel m = Panic Explicit.
Proof. apply (main_out_of_memory Demo.bump 160). lia. Qed.

Lemma stackful_ends_witness :
  wp (for_each [100; 101] (spawn 1) ;; run 1 2 Demo.code (fun _ c => c) 23) (fun _ m' =>
    take 6 (output m') = ["TASK  1 STARTING"; "task: 1 counter: 0"; "TASK 2 STARTING"; "task: 2 counter: 0"; "task: 1 counter: 1"; "task: 2 counter: 1"]%string /\
    state <$> tasks (rt m') = [Running; Available; Available]) Demo.start.
Proof.
  eapply wp_mono; [|refine (stackful_ends 1 2 Demo.code (fun _ c => c) eq_refl Demo.start [100; 101] (take 2 closures) 23 _ _ _ _ _)].
  - intros _ m' [Ho Hs]. split; [rewrite Ho; reflexivity|exact Hs].
  - split; [done|]. eexists _, _. split; [reflexivity|]. split; [done|]. repeat constructor; cbn; unfold Demo.base; lia.
  - cbn. lia.
  - done.
  - repeat constructor.
  - vm_compute. lia.
Defined.
