(* ===== verification/Stackless.v ===== *)
(** * Futures (ci-user/user/src/bin/ch8b_stackless_coroutine.rs)

    An executor polls futures from a queue until all are done.  A future is an [async] block
    that prints lines and awaits the waiter of its task; the compiler turns the block into a
    state that remembers at which [await] it is.  The first poll of a waiter halts the task
    and is pending, the next one lets it run.  The waker does nothing and is left out. *)

From S2P Require Import Prelude Coroutine.
From stdpp Require Import strings pretty.
#[local] Open Scope Z_scope.
#[local] Open Scope list_scope.
#[local] Open Scope monad_scope.

Module Stackless.

Inductive State : Type :=
| Halted
| Running.

Inductive Poll : Type :=
| PollReady
| Pending.

(** [Waiter::poll] on the state of its task. *)
Definition Waiter_poll (s : State) : Poll * State :=
  match s with
  | Halted => (PollReady, Running)
  | Running => (Pending, Halted)
  end.

(** An [async] block: [CoYield] stands for [task.waiter().await]. *)
Inductive position : Type :=
| Unresumed (body : coroutine)
| Awaiting (rest : coroutine).

Record Future : Type := mk_future { task : State; at_ : position }.

(** The block from a point where it runs, with the lines it prints. *)
Fixpoint run_block (c : coroutine) (s : State) : Poll * Future * list string :=
  match c with
  | CoReturn lines => (PollReady, mk_future s (Awaiting c), lines)
  | CoYield lines rest =>
      match Waiter_poll s with
      | (PollReady, s) => let '(p, f, more) := run_block rest s in (p, f, lines ++ more)
      | (Pending, s) => (Pending, mk_future s (Awaiting rest), lines)
      end
  end.

Definition Future_poll (f : Future) : Poll * Future * list string :=
  match at_ f with
  | Unresumed body => run_block body (task f)
  | Awaiting rest =>
      match Waiter_poll (task f) with
      | (PollReady, s) => run_block rest s
      | (Pending, s) => (Pending, mk_future s (Awaiting rest), [])
      end
  end.

(** The executor and the lines printed so far. *)
Record Executor : Type := mk_executor { tasks : list Future; output : list string }.

Definition Executor_new (output : list string) : Executor := mk_executor [] output.
Definition push (body : coroutine) : M Executor unit :=
  modify (fun e => mk_executor (vec_push (tasks e) (mk_future Running (Unresumed body))) (output e)).
Definition println (lines : list string) : M Executor unit :=
  modify (fun e => mk_executor (tasks e) (output e ++ lines)).

Fixpoint run (fuel : nat) : M Executor unit :=
  match fuel with
  | O => panic OutOfFuel
  | S fuel' =>
      let* e := get in
      match tasks e with
      | [] => ret tt
      | f :: rest =>
          let '(p, f, lines) := Future_poll f in
          modify (fun e => mk_executor rest (output e ++ lines)) ;;
          (match p with
           | Pending => modify (fun e => mk_executor (vec_push (tasks e) f) (output e))
           | PollReady => ret tt
           end) ;;
          run fuel'
      end
  end.

(** The block that [main] pushes for [instance]. *)
Definition block (instance : N) : coroutine :=
  CoYield ["   Task " +:+ pretty instance +:+ ": begin state"]%string (
  CoYield ["   Task " +:+ pretty instance +:+ ": next state"]%string (
  CoReturn ["   Task " +:+ pretty instance +:+ ": end state"]%string)).

Definition main (blocks : list coroutine) (fuel : nat) : M Executor unit :=
  println ["stackless coroutine Begin.."; " Create futures"]%string ;;
  for_each blocks push ;;
  println [" Running"%string] ;;
  run fuel ;;
  println [" Done"; "stackless coroutine PASSED"]%string.

End Stackless.

(** * The executor polls its futures in turn and ends *)

Import Stackless.

(** What a future in the queue has left to do. *)
Definition rest_of (f : Future) (c : coroutine) : Prop :=
  f = mk_future Running (Unresumed c) \/ f = mk_future Halted (Awaiting c).

(** A poll runs the future to its next await, at which it stays for one poll. *)
Lemma poll_advances f c : rest_of f c ->
  exists f', Future_poll f = (if advance c is Some _ then Pending else PollReady, f', segment c) /\
    forall c', advance c = Some c' -> rest_of f' c'.
Proof.
  intros [->| ->]; destruct c as [lines|lines rest]; cbn; eexists; split; try reflexivity; intros c' [= <-]; by right.
Qed.

(** One round: every future of the queue is polled, and those that are pending stay. *)
Lemma run_queue cs : forall fs done later out fuel,
  Forall2 rest_of fs cs -> Forall2 rest_of done later ->
  exists fs', Forall2 rest_of fs' (later ++ omap advance cs) /\
    run (length cs + fuel) (mk_executor (fs ++ done) out) = run fuel (mk_executor fs' (out ++ (cs ≫= segment))).
Proof.
  induction cs as [|c cs IH]; intros fs done later out fuel Hfs Hdone.
  { apply Forall2_nil_inv_r in Hfs as ->. exists done. cbn. by rewrite !app_nil_r. }
  apply Forall2_cons_inv_r in Hfs as (f & fs0 & Hf & Hfs & ->). destruct (poll_advances f c Hf) as (f' & Hp & Hf').
  cbn [length Nat.add run app]. unfold bind at 1, get. cbn [tasks]. rewrite Hp.
  destruct (IH fs0 (if advance c is Some _ then done ++ [f'] else done) (if advance c is Some c' then later ++ [c'] else later) (out ++ segment c) fuel)
    as (fs' & Hfs' & Hr); [done| |].
  { destruct (advance c) as [c'|]; [|done]. apply Forall2_app; [done|]. constructor; [by apply Hf'|constructor]. }
  exists fs'. cbn [omap list_omap]. split.
  - destruct (advance c); [|exact Hfs']. by rewrite <-app_assoc in Hfs'.
  - cbn [mbind list_bind]. rewrite (app_assoc out), <-Hr. destruct (advance c); cbn; unfold bind, modify, vec_push; cbn; [by rewrite <-app_assoc|done].
Qed.

Lemma total_advance cs : total_segments cs = (length cs + total_segments (omap advance cs))%nat.
Proof. unfold total_segments. induction cs as [|[lines|lines rest] cs IH]; [done|..]; cbn in *; lia. Qed.

Lemma longest_advance cs : longest (omap advance cs) = pred (longest cs).
Proof.
  unfold longest. induction cs as [|[lines|lines rest] cs IH]; [done|..]; cbn in *; rewrite IH; lia.
Qed.

Lemma rounds_advance n cs : rounds n (mbind advance <$> (Some <$> cs)) = rounds n (Some <$> omap advance cs).
Proof.
  rewrite !rounds_segments. apply list_bind_ext; [|done]. intros r. rewrite <-list_fmap_compose. 
  induction cs as [|[lines|lines rest] cs IH]; [done|exact IH|]. cbn in *. by rewrite IH.
Qed.

(** All rounds: enough fuel is one poll for each part of a future, and the last look at the
    empty queue. *)
Lemma run_all k : forall cs fs out, longest cs = k -> Forall2 rest_of fs cs ->
  forall fuel, (total_segments cs < fuel)%nat -> run fuel (mk_executor fs out) = Ok (tt, mk_executor [] (out ++ rounds k (Some <$> cs))).
Proof.
  induction k as [|k IH]; intros cs fs out Hk Hfs fuel Hf.
  - destruct cs as [|c cs]; [|exfalso; pose proof (segments_nonempty c) as Hne; unfold longest in Hk; cbn in Hk; destruct (segments c); [done|cbn in Hk; lia]].
    apply Forall2_nil_inv_r in Hfs as ->. destruct fuel; [lia|]. cbn. by rewrite app_nil_r.
  - destruct (run_queue cs fs [] [] out (fuel - length cs)) as (fs' & Hfs' & Hr); [done|constructor|].
    rewrite total_advance in Hf. rewrite app_nil_r in Hr. replace (length cs + (fuel - length cs))%nat with fuel in Hr by lia. rewrite Hr.
    rewrite (IH (omap advance cs) fs'); [|rewrite longest_advance; lia|done|lia]. cbn [rounds].
    rewrite rounds_advance, list_fmap_bind, <-app_assoc. done.
Qed.

Lemma push_all cs : forall e, for_each cs push e = Ok (tt, mk_executor (tasks e ++ ((fun c => mk_future Running (Unresumed c)) <$> cs)) (output e)).
Proof.
  induction cs as [|c cs IH]; intros e; [destruct e; cbn; by rewrite app_nil_r|].
  etransitivity; [apply (IH (mk_executor (vec_push (tasks e) (mk_future Running (Unresumed c))) (output e)))|].
  cbn [tasks output]. unfold vec_push. by rewrite <-app_assoc.
Qed.

(** C36: The executor ends: [main] returns if there is fuel for one poll for each part of a
    future between awaits and one look at the empty queue.  It prints the round-robin
    interleaving of the futures, the same as the green threads do, between its own lines,
    and leaves the queue empty. *)
Theorem stackless_ends cs out fuel :
  (total_segments cs < fuel)%nat ->
  main cs fuel (Executor_new out) = Ok (tt, mk_executor [] (out ++ ["stackless coroutine Begin.."; " Create futures"; " Running"]%string ++
    round_robin cs ++ [" Done"; "stackless coroutine PASSED"]%string)).
Proof.
  intros Hf. unfold main, println, bind, modify. cbn [tasks output Executor_new]. rewrite push_all. cbn [tasks output app].
  rewrite (run_all (longest cs) cs); [|done| |done].
  - cbn [tasks output]. rewrite <-round_robin_rounds, <-!app_assoc. done.
  - apply Forall2_fmap_l, Forall_Forall2_diag, Forall_true. intros c. by left.
Qed.

Lemma stackless_ends_witness :
  main (block <$> [1; 2; 3]%N) 10 (Executor_new []) = Ok (tt, mk_executor []
    ["stackless coroutine Begin.."; " Create futures"; " Running";
     "   Task 1: begin state"; "   Task 2: begin state"; "   Task 3: begin state";
     "   Task 1: next state"; "   Task 2: next state"; "   Task 3: next state";
     "   Task 1: end state"; "   Task 2: end state"; "   Task 3: end state";
     " Done"; "stackless coroutine PASSED"]%string).
Proof. rewrite (stackless_ends (block <$> [1; 2; 3]%N) [] 10); [vm_compute; reflexivity|vm_compute; lia]. Defined.
