(* ===== verification/Shell.v ===== *)
(** * The shell and the first process (user programs)

    The shell of ci-user/user/src/bin/ch8b_user_shell.rs, which runs pipelines with
    redirections, and user/src/bin/ch5b_initproc.rs, as interaction trees over the user
    library.  A string is the list of its characters; what the kernel is given is the
    address and the UTF-8 bytes.  Where the allocator has a string is an argument. *)

From S2P Require Import Prelude UserLib UserSpec TestPrograms.
From stdpp Require Import strings.
From ITree Require Import ITree ITreeFacts.
Import User Tests.
#[local] Open Scope Z_scope.
#[local] Open Scope list_scope.
#[local] Open Scope user_scope.

Module Shell.

(** The characters of a literal, and the bytes of a character that was a [u8]. *)
Definition text (s : string) : list Z := (fun a => Z.of_N (Ascii.N_of_ascii a)) <$> String.list_ascii_of_string s.
Definition encode_utf8 (c : Z) : list Z :=
  if c <? 128 then [c] else [Z.lor 0xc0 (Z.shiftr c 6); Z.lor 0x80 (Z.land c 0x3f)].
Definition as_bytes (s : list Z) : list Z := s ≫= encode_utf8.

Abbreviation LF := 0x0a (only parsing).
Abbreviation CR := 0x0d (only parsing).
Abbreviation DL := 0x7f (only parsing).
Abbreviation BS := 0x08 (only parsing).
Abbreviation NUL := 0 (only parsing).

(** [str::split] *)
Fixpoint split (sep : Z) (s : list Z) : list (list Z) :=
  match s with
  | [] => [[]]
  | c :: s' =>
      if c =? sep then [] :: split sep s'
      else match split sep s' with
           | [] => [[c]]
           | w :: ws => (c :: w) :: ws
           end
  end.

(** [is_empty] *)
Definition is_nil {A} (l : list A) : bool := match l with [] => true | _ => false end.

(** ** Commands *)

(** Without [args_addr], the addresses of the strings of [args_copy]. *)
Record ProcessArguments : Type := mk_process_arguments {
  input : list Z;
  output : list Z;
  args_copy : list (list Z)
}.

(** The argument after the first [arg] that is [mark], taken out together with it. *)
Definition redirect (mark : list Z) (args : list (list Z)) : outcome (list Z * list (list Z)) :=
  match list_find (fun arg => arg = mark) args with
  | None => Ok ([], args)
  | Some (idx, _) =>
      match args !! S idx with
      | None => Panic OutOfRange
      | Some name => Ok (name, take idx args ++ drop (S (S idx)) args)
      end
  end.

Definition ProcessArguments_new (command : list Z) : outcome ProcessArguments :=
  let args := split 32 command in
  let args_copy := (fun arg => arg ++ [NUL]) <$> filter (fun arg => arg <> []) args in
  match redirect [60; NUL] args_copy with
  | Panic r => Panic r
  | Ok (input, args_copy) =>
      match redirect [62; NUL] args_copy with
      | Panic r => Panic r
      | Ok (output, args_copy) => Ok (mk_process_arguments input output args_copy)
      end
  end.

(** The commands of a line, in order; a panic in one of them is one of the shell. *)
Fixpoint parse_all (commands : list (list Z)) : outcome (list ProcessArguments) :=
  match commands with
  | [] => Ok []
  | c :: cs =>
      match ProcessArguments_new c with
      | Panic r => Panic r
      | Ok p =>
          match parse_all cs with
          | Panic r => Panic r
          | Ok ps => Ok (p :: ps)
          end
      end
  end.

(** The check of the redirections of a pipeline of [n] commands, from command [i] on. *)
Fixpoint valid_from (i n : nat) (ps : list ProcessArguments) (valid : bool) : bool :=
  match ps with
  | [] => valid
  | p :: ps' =>
      let bad :=
        if decide (i = O) then negb (is_nil (output p))
        else if decide (i = n - 1)%nat then negb (is_nil (input p))
        else negb (is_nil (output p)) || negb (is_nil (input p)) in
      valid_from (S i) n ps' (if bad then false else valid)
  end.
Definition pipeline_valid (ps : list ProcessArguments) : bool :=
  if decide (length ps = 1%nat) then true else valid_from 0 (length ps) ps true.

Section Shell.
(** The console buffer, the message of a panic, the addresses of strings and of the other
    objects that are handed to the kernel. *)
Context (buffer_ptr : Z) (panic_message : list (list Z)) (str_ptr : list Z -> Z) (args_ptr char_ptr pipe_ptr exit_ptr : Z).

Abbreviation print := (print buffer_ptr).
Abbreviation flush := (flush buffer_ptr).
Abbreviation close := (close buffer_ptr).
Abbreviation assert := (assert buffer_ptr panic_message).
Abbreviation panic := (panic buffer_ptr panic_message).
Definition println (pieces : list (list Z)) : user unit := print (pieces ++ [[LF]]).
Definition as_str (s : list Z) : slice := mk_slice (str_ptr s) (as_bytes s).

(** ** A command in a process of its own *)

(** [target] becomes the file named by a redirection, if there is one; [false] is that the
    file cannot be opened. *)
Definition redirect_file (path : list Z) (flags target : Z) : user bool :=
  if is_nil path then Ret true
  else
    let* fd := open (as_str path) flags in
    if fd =? -1 then
      println [text "Error when opening file "; as_bytes path] ;;
      Ret false
    else
      let fd := as_usize fd in
      close target ;;
      let* d := dup fd in
      assert (d =? target) ;;
      close fd ;;
      Ret true.

(** [target] becomes an end of a pipe. *)
Definition take_end (target : Z) (fd : option Z) : user unit :=
  close target ;;
  match fd with
  | None => panic
  | Some fd =>
      let* d := dup fd in
      assert (d =? target)
  end.

Fixpoint close_pipes (pipes_fd : list (Z * Z)) : user unit :=
  match pipes_fd with
  | [] => Ret tt
  | pipe_fd :: rest => close (fst pipe_fd) ;; close (snd pipe_fd) ;; close_pipes rest
  end.

(** Command [i] of [n] gets its files and pipes. *)
Definition connect (i n : nat) (p : ProcessArguments) (pipes_fd : list (Z * Z)) : user bool :=
  let* ok := redirect_file (input p) (open_flags_bits RDONLY) 0 in
  if ok : bool then
    let* ok := redirect_file (output p) (Z.lor (open_flags_bits CREATE) (open_flags_bits WRONLY)) 1 in
    if ok : bool then
      (if decide (0 < i)%nat then take_end 0 (fst <$> pipes_fd !! (i - 1)%nat) else Ret tt) ;;
      (if decide (i < n - 1)%nat then take_end 1 (snd <$> pipes_fd !! i) else Ret tt) ;;
      close_pipes pipes_fd ;;
      Ret true
    else Ret false
  else Ret false.

(** The child: the code it exits with. *)
Definition child (i n : nat) (p : ProcessArguments) (pipes_fd : list (Z * Z)) : user Z :=
  let* ok := connect i n p pipes_fd in
  if ok : bool then
    match args_copy p with
    | [] => panic
    | name :: _ =>
        let* r := exec (as_str name) args_ptr in
        if r =? -1 then
          println [text "Error when executing!"] ;;
          Ret (-4)
        else panic
    end
  else Ret (-4).

(** ** A pipeline *)

(** [pipe_fd] is read back from memory after each call. *)
Fixpoint make_pipes (n : nat) (pipes_fd : list (Z * Z)) : user (list (Z * Z)) :=
  match n with
  | O => Ret pipes_fd
  | S n' =>
      pipe pipe_ptr ;;
      let* read_end := load_usize pipe_ptr in
      let* write_end := load_usize (pipe_ptr +% 8) in
      make_pipes n' (vec_push pipes_fd (read_end, write_end))
  end.

(** The loop that forks: the pids of the children, or, in a child, its exit code. *)
Fixpoint fork_all (i n : nat) (ps : list ProcessArguments) (pipes_fd : list (Z * Z)) (children : list Z) : user (list Z + Z) :=
  match ps with
  | [] => Ret (inl children)
  | p :: ps' =>
      let* pid := fork in
      if pid =? 0 then
        let* code := child i n p pipes_fd in
        Ret (inr code)
      else fork_all (S i) n ps' pipes_fd (vec_push children pid)
  end.

Fixpoint wait_all (children : list Z) : user unit :=
  match children with
  | [] => Ret tt
  | pid :: rest =>
      let* exit_pid := waitpid (as_usize pid) exit_ptr in
      assert (pid =? exit_pid) ;;
      wait_all rest
  end.

(** A line that is not empty; [Some code] is that [main] returns [code]. *)
Definition run_line (line : list Z) : user (option Z) :=
  match parse_all (split 124 line) with
  | Panic _ => panic
  | Ok ps =>
      if pipeline_valid ps then
        let* pipes_fd := make_pipes (length ps - 1) [] in
        let* r := fork_all 0 (length ps) ps pipes_fd [] in
        match r with
        | inr code => Ret (Some code)
        | inl children =>
            close_pipes pipes_fd ;;
            wait_all children ;;
            Ret None
        end
      else
        println [text "Invalid command: Inputs/Outputs cannot be correctly binded!"] ;;
        Ret None
  end.

(** ** The loop of [main] *)

Definition shell_round (line : list Z) : user (list Z + Z) :=
  let* c := getchar char_ptr in
  if (c =? LF) || (c =? CR) then
    println [] ;;
    let* r := if is_nil line then Ret None else run_line line in
    match r with
    | Some code => Ret (inr code)
    | None => print [text ">> "] ;; Ret (inl [])
    end
  else if (c =? BS) || (c =? DL) then
    if is_nil line then Ret (inl line)
    else
      print [[BS]] ;; print [text " "] ;; print [[BS]] ;;
      Ret (inl (removelast line))
  else
    print [encode_utf8 c] ;;
    Ret (inl (vec_push line c)).

Definition main : user Z :=
  println [text "Rust user shell"] ;;
  print [text ">> "] ;;
  ITree.iter shell_round [].

(** ** The first process (ch5b_initproc.rs) *)

(** The formatted numbers of its message are arguments. *)
Definition initproc (decimal : Z -> list Z) : user Z :=
  let* pid := fork in
  if pid =? 0 then
    exec (as_str (text "ch5b_user_shell" ++ [NUL])) args_ptr ;;
    Ret 0
  else
    ITree.iter (fun _ : unit =>
      let* pid := wait exit_ptr in
      if pid =? -1 then
        yield_ ;;
        Ret (inl tt)
      else
        let* exit_code := load_usize exit_ptr in
        println [text "[initproc] Released a zombie process, pid="; decimal pid; text ", exit_code="; decimal (as_i32 exit_code)] ;;
        Ret (inl tt)) tt.

End Shell.
End Shell.

(** * What the shell does

    A command line is read as the words it is spelled with; a redirection without a name
    makes the shell panic.  A command of a pipeline is given exactly its ends of the pipes
    and its files.  The first process never exits. *)

Import Shell.

(** ** Words *)

Definition word (w : list Z) : Prop := w <> [] /\ 32 ∉ w.

(** [s] is the words [ws], in order, with spaces around them. *)
Inductive spells : list (list Z) -> list Z -> Prop :=
| spells_nil : spells [] []
| spells_space ws s : spells ws s -> spells ws (32 :: s)
| spells_word w ws s : word w -> (s = [] \/ exists s', s = 32 :: s') -> spells ws s -> spells (w :: ws) (w ++ s).

Lemma split_cons sep c s : c <> sep -> exists w ws, split sep s = w :: ws /\ split sep (c :: s) = (c :: w) :: ws.
Proof.
  intros Hc. cbn. rewrite (proj2 (Z.eqb_neq _ _)) by done. destruct (split sep s) as [|w ws] eqn:Hs; [|by exists w, ws].
  exfalso. destruct s as [|d s]; cbn in Hs; [done|]. destruct (d =? sep); [done|]. by destruct (split sep s).
Qed.

Lemma split_word w s : 32 ∉ w -> (s = [] \/ exists s', s = 32 :: s') ->
  exists ws, split 32 (w ++ s) = w :: ws /\ (forall s', s = 32 :: s' -> ws = split 32 s') /\ (s = [] -> ws = []).
Proof.
  intros Hw Hs. induction w as [|c w IH].
  - destruct Hs as [->|[s' ->]]; cbn.
    + exists []. done.
    + exists (split 32 s'). split; [done|]. split; [|done]. by intros s'' [= ->].
  - apply not_elem_of_cons in Hw as [Hc Hw]. destruct (IH Hw) as (ws & Hws & Hrest). exists ws. split; [|done].
    destruct (split_cons 32 c (w ++ s)) as (w' & ws' & H1 & H2); [done|]. cbn [app]. rewrite H2. congruence.
Qed.

Lemma words_of_spelling ws s : spells ws s -> filter (fun arg => arg <> []) (split 32 s) = ws.
Proof.
  induction 1 as [|ws s _ IH|w ws s Hw Hs Hsp IH]; [done|done|].
  destruct Hw as [Hne Hw]. destruct (split_word w s Hw Hs) as (ws' & -> & Hc & He). rewrite filter_cons_True by done. f_equal.
  destruct Hs as [->|[s' ->]].
  - rewrite He by done. by inversion Hsp as [| |? ? ? [? _]]; subst; [|destruct w0].
  - rewrite (Hc s') by done. exact IH.
Qed.

(** Every text is spelled with the words that the shell finds in it. *)
Lemma split_first s w ws : split 32 s = w :: ws -> (w = [] /\ (s = [] \/ exists s', s = 32 :: s')) \/ exists d s', s = d :: s' /\ d <> 32 /\ w <> [].
Proof.
  destruct s as [|d s]; cbn; [intros [= <- <-]; left; split; [done|by left]|]. destruct (Z.eqb_spec d 32) as [->|Hd].
  - intros [= <- <-]. left. split; [done|right; by exists s].
  - intros Hs. right. exists d, s. split_and!; [done|done|]. destruct (split 32 s); injection Hs as <- <-; done.
Qed.

Lemma spelling_of_words s : spells (filter (fun arg => arg <> []) (split 32 s)) s.
Proof.
  induction s as [|c s IH]; [constructor|]. destruct (Z.eqb_spec c 32) as [->|Hc]; [by apply spells_space|].
  destruct (split_cons 32 c s Hc) as (w & ws & Hs & ->). rewrite Hs in IH. rewrite filter_cons_True by done.
  destruct (split_first s w ws Hs) as [[-> Hhd]|(d & s' & -> & Hd & Hw)].
  - rewrite filter_cons_False in IH by naive_solver. apply (spells_word [c]); [|done|done]. split; [done|]. set_solver.
  - rewrite filter_cons_True in IH by done. inversion IH as [| |w' ws' s0 [Hne Hw'] Hhd Hrest Hw0 Heq]; subst; [done|].
    replace (c :: d :: s') with ((c :: w) ++ s0) by (cbn; congruence). apply (spells_word (c :: w)); [|done|done]. split; [done|]. set_solver.
Qed.

(** ** Redirections *)

Definition nul (w : list Z) : list Z := w ++ [NUL].
Definition LT : list Z := [60].
Definition GT : list Z := [62].

(** A redirection: nothing, or the mark and a name. *)
Definition redirection (mark : list Z) (name : option (list Z)) : list (list Z) :=
  match name with
  | None => []
  | Some n => [mark; n]
  end.

Lemma nul_inj v w : nul v = nul w -> v = w.
Proof. apply app_inj_tail. Qed.

Lemma redirect_none mark ws : mark ∉ ws -> redirect (nul mark) (nul <$> ws) = Ok ([], nul <$> ws).
Proof.
  intros Hm. unfold redirect. destruct (list_find _ _) as [[i x]|] eqn:Hf; [|done].
  apply list_find_Some in Hf as (Hi & -> & _). apply list_lookup_fmap_Some in Hi as (w & ->%nul_inj & Hw). by apply list_elem_of_lookup_2 in Hw.
Qed.

Lemma redirect_found mark a rest : mark ∉ a ->
  redirect (nul mark) (nul <$> a ++ mark :: rest) =
    match rest with
    | [] => Panic OutOfRange
    | n :: b => Ok (nul n, nul <$> a ++ b)
    end.
Proof.
  intros Hm. unfold redirect.
  assert (list_find (fun arg => arg = nul mark) (nul <$> a ++ mark :: rest) = Some (length a, nul mark)) as ->.
  { apply list_find_Some. split_and!; [|done|].
    - by rewrite fmap_app, lookup_app_r, length_fmap, Nat.sub_diag by (by rewrite length_fmap).
    - intros j y Hj Hlt ->. rewrite fmap_app, lookup_app_l in Hj by (by rewrite length_fmap).
      apply list_lookup_fmap_Some in Hj as (w & ->%nul_inj & Hw). by apply list_elem_of_lookup_2 in Hw. }
  rewrite fmap_app, lookup_app_r, length_fmap by (rewrite length_fmap; lia). replace (S (length a) - length a)%nat with 1%nat by lia. cbn [fmap list_fmap].
  destruct rest as [|n b]; [done|]. cbn [lookup list_lookup fmap list_fmap]. rewrite take_app_length' by (by rewrite length_fmap).
  rewrite drop_app_ge by (rewrite length_fmap; lia). rewrite length_fmap, fmap_app. by replace (S (S (length a)) - length a)%nat with 2%nat by lia.
Qed.

(** Every panic of the parser is an access beyond the end. *)
Lemma redirect_panics mark args r : redirect mark args = Panic r -> r = OutOfRange.
Proof. unfold redirect. destruct (list_find _ _) as [[idx x]|]; [|done]. destruct (args !! S idx); [done|congruence]. Qed.

Lemma new_panics s r : ProcessArguments_new s = Panic r -> r = OutOfRange.
Proof.
  unfold ProcessArguments_new. destruct (redirect [60; NUL] _) as [[i args]|r1] eqn:H1.
  - destruct (redirect [62; NUL] args) as [[o args']|r2] eqn:H2; [done|]. intros [= <-]. by eapply redirect_panics.
  - intros [= <-]. by eapply redirect_panics.
Qed.

Lemma parse_all_panics commands s : s ∈ commands -> ProcessArguments_new s = Panic OutOfRange -> parse_all commands = Panic OutOfRange.
Proof.
  intros Hs Hp. induction commands as [|c cs IH]; [by apply elem_of_nil in Hs|]. cbn [parse_all].
  apply elem_of_cons in Hs as [->|Hs]; [by rewrite Hp|]. rewrite IH by done.
  destruct (ProcessArguments_new c) eqn:Hc; [done|]. f_equal. by eapply new_panics.
Qed.

(** C35: A command is read as it is spelled.  Whatever the spaces between its words, a command
    with arguments that are no marks, and at most one redirection of its input followed by
    at most one of its output, is read as these arguments and names, each with the NUL that
    the kernel expects. *)
Theorem shell_reads_command s a b c i o :
  spells (a ++ redirection LT i ++ b ++ redirection GT o ++ c) s -> LT ∉ a ++ b ++ c -> GT ∉ a ++ b ++ c -> o <> Some LT ->
  ProcessArguments_new s = Ok (mk_process_arguments (from_option nul [] i) (from_option nul [] o) (nul <$> a ++ b ++ c)).
Proof.
  intros Hs HL HG Ho. unfold ProcessArguments_new. rewrite (words_of_spelling _ _ Hs).
  change (fun arg : list Z => arg ++ [NUL]) with nul. change [60; NUL] with (nul LT). change [62; NUL] with (nul GT).
  assert (redirect (nul LT) (nul <$> a ++ redirection LT i ++ b ++ redirection GT o ++ c) =
    Ok (from_option nul [] i, nul <$> (a ++ b) ++ redirection GT o ++ c)) as ->.
  { rewrite <-app_assoc. destruct i as [n|]; cbn [redirection from_option app].
    - rewrite redirect_found; [done|set_solver].
    - rewrite redirect_none; [done|]. assert (LT ∉ redirection GT o); [|set_solver].
      destruct o as [n|]; cbn; [|apply not_elem_of_nil]. apply not_elem_of_cons. split; [done|]. apply not_elem_of_cons. split; [congruence|apply not_elem_of_nil]. }
  destruct o as [n|]; cbn [redirection from_option app].
  - rewrite redirect_found; [by rewrite <-app_assoc|set_solver].
  - rewrite redirect_none; [by rewrite <-app_assoc|set_solver].
Qed.

Lemma shell_reads_command_witness :
  ProcessArguments_new (text "sort -r < in  > out ") =
    Ok (mk_process_arguments (nul (text "in")) (nul (text "out")) [nul (text "sort"); nul (text "-r")]).
Proof.
  apply (shell_reads_command _ [text "sort"; text "-r"] [] [] (Some (text "in")) (Some (text "out"))).
  - exact (spelling_of_words (text "sort -r < in  > out ")).
  - apply (bool_decide_unpack _). by vm_compute.
  - apply (bool_decide_unpack _). by vm_compute.
  - done.
Defined.

(** C39: A redirection without a name makes the shell panic: if some command of the line ends
    with the mark of a redirection, the shell, not a child of it, prints the message of the
    panic and exits with -1. *)
Theorem shell_panics_without_name bp msg sp ap pp ep line s ws mark :
  s ∈ split 124 line -> spells (ws ++ [mark]) s -> (mark = LT \/ mark = GT) -> LT ∉ ws -> GT ∉ ws ->
  run_line bp msg sp ap pp ep line = Tests.panic bp msg.
Proof.
  intros Hin Hs Hm HL HG. unfold run_line. erewrite parse_all_panics; [done|exact Hin|]. unfold ProcessArguments_new.
  rewrite (words_of_spelling _ _ Hs). change (fun arg : list Z => arg ++ [NUL]) with nul. change [60; NUL] with (nul LT). change [62; NUL] with (nul GT).
  destruct Hm as [-> | ->].
  - by rewrite redirect_found.
  - rewrite redirect_none by set_solver. by rewrite redirect_found.
Qed.

Lemma shell_panics_without_name_witness : run_line 8192 [] (fun _ => 0) 0 0 0 (text "cat < in | sort >") = Tests.panic 8192 [].
Proof.
  apply (shell_panics_without_name 8192 [] (fun _ => 0) 0 0 0 (text "cat < in | sort >") (text " sort >") [text "sort"] GT).
  - apply (bool_decide_unpack _). by vm_compute.
  - exact (spelling_of_words (text " sort >")).
  - by right.
  - apply (bool_decide_unpack _). by vm_compute.
  - apply (bool_decide_unpack _). by vm_compute.
Defined.

(** ** File descriptors *)

(** What the shell relies on of a kernel with file descriptors (guide/source/chapter6 and 7):
    while there is room, [dup] gives the lowest number that is free, and so does [open] of a
    path that can be opened; for any other, such as that of a file that does not exist, [open]
    answers -1 and leaves the table alone.  [close] frees a number, and [write] leaves the table
    alone.  [opens] is whether a path can be opened with some flags, [file] what it is opened
    as. *)
Definition lowest {O} (m : gmap Z O) (fd : Z) : Prop :=
  0 <= fd < 2 ^ 63 /\ m !! fd = None /\ forall j, 0 <= j < fd -> is_Some (m !! j).

Class FdKernel {K : Type} (kernel : K -> Z -> list arg -> K * Z) (O : Type) : Type := {
  fds : K -> gmap Z O;
  file : list Z -> O;
  opens : K -> list Z -> Z -> bool;
  max_fds : nat;
  fd_close k fd : exists k' r, kernel k SYSCALL_CLOSE [Num fd; Num 0; Num 0] = (k', r) /\ fds k' = delete fd (fds k);
  fd_dup k fd o : fds k !! fd = Some o -> (size (fds k) < max_fds)%nat ->
    exists k' r, kernel k SYSCALL_DUP [Num fd; Num 0; Num 0] = (k', r) /\ lowest (fds k) r /\ fds k' = <[r := o]> (fds k);
  fd_open k path flags : (size (fds k) < max_fds)%nat -> exists k' r,
    kernel k SYSCALL_OPENAT [Num (as_usize AT_FDCWD); Ptr path; Num flags; Num (open_flags_bits RDWR); Num 0; Num 0] = (k', r) /\
    if opens k (bytes path) flags then lowest (fds k) r /\ fds k' = <[r := file (bytes path)]> (fds k)
    else r = 2 ^ 64 - 1 /\ fds k' = fds k;
  fd_write k fd buf : exists k' r, kernel k SYSCALL_WRITE [Num fd; Ptr buf; Num (slice_len buf)] = (k', r) /\ fds k' = fds k
}.

Section Connect.
Context {K O : Type} (kernel : K -> Z -> list arg -> K * Z) (load load8 : K -> Z -> Z) (store8 : K -> Z -> Z -> K) `{!FdKernel kernel O}.
Context (bp : Z) (msg : list (list Z)) (sp : list Z -> Z).

Abbreviation run := (run kernel load load8 store8).

(** [u] returns [a] and leaves the descriptors [m]. *)
Definition leaves {A} (u : itree userE A) (k : K) (b : list Z) (a : A) (m : gmap Z O) : Prop :=
  exists k' b', run u k b ≈ Ret ((k', b'), a) /\ fds k' = m.

Lemma leaves_bind {A B} (u : itree userE A) (f : A -> itree userE B) k b a m v m' :
  leaves u k b a m -> (forall k' b', fds k' = m -> leaves (f a) k' b' v m') -> leaves (ITree.bind u f) k b v m'.
Proof.
  intros (k1 & b1 & Hu & Hm) Hf. destruct (Hf k1 b1 Hm) as (k2 & b2 & Hr & Hm'). exists k2, b2. split; [|done]. by eapply run_step.
Qed.

Lemma leaves_ret {A} (a : A) k b : leaves (Ret a) k b a (fds k).
Proof. exists k, b. split; [apply run_ret|done]. Qed.

Lemma leaves_flush k b : leaves (flush bp) k b tt (fds k).
Proof.
  destruct (fd_write k STDOUT (mk_slice bp b)) as (k' & r & Hk & Hm). exists k', []. split; [|done].
  unfold flush. eapply run_step; [|apply run_ret]. unfold ConsoleBuffer_flush. eapply run_step; [apply run_get_buffer|].
  eapply run_step; [by apply run_syscall|]. eapply run_step; [apply run_set_buffer|]. apply run_ret.
Qed.

(** The buffer is not the kernel's. *)
Lemma leaves_get {A} (f : list Z -> itree userE A) k b a m : leaves (f b) k b a m -> leaves (ITree.bind get_buffer f) k b a m.
Proof. intros (k1 & b1 & Hu & Hm). exists k1, b1. split; [|done]. eapply run_step; [apply run_get_buffer|exact Hu]. Qed.

Lemma leaves_set {A} v (u : itree userE A) k b a m : leaves u k v a m -> leaves (set_buffer v ;; u) k b a m.
Proof. intros (k1 & b1 & Hu & Hm). exists k1, b1. split; [|done]. eapply run_step; [apply run_set_buffer|exact Hu]. Qed.

(** Printing leaves the descriptors alone, whatever [write] answers. *)
Lemma leaves_write_str w : forall k b, exists ok, leaves (write_str bp w) k b ok (fds k).
Proof.
  induction w as [|c w IH]; intros k b; cbn [write_str]; [exists true; apply leaves_ret|].
  destruct ((c =? 10) || (Z.of_nat (length (b ++ [c])) =? CONSOLE_BUFFER_SIZE)) eqn:Hc.
  - destruct (fd_write k STDOUT (mk_slice bp (b ++ [c]))) as (k' & r & Hk & Hm).
    assert (run (ConsoleBuffer_flush bp) k (b ++ [c]) ≈ Ret ((k', []), as_isize r)) as Hf.
    { unfold ConsoleBuffer_flush. eapply run_step; [apply run_get_buffer|].
      eapply run_step; [by apply run_syscall|]. eapply run_step; [apply run_set_buffer|]. apply run_ret. }
    destruct (IH k' []) as (ok & k2 & b2 & H2 & Hm2). exists (if as_isize r =? -1 then false else ok).
    apply leaves_get. cbn beta zeta. apply leaves_set. rewrite Hc. rewrite <-Hm. destruct (as_isize r =? -1) eqn:Hr.
    + exists k', []. split; [|done]. eapply run_step; [exact Hf|]. rewrite Hr. apply run_ret.
    + exists k2, b2. split; [|done]. eapply run_step; [exact Hf|]. by rewrite Hr.
  - destruct (IH k (b ++ [c])) as [ok Hok]. exists ok. apply leaves_get. cbn beta zeta. apply leaves_set. by rewrite Hc.
Qed.

Lemma leaves_print ps : forall k b, leaves (print bp ps) k b tt (fds k).
Proof.
  induction ps as [|w ps IH]; intros k b; cbn [print]; [apply leaves_ret|]. destruct (leaves_write_str w k b) as [[] Hw].
  - eapply leaves_bind; [exact Hw|]. intros k' b' <-. apply IH.
  - eapply leaves_bind; [exact Hw|]. intros k' b' <-. apply leaves_ret.
Qed.

Lemma leaves_close fd k b : exists r, leaves (close bp fd) k b r (delete fd (fds k)).
Proof.
  destruct (leaves_flush k b) as (k1 & b1 & Hf & Hm1). destruct (fd =? STDOUT) eqn:Hfd.
  - destruct (fd_close k1 fd) as (k2 & r & Hk & Hm). exists (as_isize r), k2, b1. split; [|by rewrite Hm, Hm1].
    unfold close. rewrite Hfd. eapply run_step; [exact Hf|]. by apply run_syscall.
  - destruct (fd_close k fd) as (k2 & r & Hk & Hm). exists (as_isize r), k2, b. split; [|done].
    unfold close. rewrite Hfd. eapply run_step; [apply run_ret|]. by apply run_syscall.
Qed.

Lemma leaves_dup fd o k b : fds k !! fd = Some o -> (size (fds k) < max_fds)%nat -> exists r, lowest (fds k) r /\ leaves (dup fd) k b r (<[r := o]> (fds k)).
Proof.
  intros Ho Hsize. destruct (fd_dup k fd o Ho Hsize) as (k' & r & Hk & Hl & Hm). exists r. split; [done|]. exists k', b. split; [|done].
  replace r with (as_isize r) at 1; [by apply run_syscall|]. unfold as_isize. destruct Hl as [Hr _]. by rewrite (proj2 (Z.ltb_lt _ _)) by lia.
Qed.

Lemma lowest_unique (m : gmap Z O) r s : lowest m r -> lowest m s -> r = s.
Proof.
  intros (Hr & Hrn & Hrl) (Hs & Hsn & Hsl). destruct (Z.lt_trichotomy r s) as [Hlt|[->|Hlt]]; [|done|].
  - destruct (Hsl r ltac:(lia)) as [x Hx]. congruence.
  - destruct (Hrl s ltac:(lia)) as [x Hx]. congruence.
Qed.

(** The targets of redirections: 0, or 1 while 0 is open. *)
Definition target_ok (target : Z) (m : gmap Z O) : Prop := target = 0 \/ (target = 1 /\ is_Some (m !! 0)).

Lemma target_lowest target (m : gmap Z O) : target_ok target m -> lowest (delete target m) target.
Proof.
  intros [->|[-> H0]]; (split; [lia|split; [apply lookup_delete_eq|]]); intros j Hj; [lia|].
  replace j with 0 by lia. by rewrite lookup_delete_ne.
Qed.

(** [close] of the target and [dup] of an open descriptor put the latter in its place. *)
Lemma leaves_dup_to {A} target fd o k b (g : Z -> itree userE A) v m :
  target_ok target (fds k) -> is_Some (fds k !! target) -> fd <> target -> fds k !! fd = Some o -> (size (fds k) <= max_fds)%nat ->
  (forall k' b', fds k' = <[target := o]> (fds k) -> leaves (g target) k' b' v m) ->
  leaves (close bp target ;; ITree.bind (dup fd) g) k b v m.
Proof.
  intros Ht [ot Hot] Hne Ho Hsize Hg. destruct (leaves_close target k b) as [r Hc]. eapply leaves_bind; [exact Hc|]. intros k1 b1 H1.
  assert (size (fds k) <> 0)%nat as Hpos by (intros Hz; apply map_size_empty_inv in Hz; by rewrite Hz in Hot).
  destruct (leaves_dup fd o k1 b1) as (d & Hl & Hd); [by rewrite H1, lookup_delete_ne|rewrite H1, map_size_delete, Hot; lia|].
  assert (d = target) as -> by (eapply lowest_unique; [exact Hl|rewrite H1; by apply target_lowest]).
  eapply leaves_bind; [exact Hd|]. intros k2 b2 H2. apply Hg. by rewrite H2, H1, insert_delete_eq.
Qed.

Lemma leaves_take_end target fd o k b : target_ok target (fds k) -> is_Some (fds k !! target) -> fd <> target -> fds k !! fd = Some o -> (size (fds k) <= max_fds)%nat ->
  leaves (take_end bp msg target (Some fd)) k b tt (<[target := o]> (fds k)).
Proof.
  intros Ht Hs Hne Ho Hsize. eapply leaves_dup_to; [done..|]. intros k' b' <-. rewrite Z.eqb_refl. apply leaves_ret.
Qed.

Lemma leaves_open path flags k b : (size (fds k) < max_fds)%nat ->
  if opens k (as_bytes path) flags
  then exists r, lowest (fds k) r /\ leaves (open (as_str sp path) flags) k b r (<[r := file (as_bytes path)]> (fds k))
  else leaves (open (as_str sp path) flags) k b (-1) (fds k).
Proof.
  intros Hsize. destruct (fd_open k (as_str sp path) flags Hsize) as (k' & r & Hk & Hl). cbn [as_str bytes] in Hl. destruct (opens _ _ _).
  - destruct Hl as [Hl Hm]. exists r. split; [done|]. exists k', b. split; [|done].
    replace r with (as_isize r) at 1; [exact (run_syscall kernel load load8 store8 _ _ _ _ _ _ Hk)|].
    unfold as_isize. destruct Hl as [Hr _]. by rewrite (proj2 (Z.ltb_lt _ _)) by lia.
  - destruct Hl as [-> Hm]. exists k', b. split; [|done]. exact (run_syscall kernel load load8 store8 _ _ _ _ _ _ Hk).
Qed.

(** A redirection can be made: there is none, or its file can be opened. *)
Definition opened (k : K) (path : list Z) (flags : Z) : bool := is_nil path || opens k (as_bytes path) flags.

Lemma leaves_refused path flags target k b : (size (fds k) < max_fds)%nat -> opened k path flags = false ->
  leaves (redirect_file bp msg sp path flags target) k b false (fds k).
Proof.
  intros Hsize Ho. apply orb_false_iff in Ho as [Hnil Ho]. unfold redirect_file. rewrite Hnil.
  pose proof (leaves_open path flags k b Hsize) as Hl. rewrite Ho in Hl. eapply leaves_bind; [exact Hl|]. intros k1 b1 <-. cbn [Z.eqb Pos.eqb].
  eapply leaves_bind; [apply leaves_print|]. intros k2 b2 <-. apply leaves_ret.
Qed.

Lemma leaves_redirect path flags target k b :
  target_ok target (fds k) -> (forall j, 0 <= j <= target -> is_Some (fds k !! j)) -> (size (fds k) < max_fds)%nat -> opened k path flags = true ->
  leaves (redirect_file bp msg sp path flags target) k b true (if is_nil path then fds k else <[target := file (as_bytes path)]> (fds k)).
Proof.
  intros Ht Hopen Hsize Hof. unfold redirect_file, opened in *. destruct path as [|c path]; cbn [is_nil orb] in *; [apply leaves_ret|]. set (p := c :: path) in *.
  pose proof (leaves_open p flags k b Hsize) as Hl. rewrite Hof in Hl. destruct Hl as (r & (Hr & Hn & Hlow) & Ho). eapply leaves_bind; [exact Ho|]. intros k1 b1 H1.
  assert (0 <= target) as Ht0 by (destruct Ht as [->|[-> _]]; lia). assert (r <> target) as Hne.
  { intros ->. destruct (Hopen target ltac:(lia)) as [x Hx]. congruence. }
  rewrite (proj2 (Z.eqb_neq r (-1))) by lia. unfold as_usize. rewrite wrap64_small by lia.
  eapply (leaves_dup_to target r (file (as_bytes p))); rewrite ?H1.
  - destruct Ht as [->|[-> H0]]; [by left|right; split; [done|]]. rewrite lookup_insert_ne; [done|]. intros ->. destruct H0. congruence.
  - rewrite lookup_insert_ne by done. apply Hopen. lia.
  - done.
  - apply lookup_insert_eq.
  - rewrite map_size_insert_None by done. lia.
  - intros k2 b2 H2. rewrite Z.eqb_refl. eapply leaves_bind; [apply leaves_ret|]. intros k3 b3 H3.
    destruct (leaves_close r k3 b3) as [x Hc]. eapply leaves_bind; [exact Hc|]. intros k4 b4 H4. exists k4, b4. split; [apply run_ret|].
    rewrite H4, H3, H2, (insert_insert_ne _ target r) by done. by rewrite delete_insert_id by (by rewrite lookup_insert_ne).
Qed.

Fixpoint closed (pipes : list (Z * Z)) (m : gmap Z O) : gmap Z O :=
  match pipes with
  | [] => m
  | (r, w) :: rest => closed rest (delete w (delete r m))
  end.

Lemma leaves_close_pipes pipes : forall k b, leaves (close_pipes bp pipes) k b tt (closed pipes (fds k)).
Proof.
  induction pipes as [|[r w] pipes IH]; intros k b; cbn [close_pipes fst snd closed]; [apply leaves_ret|].
  destruct (leaves_close r k b) as [x Hx]. eapply leaves_bind; [exact Hx|]. intros k1 b1 H1.
  destruct (leaves_close w k1 b1) as [y Hy]. eapply leaves_bind; [exact Hy|]. intros k2 b2 H2. rewrite <-H1, <-H2. apply IH.
Qed.

Definition ends (pipes : list (Z * Z)) : list Z := '(r, w) ← pipes; [r; w].

Lemma lookup_closed pipes : forall m j, closed pipes m !! j = if decide (j ∈ ends pipes) then None else m !! j.
Proof.
  induction pipes as [|[r w] pipes IH]; intros m j; cbn [closed ends mbind list_bind app]; [done|]. rewrite IH. unfold ends.
  destruct (decide (j ∈ _)) as [Hin|Hin]; [by rewrite decide_True by set_solver|].
  destruct (decide (j = w)) as [->|Hw]; [by rewrite lookup_delete_eq, decide_True by set_solver|]. rewrite lookup_delete_ne by done.
  destruct (decide (j = r)) as [->|Hr]; [by rewrite lookup_delete_eq, decide_True by set_solver|]. rewrite lookup_delete_ne by done.
  by rewrite decide_False by set_solver.
Qed.

(** [m] is [m0] up to what standard input and output are. *)
Definition stdio (m0 m : gmap Z O) : Prop :=
  is_Some (m !! 0) /\ is_Some (m !! 1) /\ size m = size m0 /\ forall j, 1 < j -> m !! j = m0 !! j.

Lemma stdio_insert m0 m target o : target = 0 \/ target = 1 -> stdio m0 m -> stdio m0 (<[target := o]> m).
Proof.
  intros Ht (H0 & H1 & Hs & Hj). assert (is_Some (m !! target)) as Hm by (by destruct Ht as [-> | ->]). repeat split.
  - destruct (decide (target = 0)) as [->|]; [by rewrite lookup_insert_eq|by rewrite lookup_insert_ne].
  - destruct (decide (target = 1)) as [->|]; [by rewrite lookup_insert_eq|by rewrite lookup_insert_ne].
  - by rewrite map_size_insert_Some.
  - intros j Hlt. rewrite lookup_insert_ne by lia. by apply Hj.
Qed.

Lemma stdio_target m0 m target : target = 0 \/ target = 1 -> stdio m0 m -> target_ok target m /\ forall j, 0 <= j <= target -> is_Some (m !! j).
Proof.
  intros Ht (H0 & H1 & _). split; [destruct Ht as [-> | ->]; [by left|by right]|]. intros j Hj.
  assert (j = 0 \/ j = 1) as [-> | ->] by lia; done.
Qed.

(** What a redirection or an end of a pipe makes of a target. *)
Definition named (path : list Z) (target : Z) (m : gmap Z O) : gmap Z O :=
  if is_nil path then m else <[target := file (as_bytes path)]> m.
Definition taken (b : bool) (target : Z) (o : O) (m : gmap Z O) : gmap Z O := if b then <[target := o]> m else m.

Lemma stdio_named m0 m path target : target = 0 \/ target = 1 -> stdio m0 m -> stdio m0 (named path target m).
Proof. unfold named. destruct (is_nil path); [done|apply stdio_insert]. Qed.

Lemma stdio_taken m0 m c target o : target = 0 \/ target = 1 -> stdio m0 m -> stdio m0 (taken c target o m).
Proof. destruct c; [apply stdio_insert|done]. Qed.

(** What a redirection answers and leaves. *)
Definition redirected (k : K) (path : list Z) (flags target : Z) : gmap Z O :=
  if opened k path flags then named path target (fds k) else fds k.

Lemma leaves_named path flags target m0 k b : target = 0 \/ target = 1 -> stdio m0 (fds k) -> (size m0 < max_fds)%nat ->
  leaves (redirect_file bp msg sp path flags target) k b (opened k path flags) (redirected k path flags target).
Proof.
  intros Ht Hk Hsize. destruct (stdio_target _ _ _ Ht Hk) as [Hok Hopen]. assert (size (fds k) < max_fds)%nat by (destruct Hk as (_ & _ & -> & _); done).
  unfold redirected. destruct (opened k path flags) eqn:Ho; [by apply leaves_redirect|by apply leaves_refused].
Qed.

Lemma leaves_taken (P : Prop) `{!Decision P} target fd o m0 k b : target = 0 \/ target = 1 -> stdio m0 (fds k) -> (size m0 < max_fds)%nat ->
  (P -> exists e, fd = Some e /\ 1 < e /\ m0 !! e = Some o) ->
  leaves (if decide P then take_end bp msg target fd else Ret tt) k b tt (taken (bool_decide P) target o (fds k)).
Proof.
  intros Ht Hk Hsize Hfd. destruct (decide P) as [HP|HP]; [rewrite bool_decide_eq_true_2 by done|rewrite bool_decide_eq_false_2 by done; apply leaves_ret].
  destruct (Hfd HP) as (e & -> & He & Ho).
  destruct (stdio_target _ _ _ Ht Hk) as [Hok Hopen]. destruct Hk as (_ & _ & Hs & Hj).
  apply leaves_take_end; [done|apply Hopen; lia|lia|by rewrite Hj|lia].
Qed.

(** The ends of a pipe are open. *)
Lemma open_ends pipes (m : gmap Z O) i e : Forall (fun fd => 1 < fd /\ is_Some (m !! fd)) (ends pipes) -> pipes !! i = Some e ->
  (1 < fst e /\ is_Some (m !! fst e)) /\ (1 < snd e /\ is_Some (m !! snd e)).
Proof.
  intros Hall Hi. rewrite Forall_forall in Hall. destruct e as [r w]. apply list_elem_of_lookup_2 in Hi.
  split; apply Hall; unfold ends; apply list_elem_of_bind; exists (r, w); (split; [|done]); cbn; set_solver.
Qed.

Lemma lookup_named path target m j : named path target m !! j = if decide (j = target) then (if is_nil path then m !! j else Some (file (as_bytes path))) else m !! j.
Proof. unfold named. destruct (is_nil path); [by destruct (decide _)|]. destruct (decide (j = target)) as [->|]; [apply lookup_insert_eq|by rewrite lookup_insert_ne]. Qed.

Lemma lookup_taken c target o m j : taken c target o m !! j = if decide (j = target) then (if c then Some o else m !! j) else m !! j.
Proof. unfold taken. destruct c; [|by destruct (decide _)]. destruct (decide (j = target)) as [->|]; [apply lookup_insert_eq|by rewrite lookup_insert_ne]. Qed.

Abbreviation INPUT := (open_flags_bits RDONLY) (only parsing).
Abbreviation OUTPUT := (Z.lor (open_flags_bits CREATE) (open_flags_bits WRONLY)) (only parsing).

(** The last steps of [connect], once it is known what the ends to take are. *)
Lemma leaves_ends i n pipes m0 k b oi oo : stdio m0 (fds k) -> (size m0 < max_fds)%nat ->
  ((0 < i)%nat -> exists e, fst <$> pipes !! (i - 1)%nat = Some e /\ 1 < e /\ m0 !! e = Some oi) ->
  ((i < n - 1)%nat -> exists e, snd <$> pipes !! i = Some e /\ 1 < e /\ m0 !! e = Some oo) ->
  leaves ((if decide (0 < i)%nat then take_end bp msg 0 (fst <$> pipes !! (i - 1)%nat) else Ret tt) ;;
          (if decide (i < n - 1)%nat then take_end bp msg 1 (snd <$> pipes !! i) else Ret tt) ;;
          close_pipes bp pipes ;; Ret true) k b true
    (closed pipes (taken (bool_decide (i < n - 1)%nat) 1 oo (taken (bool_decide (0 < i)%nat) 0 oi (fds k)))).
Proof.
  intros S2 Hsize Hi Ho. eapply leaves_bind; [apply (leaves_taken _ _ _ oi m0); [by left|done..]|]. intros k3 b3 E3.
  assert (stdio m0 (fds k3)) as S3 by (rewrite E3; apply stdio_taken; [by left|done]).
  eapply leaves_bind; [apply (leaves_taken _ _ _ oo m0); [by right|done..]|]. intros k4 b4 E4.
  eapply leaves_bind; [apply leaves_close_pipes|]. intros k5 b5 E5. exists k5, b5. split; [apply run_ret|]. by rewrite E5, E4, E3.
Qed.

Lemma stdio_redirected m0 k path flags target : target = 0 \/ target = 1 -> stdio m0 (fds k) -> stdio m0 (redirected k path flags target).
Proof. unfold redirected. destruct (opened _ _ _); [apply stdio_named|done]. Qed.

(** What [connect] leaves; [k1] is the state after the redirection of the input. *)
Lemma leaves_connect i n p pipes k b oi oo : stdio (fds k) (fds k) -> (size (fds k) < max_fds)%nat ->
  ((0 < i)%nat -> exists e, fst <$> pipes !! (i - 1)%nat = Some e /\ 1 < e /\ fds k !! e = Some oi) ->
  ((i < n - 1)%nat -> exists e, snd <$> pipes !! i = Some e /\ 1 < e /\ fds k !! e = Some oo) ->
  exists k1 b1, run (redirect_file bp msg sp (input p) INPUT 0) k b ≈ Ret ((k1, b1), opened k (input p) INPUT) /\
    let ok := opened k (input p) INPUT && opened k1 (output p) OUTPUT in
    leaves (connect bp msg sp i n p pipes) k b ok
      (if ok then closed pipes (taken (bool_decide (i < n - 1)%nat) 1 oo (taken (bool_decide (0 < i)%nat) 0 oi (named (output p) 1 (named (input p) 0 (fds k)))))
       else redirected k (input p) INPUT 0).
Proof.
  set (m0 := fds k). intros S0 Hsize Hi Ho.
  destruct (leaves_named (input p) INPUT 0 m0 k b (or_introl eq_refl) S0 Hsize) as (k1 & b1 & H1 & E1). exists k1, b1. split; [done|].
  assert (stdio m0 (fds k1)) as S1 by (rewrite E1; apply stdio_redirected; [by left|done]). unfold connect.
  destruct (opened k (input p) INPUT) eqn:Oi; cbn [andb].
  2: { exists k1, b1. split; [|exact E1]. eapply run_step; [exact H1|]. apply run_ret. }
  destruct (leaves_named (output p) OUTPUT 1 m0 k1 b1 (or_intror eq_refl) S1 Hsize) as (k2 & b2 & H2 & E2).
  assert (stdio m0 (fds k2)) as S2 by (rewrite E2; apply stdio_redirected; [by right|done]).
  unfold redirected in E1, E2. rewrite Oi in E1. unfold redirected. rewrite Oi.
  destruct (opened k1 (output p) OUTPUT) eqn:Oo.
  - destruct (leaves_ends i n pipes m0 k2 b2 oi oo S2 Hsize Hi Ho) as (k3 & b3 & H3 & E3). exists k3, b3. split.
    + eapply run_step; [exact H1|]. cbn iota. eapply run_step; [exact H2|]. exact H3.
    + by rewrite E3, E2, E1.
  - exists k2, b2. split; [|by rewrite E2, E1]. eapply run_step; [exact H1|]. cbn iota. eapply run_step; [exact H2|]. apply run_ret.
Qed.

(** C27: The processes of a pipeline are connected.  Command [i] of [n] runs in a child that has
    standard input and output and all ends of the pipes open.  It is connected if and only
    if the files named by its redirections can be opened, the output after the input.  Then
    it gets as its input the read end of the pipe before it, or the file named, or what it
    had; as its output the write end of the pipe after it, or the file named, or what it
    had; no other end of a pipe is left open in it, and all other descriptors are as before.
    If a file cannot be opened, the child learns that, and at most its input was replaced. *)
Theorem pipeline_connected i n p pipes k b o0 o1 :
  length pipes = (n - 1)%nat -> (i < n)%nat -> fds k !! 0 = Some o0 -> fds k !! 1 = Some o1 -> (size (fds k) < max_fds)%nat ->
  Forall (fun fd => 1 < fd /\ is_Some (fds k !! fd)) (ends pipes) ->
  let stdin := if decide (0 < i)%nat then pipes !! (i - 1)%nat ≫= fun e => fds k !! fst e else Some (if is_nil (input p) then o0 else file (as_bytes (input p))) in
  let stdout := if decide (i < n - 1)%nat then pipes !! i ≫= fun e => fds k !! snd e else Some (if is_nil (output p) then o1 else file (as_bytes (output p))) in
  exists k1 b1, run (redirect_file bp msg sp (input p) INPUT 0) k b ≈ Ret ((k1, b1), opened k (input p) INPUT) /\
    let ok := opened k (input p) INPUT && opened k1 (output p) OUTPUT in
    exists k' b', run (connect bp msg sp i n p pipes) k b ≈ Ret ((k', b'), ok) /\ is_Some stdin /\ is_Some stdout /\
      if ok then forall j, fds k' !! j = if decide (j = 0) then stdin else if decide (j = 1) then stdout else if decide (j ∈ ends pipes) then None else fds k !! j
      else fds k' = redirected k (input p) INPUT 0.
Proof.
  intros Hlen Hi H0 H1 Hsize Hall stdin stdout.
  assert (is_Some stdin) as [oi Hin].
  { unfold stdin. destruct (decide (0 < i)%nat); [|done]. destruct (lookup_lt_is_Some_2 pipes (i - 1)) as [e He]; [lia|]. rewrite He. by apply (open_ends _ _ _ _ Hall He). }
  assert (is_Some stdout) as [oo Hout].
  { unfold stdout. destruct (decide (i < n - 1)%nat); [|done]. destruct (lookup_lt_is_Some_2 pipes i) as [e He]; [lia|]. rewrite He. by apply (open_ends _ _ _ _ Hall He). }
  destruct (leaves_connect i n p pipes k b oi oo) as (k1 & b1 & Hr1 & k' & b' & Hr & Hk); [by unfold stdio; rewrite H0, H1|done|..].
  - intros Hlt. unfold stdin in Hin. rewrite decide_True in Hin by done. destruct (pipes !! (i - 1)%nat) as [e|] eqn:He; [|done].
    exists (fst e). destruct (open_ends _ _ _ _ Hall He) as [[]]. split_and!; [done|done|exact Hin].
  - intros Hlt. unfold stdout in Hout. rewrite decide_True in Hout by done. destruct (pipes !! i) as [e|] eqn:He; [|done].
    exists (snd e). destruct (open_ends _ _ _ _ Hall He) as [_ []]. split_and!; [done|done|exact Hout].
  - exists k1, b1. split; [exact Hr1|]. exists k', b'. rewrite Hin, Hout. split_and!; [exact Hr|done|done|]. destruct (_ && _); [|exact Hk].
    intros j. rewrite Hk, lookup_closed, !lookup_taken, !lookup_named.
    assert (forall t, t <= 1 -> t ∉ ends pipes) as Hends by (intros t Hle Hin'; rewrite Forall_forall in Hall; destruct (Hall t Hin'); lia).
    destruct (decide (j = 0)) as [->|]; [|destruct (decide (j = 1)) as [->|]; [|done]].
    + rewrite decide_False by (apply Hends; lia).
      unfold stdin in Hin. rewrite (decide_False (P := 0 = 1)), bool_decide_decide by done. destruct (decide (0 < i)%nat); [done|]. rewrite <-Hin, H0. by destruct (is_nil (input p)).
    + rewrite decide_False by (apply Hends; lia).
      unfold stdout in Hout. rewrite bool_decide_decide by done. destruct (decide (i < n - 1)%nat); [done|].
      rewrite <-Hout, H1. by destruct (is_nil (output p)).
Qed.

End Connect.

(** A kernel whose state is its table of descriptors; an open file is its path.  The only file
    that exists is "in"; others can be opened only to be created. *)
Module FdTable.

Definition free_fd (m : gmap Z (list Z)) : Z := default 0 (snd <$> list_find (fun fd => m !! fd = None) (seqZ 0 (Z.of_nat (size m) + 1))).

Definition can_open (path : list Z) (flags : Z) : bool := bool_decide (path = nul (text "in")) || Z.testbit flags 9.

Definition kernel (m : gmap Z (list Z)) (id : Z) (args : list arg) : gmap Z (list Z) * Z :=
  match args with
  | Num a :: rest =>
      if id =? SYSCALL_CLOSE then (delete a m, 0)
      else if id =? SYSCALL_DUP then
        match m !! a with
        | Some o => (<[free_fd m := o]> m, free_fd m)
        | None => (m, 2 ^ 64 - 1)
        end
      else if id =? SYSCALL_OPENAT then
        match rest with
        | Ptr path :: Num flags :: _ => if can_open (bytes path) flags then (<[free_fd m := bytes path]> m, free_fd m) else (m, 2 ^ 64 - 1)
        | _ => (m, 2 ^ 64 - 1)
        end
      else (m, 0)
  | _ => (m, 2 ^ 64 - 1)
  end.

Lemma free_fd_lowest m : (size m < 16)%nat -> lowest m (free_fd m).
Proof.
  intros Hsize. unfold free_fd. destruct (list_find _ _) as [[i fd]|] eqn:Hf.
  - apply list_find_Some in Hf as (Hi & Hn & Hlow). apply lookup_seqZ in Hi as [-> Hi]. cbn. split; [lia|]. split; [done|].
    intros j Hj. apply not_eq_None_Some. apply (Hlow (Z.to_nat j) j); [apply lookup_seqZ; lia|lia].
  - exfalso. apply list_find_None in Hf. rewrite Forall_forall in Hf.
    assert (list_to_set (seqZ 0 (Z.of_nat (size m) + 1)) ⊆ (dom m : gset Z)) as Hsub.
    { intros j Hj. apply elem_of_list_to_set in Hj. apply elem_of_dom, not_eq_None_Some, Hf, Hj. }
    apply subseteq_size in Hsub. rewrite size_list_to_set, length_seqZ, size_dom in Hsub by apply NoDup_seqZ. lia.
Qed.

#[global, refine] Instance fd_kernel : FdKernel kernel (list Z) := 
  {| fds m := m; file path := path; opens _ := can_open; max_fds := 16 |}.
Proof.
  - intros k fd. by eexists _, _.
  - intros k fd o Ho Hsize. exists (<[free_fd k := o]> k), (free_fd k). split; [cbn in *; by rewrite Ho|]. split; [by apply free_fd_lowest|done].
  - intros k path flags Hsize. unfold kernel. cbn -[can_open free_fd Z.pow]. destruct (can_open _ _).
    + exists (<[free_fd k := bytes path]> k), (free_fd k). split; [done|]. split; [by apply free_fd_lowest|done].
    + by exists k, (2 ^ 64 - 1).
  - intros k fd buf. by eexists _, _.
Defined.

(** A shell with two pipes. *)
Definition two_pipes : gmap Z (list Z) :=
  list_to_map [(0, text "stdin"); (1, text "stdout"); (2, text "stderr"); (3, text "r0"); (4, text "w0"); (5, text "r1"); (6, text "w1")].

End FdTable.

Lemma two_pipes_open : Forall (fun fd => 1 < fd /\ is_Some (FdTable.two_pipes !! fd)) (ends [(3, 4); (5, 6)]).
Proof. repeat (constructor; [split; [lia|by eexists; vm_compute]|]). constructor. Qed.

Lemma pipeline_connected_witness :
  let run u := UserSpec.run FdTable.kernel (fun _ _ => 0) (fun _ _ => 0) (fun k _ _ => k) u FdTable.two_pipes [] in
  let first name := connect 8192 [] (fun _ => 0) 0 3 (mk_process_arguments (nul (text name)) [] [nul (text "sort")]) [(3, 4); (5, 6)] in
  (exists k' b', run (first "in"%string) ≈ Ret ((k', b'), true) /\
    (fun j => k' !! j) <$> seqZ 0 7 = [Some (nul (text "in")); Some (text "w0"); Some (text "stderr"); None; None; None; None]) /\
  exists k' b', run (first "no"%string) ≈ Ret ((k', b'), false) /\ k' = FdTable.two_pipes.
Proof.
  cbv zeta. split.
  - edestruct (pipeline_connected (O := list Z) FdTable.kernel (fun _ _ => 0) (fun _ _ => 0) (fun k _ _ => k) 8192 [] (fun _ => 0) 0 3
      (mk_process_arguments (nul (text "in")) [] [nul (text "sort")]) [(3, 4); (5, 6)] FdTable.two_pipes []) as (k1 & b1 & _ & k' & b' & Hr & _ & _ & Hk);
      [done|lia|by vm_compute|by vm_compute|apply (bool_decide_unpack _); by vm_compute|exact two_pipes_open|].
    exists k', b'. split; [exact Hr|]. etrans; [apply list_fmap_ext; intros ? j _; exact (Hk j)|]. by vm_compute.
  - edestruct (pipeline_connected (O := list Z) FdTable.kernel (fun _ _ => 0) (fun _ _ => 0) (fun k _ _ => k) 8192 [] (fun _ => 0) 0 3
      (mk_process_arguments (nul (text "no")) [] [nul (text "sort")]) [(3, 4); (5, 6)] FdTable.two_pipes []) as (k1 & b1 & _ & k' & b' & Hr & _ & _ & Hk);
      [done|lia|by vm_compute|by vm_compute|apply (bool_decide_unpack _); by vm_compute|exact two_pipes_open|].
    exists k', b'. split; [exact Hr|exact Hk].
Defined.

(** * The first process never exits

    A logic for what a user program does on every answer of the kernel: [keeps] says that the
    program makes at least a number of events, all of them allowed, unless it returns before;
    what the kernel may answer is a rely condition.  By it the parent in ch5b_initproc.rs
    waits for ever. *)

Section Keeps.
Context (ok : forall X, userE X -> Prop) (rely : forall X, userE X -> X -> Prop).

(** Up to the next event of a program with [n] events to go: it is allowed, and the program
    goes on as [P] wants after every answer; or the program returns as [R] wants. *)
Inductive emits {A} (P : itree userE A -> Prop) (R : A -> Prop) : itree' userE A -> Prop :=
| emits_ret a : R a -> emits P R (RetF a)
| emits_tau u : emits P R (observe u) -> emits P R (TauF u)
| emits_vis X (e : userE X) k : ok X e -> (forall x, rely X e x -> P (k x)) -> emits P R (VisF e k).

Fixpoint keeps {A} (R : nat -> A -> Prop) (n : nat) (u : itree userE A) : Prop :=
  match n with
  | O => True
  | S n' => emits (keeps R n') (R n) (observe u)
  end.

Lemma emits_mono {A} (P Q : itree userE A -> Prop) (R S : A -> Prop) u :
  (forall v, P v -> Q v) -> (forall a, R a -> S a) -> emits P R u -> emits Q S u.
Proof. intros HP HR. induction 1; constructor; auto. Qed.

Lemma keeps_mono {A} (R S : nat -> A -> Prop) n : (forall m a, (m <= n)%nat -> R m a -> S m a) -> forall u, keeps R n u -> keeps S n u.
Proof.
  induction n as [|n IH]; intros HRS u; [done|]. cbn [keeps]. apply emits_mono; [|intros a; by apply HRS]. apply IH. intros m a Hm. apply HRS. lia.
Qed.

Lemma keeps_ret {A} (R : nat -> A -> Prop) n a : R n a -> keeps R n (Ret a).
Proof. destruct n; [done|]. by constructor. Qed.

Lemma keeps_tau {A} (R : nat -> A -> Prop) n u : keeps R n u -> keeps R n (Tau u).
Proof. destruct n; [done|]. by constructor. Qed.

Lemma keeps_trigger {X} (e : userE X) n : ok X e -> keeps (fun m x => (m < n)%nat /\ rely X e x) n (ITree.trigger e).
Proof.
  intros He. destruct n as [|n]; [done|]. apply (emits_vis _ _ X e); [done|]. intros x Hx. apply keeps_ret. split; [lia|done].
Qed.

Lemma keeps_bind {A B} (R : nat -> A -> Prop) (Q : nat -> B -> Prop) (f : A -> itree userE B) n :
  (forall m a, (m <= n)%nat -> R m a -> keeps Q m (f a)) -> forall u, keeps R n u -> keeps Q n (ITree.bind u f).
Proof.
  induction n as [|n IH]; intros Hf u; [done|]. cbn [keeps]. intros Hu.
  change (observe (ITree.bind u f)) with
    (observe (match observe u with RetF a => f a | TauF t => Tau (ITree.bind t f) | VisF e k => Vis e (fun x => ITree.bind (k x) f) end)).
  induction Hu as [a Ha|u' _ IHu|X e k He Hk].
  - exact (Hf (S n) a ltac:(lia) Ha).
  - constructor. exact IHu.
  - constructor; [done|]. intros x Hx. apply IH; [|by apply Hk]. intros m a Hm. apply Hf. lia.
Qed.

(** A loop whose body makes an event each time. *)
Lemma keeps_iter {I A} (R : nat -> A -> Prop) (body : I -> itree userE (I + A)) n :
  (forall m i, (m <= n)%nat -> keeps (fun m' r => (m' < m)%nat /\ match r with inl _ => True | inr a => R m' a end) m (body i)) ->
  forall i, keeps R n (ITree.iter body i).
Proof.
  intros Hbody. induction n as [n IH] using lt_wf_ind. intros i.
  assert (keeps R n (ITree.bind (body i) (fun lr => ITree.on_left lr l (Tau (ITree.iter body l))))) as H.
  { eapply keeps_bind; [|by apply Hbody]. intros m [j|a] Hm [Hlt Ha]; [|by apply keeps_ret]. apply keeps_tau, IH; [lia|].
    intros m' i' Hm'. apply Hbody. lia. }
  by destruct n.
Qed.

End Keeps.

(** No event is the system call [exit]; the kernel answers [fork] as it does in the parent. *)
Definition not_exit (X : Type) (e : userE X) : Prop :=
  match e with
  | Ecall id _ => id <> SYSCALL_EXIT
  | _ => True
  end.
Definition in_parent (X : Type) (e : userE X) : X -> Prop :=
  match e in userE X return X -> Prop with
  | Ecall id _ => fun r => id = SYSCALL_FORK -> as_isize r <> 0
  | _ => fun _ => True
  end.

Abbreviation lives := (keeps not_exit in_parent).
(** The program makes an event before it returns; it may return at once. *)
Abbreviation acts n := (fun m _ => (m < n)%nat) (only parsing).
Abbreviation quiet n := (fun m _ => (m <= n)%nat) (only parsing).

Lemma keeps_step {A B} (Q : nat -> B -> Prop) (u : itree userE A) (f : A -> itree userE B) n :
  lives (acts n) n u -> (forall m a, (m < n)%nat -> lives Q m (f a)) -> lives Q n (ITree.bind u f).
Proof. intros Hu Hf. eapply keeps_bind; [|exact Hu]. intros m a _. apply Hf. Qed.

Lemma keeps_pass {A B} (Q : nat -> B -> Prop) (u : itree userE A) (f : A -> itree userE B) n :
  lives (quiet n) n u -> (forall m a, (m <= n)%nat -> lives Q m (f a)) -> lives Q n (ITree.bind u f).
Proof. intros Hu Hf. eapply keeps_bind; [|exact Hu]. intros m a _. apply Hf. Qed.

Lemma keeps_syscall id args n : id <> syscall_number SYSCALL_EXIT ->
  lives (fun m r => (m < n)%nat /\ (id = syscall_number SYSCALL_FORK -> r <> 0)) n (syscall id args).
Proof.
  intros Hid. eapply keeps_bind; [|apply keeps_trigger; exact Hid]. intros m r _ [Hm Hr]. by apply keeps_ret.
Qed.

Lemma acts_syscall id args n : id <> syscall_number SYSCALL_EXIT -> lives (acts n) n (syscall id args).
Proof. intros Hid. eapply keeps_mono; [|by apply keeps_syscall]. by intros m a _ []. Qed.

Lemma acts_event {X} (e : userE X) n : not_exit X e -> lives (acts n) n (ITree.trigger e).
Proof. intros He. eapply keeps_mono; [|by apply keeps_trigger]. by intros m a _ []. Qed.

Lemma quiet_flush bp n : lives (quiet n) n (ConsoleBuffer_flush bp).
Proof.
  unfold ConsoleBuffer_flush. eapply keeps_step; [by apply acts_event|]. intros m b Hm.
  eapply keeps_step; [by apply acts_syscall|]. intros m' r Hm'. eapply keeps_step; [by apply acts_event|]. intros m'' [] Hm''. apply keeps_ret. lia.
Qed.

Lemma quiet_write_str bp s : forall n, lives (quiet n) n (write_str bp s).
Proof.
  induction s as [|c s IH]; intros n; cbn [write_str]; [apply keeps_ret; lia|].
  eapply keeps_step; [by apply acts_event|]. intros m b Hm. eapply keeps_step; [by apply acts_event|]. intros m' [] Hm'.
  destruct (_ || _).
  - eapply keeps_pass; [apply quiet_flush|]. intros m'' r Hm''. destruct (r =? -1); [apply keeps_ret; lia|].
    eapply keeps_mono; [|apply IH]. cbn. lia.
  - eapply keeps_mono; [|apply IH]. cbn. lia.
Qed.

Lemma quiet_print bp pieces : forall n, lives (quiet n) n (print bp pieces).
Proof.
  induction pieces as [|s pieces IH]; intros n; cbn [print]; [apply keeps_ret; lia|].
  eapply keeps_pass; [apply quiet_write_str|]. intros m [] Hm; [|apply keeps_ret; lia]. eapply keeps_mono; [|apply IH]. cbn. lia.
Qed.

Lemma acts_wait exit_ptr n : lives (acts n) n (wait exit_ptr).
Proof.
  apply keeps_iter. intros m [] Hm. eapply keeps_step; [by apply acts_syscall|]. intros m' r Hm'. destruct (r =? -2).
  - eapply keeps_step; [by apply acts_syscall|]. intros m'' r' Hm''. apply keeps_ret. split; [lia|done].
  - apply keeps_ret. lia.
Qed.

(** C28: The first process does not exit.  On every sequence of answers of the kernel in which
    [fork] answers as in the parent, the process that runs the program of [INITPROC] never
    makes the system call [exit] and never stops making events: an exit of [INITPROC], on
    which the kernel panics, does not happen. *)
Theorem initproc_never_exits bp msg sp args_ptr exit_ptr decimal argv n :
  lives (fun _ _ => False) n (start bp msg (fun _ _ => initproc bp sp args_ptr exit_ptr decimal) 0 argv).
Proof.
  eapply keeps_bind; [|by apply (keeps_ret _ _ (fun m a => a = Some []))]. intros m v _ ->.
  eapply keeps_bind with (R := fun _ _ => False); [done|]. unfold initproc.
  eapply keeps_bind; [|by apply keeps_syscall]. intros m' pid _ [Hm' Hpid]. rewrite (proj2 (Z.eqb_neq pid 0)) by (by apply Hpid).
  apply keeps_iter. intros i [] Hi. eapply keeps_step; [apply acts_wait|]. intros i' pid' Hi'. destruct (pid' =? -1).
  - eapply keeps_step; [by apply acts_syscall|]. intros j r Hj. apply keeps_ret. split; [lia|done].
  - eapply keeps_step; [by apply acts_event|]. intros j code Hj. eapply keeps_pass; [apply quiet_print|]. intros j' [] Hj'. apply keeps_ret. split; [lia|done].
Qed.
